(* ===== verification/_CoqProject ===== *)
-Q . S2P
Prelude.v
PyValue.v
Atomic.v
Json.v
JsonProps.v
Envelopes.v
EnvelopesProps.v
Contracts.v
Frames.v
Snapshots.v
SnapshotsProps.v
NodeChannel.v
Listener.v
ListenerProps.v
DeliveryProps.v
CommandProps.v
TransferProps.v
Session.v
SessionProps.v
Status.v
StatusProps.v
Placement.v
PlacementProps.v
Receipts.v
ReceiptCodec.v
ReceiptCodecProps.v
Bindings.v
BindingsProps.v
Ledger.v
LedgerProps.v
Manifest.v
ManifestProps.v
StatusApi.v
StatusApiProps.v
PublishProps.v
StatusApiDemo.v
HeadChannel.v
HeadLedgerProps.v
HeadChannelProps.v
HeadMoves.v
HeadProps.v
HeadEvidence.v
HeadStart.v
HeadReconnect.v
HeadDemo.v
RankClient.v
RankClientProps.v
RankDemo.v
Readiness.v
ReadinessProps.v
Supervisor.v
SupervisorProps.v
Composition.v
VerdictProps.v
PayloadProps.v
CompositionProps.v
MonitorProps.v
CompositionDemo.v
Shutdown.v
ShutdownProps.v
ShutdownDemo.v
Supervision.v
SupervisionProps.v
SupervisionDemo.v
Ports.v
PortsProps.v
