(* ===== verification/Prelude.v ===== *)
(** * A verification of the ExaServe control plane

    ExaServe (src/exaserve) deploys model servers on a batch allocation: it
    compiles an intent document into an immutable deployment plan, binds the plan
    to the nodes of the allocation, starts one supervisor per node, collects
    typed evidence (receipts) from every process over authenticated rank
    sessions, and publishes READY only while the plan is exactly met. This
    development models that core in Gallina, operation by operation, and proves
    what it promises.

    ** The program's parts and the files that model them

    - Prelude.v (this file): results of calls that may raise, the loops [for_each]
      and [fold_res], shared tactics, sorted integer lists.
    - PyValue.v: what the source uses of Python: doubles, JSON values with
      insertion-ordered dictionaries, comparisons between [int] and [float],
      ASCII text. A dictionary is an association list where order is observable
      and a [gmap] where it is not.
    - Atomic.v (state/atomic.py): what becomes of a durable write, of an exclusive
      creation and of a lease: done, raised before its effect, or raised although the
      effect is visible (the fsync of the directory and the release of the lease come
      after the rename).
    - Contracts.v (plan/contracts.py): the plan and its parts, one module per
      dataclass with its [__post_init__]; receipt requirements derived from the
      topology; the allocation binding and the component instance binding.
    - Json.v, JsonProps.v: the JSON of Python's [json] module that the control plane
      uses: canonical printing, the strict reader with unique keys, UTF-8; the text of
      doubles is an interface ([FloatText], [FloatTextLaws]) with one instance.
    - Envelopes.v, EnvelopesProps.v (control/contracts.py): observations, envelopes,
      their validation, encoding and decoding.
    - Frames.v (control/transport.py): length-prefixed frames authenticated by a MAC.
    - Snapshots.v, SnapshotsProps.v (control/transport.py): command and result
      payloads, canonical snapshot items, set hash, chunk assembly.
    - NodeChannel.v (class NodeChannel of control/transport.py): the rank's end of the
      channel, a state monad over what the peer and the socket do.
    - Listener.v (class ControlListener of control/transport.py): the head's end. The
      session object that the handler and the session table share is kept in a store
      under the number of its connection; [step] is one turn of one handler or one
      call of the head, and a run is a sequence of steps of any connections.
    - ListenerProps.v, DeliveryProps.v, CommandProps.v, TransferProps.v: the
      invariant of the listener, sessions and observations, command identity at both
      ends, and a snapshot's way from the rank to the head.
    - Placement.v, PlacementProps.v (plan/compiler.py): model intents and the
      placement resolver (explicit replicas, automatic pipelines, round-robin).
    - Session.v, SessionProps.v (control/session.py): the [SessionCoordinator],
      with every method a function on its state, and [HeadDriver], the way
      control/channel_runtime.py drives it. An [event] is one method call.
    - Receipts.v (compat/receipt_v2.py, compat/profile.py): the receipt value, its
      validation, and the patch requirements of a profile.
    - Bindings.v, BindingsProps.v (state/bindings.py): the append-only binding
      store: published segments, pending events, projection, recovery.
    - Ledger.v, LedgerProps.v (compat/receipt_v2.py): the exact receipt ledger.
      It reaches the binding store through the class [BindingStore], which
      LedgerProps.v instantiates with Bindings.v.
    - Status.v, StatusProps.v (state/status.py): the compare-and-set status store,
      generic in the class [Lifecycle], with the deployment and the run lifecycle
      as instances.
    - ReceiptCodec.v, ReceiptCodecProps.v (compat/receipt_v2.py): the wire form of
      receipts: canonical dictionary, decoding, validation of untyped fields.
    - HeadChannel.v (class HeadChannel of control/channel_runtime.py): the sinks that
      feed the session coordinator and the ledger from the listener, the ordered
      durable writer, polling, start phases and shutdown. A coroutine that waits for
      the writer is a phase of its snapshot; [event] is one callback, one turn of the
      worker, one resumption or one call of the owner, in any order.
    - HeadLedgerProps.v, HeadChannelProps.v, HeadMoves.v, HeadProps.v, HeadEvidence.v,
      HeadStart.v, HeadReconnect.v: its theorems; HeadMoves.v reduces every event to
      a few kinds of moves, over which the invariants are proved. HeadDemo.v holds
      the concrete run on which their hypotheses are met.
    - RankClient.v, RankClientProps.v, RankDemo.v (class RankClient of
      control/channel_runtime.py): the rank's end above NodeChannel.v: initial
      snapshot, observations, receipts, start gate, lease maintenance with its bounded
      reconnection.
    - Readiness.v, ReadinessProps.v (control/plan_readiness.py): the readiness
      coordinator: validated evidence, the plan-derived verdict, the phases. It
      reads the ledger and the session coordinator, which it shares.
    - Supervisor.v, SupervisorProps.v (control/supervisor.py): managed components
      and the runtime supervisor, against an operating system given as an
      environment.
    - Manifest.v, ManifestProps.v (state/receipts.py): the immutable manifest of the
      accepted receipts, with the checks of its constructor on untyped fields.
    - StatusApi.v, StatusApiProps.v, PublishProps.v, StatusApiDemo.v (status_api.py): the
      publisher of the deployment status with its READY lease, and the strict reader. The
      run directory is a record of files that both share.
    - Composition.v (composition.py, launcher.py): the composition root above all of
      these: it applies the evidence of the deployment child to the readiness
      coordinator, waits for the first ready verdict, publishes READY, and monitors it.
      A turn of a loop is a record of what the probes answer in it.
      VerdictProps.v, PayloadProps.v: what the verdict of the coordinator looks like as a
      published payload; CompositionProps.v: the publication of READY; MonitorProps.v: the
      launch and the monitor; CompositionDemo.v: a concrete deployment of one node.
    - Shutdown.v, ShutdownProps.v, ShutdownDemo.v (composition.py, launcher.py): the end of
      a run: first cause, ordered cleanup, shutdown report, terminal state, exit status.
    - Supervision.v, SupervisionProps.v, SupervisionDemo.v (control/supervisor.py,
      launcher.py): the supervision loop with signals and the launcher's predicate, which
      polls the control channel and runs the monitor, up to the exit status of the run; the
      bounded capture of a child's output.
    - Ports.v, PortsProps.v (state/ports.py): port leases among the processes of a node; a
      claim is a file, and a step of the node is one guarded section of one process, the
      start or the death of a process, also inside a claim.

    State is a record per class; an operation returns the new state together with
    its result, so that what a raising call leaves behind is part of the model.
    Exceptions are values of an error type per module. Clocks, hashes, leases,
    file-system failures and the operating system are arguments of the
    operations; hash functions and the timestamp syntax are section variables.

    Failures have the order the code gives them. A durable write is visible from its
    rename or link on, so that a call that raises afterwards leaves the new file and the
    caller's old knowledge behind; a frame is handed to the transport before the drain
    that may raise; a step of the shutdown may raise what its handler does not name.

    ** What the theorems show

    - Sessions: START is a registration barrier; a session is established only by
      the exact acknowledgment of its own complete snapshot; silent losses are
      dated and bounded; reconnect grace is enforced; a terminal generation is
      final. One theorem shows the case in which a disconnect erases the grace.
    - Channel: encoding and framing round-trip, and nothing unauthentic or ill typed
      comes out of a frame; the listener's memory is bounded and its sessions are
      exclusive; a session is established only after its own snapshot was completed,
      accepted and exactly acknowledged; observations are delivered in order and at
      most once; a command id means one request and, from the first result whose
      writing was drained, one result (an example shows that a result whose drain raised
      may be followed by another); the snapshot a rank sends is the snapshot the head assembles, and one theorem shows
      that the two ends do not count its bytes alike.
    - Status: every call is one step of the abstract lifecycle or leaves the record as it
      was, also when it raises: a call that raises has either changed nothing or made its
      legal step visible (a refinement); files are always readable back; stale writers are
      refused;
      readiness is never fabricated; the strict loader is sound.
    - Placement: the resolver terminates and its topology passes the plan's own
      check; requests are met exactly; pipeline stages use distinct nodes;
      automatic placement fills the capacity.
    - Bindings and ledger: there is one gapless history whose replay is the
      projection, also across crashes and writes that raise; it is exactly the log while
      no call raised with its segment visible, and one theorem shows that such a call can
      leave a run directory that does not open again; accepted receipts were planned; rank
      sessions are confined; ledger and binding store stay in step while the store's
      calls return (through the class [BindingStore]); losing a rank removes exactly its evidence.
    - Head channel: an accepted snapshot defines the rank's evidence however the ranks'
      mutations interleave; a lost rank's evidence is revoked after boundedly many
      turns of the writer; START is in two phases and all or nothing; the memory of
      the head is bounded and its projection stays within the plan. Two theorems show
      how a full queue loses a revocation and how a reconnection restores a
      superseded instance.
    - Rank client: the lease maintenance never ends silently, and goes on only with an
      acknowledged heartbeat or a session that was lost and re-established; the start gate opens only
      by a command that was answered; a delivery failure is never withdrawn. One
      theorem shows how a reconnection drops a command that was queued.
    - Receipts: the canonical form of a receipt decodes and validates to the receipt.
    - Readiness: a verdict is ready exactly when the plan is met; READY is entered
      only by a commit at such a moment; a lost session takes it away.
    - Supervisor: startup is a transaction (with exceptions that have a message), shutdown reaches every component, no
      unexpected exit goes unnoticed, the first cause survives; one theorem shows
      how an exception without a message breaks the cleanup loops.
    - Receipt manifest: the manifest of the accepted receipts is written once and loads
      back to itself.
    - Status API: in every run of a publisher the reader sees its state, or the next one
      when a call raised after its record was written; READY is visible only under the
      lease of the last publication or renewal; a renewal changes only the lease. One
      theorem shows that a publisher whose record was written by a call that raised can
      publish nothing more.
    - Composition: a ready verdict of the coordinator passes every check of the publisher
      and is what the reader then finds, so that the launch goes live; after it the public
      state follows the phase of the coordinator turn by turn, and a loss that lasts for
      the recovery deadline ends the deployment. One theorem shows that a dead node, which
      the readiness predicate ignores, makes the publication impossible.
    - Shutdown: a run whose release steps raise only what their handlers name
      ([good_shutdown]) ends in the terminal state that its end deserves; whatever the
      steps raise, STOPPED and CANCELLED are published only when nothing is left behind,
      and a clean report and the exit status tell the truth. Examples show a release step
      and a lease whose exceptions escape. One theorem shows that a drain whose announcement fails
      leaves READY on record.
    - Supervision: the loop never ends without a cause, and a failure that could be
      published ends neither as a stop nor with a clean exit status; a capture keeps the end
      of the output. One theorem shows that a failure whose publication fails ends as
      STOPPED.
    - Ports: a port has one owner in every interleaving of the processes of a node; a
      reservation takes the lowest free port. One theorem shows that a claim that was torn
      by the death of its process blocks its port for good.

    ** Bounds and fuel

    Two recursions are not structural. The JSON reader takes as fuel twice the length
    of its input and one more, which is enough on every input ([loads_terminates]).
    The other is the round-robin of the placement resolver. Its fuel is one round per
    device of the allocation and one more; a round that places nothing ends the loop
    and every other round books a device, so the fuel is enough ([placement_terminates]). Integers are unbounded, as in
    Python. The loops of the rank client that last as long as the clock allows take
    one element of their input per turn. Doubles are IEEE binary64 ([SpecFloat]), with
    the [OverflowError] of [float()] modelled.

    ** Not modelled

    Sockets and TLS below the frames, timed waits and task cancellation
    (control/transport.py), the event-loop thread of control/channel_runtime.py but for
    what its calls leave to the caller, process trees
    (control/rank_launcher.py, control/node_supervisor.py,
    control/process_guardian.py), Ray and Serve calls, engines, proxies, schedulers,
    staging, telemetry, and the evaluation harnesses. Of the composition root, the parts
    that only start and probe processes: the binding of the allocation, the launch of the
    ranks, of Ray, of the deployment child and of the gateway, and the HTTP probes; what
    the probes answer is an argument of the turns. A turn of a connection handler
    runs without other turns in between, which the event loop grants except where the
    handler waits for a callback or for the socket to drain. Of state/atomic.py, the
    temporary files, the arbitration of a stale lease and its heartbeat. SHA-256, HMAC and the
    secret are parameters. Text is treated byte by byte: letter case and white space
    are those of ASCII and Latin-1.

    ** Possible extensions

    The remaining sections of the compiler, and the parts of the composition root that
    start processes. *)

From stdpp Require Export base option list gmap strings pretty sorting.
From Stdlib Require Export ZArith Lia.

#[global] Open Scope Z_scope.

(** ** Results: a Python call either returns a value or raises *)

Inductive result (E A : Type) : Type :=
| Ok (a : A)
| Err (e : E).
Arguments Ok {E A} _.
Arguments Err {E A} _.

#[global] Instance result_ret {E} : MRet (result E) := fun A a => Ok a.
#[global] Instance result_bind {E} : MBind (result E) :=
  fun A B f r => match r with Ok a => f a | Err e => Err e end.
#[global] Instance result_fmap {E} : FMap (result E) :=
  fun A B f r => match r with Ok a => Ok (f a) | Err e => Err e end.

(** [if b: raise e] *)
Definition raise_if {E} (b : bool) (e : E) : result E unit :=
  if b then Err e else Ok tt.

(** [for x in l: body(x)], where the body either raises or goes on. *)
Fixpoint for_each {E A} (f : A -> result E unit) (l : list A) : result E unit :=
  match l with
  | [] => Ok tt
  | x :: l' => _ ← f x; for_each f l'
  end.

(** [acc = body(acc, x)] for every [x] of [l], stopping at the first exception. *)
Fixpoint fold_res {E A B} (f : B -> A -> result E B) (b : B) (l : list A) : result E B :=
  match l with
  | [] => Ok b
  | x :: l' => b' ← f b x; fold_res f b' l'
  end.

Definition is_ok {E A} (r : result E A) : bool :=
  match r with Ok _ => true | Err _ => false end.

Lemma Ok_inj {E A} (a b : A) : Ok (E := E) a = Ok b -> a = b.
Proof. congruence. Qed.

Lemma bind_Ok {E A B} (f : A -> result E B) r b :
  (r ≫= f) = Ok b <-> exists a, r = Ok a /\ f a = Ok b.
Proof. destruct r; split; [eauto | naive_solver | done | naive_solver]. Qed.

Lemma bind_Err {E A B} (f : A -> result E B) r e :
  (r ≫= f) = Err e <-> r = Err e \/ exists a, r = Ok a /\ f a = Err e.
Proof. destruct r; cbn; naive_solver. Qed.

Lemma raise_if_Ok {E} b (e : E) u : raise_if b e = Ok u <-> b = false.
Proof. destruct b, u; cbn; naive_solver. Qed.

Lemma raise_if_Err {E} b (e e' : E) : raise_if b e = Err e' <-> b = true /\ e = e'.
Proof. destruct b; cbn; naive_solver. Qed.

Lemma for_each_Ok {E A} (f : A -> result E unit) l u :
  for_each f l = Ok u <-> Forall (fun x => f x = Ok tt) l.
Proof.
  destruct u. induction l as [|x l IH]; cbn.
  - split; constructor.
  - rewrite Forall_cons, <- IH. destruct (f x) as [[]|]; cbn; naive_solver.
Qed.

Lemma fold_res_app {E A B} (f : B -> A -> result E B) b l1 l2 :
  fold_res f b (l1 ++ l2) = (b' ← fold_res f b l1; fold_res f b' l2).
Proof.
  revert b; induction l1 as [|x l1 IH]; intros b; cbn; [done|].
  destruct (f b x); cbn; auto.
Qed.

(** A loop invariant for [fold_res]. *)
Lemma fold_res_ind {E A B} (f : B -> A -> result E B) (P : B -> Prop) l :
  (forall b x b', x ∈ l -> P b -> f b x = Ok b' -> P b') ->
  forall b b', P b -> fold_res f b l = Ok b' -> P b'.
Proof.
  induction l as [|x l IH]; cbn; intros Hstep b b' Hb Hf; [naive_solver|].
  apply bind_Ok in Hf as (b1 & Hx & Hf).
  eapply IH; [|eapply Hstep; [left| |]; eauto|exact Hf].
  intros ??? ?; apply Hstep; by right.
Qed.

(** ** Tactics shared by the components *)

(** Decompose hypotheses about computations that returned normally. *)
Ltac res_inv_step :=
  match goal with
  | H : (_ ≫= _) = Ok _ |- _ => apply bind_Ok in H; destruct H as (? & ? & ?)
  | H : raise_if _ _ = Ok _ |- _ => apply raise_if_Ok in H
  | H : for_each _ _ = Ok _ |- _ => apply for_each_Ok in H
  | H : Ok _ = Ok _ |- _ => injection H as H
  | H : Err _ = Ok _ |- _ => discriminate H
  | H : Ok _ = Err _ |- _ => discriminate H
  end.
Ltac res_inv := repeat (res_inv_step; cbn beta iota in *); subst.

(** Case analysis on every [match] of a hypothesis, remembering the equations. *)
Ltac case_in H :=
  repeat match type of H with
  | context [match ?x with _ => _ end] => destruct x eqn:?; try discriminate H
  end.

(** Case analysis on every [match] of the goal. *)
Ltac case_goal :=
  repeat match goal with
  | |- context [match ?x with _ => _ end] => destruct x eqn:?
  end.

(** Turn boolean conditions into propositions. *)
Ltac bool_prop :=
  repeat match goal with
  | H : _ && _ = true |- _ => apply andb_prop in H; destruct H
  | H : _ || _ = false |- _ => apply orb_false_elim in H; destruct H
  | H : negb _ = true |- _ => apply negb_true_iff in H
  | H : negb _ = false |- _ => apply negb_false_iff in H
  | H : bool_decide _ = true |- _ => apply bool_decide_eq_true in H
  | H : bool_decide _ = false |- _ => apply bool_decide_eq_false in H
  | H : (_ <? _) = true |- _ => apply Z.ltb_lt in H
  | H : (_ <? _) = false |- _ => apply Z.ltb_ge in H
  | H : (_ <=? _) = true |- _ => apply Z.leb_le in H
  | H : (_ <=? _) = false |- _ => apply Z.leb_gt in H
  | H : (_ =? _) = true |- _ => apply Z.eqb_eq in H
  | H : (_ =? _) = false |- _ => apply Z.eqb_neq in H
  end.

Create HintDb exaserve.

(** ** Generic lemmas on lists *)

(** Python's [sorted] on integers. *)
Definition sortedZ (l : list Z) : list Z := merge_sort Z.le l.

#[global] Instance Z_le_total : Total Z.le.
Proof. intros x y. lia. Qed.
#[global] Instance Z_le_trans : Transitive Z.le.
Proof. intros x y z. lia. Qed.
#[global] Instance Z_le_antisymm : AntiSymm (=) Z.le.
Proof. intros x y. lia. Qed.

Lemma sortedZ_perm l : sortedZ l ≡ₚ l.
Proof. apply merge_sort_Permutation. Qed.

Lemma elem_of_sortedZ x l : x ∈ sortedZ l <-> x ∈ l.
Proof. by rewrite sortedZ_perm. Qed.

Lemma sortedZ_unique l l' : StronglySorted Z.le l' -> l ≡ₚ l' -> sortedZ l = l'.
Proof.
  intros Hs Hp. apply (StronglySorted_unique Z.le); [|done|by rewrite sortedZ_perm].
  apply (StronglySorted_merge_sort Z.le).
Qed.

(** [list(range(a, a + n))] is sorted. *)
Lemma seqZ_sorted a n : StronglySorted Z.le (seqZ a n).
Proof.
  destruct (decide (0 <= n)) as [Hn|Hn].
  2: { rewrite seqZ_nil by lia. constructor. }
  revert a. pattern n. apply natlike_ind; [|clear n Hn|done].
  - intros a. rewrite seqZ_nil by lia. constructor.
  - intros n Hn IH a. rewrite seqZ_cons by lia. constructor.
    + rewrite Z.pred_succ. apply IH.
    + apply Forall_forall. intros x Hx%elem_of_seqZ. lia.
Qed.
