(* ===== verification/PyValue.v ===== *)
(** Python values as the control plane handles them.

    Floats are IEEE 754 binary64 numbers (the Standard Library's executable
    [SpecFloat]), so additions and subtractions of clock readings round as
    CPython rounds them. [value] is the JSON family that crosses process and
    file boundaries: dictionaries are association lists with the lookup and
    update behaviour of [dict]; the writers sort keys and Python compares
    dictionaries without regard to order, so no modelled operation depends on
    the order of keys. Text is [string]. *)

From S2P Require Import Prelude.
From Stdlib Require Export SpecFloat Ascii.

(** ** Floats *)

Abbreviation float := spec_float.

Module Float.
Definition prec : Z := 53.
Definition emax : Z := 1024.

Definition add : float -> float -> float := SFadd prec emax.
Definition sub : float -> float -> float := SFsub prec emax.
Definition mul : float -> float -> float := SFmul prec emax.
Definition ltb (x y : float) : bool := SFltb x y.
Definition leb (x y : float) : bool := SFleb x y.
Definition gtb (x y : float) : bool := ltb y x.
Definition geb (x y : float) : bool := leb y x.
Definition eqb (x y : float) : bool := SFeqb x y.

Definition zero : float := S754_zero false.

(** The double nearest to [n * 2^e]; an overflow gives an infinity. *)
Definition of_dyadic (n e : Z) : float := binary_normalize prec emax n e false.
Definition of_Z (n : Z) : float := of_dyadic n 0.

Definition minus_one : float := of_Z (-1).

#[global] Instance eq_dec : EqDecision float.
Proof. solve_decision. Defined.

(** [math.isfinite] *)
Definition is_finite (x : float) : bool :=
  match x with
  | S754_zero _ | S754_finite _ _ _ => true
  | S754_infinity _ | S754_nan => false
  end.

(** [max(x, y)] keeps [x] unless [y] is greater. *)
Definition max (x y : float) : float := if gtb y x then y else x.

(** The order of finite doubles: a key into a lexicographic order on [Z]. *)
Definition key (x : float) : Z * Z * Z :=
  match x with
  | S754_zero _ | S754_nan => (0, 0, 0)
  | S754_infinity s => if s then (-2, 0, 0) else (2, 0, 0)
  | S754_finite s m e => if s then (-1, -e, - Z.pos m) else (1, e, Z.pos m)
  end.

Definition key_le (a b : Z * Z * Z) : Prop :=
  let '(a1, a2, a3) := a in
  let '(b1, b2, b3) := b in
  a1 < b1 \/ (a1 = b1 /\ (a2 < b2 \/ (a2 = b2 /\ a3 <= b3))).

Lemma compare_spec x y :
  x <> S754_nan -> y <> S754_nan ->
  match SFcompare x y with
  | Some Lt => ~ key_le (key y) (key x)
  | Some Eq => key x = key y
  | Some Gt => ~ key_le (key x) (key y)
  | None => False
  end.
Proof.
  intros Hx Hy.
  destruct x as [sx|sx| |sx mx ex], y as [sy|sy| |sy my ey];
    try congruence; cbn; try (destruct sx); try (destruct sy); cbn; try lia; try done.
  all: destruct (Z.compare_spec ex ey); cbn; try lia; subst.
  all: change (Pos.compare_cont Eq mx my) with (Pos.compare mx my);
    destruct (Pos.compare_spec mx my); cbn; subst; try lia; done.
Qed.

Lemma key_le_trans a b c : key_le a b -> key_le b c -> key_le a c.
Proof. destruct a as [[]], b as [[]], c as [[]]; cbn; lia. Qed.

Lemma key_le_total a b : key_le a b \/ key_le b a.
Proof. destruct a as [[]], b as [[]]; cbn; lia. Qed.

Lemma key_le_antisym a b : key_le a b -> key_le b a -> a = b.
Proof. destruct a as [[]], b as [[]]; cbn. intros. f_equal; [f_equal|]; lia. Qed.

Lemma is_finite_not_nan x : is_finite x = true -> x <> S754_nan.
Proof. by destruct x. Qed.

Lemma leb_key x y :
  x <> S754_nan -> y <> S754_nan -> leb x y = true <-> key_le (key x) (key y).
Proof.
  intros Hx Hy. pose proof (compare_spec x y Hx Hy) as Hc. unfold leb, SFleb.
  destruct (SFcompare x y) as [[]|]; try done.
  - rewrite Hc. destruct (key_le_total (key y) (key y)); naive_solver.
  - destruct (key_le_total (key x) (key y)); naive_solver.
Qed.

Lemma ltb_key x y :
  x <> S754_nan -> y <> S754_nan -> ltb x y = true <-> ~ key_le (key y) (key x).
Proof.
  intros Hx Hy. pose proof (compare_spec x y Hx Hy) as Hc. unfold ltb, SFltb.
  destruct (SFcompare x y) as [[]|]; try done.
  - rewrite Hc. destruct (key_le_total (key y) (key y)); naive_solver.
  - destruct (key_le_total (key x) (key y)); naive_solver.
Qed.

Lemma ltb_false x y :
  x <> S754_nan -> y <> S754_nan -> ltb x y = false -> leb y x = true.
Proof.
  intros Hx Hy Hf. apply leb_key; [done..|].
  destruct (key_le_total (key y) (key x)) as [|Hxy]; [done|].
  destruct (decide (ltb x y = true)) as [|Hn]; [congruence|].
  rewrite ltb_key in Hn by done.
  destruct (key y) as [[]], (key x) as [[]]; cbn in *; lia.
Qed.

Lemma leb_trans x y z :
  x <> S754_nan -> y <> S754_nan -> z <> S754_nan ->
  leb x y = true -> leb y z = true -> leb x z = true.
Proof.
  intros ???. rewrite !leb_key by done. apply key_le_trans.
Qed.

Lemma leb_refl x : x <> S754_nan -> leb x x = true.
Proof. intros. rewrite leb_key by done. destruct (key_le_total (key x) (key x)); done. Qed.

Lemma leb_not_ltb x y :
  x <> S754_nan -> y <> S754_nan -> leb x y = true -> ltb y x = false.
Proof.
  intros Hx Hy Hle. destruct (ltb y x) eqn:E; [|done].
  rewrite ltb_key in E by done. rewrite leb_key in Hle by done. done.
Qed.

Lemma max_l x y : x <> S754_nan -> y <> S754_nan -> leb x (max x y) = true.
Proof.
  intros. unfold max, gtb. destruct (ltb x y) eqn:E; [|by apply leb_refl].
  rewrite ltb_key in E by done. rewrite leb_key by done.
  destruct (key_le_total (key x) (key y)); done.
Qed.

Lemma max_finite x y : is_finite x = true -> is_finite y = true -> is_finite (max x y) = true.
Proof. intros. unfold max. by destruct (gtb y x). Qed.

Lemma max_not_nan x y : x <> S754_nan -> y <> S754_nan -> max x y <> S754_nan.
Proof. intros. unfold max. by destruct (gtb y x). Qed.
End Float.

#[export] Hint Resolve Float.is_finite_not_nan Float.max_not_nan Float.max_finite
  Float.leb_refl : exaserve.

(** ** The JSON family of values *)

Inductive value : Type :=
| VNone
| VBool (b : bool)
| VInt (z : Z)
| VFloat (f : float)
| VStr (s : string)
| VList (l : list value)
| VDict (d : list (string * value)).

Abbreviation dict := (list (string * value)).

(** ** Dictionaries *)

(** [d.get(k)] *)
Fixpoint dget {A} (k : string) (d : list (string * A)) : option A :=
  match d with
  | [] => None
  | (k', v) :: d' => if decide (k' = k) then Some v else dget k d'
  end.

(** [d[k] = v]: replaces the value of a key in place, appends a new key. *)
Fixpoint dset {A} (k : string) (v : A) (d : list (string * A)) : list (string * A) :=
  match d with
  | [] => [(k, v)]
  | (k', v') :: d' => if decide (k' = k) then (k', v) :: d' else (k', v') :: dset k v d'
  end.

(** [d.update(u)] *)
Definition dupdate {A} (d u : list (string * A)) : list (string * A) :=
  fold_left (fun acc kv => dset kv.1 kv.2 acc) u d.

Definition dkeys {A} (d : list (string * A)) : list string := d.*1.

(** [d.get(k, default)] *)
Definition dget_default {A} (k : string) (x : A) (d : list (string * A)) : A :=
  default x (dget k d).

(** [set(a) == set(b)] on key lists. *)
Definition same_keys (a b : list string) : bool :=
  forallb (fun k => bool_decide (k ∈ b)) a && forallb (fun k => bool_decide (k ∈ a)) b.

Lemma dget_dset {A} k k' (v : A) d :
  dget k' (dset k v d) = if decide (k = k') then Some v else dget k' d.
Proof.
  induction d as [|[k0 v0] d IH]; cbn.
  - by destruct (decide (k = k')).
  - destruct (decide (k0 = k)) as [->|Hne]; cbn.
    + by destruct (decide (k = k')).
    + rewrite IH. destruct (decide (k0 = k')), (decide (k = k')); naive_solver.
Qed.

Lemma dget_dset_eq {A} k (v : A) d : dget k (dset k v d) = Some v.
Proof. rewrite dget_dset. by rewrite decide_True. Qed.

Lemma dget_dset_ne {A} k k' (v : A) d : k <> k' -> dget k' (dset k v d) = dget k' d.
Proof. intros. rewrite dget_dset. by rewrite decide_False. Qed.

Lemma dget_dupdate_not_in {A} k (d u : list (string * A)) :
  k ∉ dkeys u -> dget k (dupdate d u) = dget k d.
Proof.
  unfold dupdate, dkeys. revert d.
  induction u as [|[k' v'] u IH]; intros d; cbn; [done|].
  rewrite not_elem_of_cons. intros [? ?]. rewrite IH by done. apply dget_dset_ne. congruence.
Qed.

Lemma dget_Some_elem {A} k (v : A) d : dget k d = Some v -> (k, v) ∈ d.
Proof.
  induction d as [|[k' v'] d IH]; cbn; [done|].
  destruct (decide (k' = k)); [|by right; auto]. intros [= ->]; subst. by left.
Qed.

Lemma dget_is_Some {A} k (d : list (string * A)) : is_Some (dget k d) <-> k ∈ dkeys d.
Proof.
  unfold dkeys. induction d as [|[k' v'] d IH]; cbn.
  - split; [by intros []|by intros ?%not_elem_of_nil].
  - rewrite elem_of_cons, <- IH. destruct (decide (k' = k)); naive_solver.
Qed.

Lemma dget_dupdate {A} k (d u : list (string * A)) :
  NoDup (dkeys u) ->
  dget k (dupdate d u) = match dget k u with Some v => Some v | None => dget k d end.
Proof.
  unfold dupdate. revert d. induction u as [|[k0 v0] u IH]; intros d Hu; [done|].
  cbn in Hu. apply NoDup_cons in Hu as [Hni Hu]. cbn [fold_left dget fst snd].
  rewrite IH by done. destruct (decide (k0 = k)) as [->|Hne].
  - destruct (dget k u) as [v|] eqn:Hg; [|apply dget_dset_eq].
    exfalso. apply Hni. apply (dget_is_Some k u). eauto.
  - rewrite dget_dset_ne by done. done.
Qed.

Lemma dkeys_dset {A} k (v : A) d : dkeys (dset k v d) = if decide (k ∈ dkeys d) then dkeys d else dkeys d ++ [k].
Proof.
  unfold dkeys. induction d as [|[k0 v0] d IH]; cbn [dset fmap list_fmap fst].
  { rewrite decide_False; [done|]. apply not_elem_of_nil. }
  destruct (decide (k0 = k)) as [->|Hne]; cbn [fmap list_fmap fst].
  - rewrite decide_True by left. done.
  - rewrite IH. destruct (decide (k ∈ d.*1)).
    + rewrite decide_True by by right. done.
    + rewrite decide_False; [done|]. rewrite not_elem_of_cons. split; [congruence|done].
Qed.

Lemma NoDup_dset {A} k (v : A) d : NoDup (dkeys d) -> NoDup (dkeys (dset k v d)).
Proof.
  intros Hd. rewrite dkeys_dset. destruct (decide _); [done|]. apply NoDup_app. split_and!; [done| |].
  - intros x Hx ->%list_elem_of_singleton. done.
  - apply NoDup_singleton.
Qed.

Lemma NoDup_dupdate {A} (d u : list (string * A)) : NoDup (dkeys d) -> NoDup (dkeys (dupdate d u)).
Proof.
  unfold dupdate. revert d. induction u as [|[k v] u IH]; intros d Hd; [done|]. cbn.
  by apply IH, NoDup_dset.
Qed.

(** ** Numbers *)

(** Exact comparison of an [int] with a [float], as CPython compares them. *)
Definition compare_Z_float (z : Z) (f : float) : option comparison :=
  match f with
  | S754_nan => None
  | S754_infinity s => Some (if s then Gt else Lt)
  | S754_zero _ => Some (z ?= 0)
  | S754_finite s m e =>
      let n := if s then Z.neg m else Z.pos m in
      Some (if 0 <=? e then z ?= n * 2 ^ e else z * 2 ^ (- e) ?= n)
  end.

(** Comparison of two numbers ([bool]s are excluded by every caller). *)
Definition num_compare (a b : value) : option comparison :=
  match a, b with
  | VInt x, VInt y => Some (x ?= y)
  | VFloat x, VFloat y => SFcompare x y
  | VInt x, VFloat y => compare_Z_float x y
  | VFloat x, VInt y => option_map CompOpp (compare_Z_float y x)
  | _, _ => None
  end.

Definition num_ltb (a b : value) : bool :=
  match num_compare a b with Some Lt => true | _ => false end.

(** [isinstance(v, (int, float)) and not isinstance(v, bool)] *)
Definition is_number (v : value) : bool :=
  match v with VInt _ | VFloat _ => true | _ => false end.

(** [isinstance(v, int) and not isinstance(v, bool)] *)
Definition as_int (v : value) : option Z :=
  match v with VInt z => Some z | _ => None end.

Definition as_str (v : value) : option string :=
  match v with VStr s => Some s | _ => None end.

(** [float(v)]: an integer outside the range of a double raises [OverflowError]. *)
Definition to_float {E} (overflow : E) (v : value) : result E float :=
  match v with
  | VInt z =>
      match Float.of_Z z with
      | S754_infinity _ => Err overflow
      | f => Ok f
      end
  | VFloat f => Ok f
  | _ => Err overflow
  end.

(** ** Equality ([==]) *)

(** [bool] compares as the integers 0 and 1; dictionaries compare as maps. *)
Definition as_number (v : value) : option value :=
  match v with
  | VBool b => Some (VInt (if b then 1 else 0))
  | VInt _ | VFloat _ => Some v
  | _ => None
  end.

Fixpoint py_eqb (a b : value) {struct a} : bool :=
  match a, b with
  | VNone, VNone => true
  | VStr x, VStr y => bool_decide (x = y)
  | VList x, VList y =>
      (fix go (x y : list value) : bool :=
         match x, y with
         | [], [] => true
         | u :: x', v :: y' => py_eqb u v && go x' y'
         | _, _ => false
         end) x y
  | VDict x, VDict y =>
      (length x =? length y)%nat &&
      (fix go (x : list (string * value)) : bool :=
         match x with
         | [] => true
         | (k, u) :: x' =>
             match dget k y with
             | Some v => py_eqb u v && go x'
             | None => false
             end
         end) x
  | _, _ =>
      match as_number a, as_number b with
      | Some x, Some y =>
          match num_compare x y with Some Eq => true | _ => false end
      | _, _ => false
      end
  end.

Definition py_list_eqb (x y : list value) : bool := py_eqb (VList x) (VList y).

(** ** Text *)

(** Python's [str.isspace] restricted to the characters below 256. *)
Definition is_space (c : Ascii.ascii) : bool :=
  let n := Ascii.nat_of_ascii c in
  ((9 <=? n) && (n <=? 13) || (28 <=? n) && (n <=? 32) || (n =? 133) || (n =? 160))%nat.

Fixpoint lstrip_chars (l : list Ascii.ascii) : list Ascii.ascii :=
  match l with
  | c :: l' => if is_space c then lstrip_chars l' else l
  | [] => []
  end.

(** [s.strip()] *)
Definition strip (s : string) : string :=
  String.string_of_list_ascii
    (rev (lstrip_chars (rev (lstrip_chars (String.list_ascii_of_string s))))).

Definition lower_char (c : Ascii.ascii) : Ascii.ascii :=
  let n := Ascii.nat_of_ascii c in
  if ((65 <=? n) && (n <=? 90))%nat then Ascii.ascii_of_nat (n + 32) else c.

(** [s.lower()] on ASCII letters. *)
Definition lower (s : string) : string :=
  String.string_of_list_ascii (lower_char <$> String.list_ascii_of_string s).

(** [s.split(sep, 1)[0]] for a one-character separator. *)
Fixpoint before_char (sep : Ascii.ascii) (s : string) : string :=
  match s with
  | EmptyString => EmptyString
  | String c s' => if Ascii.eqb c sep then EmptyString else String c (before_char sep s')
  end.

(** [s.split(sep)] for a one-character separator. *)
Fixpoint split_char (sep : Ascii.ascii) (s : string) : list string :=
  match s with
  | EmptyString => [EmptyString]
  | String c s' =>
      if Ascii.eqb c sep then EmptyString :: split_char sep s'
      else match split_char sep s' with
           | w :: ws => String c w :: ws
           | [] => [String c EmptyString]
           end
  end.

(** [s.startswith(p)] *)
Definition startswith (p s : string) : bool := String.prefix p s.

(** [p in s] *)
Fixpoint contains (p s : string) : bool :=
  String.prefix p s ||
  match s with
  | EmptyString => false
  | String _ s' => contains p s'
  end.

(** [s.replace(c, r)] for a one-character pattern. *)
Fixpoint replace_char (c : Ascii.ascii) (r : string) (s : string) : string :=
  match s with
  | EmptyString => EmptyString
  | String a s' => ((if Ascii.eqb a c then r else String a EmptyString) +:+ replace_char c r s')
  end.

Definition is_hex_lower (c : Ascii.ascii) : bool :=
  let n := Ascii.nat_of_ascii c in
  ((48 <=? n) && (n <=? 57) || (97 <=? n) && (n <=? 102))%nat.

(** [re.compile(r"^[0-9a-f]{64}$").fullmatch(s)] *)
Definition is_sha256 (s : string) : bool :=
  (String.length s =? 64)%nat && forallb is_hex_lower (String.list_ascii_of_string s).

Definition nonempty (s : string) : bool := negb (bool_decide (s = EmptyString)).

(** Decimal rendering of an integer, as an f-string prints it. *)
Definition str_Z (z : Z) : string := pretty z.

(** [os.path.join(a, b)] for a relative [b]. *)
Definition join_path (a b : string) : string :=
  match String.length a with
  | O => b
  | S n => if String.eqb (String.substring n 1 a) "/" then a +:+ b else a +:+ "/" +:+ b
  end.

(** Lexicographic order on text (by code point). *)
Definition string_leb (a b : string) : bool := String.leb a b.

(** [len(l) == len(set(l))] *)
Definition no_dups {A} `{EqDecision A} (l : list A) : bool := bool_decide (NoDup l).
