(* ===== verification/Atomic.v ===== *)
(** The filesystem primitives of src/exaserve/state/atomic.py as their callers see them:
    how the replacement of a file, the acquisition of an exclusive lease and its release
    can end.

    A write goes to a temporary file, which is renamed (or linked) over the target before
    the directory is synced: an [OSError] may come before the new content is visible
    ([NotWritten]) or after ([Undurable]). A lease that was acquired may fail to be released
    once the body of the [with] statement has returned or raised. *)

From S2P Require Import Prelude.

(** ** Writing a file *)

Inductive write_outcome : Type :=
| Written
| NotWritten
| Undurable.

#[global] Instance write_outcome_eq_dec : EqDecision write_outcome.
Proof. solve_decision. Defined.

(** [atomic_write_bytes] and, for an absent target, [atomic_create_bytes]: what is at the
    path afterwards, and whether the call returns. *)
Definition atomic_write {E A : Type} (os_error : E) (w : write_outcome) (new old : A) : A * result E unit :=
  match w with
  | Written => (new, Ok tt)
  | NotWritten => (old, Err os_error)
  | Undurable => (new, Err os_error)
  end.

(** ** The exclusive lease *)

(** [LeaseBusy]: another owner holds it; [LeaseLost]: it was taken over between [acquire] and
    the entry of the [with] statement; [LeaseOsError]: the lease file cannot be made. *)
Inductive lease_outcome : Type :=
| LeaseAcquired
| LeaseBusy
| LeaseLost
| LeaseOsError.

(** [ReleaseRefused]: the [LeaseReleaseError] of [release]; [ReleaseOsError]: the [OSError] of
    its [_release_arbitration]. *)
Inductive release_outcome : Type :=
| Released
| ReleaseRefused
| ReleaseOsError.

#[global] Instance lease_outcome_eq_dec : EqDecision lease_outcome.
Proof. solve_decision. Defined.
#[global] Instance release_outcome_eq_dec : EqDecision release_outcome.
Proof. solve_decision. Defined.

(** [__exit__]: a [LeaseReleaseError] is only noted on an exception that is under way; an
    [OSError] replaces it. *)
Definition lease_exit {E A : Type} (release_error os_error : E) (o : release_outcome) (r : result E A)
    : result E A :=
  match o, r with
  | Released, _ => r
  | ReleaseRefused, Ok _ => Err release_error
  | ReleaseRefused, Err e => Err e
  | ReleaseOsError, _ => Err os_error
  end.

Lemma lease_exit_Ok {E A} (x y : E) o (r : result E A) a :
  lease_exit x y o r = Ok a -> o = Released /\ r = Ok a.
Proof. by destruct o, r. Qed.

Lemma atomic_write_Ok {E A} (x : E) w (new old f : A) u :
  atomic_write x w new old = (f, Ok u) -> w = Written /\ f = new.
Proof. destruct w; cbn; naive_solver. Qed.
