(* ===== verification/Json.v ===== *)
(** Canonical JSON text.

    [json.dumps(x, sort_keys=True, separators=(",", ":"), allow_nan=False)] as a
    printer of [value]s, and [json.loads] as the control plane calls it (duplicate
    keys and the constants NaN and Infinity are refused) as a recursive-descent
    parser. Text is a list of characters; the model's text has the code points of
    Latin-1, so a document whose strings go beyond it has the separate outcome
    [JUnrepresentable]. [float.__repr__] and [float()] on a literal are the
    operations of the class [FloatText]; [FloatTextLaws] is what Python documents
    of them. The proofs are in JsonProps.v. *)

From S2P Require Import Prelude PyValue.

Abbreviation text := (list ascii).

Definition chars : string -> text := String.list_ascii_of_string.
Definition str : text -> string := String.string_of_list_ascii.
Definition code (c : ascii) : nat := nat_of_ascii c.

(** [JValueError] is [ValueError] and its subclasses [JSONDecodeError] and
    [UnicodeDecodeError]; [JFuel] is the model's own outcome for exhausted fuel,
    which [loads_terminates] excludes. *)
Inductive json_error := JValueError | JUnrepresentable | JFuel.

#[global] Instance json_error_eq_dec : EqDecision json_error.
Proof. solve_decision. Defined.

Abbreviation json_result := (result json_error).

(** ** Sorting by key *)

(** [sorted(d.items())] for text keys: a stable insertion sort. *)
Fixpoint insert_item {A} (k : string) (v : A) (d : list (string * A)) : list (string * A) :=
  match d with
  | [] => [(k, v)]
  | (k', v') :: d' =>
      if string_leb k k' then (k, v) :: d else (k', v') :: insert_item k v d'
  end.

Fixpoint sort_items {A} (d : list (string * A)) : list (string * A) :=
  match d with
  | [] => []
  | (k, v) :: d' => insert_item k v (sort_items d')
  end.

(** The dictionary with its keys sorted at every level. *)
Fixpoint canon (v : value) : value :=
  match v with
  | VList l => VList (map canon l)
  | VDict d => VDict (sort_items (map (fun kv => (kv.1, canon kv.2)) d))
  | _ => v
  end.

(** ** Printing *)

Definition c_quote : ascii := "034"%char.
Definition c_backslash : ascii := "092"%char.

Definition hex_digit (n : nat) : ascii :=
  ascii_of_nat (if (n <? 10)%nat then 48 + n else 87 + n).

(** [ensure_ascii]: everything outside the printable ASCII characters is escaped. *)
Definition escape_char (c : ascii) : text :=
  if bool_decide (c = c_quote) then [c_backslash; c_quote]
  else if bool_decide (c = c_backslash) then [c_backslash; c_backslash]
  else match code c with
       | 8%nat => [c_backslash; "b"%char]
       | 9%nat => [c_backslash; "t"%char]
       | 10%nat => [c_backslash; "n"%char]
       | 12%nat => [c_backslash; "f"%char]
       | 13%nat => [c_backslash; "r"%char]
       | n =>
           if ((32 <=? n) && (n <=? 126))%nat then [c]
           else [c_backslash; "u"%char; "0"%char; "0"%char;
                 hex_digit (n / 16); hex_digit (n mod 16)]
       end.

Definition quote (s : string) : text :=
  c_quote :: flat_map escape_char (chars s) ++ [c_quote].

Fixpoint join (l : list text) : text :=
  match l with
  | [] => []
  | [t] => t
  | t :: l' => t ++ ","%char :: join l'
  end.

(** CPython refuses to print or read an [int] of more than 4300 digits. *)
Definition max_str_digits : nat := 4300.

Definition printable_int (z : Z) : bool :=
  (String.length (str_Z (Z.abs z)) <=? max_str_digits)%nat.

(** What [dumps] accepts: finite floats and integers of a printable size. *)
Fixpoint encodable (v : value) : bool :=
  match v with
  | VInt z => printable_int z
  | VFloat f => Float.is_finite f
  | VList l => forallb encodable l
  | VDict d => forallb (fun kv => encodable kv.2) d
  | _ => true
  end.

(** [float.__repr__] and [float(literal)]. *)
Class FloatText := {
  float_repr : float -> string;
  parse_float : string -> float
}.

Section dumps.
  Context `{FloatText}.

Fixpoint print (v : value) : text :=
  match v with
  | VNone => chars "null"
  | VBool b => chars (if b then "true" else "false")
  | VInt z => chars (str_Z z)
  | VFloat f => chars (float_repr f)
  | VStr s => quote s
  | VList l => "["%char :: join (map print l) ++ ["]"%char]
  | VDict d =>
      "{"%char ::
      join (map (fun kt => quote kt.1 ++ ":"%char :: kt.2)
              (sort_items (map (fun kv => (kv.1, print kv.2)) d))) ++ ["}"%char]
  end.

Definition dumps (v : value) : json_result text :=
  if encodable v then Ok (print v) else Err JValueError.
End dumps.

(** ** Reading *)

Definition is_ws (c : ascii) : bool :=
  match code c with 32%nat | 9%nat | 10%nat | 13%nat => true | _ => false end.

Fixpoint skip_ws (s : text) : text :=
  match s with
  | c :: s' => if is_ws c then skip_ws s' else s
  | [] => []
  end.

Definition is_digit (c : ascii) : bool :=
  ((48 <=? code c) && (code c <=? 57))%nat.

Fixpoint span_digits (s : text) : text * text :=
  match s with
  | c :: s' =>
      if is_digit c then let '(ds, r) := span_digits s' in (c :: ds, r) else ([], s)
  | [] => ([], [])
  end.

Definition digits_Z (ds : text) : Z :=
  fold_left (fun acc c => acc * 10 + (Z.of_nat (code c) - 48)) ds 0.

(** The literal that [NUMBER_RE] matches at the start of the text: an optional
    minus, [0] or digits not starting with [0], then optionally a point with
    digits, then optionally an exponent with digits. *)
Record number := Number {
  n_neg : bool; n_int : text; n_frac : text; n_exp : text; n_rest : text
}.

Definition scan_sign (s : text) : bool * text :=
  match s with
  | c :: s' => if bool_decide (c = "-"%char) then (true, s') else (false, s)
  | [] => (false, [])
  end.

Definition scan_int (s : text) : option (text * text) :=
  match s with
  | c :: s' =>
      if bool_decide (c = "0"%char) then Some ([c], s')
      else if is_digit c then Some (span_digits s) else None
  | [] => None
  end.

Definition scan_frac (s : text) : text * text :=
  match s with
  | c :: s' =>
      if bool_decide (c = "."%char) then
        match span_digits s' with
        | ([], _) => ([], s)
        | (ds, r) => (c :: ds, r)
        end
      else ([], s)
  | [] => ([], [])
  end.

Definition scan_exp_sign (s : text) : text * text :=
  match s with
  | c :: s' =>
      if bool_decide (c = "-"%char) || bool_decide (c = "+"%char) then ([c], s') else ([], s)
  | [] => ([], [])
  end.

Definition scan_exp (s : text) : text * text :=
  match s with
  | c :: s' =>
      if bool_decide (c = "e"%char) || bool_decide (c = "E"%char) then
        let '(sg, s1) := scan_exp_sign s' in
        match span_digits s1 with
        | ([], _) => ([], s)
        | (ds, r) => (c :: sg ++ ds, r)
        end
      else ([], s)
  | [] => ([], [])
  end.

Definition scan_number (s : text) : option number :=
  let '(neg, s1) := scan_sign s in
  '(ds, s2) ← scan_int s1;
  let '(frac, s3) := scan_frac s2 in
  let '(exp, s4) := scan_exp s3 in
  Some (Number neg ds frac exp s4).

Definition hex_value (c : ascii) : option nat :=
  let n := code c in
  if ((48 <=? n) && (n <=? 57))%nat then Some (n - 48)%nat
  else if ((97 <=? n) && (n <=? 102))%nat then Some (n - 87)%nat
  else if ((65 <=? n) && (n <=? 70))%nat then Some (n - 55)%nat
  else None.

Definition hex4 (a b c d : ascii) : option nat :=
  x ← hex_value a; y ← hex_value b; z ← hex_value c; w ← hex_value d;
  Some (((x * 16 + y) * 16 + z) * 16 + w)%nat.

(** The simple escapes of [BACKSLASH]. *)
Definition unescape (c : ascii) : option ascii :=
  if bool_decide (c = c_quote) then Some c
  else if bool_decide (c = c_backslash) then Some c
  else if bool_decide (c = "/"%char) then Some c
  else if bool_decide (c = "b"%char) then Some "008"%char
  else if bool_decide (c = "f"%char) then Some "012"%char
  else if bool_decide (c = "n"%char) then Some "010"%char
  else if bool_decide (c = "r"%char) then Some "013"%char
  else if bool_decide (c = "t"%char) then Some "009"%char
  else None.

Definition prepend (c : ascii) (r : json_result (text * text)) : json_result (text * text) :=
  '(t, s) ← r; Ok (c :: t, s).

(** [scanstring] after the opening quote (strict: no raw control characters). *)
Fixpoint scan_string (s : text) : json_result (text * text) :=
  match s with
  | [] => Err JValueError
  | c :: s1 =>
      if bool_decide (c = c_quote) then Ok ([], s1)
      else if bool_decide (c = c_backslash) then
        match s1 with
        | [] => Err JValueError
        | e :: s2 =>
            if bool_decide (e = "u"%char) then
              match s2 with
              | h1 :: h2 :: h3 :: h4 :: s3 =>
                  match hex4 h1 h2 h3 h4 with
                  | None => Err JValueError
                  | Some n =>
                      if (n <? 256)%nat then prepend (ascii_of_nat n) (scan_string s3)
                      else Err JUnrepresentable
                  end
              | _ => Err JValueError
              end
            else match unescape e with
                 | Some x => prepend x (scan_string s2)
                 | None => Err JValueError
                 end
        end
      else if (code c <? 32)%nat then Err JValueError
      else prepend c (scan_string s1)
  end.

(** [_unique_json_object]: the object hook that refuses a repeated key. *)
Definition add_unique_pair (acc : list (string * value)) (kv : string * value)
    : json_result (list (string * value)) :=
  if bool_decide (kv.1 ∈ dkeys acc) then Err JValueError else Ok (acc ++ [kv]).

Definition unique_json_object (pairs : list (string * value)) : json_result (list (string * value)) :=
  fold_res add_unique_pair [] pairs.

(** [s[idx:].startswith(w)], giving what follows. *)
Fixpoint drop_prefix (w s : text) : option text :=
  match w, s with
  | [], _ => Some s
  | a :: w', b :: s' => if bool_decide (a = b) then drop_prefix w' s' else None
  | _ :: _, [] => None
  end.

Section loads.
  Context `{FloatText}.

Definition number_value (n : number) : json_result value :=
  match n_frac n, n_exp n with
  | [], [] =>
      if (max_str_digits <? length (n_int n))%nat then Err JValueError
      else Ok (VInt (if n_neg n then - digits_Z (n_int n) else digits_Z (n_int n)))
  | _, _ =>
      Ok (VFloat (parse_float (str
        ((if n_neg n then ["-"%char] else []) ++ n_int n ++ n_frac n ++ n_exp n))))
  end.

(** The literals and numbers of [scan_once]; NaN and the infinities end in the
    [ValueError] of [_reject_json_constant]. *)
Definition parse_scalar (s : text) : json_result (value * text) :=
  match drop_prefix (chars "null") s with
  | Some r => Ok (VNone, r)
  | None =>
  match drop_prefix (chars "true") s with
  | Some r => Ok (VBool true, r)
  | None =>
  match drop_prefix (chars "false") s with
  | Some r => Ok (VBool false, r)
  | None =>
  match scan_number s with
  | Some n => v ← number_value n; Ok (v, n_rest n)
  | None => Err JValueError
  end end end end.

Fixpoint parse_value (fuel : nat) (s : text) {struct fuel} : json_result (value * text) :=
  match fuel with
  | O => Err JFuel
  | S n =>
      match s with
      | [] => Err JValueError
      | c :: s1 =>
          if bool_decide (c = c_quote) then
            '(t, r) ← scan_string s1; Ok (VStr (str t), r)
          else if bool_decide (c = "{"%char) then
            match drop_prefix ["}"%char] (skip_ws s1) with
            | Some r => Ok (VDict [], r)
            | None =>
                '(pairs, r) ← parse_members n (skip_ws s1);
                d ← unique_json_object pairs;
                Ok (VDict d, r)
            end
          else if bool_decide (c = "["%char) then
            match drop_prefix ["]"%char] (skip_ws s1) with
            | Some r => Ok (VList [], r)
            | None => '(l, r) ← parse_elements n (skip_ws s1); Ok (VList l, r)
            end
          else parse_scalar s
      end
  end
with parse_elements (fuel : nat) (s : text) {struct fuel} : json_result (list value * text) :=
  match fuel with
  | O => Err JFuel
  | S n =>
      '(v, r) ← parse_value n s;
      match skip_ws r with
      | c :: r1 =>
          if bool_decide (c = "]"%char) then Ok ([v], r1)
          else if bool_decide (c = ","%char) then
            '(l, r2) ← parse_elements n (skip_ws r1); Ok (v :: l, r2)
          else Err JValueError
      | [] => Err JValueError
      end
  end
with parse_members (fuel : nat) (s : text) {struct fuel}
    : json_result (list (string * value) * text) :=
  match fuel with
  | O => Err JFuel
  | S n =>
      match s with
      | q :: s1 =>
          if bool_decide (q = c_quote) then
            '(k, r) ← scan_string s1;
            match drop_prefix [":"%char] (skip_ws r) with
            | None => Err JValueError
            | Some r1 =>
                '(v, r2) ← parse_value n (skip_ws r1);
                match skip_ws r2 with
                | c :: r3 =>
                    if bool_decide (c = "}"%char) then Ok ([(str k, v)], r3)
                    else if bool_decide (c = ","%char) then
                      '(l, r4) ← parse_members n (skip_ws r3); Ok ((str k, v) :: l, r4)
                    else Err JValueError
                | [] => Err JValueError
                end
            end
          else Err JValueError
      | [] => Err JValueError
      end
  end.

(** [json.loads(text, parse_constant=..., object_pairs_hook=...)] *)
Definition loads (t : text) : json_result value :=
  let s := skip_ws t in
  '(v, r) ← parse_value (2 * length s + 1) s;
  match skip_ws r with [] => Ok v | _ :: _ => Err JValueError end.
End loads.

(** [bytes.decode()]: UTF-8. A lead byte above [0xC3] starts either text beyond
    Latin-1 or invalid UTF-8; the model has no value for the former. *)
Fixpoint utf8_decode (b : text) : json_result text :=
  match b with
  | [] => Ok []
  | c :: b1 =>
      let n := code c in
      if (n <? 128)%nat then t ← utf8_decode b1; Ok (c :: t)
      else if ((194 <=? n) && (n <=? 195))%nat then
        match b1 with
        | c2 :: b2 =>
            if ((128 <=? code c2) && (code c2 <=? 191))%nat then
              t ← utf8_decode b2; Ok (ascii_of_nat ((n - 192) * 64 + (code c2 - 128)) :: t)
            else Err JValueError
        | [] => Err JValueError
        end
      else if ((196 <=? n) && (n <=? 244))%nat then Err JUnrepresentable
      else Err JValueError
  end.

(** ** What Python documents of float texts *)

(** The whole text is one number with a fraction or an exponent. *)
Definition is_float_literal (t : text) : bool :=
  match scan_number t with
  | Some n =>
      match n_rest n, n_frac n, n_exp n with
      | [], _ :: _, _ | [], _, _ :: _ => true
      | _, _, _ => false
      end
  | None => false
  end.

(** The [repr] of a finite float is a float literal that reads back as it. *)
Class FloatTextLaws `{FloatText} : Prop := {
  float_repr_literal f :
    Float.is_finite f = true -> is_float_literal (chars (float_repr f)) = true;
  parse_float_repr f :
    Float.is_finite f = true -> parse_float (float_repr f) = f
}.

(** An instance for evaluation: mantissa and exponent in decimal, which is an
    injective text of the right shape. *)
Module DecimalFloat.
Definition mantissa_text (s : bool) (m : string) : string :=
  (if s then "-" else "") +:+ m +:+ ".0".

Definition repr (f : float) : string :=
  match f with
  | S754_zero s => mantissa_text s "0"
  | S754_finite s m e => mantissa_text s (pretty m) +:+ "e" +:+ str_Z e
  | S754_infinity _ | S754_nan => "nan"
  end.

Definition parse (t : string) : float :=
  match scan_number (chars t) with
  | Some n =>
      match digits_Z (n_int n) with
      | Z.pos m =>
          S754_finite (n_neg n) m
            match n_exp n with
            | _ :: "-"%char :: ds => - digits_Z ds
            | _ :: ds => digits_Z ds
            | [] => 0
            end
      | _ => S754_zero (n_neg n)
      end
  | None => S754_nan
  end.

#[export] Instance ops : FloatText := {| float_repr := repr; parse_float := parse |}.
End DecimalFloat.
