(* ===== verification/JsonProps.v ===== *)
(** Properties of canonical JSON: the printer and the parser are inverse up to the
    order of keys, the parser's fuel suffices on every text, and texts that are
    equal come from values that are equal in Python. *)

From S2P Require Import Prelude PyValue Json.

(** ** Induction over values *)

Lemma value_ind_nested (P : value -> Prop) :
  P VNone -> (forall b, P (VBool b)) -> (forall z, P (VInt z)) -> (forall f, P (VFloat f)) ->
  (forall s, P (VStr s)) -> (forall l, Forall P l -> P (VList l)) ->
  (forall d, Forall (fun kv => P kv.2) d -> P (VDict d)) -> forall v, P v.
Proof.
  intros HN HB HI HF HS HL HD.
  fix go 1. intros [|b|z|f|s|l|d]; [done|auto|auto|auto|auto| |].
  - apply HL. induction l as [|x l IH]; constructor; auto.
  - apply HD. induction d as [|[k x] d IH]; constructor; auto.
Qed.

(** Python dictionaries have distinct keys. *)
Fixpoint distinct_keys (v : value) : bool :=
  match v with
  | VList l => forallb distinct_keys l
  | VDict d => no_dups (dkeys d) && forallb (fun kv => distinct_keys kv.2) d
  | _ => true
  end.

(** ** Order of text *)

Lemma ascii_compare_code a b : Ascii.compare a b = (code a ?= code b)%nat.
Proof.
  unfold Ascii.compare, code, nat_of_ascii. by rewrite N2Nat.inj_compare.
Qed.

Lemma code_inj a b : code a = code b -> a = b.
Proof.
  intros Hc. rewrite <- (ascii_nat_embedding a), <- (ascii_nat_embedding b). by f_equal.
Qed.

Lemma string_leb_cons a s b t :
  string_leb (String a s) (String b t) =
  ((code a <? code b) || (code a =? code b) && string_leb s t)%nat.
Proof.
  unfold string_leb, String.leb. cbn [String.compare]. rewrite ascii_compare_code.
  destruct (Nat.compare_spec (code a) (code b)) as [->|?|?].
  - by rewrite Nat.ltb_irrefl, Nat.eqb_refl.
  - by rewrite (proj2 (Nat.ltb_lt _ _)) by lia.
  - rewrite (proj2 (Nat.ltb_ge _ _)), (proj2 (Nat.eqb_neq _ _)) by lia. done.
Qed.

Definition str_le (a b : string) : Prop := string_leb a b = true.

#[global] Instance str_le_dec a b : Decision (str_le a b).
Proof. unfold str_le. apply _. Defined.

#[global] Instance str_le_trans : Transitive str_le.
Proof.
  unfold str_le. intros a. induction a as [|x a IH]; intros [|y b] [|z c]; try done.
  rewrite !string_leb_cons. intros H1 H2.
  apply orb_true_iff in H1, H2. apply orb_true_iff.
  rewrite !andb_true_iff, !Nat.ltb_lt, !Nat.eqb_eq in *.
  destruct H1 as [?|[? ?]], H2 as [?|[? ?]]; [left; lia..|right].
  split; [lia|by eapply IH].
Qed.

#[global] Instance str_le_antisymm : AntiSymm (=) str_le.
Proof. intros a b ??. by apply String.leb_antisym. Qed.

#[global] Instance str_le_total : Total str_le.
Proof. intros a b. apply String.leb_total. Qed.

#[global] Instance str_le_refl : Reflexive str_le.
Proof. intros a. by destruct (str_le_total a a). Qed.

(** ** Sorting by key *)

Definition key_le {A} (x y : string * A) : Prop := str_le x.1 y.1.

Lemma insert_item_perm {A} k (v : A) d : insert_item k v d ≡ₚ (k, v) :: d.
Proof.
  induction d as [|[k' v'] d IH]; cbn; [done|].
  destruct (string_leb k k'); [done|]. rewrite IH. constructor.
Qed.

Lemma sort_items_perm {A} (d : list (string * A)) : sort_items d ≡ₚ d.
Proof. induction d as [|[k v] d IH]; cbn; [done|]. by rewrite insert_item_perm, IH. Qed.

Lemma insert_item_sorted {A} k (v : A) d :
  StronglySorted key_le d -> StronglySorted key_le (insert_item k v d).
Proof.
  induction 1 as [|[k' v'] d Hs IH Hf]; cbn; [repeat constructor|].
  destruct (string_leb k k') eqn:E.
  - constructor; [by constructor|]. constructor; [done|].
    eapply Forall_impl; [exact Hf|]. intros x Hx. exact (str_le_trans k k' x.1 E Hx).
  - constructor; [done|]. rewrite insert_item_perm. constructor; [|done].
    unfold key_le, str_le; cbn. destruct (str_le_total k k'); [congruence|done].
Qed.

Lemma sort_items_sorted {A} (d : list (string * A)) : StronglySorted key_le (sort_items d).
Proof. induction d as [|[k v] d IH]; cbn; [constructor|by apply insert_item_sorted]. Qed.

Lemma insert_item_map {A B} (f : A -> B) k v d :
  insert_item k (f v) (map (fun kv => (kv.1, f kv.2)) d) =
  map (fun kv => (kv.1, f kv.2)) (insert_item k v d).
Proof. induction d as [|[k' v'] d IH]; cbn; [done|]. destruct (string_leb k k'); cbn; congruence. Qed.

Lemma sort_items_map {A B} (f : A -> B) d :
  sort_items (map (fun kv => (kv.1, f kv.2)) d) = map (fun kv => (kv.1, f kv.2)) (sort_items d).
Proof. induction d as [|[k v] d IH]; cbn; [done|]. by rewrite IH, insert_item_map. Qed.

Lemma dkeys_map {A B} (f : A -> B) (d : list (string * A)) :
  dkeys (map (fun kv => (kv.1, f kv.2)) d) = dkeys d.
Proof. unfold dkeys. induction d as [|[k v] d IH]; cbn; congruence. Qed.

Lemma dkeys_sort {A} (d : list (string * A)) : dkeys (sort_items d) ≡ₚ dkeys d.
Proof. unfold dkeys. by rewrite sort_items_perm. Qed.

Lemma forallb_sort_items {A} (f : string * A -> bool) d :
  forallb f (sort_items d) = forallb f d.
Proof.
  apply eq_iff_eq_true. rewrite !forallb_forall. setoid_rewrite <- list_elem_of_In.
  by setoid_rewrite sort_items_perm.
Qed.

(** The sorted list of a dictionary does not depend on the order of insertion. *)
Lemma sort_items_unique {A} (d d' : list (string * A)) :
  NoDup (dkeys d) -> d ≡ₚ d' -> sort_items d = sort_items d'.
Proof.
  intros Hnd Hp.
  assert (sort_items d ≡ₚ sort_items d') as Hp' by (by rewrite !sort_items_perm).
  assert (NoDup (dkeys (sort_items d))) as Hnd' by (by rewrite dkeys_sort).
  pose proof (sort_items_sorted d) as H1. pose proof (sort_items_sorted d') as H2.
  revert Hp' Hnd' H1 H2. generalize (sort_items d), (sort_items d'). clear Hnd Hp d d'.
  intros d. induction d as [|[k v] d IH]; intros d' Hp Hnd H1 H2.
  { symmetry in Hp. apply Permutation_nil_r in Hp. done. }
  destruct d' as [|[k' v'] d']; [by apply Permutation_nil_r in Hp|].
  assert ((k, v) = (k', v')) as [= <- <-].
  { assert ((k, v) ∈ (k', v') :: d') as Hin by (rewrite <- Hp; left).
    assert ((k', v') ∈ (k, v) :: d) as Hin' by (rewrite Hp; left).
    apply elem_of_cons in Hin as [|Hin]; [done|]. apply elem_of_cons in Hin' as [|Hin']; [done|].
    inv H1 as [|? ? ? Hf1]. inv H2 as [|? ? ? Hf2].
    rewrite Forall_forall in Hf1, Hf2. apply Hf1 in Hin' as Hk1. apply Hf2 in Hin as Hk2.
    assert (k = k') as -> by (by apply (anti_symm str_le)).
    exfalso. inv Hnd as [|? ? Hn]. apply Hn. apply list_elem_of_fmap. by exists (k', v'). }
  f_equal. inv Hnd. inv H1. inv H2. apply IH; try done. by eapply Permutation_cons_inv.
Qed.

(** ** Strings *)

Lemma chars_str t : chars (str t) = t.
Proof. apply String.list_ascii_of_string_of_list_ascii. Qed.

Lemma str_chars s : str (chars s) = s.
Proof. apply String.string_of_list_ascii_of_string. Qed.

Lemma chars_inj s t : chars s = chars t -> s = t.
Proof. intros Hc. by rewrite <- (str_chars s), <- (str_chars t), Hc. Qed.

Lemma chars_app s t : chars (s +:+ t) = chars s ++ chars t.
Proof.
  induction s as [|c s IH]; [done|].
  change (chars (String c s +:+ t)) with (c :: chars (s +:+ t)). by rewrite IH.
Qed.

Lemma length_chars s : length (chars s) = String.length s.
Proof. induction s as [|c s IH]; cbn; [done|]. by f_equal. Qed.

Lemma scan_escape_char c s : scan_string (escape_char c ++ s) = prepend c (scan_string s).
Proof. destruct c as [[] [] [] [] [] [] [] []]; reflexivity. Qed.

Lemma scan_escaped t r :
  scan_string (flat_map escape_char t ++ c_quote :: r) = Ok (t, r).
Proof.
  induction t as [|c t IH]; [done|].
  cbn [flat_map]. rewrite <- app_assoc, scan_escape_char, IH. done.
Qed.

Lemma scan_quote s r :
  exists s1, quote s ++ r = c_quote :: s1 /\ scan_string s1 = Ok (chars s, r).
Proof.
  exists (flat_map escape_char (chars s) ++ c_quote :: r). split; [|apply scan_escaped].
  unfold quote. cbn [app]. by rewrite <- app_assoc.
Qed.

Lemma scan_string_shorter s t r :
  scan_string s = Ok (t, r) -> (length r < length s)%nat.
Proof.
  remember (length s) as n eqn:Hn. revert s t Hn.
  induction n as [n IH] using lt_wf_ind; intros s t -> Hs.
  assert (forall c s' t', (length s' < length s)%nat ->
    prepend c (scan_string s') = Ok (t', r) -> (length r < length s')%nat) as Hp.
  { intros c s' t' Hlt Hb. unfold prepend in Hb. apply bind_Ok in Hb as ([t1 s1] & Hb & [= <- <-]).
    by eapply IH. }
  destruct s as [|c s1]; [done|]. cbn in Hs, Hp |- *. case_in Hs; try (injection Hs as <- <-; lia);
    match type of Hs with prepend ?c (scan_string ?s') = _ =>
      assert (length r < length s')%nat by (eapply Hp; [|exact Hs]; cbn; lia) end;
    subst; cbn in *; lia.
Qed.

(** ** Numbers *)

(** What may follow a value inside a document. *)
Definition delimited (r : text) : bool :=
  match r with
  | [] => true
  | c :: _ => bool_decide (c ∈ [","%char; "]"%char; "}"%char])
  end.

Lemma delimited_cons c r :
  delimited (c :: r) = true -> c = ","%char \/ c = "]"%char \/ c = "}"%char.
Proof. intros Hd%bool_decide_eq_true. set_solver. Qed.

Ltac delimiter r :=
  destruct r as [|? r];
  [ | match goal with H : delimited (_ :: _) = true |- _ =>
        destruct (delimited_cons _ _ H) as [-> | [-> | ->]] end ].

Lemma span_digits_app s r :
  delimited r = true ->
  span_digits (s ++ r) = let '(ds, t) := span_digits s in (ds, t ++ r).
Proof.
  intros Hr. induction s as [|c s IH]; cbn [app span_digits].
  - by delimiter r.
  - destruct (is_digit c); [|done]. rewrite IH. by destruct (span_digits s).
Qed.

Lemma scan_frac_app s r :
  delimited r = true -> scan_frac (s ++ r) = let '(x, t) := scan_frac s in (x, t ++ r).
Proof.
  intros Hr. destruct s as [|c s]; cbn [app scan_frac]; [by delimiter r|].
  case_bool_decide; [|done]. rewrite span_digits_app by done.
  by destruct (span_digits s) as [[|]].
Qed.

Lemma scan_exp_sign_app s r :
  delimited r = true -> scan_exp_sign (s ++ r) = let '(x, t) := scan_exp_sign s in (x, t ++ r).
Proof.
  intros Hr. destruct s as [|c s]; cbn [app scan_exp_sign]; [by delimiter r|].
  by destruct (_ || _).
Qed.

Lemma scan_exp_app s r :
  delimited r = true -> scan_exp (s ++ r) = let '(x, t) := scan_exp s in (x, t ++ r).
Proof.
  intros Hr. destruct s as [|c s]; cbn [app scan_exp]; [by delimiter r|].
  destruct (_ || _); [|done]. rewrite scan_exp_sign_app by done.
  destruct (scan_exp_sign s) as [sg s1]. rewrite span_digits_app by done.
  by destruct (span_digits s1) as [[|]].
Qed.

Definition with_rest (n : number) (r : text) : number :=
  Number (n_neg n) (n_int n) (n_frac n) (n_exp n) r.

(** A number read from a text is read the same way in front of a delimiter. *)
Lemma scan_number_app s r n :
  delimited r = true -> scan_number s = Some n ->
  scan_number (s ++ r) = Some (with_rest n (n_rest n ++ r)).
Proof.
  intros Hr. unfold scan_number.
  assert (scan_sign (s ++ r) = let '(x, t) := scan_sign s in (x, t ++ r)) as ->.
  { destruct s as [|c s]; cbn [app scan_sign]; [by delimiter r|]. by case_bool_decide. }
  destruct (scan_sign s) as [neg s1].
  assert (scan_int (s1 ++ r) = '(x, t) ← scan_int s1; Some (x, t ++ r)) as ->.
  { destruct s1 as [|c s1]; cbn [app scan_int]; [by delimiter r|].
    case_bool_decide; [done|]. destruct (is_digit c) eqn:Hc; [|done].
    change (c :: s1 ++ r) with ((c :: s1) ++ r). rewrite span_digits_app by done.
    by destruct (span_digits (c :: s1)). }
  destruct (scan_int s1) as [[ds s2]|]; [|done]. cbn.
  rewrite scan_frac_app by done. destruct (scan_frac s2) as [fr s3].
  rewrite scan_exp_app by done. destruct (scan_exp s3) as [ex s4].
  intros [= <-]. done.
Qed.

Definition number_text (n : number) : text :=
  (if n_neg n then ["-"%char] else []) ++ n_int n ++ n_frac n ++ n_exp n.

Lemma span_digits_concat s ds r : span_digits s = (ds, r) -> s = ds ++ r.
Proof.
  revert ds r. induction s as [|c s IH]; cbn; intros ds r Hs; [by simplify_eq|].
  destruct (is_digit c); [|by simplify_eq].
  destruct (span_digits s) as [ds' r'] eqn:E. simplify_eq. cbn. f_equal. by apply IH.
Qed.

Ltac digits_concat :=
  match goal with H : span_digits _ = _ |- _ => exact (span_digits_concat _ _ _ H) end.

(** The scanned literal followed by the rest is the text. *)
Lemma scan_number_concat s n : scan_number s = Some n -> s = number_text n ++ n_rest n.
Proof.
  unfold scan_number, number_text.
  destruct (scan_sign s) as [neg s1] eqn:E1. destruct (scan_int s1) as [[ds s2]|] eqn:E2; [|done].
  cbn. destruct (scan_frac s2) as [fr s3] eqn:E3. destruct (scan_exp s3) as [ex s4] eqn:E4.
  intros [= <-]. cbn.
  assert (s = (if neg then ["-"%char] else []) ++ s1) as ->.
  { unfold scan_sign in E1. case_in E1; bool_prop; by simplify_eq. }
  assert (s1 = ds ++ s2) as ->.
  { unfold scan_int in E2. case_in E2; bool_prop; simplify_eq; [done|].
    apply span_digits_concat. congruence. }
  assert (s2 = fr ++ s3) as ->.
  { unfold scan_frac in E3. case_in E3; simplify_eq; [done..| |done].
    cbn. f_equal. by digits_concat. }
  assert (s3 = ex ++ s4) as ->.
  { unfold scan_exp in E4. case_in E4; simplify_eq; [done..| |done].
    match goal with Hs : scan_exp_sign ?l = _ |- _ => unfold scan_exp_sign in Hs; case_in Hs end;
      simplify_eq; cbn; first [f_equal; digits_concat | do 2 f_equal; digits_concat]. }
  by rewrite <- !app_assoc.
Qed.

(** ** Decimal integers *)

Lemma digits_Z_snoc ds c : digits_Z (ds ++ [c]) = digits_Z ds * 10 + (Z.of_nat (code c) - 48).
Proof. unfold digits_Z. by rewrite fold_left_app. Qed.

Lemma pretty_N_char_digit x :
  (x < 10)%N ->
  is_digit (pretty_N_char x) = true /\ Z.of_nat (code (pretty_N_char x)) - 48 = Z.of_N x.
Proof.
  intros Hx.
  assert (x = 0 \/ x = 1 \/ x = 2 \/ x = 3 \/ x = 4 \/ x = 5 \/ x = 6 \/ x = 7 \/ x = 8 \/ x = 9)%N
    as Hc by lia.
  by repeat (destruct Hc as [-> | Hc]; [done|]); subst.
Qed.

(** The digits of a positive number; the first is not zero. *)
Lemma pretty_N_digits_pos x s :
  (0 < x)%N ->
  exists c ds, chars (pretty_N_go x s) = c :: ds ++ chars s /\ c <> "0"%char /\
    forallb is_digit (c :: ds) = true /\ digits_Z (c :: ds) = Z.of_N x.
Proof.
  revert s. induction (N.lt_wf_0 x) as [x _ IH]; intros s Hx.
  rewrite pretty_N_go_step by lia.
  assert (x `mod` 10 < 10)%N as Hm by (apply N.mod_lt; lia).
  destruct (pretty_N_char_digit _ Hm) as [Hc1 Hc2].
  pose proof (N.div_mod x 10 ltac:(lia)) as Hdm.
  destruct (decide (x `div` 10 = 0)%N) as [E|E].
  - rewrite E, pretty_N_go_0. exists (pretty_N_char (x `mod` 10)), []. split; [done|]. split.
    + intros Hz. rewrite Hz in Hc2. change (Z.of_nat (code "0")) with 48 in Hc2. lia.
    + split; [cbn; by rewrite Hc1|]. unfold digits_Z; cbn [fold_left]. lia.
  - destruct (IH (x `div` 10)%N ltac:(apply N.div_lt; lia)
      (String (pretty_N_char (x `mod` 10)) s) ltac:(lia)) as (c & ds & -> & Hne & Hd & Hv).
    exists c, (ds ++ [pretty_N_char (x `mod` 10)]). split; [by rewrite <- app_assoc|].
    split; [done|]. rewrite !app_comm_cons.
    split; [by rewrite forallb_app, Hd; cbn; rewrite Hc1|].
    rewrite digits_Z_snoc, Hv, Hc2. lia.
Qed.

Lemma span_digits_all ds : forallb is_digit ds = true -> span_digits ds = (ds, []).
Proof.
  induction ds as [|c ds IH]; cbn; [done|]. intros [-> Hd]%andb_prop. by rewrite IH.
Qed.

(** The printed absolute value is scanned back as its digits. *)
Lemma scan_int_pretty x :
  exists ds, chars (pretty x) = ds /\ scan_int ds = Some (ds, []) /\ digits_Z ds = Z.of_N x /\
    scan_sign ds = (false, ds).
Proof.
  unfold pretty, pretty_N. destruct (decide (x = 0)%N) as [->|Hx]; [by eexists|].
  destruct (pretty_N_digits_pos x "" ltac:(lia)) as (c & ds & -> & Hne & Hd & Hv).
  change (chars "") with (@nil ascii). rewrite app_nil_r.
  exists (c :: ds). split_and!; [done| |done|].
  - unfold scan_int. rewrite bool_decide_false by done.
    pose proof Hd as [-> _]%andb_prop. by rewrite (span_digits_all _ Hd).
  - unfold scan_sign. rewrite bool_decide_false; [done|]. intros ->. done.
Qed.

Lemma str_Z_number z :
  exists n, scan_number (chars (str_Z z)) = Some n /\ n_frac n = [] /\ n_exp n = [] /\
    n_rest n = [] /\ (if n_neg n then - digits_Z (n_int n) else digits_Z (n_int n)) = z /\
    n_int n = chars (str_Z (Z.abs z)).
Proof.
  unfold str_Z.
  destruct (decide (0 <= z)) as [Hz|Hz].
  - destruct (scan_int_pretty (Z.to_N z)) as (ds & E & Hi & Hv & Hs).
    assert (pretty z = pretty (Z.to_N z)) as Hp by (destruct z; [done|done|lia]).
    rewrite Hp, E. rewrite Z.abs_eq, Hp, E by done.
    exists (Number false ds [] [] []). unfold scan_number. rewrite Hs. cbn. rewrite Hi. cbn.
    split_and!; try done. unfold digits_Z in Hv. lia.
  - destruct z as [|p|p]; [lia..|].
    destruct (scan_int_pretty (N.pos p)) as (ds & E & Hi & Hv & Hs).
    exists (Number true ds [] [] []).
    assert (chars (pretty (Z.neg p)) = "-"%char :: ds) as ->.
    { change (pretty (Z.neg p)) with ("-" +:+ pretty (N.pos p)). by rewrite chars_app, E. }
    split_and!; try done.
    + unfold scan_number, scan_sign. rewrite bool_decide_true by done. rewrite Hi. done.
    + change (- digits_Z ds = Z.neg p). by rewrite Hv.
Qed.

(** ** Reading back what was printed *)

Lemma unique_json_object_ok pairs :
  NoDup (dkeys pairs) -> unique_json_object pairs = Ok pairs.
Proof.
  intros Hnd. assert (forall done, NoDup (dkeys (done ++ pairs)) ->
    fold_res add_unique_pair done pairs = Ok (done ++ pairs)) as H; [|by apply (H [])].
  clear Hnd. induction pairs as [|[k v] pairs IH]; intros done Hnd; cbn [fold_res];
    [by rewrite app_nil_r|].
  unfold add_unique_pair at 2. rewrite bool_decide_false.
  - cbn. rewrite IH; [by rewrite <- app_assoc|]. by rewrite <- app_assoc.
  - unfold dkeys in *. rewrite fmap_app in Hnd. cbn in Hnd.
    apply NoDup_app in Hnd as (_ & Hn & _). intros Hin. apply (Hn k Hin). by left.
Qed.

Section roundtrip.
  Context `{FloatTextLaws}.

Lemma parse_value_number n s x :
  scan_number s = Some x ->
  parse_value (S n) s = (v ← number_value x; Ok (v, n_rest x)).
Proof.
  intros Hx. assert (exists c s', s = c :: s' /\ (c = "-"%char \/ is_digit c = true)) as (c & s' & -> & Hc).
  { unfold scan_number in Hx. destruct s as [|c s']; [done|]. exists c, s'. split; [done|].
    cbn [scan_sign] in Hx. case_bool_decide; [by left|]. right.
    unfold scan_int in Hx. case_bool_decide; [by subst|]. by destruct (is_digit c). }
  assert (parse_scalar (c :: s') = (v ← number_value x; Ok (v, n_rest x))) as Hs.
  { unfold parse_scalar. rewrite Hx.
    destruct Hc as [->|Hc]; [done|]. cbn.
    rewrite !bool_decide_false; [done|intros <-; done..]. }
  cbn [parse_value]. rewrite !bool_decide_false; [done|..];
    intros ->; destruct Hc as [[=]|[=]].
Qed.

Lemma parse_print_int n z r :
  printable_int z = true -> delimited r = true ->
  parse_value (S n) (chars (str_Z z) ++ r) = Ok (VInt z, r).
Proof.
  intros Hp Hr. destruct (str_Z_number z) as (x & Hx & Hf & He & Hrest & Hz & Hi).
  rewrite (parse_value_number _ _ _ (scan_number_app _ _ _ Hr Hx)).
  unfold number_value; cbn [with_rest n_neg n_int n_frac n_exp n_rest]. rewrite Hf, He, Hi, Hrest.
  rewrite length_chars. unfold printable_int in Hp.
  rewrite (proj2 (Nat.ltb_ge _ _)) by (by apply Nat.leb_le). cbn [mbind result_bind]. by rewrite <- Hi, Hz.
Qed.

Lemma parse_print_float n f r :
  Float.is_finite f = true -> delimited r = true ->
  parse_value (S n) (chars (float_repr f) ++ r) = Ok (VFloat f, r).
Proof.
  intros Hf Hr. pose proof (float_repr_literal f Hf) as Hl. unfold is_float_literal in Hl.
  destruct (scan_number (chars (float_repr f))) as [x|] eqn:Hx; [|done].
  pose proof (scan_number_concat _ _ Hx) as Hc.
  assert (n_rest x = []) as Hrest by (by destruct (n_rest x)).
  rewrite (parse_value_number _ _ _ (scan_number_app _ _ _ Hr Hx)).
  unfold number_value; cbn [with_rest n_neg n_int n_frac n_exp n_rest]. rewrite Hrest in *. rewrite app_nil_r in Hc.
  change ((if n_neg x then ["-"%char] else []) ++ n_int x ++ n_frac x ++ n_exp x)
    with (number_text x). rewrite <- Hc, str_chars, parse_float_repr by done.
  by destruct (n_frac x), (n_exp x).
Qed.

(** The first character of a printed value is not white space or a bracket that
    closes. *)
Definition opening (t : text) : bool :=
  match t with
  | c :: _ => negb (is_ws c) && negb (bool_decide (c = "]"%char)) && negb (bool_decide (c = "}"%char))
  | [] => false
  end.

Lemma number_opening s x r : scan_number s = Some x -> opening (s ++ r) = true.
Proof.
  intros Hx. destruct s as [|c s]; [done|]. unfold scan_number, scan_sign in Hx.
  case_bool_decide; [by subst|]. unfold scan_int in Hx. case_bool_decide; [by subst|].
  destruct (is_digit c) eqn:Hc; [|done]. cbn. clear -Hc.
  by destruct c as [[] [] [] [] [] [] [] []].
Qed.

Lemma print_opening v r : encodable v = true -> opening (print v ++ r) = true.
Proof.
  destruct v as [|[]|z|f|s|l|d]; try done; intros He.
  - destruct (str_Z_number z) as (x & Hx & _). by eapply number_opening.
  - pose proof (float_repr_literal f He) as Hl. unfold is_float_literal in Hl.
    cbn [print]. destruct (scan_number (chars (float_repr f))) as [x|] eqn:Hx; [|done].
    by eapply number_opening.
Qed.

Lemma opening_skip t : opening t = true -> skip_ws t = t.
Proof. destruct t as [|c t]; [done|]. cbn. by destruct (is_ws c). Qed.

Lemma opening_no_close t c :
  opening t = true -> c = "]"%char \/ c = "}"%char -> drop_prefix [c] t = None.
Proof.
  destruct t as [|a t]; [done|]. cbn. intros Hb Hc. bool_prop.
  rewrite bool_decide_false; [done|]. intros ->. destruct Hc; congruence.
Qed.
Definition print_member (kv : string * value) : text := quote kv.1 ++ ":"%char :: print kv.2.

Lemma print_dict d :
  print (VDict d) = "{"%char :: join (map print_member (sort_items d)) ++ ["}"%char].
Proof. cbn [print]. by rewrite sort_items_map, map_map. Qed.

Lemma join_cons t l : join (t :: l) = match l with [] => t | _ => t ++ ","%char :: join l end.
Proof. by destruct l. Qed.

(** What is proved of a printed value, at every fuel above twice its length. *)
Definition reads_back (v : value) : Prop :=
  encodable v = true -> distinct_keys v = true ->
  forall n r, delimited r = true -> (2 * length (print v) < n)%nat ->
  parse_value n (print v ++ r) = Ok (canon v, r).

Lemma parse_elements_print l n r :
  l <> [] -> Forall reads_back l -> forallb encodable l = true ->
  forallb distinct_keys l = true -> (2 * length (join (map print l)) + 1 < n)%nat ->
  parse_elements n (join (map print l) ++ "]"%char :: r) = Ok (map canon l, r).
Proof.
  revert n. induction l as [|v l IH]; intros n Hne Hf He Hd Hn; [done|].
  inv Hf as [|? ? Hv Hf']. cbn [forallb] in He, Hd. bool_prop.
  destruct n as [|n]; [lia|]. cbn [map] in *. rewrite join_cons in *.
  destruct l as [|v' l]; cbn [map] in *.
  - cbn [parse_elements]. rewrite Hv by (done || lia). done.
  - rewrite length_app in Hn. cbn [length] in Hn.
    rewrite <- app_assoc. cbn [app parse_elements]. rewrite Hv by (done || lia).
    cbn [mbind result_bind skip_ws]. change (is_ws ","%char) with false. cbv iota.
    rewrite bool_decide_false, bool_decide_true by done.
    assert (opening (join (print v' :: map print l) ++ "]"%char :: r) = true) as Ho.
    { cbn [forallb] in *. bool_prop. rewrite join_cons.
      destruct (map print l); rewrite <- ?app_assoc; by apply print_opening. }
    rewrite (opening_skip _ Ho), IH by (done || lia). done.
Qed.

Lemma members_opening kv d r : opening (join (map print_member (kv :: d)) ++ r) = true.
Proof. cbn [map]. rewrite join_cons. by destruct (map print_member d). Qed.

Lemma parse_members_print d n r :
  d <> [] -> Forall (fun kv => reads_back kv.2) d ->
  forallb (fun kv => encodable kv.2) d = true ->
  forallb (fun kv => distinct_keys kv.2) d = true ->
  (2 * length (join (map print_member d)) + 1 < n)%nat ->
  parse_members n (join (map print_member d) ++ "}"%char :: r) =
    Ok (map (fun kv => (kv.1, canon kv.2)) d, r).
Proof.
  revert n. induction d as [|[k v] d IH]; intros n Hne Hf He Hd Hn; [done|].
  inv Hf as [|? ? Hv Hf']. cbn [forallb snd] in He, Hd, Hv. bool_prop.
  destruct n as [|n]; [lia|].
  assert (exists tail, join (map print_member ((k, v) :: d)) ++ "}"%char :: r =
      quote k ++ ":"%char :: print v ++ tail /\ delimited tail = true /\
      tail = match d with [] => "}"%char :: r
             | _ => ","%char :: join (map print_member d) ++ "}"%char :: r end) as (tail & -> & Ht & Etail).
  { cbn [map]. rewrite join_cons. destruct d as [|kv d]; cbn [map] in *;
      (eexists; split; [|split; [|reflexivity]]; [|done]);
      unfold print_member; cbn [fst snd]; rewrite <- ?app_assoc; cbn [app];
      by rewrite <- ?app_assoc. }
  assert (2 * length (print v) < n)%nat as Hn1.
  { clear -Hn. cbn [map] in Hn. rewrite join_cons in Hn. unfold print_member in Hn.
    cbn [fst snd] in Hn.
    destruct (map (fun kv => _) d); rewrite ?length_app in Hn; cbn [length] in Hn;
      rewrite ?length_app in Hn; cbn [length] in Hn; lia. }
  destruct (scan_quote k (":"%char :: print v ++ tail)) as (s1 & -> & Hq).
  cbn [parse_members]. rewrite bool_decide_true, Hq by done.
  cbn [mbind result_bind skip_ws]. change (is_ws ":"%char) with false. cbn [drop_prefix].
  rewrite bool_decide_true, (opening_skip (print v ++ tail)) by (done || by apply print_opening).
  rewrite Hv by done. cbn [mbind result_bind]. rewrite str_chars.
  destruct d as [|kv d]; subst tail; cbn [skip_ws];
    [change (is_ws "}"%char) with false|change (is_ws ","%char) with false]; cbv iota.
  { by rewrite bool_decide_true by done. }
  rewrite bool_decide_false, bool_decide_true by done.
  rewrite (opening_skip (join _ ++ _)) by apply members_opening.
  rewrite IH; [done|done|done|done|done|].
  cbn [map] in Hn. rewrite join_cons in Hn. unfold print_member at 1 in Hn.
  cbn [map]. rewrite !length_app in Hn. cbn [length] in Hn. cbn [map length] in *. lia.
Qed.

Lemma print_reads_back v : reads_back v.
Proof.
  induction v as [|b|z|f|s|l IH|d IH] using value_ind_nested; intros He Hd n r Hr Hn;
    (destruct n as [|n]; [lia|]).
  - done.
  - by destruct b.
  - by apply parse_print_int.
  - by apply parse_print_float.
  - cbn [print]. destruct (scan_quote s r) as (s1 & -> & Hq).
    cbn [parse_value]. rewrite bool_decide_true, Hq by done. cbn. by rewrite str_chars.
  - cbn [print canon encodable distinct_keys] in *. cbn [app parse_value].
    rewrite !bool_decide_false, bool_decide_true by done. rewrite <- app_assoc. cbn [app].
    destruct l as [|v l]; [done|].
    assert (opening (join (map print (v :: l)) ++ "]"%char :: r) = true) as Ho.
    { cbn [map forallb] in *. bool_prop. rewrite join_cons.
      destruct (map print l); rewrite <- ?app_assoc; by apply print_opening. }
    rewrite (opening_skip _ Ho), (opening_no_close _ "]"%char Ho) by auto.
    cbn [length] in Hn. rewrite length_app in Hn. cbn [length] in Hn.
    by rewrite parse_elements_print by (done || lia).
  - rewrite print_dict in *. cbn [canon encodable distinct_keys] in *.
    cbn [app parse_value]. apply andb_prop in Hd as [Hnd0%bool_decide_eq_true Hd].
    rewrite bool_decide_false, bool_decide_true by done. rewrite <- app_assoc. cbn [app].
    rewrite sort_items_map.
    assert (NoDup (dkeys (sort_items d))) as Hnd by (by rewrite dkeys_sort).
    assert (Forall (fun kv => reads_back kv.2) (sort_items d)) as Hf by (by rewrite sort_items_perm).
    assert (forallb (fun kv => encodable kv.2) (sort_items d) = true) as He'
      by (by rewrite forallb_sort_items).
    assert (forallb (fun kv => distinct_keys kv.2) (sort_items d) = true) as Hd'
      by (by rewrite forallb_sort_items).
    cbn [length] in Hn. rewrite length_app in Hn. cbn [length] in Hn.
    clear IH He Hd Hnd0. destruct (sort_items d) as [|kv d']; [done|].
    rewrite (opening_skip (join _ ++ _)), (opening_no_close (join _ ++ _) "}"%char) by
      (auto || by apply members_opening).
    rewrite parse_members_print by (done || lia). cbn [mbind result_bind].
    by rewrite unique_json_object_ok by (by rewrite dkeys_map).
Qed.
End roundtrip.

(** ** Fuel *)

Lemma skip_ws_length s : (length (skip_ws s) <= length s)%nat.
Proof. induction s as [|c s IH]; cbn; [lia|]. destruct (is_ws c); cbn in *; lia. Qed.

Lemma skip_ws_cons s c r : skip_ws s = c :: r -> (length r < length s)%nat.
Proof. intros E. pose proof (skip_ws_length s) as Hl. rewrite E in Hl. cbn in Hl. lia. Qed.

Lemma drop_prefix_length w s r :
  drop_prefix w s = Some r -> (length s = length w + length r)%nat.
Proof.
  revert s. induction w as [|a w IH]; intros s Hd; [by injection Hd as ->|].
  destruct s as [|b s]; [done|]. cbn in *. case_bool_decide; [|done]. apply IH in Hd. lia.
Qed.

Lemma scan_number_shorter s n : scan_number s = Some n -> (length (n_rest n) < length s)%nat.
Proof.
  intros Hs. rewrite (scan_number_concat _ _ Hs) at 1. unfold number_text. rewrite !length_app.
  assert (n_int n <> []) as Hne.
  { unfold scan_number in Hs. destruct (scan_sign s) as [neg s1].
    destruct (scan_int s1) as [[ds s2]|] eqn:E; [|done]. cbn in Hs.
    destruct (scan_frac s2), (scan_exp _). simplify_eq. cbn.
    unfold scan_int in E. destruct s1 as [|c s1]; [done|]. case_bool_decide; [by simplify_eq|].
    cbn [span_digits] in E. destruct (is_digit c); [|done]. destruct (span_digits s1). by simplify_eq. }
  destruct (n_int n); [done|]. cbn. lia.
Qed.

Section fuel.
  Context `{FloatText}.

Lemma parse_scalar_shorter s v r : parse_scalar s = Ok (v, r) -> (length r < length s)%nat.
Proof.
  unfold parse_scalar. intros Hp. case_in Hp; res_inv; simplify_eq;
    try (match goal with Hd : drop_prefix _ _ = Some _ |- _ =>
           apply drop_prefix_length in Hd; cbn in Hd; lia end).
  by apply scan_number_shorter.
Qed.

Lemma parse_scalar_no_fuel s : parse_scalar s <> Err JFuel.
Proof.
  unfold parse_scalar. case_goal; try done. unfold number_value. case_goal; done.
Qed.

Lemma scan_string_no_fuel s : scan_string s <> Err JFuel.
Proof.
  remember (length s) as n eqn:Hn. revert s Hn.
  induction n as [n IH] using lt_wf_ind; intros s ->.
  assert (forall c s', (length s' < length s)%nat -> prepend c (scan_string s') <> Err JFuel) as Hp.
  { intros c s' Hlt. unfold prepend. intros [He|([? ?] & _ & ?)]%bind_Err; [|done].
    by apply (IH _ Hlt s'). }
  destruct s as [|c s]; [done|]. cbn in Hp |- *. case_goal; try done; apply Hp; subst; cbn; lia.
Qed.

Lemma unique_json_object_no_fuel pairs : unique_json_object pairs <> Err JFuel.
Proof.
  unfold unique_json_object. generalize (@nil (string * value)).
  induction pairs as [|kv pairs IH]; intros acc; cbn [fold_res]; [done|].
  unfold add_unique_pair at 2. case_bool_decide; [done|apply IH].
Qed.

(** Every part of the parser consumes text. *)
Lemma parse_shorter n :
  (forall s v r, parse_value n s = Ok (v, r) -> (length r < length s)%nat) /\
  (forall s l r, parse_elements n s = Ok (l, r) -> (length r < length s)%nat) /\
  (forall s d r, parse_members n s = Ok (d, r) -> (length r < length s)%nat).
Proof.
  induction n as [|n (IHv & IHe & IHm)]; [done|].
  split_and!; intros s x r Hp.
  - cbn [parse_value] in Hp. destruct s as [|c s1]; [done|].
    pose proof (skip_ws_length s1). cbn [length].
    case_in Hp; res_inv; repeat (case_match; simplify_eq); res_inv; simplify_eq.
    + match goal with Hs : scan_string _ = _ |- _ => apply scan_string_shorter in Hs; lia end.
    + match goal with Hs : drop_prefix _ _ = _ |- _ => apply drop_prefix_length in Hs; cbn in Hs; lia end.
    + match goal with Hs : parse_members _ _ = _ |- _ => apply IHm in Hs; lia end.
    + match goal with Hs : drop_prefix _ _ = _ |- _ => apply drop_prefix_length in Hs; cbn in Hs; lia end.
    + match goal with Hs : parse_elements _ _ = _ |- _ => apply IHe in Hs; lia end.
    + apply parse_scalar_shorter in Hp. cbn in Hp. lia.
  - cbn [parse_elements] in Hp. apply bind_Ok in Hp as ([v r1] & Hv & Hp). apply IHv in Hv.
    destruct (skip_ws r1) as [|c r2] eqn:Hw; [done|]. apply skip_ws_cons in Hw.
    case_bool_decide; [simplify_eq; lia|]. case_bool_decide; [|done].
    apply bind_Ok in Hp as ([l r3] & Hl & Hp). apply IHe in Hl.
    pose proof (skip_ws_length r2). simplify_eq. lia.
  - cbn [parse_members] in Hp. destruct s as [|q s1]; [done|]. case_bool_decide; [|done].
    apply bind_Ok in Hp as ([k r1] & Hk & Hp). apply scan_string_shorter in Hk.
    destruct (drop_prefix _ _) as [r2|] eqn:Hd; [|done].
    apply drop_prefix_length in Hd. cbn in Hd. pose proof (skip_ws_length r1).
    apply bind_Ok in Hp as ([v r3] & Hv & Hp). apply IHv in Hv. pose proof (skip_ws_length r2).
    destruct (skip_ws r3) as [|c r4] eqn:Hw; [done|]. apply skip_ws_cons in Hw.
    cbn [length]. case_bool_decide; [simplify_eq; lia|]. case_bool_decide; [|done].
    apply bind_Ok in Hp as ([l r5] & Hl & Hp). apply IHm in Hl.
    pose proof (skip_ws_length r4). simplify_eq. lia.
Qed.

Lemma parse_enough_fuel n :
  (forall s, (2 * length s < n)%nat -> parse_value n s <> Err JFuel) /\
  (forall s, (2 * length s + 1 < n)%nat -> parse_elements n s <> Err JFuel) /\
  (forall s, (2 * length s + 1 < n)%nat -> parse_members n s <> Err JFuel).
Proof.
  induction n as [|n (IHv & IHe & IHm)]; [split_and!; intros; lia|].
  destruct (parse_shorter n) as (Sv & Se & Sm).
  split_and!; intros s Hn Hp.
  - cbn [parse_value] in Hp. destruct s as [|c s1]; [done|]. cbn [length] in Hn.
    pose proof (skip_ws_length s1).
    case_in Hp; try (by apply (parse_scalar_no_fuel (c :: s1)));
      apply bind_Err in Hp as [Hp|([? ?] & _ & Hp)]; try done.
    + by apply scan_string_no_fuel in Hp.
    + apply IHm in Hp; [done|lia].
    + apply bind_Err in Hp as [Hp|(? & _ & Hp)]; [|done]. by apply unique_json_object_no_fuel in Hp.
    + apply IHe in Hp; [done|lia].
  - cbn [parse_elements] in Hp. apply bind_Err in Hp as [Hp|([v r1] & Hv & Hp)].
    { apply IHv in Hp; [done|lia]. }
    apply Sv in Hv. destruct (skip_ws r1) as [|c r2] eqn:Hw; [done|]. apply skip_ws_cons in Hw.
    case_bool_decide; [done|]. case_bool_decide; [|done]. pose proof (skip_ws_length r2).
    apply bind_Err in Hp as [Hp|([? ?] & _ & ?)]; [|done]. apply IHe in Hp; [done|lia].
  - cbn [parse_members] in Hp. destruct s as [|q s1]; [done|]. cbn [length] in Hn.
    case_bool_decide; [|done]. apply bind_Err in Hp as [Hp|([k r1] & Hk & Hp)].
    { by apply scan_string_no_fuel in Hp. }
    apply scan_string_shorter in Hk. destruct (drop_prefix _ _) as [r2|] eqn:Hd; [|done].
    apply drop_prefix_length in Hd. cbn in Hd. pose proof (skip_ws_length r1).
    pose proof (skip_ws_length r2).
    apply bind_Err in Hp as [Hp|([v r3] & Hv & Hp)]. { apply IHv in Hp; [done|lia]. }
    apply Sv in Hv. destruct (skip_ws r3) as [|c r4] eqn:Hw; [done|]. apply skip_ws_cons in Hw.
    case_bool_decide; [done|]. case_bool_decide; [|done]. pose proof (skip_ws_length r4).
    apply bind_Err in Hp as [Hp|([? ?] & _ & ?)]; [|done]. apply IHm in Hp; [done|lia].
Qed.

(** Reading terminates on every text: the parser never runs out of its fuel of
    two calls per character. *)
Theorem loads_terminates t : loads t <> Err JFuel.
Proof.
  unfold loads. intros [Hp|([v r] & _ & Hp)]%bind_Err.
  - apply parse_enough_fuel in Hp; [done|lia].
  - by destruct (skip_ws r).
Qed.
End fuel.

(** ** The text is ASCII *)

Definition is_ascii (c : ascii) : bool := (code c <? 128)%nat.

Lemma is_digit_ascii c : is_digit c = true -> is_ascii c = true.
Proof. unfold is_digit, is_ascii. intros Hc. apply andb_prop in Hc as [_ Hc%Nat.leb_le].
  apply Nat.ltb_lt. lia. Qed.

Lemma span_digits_ascii s ds r : span_digits s = (ds, r) -> forallb is_ascii ds = true.
Proof.
  revert ds r. induction s as [|c s IH]; cbn; intros ds r Hs; [by simplify_eq|].
  destruct (is_digit c) eqn:Hc; [|by simplify_eq].
  destruct (span_digits s) as [ds' r']. simplify_eq. cbn [forallb].
  by rewrite is_digit_ascii, (IH ds' r).
Qed.

Ltac digits_ascii :=
  repeat match goal with
  | Hs : span_digits _ = _ |- _ => apply span_digits_ascii in Hs; cbn [forallb] in Hs
  end.

Lemma number_text_ascii s n : scan_number s = Some n -> forallb is_ascii (number_text n) = true.
Proof.
  unfold scan_number, number_text. destruct (scan_sign s) as [neg s1].
  destruct (scan_int s1) as [[ds s2]|] eqn:E2; [|done]. cbn.
  destruct (scan_frac s2) as [fr s3] eqn:E3. destruct (scan_exp s3) as [ex s4] eqn:E4.
  intros [= <-]. cbn [n_neg n_int n_frac n_exp]. rewrite !forallb_app, !andb_true_iff.
  split_and!.
  - by destruct neg.
  - unfold scan_int in E2. case_in E2; bool_prop; simplify_eq; [done|].
    by digits_ascii.
  - unfold scan_frac in E3. case_in E3; bool_prop; simplify_eq; try done. by digits_ascii.
  - unfold scan_exp in E4. case_in E4; simplify_eq; try done. digits_ascii.
    match goal with Hs : scan_exp_sign ?l = _ |- _ => unfold scan_exp_sign in Hs; case_in Hs end;
      simplify_eq; cbn [app forallb];
      repeat match goal with
      | Hb : _ || _ = true |- _ => apply orb_prop in Hb as [Hb|Hb]
      end; bool_prop; subst; rewrite ?andb_true_iff; split_and!; done.
Qed.

Lemma escape_char_ascii c : forallb is_ascii (escape_char c) = true.
Proof. by destruct c as [[] [] [] [] [] [] [] []]. Qed.

Lemma quote_ascii s : forallb is_ascii (quote s) = true.
Proof.
  unfold quote. cbn [forallb]. rewrite forallb_app. apply andb_true_iff. split; [done|].
  apply andb_true_iff. split; [|done].
  induction (chars s) as [|c t IH]; [done|]. cbn [flat_map].
  by rewrite forallb_app, escape_char_ascii.
Qed.

Lemma join_ascii l : Forall (fun t => forallb is_ascii t = true) l -> forallb is_ascii (join l) = true.
Proof.
  induction 1 as [|t l Ht Hf IH]; [done|]. rewrite join_cons.
  destruct l; [done|]. rewrite forallb_app, Ht. exact IH.
Qed.

Lemma utf8_decode_ascii t : forallb is_ascii t = true -> utf8_decode t = Ok t.
Proof.
  induction t as [|c t IH]; [done|]. cbn [forallb utf8_decode]. intros [Hc Ht]%andb_prop.
  unfold is_ascii in Hc. rewrite Hc, IH by done. done.
Qed.

Section loads_dumps.
  Context `{FloatTextLaws}.

Lemma print_ascii v : encodable v = true -> forallb is_ascii (print v) = true.
Proof.
  induction v as [|b|z|f|s|l IH|d IH] using value_ind_nested; intros He.
  - done.
  - by destruct b.
  - destruct (str_Z_number z) as (x & Hx & _ & _ & Hr & _). cbn [print].
    rewrite (scan_number_concat _ _ Hx), Hr, app_nil_r. by eapply number_text_ascii.
  - pose proof (float_repr_literal f He) as Hl. unfold is_float_literal in Hl. cbn [print].
    destruct (scan_number _) as [x|] eqn:Hx; [|done].
    rewrite (scan_number_concat _ _ Hx).
    assert (n_rest x = []) as -> by (by destruct (n_rest x)).
    rewrite app_nil_r. by eapply number_text_ascii.
  - apply quote_ascii.
  - cbn [print forallb encodable] in *. rewrite forallb_app. apply andb_true_iff. split; [done|].
    apply andb_true_iff. split; [|done]. apply join_ascii, Forall_forall.
    intros t (v & -> & Hv)%list_elem_of_fmap. rewrite Forall_forall in IH. apply IH; [done|].
    rewrite forallb_forall in He. by apply He, list_elem_of_In.
  - rewrite print_dict. cbn [forallb encodable] in *. rewrite forallb_app. apply andb_true_iff.
    split; [done|]. apply andb_true_iff. split; [|done]. apply join_ascii, Forall_forall.
    intros t (kv & -> & Hkv)%list_elem_of_fmap. rewrite sort_items_perm in Hkv.
    unfold print_member. rewrite forallb_app, quote_ascii. cbn [andb forallb].
    change (is_ascii ":"%char) with true. rewrite Forall_forall in IH. apply IH; [done|].
    rewrite forallb_forall in He. by apply (He kv), list_elem_of_In.
Qed.

(** Reading back canonical text gives the value with its keys sorted. *)
Lemma loads_print v :
  encodable v = true -> distinct_keys v = true -> loads (print v) = Ok (canon v).
Proof.
  intros He Hd. unfold loads. pose proof (print_opening v [] He) as Ho.
  rewrite app_nil_r in Ho. rewrite (opening_skip _ Ho).
  pose proof (print_reads_back v He Hd (2 * length (print v) + 1)%nat [] eq_refl ltac:(lia)) as Hp.
  rewrite app_nil_r in Hp. by rewrite Hp.
Qed.

Lemma dumps_Ok v t : dumps v = Ok t <-> encodable v = true /\ t = print v.
Proof. unfold dumps. destruct (encodable v); naive_solver. Qed.

(** The canonical text identifies the value up to the order of keys. *)
Lemma dumps_canon v w t :
  distinct_keys v = true -> distinct_keys w = true ->
  dumps v = Ok t -> dumps w = Ok t -> canon v = canon w.
Proof.
  rewrite !dumps_Ok. intros Hv Hw [Hev ->] [Hew Heq].
  pose proof (loads_print v Hev Hv) as H1. rewrite Heq, loads_print in H1 by done. congruence.
Qed.
End loads_dumps.

(** ** Sorted keys do not matter to Python *)

Lemma dget_elem {A} k (v : A) d : NoDup (dkeys d) -> (k, v) ∈ d -> dget k d = Some v.
Proof.
  unfold dkeys. induction d as [|[k' v'] d IH]; cbn; intros Hnd Hin; [by apply not_elem_of_nil in Hin|].
  inv Hnd as [|? ? Hn Hnd']. apply elem_of_cons in Hin as [[= -> ->]|Hin]; [by rewrite decide_True|].
  rewrite decide_False; [by apply IH|]. intros ->. apply Hn. apply list_elem_of_fmap. by exists (k, v).
Qed.

Lemma dget_perm {A} k (d d' : list (string * A)) :
  NoDup (dkeys d) -> d ≡ₚ d' -> dget k d = dget k d'.
Proof.
  intros Hnd Hp. assert (NoDup (dkeys d')) as Hnd' by (unfold dkeys in *; by rewrite <- Hp).
  destruct (dget k d) as [v|] eqn:E.
  - symmetry. apply dget_elem; [done|]. rewrite <- Hp. by apply dget_Some_elem.
  - destruct (dget k d') as [v|] eqn:E'; [|done].
    apply dget_Some_elem in E'. rewrite <- Hp in E'. apply dget_elem in E'; [congruence|done].
Qed.

Lemma dget_map {A B} (f : A -> B) k d :
  dget k (map (fun kv => (kv.1, f kv.2)) d) = f <$> dget k d.
Proof. induction d as [|[k' v'] d IH]; cbn; [done|]. by destruct (decide (k' = k)). Qed.

Lemma float_compare_refl f : Float.is_finite f = true -> SFcompare f f = Some Eq.
Proof.
  destruct f as [s|s| |s m e]; try done. intros _. cbn. rewrite Z.compare_refl.
  change (Pos.compare_cont Eq m m) with (Pos.compare m m). rewrite Pos.compare_refl. by destruct s.
Qed.

(** A value is equal, in Python, to itself with sorted keys. *)
Lemma py_eqb_canon v : encodable v = true -> distinct_keys v = true -> py_eqb v (canon v) = true.
Proof.
  induction v as [|b|z|f|s|l IH|d IH] using value_ind_nested; intros He Hd; cbn.
  - done.
  - by destruct b.
  - by rewrite Z.compare_refl.
  - by rewrite float_compare_refl.
  - by apply bool_decide_eq_true.
  - cbn in He, Hd. induction IH as [|v l Hv Hl IHl]; [done|]. cbn in *. bool_prop.
    rewrite Hv by done. by apply IHl.
  - cbn in He, Hd. apply andb_prop in Hd as [Hnd%bool_decide_eq_true Hd].
    apply andb_true_iff. split.
    { rewrite sort_items_perm, length_map. apply Nat.eqb_refl. }
    assert (Forall (fun kv => dget kv.1 (sort_items (map (fun kv => (kv.1, canon kv.2)) d))
      = Some (canon kv.2) /\ py_eqb kv.2 (canon kv.2) = true) d) as Hf.
    { rewrite Forall_forall in IH |- *. intros [k v] Hkv. split.
      - rewrite <- (dget_perm _ (map (fun kv => (kv.1, canon kv.2)) d)).
        + rewrite dget_map. by rewrite (dget_elem k v).
        + by rewrite dkeys_map.
        + by rewrite sort_items_perm.
      - rewrite !forallb_forall in *. apply IH; [done|..];
          [by apply (He (k, v)), list_elem_of_In|by apply (Hd (k, v)), list_elem_of_In]. }
    revert Hf. generalize (sort_items (map (fun kv => (kv.1, canon kv.2)) d)). intros y Hf.
    clear -Hf. induction Hf as [|[k v] d [Hk Hv] Hf IH]; [done|]. cbn in Hk, Hv.
    by rewrite Hk, Hv, IH.
Qed.

Lemma canon_keys_distinct v : distinct_keys v = true -> distinct_keys (canon v) = true.
Proof.
  induction v as [|b|z|f|s|l IH|d IH] using value_ind_nested; intros Hd; try done.
  - cbn in *. induction IH as [|v l Hv Hl IHl]; [done|]. cbn in *. bool_prop.
    by rewrite Hv, IHl.
  - cbn in *. apply andb_prop in Hd as [Hnd%bool_decide_eq_true Hd]. apply andb_true_iff. split.
    + apply bool_decide_eq_true. by rewrite dkeys_sort, dkeys_map.
    + rewrite forallb_sort_items. clear Hnd. induction IH as [|[k v] d Hv Hl IHl]; [done|].
      cbn in *. bool_prop. by rewrite Hv, IHl.
Qed.

Lemma sorted_sort_items {A} (d : list (string * A)) :
  StronglySorted key_le d -> sort_items d = d.
Proof.
  induction 1 as [|[k v] d Hs IH Hf]; [done|]. cbn. rewrite IH.
  destruct d as [|[k' v'] d]; [done|]. cbn.
  inv Hf as [|? ? Hk]. change (str_le k k') in Hk. by rewrite Hk.
Qed.

Lemma sort_items_idem {A} (d : list (string * A)) : sort_items (sort_items d) = sort_items d.
Proof. apply sorted_sort_items, sort_items_sorted. Qed.

Lemma canon_idem v : canon (canon v) = canon v.
Proof.
  induction v as [|b|z|f|s|l IH|d IH] using value_ind_nested; try done; cbn.
  - f_equal. rewrite map_map. apply map_ext_in. rewrite Forall_forall in IH.
    intros v Hv%list_elem_of_In. by apply IH.
  - f_equal. rewrite <- sort_items_map, sort_items_idem, map_map. f_equal.
    apply map_ext_in. rewrite Forall_forall in IH. intros [k v] Hv%list_elem_of_In. cbn.
    f_equal. by apply (IH (k, v)).
Qed.

(** ** The evaluation instance of float text satisfies the documented laws *)

Module DecimalFloatLaws.
Import DecimalFloat.

Lemma span_digits_stop ds c u :
  forallb is_digit ds = true -> is_digit c = false -> span_digits (ds ++ c :: u) = (ds, c :: u).
Proof.
  intros Hd Hc. induction ds as [|x ds IH]; cbn in *; [by rewrite Hc|].
  apply andb_prop in Hd as [-> Hd]. by rewrite IH.
Qed.

Lemma scan_exp_str_Z e :
  exists ex, scan_exp ("e"%char :: chars (str_Z e)) = ("e"%char :: ex, []) /\
    match ex with "-"%char :: ds => - digits_Z ds | ds => digits_Z ds end = e.
Proof.
  unfold str_Z. destruct (decide (0 <= e)) as [He|He].
  - assert (pretty e = pretty (Z.to_N e)) as -> by (destruct e; [done|done|lia]).
    destruct (decide (Z.to_N e = 0)%N) as [E|E].
    { rewrite E. exists ["0"%char]. split; [done|]. change (0 = e). lia. }
    unfold pretty, pretty_N. rewrite decide_False by done.
    destruct (pretty_N_digits_pos (Z.to_N e) "" ltac:(lia)) as (c & ds & -> & _ & Hd & Hv).
    change (chars "") with (@nil ascii). rewrite app_nil_r.
    exists (c :: ds). pose proof (andb_prop _ _ Hd) as [Hc _].
    unfold scan_exp. cbn [orb scan_exp_sign].
    rewrite (bool_decide_true (_ = _)), (bool_decide_false (c = "-"%char)), (bool_decide_false (c = "+"%char))
      by (done || by intros ->).
    cbn [orb]. rewrite (span_digits_all _ Hd). split; [done|].
    rewrite Z2N.id in Hv by done. clear -Hc Hv. by destruct c as [[] [] [] [] [] [] [] []].
  - destruct e as [|p|p]; [lia..|].
    change (pretty (Z.neg p)) with ("-" +:+ pretty (N.pos p)). rewrite chars_app.
    unfold pretty, pretty_N. rewrite decide_False by done.
    destruct (pretty_N_digits_pos (N.pos p) "" ltac:(lia)) as (c & ds & -> & _ & Hd & Hv).
    change (chars "") with (@nil ascii). rewrite app_nil_r.
    exists ("-"%char :: c :: ds). unfold scan_exp. cbn [app chars String.list_ascii_of_string scan_exp_sign].
    rewrite (bool_decide_true ("e"%char = "e"%char)), (bool_decide_true ("-"%char = "-"%char)) by done.
    cbn [orb]. rewrite (span_digits_all _ Hd). split; [done|]. by rewrite Hv.
Qed.

Lemma scan_repr s m e :
  exists ds ex, scan_number (chars (repr (S754_finite s m e))) =
      Some (Number s ds ["."%char; "0"%char] ("e"%char :: ex) []) /\
    digits_Z ds = Z.pos m /\
    match ex with "-"%char :: ds => - digits_Z ds | ds => digits_Z ds end = e.
Proof.
  destruct (scan_exp_str_Z e) as (ex & Hex & He).
  destruct (pretty_N_digits_pos (N.pos m) "" ltac:(lia)) as (c & ds & Hp & Hne & Hd & Hv).
  change (chars "") with (@nil ascii) in Hp. rewrite app_nil_r in Hp.
  exists (c :: ds), ex. split; [|done].
  unfold repr, mantissa_text. rewrite !chars_app.
  change (pretty m) with (pretty_N_go (N.pos m) ""). rewrite Hp.
  pose proof (andb_prop _ _ Hd) as [Hc _].
  set (tail := chars "e" ++ chars (str_Z e)).
  assert (scan_number (chars (if s then "-" else "") ++ (c :: ds) ++ chars ".0" ++ tail) =
    Some (Number s (c :: ds) ["."%char; "0"%char] ("e"%char :: ex) [])) as <-;
    [|by rewrite <- !app_assoc].
  unfold scan_number.
  assert (scan_sign (chars (if s then "-" else "") ++ (c :: ds) ++ chars ".0" ++ tail) =
    (s, (c :: ds) ++ chars ".0" ++ tail)) as ->.
  { destruct s; [done|]. cbn [chars String.list_ascii_of_string app scan_sign].
    rewrite bool_decide_false; [done|]. by intros ->. }
  assert (scan_int ((c :: ds) ++ chars ".0" ++ tail) = Some (c :: ds, chars ".0" ++ tail)) as ->.
  { unfold scan_int. cbn [app]. rewrite bool_decide_false, Hc by done.
    change (chars ".0" ++ tail) with ("."%char :: "0"%char :: tail). rewrite app_comm_cons.
    by rewrite span_digits_stop. }
  cbn [mbind option_bind].
  change (scan_frac (chars ".0" ++ tail)) with (["."%char; "0"%char], tail).
  cbv iota beta. change tail with ("e"%char :: chars (str_Z e)). by rewrite Hex.
Qed.

#[export] Instance laws : FloatTextLaws.
Proof.
  split; intros [s|s| |s m e] Hf; try done; try (by destruct s);
    destruct (scan_repr s m e) as (ds & ex & Hs & Hm & He).
  - unfold is_float_literal. cbn [float_repr ops]. by rewrite Hs.
  - cbn [float_repr parse_float ops]. unfold parse. rewrite Hs. cbn [n_int n_neg n_exp].
    rewrite Hm. f_equal. rewrite <- He. by destruct ex as [|[[] [] [] [] [] [] [] []]].
Qed.
End DecimalFloatLaws.

(** ** What is read has distinct keys *)

Lemma unique_json_object_inv pairs d :
  unique_json_object pairs = Ok d -> d = pairs /\ NoDup (dkeys d).
Proof.
  assert (forall acc, NoDup (dkeys acc) -> fold_res add_unique_pair acc pairs = Ok d ->
    d = acc ++ pairs /\ NoDup (dkeys d)) as H; [|intros Hu; by apply (H [] (NoDup_nil_2)) in Hu].
  induction pairs as [|kv pairs IH]; cbn [fold_res]; intros acc Hnd Hf.
  { injection Hf as <-. by rewrite app_nil_r. }
  apply bind_Ok in Hf as (acc' & Ha & Hf). unfold add_unique_pair in Ha.
  case_bool_decide as Hin; [done|]. injection Ha as <-.
  apply IH in Hf; [by rewrite <- app_assoc in Hf|].
  unfold dkeys in *. rewrite fmap_app. apply NoDup_app. split; [done|]. split.
  - intros k Hk ->%list_elem_of_singleton. done.
  - apply NoDup_singleton.
Qed.

Section distinct.
  Context `{FloatText}.

Lemma parse_scalar_distinct s v r : parse_scalar s = Ok (v, r) -> distinct_keys v = true.
Proof.
  unfold parse_scalar, number_value. intros Hp. case_in Hp; res_inv; simplify_eq; try done.
Qed.

Lemma parse_distinct n :
  (forall s v r, parse_value n s = Ok (v, r) -> distinct_keys v = true) /\
  (forall s l r, parse_elements n s = Ok (l, r) -> forallb distinct_keys l = true) /\
  (forall s d r, parse_members n s = Ok (d, r) ->
     forallb (fun kv => distinct_keys kv.2) d = true).
Proof.
  induction n as [|n (IHv & IHe & IHm)]; [done|].
  split_and!; intros s x r Hp.
  - cbn [parse_value] in Hp. destruct s as [|c s1]; [done|].
    case_in Hp; res_inv; repeat (case_match; simplify_eq); res_inv; simplify_eq; try done.
    + match goal with Hu : unique_json_object _ = Ok _ |- _ =>
        apply unique_json_object_inv in Hu as [-> Hnd] end.
      cbn. apply andb_true_iff. split; [by apply bool_decide_eq_true|]. by eapply IHm.
    + by eapply IHe.
    + by eapply parse_scalar_distinct.
  - cbn [parse_elements] in Hp. apply bind_Ok in Hp as ([v r1] & Hv & Hp). apply IHv in Hv.
    destruct (skip_ws r1); [done|]. case_bool_decide; [simplify_eq; cbn; by rewrite Hv|].
    case_bool_decide; [|done]. apply bind_Ok in Hp as ([l1 r3] & Hl & Hp). apply IHe in Hl.
    simplify_eq. cbn. by rewrite Hv.
  - cbn [parse_members] in Hp. destruct s as [|q s1]; [done|]. case_bool_decide; [|done].
    apply bind_Ok in Hp as ([k r1] & Hk & Hp). destruct (drop_prefix _ _); [|done].
    apply bind_Ok in Hp as ([v r3] & Hv & Hp). apply IHv in Hv.
    destruct (skip_ws r3); [done|]. case_bool_decide; [simplify_eq; cbn; by rewrite Hv|].
    case_bool_decide; [|done]. apply bind_Ok in Hp as ([l1 r5] & Hl & Hp). apply IHm in Hl.
    simplify_eq. cbn. by rewrite Hv.
Qed.

Lemma loads_distinct t v : loads t = Ok v -> distinct_keys v = true.
Proof.
  unfold loads. intros ([w r] & Hp & Hr)%bind_Ok. destruct (skip_ws r); [|done].
  injection Hr as <-. by eapply parse_distinct.
Qed.
End distinct.
