(* ===== verification/Envelopes.v ===== *)
(** The typed control contracts of control/contracts.py: component observations,
    protocol envelopes and their canonical JSON encoding.

    A message body is dynamically typed until it is validated: [RawEnvelope] has
    the fields of the dataclass as JSON values, [Envelope] is what
    [_validate_envelope] guarantees. Exceptions carry the text of the code; where
    the code interpolates the text of the interpreter's own [TypeError] the model
    has the constructor [ContractTypeError] instead. *)

From S2P Require Import Prelude PyValue Json.

Definition SCHEMA_VERSION : Z := 1.
Definition MAX_MESSAGE_BYTES : Z := Z.shiftl 1 20.

(** [ContractError] and the other exceptions that leave these functions. *)
Inductive exc : Type :=
| ContractError (reason : string)
| ContractTypeError (cls : string)
| OverflowError
| ValueError
| TypeError
| Unrepresentable.

#[global] Instance exc_eq_dec : EqDecision exc.
Proof. solve_decision. Defined.

(** [except ContractError] *)
Definition is_contract_error (e : exc) : bool :=
  match e with ContractError _ | ContractTypeError _ => true | _ => false end.

Definition COMPONENT_STATES : list string :=
  ["NEW"; "STARTING"; "RUNNING"; "READY"; "STOPPING"; "STOPPED"; "FAILED"; "UNKNOWN"].

Inductive OwnerScope : Set := GLOBAL | RANK.

Definition scope_value (s : OwnerScope) : string :=
  match s with GLOBAL => "GLOBAL" | RANK => "RANK" end.

Definition scope_of (s : string) : option OwnerScope :=
  if decide (s = "GLOBAL") then Some GLOBAL
  else if decide (s = "RANK") then Some RANK else None.

Inductive EnvelopeKind : Set :=
| REGISTER | OBSERVATION | COMMAND | COMMAND_RESULT | SNAPSHOT | RECEIPT | HEARTBEAT | GOODBYE.

#[global] Instance EnvelopeKind_eq_dec : EqDecision EnvelopeKind.
Proof. solve_decision. Defined.

Definition kind_value (k : EnvelopeKind) : string :=
  match k with
  | REGISTER => "REGISTER" | OBSERVATION => "OBSERVATION" | COMMAND => "COMMAND"
  | COMMAND_RESULT => "COMMAND_RESULT" | SNAPSHOT => "SNAPSHOT" | RECEIPT => "RECEIPT"
  | HEARTBEAT => "HEARTBEAT" | GOODBYE => "GOODBYE"
  end.

Definition ENVELOPE_KINDS : list EnvelopeKind :=
  [REGISTER; OBSERVATION; COMMAND; COMMAND_RESULT; SNAPSHOT; RECEIPT; HEARTBEAT; GOODBYE].

Definition kind_of (s : string) : option EnvelopeKind :=
  List.find (fun k => bool_decide (kind_value k = s)) ENVELOPE_KINDS.

(** The values of [RejectReason] that reach messages and audit records. *)
Module RejectReason.
Definition BAD_MAC : string := "BAD_MAC".
Definition OVERSIZED : string := "OVERSIZED".
Definition UNKNOWN_SCHEMA : string := "UNKNOWN_SCHEMA".
Definition UNKNOWN_KIND : string := "UNKNOWN_KIND".
Definition WRONG_DEPLOYMENT : string := "WRONG_DEPLOYMENT".
Definition WRONG_PLAN_HASH : string := "WRONG_PLAN_HASH".
Definition STALE_GENERATION : string := "STALE_GENERATION".
Definition STALE_INSTANCE : string := "STALE_INSTANCE".
Definition SEQUENCE_REGRESSION : string := "SEQUENCE_REGRESSION".
Definition RANK_MISMATCH : string := "RANK_MISMATCH".
Definition NODE_MISMATCH : string := "NODE_MISMATCH".
Definition DUPLICATE_RANK : string := "DUPLICATE_RANK".
Definition NOT_REGISTERED : string := "NOT_REGISTERED".
Definition MALFORMED : string := "MALFORMED".
End RejectReason.

Definition malformed (what : string) : exc := ContractError ("MALFORMED: " +:+ what).

(** A dataclass constructor called with the items of [d] as keyword arguments:
    every key is a field, every field without a default is a key. *)
Definition init_fields (cls : string) (required optional : list string) (d : dict)
    : result exc unit :=
  if forallb (fun k => bool_decide (k ∈ required ++ optional)) (dkeys d) &&
     forallb (fun k => bool_decide (k ∈ dkeys d)) required
  then Ok tt else Err (ContractTypeError cls).

(** The attribute of an object built from [d]; a missing optional one is [None]. *)
Definition attr (k : string) (d : dict) : value := dget_default k VNone d.

(** [isinstance(x, str) and x] *)
Definition nonempty_str (v : value) : option string :=
  match v with VStr s => if nonempty s then Some s else None | _ => None end.

Definition need_str (d : dict) (name : string) : result exc string :=
  match nonempty_str (attr name d) with
  | Some s => Ok s
  | None => Err (malformed name)
  end.

(** An integer, not a boolean, of at least [minimum]. *)
Definition need_int (minimum : Z) (d : dict) (name : string) : result exc Z :=
  match attr name d with
  | VInt z => if z <? minimum then Err (malformed name) else Ok z
  | _ => Err (malformed name)
  end.

Definition optional_str (d : dict) (name : string) : result exc (option string) :=
  match attr name d with
  | VNone => Ok None
  | VStr s => Ok (Some s)
  | _ => Err (malformed name)
  end.

(** ** Observations *)

Module ComponentObservation.
Record t := mk {
  deployment_id : string;
  plan_hash : string;
  generation : Z;
  component_id : string;
  instance_id : string;
  sequence : Z;
  owner_scope : OwnerScope;
  role : string;
  node_id : string;
  state : string;
  observed_at : value;
  owner_rank : option Z;
  model_id : option string;
  replica_id : option string;
  reason_code : option string;
  detail : option string;
  compatibility_receipt_hash : option string
}.

Definition dedup_key (o : t) : string * Z * string * string * Z :=
  (deployment_id o, generation o, component_id o, instance_id o, sequence o).

Definition opt_value {A} (f : A -> value) (o : option A) : value :=
  match o with Some x => f x | None => VNone end.

(** [asdict] of an observation of the current schema version. *)
Definition to_dict (o : t) : dict :=
  [("schema_version", VInt SCHEMA_VERSION);
   ("deployment_id", VStr (deployment_id o)); ("plan_hash", VStr (plan_hash o));
   ("generation", VInt (generation o)); ("component_id", VStr (component_id o));
   ("instance_id", VStr (instance_id o)); ("sequence", VInt (sequence o));
   ("owner_scope", VStr (scope_value (owner_scope o))); ("role", VStr (role o));
   ("node_id", VStr (node_id o)); ("state", VStr (state o)); ("observed_at", observed_at o);
   ("owner_rank", opt_value VInt (owner_rank o)); ("model_id", opt_value VStr (model_id o));
   ("replica_id", opt_value VStr (replica_id o)); ("reason_code", opt_value VStr (reason_code o));
   ("detail", opt_value VStr (detail o));
   ("compatibility_receipt_hash", opt_value VStr (compatibility_receipt_hash o))].
End ComponentObservation.

Definition observation_required : list string :=
  ["schema_version"; "deployment_id"; "plan_hash"; "generation"; "component_id"; "instance_id";
   "sequence"; "owner_scope"; "role"; "node_id"; "state"; "observed_at"].
Definition observation_optional : list string :=
  ["owner_rank"; "model_id"; "replica_id"; "reason_code"; "detail"; "compatibility_receipt_hash"].

(** The owner rank that goes with an owner scope. *)
Definition need_owner_rank (scope : OwnerScope) (d : dict) : result exc (option Z) :=
  match scope, attr "owner_rank" d with
  | GLOBAL, VNone => Ok None
  | GLOBAL, _ => Err (malformed "GLOBAL owner_rank must be null")
  | RANK, VInt z =>
      if z <? 0 then Err (malformed "RANK needs owner_rank >= 0") else Ok (Some z)
  | RANK, _ => Err (malformed "RANK needs owner_rank >= 0")
  end.

(** [not math.isfinite(float(x)) or x < 0]: the conversion of a huge integer raises
    [OverflowError], which is not a [ContractError]. *)
Definition need_observed_at (d : dict) : result exc value :=
  let v := attr "observed_at" d in
  if is_number v then
    f ← to_float OverflowError v;
    if negb (Float.is_finite f) || num_ltb v (VInt 0) then Err (malformed "observed_at")
    else Ok v
  else Err (malformed "observed_at").

Definition need_receipt_hash (d : dict) : result exc (option string) :=
  match attr "compatibility_receipt_hash" d with
  | VNone => Ok None
  | VStr s => if is_sha256 s then Ok (Some s) else Err (malformed "compatibility_receipt_hash")
  | _ => Err (malformed "compatibility_receipt_hash")
  end.

Definition need_scope (d : dict) : result exc OwnerScope :=
  match attr "owner_scope" d with
  | VStr s =>
      match scope_of s with Some x => Ok x | None => Err (malformed "owner_scope") end
  | _ => Err (malformed "owner_scope")
  end.

Definition need_state (d : dict) : result exc string :=
  match attr "state" d with
  | VStr s => if bool_decide (s ∈ COMPONENT_STATES) then Ok s else Err (malformed "state")
  | _ => Err (malformed "state")
  end.

Definition validate_observation (data : value) : result exc ComponentObservation.t :=
  match data with
  | VDict d =>
      _ ← match dget "schema_version" d with
          | Some (VInt z) => raise_if (negb (z =? SCHEMA_VERSION)) (ContractError RejectReason.UNKNOWN_SCHEMA)
          | _ => Err (ContractError RejectReason.UNKNOWN_SCHEMA)
          end;
      _ ← init_fields "ComponentObservation" observation_required observation_optional d;
      scope ← need_scope d;
      state ← need_state d;
      owner_rank ← need_owner_rank scope d;
      deployment_id ← need_str d "deployment_id";
      plan_hash ← need_str d "plan_hash";
      component_id ← need_str d "component_id";
      instance_id ← need_str d "instance_id";
      role ← need_str d "role";
      node_id ← need_str d "node_id";
      sequence ← need_int 0 d "sequence";
      generation ← need_int 0 d "generation";
      observed_at ← need_observed_at d;
      model_id ← optional_str d "model_id";
      replica_id ← optional_str d "replica_id";
      reason_code ← optional_str d "reason_code";
      detail ← optional_str d "detail";
      receipt_hash ← need_receipt_hash d;
      Ok (ComponentObservation.mk deployment_id plan_hash generation component_id instance_id
            sequence scope role node_id state observed_at owner_rank model_id replica_id
            reason_code detail receipt_hash)
  | _ => Err (ContractError RejectReason.MALFORMED)
  end.

(** ** Envelopes *)

(** [_validate_json_value]: the JSON family has no other values than these, so only
    a non-finite float is refused. *)
Fixpoint validate_json_value (path : string) (v : value) {struct v} : result exc unit :=
  match v with
  | VFloat f =>
      raise_if (negb (Float.is_finite f)) (malformed (path +:+ " is non-finite"))
  | VList l =>
      (fix go (index : Z) (l : list value) : result exc unit :=
         match l with
         | [] => Ok tt
         | x :: l' =>
             _ ← validate_json_value (path +:+ "[" +:+ str_Z index +:+ "]") x;
             go (index + 1) l'
         end) 0 l
  | VDict d =>
      (fix go (d : list (string * value)) : result exc unit :=
         match d with
         | [] => Ok tt
         | (k, x) :: d' => _ ← validate_json_value (path +:+ "." +:+ k) x; go d'
         end) d
  | _ => Ok tt
  end.

Module RawEnvelope.
Record t := mk {
  v : value; kind : value; deployment_id : value; plan_hash : value; generation : value;
  sender_rank : value; sender_node : value; seq : value; payload : value
}.

Definition to_dict (e : t) : dict :=
  [("v", v e); ("kind", kind e); ("deployment_id", deployment_id e); ("plan_hash", plan_hash e);
   ("generation", generation e); ("sender_rank", sender_rank e); ("sender_node", sender_node e);
   ("seq", seq e); ("payload", payload e)].
End RawEnvelope.

Module Envelope.
Record t := mk {
  kind : EnvelopeKind; deployment_id : string; plan_hash : string; generation : Z;
  sender_rank : Z; sender_node : string; seq : Z; payload : dict
}.

(** The dataclass instance with the current schema version. *)
Definition raw (e : t) : RawEnvelope.t :=
  RawEnvelope.mk (VInt SCHEMA_VERSION) (VStr (kind_value (kind e))) (VStr (deployment_id e))
    (VStr (plan_hash e)) (VInt (generation e)) (VInt (sender_rank e)) (VStr (sender_node e))
    (VInt (seq e)) (VDict (payload e)).
End Envelope.

Definition validate_envelope (e : RawEnvelope.t) : result exc Envelope.t :=
  let d := RawEnvelope.to_dict e in
  _ ← match RawEnvelope.v e with
      | VInt z => raise_if (negb (z =? SCHEMA_VERSION)) (ContractError RejectReason.UNKNOWN_SCHEMA)
      | _ => Err (ContractError RejectReason.UNKNOWN_SCHEMA)
      end;
  kind ← match RawEnvelope.kind e with
         | VStr s => match kind_of s with
                     | Some k => Ok k
                     | None => Err (ContractError RejectReason.UNKNOWN_KIND)
                     end
         | _ => Err (ContractError RejectReason.UNKNOWN_KIND)
         end;
  deployment_id ← need_str d "deployment_id";
  plan_hash ← need_str d "plan_hash";
  sender_node ← need_str d "sender_node";
  generation ← need_int 0 d "generation";
  sender_rank ← need_int (-1) d "sender_rank";
  seq ← need_int 0 d "seq";
  match RawEnvelope.payload e with
  | VDict p =>
      _ ← validate_json_value "payload" (VDict p);
      Ok (Envelope.mk kind deployment_id plan_hash generation sender_rank sender_node seq p)
  | _ => Err (malformed "payload")
  end.

Definition envelope_required : list string :=
  ["v"; "kind"; "deployment_id"; "plan_hash"; "generation"; "sender_rank"; "sender_node"; "seq"].

(** The constructor on the decoded object; a missing payload is the empty
    dictionary. *)
Definition envelope_init (d : dict) : result exc RawEnvelope.t :=
  _ ← init_fields "Envelope" envelope_required ["payload"] d;
  Ok (RawEnvelope.mk (attr "v" d) (attr "kind" d) (attr "deployment_id" d) (attr "plan_hash" d)
        (attr "generation" d) (attr "sender_rank" d) (attr "sender_node" d) (attr "seq" d)
        (dget_default "payload" (VDict []) d)).

Section encoding.
  Context `{FloatText}.

Definition encode_envelope (e : RawEnvelope.t) : result exc text :=
  _ ← validate_envelope e;
  match dumps (VDict (RawEnvelope.to_dict e)) with
  | Err _ => Err ValueError
  | Ok body =>
      if MAX_MESSAGE_BYTES <? Z.of_nat (length body) then Err (ContractError RejectReason.OVERSIZED)
      else Ok body
  end.

Definition decode_envelope (body : text) : result exc Envelope.t :=
  if MAX_MESSAGE_BYTES <? Z.of_nat (length body) then Err (ContractError RejectReason.OVERSIZED)
  else
    match (t ← utf8_decode body; loads t) with
    | Err JUnrepresentable => Err Unrepresentable
    | Err _ => Err (ContractError RejectReason.MALFORMED)
    | Ok (VDict d) => e ← envelope_init d; validate_envelope e
    | Ok _ => Err (ContractError RejectReason.MALFORMED)
    end.
End encoding.
