(* ===== verification/EnvelopesProps.v ===== *)
(** Properties of the control contracts: an encoded envelope decodes to the same
    envelope, whatever decodes is well typed, and an accepted observation is in
    normal form. *)

From S2P Require Import Prelude PyValue Json JsonProps Envelopes.

(** ** Validation of payloads *)

Fixpoint finite_floats (v : value) : bool :=
  match v with
  | VFloat f => Float.is_finite f
  | VList l => forallb finite_floats l
  | VDict d => forallb (fun kv => finite_floats kv.2) d
  | _ => true
  end.

Lemma validate_json_value_Ok v path :
  validate_json_value path v = Ok tt <-> finite_floats v = true.
Proof.
  revert path. induction v as [|b|z|f|s|l IH|d IH] using value_ind_nested; intros path; cbn;
    try (by split).
  - rewrite raise_if_Ok. by rewrite negb_false_iff.
  - generalize 0. induction IH as [|v l Hv Hl IHl]; intros i; cbn; [done|].
    rewrite bind_Ok, andb_true_iff, <- (IHl (i + 1)).
    split; [intros ([] & ? & ?); split; [by eapply Hv|done]|].
    intros [? ?]. exists tt. split; [by apply Hv|done].
  - induction IH as [|[k v] d Hv Hd IHd]; cbn; [done|].
    rewrite bind_Ok, andb_true_iff, <- IHd.
    split; [intros ([] & ? & ?); split; [by eapply Hv|done]|].
    intros [? ?]. exists tt. split; [by apply Hv|done].
Qed.

Definition canon_dict (d : dict) : dict := sort_items (map (fun kv => (kv.1, canon kv.2)) d).

Lemma forallb_map {A B} (f : B -> bool) (g : A -> B) l : forallb f (map g l) = forallb (f ∘ g) l.
Proof. induction l as [|x l IH]; cbn; congruence. Qed.

Lemma forallb_ext_in {A} (f g : A -> bool) l :
  Forall (fun x => f x = g x) l -> forallb f l = forallb g l.
Proof. induction 1 as [|x l Hx Hl IH]; cbn; congruence. Qed.

Lemma finite_floats_canon v : finite_floats (canon v) = finite_floats v.
Proof.
  induction v as [|b|z|f|s|l IH|d IH] using value_ind_nested; try done; cbn.
  - rewrite forallb_map. by apply forallb_ext_in.
  - rewrite forallb_sort_items, forallb_map. by apply forallb_ext_in.
Qed.

(** ** Well-typed envelopes *)

Definition wf_envelope (e : Envelope.t) : bool :=
  nonempty (Envelope.deployment_id e) && nonempty (Envelope.plan_hash e) &&
  nonempty (Envelope.sender_node e) && (0 <=? Envelope.generation e) &&
  (-1 <=? Envelope.sender_rank e) && (0 <=? Envelope.seq e) &&
  finite_floats (VDict (Envelope.payload e)).

Lemma kind_of_value k : kind_of (kind_value k) = Some k.
Proof. by destruct k. Qed.

Lemma kind_of_Some s k : kind_of s = Some k -> s = kind_value k.
Proof. unfold kind_of. intros [_ Hk]%List.find_some. by apply bool_decide_eq_true in Hk. Qed.

Lemma need_str_Ok d name s :
  need_str d name = Ok s <-> attr name d = VStr s /\ nonempty s = true.
Proof.
  unfold need_str, nonempty_str. destruct (attr name d); try naive_solver.
  destruct (nonempty s0) eqn:E; naive_solver congruence.
Qed.

Lemma need_int_Ok m d name z :
  need_int m d name = Ok z <-> attr name d = VInt z /\ m <= z.
Proof.
  unfold need_int. destruct (attr name d); try naive_solver.
  destruct (z0 <? m) eqn:E; bool_prop; naive_solver lia.
Qed.

(** Validation gives the typed view of exactly the envelope it was given. *)
Lemma validate_envelope_Ok r e :
  validate_envelope r = Ok e <-> r = Envelope.raw e /\ wf_envelope e = true.
Proof.
  unfold validate_envelope, wf_envelope. split.
  - intros Hv. destruct r as [v k di ph g sr sn sq p]. cbn [RawEnvelope.v RawEnvelope.kind RawEnvelope.payload] in Hv.
    destruct v as [| |z| | | |]; try done. apply bind_Ok in Hv as (? & Hz & Hv).
    destruct k as [| | | |ks| |]; try done. apply bind_Ok in Hv as (k & Hk & Hv).
    res_inv.
    repeat match goal with
    | Hn : need_str _ _ = Ok _ |- _ => apply need_str_Ok in Hn as [Hn ?]; vm_compute in Hn
    | Hn : need_int _ _ _ = Ok _ |- _ => apply need_int_Ok in Hn as [Hn ?]; vm_compute in Hn
    end.
    destruct p as [| | | | | |p]; try done. res_inv.
    match goal with Hj : validate_json_value _ _ = Ok ?u |- _ => destruct u;
      apply validate_json_value_Ok in Hj; rename Hj into Hfin end.
    destruct (kind_of ks) as [k'|] eqn:Ek; [|done]. injection Hk as ->.
    apply kind_of_Some in Ek. bool_prop. subst. split; [done|].
    rewrite !andb_true_iff, !Z.leb_le. split_and!; done.
  - intros [-> Hw]. rewrite !andb_true_iff, !Z.leb_le in Hw. destruct Hw as ((((((H1&H2)&H3)&H4)&H5)&H6)&H7).
    cbn [Envelope.raw RawEnvelope.v RawEnvelope.kind RawEnvelope.payload].
    rewrite kind_of_value. destruct e as [k di ph g sr sn sq p]; cbn [Envelope.deployment_id
      Envelope.plan_hash Envelope.sender_node Envelope.generation Envelope.sender_rank
      Envelope.seq Envelope.payload Envelope.kind] in *.
    assert (forall d name s, attr name d = VStr s -> nonempty s = true -> need_str d name = Ok s)
      as Hs by (intros; by apply need_str_Ok).
    assert (forall m d name z, attr name d = VInt z -> m <= z -> need_int m d name = Ok z)
      as Hi by (intros; by apply need_int_Ok).
    cbn [mbind result_bind raise_if negb Z.eqb SCHEMA_VERSION Pos.eqb].
    rewrite (Hs _ "deployment_id" di), (Hs _ "plan_hash" ph), (Hs _ "sender_node" sn),
      (Hi 0 _ "generation" g), (Hi (-1) _ "sender_rank" sr), (Hi 0 _ "seq" sq) by done.
    cbn [mbind result_bind]. by rewrite (proj2 (validate_json_value_Ok _ _) H7).
Qed.

Lemma envelope_raw_inj e e' : Envelope.raw e = Envelope.raw e' -> e = e'.
Proof.
  destruct e as [k ? ? ? ? ? ? ?], e' as [k' ? ? ? ? ? ? ?]. intros Hr.
  injection Hr as Hk -> -> -> -> -> -> ->.
  assert (Some k = Some k') as [= ->] by (by rewrite <- !kind_of_value, Hk). done.
Qed.

(** ** Sorted dictionaries are read the same way *)

Lemma dget_canon_dict k d :
  NoDup (dkeys d) -> dget k (canon_dict d) = canon <$> dget k d.
Proof.
  intros Hnd. unfold canon_dict. rewrite <- dget_map.
  apply dget_perm; [by rewrite dkeys_sort, dkeys_map|]. by rewrite sort_items_perm.
Qed.

Lemma dkeys_canon_dict d : dkeys (canon_dict d) ≡ₚ dkeys d.
Proof. unfold canon_dict. by rewrite dkeys_sort, dkeys_map. Qed.

Lemma init_fields_canon cls req opt d :
  init_fields cls req opt (canon_dict d) = init_fields cls req opt d.
Proof.
  unfold init_fields.
  assert (forallb (fun k => bool_decide (k ∈ req ++ opt)) (dkeys (canon_dict d)) =
          forallb (fun k => bool_decide (k ∈ req ++ opt)) (dkeys d)) as ->.
  { apply eq_iff_eq_true. rewrite !forallb_forall. setoid_rewrite <- list_elem_of_In.
    by setoid_rewrite dkeys_canon_dict. }
  assert (forallb (fun k => bool_decide (k ∈ dkeys (canon_dict d))) req =
          forallb (fun k => bool_decide (k ∈ dkeys d)) req) as ->; [|done].
  apply forallb_ext_in, Forall_forall. intros k _. apply bool_decide_ext. by rewrite dkeys_canon_dict.
Qed.

(** The same envelope with the payload's keys in sorted order. *)
Definition canon_envelope (e : Envelope.t) : Envelope.t :=
  Envelope.mk (Envelope.kind e) (Envelope.deployment_id e) (Envelope.plan_hash e)
    (Envelope.generation e) (Envelope.sender_rank e) (Envelope.sender_node e) (Envelope.seq e)
    (canon_dict (Envelope.payload e)).

Lemma wf_canon_envelope e : wf_envelope (canon_envelope e) = wf_envelope e.
Proof. unfold wf_envelope. cbn -[finite_floats Z.leb]. f_equal. apply (finite_floats_canon (VDict _)). Qed.

Lemma envelope_init_canon e :
  envelope_init (canon_dict (RawEnvelope.to_dict (Envelope.raw e))) =
  Ok (Envelope.raw (canon_envelope e)).
Proof.
  unfold envelope_init. rewrite init_fields_canon.
  assert (NoDup (dkeys (RawEnvelope.to_dict (Envelope.raw e)))) as Hnd.
  { apply (bool_decide_eq_true_1 (NoDup _)). reflexivity. }
  unfold attr, dget_default. rewrite !dget_canon_dict by done. reflexivity.
Qed.

Lemma distinct_keys_envelope e :
  distinct_keys (VDict (RawEnvelope.to_dict (Envelope.raw e))) =
  distinct_keys (VDict (Envelope.payload e)).
Proof.
  transitivity (true && (distinct_keys (VDict (Envelope.payload e)) && true));
    [reflexivity|]. by rewrite andb_true_r.
Qed.

Section coding.
  Context `{FloatTextLaws}.

Lemma encode_envelope_Ok r body :
  encode_envelope r = Ok body <->
  exists e, r = Envelope.raw e /\ wf_envelope e = true /\
    encodable (VDict (RawEnvelope.to_dict r)) = true /\
    body = print (VDict (RawEnvelope.to_dict r)) /\ Z.of_nat (length body) <= MAX_MESSAGE_BYTES.
Proof.
  unfold encode_envelope. rewrite bind_Ok. setoid_rewrite validate_envelope_Ok.
  unfold dumps. split.
  - intros (e & [-> Hw] & Hb). exists e. destruct (encodable _); [|done].
    destruct (MAX_MESSAGE_BYTES <? _) eqn:Hl; bool_prop; [done|]. injection Hb as <-. done.
  - intros (e & -> & Hw & -> & -> & Hl). exists e. split; [done|].
    by rewrite (proj2 (Z.ltb_ge _ _) Hl).
Qed.

Lemma decode_encoded e body :
  distinct_keys (VDict (Envelope.payload e)) = true -> encode_envelope (Envelope.raw e) = Ok body ->
  decode_envelope body = Ok (canon_envelope e).
Proof.
  intros Hd (e' & <-%envelope_raw_inj & Hw & He & -> & Hl)%encode_envelope_Ok.
  unfold decode_envelope. rewrite (proj2 (Z.ltb_ge _ _) Hl).
  rewrite utf8_decode_ascii by (by apply print_ascii). cbn [mbind result_bind].
  rewrite loads_print; [|done|by rewrite distinct_keys_envelope].
  change (canon (VDict ?d)) with (VDict (canon_dict d)). cbv iota.
  rewrite envelope_init_canon. cbn [mbind result_bind]. apply validate_envelope_Ok.
  by rewrite wf_canon_envelope.
Qed.

(** C30: An envelope that was encoded decodes to itself: same kind, identity, sender
    and sequence, and the same payload up to the order of its keys, which Python's
    equality ignores. *)
Theorem envelope_roundtrip (e : Envelope.t) (body : text) :
  distinct_keys (VDict (Envelope.payload e)) = true ->
  encode_envelope (Envelope.raw e) = Ok body ->
  decode_envelope body = Ok (canon_envelope e) /\
  py_eqb (VDict (Envelope.payload e)) (VDict (Envelope.payload (canon_envelope e))) = true.
Proof.
  intros Hd He. split; [by apply decode_encoded|]. apply py_eqb_canon; [|done].
  apply encode_envelope_Ok in He as (e' & <-%envelope_raw_inj & _ & He & _).
  cbn [encodable forallb RawEnvelope.to_dict Envelope.raw snd RawEnvelope.payload] in He. by bool_prop.
Qed.

(** C34: Whatever decodes is well typed: a known kind, non-empty identities, integers in
    range, finite numbers and no key twice at any depth of the payload. *)
Theorem decoded_envelope_well_typed (body : text) (e : Envelope.t) :
  decode_envelope body = Ok e ->
  wf_envelope e = true /\ distinct_keys (VDict (Envelope.payload e)) = true /\
  Z.of_nat (length body) <= MAX_MESSAGE_BYTES.
Proof.
  unfold decode_envelope. destruct (_ <? _) eqn:Hl; [done|]. bool_prop.
  destruct (_ ≫= _) as [v|[]] eqn:E; try done. destruct v as [| | | | | |d]; try done.
  intros (r & Hr & [-> Hw]%validate_envelope_Ok)%bind_Ok. split; [done|]. split; [|done].
  apply bind_Ok in E as (t & _ & E). apply loads_distinct in E.
  cbn in E. apply andb_prop in E as [_ E].
  unfold envelope_init in Hr. apply bind_Ok in Hr as (_ & _ & Hr). injection Hr as _ _ _ _ _ _ _ _ Hr.
  unfold dget_default in Hr. destruct (dget "payload" d) as [p|] eqn:Ep; cbn in Hr.
  - apply dget_Some_elem in Ep. rewrite forallb_forall in E.
    apply list_elem_of_In, E in Ep. by rewrite <- Hr.
  - injection Hr as <-. done.
Qed.
End coding.

(** ** Observations *)

Definition owner_rank_fits (o : ComponentObservation.t) : bool :=
  match ComponentObservation.owner_scope o, ComponentObservation.owner_rank o with
  | GLOBAL, None => true
  | RANK, Some z => 0 <=? z
  | _, _ => false
  end.

Definition time_fits (v : value) : bool :=
  match v with
  | VInt z => Float.is_finite (Float.of_Z z) && (0 <=? z)
  | VFloat f => Float.is_finite f && negb (num_ltb v (VInt 0))
  | _ => false
  end.

Definition wf_observation (o : ComponentObservation.t) : bool :=
  owner_rank_fits o && bool_decide (ComponentObservation.state o ∈ COMPONENT_STATES) &&
  nonempty (ComponentObservation.deployment_id o) && nonempty (ComponentObservation.plan_hash o) &&
  nonempty (ComponentObservation.component_id o) && nonempty (ComponentObservation.instance_id o) &&
  nonempty (ComponentObservation.role o) && nonempty (ComponentObservation.node_id o) &&
  (0 <=? ComponentObservation.sequence o) && (0 <=? ComponentObservation.generation o) &&
  time_fits (ComponentObservation.observed_at o) &&
  match ComponentObservation.compatibility_receipt_hash o with
  | Some h => is_sha256 h
  | None => true
  end.

Lemma need_observed_at_Ok d v :
  need_observed_at d = Ok v <-> attr "observed_at" d = v /\ time_fits v = true.
Proof.
  unfold need_observed_at, time_fits. destruct (attr "observed_at" d) as [| |z|f| | |] eqn:E;
    cbn [is_number]; try naive_solver.
  - cbn [to_float].
    assert (num_ltb (VInt z) (VInt 0) = (z <? 0)) as ->.
    { unfold num_ltb. cbn. unfold Z.ltb. by destruct (z ?= 0). }
    assert ((z <? 0) = negb (0 <=? z)) as -> by (rewrite Z.leb_antisym; by rewrite negb_involutive).
    destruct (Float.of_Z z) eqn:Ef; cbn [mbind result_bind Float.is_finite negb orb]; 
      destruct (0 <=? z) eqn:Ez; cbn [negb];
      (split; [intros Hok; simplify_eq; by rewrite Ef, Ez|intros [<- Hb]; by rewrite Ef, ?Ez in Hb]).
  - cbn [to_float mbind result_bind].
    destruct (Float.is_finite f) eqn:Ef, (num_ltb (VFloat f) (VInt 0)) eqn:El; cbn [negb orb];
      (split; [intros Hok; simplify_eq; by rewrite Ef, El|intros [<- Hb]; by rewrite Ef, ?El in Hb]).
Qed.

Lemma need_owner_rank_Ok s d x :
  need_owner_rank s d = Ok x <->
  attr "owner_rank" d = ComponentObservation.opt_value VInt x /\
  match s, x with GLOBAL, None => true | RANK, Some z => 0 <=? z | _, _ => false end = true.
Proof.
  unfold need_owner_rank, ComponentObservation.opt_value.
  destruct s, (attr "owner_rank" d) as [| |z| | | |], x as [y|]; try naive_solver.
  - destruct (z <? 0) eqn:E; bool_prop; rewrite ?Z.leb_le; naive_solver lia.
  - destruct (z <? 0) eqn:E; naive_solver.
Qed.

Lemma optional_str_Ok d name x :
  optional_str d name = Ok x <-> attr name d = ComponentObservation.opt_value VStr x.
Proof. unfold optional_str. destruct (attr name d), x; naive_solver. Qed.

Lemma need_receipt_hash_Ok d x :
  need_receipt_hash d = Ok x <->
  attr "compatibility_receipt_hash" d = ComponentObservation.opt_value VStr x /\
  match x with Some h => is_sha256 h | None => true end = true.
Proof.
  unfold need_receipt_hash. destruct (attr _ d) as [| | | |s| |], x as [h|]; cbn; try naive_solver.
  - destruct (is_sha256 s) eqn:E; naive_solver congruence.
  - destruct (is_sha256 s) eqn:E; naive_solver.
Qed.

Lemma need_scope_Ok d x : need_scope d = Ok x <-> attr "owner_scope" d = VStr (scope_value x).
Proof.
  unfold need_scope. destruct (attr _ d) as [| | | |s| |]; try naive_solver.
  unfold scope_of. repeat case_decide; subst; destruct x; naive_solver.
Qed.

Lemma need_state_Ok d s :
  need_state d = Ok s <-> attr "state" d = VStr s /\ bool_decide (s ∈ COMPONENT_STATES) = true.
Proof.
  unfold need_state. destruct (attr _ d) as [| | | |s'| |]; try naive_solver.
  destruct (bool_decide (s' ∈ COMPONENT_STATES)) eqn:E; naive_solver congruence.
Qed.

Lemma init_fields_observation o :
  init_fields "ComponentObservation" observation_required observation_optional
    (ComponentObservation.to_dict o) = Ok tt.
Proof. reflexivity. Qed.

(** An accepted observation has every field in range; validating it again, from its
    own dictionary, accepts exactly it. *)
Lemma validate_observation_wf data o :
  validate_observation data = Ok o -> wf_observation o = true.
Proof.
  unfold validate_observation. destruct data as [| | | | | |d]; try done.
  intros (? & _ & Hv)%bind_Ok. res_inv.
  repeat match goal with
  | Hn : need_str _ _ = Ok _ |- _ => apply need_str_Ok in Hn as [_ ?]
  | Hn : need_int _ _ _ = Ok _ |- _ => apply need_int_Ok in Hn as [_ ?]
  | Hn : need_observed_at _ = Ok _ |- _ => apply need_observed_at_Ok in Hn as [_ ?]
  | Hn : need_owner_rank _ _ = Ok _ |- _ => apply need_owner_rank_Ok in Hn as [_ ?]
  | Hn : need_receipt_hash _ = Ok _ |- _ => apply need_receipt_hash_Ok in Hn as [_ ?]
  | Hn : need_state _ = Ok _ |- _ => apply need_state_Ok in Hn as [_ ?]
  end.
  unfold wf_observation. rewrite !andb_true_iff, !Z.leb_le. split_and!; done.
Qed.

Lemma validate_observation_dict o :
  wf_observation o = true ->
  validate_observation (VDict (ComponentObservation.to_dict o)) = Ok o.
Proof.
  unfold wf_observation. rewrite !andb_true_iff, !Z.leb_le.
  intros (((((((((((Hr&Hst)&Hd)&Hp)&Hc)&Hi)&Hro)&Hn)&Hs)&Hg)&Ht)&Hh).
  unfold validate_observation.
  change (dget "schema_version" (ComponentObservation.to_dict o)) with (Some (VInt SCHEMA_VERSION)).
  cbn [raise_if Z.eqb SCHEMA_VERSION Pos.eqb negb]. rewrite init_fields_observation.
  set (d := ComponentObservation.to_dict o). cbn [mbind result_bind].
  rewrite (proj2 (need_scope_Ok d (ComponentObservation.owner_scope o))) by reflexivity.
  rewrite (proj2 (need_state_Ok d (ComponentObservation.state o))) by done. cbn [mbind result_bind].
  rewrite (proj2 (need_owner_rank_Ok (ComponentObservation.owner_scope o) d
                    (ComponentObservation.owner_rank o))) by done.
  assert (forall name s, attr name d = VStr s -> nonempty s = true -> need_str d name = Ok s)
    as Hstr by (intros; by apply need_str_Ok).
  assert (forall name z, attr name d = VInt z -> 0 <= z -> need_int 0 d name = Ok z)
    as Hint by (intros; by apply need_int_Ok).
  rewrite (Hstr "deployment_id" _ eq_refl Hd), (Hstr "plan_hash" _ eq_refl Hp),
    (Hstr "component_id" _ eq_refl Hc), (Hstr "instance_id" _ eq_refl Hi),
    (Hstr "role" _ eq_refl Hro), (Hstr "node_id" _ eq_refl Hn),
    (Hint "sequence" _ eq_refl Hs), (Hint "generation" _ eq_refl Hg).
  rewrite (proj2 (need_observed_at_Ok d (ComponentObservation.observed_at o))) by done.
  rewrite (proj2 (optional_str_Ok d "model_id" (ComponentObservation.model_id o))) by reflexivity.
  rewrite (proj2 (optional_str_Ok d "replica_id" (ComponentObservation.replica_id o))) by reflexivity.
  rewrite (proj2 (optional_str_Ok d "reason_code" (ComponentObservation.reason_code o))) by reflexivity.
  rewrite (proj2 (optional_str_Ok d "detail" (ComponentObservation.detail o))) by reflexivity.
  rewrite (proj2 (need_receipt_hash_Ok d (ComponentObservation.compatibility_receipt_hash o))) by done.
  by destruct o.
Qed.

(** An observation is accepted only in normal form: its fields are in range, and its
    own dictionary is accepted again as the same observation. *)
Theorem observation_normal_form (data : value) (o : ComponentObservation.t) :
  validate_observation data = Ok o ->
  wf_observation o = true /\
  validate_observation (VDict (ComponentObservation.to_dict o)) = Ok o.
Proof.
  intros Hv%validate_observation_wf. auto using validate_observation_dict.
Qed.

Definition with_observed_at (v : value) (o : ComponentObservation.t) : ComponentObservation.t :=
  match o with
  | ComponentObservation.mk a b c d e f g h i j _ k l m n p q =>
      ComponentObservation.mk a b c d e f g h i j v k l m n p q
  end.

(** The validator's promise to raise [ContractError] fails for a timestamp that is an
    integer beyond the double range: [float()] raises [OverflowError] first. *)
Theorem observation_overflow_escapes (o : ComponentObservation.t) (z : Z) :
  wf_observation o = true -> is_ok (to_float OverflowError (VInt z)) = false ->
  validate_observation (VDict (ComponentObservation.to_dict (with_observed_at (VInt z) o)))
    = Err OverflowError.
Proof.
  intros Hw Hz. apply validate_observation_dict in Hw.
  unfold validate_observation in *.
  destruct o as [a b c d e f g h i j t k l m n p q]. cbn [with_observed_at].
  rewrite init_fields_observation in Hw. rewrite init_fields_observation.
  set (d1 := ComponentObservation.to_dict _) in Hw. set (d2 := ComponentObservation.to_dict _).
  change (dget "schema_version" d1) with (Some (VInt SCHEMA_VERSION)) in Hw.
  change (dget "schema_version" d2) with (Some (VInt SCHEMA_VERSION)).
  cbn [raise_if Z.eqb SCHEMA_VERSION Pos.eqb negb] in *.
  cbn [mbind result_bind] in *.
  change (need_scope d1) with (need_scope d2) in Hw. change (need_state d1) with (need_state d2) in Hw.
  destruct (need_scope d2) as [sc|?]; [|done]. destruct (need_state d2) as [st|?]; [|done].
  cbn [mbind result_bind] in *.
  change (need_owner_rank sc d1) with (need_owner_rank sc d2) in Hw.
  destruct (need_owner_rank sc d2) as [ow|?]; [|done]. cbn [mbind result_bind] in *.
  do 6 (match type of Hw with (need_str d1 ?x ≫= _) = _ =>
      change (need_str d1 x) with (need_str d2 x) in Hw;
      destruct (need_str d2 x); [|done] end; cbn [mbind result_bind] in * ).
  do 2 (match type of Hw with (need_int 0 d1 ?x ≫= _) = _ =>
      change (need_int 0 d1 x) with (need_int 0 d2 x) in Hw;
      destruct (need_int 0 d2 x); [|done] end; cbn [mbind result_bind] in * ).
  unfold need_observed_at. change (attr "observed_at" d2) with (VInt z). cbn [is_number].
  unfold to_float in *. by destruct (Float.of_Z z).
Qed.

(** A concrete observation, used by witnesses. *)
Definition example_observation : ComponentObservation.t :=
  ComponentObservation.mk "dep" "hash" 0 "ray" "ray-1" 3 RANK "worker" "node1" "READY"
    (VInt 12) (Some 1) None None None None None.

Definition example_envelope : Envelope.t :=
  Envelope.mk OBSERVATION "dep" "hash" 0 1 "node1" 4
    [("payload_version", VInt 1);
     ("observation", VDict (ComponentObservation.to_dict example_observation))].

Lemma envelope_roundtrip_witness :
  decode_envelope (H := DecimalFloat.ops)
    (print (H := DecimalFloat.ops) (VDict (RawEnvelope.to_dict (Envelope.raw example_envelope))))
  = Ok (canon_envelope example_envelope) /\
  py_eqb (VDict (Envelope.payload example_envelope))
    (VDict (Envelope.payload (canon_envelope example_envelope))) = true.
Proof.
  apply (envelope_roundtrip (H := DecimalFloat.ops) (H0 := DecimalFloatLaws.laws)).
  - reflexivity.
  - vm_compute. reflexivity.
Defined.

Lemma decoded_envelope_well_typed_witness :
  wf_envelope (canon_envelope example_envelope) = true /\
  distinct_keys (VDict (Envelope.payload (canon_envelope example_envelope))) = true /\
  Z.of_nat (length (print (H := DecimalFloat.ops)
    (VDict (RawEnvelope.to_dict (Envelope.raw example_envelope))))) <= MAX_MESSAGE_BYTES.
Proof.
  apply (decoded_envelope_well_typed (H := DecimalFloat.ops)). vm_compute. reflexivity.
Defined.

Lemma observation_normal_form_witness :
  wf_observation example_observation = true /\
  validate_observation (VDict (ComponentObservation.to_dict example_observation))
    = Ok example_observation.
Proof.
  apply (observation_normal_form
    (VDict (rev (ComponentObservation.to_dict example_observation)))).
  vm_compute. reflexivity.
Defined.

Lemma observation_overflow_escapes_witness :
  validate_observation
    (VDict (ComponentObservation.to_dict (with_observed_at (VInt (2 ^ 1024)) example_observation)))
    = Err OverflowError.
Proof. apply observation_overflow_escapes; vm_compute; reflexivity. Defined.
