(* ===== verification/Contracts.v ===== *)
(** The compiled plan contracts (src/exaserve/plan/contracts.py).

    One Module per dataclass: [t] is the dataclass, [post_init] its
    [__post_init__]. Fields carry the declared type of the dataclass, so the
    [isinstance] tests of [__post_init__] are discharged by typing and the
    remaining guards are kept in the order of the source. Digests are compared,
    never computed: [canonical_hash] is a parameter of the operations that
    finalize an artifact. *)

From S2P Require Import Prelude.
From S2P Require Import PyValue.

Definition SCHEMA_VERSION : Z := 3.

(** [raise PlanError(message)]; the interpolated parts of a message are left out. *)
Inductive plan_error : Type :=
| PlanError (message : string)
| FloatOverflow. (* the OverflowError of [float] on an oversized integer *)

Abbreviation plan_result := (result plan_error).

Definition plan_raise_if (b : bool) (message : string) : plan_result unit :=
  raise_if b (PlanError message).

Definition require_schema_version (v : Z) : plan_result unit :=
  plan_raise_if (negb (v =? SCHEMA_VERSION)) "must be supported schema version".

Definition require_sha256 (v : string) (allow_empty : bool) : plan_result unit :=
  if allow_empty && bool_decide (v = EmptyString) then Ok tt
  else plan_raise_if (negb (is_sha256 v)) "must be a lowercase SHA-256 digest".

(** [os.path.isabs] *)
Definition isabs (p : string) : bool := startswith "/" p.

(** [".." in PurePath(p).parts] *)
Definition has_parent_part (p : string) : bool :=
  existsb (fun part => bool_decide (part = "..")) (split_char "/"%char p).

Definition require_absolute_path (v : string) : plan_result unit :=
  _ ← plan_raise_if (negb (nonempty v) || negb (isabs v)) "must be an absolute path";
  plan_raise_if (has_parent_part v) "must not contain parent traversal ('..')".

Definition is_alnum (c : Ascii.ascii) : bool :=
  let n := Ascii.nat_of_ascii c in
  ((48 <=? n) && (n <=? 57) || (65 <=? n) && (n <=? 90) || (97 <=? n) && (n <=? 122))%nat.

Definition is_segment_char (c : Ascii.ascii) : bool :=
  is_alnum c || Ascii.eqb c "."%char || Ascii.eqb c "_"%char || Ascii.eqb c "-"%char.

(** [_MODEL_ID_SEGMENT_RE.fullmatch] *)
Definition is_model_id_segment (s : string) : bool :=
  match s with
  | EmptyString => false
  | String c s' => is_alnum c && forallb is_segment_char (String.list_ascii_of_string s')
  end.

Definition require_model_id (v : string) : plan_result unit :=
  _ ← plan_raise_if (negb (nonempty v) || (512 <? Z.of_nat (String.length v)))
        "must be non-empty text of at most 512 characters";
  _ ← plan_raise_if
        (contains (String (Ascii.ascii_of_nat 0) EmptyString) v
         || contains (String (Ascii.ascii_of_nat 92) EmptyString) v
         || startswith "~" v || isabs v || contains "://" v)
        "must be an opaque model ID, not a filesystem path or URL";
  plan_raise_if
    (existsb (fun segment =>
       bool_decide (segment ∈ [EmptyString; "."; ".."]) || negb (is_model_id_segment segment))
       (split_char "/"%char v))
    "must contain only safe slash-separated model-ID segments".

(** ** Node identity *)

Definition canonical_node_id (node_id : string) : string :=
  before_char "."%char (lower (strip node_id)).

Definition same_node (left right : string) : bool :=
  let canonical := canonical_node_id left in
  nonempty canonical && bool_decide (canonical = canonical_node_id right).

(** ** Gateway and exposure *)

Definition GATEWAY_KINDS : list string := ["haproxy"; "litellm"; "nginx"; "envoy"; "pingora"].
Definition HAPROXY : string := "haproxy".

Definition PROXIED_INTERNAL : string := "PROXIED_INTERNAL".
Definition DIRECT_VALIDATION : string := "DIRECT_VALIDATION".
Definition RAY_SERVE_HEAD_ONLY : string := "RAY_SERVE_HEAD_ONLY".
Definition EXPOSURE_MODES : list string :=
  [PROXIED_INTERNAL; DIRECT_VALIDATION; RAY_SERVE_HEAD_ONLY].

Definition port_ok (p : Z) : bool := (1 <=? p) && (p <=? 65535).

Definition is_executable_char (c : Ascii.ascii) : bool :=
  is_alnum c || Ascii.eqb c "_"%char || Ascii.eqb c "."%char || Ascii.eqb c "+"%char || Ascii.eqb c "-"%char.

(** [re.fullmatch(r"[A-Za-z0-9_.+-]+", name)] *)
Definition is_executable_name (s : string) : bool :=
  nonempty s && forallb is_executable_char (String.list_ascii_of_string s).

(** [s.removeprefix(p)] when [p] is a prefix of [s]. *)
Definition removeprefix (p s : string) : string :=
  if startswith p s
  then String.substring (String.length p) (String.length s - String.length p) s
  else s.

Module GatewayPlan.
Record t := mk {
  kind : string;
  port : Z;
  backend_port : Z;
  executable_ref : string;
  worker_count : Z;
}.

#[global] Instance eq_dec : EqDecision t.
Proof. solve_decision. Defined.

(** [options] is free-form configuration that no modelled operation reads. *)
Definition post_init (g : t) : plan_result unit :=
  _ ← plan_raise_if (negb (bool_decide (kind g ∈ GATEWAY_KINDS)))
        "gateway.kind is not a managed gateway";
  _ ← plan_raise_if (negb (port_ok (port g))) "gateway.port out of range";
  _ ← plan_raise_if (negb (port_ok (backend_port g))) "gateway.backend_port out of range";
  _ ← plan_raise_if (worker_count g <? 1) "gateway.worker_count must be a positive integer";
  _ ← plan_raise_if (negb (nonempty (executable_ref g)))
        "gateway.executable_ref must be a non-empty reference";
  if startswith "PATH:" (executable_ref g) then
    plan_raise_if (negb (is_executable_name (removeprefix "PATH:" (executable_ref g))))
      "gateway.executable_ref PATH reference must name one safe executable"
  else
    plan_raise_if (negb (isabs (executable_ref g)))
      "gateway.executable_ref must be an absolute path or a PATH:<name> reference".
End GatewayPlan.

Module ExposurePlan.
Record t := mk {
  mode : string;
  advertised_scheme : string;
  advertised_path : string;
  network_boundary : string;
  auth_policy_ref : option string;
  request_body_limit_bytes : option Z;
  serve_port : Z;
}.

Definition post_init (x : t) : plan_result unit :=
  _ ← for_each (fun s => plan_raise_if (negb (nonempty s)) "exposure field must be non-empty")
        [mode x; advertised_scheme x; advertised_path x; network_boundary x];
  _ ← plan_raise_if (bool_decide (is_Some (auth_policy_ref x)))
        "exposure.auth_policy_ref is unsupported in the first release";
  _ ← plan_raise_if (negb (bool_decide (mode x ∈ EXPOSURE_MODES))) "exposure.mode is not valid";
  _ ← plan_raise_if (negb (bool_decide (advertised_scheme x = "http")))
        "exposure.advertised_scheme must be http in the first release";
  _ ← plan_raise_if (negb (bool_decide (advertised_path x = "/v1")))
        "exposure.advertised_path must be /v1 in the first release";
  _ ← plan_raise_if (negb (bool_decide (network_boundary x = "trusted_allocation")))
        "exposure.network_boundary must be trusted_allocation in the first release";
  _ ← plan_raise_if (negb (port_ok (serve_port x))) "exposure.serve_port out of range";
  match request_body_limit_bytes x with
  | None => Ok tt
  | Some n =>
      plan_raise_if ((n <? 1) || (Z.shiftl 1 40 <? n))
        "exposure.request_body_limit_bytes must be null or in 1..1099511627776"
  end.
End ExposurePlan.

(** ** Control-plane and readiness limits *)

(** [not math.isfinite(v) or v <= 0] *)
Definition not_positive (v : float) : bool :=
  negb (Float.is_finite v) || Float.leb v Float.zero.

Definition three : float := Float.of_Z 3.

Module ControlLimits.
Record t := mk {
  registration_deadline_s : float;
  reconnect_grace_s : float;
  heartbeat_interval_s : float;
  lease_timeout_s : float;
  snapshot_assembly_deadline_s : float;
  watchdog_cleanup_deadline_s : float;
  max_frame_bytes : Z;
  max_snapshot_chunks : Z;
  max_snapshot_bytes : Z;
  max_snapshot_items : Z;
  evidence_backed : bool;
}.

Definition post_init (c : t) : plan_result unit :=
  _ ← for_each (fun v => plan_raise_if (not_positive v) "control deadline must be positive")
        [registration_deadline_s c; reconnect_grace_s c; heartbeat_interval_s c;
         lease_timeout_s c; snapshot_assembly_deadline_s c; watchdog_cleanup_deadline_s c];
  _ ← for_each (fun v => plan_raise_if (v <=? 0) "control bound must be a positive int")
        [max_frame_bytes c; max_snapshot_chunks c; max_snapshot_bytes c; max_snapshot_items c];
  plan_raise_if (Float.ltb (lease_timeout_s c) (Float.mul three (heartbeat_interval_s c)))
    "control.lease_timeout_s must be >= 3 * heartbeat_interval_s".

(** The injectable defaults of the dataclass. *)
Definition default_limits : t :=
  mk (Float.of_Z 300) (Float.of_Z 60) (Float.of_Z 5) (Float.of_Z 30) (Float.of_Z 60)
     (Float.of_Z 300) (Z.shiftl 1 20) 256 (Z.shiftl 64 20) 65536 false.

Example default_limits_valid : post_init default_limits = Ok tt.
Proof. vm_compute. reflexivity. Qed.
End ControlLimits.

Module ReadinessLimits.
Record t := mk {
  initial_deadline_s : float;
  recovery_deadline_s : float;
  validation_interval_s : float;
  observation_freshness_s : float;
  gateway_start_deadline_s : float;
  canary_timeout_s : float;
  serve_start_proxy_timeout_s : float;
  serve_proxy_health_check_timeout_s : float;
  serve_proxy_ready_check_timeout_s : float;
  serve_replica_health_check_period_s : float;
  serve_replica_health_check_timeout_s : float;
  allow_excess_resources : bool;
  evidence_backed : bool;
}.

Definition post_init (r : t) : plan_result unit :=
  _ ← for_each (fun v => plan_raise_if (not_positive v) "readiness value must be positive and finite")
        [initial_deadline_s r; recovery_deadline_s r; validation_interval_s r;
         observation_freshness_s r; gateway_start_deadline_s r; canary_timeout_s r;
         serve_start_proxy_timeout_s r; serve_proxy_health_check_timeout_s r;
         serve_proxy_ready_check_timeout_s r; serve_replica_health_check_period_s r;
         serve_replica_health_check_timeout_s r];
  _ ← plan_raise_if
        (Float.ltb (observation_freshness_s r) (Float.mul three (validation_interval_s r)))
        "readiness.observation_freshness_s must be at least three validation intervals";
  plan_raise_if
    (Float.ltb (serve_proxy_health_check_timeout_s r) (initial_deadline_s r))
    "readiness.serve_proxy_health_check_timeout_s must be at least readiness.initial_deadline_s".

Definition default_limits : t :=
  mk (Float.of_Z 3600) (Float.of_Z 60) (Float.of_Z 5) (Float.of_Z 30) (Float.of_Z 30)
     (Float.of_Z 60) (Float.of_Z 3600) (Float.of_Z 3600) (Float.of_Z 60) (Float.of_Z 30)
     (Float.of_Z 120) true false.

Example default_limits_valid_readiness : post_init default_limits = Ok tt.
Proof. vm_compute. reflexivity. Qed.
End ReadinessLimits.

(** ** Scale envelope *)

Module ScaleEnvelope.
Record t := mk {
  schema_version : Z;
  envelope_id : string;
  site_id : string;
  scheduler_type : string;
  vendor : string;
  accelerator : string;
  engine : string;
  compatibility_profile_ref : string;
  gateway_kind : option string;
  exposure_mode : string;
  request_mode : string;
  streaming_mode : string;
  min_nodes : Z;
  supported_max_nodes : Z;
  qualification_target_nodes : Z;
  qualification_target_approved : bool;
  max_replicas_per_model : Z;
  max_total_replicas : Z;
  max_models : Z;
  validation_tier : string;
  validation_mode : bool;
  evidence_refs : list string;
}.

Definition post_init (e : t) : plan_result unit :=
  _ ← require_schema_version (schema_version e);
  _ ← plan_raise_if (existsb (fun s => negb (nonempty s)) (evidence_refs e))
        "scale_envelope.evidence_refs must contain non-empty strings";
  _ ← for_each (fun s => plan_raise_if (negb (nonempty s)) "scale_envelope field must be non-empty")
        [envelope_id e; site_id e; scheduler_type e; vendor e; accelerator e; engine e;
         compatibility_profile_ref e; exposure_mode e; request_mode e; streaming_mode e;
         validation_tier e];
  _ ← plan_raise_if (negb (bool_decide (exposure_mode e ∈ EXPOSURE_MODES)))
        "scale_envelope.exposure_mode is invalid";
  _ ← match gateway_kind e with
      | Some k =>
          plan_raise_if (negb (bool_decide (k ∈ GATEWAY_KINDS)))
            "scale_envelope.gateway_kind is invalid"
      | None => Ok tt
      end;
  _ ← match gateway_kind e with
      | None =>
          _ ← plan_raise_if
                (negb (bool_decide (exposure_mode e ∈ [DIRECT_VALIDATION; RAY_SERVE_HEAD_ONLY])))
                "scale_envelope without a gateway requires DIRECT_VALIDATION or RAY_SERVE_HEAD_ONLY";
          plan_raise_if (negb (validation_mode e))
            "gateway-free scale envelope requires validation_mode"
      | Some k =>
          if negb (bool_decide (exposure_mode e = PROXIED_INTERNAL)) then
            Err (PlanError "managed gateway scale envelope requires PROXIED_INTERNAL exposure")
          else
            plan_raise_if (negb (validation_mode e) && negb (bool_decide (k = HAPROXY)))
              "production scale envelope requires the HAProxy gateway"
      end;
  _ ← for_each (fun v => plan_raise_if (v <? 1) "scale_envelope bound must be a positive integer")
        [min_nodes e; supported_max_nodes e; qualification_target_nodes e;
         max_replicas_per_model e; max_total_replicas e; max_models e];
  _ ← plan_raise_if (supported_max_nodes e <? min_nodes e)
        "scale_envelope.supported_max_nodes is below min_nodes";
  _ ← plan_raise_if (qualification_target_nodes e <? supported_max_nodes e)
        "scale_envelope.qualification_target_nodes is below supported_max_nodes";
  plan_raise_if (max_total_replicas e <? max_replicas_per_model e)
    "scale_envelope.max_total_replicas is below max_replicas_per_model".

Definition check_nodes (e : t) (nodes : Z) : plan_result unit :=
  _ ← plan_raise_if (nodes <? min_nodes e) "is below envelope minimum";
  _ ← plan_raise_if (qualification_target_nodes e <? nodes)
        "exceeds candidate qualification target";
  plan_raise_if ((supported_max_nodes e <? nodes) && negb (validation_mode e))
    "exceeds evidence-backed supported maximum".
End ScaleEnvelope.

(** ** Receipt slots *)

Module ReceiptRequirement.
Record t := mk {
  receipt_requirement_id : string;
  role : string;
  component_slot : string;
  owner_scope : string;
  planned_rank : option Z;
  placement : string;
  attestation_type : string;
}.

#[global] Instance eq_dec : EqDecision t.
Proof. solve_decision. Defined.

Definition post_init (r : t) : plan_result unit :=
  _ ← for_each (fun s => plan_raise_if (negb (nonempty s)) "receipt field must be non-empty")
        [receipt_requirement_id r; role r; component_slot r; owner_scope r; attestation_type r];
  _ ← plan_raise_if (negb (bool_decide (owner_scope r ∈ ["GLOBAL"; "RANK"])))
        "receipt owner_scope invalid";
  _ ← plan_raise_if
        (bool_decide (owner_scope r = "RANK") && bool_decide (planned_rank r = None))
        "RANK requirement needs planned_rank";
  _ ← plan_raise_if
        (bool_decide (owner_scope r = "GLOBAL") && negb (bool_decide (planned_rank r = None)))
        "GLOBAL requirement must not pin a rank";
  _ ← match planned_rank r with
      | Some n => plan_raise_if (n <? 0) "planned_rank must be non-negative"
      | None => Ok tt
      end;
  _ ← plan_raise_if (negb (bool_decide (attestation_type r ∈ ["SELF"; "SUPERVISOR"])))
        "invalid attestation_type";
  plan_raise_if
    (bool_decide (attestation_type r = "SUPERVISOR") && negb (bool_decide (owner_scope r = "GLOBAL")))
    "SUPERVISOR attestation must be GLOBAL".
End ReceiptRequirement.

(** ** Replicas and models *)

Module ReplicaPlan.
Record t := mk {
  replica_id : string;
  replica_index : Z;
  planned_ranks : list Z;
  planned_device_ids : list (list Z);
  tensor_parallel_size : Z;
  pipeline_parallel_size : Z;
  gpu_demand : Z;
  cpu_demand : Z;
}.

#[global] Instance eq_dec : EqDecision t.
Proof. solve_decision. Defined.

Definition len {A} (l : list A) : Z := Z.of_nat (length l).

Definition post_init (r : t) : plan_result unit :=
  _ ← plan_raise_if (negb (nonempty (replica_id r))) "replica.replica_id must be non-empty";
  _ ← plan_raise_if (replica_index r <? 0) "replica.replica_index must be non-negative";
  _ ← for_each (fun v => plan_raise_if (v <? 1) "replica size must be an integer >= 1")
        [tensor_parallel_size r; pipeline_parallel_size r; gpu_demand r];
  _ ← plan_raise_if (cpu_demand r <? 0) "replica.cpu_demand must be an integer >= 0";
  _ ← plan_raise_if (existsb (fun rank => rank <? 0) (planned_ranks r))
        "replica.planned_ranks must be non-negative integers";
  _ ← plan_raise_if (existsb (existsb (fun device => device <? 0)) (planned_device_ids r))
        "replica.planned_device_ids must contain non-negative integers";
  _ ← plan_raise_if (bool_decide (planned_ranks r = []) || negb (no_dups (planned_ranks r)))
        "replica.planned_ranks must be non-empty and unique";
  _ ← plan_raise_if (negb (len (planned_ranks r) =? pipeline_parallel_size r))
        "planned rank count must equal pipeline_parallel_size";
  _ ← plan_raise_if (negb (len (planned_device_ids r) =? len (planned_ranks r)))
        "device groups must align with planned ranks";
  _ ← plan_raise_if
        (existsb (fun group => negb (len group =? tensor_parallel_size r) || negb (no_dups group))
           (planned_device_ids r))
        "every stage needs exactly tensor_parallel_size unique device ids";
  plan_raise_if (negb (gpu_demand r =? tensor_parallel_size r * pipeline_parallel_size r))
    "gpu_demand does not equal TP*PP".
End ReplicaPlan.

Module ModelPlan.
Record t := mk {
  model_id : string;
  storage_name : string;
  route_name : string;
  tensor_parallel_size : Z;
  pipeline_parallel_size : Z;
  max_model_len : Z;
  size_b : Z;
  gpu_memory_utilization : float;
  enforce_eager : bool;
  enable_log_requests : bool;
  max_num_seqs : option Z;
  num_cpus_per_replica : Z;
  num_replicas : Z;
  replicas : list ReplicaPlan.t;
}.

#[global] Instance eq_dec : EqDecision t.
Proof. solve_decision. Defined.

Definition post_init (m : t) : plan_result unit :=
  _ ← require_model_id (model_id m);
  _ ← plan_raise_if
        (existsb (fun s => negb (nonempty s)) [model_id m; storage_name m; route_name m])
        "model identity fields must be non-empty";
  _ ← plan_raise_if (negb (bool_decide (storage_name m = replace_char "/"%char "--" (model_id m))))
        "model.storage_name must be derived from model.model_id";
  _ ← for_each (fun v => plan_raise_if (v <? 1) "model size must be a positive integer")
        [tensor_parallel_size m; pipeline_parallel_size m; max_model_len m; size_b m;
         num_cpus_per_replica m; num_replicas m];
  _ ← match max_num_seqs m with
      | Some n => plan_raise_if (n <? 1) "model.max_num_seqs must be null or a positive integer"
      | None => Ok tt
      end;
  _ ← plan_raise_if
        (negb (Float.is_finite (gpu_memory_utilization m))
         || negb (Float.ltb Float.zero (gpu_memory_utilization m)
                  && Float.leb (gpu_memory_utilization m) (Float.of_Z 1)))
        "model.gpu_memory_utilization must be finite in (0, 1]";
  plan_raise_if (negb (ReplicaPlan.len (replicas m) =? num_replicas m))
    "num_replicas does not match logical slots".
End ModelPlan.

Module RuntimePolicy.
Record t := mk {
  null_compute : bool;
  null_compute_latency_s : float;
  instrumentation : bool;
  pp_shard_aware : bool;
  clean_stage : bool;
  stats_retention : Z;
  stats_push_period_s : float;
  stats_sample_cap : Z;
}.

Definition post_init (r : t) : plan_result unit :=
  _ ← plan_raise_if
        (negb (Float.is_finite (null_compute_latency_s r))
         || Float.ltb (null_compute_latency_s r) Float.zero)
        "runtime.null_compute_latency_s must be finite and non-negative";
  _ ← for_each (fun v => plan_raise_if (negb ((1 <=? v) && (v <=? 10000)))
                           "runtime bound must be an integer in [1, 10000]")
        [stats_retention r; stats_sample_cap r];
  plan_raise_if (not_positive (stats_push_period_s r))
    "runtime.stats_push_period_s must be finite and positive".
End RuntimePolicy.

(** ** The exact evidence slots of a deployment *)

Definition rank_requirements (rank : Z) : list ReceiptRequirement.t :=
  let role := if rank =? 0 then "ray_head" else "ray_worker" in
  [ReceiptRequirement.mk ("rank" +:+ str_Z rank +:+ "/" +:+ role) role "ray" "RANK"
     (Some rank) ("rank:" +:+ str_Z rank) "SELF";
   ReceiptRequirement.mk ("rank" +:+ str_Z rank +:+ "/node_supervisor") "node_supervisor"
     "node_supervisor" "RANK" (Some rank) ("rank:" +:+ str_Z rank) "SELF"].

Definition worker_slot (stage device : Z) : string :=
  "/engine/worker/stage" +:+ str_Z stage +:+ "/device" +:+ str_Z device.

(** One [engine_worker] slot per device of every stage. *)
Definition worker_requirements (base : string) (replica : ReplicaPlan.t)
    : list ReceiptRequirement.t :=
  concat (imap (fun stage worker_rank =>
    (fun device_id =>
       ReceiptRequirement.mk
         (base +:+ worker_slot (Z.of_nat stage) device_id) "engine_worker"
         (ReplicaPlan.replica_id replica +:+ worker_slot (Z.of_nat stage) device_id)
         "RANK" (Some worker_rank)
         ("rank:" +:+ str_Z worker_rank +:+ "/device:" +:+ str_Z device_id) "SELF")
    <$> default [] (ReplicaPlan.planned_device_ids replica !! stage))
    (ReplicaPlan.planned_ranks replica)).

Definition replica_base (model : ModelPlan.t) (replica : ReplicaPlan.t) : string :=
  "model/" +:+ ModelPlan.route_name model +:+ "/replica/"
    +:+ str_Z (ReplicaPlan.replica_index replica).

(** [sum(len(ids) for ids in replica.planned_device_ids)] *)
Definition worker_count (replica : ReplicaPlan.t) : nat :=
  sum_list (length <$> ReplicaPlan.planned_device_ids replica).

(** [planned_ranks[0]]: [ReplicaPlan.post_init] rejects an empty tuple, on
    which the subscript would raise. *)
Definition primary_rank (replica : ReplicaPlan.t) : Z :=
  default 0 (head (ReplicaPlan.planned_ranks replica)).

Definition replica_requirements (include_engine_processes : bool) (model : ModelPlan.t)
    (replica : ReplicaPlan.t) : list ReceiptRequirement.t :=
  let owner := primary_rank replica in
  let base := replica_base model replica in
  let placement := "rank:" +:+ str_Z owner in
  ReceiptRequirement.mk base "replica" (ReplicaPlan.replica_id replica) "RANK" (Some owner)
    placement "SELF"
  :: if include_engine_processes then
       ReceiptRequirement.mk (base +:+ "/engine/core") "engine_core"
         (ReplicaPlan.replica_id replica +:+ "/engine/core") "RANK" (Some owner) placement "SELF"
       :: if (worker_count replica <=? 1)%nat then [] else worker_requirements base replica
     else [].

Definition supervisor_requirement : ReceiptRequirement.t :=
  ReceiptRequirement.mk "global/supervisor" "supervisor" "supervisor" "GLOBAL" None "" "SELF".

Definition gateway_requirement (gateway : GatewayPlan.t) : ReceiptRequirement.t :=
  ReceiptRequirement.mk ("global/gateway/" +:+ GatewayPlan.kind gateway) "gateway"
    ("gateway/" +:+ GatewayPlan.kind gateway) "GLOBAL" None "" "SUPERVISOR".

Definition build_receipt_requirements (num_nodes : Z) (models : list ModelPlan.t)
    (gateway : option GatewayPlan.t) (include_engine_processes : bool)
    : list ReceiptRequirement.t :=
  [supervisor_requirement]
  ++ (match gateway with Some g => [gateway_requirement g] | None => [] end)
  ++ (seqZ 0 num_nodes ≫= rank_requirements)
  ++ (models ≫= fun model =>
        ModelPlan.replicas model ≫= replica_requirements include_engine_processes model).

(** ** The deployment plan *)

Module DeploymentPlan.
Record t := mk {
  schema_version : Z;
  deployment_id : string;
  site_profile_id : string;
  site_profile_hash : string;
  compatibility_profile_hash : string;
  manifest_hash : string;
  scale_envelope : ScaleEnvelope.t;
  num_nodes : Z;
  num_gpus_per_node : Z;
  node_cpus : Z;
  ray_port : Z;
  vendor : string;
  engine : string;
  model_storage_path : string;
  local_stage_path : string;
  deployment_name : string;
  replica_max_ongoing_requests : Z;
  collect_stats : bool;
  models : list ModelPlan.t;
  exposure : ExposurePlan.t;
  gateway : option GatewayPlan.t;
  receipt_requirements : list ReceiptRequirement.t;
  control : ControlLimits.t;
  readiness : ReadinessLimits.t;
  runtime : RuntimePolicy.t;
  validation_mode : bool;
  deployment_plan_hash : string;
}.

Definition requirement_ids (p : t) : list string :=
  ReceiptRequirement.receipt_requirement_id <$> receipt_requirements p.

Definition requirement_keys (p : t) : gset string := list_to_set (requirement_ids p).

Definition requirements_for_rank (p : t) (rank : Z) : list ReceiptRequirement.t :=
  filter (fun r => ReceiptRequirement.owner_scope r = "RANK"
                   /\ ReceiptRequirement.planned_rank r = Some rank) (receipt_requirements p).

Definition global_requirements (p : t) : list ReceiptRequirement.t :=
  filter (fun r => ReceiptRequirement.owner_scope r = "GLOBAL") (receipt_requirements p).

Definition is_production_exposure (p : t) : bool :=
  bool_decide (ExposurePlan.mode (exposure p) = PROXIED_INTERNAL).

Definition uses_head_only_serve_proxy (p : t) : bool :=
  bool_decide (ExposurePlan.mode (exposure p) = RAY_SERVE_HEAD_ONLY).

(** The checks on gateway, exposure and request-body limit. *)
Definition check_gateway (p : t) : plan_result unit :=
  _ ← match gateway p with
      | None =>
          _ ← plan_raise_if
                (negb (bool_decide (ExposurePlan.mode (exposure p)
                                    ∈ [DIRECT_VALIDATION; RAY_SERVE_HEAD_ONLY])))
                "deployment without a gateway requires DIRECT_VALIDATION or RAY_SERVE_HEAD_ONLY";
          plan_raise_if (negb (validation_mode p))
            "gateway-free deployment requires validation_mode"
      | Some g =>
          if negb (bool_decide (ExposurePlan.mode (exposure p) = PROXIED_INTERNAL)) then
            Err (PlanError "managed deployment gateway requires PROXIED_INTERNAL exposure")
          else
            plan_raise_if
              (negb (validation_mode p) && negb (bool_decide (GatewayPlan.kind g = HAPROXY)))
              "production deployment requires the HAProxy gateway"
      end;
  if bool_decide (GatewayPlan.kind <$> gateway p = Some HAPROXY) then
    plan_raise_if
      (bool_decide (ExposurePlan.request_body_limit_bytes (exposure p) = None))
      "HAProxy exposure requires request_body_limit_bytes"
  else
    plan_raise_if
      (negb (bool_decide (ExposurePlan.request_body_limit_bytes (exposure p) = None)))
      "exposure.request_body_limit_bytes is supported only by the HAProxy gateway".

Definition check_envelope (p : t) : plan_result unit :=
  let e := scale_envelope p in
  _ ← plan_raise_if
        (negb (bool_decide (ScaleEnvelope.site_id e = site_profile_id p)
               && bool_decide (ScaleEnvelope.vendor e = vendor p)
               && bool_decide (ScaleEnvelope.engine e = engine p)
               && bool_decide (ScaleEnvelope.compatibility_profile_ref e
                               = compatibility_profile_hash p)
               && bool_decide (ScaleEnvelope.gateway_kind e = GatewayPlan.kind <$> gateway p)
               && bool_decide (ScaleEnvelope.exposure_mode e = ExposurePlan.mode (exposure p))))
        "deployment disagrees with scale_envelope";
  _ ← ScaleEnvelope.check_nodes e (num_nodes p);
  plan_raise_if (negb (Bool.eqb (ScaleEnvelope.validation_mode e) (validation_mode p)))
    "deployment.validation_mode disagrees with scale envelope".

(** One device of one stage: bounds and double booking. *)
Definition book_device (gpus rank : Z) (occupied : gset (Z * Z)) (device : Z)
    : plan_result (gset (Z * Z)) :=
  _ ← plan_raise_if (gpus <=? device) "replica plans device outside rank capacity";
  _ ← plan_raise_if (bool_decide ((rank, device) ∈ occupied))
        "deployment topology double-books rank/device";
  Ok ({[(rank, device)]} ∪ occupied).

Definition book_stage (gpus : Z) (occupied : gset (Z * Z)) (stage : Z * list Z)
    : plan_result (gset (Z * Z)) :=
  fold_res (book_device gpus stage.1) occupied stage.2.

(** The pairs [(planned_ranks[stage], planned_device_ids[stage])]. *)
Definition stages (replica : ReplicaPlan.t) : list (Z * list Z) :=
  zip (ReplicaPlan.planned_ranks replica) (ReplicaPlan.planned_device_ids replica).

Definition book_replica (gpus : Z) (acc : gset (Z * Z) * gmap Z Z) (replica : ReplicaPlan.t)
    : plan_result (gset (Z * Z) * gmap Z Z) :=
  occupied ← fold_res (book_stage gpus) acc.1 (stages replica);
  let primary := primary_rank replica in
  Ok (occupied,
      <[primary := default 0 (acc.2 !! primary) + ReplicaPlan.cpu_demand replica]> acc.2).

Definition all_replicas (p : t) : list ReplicaPlan.t := models p ≫= ModelPlan.replicas.

Definition check_topology (p : t) : plan_result unit :=
  _ ← plan_raise_if
        (existsb (fun replica => existsb (fun rank => num_nodes p <=? rank)
                                   (ReplicaPlan.planned_ranks replica)) (all_replicas p))
        "deployment replica placement names an unplanned rank";
  booked ← fold_res (book_replica (num_gpus_per_node p)) (∅, ∅) (all_replicas p);
  plan_raise_if
    (negb (bool_decide (map_Forall (fun _ demand => demand <= node_cpus p) booked.2)))
    "deployment topology exceeds per-rank CPU capacity".

Definition check_head_only (p : t) : plan_result unit :=
  if uses_head_only_serve_proxy p then
    match models p with
    | [m] =>
        plan_raise_if (negb (ModelPlan.pipeline_parallel_size m =? 1))
          "RAY_SERVE_HEAD_ONLY supports tensor-parallel replicas only"
    | _ => Err (PlanError "RAY_SERVE_HEAD_ONLY supports exactly one model")
    end
  else Ok tt.

Definition check_runtime (p : t) : plan_result unit :=
  let r := runtime p in
  _ ← plan_raise_if
        ((RuntimePolicy.null_compute r || RuntimePolicy.instrumentation r)
         && negb (validation_mode p))
        "diagnostic/degraded runtime policies require validation_mode";
  _ ← plan_raise_if
        (collect_stats p && (negb (bool_decide (engine p = "vllm")) || RuntimePolicy.null_compute r))
        "collect_stats requires the real vllm engine";
  plan_raise_if
    (negb (Bool.eqb (existsb (fun m => 1 <? ModelPlan.pipeline_parallel_size m) (models p))
             (RuntimePolicy.pp_shard_aware r)))
    "runtime.pp_shard_aware must be enabled exactly for PP models".

Definition post_init (p : t) : plan_result unit :=
  _ ← require_schema_version (schema_version p);
  _ ← for_each (fun s => plan_raise_if (negb (nonempty s)) "deployment field must be non-empty")
        [deployment_id p; site_profile_id p; site_profile_hash p; compatibility_profile_hash p;
         manifest_hash p; vendor p; engine p; model_storage_path p; local_stage_path p;
         deployment_name p];
  _ ← for_each require_absolute_path [model_storage_path p; local_stage_path p];
  _ ← for_each (fun v => plan_raise_if (v <? 1) "deployment size must be a positive integer")
        [num_nodes p; num_gpus_per_node p; node_cpus p; replica_max_ongoing_requests p];
  _ ← plan_raise_if (negb (port_ok (ray_port p))) "deployment.ray_port must be in 1..65535";
  _ ← plan_raise_if (bool_decide (models p = [])) "deployment.models must be non-empty";
  _ ← check_head_only p;
  _ ← plan_raise_if (negb (no_dups (requirement_ids p)))
        "deployment.receipt_requirements contains duplicate slots";
  _ ← check_gateway p;
  _ ← check_envelope p;
  _ ← plan_raise_if
        (negb (bool_decide
           (receipt_requirements p
            = build_receipt_requirements (num_nodes p) (models p) (gateway p)
                (negb (RuntimePolicy.null_compute (runtime p))))))
        "deployment.receipt_requirements disagrees with derived runtime topology";
  _ ← for_each (fun h => require_sha256 h false)
        [site_profile_hash p; compatibility_profile_hash p; manifest_hash p];
  _ ← require_sha256 (deployment_plan_hash p) true;
  _ ← plan_raise_if (negb (no_dups (ModelPlan.model_id <$> models p)))
        "deployment.models contains duplicate model_id values";
  _ ← plan_raise_if (negb (no_dups (ModelPlan.route_name <$> models p)))
        "deployment.models contains duplicate route_name values";
  _ ← check_topology p;
  check_runtime p.

(** A plan object exists only when the constructors of its parts and its own
    constructor returned. *)
Definition constructed (p : t) : Prop :=
  ScaleEnvelope.post_init (scale_envelope p) = Ok tt
  /\ Forall (fun m => ModelPlan.post_init m = Ok tt) (models p)
  /\ Forall (fun r => ReplicaPlan.post_init r = Ok tt) (all_replicas p)
  /\ ExposurePlan.post_init (exposure p) = Ok tt
  /\ (forall g, gateway p = Some g -> GatewayPlan.post_init g = Ok tt)
  /\ Forall (fun r => ReceiptRequirement.post_init r = Ok tt) (receipt_requirements p)
  /\ ControlLimits.post_init (control p) = Ok tt
  /\ ReadinessLimits.post_init (readiness p) = Ok tt
  /\ RuntimePolicy.post_init (runtime p) = Ok tt
  /\ post_init p = Ok tt.

(** [by_rank.setdefault(rank, []).append(index)] *)
Definition group_index (by_rank : gmap Z (list Z)) (replica : ReplicaPlan.t) : gmap Z (list Z) :=
  let rank := primary_rank replica in
  <[rank := default [] (by_rank !! rank) ++ [ReplicaPlan.replica_index replica]]> by_rank.

Definition group_devices (by_rank : gmap Z (gset Z)) (replica : ReplicaPlan.t)
    : gmap Z (gset Z) :=
  let rank := primary_rank replica in
  <[rank := default ∅ (by_rank !! rank)
            ∪ list_to_set (default [] (head (ReplicaPlan.planned_device_ids replica)))]> by_rank.

Definition node_grouped_null_application_groups (p : t) (model : ModelPlan.t)
    : plan_result (list (Z * list Z)) :=
  if negb (RuntimePolicy.null_compute (runtime p))
     || uses_head_only_serve_proxy p
     || negb (bool_decide (GatewayPlan.kind <$> gateway p = Some HAPROXY))
     || negb (length (models p) =? 1)%nat
     || negb (bool_decide (model ∈ models p))
     || (ModelPlan.num_replicas model <=? 1)
     || negb (ModelPlan.num_replicas model =? num_nodes p * num_gpus_per_node p)
     || negb (ModelPlan.tensor_parallel_size model =? 1)
     || negb (ModelPlan.pipeline_parallel_size model =? 1)
  then Ok []
  else
    _ ← for_each (fun replica =>
          plan_raise_if
            (negb (length (ReplicaPlan.planned_ranks replica) =? 1)%nat
             || negb (length (ReplicaPlan.planned_device_ids replica) =? 1)%nat)
            "node-grouped null replica must occupy one planned rank") (ModelPlan.replicas model);
    let by_rank := fold_left group_index (ModelPlan.replicas model) ∅ in
    let devices_by_rank := fold_left group_devices (ModelPlan.replicas model) ∅ in
    let groups := (fun rank => (rank, sortedZ (default [] (by_rank !! rank))))
                    <$> sortedZ (elements (dom by_rank)) in
    let expected_devices : gset Z := list_to_set (seqZ 0 (num_gpus_per_node p)) in
    if negb (bool_decide (groups.*1 = seqZ 0 (num_nodes p)))
       || existsb (fun group => negb (Z.of_nat (length group.2) =? num_gpus_per_node p)) groups
       || existsb (fun group => negb (bool_decide
            (default ∅ (devices_by_rank !! group.1) = expected_devices))) groups
    then Ok []
    else
      _ ← plan_raise_if
            (negb (bool_decide (sortedZ (concat groups.*2) = seqZ 0 (ModelPlan.num_replicas model))))
            "node-grouped null applications do not cover exact replica slots";
      Ok groups.
End DeploymentPlan.

(** ** Allocation binding *)

Module AllocationBinding.
Record t := mk {
  schema_version : Z;
  deployment_id : string;
  generation : Z;
  deployment_plan_hash : string;
  site_profile_hash : string;
  scheduler_allocation_id : string;
  rank_to_node : list (Z * string);
  allocation_binding_hash : string;
}.

Definition post_init (b : t) : plan_result unit :=
  _ ← require_schema_version (schema_version b);
  _ ← plan_raise_if (negb (nonempty (deployment_id b))) "binding.deployment_id must be non-empty";
  _ ← plan_raise_if (generation b <? 0) "binding.generation must be a non-negative integer";
  _ ← plan_raise_if (negb (nonempty (scheduler_allocation_id b)))
        "binding.scheduler_allocation_id must be non-empty";
  _ ← require_sha256 (deployment_plan_hash b) false;
  _ ← require_sha256 (site_profile_hash b) false;
  _ ← require_sha256 (allocation_binding_hash b) true;
  let ranks := (rank_to_node b).*1 in
  let nodes := canonical_node_id <$> (rank_to_node b).*2 in
  _ ← plan_raise_if (existsb (fun rank => rank <? 0) ranks)
        "binding ranks must be non-negative integers";
  _ ← plan_raise_if (negb (bool_decide (ranks = seqZ 0 (Z.of_nat (length ranks)))))
        "binding ranks must be ordered and contiguous from zero";
  _ ← plan_raise_if (existsb (fun node => negb (nonempty node)) nodes)
        "binding node names must be non-empty strings";
  plan_raise_if (negb (no_dups nodes)) "binding contains duplicate canonical node names".

Fixpoint node_for_in (l : list (Z * string)) (rank : Z) : option string :=
  match l with
  | [] => None
  | (planned_rank, node) :: l' => if planned_rank =? rank then Some node else node_for_in l' rank
  end.

Definition node_for (b : t) (rank : Z) : option string := node_for_in (rank_to_node b) rank.

Definition is_bound_node (b : t) (rank : Z) (node_id : string) : bool :=
  match node_for b rank with
  | Some bound => same_node bound node_id
  | None => false
  end.

Definition ranks (b : t) : list Z := sortedZ (rank_to_node b).*1.

Definition with_hash (b : t) (h : string) : t :=
  mk (schema_version b) (deployment_id b) (generation b) (deployment_plan_hash b)
     (site_profile_hash b) (scheduler_allocation_id b) (rank_to_node b) h.

(** [finalize()]: [dataclasses.replace] runs the constructor again. *)
Definition finalize (compute_hash : t -> string) (b : t) : plan_result t :=
  let b' := with_hash b (compute_hash b) in
  _ ← post_init b';
  Ok b'.
End AllocationBinding.

(** [for node in nodes: if node and node not in unique: unique.append(node)] *)
Definition unique_nodes (nodes : list string) : list string :=
  fold_left (fun unique node =>
    if nonempty node && negb (bool_decide (node ∈ unique)) then unique ++ [node] else unique)
    nodes [].

Definition build_allocation_binding (compute_hash : AllocationBinding.t -> string)
    (plan : DeploymentPlan.t) (generation : Z) (scheduler_allocation_id : string)
    (nodes : list string) : plan_result AllocationBinding.t :=
  let unique := unique_nodes nodes in
  _ ← plan_raise_if (negb (Z.of_nat (length unique) =? DeploymentPlan.num_nodes plan))
        "allocation node count differs; refusing to bind a different deployment";
  let b := AllocationBinding.mk SCHEMA_VERSION (DeploymentPlan.deployment_id plan) generation
             (DeploymentPlan.deployment_plan_hash plan) (DeploymentPlan.site_profile_hash plan)
             scheduler_allocation_id (imap (fun index node => (Z.of_nat index, node)) unique) "" in
  _ ← AllocationBinding.post_init b;
  AllocationBinding.finalize compute_hash b.
