(* ===== verification/Frames.v ===== *)
(** Authenticated framing of control/transport.py: a frame is the big-endian length
    of what follows, the MAC of the body, and the body of an encoded envelope. The
    HMAC is a parameter of which only the length of its digest is assumed. *)

From S2P Require Import Prelude PyValue Json JsonProps Envelopes EnvelopesProps.

Definition LEN_BYTES : nat := 4.
Definition MAC_BYTES : nat := 32.

(** [struct.Struct(">I")]: pack and unpack a 32-bit length. *)
Fixpoint pack_be (n : nat) (z : Z) : text :=
  match n with
  | O => []
  | S n' => ascii_of_N (Z.to_N (Z.land (Z.shiftr z (8 * Z.of_nat n')) 255)) :: pack_be n' z
  end.

Definition unpack_be (l : text) : Z :=
  fold_left (fun acc c => Z.lor (Z.shiftl acc 8) (Z.of_N (N_of_ascii c))) l 0.

(** What a read can end with besides an envelope: the peer's end of file in the
    middle of a frame, or an exception of the contract. *)
Inductive frame_error := Incomplete | Rejected (e : exc).

(** [reader.readexactly(n)] on the bytes that arrive before end of file. *)
Definition readexactly (n : nat) (s : text) : result frame_error (text * text) :=
  if (length s <? n)%nat then Err Incomplete else Ok (take n s, drop n s).

Section frames.
  Context `{FloatText} (mac : text -> text -> text).

Definition write_frame (secret : text) (max_frame_bytes : Z) (e : Envelope.t)
    : result exc text :=
  body ← encode_envelope (Envelope.raw e);
  if max_frame_bytes <? Z.of_nat (length body) then Err (ContractError RejectReason.OVERSIZED)
  else
    let frame := mac secret body ++ body in
    Ok (pack_be LEN_BYTES (Z.of_nat (length frame)) ++ frame).

Definition read_frame (secret : text) (max_frame_bytes : Z) (stream : text)
    : result frame_error (Envelope.t * text) :=
  '(header, s1) ← readexactly LEN_BYTES stream;
  let length := unpack_be header in
  if (max_frame_bytes + Z.of_nat MAC_BYTES <? length) || (length <? Z.of_nat MAC_BYTES)
  then Err (Rejected (ContractError RejectReason.OVERSIZED))
  else
    '(frame, s2) ← readexactly (Z.to_nat length) s1;
    let m := take MAC_BYTES frame in
    let body := drop MAC_BYTES frame in
    if negb (bool_decide (m = mac secret body))
    then Err (Rejected (ContractError RejectReason.BAD_MAC))
    else match decode_envelope body with
         | Ok e => Ok (e, s2)
         | Err x => Err (Rejected x)
         end.

(** The frames a peer reads until its stream ends or is refused. *)
Fixpoint read_frames (fuel : nat) (secret : text) (max_frame_bytes : Z) (stream : text)
    : list Envelope.t * frame_error :=
  match fuel with
  | O => ([], Incomplete)
  | S n =>
      match read_frame secret max_frame_bytes stream with
      | Ok (e, rest) =>
          let '(es, x) := read_frames n secret max_frame_bytes rest in (e :: es, x)
      | Err x => ([], x)
      end
  end.
End frames.

(** ** Lengths *)

Lemma ascii_byte z :
  Z.of_N (N_of_ascii (ascii_of_N (Z.to_N (Z.land z 255)))) = Z.land z 255.
Proof.
  assert (0 <= Z.land z 255 < 256) as Hb.
  { change 255 with (Z.ones 8). rewrite Z.land_ones by lia. apply Z.mod_pos_bound. lia. }
  rewrite N_ascii_embedding by lia. lia.
Qed.

Lemma length_pack_be n z : length (pack_be n z) = n.
Proof. induction n as [|n IH]; cbn; [done|]. by rewrite IH. Qed.

Lemma unpack_pack_acc n z acc :
  fold_left (fun acc c => Z.lor (Z.shiftl acc 8) (Z.of_N (N_of_ascii c))) (pack_be n z) acc =
  Z.lor (Z.shiftl acc (8 * Z.of_nat n)) (Z.land z (Z.ones (8 * Z.of_nat n))).
Proof.
  revert acc. induction n as [|n IH]; intros acc.
  - cbn. by rewrite Z.land_0_r, Z.lor_0_r.
  - cbn [pack_be fold_left]. rewrite IH, ascii_byte.
    apply Z.bits_inj'. intros i Hi.
    rewrite !Z.lor_spec, !Z.shiftl_spec, !Z.lor_spec, !Z.land_spec by lia.
    rewrite Z.testbit_ones_nonneg by lia. rewrite Z.testbit_ones_nonneg by lia.
    destruct (decide (i < 8 * Z.of_nat n)) as [Hlt|Hge].
    + rewrite (proj2 (Z.ltb_lt _ _) Hlt), (proj2 (Z.ltb_lt i (8 * Z.of_nat (S n)))) by lia.
      rewrite (Z.testbit_neg_r _ (i - 8 * Z.of_nat n)) by lia.
      rewrite (Z.testbit_neg_r _ (i - 8 * Z.of_nat (S n))) by lia.
      by rewrite (Z.testbit_neg_r (Z.shiftr _ _)) by lia.
    + rewrite (proj2 (Z.ltb_ge i (8 * Z.of_nat n))) by lia. rewrite andb_false_r, orb_false_r.
      rewrite Z.shiftl_spec by lia. rewrite Z.shiftr_spec by lia.
      change 255 with (Z.ones 8). rewrite Z.testbit_ones_nonneg by lia.
      replace (i - 8 * Z.of_nat n - 8) with (i - 8 * Z.of_nat (S n)) by lia.
      replace (i - 8 * Z.of_nat n + 8 * Z.of_nat n) with i by lia.
      f_equal. f_equal. apply eq_iff_eq_true. rewrite !Z.ltb_lt. lia.
Qed.

Lemma unpack_pack n z : 0 <= z < 2 ^ (8 * Z.of_nat n) -> unpack_be (pack_be n z) = z.
Proof.
  intros Hz. unfold unpack_be. rewrite unpack_pack_acc, Z.shiftl_0_l, Z.lor_0_l.
  rewrite Z.land_ones by lia. apply Z.mod_small. lia.
Qed.

Lemma readexactly_app n s r : length s = n -> readexactly n (s ++ r) = Ok (s, r).
Proof.
  intros <-. unfold readexactly. rewrite length_app, (proj2 (Nat.ltb_ge _ _)) by lia.
  by rewrite take_app_length, drop_app_length.
Qed.

Lemma readexactly_Ok n s a r : readexactly n s = Ok (a, r) -> s = a ++ r /\ length a = n.
Proof.
  unfold readexactly. destruct (length s <? n)%nat eqn:E; [done|]. apply Nat.ltb_ge in E.
  intros [= <- <-]. by rewrite take_drop, length_take_le.
Qed.

(** ** Round trip and authentication *)

Section properties.
  Context `{FloatTextLaws} (mac : text -> text -> text).
  Context (mac_length : forall secret body, length (mac secret body) = MAC_BYTES).

Lemma frame_roundtrip_one secret max e frame rest :
  distinct_keys (VDict (Envelope.payload e)) = true ->
  write_frame mac secret max e = Ok frame ->
  read_frame mac secret max (frame ++ rest) = Ok (canon_envelope e, rest).
Proof.
  intros Hd (body & Hb & Hf)%bind_Ok. destruct (max <? _) eqn:Hmax; [done|]. bool_prop.
  apply Ok_inj in Hf as <-.
  pose proof (decode_encoded e body Hd Hb) as Hdec.
  apply encode_envelope_Ok in Hb as (e' & _ & _ & _ & _ & Hlen).
  unfold read_frame.
  set (len := Z.of_nat (length (mac secret body ++ body))).
  assert (len = Z.of_nat MAC_BYTES + Z.of_nat (length body)) as El
    by (unfold len; rewrite length_app, mac_length; lia).
  assert (unpack_be (pack_be LEN_BYTES len) = len) as Hpack.
  { apply unpack_pack. change MAX_MESSAGE_BYTES with 1048576 in Hlen.
    change (2 ^ (8 * Z.of_nat LEN_BYTES)) with 4294967296.
    change (Z.of_nat MAC_BYTES) with 32 in El. lia. }
  clearbody len. rewrite <- app_assoc, readexactly_app by apply length_pack_be.
  cbn [mbind result_bind]. cbv zeta. rewrite Hpack.
  rewrite (proj2 (Z.ltb_ge _ _)), (proj2 (Z.ltb_ge _ _)) by lia. cbn [orb].
  rewrite readexactly_app by (rewrite length_app, mac_length; lia). cbn [mbind result_bind].
  rewrite take_app_length', drop_app_length' by (symmetry; apply mac_length).
  rewrite bool_decide_true by done. cbn [negb]. by rewrite Hdec.
Qed.

(** A peer that reads the concatenation of written frames gets exactly the envelopes
    that were written, in order, and then the end of the stream. *)
Theorem frames_roundtrip (secret : text) (max : Z) (es : list Envelope.t) (frames : list text) :
  Forall (fun e => distinct_keys (VDict (Envelope.payload e)) = true) es ->
  Forall2 (fun e frame => write_frame mac secret max e = Ok frame) es frames ->
  read_frames mac (S (length es)) secret max (concat frames) = (canon_envelope <$> es, Incomplete).
Proof.
  intros Hd Hw. induction Hw as [|e frame es frames He Hw IH]; [done|].
  inv Hd as [|? ? Hd1 Hd2]. cbn [concat length fmap list_fmap].
  change (read_frames mac (S ?n) secret max ?s) with
    (match read_frame mac secret max s with
     | Ok (e, rest) => let '(es, x) := read_frames mac n secret max rest in (e :: es, x)
     | Err x => ([], x) end).
  rewrite (frame_roundtrip_one _ _ _ _ _ Hd1 He), IH by done. done.
Qed.

(** Only authenticated bytes become an envelope: an accepted frame carries the MAC
    of its body under the deployment's secret, its body fits the limit, and the
    envelope is the decoding of that body and nothing else. *)
Theorem frame_authentic (secret : text) (max : Z) (stream rest : text) (e : Envelope.t) :
  read_frame mac secret max stream = Ok (e, rest) ->
  exists header body,
    stream = header ++ mac secret body ++ body ++ rest /\ length header = LEN_BYTES /\
    unpack_be header = Z.of_nat (MAC_BYTES + length body) /\
    Z.of_nat (length body) <= max /\ decode_envelope body = Ok e.
Proof.
  unfold read_frame. intros ([header s1] & [-> Hh]%readexactly_Ok & Hr)%bind_Ok.
  destruct (_ || _) eqn:Hlen; [done|]. bool_prop.
  apply bind_Ok in Hr as ([frame s2] & [-> Hf]%readexactly_Ok & Hr).
  destruct (negb _) eqn:Hm; [done|]. bool_prop.
  destruct (decode_envelope _) as [e'|x] eqn:Hd; [|done]. injection Hr as <- <-.
  exists header, (drop MAC_BYTES frame). rewrite <- Hm.
  split_and!; try done.
  - by rewrite (app_assoc (take _ _)), take_drop.
  - rewrite length_drop. lia.
  - rewrite length_drop. lia.
Qed.
End properties.

Definition example_mac (secret body : text) : text := replicate MAC_BYTES "x"%char.

Definition example_write : text :=
  match write_frame (H := DecimalFloat.ops) example_mac [] MAX_MESSAGE_BYTES example_envelope with
  | Ok f => f
  | Err _ => []
  end.

Lemma frames_roundtrip_witness :
  read_frames (H := DecimalFloat.ops) example_mac 3 [] MAX_MESSAGE_BYTES
    (concat [example_write; example_write])
  = (canon_envelope <$> [example_envelope; example_envelope], Incomplete).
Proof.
  apply (frames_roundtrip (H := DecimalFloat.ops) (H0 := DecimalFloatLaws.laws) example_mac
    ltac:(intros; apply length_replicate) [] MAX_MESSAGE_BYTES [example_envelope; example_envelope]).
  - repeat constructor; reflexivity.
  - repeat constructor; vm_compute; reflexivity.
Defined.

Lemma frame_authentic_witness :
  exists header body,
    example_write = header ++ example_mac [] body ++ body ++ [] /\ length header = LEN_BYTES /\
    unpack_be header = Z.of_nat (MAC_BYTES + length body) /\
    Z.of_nat (length body) <= MAX_MESSAGE_BYTES /\
    decode_envelope (H := DecimalFloat.ops) body = Ok (canon_envelope example_envelope).
Proof.
  apply (frame_authentic (H := DecimalFloat.ops) example_mac). vm_compute. reflexivity.
Defined.
