(* ===== verification/Snapshots.v ===== *)
(** Payload contracts of control/transport.py: commands and their results, the
    canonical form of a snapshot's items, its hash, and the assembly of snapshot
    chunks by the listener. SHA-256 is a parameter. *)

From S2P Require Import Prelude PyValue Json JsonProps Envelopes EnvelopesProps Contracts.

(** [type(v) is int and v == 1] for the payload version. *)
Definition is_payload_version_one (payload : dict) : bool :=
  match dget "payload_version" payload with Some (VInt z) => z =? 1 | _ => false end.

(** [set(payload) == fields] *)
Definition fields_are (fields : list string) (payload : dict) : bool :=
  same_keys (dkeys payload) fields.

(** [v in {strings}]: the membership test hashes [v] first. *)
Definition in_string_set (l : list string) (v : value) : result exc bool :=
  match v with
  | VList _ | VDict _ => Err TypeError
  | VStr s => Ok (bool_decide (s ∈ l))
  | _ => Ok false
  end.

Definition sha256_text (v : value) : option string :=
  match v with VStr s => if is_sha256 s then Some s else None | _ => None end.

Definition is_str (s : string) (v : value) : bool :=
  match v with VStr x => bool_decide (x = s) | _ => false end.

(** ** Commands and results *)

Definition RESULT_OPERATIONS : list string :=
  ["START"; "START_HEAD"; "START_WORKER"; "DRAIN"; "STOP"; "SNAPSHOT_ACCEPTED"].

Definition SNAPSHOT_FIELDS : list string := ["snapshot_id"; "complete_set_hash"].
Definition RESULT_FIELDS : list string :=
  ["payload_version"; "command_id"; "operation"; "ok"; "detail"; "status"].
Definition COMMAND_FIELDS : list string := ["payload_version"; "command_id"; "operation"].

Definition need {A} (o : option A) (message : string) : result exc A :=
  match o with Some a => Ok a | None => Err (ContractError message) end.

Definition validate_command_result_payload (payload : value) : result exc dict :=
  match payload with
  | VDict d =>
      _ ← raise_if (negb (is_payload_version_one d))
            (ContractError "invalid COMMAND_RESULT payload/version");
      let operation := attr "operation" d in
      let snapshot := is_str "SNAPSHOT_ACCEPTED" operation in
      _ ← raise_if (negb (fields_are
              (RESULT_FIELDS ++ if snapshot then SNAPSHOT_FIELDS else []) d))
            (ContractError "COMMAND_RESULT fields do not match its operation contract");
      _ ← need (nonempty_str (attr "command_id" d))
            "COMMAND_RESULT command_id must be a nonempty string";
      known ← in_string_set RESULT_OPERATIONS operation;
      _ ← raise_if (negb known) (ContractError "COMMAND_RESULT operation is unsupported");
      ok ← match attr "ok" d with
           | VBool b => Ok b
           | _ => Err (ContractError "COMMAND_RESULT ok must be a boolean")
           end;
      _ ← need (as_str (attr "detail" d)) "COMMAND_RESULT detail must be a string";
      known_status ← in_string_set ["SUCCEEDED"; "FAILED"] (attr "status" d);
      _ ← raise_if (negb known_status) (ContractError "COMMAND_RESULT status is unsupported");
      _ ← raise_if (negb (Bool.eqb (is_str "SUCCEEDED" (attr "status" d)) ok))
            (ContractError "COMMAND_RESULT status and ok disagree");
      if snapshot then
        _ ← need (nonempty_str (attr "snapshot_id" d))
              "snapshot result snapshot_id must be a nonempty string";
        _ ← need (sha256_text (attr "complete_set_hash" d))
              "snapshot result complete_set_hash must be lowercase SHA-256";
        Ok d
      else Ok d
  | _ => Err (ContractError "invalid COMMAND_RESULT payload/version")
  end.

Definition validate_command_payload (payload : value) : result exc dict :=
  match payload with
  | VDict d =>
      _ ← raise_if (negb (is_payload_version_one d))
            (ContractError "unknown COMMAND payload_version");
      _ ← need (nonempty_str (attr "command_id" d))
            "COMMAND command_id must be a nonempty string";
      operation ← need (nonempty_str (attr "operation" d))
            "COMMAND operation must be a nonempty string";
      let snapshot := bool_decide (operation = "SNAPSHOT_ACCEPTED") in
      _ ← raise_if (negb (fields_are
              (COMMAND_FIELDS ++ if snapshot then SNAPSHOT_FIELDS else []) d))
            (ContractError "COMMAND fields do not match its operation contract");
      if snapshot then
        _ ← need (nonempty_str (attr "snapshot_id" d))
              "snapshot command snapshot_id must be a nonempty string";
        _ ← need (sha256_text (attr "complete_set_hash" d))
              "snapshot command hash must be lowercase SHA-256";
        Ok d
      else Ok d
  | _ => Err (ContractError "unknown COMMAND payload_version")
  end.

(** ** Canonical snapshot items *)

(** The order of tuples of text. *)
Fixpoint key_leb (a b : list string) : bool :=
  match a, b with
  | [], _ => true
  | _ :: _, [] => false
  | x :: a', y :: b' => if bool_decide (x = y) then key_leb a' b' else string_leb x y
  end.

Definition snap_key_le (a b : list string) : Prop := key_leb a b = true.

#[global] Instance snap_key_le_dec a b : Decision (snap_key_le a b).
Proof. unfold snap_key_le. apply _. Defined.

(** [{"kind": kind, "body": dict(body)}] *)
Definition snapshot_item (kind : string) (body : value) : value :=
  VDict [("kind", VStr kind); ("body", body)].

Definition key_parts (fields : list string) (body : dict) : option (list string) :=
  mapM (fun name => nonempty_str (attr name body)) fields.

Section snapshots.
  Context `{FloatText} (sha256 : text -> string).

(** The key, the canonical text and the normalized form of one item. *)
Definition snapshot_entry (item : value) : result exc (list string * (text * value)) :=
  match item with
  | VDict d =>
      _ ← raise_if (negb (fields_are ["kind"; "body"] d))
            (ContractError "snapshot item must contain exactly kind/body");
      known ← in_string_set ["observation"; "receipt"] (attr "kind" d);
      match known, attr "kind" d, attr "body" d with
      | true, VStr kind, VDict body =>
          parts ← need
            (key_parts
              (if bool_decide (kind = "observation") then ["component_id"; "instance_id"]
               else ["receipt_requirement_id"; "component_id"; "instance_id"]) body)
            ("snapshot " +:+ kind +:+ " key is incomplete");
          let normalized := snapshot_item kind (VDict body) in
          match dumps normalized with
          | Ok encoded => Ok (kind :: parts, (encoded, normalized))
          | Err _ => Err (ContractError "snapshot item is not canonical JSON")
          end
      | _, _, _ => Err (ContractError "snapshot item kind/body is invalid")
      end
  | _ => Err (ContractError "snapshot item must contain exactly kind/body")
  end.

Definition add_entry (unique : gmap (list string) (text * value)) (item : value)
    : result exc (gmap (list string) (text * value)) :=
  '(key, (encoded, normalized)) ← snapshot_entry item;
  match unique !! key with
  | Some (existing, _) =>
      if bool_decide (existing = encoded) then Ok (<[key := (encoded, normalized)]> unique)
      else Err (ContractError "conflicting duplicate snapshot key")
  | None => Ok (<[key := (encoded, normalized)]> unique)
  end.

(** [[unique[key][1] for key in sorted(unique)]] *)
Definition sorted_keys {A} (m : gmap (list string) A) : list (list string) :=
  merge_sort snap_key_le (map_to_list m).*1.

Definition canonical_snapshot_items (items : list value) : result exc (list value) :=
  unique ← fold_res add_entry ∅ items;
  Ok (omap (fun key => snd <$> unique !! key) (sorted_keys unique)).

Definition snapshot_set_hash (items : list value) : result exc string :=
  canonical ← canonical_snapshot_items items;
  match dumps (VList canonical) with
  | Ok blob => Ok (sha256 blob)
  | Err _ => Err ValueError
  end.

(** ** Chunk assembly *)

Record assembly := Assembly {
  a_snapshot_id : string; a_total : Z; a_hash : string;
  a_chunks : gmap Z (list value); a_bytes : Z; a_started_at : float
}.

Definition ASSEMBLY_FIELDS : list string :=
  ["payload_version"; "snapshot_id"; "chunk_index"; "chunk_count"; "complete_set_hash";
   "observations"; "compatibility_receipts"].

(** [(complete, reject_reason, items)] *)
Inductive assembled :=
| MoreChunks
| Complete (items : list value)
| RejectedChunk (reason : string)
| RaisedChunk (e : exc).

Definition count_chunk_items (c : gmap Z (list value)) : Z :=
  map_fold (fun _ items n => Z.of_nat (length items) + n) 0 c.

Definition chunk_items (c : gmap Z (list value)) : list value :=
  sortedZ (map_to_list c).*1 ≫= fun i => default [] (c !! i).

Definition body_items (kind : string) (v : value) : option (list value) :=
  match v with VList l => Some (map (snapshot_item kind) l) | _ => None end.

(** The last part of [_assemble_snapshot]: all chunks are there. *)
Definition finish_assembly (a : assembly) : assembled :=
  match canonical_snapshot_items (chunk_items (a_chunks a)) with
  | Err (ContractError message) => RejectedChunk message
  | Err e => RaisedChunk e
  | Ok items =>
      match snapshot_set_hash items with
      | Err (ContractError message) => RejectedChunk message
      | Err e => RaisedChunk e
      | Ok actual =>
          if bool_decide (actual = a_hash a) then Complete items
          else RejectedChunk "snapshot content hash mismatch"
      end
  end.

(** One chunk of a valid header against the assembly in flight. *)
Definition add_chunk (limits : ControlLimits.t) (a : assembly) (index : Z)
    (observations receipts : value) : option assembly * assembled :=
  match body_items "observation" observations, body_items "receipt" receipts with
  | Some obs, Some recs =>
      let items := obs ++ recs in
      match dumps (VList items) with
      | Err _ => (Some a, RejectedChunk "snapshot chunk is not canonical JSON")
      | Ok encoded =>
          let conflict := match a_chunks a !! index with
                          | Some existing => negb (py_list_eqb existing items)
                          | None => false
                          end in
          if conflict then
            (Some a, RejectedChunk ("conflicting duplicate for chunk " +:+ str_Z index))
          else
            let bytes := match a_chunks a !! index with
                         | Some _ => a_bytes a
                         | None => a_bytes a + Z.of_nat (length encoded)
                         end in
            let a1 := Assembly (a_snapshot_id a) (a_total a) (a_hash a) (a_chunks a) bytes
                        (a_started_at a) in
            if bool_decide (a_chunks a !! index = None) &&
               (ControlLimits.max_snapshot_bytes limits <? bytes)
            then (Some a1, RejectedChunk "snapshot exceeds max_snapshot_bytes")
            else
              let a2 := Assembly (a_snapshot_id a) (a_total a) (a_hash a)
                          (<[index := items]> (a_chunks a)) bytes (a_started_at a) in
              if ControlLimits.max_snapshot_items limits <? count_chunk_items (a_chunks a2)
              then (Some a2, RejectedChunk "snapshot exceeds max_snapshot_items")
              else if Z.of_nat (size (a_chunks a2)) <? a_total a2 then (Some a2, MoreChunks)
              else
                let verdict := finish_assembly a2 in
                (match verdict with RaisedChunk _ => Some a2 | _ => None end, verdict)
      end
  | _, _ =>
      (Some a, RejectedChunk "snapshot observations/compatibility_receipts must be lists")
  end.

(** [_assemble_snapshot] on the buffer of one rank at time [now]. *)
Definition assemble_snapshot (limits : ControlLimits.t) (now : float) (buffer : option assembly)
    (payload : dict) : option assembly * assembled :=
  if negb (is_payload_version_one payload) then
    (buffer, RejectedChunk "unknown snapshot payload_version")
  else if negb (fields_are ASSEMBLY_FIELDS payload) then
    (buffer, RejectedChunk "snapshot fields do not match the version-1 contract")
  else
    match attr "chunk_count" payload, attr "chunk_index" payload with
    | VInt total, VInt index =>
        match nonempty_str (attr "snapshot_id" payload) with
        | None => (buffer, RejectedChunk "snapshot id is missing or invalid")
        | Some snapshot_id =>
        match sha256_text (attr "complete_set_hash" payload) with
        | None => (buffer, RejectedChunk "snapshot id/hash is missing or invalid")
        | Some complete_hash =>
        if (total <? 1) || (index <? 0) || (total <=? index) then
          (buffer, RejectedChunk ("chunk " +:+ str_Z index +:+ " out of range 0.." +:+ str_Z (total - 1)))
        else if ControlLimits.max_snapshot_chunks limits <? total then
          (buffer, RejectedChunk (str_Z total +:+ " chunks exceeds the cap"))
        else
          let a := default (Assembly snapshot_id total complete_hash ∅ 0 now) buffer in
          if negb (bool_decide (a_snapshot_id a = snapshot_id)) || negb (a_total a =? total) ||
             negb (bool_decide (a_hash a = complete_hash))
          then (buffer, RejectedChunk "snapshot id/count/hash changed while one is in flight")
          else if Float.gtb (Float.sub now (a_started_at a))
                    (ControlLimits.snapshot_assembly_deadline_s limits)
          then (None, RejectedChunk "snapshot assembly deadline expired")
          else add_chunk limits a index (attr "observations" payload)
                 (attr "compatibility_receipts" payload)
        end end
    | _, _ => (buffer, RejectedChunk "snapshot chunk_count/chunk_index is invalid")
    end.
End snapshots.
