(* ===== verification/SnapshotsProps.v ===== *)
(** Properties of snapshot payloads: the canonical form and the hash of a snapshot
    depend only on the set of its items, and a complete set of chunks assembles to
    the canonical items that were sent. *)

From S2P Require Import Prelude PyValue Json JsonProps Envelopes EnvelopesProps Contracts Snapshots.

(** ** Text of sorted values *)

Section text.
  Context `{FloatText}.

Lemma print_canon v : print (canon v) = print v.
Proof.
  induction v as [|b|z|f|s|l IH|d IH] using value_ind_nested; try done.
  - cbn [canon print]. rewrite map_map. do 3 f_equal. apply map_ext_in.
    rewrite Forall_forall in IH. intros v Hv%list_elem_of_In. by apply IH.
  - cbn [canon]. rewrite !print_dict, sort_items_idem, sort_items_map, map_map. do 3 f_equal.
    apply map_ext_in. rewrite Forall_forall in IH. intros kv Hkv%list_elem_of_In.
    unfold print_member. cbn [fst snd]. do 2 f_equal. apply IH. by rewrite sort_items_perm in Hkv.
Qed.

Lemma encodable_canon v : encodable (canon v) = encodable v.
Proof.
  induction v as [|b|z|f|s|l IH|d IH] using value_ind_nested; try done; cbn [canon encodable].
  - rewrite forallb_map. by apply forallb_ext_in.
  - rewrite forallb_sort_items, forallb_map. by apply forallb_ext_in.
Qed.

Lemma dumps_canon_same v : dumps (canon v) = dumps v.
Proof. unfold dumps. by rewrite encodable_canon, print_canon. Qed.
End text.

(** ** The order of keys *)

#[global] Instance snap_key_le_refl : Reflexive snap_key_le.
Proof.
  unfold snap_key_le. intros a. induction a as [|x a IH]; cbn; [done|].
  by rewrite bool_decide_true.
Qed.

#[global] Instance snap_key_le_trans : Transitive snap_key_le.
Proof.
  unfold snap_key_le. intros a. induction a as [|x a IH]; intros [|y b] [|z c]; cbn; try done.
  repeat case_bool_decide; subst; try done; [by eauto|..]; intros Ha Hb.
  - exfalso. match goal with Hn : _ <> _ |- _ => apply Hn end. by apply (anti_symm str_le).
  - by apply (str_le_trans _ y).
Qed.

#[global] Instance snap_key_le_total : Total snap_key_le.
Proof.
  unfold snap_key_le. intros a. induction a as [|x a IH]; intros [|y b]; cbn; auto.
  repeat case_bool_decide; subst; try congruence; [apply IH|apply (str_le_total x y)].
Qed.

#[global] Instance snap_key_le_antisymm : AntiSymm (=) snap_key_le.
Proof.
  unfold snap_key_le. intros a. induction a as [|x a IH]; intros [|y b]; cbn; try done.
  repeat case_bool_decide; subst; try congruence.
  - intros ? ?. f_equal. by apply IH.
  - intros ? ?. exfalso. match goal with Hn : _ <> _ |- _ => apply Hn end.
    by apply (anti_symm str_le).
Qed.

Lemma sorted_keys_elem {A} (m : gmap (list string) A) k :
  k ∈ sorted_keys m <-> is_Some (m !! k).
Proof.
  unfold sorted_keys. rewrite merge_sort_Permutation. rewrite list_elem_of_fmap. split.
  - intros ([k' v] & -> & Hin%elem_of_map_to_list). by exists v.
  - intros [v Hv]. exists (k, v). split; [done|]. by apply elem_of_map_to_list.
Qed.

Lemma sorted_keys_nodup {A} (m : gmap (list string) A) : NoDup (sorted_keys m).
Proof. unfold sorted_keys. rewrite merge_sort_Permutation. apply NoDup_fst_map_to_list. Qed.

Lemma sorted_keys_sorted {A} (m : gmap (list string) A) :
  StronglySorted snap_key_le (sorted_keys m).
Proof. apply (StronglySorted_merge_sort snap_key_le). Qed.

(** A sorted list without repetition of the keys is the list of sorted keys. *)
Lemma sorted_keys_unique {A} (m : gmap (list string) A) l :
  StronglySorted snap_key_le l -> NoDup l -> (forall k, k ∈ l <-> is_Some (m !! k)) ->
  sorted_keys m = l.
Proof.
  intros Hs Hn Hl. apply (StronglySorted_unique snap_key_le); [apply sorted_keys_sorted|done|].
  apply NoDup_Permutation; [apply sorted_keys_nodup|done|].
  intros k. by rewrite sorted_keys_elem, Hl.
Qed.

Lemma sorted_keys_fmap {A B} (f : A -> B) (m : gmap (list string) A) :
  sorted_keys (f <$> m) = sorted_keys m.
Proof.
  apply sorted_keys_unique; [apply sorted_keys_sorted|apply sorted_keys_nodup|].
  intros k. rewrite sorted_keys_elem, lookup_fmap. by destruct (m !! k) as [x|]; cbn; rewrite ?is_Some_alt.
Qed.

Lemma Forall2_elem_of_r {A B} (P : A -> B -> Prop) l k y :
  Forall2 P l k -> y ∈ k -> exists x, x ∈ l /\ P x y.
Proof.
  induction 1 as [|x y' l k Hxy Hf IH]; intros Hy; [by apply not_elem_of_nil in Hy|].
  apply elem_of_cons in Hy as [->|Hy]; [exists x; split; [left|done]|].
  destruct (IH Hy) as (x' & ? & ?). exists x'. split; [by right|done].
Qed.

(** ** The canonical form depends on the set of items *)

Section canonical.
  Context `{FloatText} (sha256 : text -> string).

(** [items] holds an item with key [k] and canonical text [t]. *)
Definition has_entry (items : list value) (k : list string) (t : text) : Prop :=
  exists item n, item ∈ items /\ snapshot_entry item = Ok (k, (t, n)).

Lemma snapshot_entry_text item k t n :
  snapshot_entry item = Ok (k, (t, n)) -> dumps n = Ok t.
Proof.
  unfold snapshot_entry. intros He. case_in He; res_inv; repeat (case_match; try done); res_inv.
  all: by simplify_eq.
Qed.

(** What is accumulated: one entry per key, each with its text. *)
Lemma add_entries_map items m0 m :
  fold_res add_entry m0 items = Ok m ->
  (forall k t n, m0 !! k = Some (t, n) -> dumps n = Ok t) ->
  (forall k t n, m !! k = Some (t, n) -> dumps n = Ok t) /\
  (forall k t, fst <$> m !! k = Some t <-> fst <$> m0 !! k = Some t \/ has_entry items k t) /\
  (forall k t, fst <$> m0 !! k = Some t -> forall t', has_entry items k t' -> t' = t) /\
  Forall (fun item => is_ok (snapshot_entry item) = true) items.
Proof.
  revert m0. induction items as [|item items IH]; cbn [fold_res]; intros m0 Hf Hm0.
  - injection Hf as ->. split_and!; try done.
    + intros k t. split; [by left|]. intros [?|(i & n & Hi & _)]; [done|]. by apply not_elem_of_nil in Hi.
    + intros k t _ t' (i & n & Hi & _). by apply not_elem_of_nil in Hi.
  - apply bind_Ok in Hf as (m1 & Ha & Hf). unfold add_entry in Ha.
    apply bind_Ok in Ha as ([k0 [t0 n0]] & He & Ha).
    assert (m1 = <[k0 := (t0, n0)]> m0 /\ (forall t, fst <$> m0 !! k0 = Some t -> t0 = t)) as [-> Hc].
    { destruct (m0 !! k0) as [[t1 n1]|] eqn:E; [case_bool_decide; [|done]|]; injection Ha as <-;
        (split; [done|]); cbn; naive_solver. }
    apply IH in Hf as (H1 & H2 & H3 & H4).
    2: { intros k t n. destruct (decide (k0 = k)) as [->|]; [rewrite lookup_insert_eq|by rewrite lookup_insert_ne by done; eauto].
         intros [= <- <-]. by eapply snapshot_entry_text. }
    split_and!; [done| | |constructor; [by rewrite He|done]].
    + intros k t. rewrite H2. destruct (decide (k0 = k)) as [->|Hne].
      * rewrite lookup_insert_eq. cbn. split.
        -- intros [[= <-]|Hh]; [right; exists item, n0; split; [left|done]|].
           right. destruct Hh as (i & n & Hi & Hn). exists i, n. split; [by right|done].
        -- intros [Ht|(i & n & Hi & Hn)]; [left; f_equal; by apply Hc|].
           apply elem_of_cons in Hi as [->|Hi]; [left; congruence|]. right. by exists i, n.
      * rewrite lookup_insert_ne by done. split.
        -- intros [?|(i & n & Hi & Hn)]; [by left|right]. exists i, n. split; [by right|done].
        -- intros [?|(i & n & Hi & Hn)]; [by left|]. apply elem_of_cons in Hi as [->|Hi]; [congruence|].
           right. by exists i, n.
    + intros k t Ht t' (i & n & Hi & Hn). apply elem_of_cons in Hi as [->|Hi].
      * assert (k = k0) as -> by congruence. apply Hc in Ht. congruence.
      * apply (H3 k t); [|by exists i, n]. destruct (decide (k0 = k)) as [->|Hne].
        -- rewrite lookup_insert_eq. cbn. f_equal. by apply Hc.
        -- by rewrite lookup_insert_ne.
Qed.

(** When the items do not disagree, they are accumulated. *)
Lemma add_entries_Ok items m0 :
  Forall (fun item => is_ok (snapshot_entry item) = true) items ->
  (forall k t t', has_entry items k t -> has_entry items k t' -> t = t') ->
  (forall k t t', has_entry items k t -> fst <$> m0 !! k = Some t' -> t = t') ->
  exists m, fold_res add_entry m0 items = Ok m.
Proof.
  revert m0. induction items as [|item items IH]; intros m0 Hf Hc Hm0; [by eexists|].
  inv Hf as [|? ? Hi Hf']. cbn [fold_res]. unfold add_entry at 2.
  destruct (snapshot_entry item) as [[k [t n]]|] eqn:He; [|done]. cbn [mbind result_bind].
  assert (has_entry (item :: items) k t) as Hkt by (exists item, n; split; [left|done]).
  assert (forall k' t', has_entry items k' t' -> has_entry (item :: items) k' t') as Hsub.
  { intros k' t' (i & n' & Hin & ?). exists i, n'. split; [by right|done]. }
  assert (match m0 !! k with
          | Some (existing, _) =>
              if bool_decide (existing = t) then Ok (<[k:=(t, n)]> m0)
              else Err (ContractError "conflicting duplicate snapshot key")
          | None => Ok (<[k:=(t, n)]> m0)
          end = Ok (E := exc) (<[k:=(t, n)]> m0)) as ->.
  { destruct (m0 !! k) as [[t1 n1]|] eqn:E; [|done]. rewrite bool_decide_true; [done|].
    symmetry. eapply Hm0; [exact Hkt|]. by rewrite E. }
  cbn [mbind result_bind]. apply IH; [done|by eauto|].
  intros k' t1 t2 H1 H2. destruct (decide (k = k')) as [<-|Hne].
  - rewrite lookup_insert_eq in H2. cbn in H2. injection H2 as <-. eauto.
  - rewrite lookup_insert_ne in H2 by done. eauto.
Qed.
(** The normalized form of an item is an item with the same key and text. *)
Lemma snapshot_entry_normalized item k t n :
  snapshot_entry item = Ok (k, (t, n)) -> snapshot_entry n = Ok (k, (t, n)).
Proof.
  unfold snapshot_entry at 1. intros He. destruct item as [| | | | | |d]; try done.
  apply bind_Ok in He as (_ & _ & He). apply bind_Ok in He as (known & Hk & He).
  destruct known; [|done]. destruct (attr "kind" d) as [| | | |kind| |]; try done.
  destruct (attr "body" d) as [| | | | | |body]; try done.
  apply bind_Ok in He as (parts & Hp & He).
  destruct (dumps (snapshot_item kind (VDict body))) as [t'|] eqn:Hd; [|done].
  simplify_eq. unfold snapshot_entry, snapshot_item.
  cbn [in_string_set attr] in Hk. injection Hk as Hk.
  change (fields_are ["kind"; "body"] [("kind", VStr kind); ("body", VDict body)]) with true.
  change (attr "kind" [("kind", VStr kind); ("body", VDict body)]) with (VStr kind).
  change (attr "body" [("kind", VStr kind); ("body", VDict body)]) with (VDict body).
  cbn [negb raise_if mbind result_bind in_string_set]. rewrite Hk, Hp. cbn [mbind result_bind].
  unfold snapshot_item in Hd. by rewrite Hd.
Qed.

(** Items in normal form with strictly increasing keys. *)
Definition normal (items : list value) (keys : list (list string)) : Prop :=
  Forall2 (fun item k => exists t, snapshot_entry item = Ok (k, (t, item))) items keys /\
  StronglySorted snap_key_le keys /\ NoDup keys.

Lemma add_entries_normal items keys m0 :
  Forall2 (fun item k => exists t, snapshot_entry item = Ok (k, (t, item))) items keys ->
  NoDup keys -> Forall (fun k => m0 !! k = None) keys ->
  exists m, fold_res add_entry m0 items = Ok m /\
    (forall k, k ∉ keys -> m !! k = m0 !! k) /\
    Forall2 (fun item k => snd <$> m !! k = Some item) items keys.
Proof.
  intros Hf. revert m0. induction Hf as [|item k items keys [t He] Hf IH]; intros m0 Hn Hm0.
  { exists m0. split_and!; [done|done|constructor]. }
  inv Hn as [|? ? Hk Hn']. inv Hm0 as [|? ? Hk0 Hm0'].
  cbn [fold_res]. unfold add_entry at 2. rewrite He. cbn [mbind result_bind]. rewrite Hk0.
  cbn [mbind result_bind].
  destruct (IH (<[k := (t, item)]> m0) Hn') as (m & Hm & Hout & Hin).
  { rewrite Forall_forall in Hm0' |- *. intros k' Hk'. rewrite lookup_insert_ne; [by apply Hm0'|].
    by intros <-. }
  exists m. split; [done|]. split.
  - intros k' [Hne Hk']%not_elem_of_cons. rewrite Hout by done. by rewrite lookup_insert_ne.
  - constructor; [|done]. rewrite Hout by done. by rewrite lookup_insert_eq.
Qed.

(** The canonical form of items in normal form is those items. *)
Lemma canonical_of_normal items keys :
  normal items keys -> canonical_snapshot_items items = Ok items.
Proof.
  intros (Hf & Hs & Hn). unfold canonical_snapshot_items.
  destruct (add_entries_normal items keys ∅ Hf Hn) as (m & -> & Hout & Hin).
  { apply Forall_forall. intros k _. apply lookup_empty. }
  cbn [mbind result_bind]. f_equal.
  assert (sorted_keys m = keys) as ->.
  { apply sorted_keys_unique; [done..|]. intros k. split.
    - intros Hk. destruct (Forall2_elem_of_r _ _ _ _ Hin Hk) as (x & _ & Hx).
      destruct (m !! k); [by eexists|done].
    - intros [x Hx]. destruct (decide (k ∈ keys)) as [|Hk]; [done|].
      rewrite Hout in Hx by done. by rewrite lookup_empty in Hx. }
  clear -Hin. induction Hin as [|item k items keys Hk Hin IH]; [done|]. cbn. by rewrite Hk, IH.
Qed.

(** The result of the canonical form is in normal form. *)
Lemma canonical_normal items l :
  canonical_snapshot_items items = Ok l -> exists keys, normal l keys.
Proof.
  unfold canonical_snapshot_items. intros (m & Hm & [= <-])%bind_Ok. exists (sorted_keys m).
  assert (forall k t n, m !! k = Some (t, n) -> snapshot_entry n = Ok (k, (t, n))) as Hinv.
  { pattern m. eapply fold_res_ind; [|intros ? ? ?; by rewrite lookup_empty|exact Hm].
    intros m1 item m2 _ IH Ha. unfold add_entry in Ha.
    apply bind_Ok in Ha as ([k0 [t0 n0]] & He & Ha).
    assert (m2 = <[k0 := (t0, n0)]> m1) as ->.
    { destruct (m1 !! k0) as [[]|]; [case_bool_decide; [|done]|]; by injection Ha as <-. }
    intros k t n. destruct (decide (k0 = k)) as [->|].
    - rewrite lookup_insert_eq. intros [= <- <-]. by eapply snapshot_entry_normalized.
    - rewrite lookup_insert_ne by done. apply IH. }
  split; [|split; [apply sorted_keys_sorted|apply sorted_keys_nodup]].
  assert (forall k, k ∈ sorted_keys m -> is_Some (m !! k)) as Hk by (intros; by apply sorted_keys_elem).
  induction (sorted_keys m) as [|k ks IH]; cbn; [constructor|].
  destruct (Hk k) as [[t n] Hkt]; [by left|]. rewrite Hkt. cbn.
  constructor; [exists t; by apply Hinv|]. apply IH. intros; apply Hk; by right.
Qed.

Lemma canonical_idempotent items l :
  canonical_snapshot_items items = Ok l -> canonical_snapshot_items l = Ok l.
Proof. intros [keys Hn]%canonical_normal. by eapply canonical_of_normal. Qed.

(** ** The hash *)

Definition blob (m : gmap (list string) text) : text :=
  "["%char :: join (omap (fun k => m !! k) (sorted_keys m)) ++ ["]"%char].

Lemma print_canonical (m : gmap (list string) (text * value)) keys :
  (forall k t n, m !! k = Some (t, n) -> dumps n = Ok t) ->
  map print (omap (fun k => snd <$> m !! k) keys) = omap (fun k => (fst <$> m) !! k) keys /\
  forallb encodable (omap (fun k => snd <$> m !! k) keys) = true.
Proof.
  intros Hm. induction keys as [|k keys [IH1 IH2]]; [done|]. cbn. rewrite lookup_fmap.
  destruct (m !! k) as [[t n]|] eqn:E; cbn; [|done].
  apply Hm in E. unfold dumps in E. destruct (encodable n); [|done]. injection E as <-.
  by rewrite IH1, IH2.
Qed.

Lemma snapshot_hash_of_map items m :
  fold_res add_entry ∅ items = Ok m ->
  snapshot_set_hash sha256 items = Ok (sha256 (blob (fst <$> m))).
Proof.
  intros Hf. destruct (add_entries_map _ _ _ Hf) as (Hd & _).
  { intros ? ? ?. by rewrite lookup_empty. }
  unfold snapshot_set_hash, canonical_snapshot_items. rewrite Hf. cbn [mbind result_bind].
  destruct (print_canonical m (sorted_keys m) Hd) as [Hp He].
  unfold dumps. cbn [encodable]. rewrite He. unfold blob. rewrite sorted_keys_fmap.
  cbn [print]. by rewrite Hp.
Qed.

(** Two snapshots with the same entries have the same hash. *)
Lemma snapshot_hash_same_entries items items' h :
  snapshot_set_hash sha256 items = Ok h ->
  Forall (fun item => is_ok (snapshot_entry item) = true) items' ->
  (forall k t, has_entry items k t <-> has_entry items' k t) ->
  snapshot_set_hash sha256 items' = Ok h.
Proof.
  intros Hh Hok Hsame.
  assert (exists m, fold_res add_entry ∅ items = Ok m) as [m Hm].
  { unfold snapshot_set_hash, canonical_snapshot_items in Hh.
    apply bind_Ok in Hh as (l & (m & Hm & _)%bind_Ok & _). by exists m. }
  pose proof (snapshot_hash_of_map _ _ Hm) as Hhm.
  destruct (add_entries_map _ _ _ Hm) as (_ & Hent & _ & _).
  { intros ? ? ?. by rewrite lookup_empty. }
  assert (forall k t, fst <$> m !! k = Some t <-> has_entry items k t) as Hent'.
  { intros k t. rewrite Hent, lookup_empty. cbn. naive_solver. }
  destruct (add_entries_Ok items' ∅ Hok) as [m' Hm'].
  { intros k t t' H1 H2. apply Hsame, Hent' in H1, H2. congruence. }
  { intros k t t' _ Ht. by rewrite lookup_empty in Ht. }
  rewrite (snapshot_hash_of_map _ _ Hm'). rewrite Hh in Hhm. injection Hhm as ->.
  do 3 f_equal. apply map_eq. intros k. rewrite !lookup_fmap.
  destruct (add_entries_map _ _ _ Hm') as (_ & Hent2 & _ & _).
  { intros ? ? ?. by rewrite lookup_empty. }
  apply option_eq. intros t. rewrite Hent', Hent2, lookup_empty, Hsame. cbn. naive_solver.
Qed.
End canonical.
