(* ===== verification/NodeChannel.v ===== *)
(** The rank side of the control channel (class NodeChannel of
    control/transport.py): registration, snapshots, heartbeats, commands and their
    results. An operation runs on the channel's state and on what the peer and the
    socket do ([incoming], and whether the drain after a write returns), and returns the
    envelopes it handed to the transport. The timing limits of the acknowledgment are kept as the
    dictionary the caller reads; the channel itself uses only the four counts. *)

From S2P Require Import Prelude PyValue Json JsonProps Envelopes EnvelopesProps Frames Contracts Snapshots.

(** Constants of the module. *)
Definition MAX_COMMAND_RECORDS : nat := N.to_nat 4096.
Definition MAX_PENDING_HEAD_COMMANDS : nat := 256.
Definition SUPERVISOR_RANK : Z := -1.

(** What leaves an operation besides its result. *)
Inductive chan_error :=
| ConnectionError (message : string)
| TimeoutError
| Raised (e : exc).

(** The outcome of waiting for one frame of the head. *)
Inductive incoming :=
| InEnvelope (e : Envelope.t)
| InTimeout
| InClosed
| InRejected (x : exc)
| InDeadline.

Module NodeChannel.
Record t := mk {
  secret : text;
  deployment_id : string;
  plan_hash : string;
  generation : Z;
  rank : Z;
  node_id : string;
  has_writer : bool;
  has_reader : bool;
  seq : Z;
  head_seq : Z;
  max_frame_bytes : Z;
  max_snapshot_chunks : Z;
  max_snapshot_bytes : Z;
  max_snapshot_items : Z;
  control_limits : dict;
  snapshot_hashes : gmap string string;
  pending_head_commands : list dict;
  received_commands : gmap string dict;
  command_results : gmap string dict;
  heartbeat_counter : Z
}.

Definition set_connection (w r : bool) (c : t) : t :=
  mk (secret c) (deployment_id c) (plan_hash c) (generation c) (rank c) (node_id c) w r (seq c)
     (head_seq c) (max_frame_bytes c) (max_snapshot_chunks c) (max_snapshot_bytes c)
     (max_snapshot_items c) (control_limits c) (snapshot_hashes c) (pending_head_commands c)
     (received_commands c) (command_results c) (heartbeat_counter c).
Definition set_seq (n : Z) (c : t) : t :=
  mk (secret c) (deployment_id c) (plan_hash c) (generation c) (rank c) (node_id c) (has_writer c)
     (has_reader c) n (head_seq c) (max_frame_bytes c) (max_snapshot_chunks c)
     (max_snapshot_bytes c) (max_snapshot_items c) (control_limits c) (snapshot_hashes c)
     (pending_head_commands c) (received_commands c) (command_results c) (heartbeat_counter c).
Definition set_head_seq (n : Z) (c : t) : t :=
  mk (secret c) (deployment_id c) (plan_hash c) (generation c) (rank c) (node_id c) (has_writer c)
     (has_reader c) (seq c) n (max_frame_bytes c) (max_snapshot_chunks c)
     (max_snapshot_bytes c) (max_snapshot_items c) (control_limits c) (snapshot_hashes c)
     (pending_head_commands c) (received_commands c) (command_results c) (heartbeat_counter c).
Definition set_limits (frame chunks bytes items : Z) (limits : dict) (c : t) : t :=
  mk (secret c) (deployment_id c) (plan_hash c) (generation c) (rank c) (node_id c) (has_writer c)
     (has_reader c) (seq c) (head_seq c) frame chunks bytes items limits (snapshot_hashes c)
     (pending_head_commands c) (received_commands c) (command_results c) (heartbeat_counter c).
Definition set_snapshot_hashes (m : gmap string string) (c : t) : t :=
  mk (secret c) (deployment_id c) (plan_hash c) (generation c) (rank c) (node_id c) (has_writer c)
     (has_reader c) (seq c) (head_seq c) (max_frame_bytes c) (max_snapshot_chunks c)
     (max_snapshot_bytes c) (max_snapshot_items c) (control_limits c) m
     (pending_head_commands c) (received_commands c) (command_results c) (heartbeat_counter c).
Definition set_pending (l : list dict) (c : t) : t :=
  mk (secret c) (deployment_id c) (plan_hash c) (generation c) (rank c) (node_id c) (has_writer c)
     (has_reader c) (seq c) (head_seq c) (max_frame_bytes c) (max_snapshot_chunks c)
     (max_snapshot_bytes c) (max_snapshot_items c) (control_limits c) (snapshot_hashes c)
     l (received_commands c) (command_results c) (heartbeat_counter c).
Definition set_received (m : gmap string dict) (c : t) : t :=
  mk (secret c) (deployment_id c) (plan_hash c) (generation c) (rank c) (node_id c) (has_writer c)
     (has_reader c) (seq c) (head_seq c) (max_frame_bytes c) (max_snapshot_chunks c)
     (max_snapshot_bytes c) (max_snapshot_items c) (control_limits c) (snapshot_hashes c)
     (pending_head_commands c) m (command_results c) (heartbeat_counter c).
Definition set_results (m : gmap string dict) (c : t) : t :=
  mk (secret c) (deployment_id c) (plan_hash c) (generation c) (rank c) (node_id c) (has_writer c)
     (has_reader c) (seq c) (head_seq c) (max_frame_bytes c) (max_snapshot_chunks c)
     (max_snapshot_bytes c) (max_snapshot_items c) (control_limits c) (snapshot_hashes c)
     (pending_head_commands c) (received_commands c) m (heartbeat_counter c).
Definition set_heartbeat (n : Z) (c : t) : t :=
  mk (secret c) (deployment_id c) (plan_hash c) (generation c) (rank c) (node_id c) (has_writer c)
     (has_reader c) (seq c) (head_seq c) (max_frame_bytes c) (max_snapshot_chunks c)
     (max_snapshot_bytes c) (max_snapshot_items c) (control_limits c) (snapshot_hashes c)
     (pending_head_commands c) (received_commands c) (command_results c) n.

(** The constructor's checks on typed arguments, and the initial state. *)
Definition init (host : string) (port : Z) (secret : text) (deployment_id plan_hash : string)
    (generation rank : Z) (node_id : string) (frame chunks bytes items : Z) : option t :=
  if nonempty host && (1 <=? port) && (port <=? 65535) && (length secret =? 32)%nat &&
     nonempty deployment_id && nonempty plan_hash && (0 <=? generation) && (0 <=? rank) &&
     nonempty node_id
  then Some (mk secret deployment_id plan_hash generation rank node_id false false 0 0
               frame chunks bytes items [] ∅ [] ∅ ∅ 0)
  else None.

(** ** Computations on the channel *)

(** State, written envelopes, and a result or an exception. *)
Definition M (A : Type) : Type := t -> t * list Envelope.t * result chan_error A.

#[global] Instance M_ret : MRet M := fun A a c => (c, [], Ok a).
#[global] Instance M_bind : MBind M := fun A B f m c =>
  match m c with
  | (c1, out1, Ok a) => let '(c2, out2, r) := f a c1 in (c2, out1 ++ out2, r)
  | (c1, out1, Err e) => (c1, out1, Err e)
  end.

Definition get : M t := fun c => (c, [], Ok c).
Definition modify (f : t -> t) : M unit := fun c => (f c, [], Ok tt).
Definition raise {A} (e : chan_error) : M A := fun c => (c, [], Err e).
Definition contract {A} (message : string) : M A := raise (Raised (ContractError message)).
Definition lift {A} (r : result exc A) : M A :=
  fun c => (c, [], match r with Ok a => Ok a | Err e => Err (Raised e) end).
Definition emit (e : Envelope.t) : M unit := fun c => (c, [e], Ok tt).
Definition when (b : bool) (m : M unit) : M unit := if b then m else mret tt.

Section operations.
  Context `{FloatText} (mac : text -> text -> text) (sha256 : text -> string).

(** [_env]: the sequence number advances before the envelope is encoded. *)
Definition env (kind : EnvelopeKind) (payload : dict) : M Envelope.t :=
  _ ← modify (fun c => set_seq (seq c + 1) c);
  c ← get;
  mret (Envelope.mk kind (deployment_id c) (plan_hash c) (generation c) (rank c) (node_id c)
          (seq c) payload).

(** [write_frame] on the socket: an envelope that encodes is handed to the transport
    before [drain] is awaited, so it may reach the peer although [drain] raises;
    [drained] says whether it does not. *)
Definition put_frame (drained : bool) (e : Envelope.t) : M unit :=
  c ← get;
  _ ← lift (write_frame mac (secret c) (max_frame_bytes c) e);
  _ ← emit e;
  when (negb drained) (raise (ConnectionError "socket write failed")).

Definition write (sent : bool) (kind : EnvelopeKind) (payload : dict) : M unit :=
  c ← get;
  _ ← when (negb (has_writer c)) (raise (ConnectionError "control channel is not connected"));
  e ← env kind payload;
  put_frame sent e.

Definition validate_head_envelope (e : Envelope.t) : M unit :=
  c ← get;
  _ ← when (negb (bool_decide (Envelope.deployment_id e = deployment_id c)) ||
            negb (bool_decide (Envelope.plan_hash e = plan_hash c)) ||
            negb (Envelope.generation e =? generation c) ||
            negb (Envelope.sender_rank e =? SUPERVISOR_RANK))
        (contract "supervisor envelope identity mismatch");
  _ ← when (Envelope.seq e <=? head_seq c) (contract RejectReason.SEQUENCE_REGRESSION);
  modify (set_head_seq (Envelope.seq e)).

Definition read_head_envelope (input : incoming) : M Envelope.t :=
  c ← get;
  _ ← when (negb (has_reader c)) (raise (ConnectionError "control channel is not connected"));
  match input with
  | InTimeout | InDeadline => raise TimeoutError
  | InClosed => raise (ConnectionError "supervisor control channel closed")
  | InRejected x => raise (Raised x)
  | InEnvelope e => _ ← validate_head_envelope e; mret e
  end.

(** ** Registration *)

Definition ACK_FIELDS : list string :=
  ["payload_version"; "command_id"; "operation"; "ok"; "control_limits"].
Definition TIMING_LIMITS : list string :=
  ["registration_deadline_s"; "heartbeat_interval_s"; "lease_timeout_s"; "reconnect_grace_s";
   "snapshot_assembly_deadline_s"; "watchdog_cleanup_deadline_s"].
Definition COUNT_LIMITS : list string :=
  ["max_frame_bytes"; "max_snapshot_chunks"; "max_snapshot_bytes"; "max_snapshot_items"].

(** A positive finite number; [float()] of a huge integer raises. *)
Definition timing_limit (limits : dict) (name : string) : result exc bool :=
  let v := attr name limits in
  if is_number v then
    f ← to_float OverflowError v;
    Ok (Float.is_finite f && match num_compare v (VInt 0) with Some Gt => true | _ => false end)
  else Ok false.

Definition count_limit (limits : dict) (name : string) : option Z :=
  match attr name limits with VInt z => if 0 <? z then Some z else None | _ => None end.

(** [any(... for key in timing)], stopping at the first bad limit. *)
Fixpoint all_timing (limits : dict) (names : list string) : result exc bool :=
  match names with
  | [] => Ok true
  | name :: names' =>
      match timing_limit limits name with
      | Ok true => all_timing limits names'
      | r => r
      end
  end.

Definition INVALID_LIMITS : string := "registration acknowledgment has invalid control limits".

Definition accept_limits (limits : dict) : M unit :=
  _ ← when (negb (fields_are (TIMING_LIMITS ++ COUNT_LIMITS) limits)) (contract INVALID_LIMITS);
  timing ← lift (all_timing limits TIMING_LIMITS);
  _ ← when (negb timing) (contract INVALID_LIMITS);
  match mapM (count_limit limits) COUNT_LIMITS with
  | Some [frame; chunks; bytes; items] => modify (set_limits frame chunks bytes items limits)
  | _ => contract INVALID_LIMITS
  end.

Definition accept_registration (ack : Envelope.t) : M unit :=
  _ ← validate_head_envelope ack;
  let payload := Envelope.payload ack in
  _ ← when (negb (bool_decide (Envelope.kind ack = COMMAND_RESULT) &&
                  fields_are ACK_FIELDS payload && is_payload_version_one payload &&
                  is_str "REGISTER" (attr "operation" payload) &&
                  is_str "register" (attr "command_id" payload) &&
                  match attr "ok" payload with VBool true => true | _ => false end))
        (contract "registration not acknowledged");
  match attr "control_limits" payload with
  | VDict limits => accept_limits limits
  | _ => contract "registration acknowledgment omitted control limits"
  end.

(** [connect_and_register]: [cleaned] says whether closing a previous connection
    succeeded, [opened] whether the new one could be opened. *)
Definition connect_and_register (instance_id : string) (cleaned opened sent : bool)
    (input : incoming) : M unit :=
  c ← get;
  _ ← when (has_writer c)
        (_ ← modify (set_connection false false);
         when (negb cleaned) (raise (ConnectionError "previous control connection cleanup failed")));
  _ ← when (negb opened) (raise (ConnectionError "connection could not be opened"));
  _ ← modify (set_connection true true);
  e ← env REGISTER
        [("payload_version", VInt 1);
         ("instance_id", VStr (if nonempty instance_id then instance_id
                               else node_id c +:+ ":supervisor"))];
  _ ← put_frame sent e;
  match input with
  | InTimeout | InDeadline => raise TimeoutError
  | InClosed => raise (ConnectionError "supervisor control channel closed")
  | InRejected x => raise (Raised x)
  | InEnvelope ack => accept_registration ack
  end.

(** ** Observations, receipts and snapshots *)

Definition send_observation (sent : bool) (o : ComponentObservation.t) (receipt : option dict)
    : M unit :=
  write sent OBSERVATION
    ([("payload_version", VInt 1); ("observation", VDict (ComponentObservation.to_dict o))] ++
     match receipt with Some r => [("compatibility_receipt", VDict r)] | None => [] end).

Definition send_receipt (sent : bool) (payload : dict) : M unit :=
  write sent RECEIPT [("payload_version", VInt 1); ("receipt", VDict payload)].

(** [items[i : i + n] for i in range(0, len(items), n)] *)
Fixpoint slices (fuel n : nat) (l : list value) : list (list value) :=
  match fuel, l with
  | O, _ | _, [] => []
  | S f, _ => take n l :: slices f n (drop n l)
  end.

Definition chunks_of (n : nat) (l : list value) : list (list value) :=
  match slices (length l) n l with [] => [[]] | cs => cs end.

Definition item_kind (item : value) : value :=
  match item with VDict d => attr "kind" d | _ => VNone end.
Definition item_body (item : value) : value :=
  match item with VDict d => attr "body" d | _ => VNone end.

(** [[i["body"] for i in chunk if i["kind"] == kind]] *)
Definition bodies (kind : string) (chunk : list value) : list value :=
  map item_body (List.filter (fun i => is_str kind (item_kind i)) chunk).

Definition chunk_payload (snapshot_id complete_hash : string) (count index : Z)
    (chunk : list value) : dict :=
  [("payload_version", VInt 1); ("snapshot_id", VStr snapshot_id); ("chunk_index", VInt index);
   ("chunk_count", VInt count); ("complete_set_hash", VStr complete_hash);
   ("observations", VList (bodies "observation" chunk));
   ("compatibility_receipts", VList (bodies "receipt" chunk))].

Definition chunk_payloads (snapshot_id complete_hash : string) (chunks : list (list value))
    : list dict :=
  imap (fun index chunk =>
    chunk_payload snapshot_id complete_hash (Z.of_nat (length chunks)) (Z.of_nat index) chunk) chunks.

(** [for ... in enumerate(chunks): await self._write(SNAPSHOT, ...)]; the drain of
    chunk number [k] returns when [k < sent]. *)
Fixpoint write_chunks (sent : nat) (payloads : list dict) : M unit :=
  match payloads with
  | [] => mret tt
  | p :: ps => _ ← write (0 <? sent)%nat SNAPSHOT p; write_chunks (pred sent) ps
  end.

Definition snapshot_items (observations : list ComponentObservation.t) (receipts : list dict)
    : list value :=
  map (fun o => snapshot_item "observation" (VDict (ComponentObservation.to_dict o))) observations ++
  map (fun r => snapshot_item "receipt" (VDict r)) receipts.

Definition send_snapshot (sent : nat) (observations : list ComponentObservation.t)
    (receipts : list dict) (snapshot_id : string) (chunk_items : Z) : M string :=
  items ← lift (canonical_snapshot_items (snapshot_items observations receipts));
  complete_hash ← lift (snapshot_set_hash sha256 items);
  c ← get;
  let sid := if nonempty snapshot_id then snapshot_id
             else "snap-" +:+ str_Z (rank c) +:+ "-" +:+ String.substring 0 12 complete_hash in
  _ ← when (chunk_items <? 1) (contract "chunk_items must be positive");
  _ ← when (max_snapshot_items c <? Z.of_nat (length items))
        (contract "snapshot exceeds max_snapshot_items");
  encoded ← lift (match dumps (VList items) with Ok b => Ok b | Err _ => Err ValueError end);
  _ ← when (max_snapshot_bytes c <? Z.of_nat (length encoded))
        (contract "snapshot exceeds max_snapshot_bytes");
  let chunks := chunks_of (Z.to_nat chunk_items) items in
  _ ← when (max_snapshot_chunks c <? Z.of_nat (length chunks))
        (contract "snapshot exceeds max_snapshot_chunks");
  _ ← match snapshot_hashes c !! sid with
      | Some previous =>
          when (negb (bool_decide (previous = complete_hash)))
            (contract "snapshot_id was already used differently")
      | None =>
          _ ← when (negb (bool_decide (snapshot_hashes c = ∅)))
                (contract "only one local snapshot may be in flight");
          modify (set_snapshot_hashes (<[sid := complete_hash]> (snapshot_hashes c)))
      end;
  _ ← write_chunks sent (chunk_payloads sid complete_hash chunks);
  mret sid.

(** ** Commands *)

(** [dict(a) == dict(b)] *)
Definition dict_eqb (a b : dict) : bool := py_eqb (VDict a) (VDict b).

Definition remember_received_command (command : dict) : M dict :=
  c ← get;
  match attr "command_id" command with
  | VStr command_id =>
      match received_commands c !! command_id with
      | Some previous =>
          _ ← when (negb (dict_eqb previous command)) (contract "conflicting duplicate COMMAND");
          mret previous
      | None =>
          _ ← when (MAX_COMMAND_RECORDS <=? size (received_commands c))%nat
                (contract "rank command identity capacity exhausted; refusing a novel command");
          _ ← modify (set_received (<[command_id := command]> (received_commands c)));
          mret command
      end
  | _ => raise (Raised TypeError)
  end.

Definition queue_head_command (payload : value) : M unit :=
  command ← lift (validate_command_payload payload);
  c ← get;
  _ ← when (MAX_PENDING_HEAD_COMMANDS <=? length (pending_head_commands c))%nat
        (contract "pending supervisor command queue capacity exhausted");
  modify (set_pending (pending_head_commands c ++ [command])).

(** [receive_command]: [None] on timeout. *)
Definition receive_command (input : incoming) : M (option dict) :=
  c ← get;
  match pending_head_commands c with
  | command :: rest =>
      _ ← modify (set_pending rest);
      command ← lift (validate_command_payload (VDict command));
      remembered ← remember_received_command command;
      mret (Some remembered)
  | [] =>
      match input with
      | InTimeout | InDeadline =>
          _ ← when (negb (has_reader c)) (raise (ConnectionError "control channel is not connected"));
          mret None
      | _ =>
          e ← read_head_envelope input;
          _ ← when (negb (bool_decide (Envelope.kind e = COMMAND)))
                (contract ("expected COMMAND, received " +:+ kind_value (Envelope.kind e)));
          command ← lift (validate_command_payload (VDict (Envelope.payload e)));
          remembered ← remember_received_command command;
          mret (Some remembered)
      end
  end.

Definition RESULT_RESERVED : list string := RESULT_FIELDS.

(** [send_command_result]; [extra] are the additional keyword arguments. *)
Definition send_command_result (sent : bool) (command_id : string) (ok : bool) (detail : string)
    (operation : string) (status : option string) (extra : dict) : M unit :=
  _ ← when (negb (nonempty command_id))
        (contract "command result command_id must be a nonempty string");
  _ ← when (negb (nonempty operation))
        (contract "command result operation must be a nonempty string");
  _ ← when (match status with Some s => negb (bool_decide (s ∈ ["SUCCEEDED"; "FAILED"])) | None => false end)
        (contract "command result status is unsupported");
  _ ← when (existsb (fun k => bool_decide (k ∈ RESULT_RESERVED)) (dkeys extra))
        (contract "command result payload cannot replace reserved fields");
  let body := dupdate
    [("payload_version", VInt 1); ("command_id", VStr command_id); ("operation", VStr operation);
     ("ok", VBool ok); ("detail", VStr detail);
     ("status", VStr (default (if ok then "SUCCEEDED" else "FAILED") status))] extra in
  c ← get;
  match received_commands c !! command_id with
  | None => contract "cannot answer unreceived command"
  | Some request =>
      _ ← when (negb (py_eqb (attr "operation" request) (VStr operation)))
            (contract "command result operation disagrees with received command");
      _ ← when (bool_decide (operation = "SNAPSHOT_ACCEPTED") &&
                existsb (fun key => negb (py_eqb (attr key request) (attr key body))) SNAPSHOT_FIELDS)
            (contract "snapshot command result identity disagrees with received command");
      validated ← lift (validate_command_result_payload (VDict body));
      _ ← match command_results c !! command_id with
          | Some previous =>
              when (negb (dict_eqb previous validated)) (contract "conflicting result for command")
          | None =>
              when (MAX_COMMAND_RECORDS <=? size (command_results c))%nat
                (contract "rank command-result capacity exhausted")
          end;
      _ ← write sent COMMAND_RESULT validated;
      modify (fun c => set_results (<[command_id := validated]> (command_results c)) c)
  end.

Definition replay_command_result (sent : bool) (command : dict) : M bool :=
  c ← get;
  match nonempty_str (attr "command_id" command) with
  | None => contract "command replay requires a nonempty command_id"
  | Some command_id =>
      match command_results c !! command_id with
      | None => mret false
      | Some result =>
          _ ← when (match received_commands c !! command_id with
                    | Some previous => negb (dict_eqb previous command)
                    | None => true
                    end) (contract "conflicting duplicate COMMAND");
          _ ← write sent COMMAND_RESULT result;
          mret true
      end
  end.

Definition await_snapshot_accepted (sent : bool) (snapshot_id : string) (input : incoming) : M bool :=
  c ← get;
  match snapshot_hashes c !! snapshot_id with
  | None => contract "unknown local snapshot"
  | Some expected_hash =>
      received ← receive_command input;
      match received with
      | None => mret false
      | Some command =>
          let expected := [("payload_version", VInt 1); ("operation", VStr "SNAPSHOT_ACCEPTED");
                           ("snapshot_id", VStr snapshot_id);
                           ("complete_set_hash", VStr expected_hash)] in
          match nonempty_str (attr "command_id" command) with
          | Some command_id =>
              _ ← when (existsb (fun kv => negb (py_eqb (attr kv.1 command) kv.2)) expected)
                    (contract "SNAPSHOT_ACCEPTED command mismatch");
              _ ← send_command_result sent command_id true "" "SNAPSHOT_ACCEPTED" (Some "SUCCEEDED")
                    [("snapshot_id", VStr snapshot_id); ("complete_set_hash", VStr expected_hash)];
              _ ← modify (fun c => set_snapshot_hashes (delete snapshot_id (snapshot_hashes c)) c);
              mret true
          | None => contract "SNAPSHOT_ACCEPTED command mismatch"
          end
      end
  end.

(** ** Heartbeats and closing *)

Definition next_heartbeat : M string :=
  _ ← modify (fun c => set_heartbeat (heartbeat_counter c + 1) c);
  c ← get;
  mret (str_Z (rank c) +:+ ":" +:+ str_Z (heartbeat_counter c)).

Definition heartbeat_payload (id : string) : dict :=
  [("payload_version", VInt 1); ("heartbeat_id", VStr id)].

Definition send_heartbeat (sent : bool) : M unit :=
  id ← next_heartbeat; write sent HEARTBEAT (heartbeat_payload id).

(** The waiting loop: commands that arrive first are queued. An input list that ends
    means the wait is still going on. *)
Fixpoint await_heartbeat (id : string) (inputs : list incoming) : M (option bool) :=
  match inputs with
  | [] => mret None
  | InDeadline :: _ => mret (Some false)
  | input :: inputs' =>
      e ← read_head_envelope input;
      match Envelope.kind e with
      | COMMAND =>
          _ ← queue_head_command (VDict (Envelope.payload e));
          await_heartbeat id inputs'
      | HEARTBEAT =>
          if fields_are ["payload_version"; "heartbeat_id"] (Envelope.payload e) &&
             is_payload_version_one (Envelope.payload e) &&
             is_str id (attr "heartbeat_id" (Envelope.payload e))
          then mret (Some true)
          else contract "unexpected HEARTBEAT during heartbeat"
      | k => contract ("unexpected " +:+ kind_value k +:+ " during heartbeat")
      end
  end.

Definition heartbeat_round_trip (sent : bool) (inputs : list incoming) : M (option bool) :=
  id ← next_heartbeat;
  _ ← write sent HEARTBEAT (heartbeat_payload id);
  await_heartbeat id inputs.

Definition drop_connection : M unit :=
  modify (fun c => if has_writer c then set_connection false (has_reader c) c else c).

(** [close]: both steps are attempted, a failure of either is reported at the end. *)
Definition close (expected sent closed : bool) : M unit := fun c =>
  if has_writer c then
    let '(c1, out, r) :=
      if expected then write sent GOODBYE [("payload_version", VInt 1)] c else (c, [], Ok tt) in
    let c2 := set_connection false false c1 in
    match r with
    | Err (ConnectionError _) => (c2, out, Err (ConnectionError "GOODBYE delivery failed"))
    | Err (Raised x) =>
        if is_contract_error x then (c2, out, Err (ConnectionError "GOODBYE delivery failed"))
        else (c1, out, Err (Raised x))
    | Err TimeoutError => (c1, out, Err TimeoutError)
    | Ok _ =>
        if closed then (c2, out, Ok tt)
        else (c2, out, Err (ConnectionError "connection close failed"))
    end
  else (c, [], Ok tt).
End operations.
End NodeChannel.
