(* ===== verification/Listener.v ===== *)
(** The head side of the control channel (class ControlListener of
    control/transport.py).

    A connection is a number; the session object that a connection's handler and the
    table [sessions] share is kept in a store under that number, so that aliasing is
    explicit. One turn of a handler, from a received envelope to its next read, is
    one computation; what the caller's callbacks answer and whether the socket takes
    a frame are the [answers] of that turn. Interpolated values in audit details are
    left out. *)

From S2P Require Import Prelude PyValue Json JsonProps Envelopes EnvelopesProps Frames Contracts Snapshots NodeChannel.

Definition MAX_DEDUP_KEYS : nat := N.to_nat 4096.
Definition MAX_AUDIT_RECORDS : nat := N.to_nat 1000.
Definition MAX_COMPONENTS_PER_RANK : nat := 64.

Definition dedup_key : Type := string * Z * string * string * Z.

(** ** Session objects *)

Module SessionInfo.
Record t := mk {
  rank : Z;
  node_id : string;
  registered : bool;
  established : bool;
  instance_id : string;
  pending_snapshot_id : string;
  pending_snapshot_hash : string;
  pending_snapshot_command_id : string;
  expected_goodbye : bool;
  last_seq : Z;
  seen_obs : list (dedup_key * string);
  last_component_seq : gmap (string * string) Z;
  component_instances : gmap string string;
  last_seen_at : float
}.

(** The object that registration creates. *)
Definition fresh (rank : Z) (node_id instance_id : string) (seq : Z) (now : float) : t :=
  mk rank node_id true false instance_id "" "" "" false seq [] ∅ ∅ now.

Definition set_registered (b : bool) (s : t) : t :=
  mk (rank s) (node_id s) b (established s) (instance_id s) (pending_snapshot_id s)
     (pending_snapshot_hash s) (pending_snapshot_command_id s) (expected_goodbye s) (last_seq s)
     (seen_obs s) (last_component_seq s) (component_instances s) (last_seen_at s).
Definition set_established (b : bool) (s : t) : t :=
  mk (rank s) (node_id s) (registered s) b (instance_id s) (pending_snapshot_id s)
     (pending_snapshot_hash s) (pending_snapshot_command_id s) (expected_goodbye s) (last_seq s)
     (seen_obs s) (last_component_seq s) (component_instances s) (last_seen_at s).
Definition set_pending (sid hash cmd : string) (s : t) : t :=
  mk (rank s) (node_id s) (registered s) (established s) (instance_id s) sid hash cmd
     (expected_goodbye s) (last_seq s)
     (seen_obs s) (last_component_seq s) (component_instances s) (last_seen_at s).
Definition set_expected_goodbye (b : bool) (s : t) : t :=
  mk (rank s) (node_id s) (registered s) (established s) (instance_id s) (pending_snapshot_id s)
     (pending_snapshot_hash s) (pending_snapshot_command_id s) b (last_seq s)
     (seen_obs s) (last_component_seq s) (component_instances s) (last_seen_at s).
Definition set_last_seq (n : Z) (s : t) : t :=
  mk (rank s) (node_id s) (registered s) (established s) (instance_id s) (pending_snapshot_id s)
     (pending_snapshot_hash s) (pending_snapshot_command_id s) (expected_goodbye s) n
     (seen_obs s) (last_component_seq s) (component_instances s) (last_seen_at s).
Definition set_components (seen : list (dedup_key * string)) (seqs : gmap (string * string) Z)
    (instances : gmap string string) (s : t) : t :=
  mk (rank s) (node_id s) (registered s) (established s) (instance_id s) (pending_snapshot_id s)
     (pending_snapshot_hash s) (pending_snapshot_command_id s) (expected_goodbye s) (last_seq s)
     seen seqs instances (last_seen_at s).
Definition set_last_seen_at (x : float) (s : t) : t :=
  mk (rank s) (node_id s) (registered s) (established s) (instance_id s) (pending_snapshot_id s)
     (pending_snapshot_hash s) (pending_snapshot_command_id s) (expected_goodbye s) (last_seq s)
     (seen_obs s) (last_component_seq s) (component_instances s) x.

Definition seen_get (key : dedup_key) (l : list (dedup_key * string)) : option string :=
  snd <$> List.find (fun kf => bool_decide (kf.1 = key)) l.

(** [while len(seen_obs) > _MAX_DEDUP_KEYS: popitem(last=False)] *)
Definition trim_seen (l : list (dedup_key * string)) : list (dedup_key * string) :=
  drop (length l - MAX_DEDUP_KEYS) l.

(** [remember]: the new memory and whether the key is novel. *)
Definition remember (key : dedup_key) (fingerprint : string) (l : list (dedup_key * string))
    : result exc (list (dedup_key * string) * bool) :=
  match seen_get key l with
  | Some existing =>
      if bool_decide (existing = fingerprint) then Ok (l, false)
      else Err (ContractError "conflicting duplicate observation payload")
  | None => Ok (trim_seen (l ++ [(key, fingerprint)]), true)
  end.
End SessionInfo.

Record AuditRecord := Audit {
  au_reason : string; au_detail : string; au_rank : option Z; au_node : option string
}.

(** The last [n] elements, as [del l[: len(l) - n]] keeps them. *)
Definition keep_last {A} (n : nat) (l : list A) : list A := drop (length l - n) l.

(** ** What a turn shows to the outside: frames and calls of the callbacks. An
    observation is labelled with the connection it came over. *)

Inductive output :=
| OWrite (conn : nat) (e : Envelope.t)
| OSession (rank : Z) (connected : bool)
| OObservation (conn : nat) (rank : Z) (o : ComponentObservation.t)
| OReceipt (rank : Z) (receipt : dict)
| ORegister (rank : Z) (node instance : string)
| OSnapshot (rank : Z) (snapshot_id complete_hash : string) (items : list value)
| OSnapshotAck (rank : Z) (payload : dict)
| OViolation (rank : Z) (reason detail : string)
| OHeartbeat (rank : Z).

(** What the environment does during one turn: the clock, the answer of the decision
    callback, what the sinks do, and whether the socket takes frames. *)
Record answers := Answers {
  an_now : float;
  an_decision : result exc (bool * string);
  an_observation : result exc unit;
  an_receipt : result exc unit;
  an_heartbeat : result exc unit;
  an_violation : result exc unit;
  an_session : result exc unit;
  an_sent : bool
}.

Module ControlListener.
(** Fixed by the constructor. *)
Record config := Config {
  deployment_id : string;
  plan_hash : string;
  generation : Z;
  expected_ranks : Z;
  secret : text;
  limits : ControlLimits.t;
  expected_nodes : gmap Z string;
  has_on_snapshot : bool
}.

Definition config_ok (c : config) : bool :=
  nonempty (deployment_id c) && nonempty (plan_hash c) && (0 <=? generation c) &&
  (1 <=? expected_ranks c) && (length (secret c) =? 32)%nat &&
  forallb (fun rn => (0 <=? rn.1) && (rn.1 <? expected_ranks c) && nonempty rn.2)
    (map_to_list (expected_nodes c)).

Record t := mk {
  objects : gmap nat SessionInfo.t;
  sessions : gmap Z nat;
  writers : gmap Z nat;
  command_results : gmap string dict;
  issued_commands : gmap string (Z * dict);
  snapshots : gmap Z assembly;
  nodes_by_rank : gmap Z string;
  audit : list AuditRecord;
  all_authenticated : bool;
  all_established : bool;
  out_seq : gmap Z Z;
  connections : gset nat;
  received_goodbyes : gset Z;
  handler_failures : list (option Z * exc)
}.

Definition init : t := mk ∅ ∅ ∅ ∅ ∅ ∅ ∅ [] false false ∅ ∅ ∅ [].

Definition set_objects (x : gmap nat SessionInfo.t) (s : t) : t :=
  mk x (sessions s) (writers s) (command_results s) (issued_commands s) (snapshots s)
     (nodes_by_rank s) (audit s) (all_authenticated s) (all_established s) (out_seq s)
     (connections s) (received_goodbyes s) (handler_failures s).
Definition set_sessions (x : gmap Z nat) (s : t) : t :=
  mk (objects s) x (writers s) (command_results s) (issued_commands s) (snapshots s)
     (nodes_by_rank s) (audit s) (all_authenticated s) (all_established s) (out_seq s)
     (connections s) (received_goodbyes s) (handler_failures s).
Definition set_writers (x : gmap Z nat) (s : t) : t :=
  mk (objects s) (sessions s) x (command_results s) (issued_commands s) (snapshots s)
     (nodes_by_rank s) (audit s) (all_authenticated s) (all_established s) (out_seq s)
     (connections s) (received_goodbyes s) (handler_failures s).
Definition set_command_results (x : gmap string dict) (s : t) : t :=
  mk (objects s) (sessions s) (writers s) x (issued_commands s) (snapshots s)
     (nodes_by_rank s) (audit s) (all_authenticated s) (all_established s) (out_seq s)
     (connections s) (received_goodbyes s) (handler_failures s).
Definition set_issued_commands (x : gmap string (Z * dict)) (s : t) : t :=
  mk (objects s) (sessions s) (writers s) (command_results s) x (snapshots s)
     (nodes_by_rank s) (audit s) (all_authenticated s) (all_established s) (out_seq s)
     (connections s) (received_goodbyes s) (handler_failures s).
Definition set_snapshots (x : gmap Z assembly) (s : t) : t :=
  mk (objects s) (sessions s) (writers s) (command_results s) (issued_commands s) x
     (nodes_by_rank s) (audit s) (all_authenticated s) (all_established s) (out_seq s)
     (connections s) (received_goodbyes s) (handler_failures s).
Definition set_nodes_by_rank (x : gmap Z string) (s : t) : t :=
  mk (objects s) (sessions s) (writers s) (command_results s) (issued_commands s) (snapshots s)
     x (audit s) (all_authenticated s) (all_established s) (out_seq s)
     (connections s) (received_goodbyes s) (handler_failures s).
Definition set_audit (x : list AuditRecord) (s : t) : t :=
  mk (objects s) (sessions s) (writers s) (command_results s) (issued_commands s) (snapshots s)
     (nodes_by_rank s) x (all_authenticated s) (all_established s) (out_seq s)
     (connections s) (received_goodbyes s) (handler_failures s).
Definition set_events (auth est : bool) (s : t) : t :=
  mk (objects s) (sessions s) (writers s) (command_results s) (issued_commands s) (snapshots s)
     (nodes_by_rank s) (audit s) auth est (out_seq s)
     (connections s) (received_goodbyes s) (handler_failures s).
Definition set_out_seq (x : gmap Z Z) (s : t) : t :=
  mk (objects s) (sessions s) (writers s) (command_results s) (issued_commands s) (snapshots s)
     (nodes_by_rank s) (audit s) (all_authenticated s) (all_established s) x
     (connections s) (received_goodbyes s) (handler_failures s).
Definition set_connections (x : gset nat) (s : t) : t :=
  mk (objects s) (sessions s) (writers s) (command_results s) (issued_commands s) (snapshots s)
     (nodes_by_rank s) (audit s) (all_authenticated s) (all_established s) (out_seq s)
     x (received_goodbyes s) (handler_failures s).
Definition set_goodbyes (x : gset Z) (s : t) : t :=
  mk (objects s) (sessions s) (writers s) (command_results s) (issued_commands s) (snapshots s)
     (nodes_by_rank s) (audit s) (all_authenticated s) (all_established s) (out_seq s)
     (connections s) x (handler_failures s).
Definition set_failures (x : list (option Z * exc)) (s : t) : t :=
  mk (objects s) (sessions s) (writers s) (command_results s) (issued_commands s) (snapshots s)
     (nodes_by_rank s) (audit s) (all_authenticated s) (all_established s) (out_seq s)
     (connections s) (received_goodbyes s) x.

(** ** Computations *)

(** A turn goes on, leaves the loop ([break] or [return]), or raises. *)
Inductive outcome (A : Type) := Ret (a : A) | Stop | Fail (e : exc).
Arguments Ret {A} _.
Arguments Stop {A}.
Arguments Fail {A} _.

Definition M (A : Type) : Type := t -> t * list output * outcome A.

#[global] Instance M_ret : MRet M := fun A a s => (s, [], Ret a).
#[global] Instance M_bind : MBind M := fun A B f m s =>
  match m s with
  | (s1, out1, Ret a) => let '(s2, out2, r) := f a s1 in (s2, out1 ++ out2, r)
  | (s1, out1, Stop) => (s1, out1, Stop)
  | (s1, out1, Fail e) => (s1, out1, Fail e)
  end.

Definition get : M t := fun s => (s, [], Ret s).
Definition modify (f : t -> t) : M unit := fun s => (f s, [], Ret tt).
Definition emit (o : output) : M unit := fun s => (s, [o], Ret tt).
Definition stop {A} : M A := fun s => (s, [], Stop).
Definition fail {A} (e : exc) : M A := fun s => (s, [], Fail e).
Definition lift {A} (r : result exc A) : M A :=
  fun s => (s, [], match r with Ok a => Ret a | Err e => Fail e end).
Definition when (b : bool) (m : M unit) : M unit := if b then m else mret tt.

Definition session_of (conn : nat) (s : t) : option SessionInfo.t := objects s !! conn.

Definition update_session (conn : nat) (f : SessionInfo.t -> SessionInfo.t) : M unit :=
  modify (fun s => set_objects (alter f conn (objects s)) s).

Definition put_session (conn : nat) (i : SessionInfo.t) : M unit :=
  modify (fun s => set_objects (<[conn := i]> (objects s)) s).

Definition add_audit (reason detail : string) (rank : option Z) (node : option string) : M unit :=
  modify (fun s =>
    set_audit (keep_last MAX_AUDIT_RECORDS (audit s ++ [Audit reason detail rank node])) s).

Definition is_established (s : t) (rank : Z) : bool :=
  match sessions s !! rank ≫= fun conn => objects s !! conn with
  | Some i => SessionInfo.registered i && SessionInfo.established i
  | None => false
  end.

Definition is_registered (s : t) (rank : Z) : bool :=
  match sessions s !! rank ≫= fun conn => objects s !! conn with
  | Some i => SessionInfo.registered i
  | None => false
  end.

Section operations.
  Context `{FloatText} (mac : text -> text -> text) (sha256 : text -> string) (cfg : config).

Definition ranks : list Z := seqZ 0 (expected_ranks cfg).

Definition refresh_established_event : M unit :=
  modify (fun s => set_events (all_authenticated s) (forallb (is_established s) ranks) s).

(** [_next_out_seq]: read and stored back, one call of the listener. *)
Definition next_out_seq (rank : Z) : M Z := fun s =>
  let seq := default 0 (out_seq s !! rank) + 1 in
  (set_out_seq (<[rank := seq]> (out_seq s)) s, [], Ret seq).

Definition head_envelope (kind : EnvelopeKind) (rank : Z) (payload : dict) : M Envelope.t :=
  seq ← next_out_seq rank;
  mret (Envelope.mk kind (deployment_id cfg) (plan_hash cfg) (generation cfg) SUPERVISOR_RANK "head"
          seq payload).

Definition check_scope (e : Envelope.t) : option string :=
  if negb (bool_decide (Envelope.deployment_id e = deployment_id cfg)) then
    Some RejectReason.WRONG_DEPLOYMENT
  else if negb (bool_decide (Envelope.plan_hash e = plan_hash cfg)) then
    Some RejectReason.WRONG_PLAN_HASH
  else if negb (Envelope.generation e =? generation cfg) then
    Some RejectReason.STALE_GENERATION
  else None.

(** [_remember_issued_command] *)
Definition remember_issued_command (command_id : string) (request : Z * dict) : M unit :=
  s ← get;
  match issued_commands s !! command_id with
  | Some issued =>
      when (negb ((issued.1 =? request.1) && NodeChannel.dict_eqb issued.2 request.2))
        (fail (ContractError "command_id was already issued differently"))
  | None =>
      _ ← when (MAX_COMMAND_RECORDS <=? size (issued_commands s))%nat
            (fail (ContractError
               "control command identity capacity exhausted; refusing a novel command"));
      modify (fun s => set_issued_commands (<[command_id := request]> (issued_commands s)) s)
  end.

(** [_send_command]; [drained] is false when the drain after the write raises: the
    caller is told that the command was not sent, but the frame may have left. *)
Definition send_command_to (drained : bool) (rank : Z) (command_id operation : string) (payload : dict)
    : M bool :=
  _ ← when (negb (nonempty command_id)) (fail (ContractError "command_id must be a nonempty string"));
  _ ← when (negb (nonempty operation)) (fail (ContractError "operation must be a nonempty string"));
  _ ← when (existsb (fun k => bool_decide (k ∈ COMMAND_FIELDS)) (dkeys payload))
        (fail (ContractError "command payload cannot replace reserved fields"));
  s ← get;
  match writers s !! rank with
  | None => mret false
  | Some conn =>
      let body := dupdate
        [("payload_version", VInt 1); ("command_id", VStr command_id); ("operation", VStr operation)]
        payload in
      _ ← remember_issued_command command_id (rank, body);
      e ← head_envelope COMMAND rank body;
      match write_frame mac (secret cfg) (ControlLimits.max_frame_bytes (limits cfg)) e with
      | Ok _ => _ ← emit (OWrite conn e); mret drained
      | Err x => if is_contract_error x then mret false else fail x
      end
  end.

(** [_register]: the new state, or the reason of the refusal. *)
Definition register (conn : nat) (now : float) (e : Envelope.t) (s : t) : result string t :=
  let rank := Envelope.sender_rank e in
  let node := Envelope.sender_node e in
  let payload := Envelope.payload e in
  match nonempty_str (attr "instance_id" payload) with
  | Some instance_id =>
      if negb (fields_are ["payload_version"; "instance_id"] payload) ||
         negb (is_payload_version_one payload) then Err RejectReason.MALFORMED
      else if negb ((0 <=? rank) && (rank <? expected_ranks cfg)) then Err RejectReason.RANK_MISMATCH
      else if Envelope.seq e <? 0 then Err RejectReason.SEQUENCE_REGRESSION
      else if match expected_nodes cfg !! rank with
              | Some planned => negb (same_node planned node) | None => false end
      then Err RejectReason.NODE_MISMATCH
      else if is_registered s rank then Err RejectReason.DUPLICATE_RANK
      else if match sessions s !! rank, nodes_by_rank s !! rank with
              | Some _, Some expected_node => negb (same_node expected_node node)
              | _, _ => false end
      then Err RejectReason.NODE_MISMATCH
      else if existsb (fun rn => negb (rn.1 =? rank) && same_node rn.2 node)
                (map_to_list (nodes_by_rank s))
      then Err RejectReason.DUPLICATE_RANK
      else
        let info := SessionInfo.fresh rank node instance_id (Envelope.seq e) now in
        let s1 := set_objects (<[conn := info]> (objects s)) s in
        let s2 := set_sessions (<[rank := conn]> (sessions s1)) s1 in
        let s3 := set_nodes_by_rank (<[rank := node]> (nodes_by_rank s2)) s2 in
        Ok (if forallb (is_registered s3) ranks
            then set_events true (all_established s3) s3 else s3)
  | None => Err RejectReason.MALFORMED
  end.

(** [expect_goodbye] *)
Definition expect_goodbye (rank : Z) : M unit :=
  s ← get;
  match sessions s !! rank with
  | None => fail (ContractError "rank is not established")
  | Some conn =>
      match objects s !! conn with
      | None => fail (ContractError "rank is not established")
      | Some i =>
          if SessionInfo.expected_goodbye i then mret tt
          else
            _ ← when (negb (SessionInfo.established i))
                  (fail (ContractError "rank is not established"));
            _ ← update_session conn (SessionInfo.set_expected_goodbye true);
            modify (fun s => set_goodbyes (received_goodbyes s ∖ {[ rank ]}) s)
      end
  end.

(** [_validate_rank_receipt] *)
Definition validate_rank_receipt (i : SessionInfo.t) (payload : value) : result exc dict :=
  match payload with
  | VDict receipt =>
      _ ← raise_if (negb (is_str "RANK" (attr "owner_scope" receipt)))
            (ContractError "rank session may submit only RANK receipts");
      _ ← raise_if (match attr "owner_rank" receipt with
                    | VInt z => negb (z =? SessionInfo.rank i) | _ => true end)
            (ContractError "receipt owner_rank does not match session");
      match attr "node_id" receipt with
      | VNone => Ok receipt
      | v =>
          match nonempty_str v with
          | None => Err (ContractError "receipt node_id must be a nonempty string")
          | Some node =>
              _ ← raise_if (negb (same_node node (SessionInfo.node_id i)))
                    (ContractError "receipt node_id does not match session");
              Ok receipt
          end
      end
  | _ => Err (ContractError "rank receipt must be an object")
  end.

(** One observation of a snapshot, bound to the session. *)
Definition validate_snapshot_observation (i : SessionInfo.t) (body : value)
    : result exc ComponentObservation.t :=
  o ← validate_observation body;
  _ ← raise_if (negb (bool_decide (ComponentObservation.deployment_id o = deployment_id cfg)) ||
                negb (bool_decide (ComponentObservation.plan_hash o = plan_hash cfg)) ||
                negb (ComponentObservation.generation o =? generation cfg))
        (ContractError "snapshot observation identity is stale");
  _ ← raise_if (match ComponentObservation.owner_scope o with RANK => false | GLOBAL => true end)
        (ContractError "rank snapshot contains a GLOBAL observation");
  _ ← raise_if (negb (bool_decide (ComponentObservation.owner_rank o = Some (SessionInfo.rank i))))
        (ContractError "snapshot observation owner_rank mismatch");
  _ ← raise_if (negb (same_node (ComponentObservation.node_id o) (SessionInfo.node_id i)))
        (ContractError "snapshot observation node_id mismatch");
  Ok o.

Definition validate_snapshot_item (i : SessionInfo.t)
    (acc : list ComponentObservation.t * list dict) (item : value)
    : result exc (list ComponentObservation.t * list dict) :=
  if is_str "receipt" (NodeChannel.item_kind item) then
    r ← validate_rank_receipt i (NodeChannel.item_body item); Ok (acc.1, acc.2 ++ [r])
  else
    o ← validate_snapshot_observation i (NodeChannel.item_body item); Ok (acc.1 ++ [o], acc.2).

(** [component_instances] of the snapshot: a repeated component is refused. *)
Definition add_instance (m : gmap string string) (o : ComponentObservation.t)
    : result exc (gmap string string) :=
  match m !! ComponentObservation.component_id o with
  | Some _ => Err (ContractError "snapshot repeats component_id")
  | None => Ok (<[ComponentObservation.component_id o := ComponentObservation.instance_id o]> m)
  end.

Definition validate_snapshot_items (i : SessionInfo.t) (items : list value)
    : result exc (list ComponentObservation.t * list dict) :=
  acc ← fold_res (validate_snapshot_item i) ([], []) items;
  instances ← fold_res add_instance ∅ acc.1;
  _ ← raise_if (MAX_COMPONENTS_PER_RANK <? size instances)%nat
        (ContractError "snapshot component identity capacity exceeded");
  Ok acc.

Definition fingerprint (o : ComponentObservation.t) : result exc string :=
  match dumps (VDict (ComponentObservation.to_dict o)) with
  | Ok body => Ok (sha256 body)
  | Err _ => Err ValueError
  end.

(** ** One turn of the handler of a connection *)

Section turn.
  Context (ans : answers) (conn : nat).

(** [_call_decision]: the decision callback of this turn. *)
Definition call_decision : M (bool * string) := lift (an_decision ans).

(** [_write_session_frame]: the frame is handed to the transport; a drain that raises is
    reported as [false]. *)
Definition write_session_frame (e : Envelope.t) : M bool :=
  _ ← lift (write_frame mac (secret cfg) (ControlLimits.max_frame_bytes (limits cfg)) e);
  _ ← emit (OWrite conn e);
  mret (an_sent ans).

(** [_protocol_violation]: audit, and escalate for a registered session. *)
Definition protocol_violation (reason detail : string) : M unit :=
  s ← get;
  match session_of conn s with
  | None => add_audit reason detail None None
  | Some i =>
      _ ← add_audit reason detail (Some (SessionInfo.rank i)) (Some (SessionInfo.node_id i));
      if SessionInfo.registered i then
        _ ← emit (OViolation (SessionInfo.rank i) reason detail); lift (an_violation ans)
      else mret tt
  end.

(** Audit, escalate and leave the handler. *)
Definition violate {A} (reason detail : string) : M A :=
  _ ← protocol_violation reason detail; stop.

(** [try: x = f() except ContractError as exc: violation; return] *)
Definition or_violate {A} (reason : exc -> string) (detail : exc -> string) (r : result exc A) : M A :=
  match r with
  | Ok a => mret a
  | Err (ContractError m) => violate (reason (ContractError m)) (detail (ContractError m))
  | Err (ContractTypeError c) => violate (reason (ContractTypeError c)) (detail (ContractTypeError c))
  | Err e => fail e
  end.

Definition exc_text (e : exc) : string :=
  match e with
  | ContractError m => m
  | ContractTypeError cls => "MALFORMED: " +:+ cls
  | OverflowError => "OverflowError"
  | ValueError => "ValueError"
  | TypeError => "TypeError"
  | Unrepresentable => "Unrepresentable"
  end.

Definition limits_payload : dict :=
  let l := limits cfg in
  [("registration_deadline_s", VFloat (ControlLimits.registration_deadline_s l));
   ("heartbeat_interval_s", VFloat (ControlLimits.heartbeat_interval_s l));
   ("lease_timeout_s", VFloat (ControlLimits.lease_timeout_s l));
   ("reconnect_grace_s", VFloat (ControlLimits.reconnect_grace_s l));
   ("snapshot_assembly_deadline_s", VFloat (ControlLimits.snapshot_assembly_deadline_s l));
   ("watchdog_cleanup_deadline_s", VFloat (ControlLimits.watchdog_cleanup_deadline_s l));
   ("max_frame_bytes", VInt (ControlLimits.max_frame_bytes l));
   ("max_snapshot_chunks", VInt (ControlLimits.max_snapshot_chunks l));
   ("max_snapshot_bytes", VInt (ControlLimits.max_snapshot_bytes l));
   ("max_snapshot_items", VInt (ControlLimits.max_snapshot_items l))].

Definition register_ack : dict :=
  [("payload_version", VInt 1); ("command_id", VStr "register"); ("operation", VStr "REGISTER");
   ("ok", VBool true); ("control_limits", VDict limits_payload)].

Definition handle_register (e : Envelope.t) : M unit :=
  s ← get;
  _ ← when (match session_of conn s with Some i => SessionInfo.registered i | None => false end)
        (violate RejectReason.DUPLICATE_RANK "REGISTER repeated on an authenticated connection");
  match register conn (an_now ans) e s with
  | Err err =>
      _ ← add_audit err "registration rejected" (Some (Envelope.sender_rank e))
            (Some (Envelope.sender_node e));
      stop
  | Ok s1 =>
      let rank := Envelope.sender_rank e in
      _ ← modify (fun _ => s1);
      _ ← match session_of conn s1 with
          | Some i => emit (ORegister rank (SessionInfo.node_id i) (SessionInfo.instance_id i))
          | None => mret tt
          end;
      '(ok, detail) ← call_decision;
      _ ← when (negb ok)
            (_ ← add_audit RejectReason.NODE_MISMATCH detail (Some rank) (Some (Envelope.sender_node e));
             _ ← update_session conn (SessionInfo.set_registered false);
             stop);
      ack ← head_envelope COMMAND_RESULT rank register_ack;
      sent ← write_session_frame ack;
      _ ← when (negb sent) stop;
      _ ← modify (fun s => set_writers (<[rank := conn]> (writers s)) s);
      _ ← emit (OSession rank true);
      lift (an_session ans)
  end.

(** The sinks of a transport user without a snapshot callback. *)
Fixpoint deliver_receipts (rank : Z) (l : list dict) : M unit :=
  match l with
  | [] => mret tt
  | r :: l' => _ ← emit (OReceipt rank r); _ ← lift (an_receipt ans); deliver_receipts rank l'
  end.

Fixpoint deliver_observations (rank : Z) (l : list ComponentObservation.t) : M unit :=
  match l with
  | [] => mret tt
  | o :: l' =>
      _ ← emit (OObservation conn rank o); _ ← lift (an_observation ans); deliver_observations rank l'
  end.

Definition remember_observation (acc : list (dedup_key * string)) (o : ComponentObservation.t)
    : result exc (list (dedup_key * string)) :=
  f ← fingerprint o;
  '(seen, _) ← SessionInfo.remember (ComponentObservation.dedup_key o) f acc;
  Ok seen.

Definition snapshot_command_id (rank : Z) (snapshot_id : string) : string :=
  "SNAPSHOT_ACCEPTED:" +:+ str_Z rank +:+ ":" +:+ snapshot_id.

(** The tables of a snapshot: last sequence and current instance per component. *)
Definition snapshot_seqs (observations : list ComponentObservation.t) : gmap (string * string) Z :=
  fold_left (fun m o =>
    <[(ComponentObservation.component_id o, ComponentObservation.instance_id o) :=
      ComponentObservation.sequence o]> m) observations ∅.

Definition snapshot_instances (observations : list ComponentObservation.t) : gmap string string :=
  fold_left (fun m o =>
    <[ComponentObservation.component_id o := ComponentObservation.instance_id o]> m) observations ∅.

(** A complete and validated snapshot replaces the session's projection, and the head
    asks the rank to acknowledge it. *)
Definition install_snapshot (i : SessionInfo.t) (snapshot_id complete_hash : string)
    (observations : list ComponentObservation.t) : M unit :=
  let rank := SessionInfo.rank i in
  let seqs := snapshot_seqs observations in
  let instances := snapshot_instances observations in
  let command_id := snapshot_command_id rank snapshot_id in
  _ ← update_session conn (SessionInfo.set_components [] seqs instances);
  seen ← lift (fold_res remember_observation [] observations);
  _ ← update_session conn (fun i =>
        SessionInfo.set_pending snapshot_id complete_hash command_id
          (SessionInfo.set_components seen seqs instances i));
  sent ← send_command_to (an_sent ans) rank command_id "SNAPSHOT_ACCEPTED"
           [("snapshot_id", VStr snapshot_id); ("complete_set_hash", VStr complete_hash)];
  when (negb sent) stop.

Definition handle_snapshot (i : SessionInfo.t) (e : Envelope.t) : M unit :=
  s ← get;
  let rank := SessionInfo.rank i in
  let '(buffer, verdict) :=
    assemble_snapshot sha256 (limits cfg) (an_now ans) (snapshots s !! rank) (Envelope.payload e) in
  _ ← modify (fun s => set_snapshots (partial_alter (fun _ => buffer) rank (snapshots s)) s);
  match verdict with
  | RaisedChunk x => fail x
  | RejectedChunk reason => violate RejectReason.MALFORMED ("snapshot rejected: " +:+ reason)
  | MoreChunks => mret tt
  | Complete items =>
      match attr "snapshot_id" (Envelope.payload e), attr "complete_set_hash" (Envelope.payload e) with
      | VStr snapshot_id, VStr complete_hash =>
          '(observations, receipts) ←
            or_violate (fun _ => RejectReason.MALFORMED)
              (fun x => "snapshot item rejected: " +:+ exc_text x)
              (validate_snapshot_items i items);
          _ ← when (has_on_snapshot cfg) (emit (OSnapshot rank snapshot_id complete_hash items));
          '(ok, detail) ← (if has_on_snapshot cfg then call_decision else mret (true, "accepted"));
          _ ← when (negb ok)
                (violate RejectReason.MALFORMED ("snapshot projection rejected: " +:+ detail));
          _ ← when (negb (has_on_snapshot cfg))
                (_ ← deliver_receipts rank receipts; deliver_observations rank observations);
          install_snapshot i snapshot_id complete_hash observations
      | _, _ => mret tt
      end
  end.

(** The identity of an incremental observation against the session. *)
Definition observation_identity (i : SessionInfo.t) (o : ComponentObservation.t) : option (string * string) :=
  if negb (bool_decide (ComponentObservation.deployment_id o = deployment_id cfg)) ||
     negb (bool_decide (ComponentObservation.plan_hash o = plan_hash cfg)) ||
     negb (ComponentObservation.generation o =? generation cfg)
  then Some (RejectReason.STALE_GENERATION, "obs")
  else if match ComponentObservation.owner_scope o with RANK => false | GLOBAL => true end
  then Some (RejectReason.RANK_MISMATCH, "only the supervisor may publish GLOBAL observations")
  else if negb (bool_decide (ComponentObservation.owner_rank o = Some (SessionInfo.rank i)))
  then Some (RejectReason.RANK_MISMATCH, "owner_rank")
  else if negb (same_node (ComponentObservation.node_id o) (SessionInfo.node_id i))
  then Some (RejectReason.NODE_MISMATCH, "node_id")
  else None.

(** One incremental observation on an established session. *)
Definition apply_observation (i : SessionInfo.t) (item : value) : M unit :=
  o ← or_violate exc_text (fun _ => "observation rejected — closing session")
        (validate_observation item);
  _ ← match observation_identity i o with
      | Some (reason, detail) => violate reason detail
      | None => mret tt
      end;
  let component := ComponentObservation.component_id o in
  let instance := ComponentObservation.instance_id o in
  i1 ← match SessionInfo.component_instances i !! component with
       | None =>
           _ ← when (MAX_COMPONENTS_PER_RANK <=? size (SessionInfo.component_instances i))%nat
                 (violate RejectReason.MALFORMED "rank component identity capacity exhausted");
           let i1 := SessionInfo.set_components (SessionInfo.seen_obs i)
                       (SessionInfo.last_component_seq i)
                       (<[component := instance]> (SessionInfo.component_instances i)) i in
           _ ← put_session conn i1;
           mret i1
       | Some active =>
           _ ← when (negb (bool_decide (active = instance)))
                 (violate RejectReason.STALE_INSTANCE "active instance differs");
           mret i
       end;
  let last := default (-1) (SessionInfo.last_component_seq i1 !! (component, instance)) in
  _ ← when (ComponentObservation.sequence o <? last)
        (violate RejectReason.SEQUENCE_REGRESSION "component sequence");
  f ← lift (fingerprint o);
  '(seen, novel) ← or_violate (fun _ => RejectReason.MALFORMED) exc_text
        (SessionInfo.remember (ComponentObservation.dedup_key o) f (SessionInfo.seen_obs i1));
  let i2 := SessionInfo.set_components seen (SessionInfo.last_component_seq i1)
              (SessionInfo.component_instances i1) i1 in
  _ ← put_session conn i2;
  if negb novel then mret tt
  else
    _ ← when (ComponentObservation.sequence o =? last)
          (violate RejectReason.SEQUENCE_REGRESSION "no longer inside dedup retention");
    _ ← put_session conn (SessionInfo.set_components seen
            (<[(component, instance) := ComponentObservation.sequence o]>
               (SessionInfo.last_component_seq i2))
            (SessionInfo.component_instances i2) i2);
    _ ← emit (OObservation conn (SessionInfo.rank i) o);
    or_violate (fun _ => RejectReason.MALFORMED) exc_text (an_observation ans).

Definition handle_observation (i : SessionInfo.t) (e : Envelope.t) : M unit :=
  let payload := Envelope.payload e in
  _ ← when (negb (SessionInfo.established i))
        (violate RejectReason.NOT_REGISTERED "incremental observation before snapshot ACK barrier");
  match dget "observation" payload with
  | Some item =>
      _ ← when (negb (is_payload_version_one payload) ||
                negb (forallb (fun k => bool_decide
                  (k ∈ ["payload_version"; "observation"; "compatibility_receipt"])) (dkeys payload)))
            (violate RejectReason.MALFORMED "invalid OBSERVATION payload/version");
      _ ← match attr "compatibility_receipt" payload with
          | VNone => mret tt
          | attached =>
              receipt ← or_violate (fun _ => RejectReason.MALFORMED)
                (fun x => "attached receipt rejected: " +:+ exc_text x)
                (validate_rank_receipt i attached);
              _ ← emit (OReceipt (SessionInfo.rank i) receipt);
              lift (an_receipt ans)
          end;
      apply_observation i item
  | None => violate RejectReason.MALFORMED "invalid OBSERVATION payload/version"
  end.

Definition handle_heartbeat (i : SessionInfo.t) (e : Envelope.t) : M unit :=
  let payload := Envelope.payload e in
  _ ← when (negb (SessionInfo.established i))
        (violate RejectReason.NOT_REGISTERED "HEARTBEAT before snapshot ACK barrier");
  match nonempty_str (attr "heartbeat_id" payload) with
  | Some id =>
      _ ← when (negb (fields_are ["payload_version"; "heartbeat_id"] payload) ||
                negb (is_payload_version_one payload))
            (violate RejectReason.MALFORMED "invalid HEARTBEAT payload/version");
      _ ← update_session conn (SessionInfo.set_last_seen_at (an_now ans));
      _ ← emit (OHeartbeat (SessionInfo.rank i));
      _ ← lift (an_heartbeat ans);
      reply ← head_envelope HEARTBEAT (SessionInfo.rank i) (NodeChannel.heartbeat_payload id);
      sent ← write_session_frame reply;
      when (negb sent) stop
  | None => violate RejectReason.MALFORMED "invalid HEARTBEAT payload/version"
  end.

Definition handle_receipt (i : SessionInfo.t) (e : Envelope.t) : M unit :=
  let payload := Envelope.payload e in
  _ ← when (negb (SessionInfo.established i))
        (violate RejectReason.NOT_REGISTERED "incremental receipt before snapshot ACK barrier");
  _ ← when (negb (is_payload_version_one payload) ||
            negb (fields_are ["payload_version"; "receipt"] payload))
        (violate RejectReason.MALFORMED "invalid RECEIPT payload/version");
  receipt ← or_violate (fun _ => RejectReason.MALFORMED)
    (fun x => "receipt rejected: " +:+ exc_text x)
    (validate_rank_receipt i (attr "receipt" payload));
  _ ← emit (OReceipt (SessionInfo.rank i) receipt);
  lift (an_receipt ans).

(** The acknowledgment of the pending snapshot establishes the session. *)
Definition acknowledge_snapshot (i : SessionInfo.t) (result_payload : dict) : M unit :=
  let expected :=
    [("payload_version", VInt 1); ("operation", VStr "SNAPSHOT_ACCEPTED");
     ("snapshot_id", VStr (SessionInfo.pending_snapshot_id i));
     ("complete_set_hash", VStr (SessionInfo.pending_snapshot_hash i));
     ("status", VStr "SUCCEEDED")] in
  _ ← when (existsb (fun kv => negb (py_eqb (attr kv.1 result_payload) kv.2)) expected)
        (violate RejectReason.MALFORMED "snapshot COMMAND_RESULT mismatch");
  _ ← emit (OSnapshotAck (SessionInfo.rank i) result_payload);
  '(ok, detail) ← call_decision;
  _ ← when (negb ok)
        (violate RejectReason.MALFORMED ("snapshot acknowledgment rejected: " +:+ detail));
  _ ← update_session conn (fun i =>
        SessionInfo.set_pending (SessionInfo.pending_snapshot_id i)
          (SessionInfo.pending_snapshot_hash i) "" (SessionInfo.set_established true i));
  refresh_established_event.

Definition handle_command_result (i : SessionInfo.t) (e : Envelope.t) : M unit :=
  result_payload ← or_violate (fun _ => RejectReason.MALFORMED) exc_text
    (validate_command_result_payload (VDict (Envelope.payload e)));
  s ← get;
  match attr "command_id" result_payload with
  | VStr command_id =>
      match issued_commands s !! command_id with
      | None => violate RejectReason.MALFORMED "COMMAND_RESULT names unissued command"
      | Some (issued_rank, issued_payload) =>
          _ ← when (negb (issued_rank =? SessionInfo.rank i))
                (violate RejectReason.RANK_MISMATCH "COMMAND_RESULT for another rank's command");
          _ ← when (negb (py_eqb (attr "operation" result_payload) (attr "operation" issued_payload)))
                (violate RejectReason.MALFORMED "COMMAND_RESULT operation disagrees with command");
          let pending := bool_decide (command_id = SessionInfo.pending_snapshot_command_id i) in
          _ ← when (negb (SessionInfo.established i) && negb pending)
                (violate RejectReason.NOT_REGISTERED "COMMAND_RESULT before snapshot ACK barrier");
          let record := dset "rank" (VInt (Envelope.sender_rank e)) result_payload in
          _ ← when (match command_results s !! command_id with
                    | Some prior => negb (NodeChannel.dict_eqb prior record)
                    | None => false
                    end)
                (violate RejectReason.MALFORMED "conflicting duplicate COMMAND_RESULT");
          _ ← modify (fun s => set_command_results (<[command_id := record]> (command_results s)) s);
          _ ← when ((is_str "DRAIN" (attr "operation" result_payload) ||
                     is_str "STOP" (attr "operation" result_payload)) &&
                    match attr "ok" result_payload with VBool b => b | _ => false end)
                (expect_goodbye (SessionInfo.rank i));
          when pending (acknowledge_snapshot i result_payload)
      end
  | _ => mret tt
  end.

Definition handle_goodbye (i : SessionInfo.t) (e : Envelope.t) : M unit :=
  let payload := Envelope.payload e in
  _ ← when (negb (fields_are ["payload_version"] payload) || negb (is_payload_version_one payload))
        (violate RejectReason.MALFORMED "invalid GOODBYE payload/version");
  _ ← (if SessionInfo.expected_goodbye i
       then modify (fun s => set_goodbyes (received_goodbyes s ∪ {[ SessionInfo.rank i ]}) s)
       else protocol_violation RejectReason.MALFORMED "unsolicited GOODBYE from required rank");
  stop.

(** The body of the loop of [_handle] for one envelope. *)
Definition handle_envelope (e : Envelope.t) : M unit :=
  match check_scope e with
  | Some reason =>
      _ ← add_audit reason ("kind=" +:+ kind_value (Envelope.kind e))
            (Some (Envelope.sender_rank e)) (Some (Envelope.sender_node e));
      stop
  | None =>
      if bool_decide (Envelope.kind e = REGISTER) then handle_register e
      else
        s ← get;
        match session_of conn s with
        | Some i =>
            if negb (SessionInfo.registered i) then
              _ ← add_audit RejectReason.NOT_REGISTERED ("kind=" +:+ kind_value (Envelope.kind e))
                    (Some (Envelope.sender_rank e)) (Some (Envelope.sender_node e));
              stop
            else if negb (Envelope.sender_rank e =? SessionInfo.rank i) ||
                    negb (bool_decide (Envelope.sender_node e = SessionInfo.node_id i)) then
              violate RejectReason.RANK_MISMATCH "claimed"
            else if Envelope.seq e <=? SessionInfo.last_seq i then
              violate RejectReason.SEQUENCE_REGRESSION "seq"
            else
              let i1 := SessionInfo.set_last_seq (Envelope.seq e) i in
              _ ← put_session conn i1;
              match Envelope.kind e with
              | SNAPSHOT => handle_snapshot i1 e
              | OBSERVATION => handle_observation i1 e
              | HEARTBEAT => handle_heartbeat i1 e
              | RECEIPT => handle_receipt i1 e
              | COMMAND_RESULT => handle_command_result i1 e
              | GOODBYE => handle_goodbye i1 e
              | REGISTER | COMMAND => mret tt
              end
        | None =>
            _ ← add_audit RejectReason.NOT_REGISTERED ("kind=" +:+ kind_value (Envelope.kind e))
                  (Some (Envelope.sender_rank e)) (Some (Envelope.sender_node e));
            stop
        end
  end.

(** The end of the [finally] block: tables of the rank, and the live handlers. *)
Definition cleanup (s : t) : t :=
  let rank := match session_of conn s with Some i => SessionInfo.rank i | None => -1 end in
  set_connections (connections s ∖ {[ conn ]})
    (set_snapshots (delete rank (snapshots s)) (set_writers (delete rank (writers s)) s)).

(** The [finally] block: the session is revoked and the handler ends ([connections]
    are the live handlers). An exception of the session callback skips the rest. *)
Definition finish (s : t) : t * list output :=
  match session_of conn s with
  | Some i =>
      if SessionInfo.registered i then
        let s1 := set_objects (alter (fun i =>
          SessionInfo.set_established false (SessionInfo.set_registered false i)) conn (objects s)) s in
        let s2 := set_events false false s1 in
        (match an_session ans with
         | Ok _ => cleanup s2
         | Err _ => set_connections (connections s2 ∖ {[ conn ]}) s2
         end, [OSession (SessionInfo.rank i) false])
      else (cleanup s, [])
  | None => (cleanup s, [])
  end.

(** The whole handling of one envelope, with the [except] and [finally] clauses. *)
Definition handle_turn (m : M unit) (s : t) : t * list output :=
  match m s with
  | (s1, out, Ret _) => (s1, out)
  | (s1, out, Stop) => let '(s2, out2) := finish s1 in (s2, out ++ out2)
  | (s1, out, Fail e) =>
      let rank := SessionInfo.rank <$> session_of conn s1 in
      let node := SessionInfo.node_id <$> session_of conn s1 in
      let s2 := set_failures
        (keep_last MAX_AUDIT_RECORDS (handler_failures s1 ++ [(rank, e)])) s1 in
      let s3 := set_audit (keep_last MAX_AUDIT_RECORDS
        (audit s2 ++ [Audit RejectReason.MALFORMED (exc_text e) rank node])) s2 in
      let '(s4, out2) := finish s3 in (s4, out ++ out2)
  end.
End turn.

(** ** Commands of the head *)

(** Run a computation outside of a handler: its exceptions reach the caller. *)
Definition run {A} (m : M A) (s : t) : t * list output * option (result exc A) :=
  match m s with
  | (s1, out, Ret a) => (s1, out, Some (Ok a))
  | (s1, out, Fail e) => (s1, out, Some (Err e))
  | (s1, out, Stop) => (s1, out, None)
  end.

Definition send_command (sent : bool) (rank : Z) (command_id operation : string) (payload : dict)
    : M bool :=
  _ ← when (negb ((0 <=? rank) && (rank <? expected_ranks cfg)))
        (fail (ContractError "command rank is not planned"));
  s ← get;
  if is_established s rank then send_command_to sent rank command_id operation payload
  else mret false.

(** [broadcast_command_targets]: the ranks that took the command. *)
Fixpoint broadcast_to (sent : Z -> bool) (command_id operation : string) (payload : dict)
    (targets : list Z) : M (list Z) :=
  match targets with
  | [] => mret []
  | rank :: targets' =>
      s ← get;
      if is_established s rank then
        ok ← send_command_to (sent rank) rank (command_id +:+ ":" +:+ str_Z rank)
               operation payload;
        rest ← broadcast_to sent command_id operation payload targets';
        mret (if (ok : bool) then rank :: rest else rest)
      else broadcast_to sent command_id operation payload targets'
  end.

Definition broadcast_command_targets (sent : Z -> bool) (command_id operation : string)
    (payload : dict) : M (list Z) :=
  broadcast_to sent command_id operation payload ranks.

(** ** Steps of the listener *)

Inductive event :=
| EConnect (conn : nat)
| EEnvelope (conn : nat) (ans : answers) (e : Envelope.t)
| ERejectedFrame (conn : nat) (ans : answers) (reason : string)
| EClosed (conn : nat) (ans : answers)
| ESend (sent : bool) (rank : Z) (command_id operation : string) (payload : dict)
| EExpectGoodbye (rank : Z).

(** A frame that does not decode is audited and ends the session. *)
Definition rejected_frame (conn : nat) (reason : string) : M unit :=
  s ← get;
  _ ← add_audit reason "frame rejected" (SessionInfo.rank <$> session_of conn s) None;
  stop.

Definition step (ev : event) (s : t) : t * list output :=
  match ev with
  | EConnect conn =>
      if bool_decide (conn ∈ connections s) || bool_decide (is_Some (objects s !! conn)) then (s, [])
      else (set_connections (connections s ∪ {[ conn ]}) s, [])
  | EEnvelope conn ans e =>
      if bool_decide (conn ∈ connections s)
      then handle_turn ans conn (handle_envelope ans conn e) s else (s, [])
  | ERejectedFrame conn ans reason =>
      if bool_decide (conn ∈ connections s)
      then handle_turn ans conn (rejected_frame conn reason) s else (s, [])
  | EClosed conn ans =>
      if bool_decide (conn ∈ connections s) then handle_turn ans conn stop s else (s, [])
  | ESend sent rank command_id operation payload =>
      let '(s1, out, _) := run (send_command sent rank command_id operation payload) s in (s1, out)
  | EExpectGoodbye rank => let '(s1, out, _) := run (expect_goodbye rank) s in (s1, out)
  end.

(** A run of the listener: the states between events and everything it showed. *)
Fixpoint steps (evs : list event) (s : t) : t * list output :=
  match evs with
  | [] => (s, [])
  | ev :: evs' =>
      let '(s1, out1) := step ev s in
      let '(s2, out2) := steps evs' s1 in (s2, out1 ++ out2)
  end.
End operations.
End ControlListener.
