(* ===== verification/ListenerProps.v ===== *)
(** Properties of the listener: memory bounds, session exclusivity, the
    establishment barrier, in-order delivery of observations, and the identity of
    commands. Handlers are verified with a small weakest-precondition calculus over
    the computations of Listener.v. *)

From S2P Require Import Prelude PyValue Json JsonProps Envelopes EnvelopesProps Frames Contracts Snapshots SnapshotsProps NodeChannel Listener.
Import ControlListener.

(** ** Weakest preconditions *)

(** [wp m N X s]: run from [s], [m] returns with [N] or leaves the turn with [X]. *)
Definition wp {A} (m : M A) (N : A -> list output -> t -> Prop) (X : list output -> t -> Prop)
    (s : t) : Prop :=
  let '(s', out, r) := m s in
  match r with Ret a => N a out s' | Stop | Fail _ => X out s' end.

Lemma wp_ret {A} (a : A) N X s : N a [] s -> wp (mret a) N X s.
Proof. done. Qed.

Lemma wp_bind {A B} (m : M A) (f : A -> M B) N X s :
  wp m (fun a out1 s1 =>
          wp (f a) (fun b out2 s2 => N b (out1 ++ out2) s2) (fun out2 s2 => X (out1 ++ out2) s2) s1)
       X s ->
  wp (m ≫= f) N X s.
Proof.
  unfold wp, mbind, M_bind. destruct (m s) as [[s1 out1] [a| |e]]; [|done..].
  by destruct (f a s1) as [[s2 out2] [b| |e]].
Qed.

Lemma wp_get N X s : N s [] s -> wp get N X s.
Proof. done. Qed.

Lemma wp_modify f N X s : N tt [] (f s) -> wp (modify f) N X s.
Proof. done. Qed.

Lemma wp_emit o N X s : N tt [o] s -> wp (emit o) N X s.
Proof. done. Qed.

Lemma wp_stop {A} (N : A -> list output -> t -> Prop) X s : X [] s -> wp stop N X s.
Proof. done. Qed.

Lemma wp_fail {A} e (N : A -> list output -> t -> Prop) X s : X [] s -> wp (fail e) N X s.
Proof. done. Qed.

Lemma wp_lift {A} (r : result exc A) N X s :
  (forall a, r = Ok a -> N a [] s) -> (forall e, r = Err e -> X [] s) -> wp (lift r) N X s.
Proof. unfold wp, lift. destruct r; cbn; eauto. Qed.

Lemma wp_when b m N X s :
  (b = true -> wp m N X s) -> (b = false -> N tt [] s) -> wp (when b m) N X s.
Proof. unfold when. destruct b; [auto|]. intros _ Hn. by apply Hn. Qed.

Lemma wp_mono {A} (m : M A) (N N' : A -> list output -> t -> Prop) (X X' : list output -> t -> Prop) s :
  wp m N X s -> (forall a out s', N a out s' -> N' a out s') ->
  (forall out s', X out s' -> X' out s') -> wp m N' X' s.
Proof. unfold wp. destruct (m s) as [[s' out] [a| |e]]; auto. Qed.

Definition is_violation (o : output) : Prop :=
  match o with OViolation _ _ _ => True | _ => False end.

Section rules.
  Context `{FloatText} (mac : text -> text -> text) (sha256 : text -> string) (cfg : config).
  Context (ans : answers) (conn : nat).

Lemma wp_add_audit reason detail rank node N X s :
  (forall x, (length x <= MAX_AUDIT_RECORDS)%nat -> N tt [] (set_audit x s)) ->
  wp (add_audit reason detail rank node) N X s.
Proof. intros Hn. apply wp_modify, Hn. unfold keep_last. rewrite length_drop. lia. Qed.

Lemma wp_protocol_violation reason detail N X s :
  (forall x out, (length x <= MAX_AUDIT_RECORDS)%nat -> Forall is_violation out ->
     N tt out (set_audit x s)) ->
  (forall x out, (length x <= MAX_AUDIT_RECORDS)%nat -> Forall is_violation out ->
     X out (set_audit x s)) ->
  wp (protocol_violation ans conn reason detail) N X s.
Proof.
  intros Hn Hx. unfold protocol_violation. apply wp_bind, wp_get.
  destruct (session_of conn s) as [i|].
  - apply wp_bind, wp_add_audit. intros x Hlen. destruct (SessionInfo.registered i).
    + apply wp_bind, wp_emit, wp_lift;
        [intros [] _; apply Hn|intros ? _; apply Hx]; (done || by repeat constructor).
    + apply wp_ret, Hn; [done|constructor].
  - apply wp_add_audit. intros x Hlen. apply Hn; [done|constructor].
Qed.

Lemma wp_violate {A} reason detail (N : A -> list output -> t -> Prop) X s :
  (forall x out, (length x <= MAX_AUDIT_RECORDS)%nat -> Forall is_violation out ->
     X out (set_audit x s)) ->
  wp (violate ans conn reason detail) N X s.
Proof.
  intros Hx. apply wp_bind, wp_protocol_violation; [|done].
  intros x out Hl Ho. apply wp_stop. rewrite app_nil_r. auto.
Qed.

Lemma wp_or_violate {A} reason detail (r : result exc A) N X s :
  (forall a, r = Ok a -> N a [] s) ->
  (forall x out, (length x <= MAX_AUDIT_RECORDS)%nat -> Forall is_violation out ->
     X out (set_audit x s)) ->
  (forall e, r = Err e -> X [] s) ->
  wp (or_violate ans conn reason detail r) N X s.
Proof.
  intros Hn Hx He. unfold or_violate. destruct r as [a|e]; [by apply wp_ret, Hn|].
  destruct e; try (by apply wp_violate); apply wp_fail; by eapply He.
Qed.

Lemma wp_write_session_frame e N X s :
  N true [OWrite conn e] s -> N false [OWrite conn e] s -> X [] s ->
  wp (write_session_frame mac cfg ans conn e) N X s.
Proof.
  intros H1 H2 H3. unfold write_session_frame. apply wp_bind, wp_lift; [|done].
  intros _ _. apply wp_bind, wp_emit, wp_ret. by destruct (an_sent ans).
Qed.

Lemma wp_next_out_seq rank N X s :
  (forall q z, N z [] (set_out_seq q s)) -> wp (next_out_seq rank) N X s.
Proof. intros Hn. unfold wp, next_out_seq. apply Hn. Qed.

Lemma wp_head_envelope kind rank payload N X s :
  (forall q z, N (Envelope.mk kind (deployment_id cfg) (plan_hash cfg) (generation cfg)
                    SUPERVISOR_RANK "head" z payload) [] (set_out_seq q s)) ->
  wp (head_envelope cfg kind rank payload) N X s.
Proof. intros Hn. apply wp_bind, wp_next_out_seq. intros q z. apply wp_ret, Hn. Qed.
End rules.

(** Symbolic execution of a computation. *)
Ltac wp_step :=
  match goal with
  | |- wp (mret _) _ _ _ => apply wp_ret
  | |- wp (_ ≫= _) _ _ _ => apply wp_bind
  | |- wp get _ _ _ => apply wp_get
  | |- wp (modify _) _ _ _ => apply wp_modify
  | |- wp (update_session _ _) _ _ _ => apply wp_modify
  | |- wp (put_session _ _) _ _ _ => apply wp_modify
  | |- wp (emit _) _ _ _ => apply wp_emit
  | |- wp stop _ _ _ => apply wp_stop
  | |- wp (fail _) _ _ _ => apply wp_fail
  | |- wp (lift _) _ _ _ => apply wp_lift; intros
  | |- wp (when _ _) _ _ _ => apply wp_when; intros
  | |- wp (add_audit _ _ _ _) _ _ _ => apply wp_add_audit; intros
  | |- wp (protocol_violation _ _ _ _) _ _ _ => apply wp_protocol_violation; intros
  | |- wp (violate _ _ _ _) _ _ _ => apply wp_violate; intros
  | |- wp (or_violate _ _ _ _ _) _ _ _ => apply wp_or_violate; intros
  | |- wp (write_session_frame _ _ _ _ _) _ _ _ => apply wp_write_session_frame
  | |- wp (head_envelope _ _ _ _) _ _ _ => apply wp_head_envelope; intros
  | |- wp (call_decision _) _ _ _ => apply wp_lift; intros
  | |- wp (match ?x with _ => _ end) _ _ _ => destruct x eqn:?
  | |- wp (let _ := _ in _) _ _ _ => cbv zeta
  end; cbn beta iota.
Ltac wp_run := repeat wp_step.

(** The next early return of a function was not taken. *)
Ltac next_guard H E :=
  match type of H with (if ?b then _ else _) = _ => destruct b eqn:E; [discriminate H|] end.

(** ** The invariant of the listener *)

(** A session object: bounded memory, one instance per component. *)
Record session_inv (cfg : config) (i : SessionInfo.t) : Prop := {
  si_rank : 0 <= SessionInfo.rank i < expected_ranks cfg;
  si_seen : (length (SessionInfo.seen_obs i) <= MAX_DEDUP_KEYS)%nat;
  si_components : (size (SessionInfo.component_instances i) <= MAX_COMPONENTS_PER_RANK)%nat;
  si_seqs : forall c k z, SessionInfo.last_component_seq i !! (c, k) = Some z ->
              SessionInfo.component_instances i !! c = Some k;
  si_established : SessionInfo.established i = true -> SessionInfo.registered i = true
}.

Record inv (cfg : config) (s : t) : Prop := {
  i_audit : (length (audit s) <= MAX_AUDIT_RECORDS)%nat;
  i_failures : (length (handler_failures s) <= MAX_AUDIT_RECORDS)%nat;
  i_issued : (size (issued_commands s) <= MAX_COMMAND_RECORDS)%nat;
  i_results : forall id, is_Some (command_results s !! id) -> is_Some (issued_commands s !! id);
  i_objects : forall c i, objects s !! c = Some i -> session_inv cfg i;
  i_sessions : forall r c, sessions s !! r = Some c ->
                 exists i, objects s !! c = Some i /\ SessionInfo.rank i = r;
  i_registered : forall c i, objects s !! c = Some i -> SessionInfo.registered i = true ->
                   sessions s !! SessionInfo.rank i = Some c /\
                   nodes_by_rank s !! SessionInfo.rank i = Some (SessionInfo.node_id i);
  i_nodes : forall r r' n n', r <> r' -> nodes_by_rank s !! r = Some n ->
              nodes_by_rank s !! r' = Some n' -> same_node n n' = false;
  i_event : all_established s = true -> forall r, 0 <= r < expected_ranks cfg ->
              is_established s r = true
}.

(** During a turn of [conn]: every other session is registered exactly while its
    handler lives. *)
Record turn_inv (cfg : config) (conn : nat) (s : t) : Prop := {
  ti_inv : inv cfg s;
  ti_live : conn ∈ connections s;
  ti_others : forall c i, c <> conn -> objects s !! c = Some i ->
                (SessionInfo.registered i = true <-> c ∈ connections s)
}.

(** ... and so is the session of [conn] whenever the handler goes on. *)
Definition going (cfg : config) (conn : nat) (s : t) : Prop :=
  turn_inv cfg conn s /\
  forall i, objects s !! conn = Some i -> SessionInfo.registered i = true.

(** Between turns. *)
Definition idle (cfg : config) (s : t) : Prop :=
  inv cfg s /\
  forall c i, objects s !! c = Some i -> (SessionInfo.registered i = true <-> c ∈ connections s).

Lemma going_of_idle cfg conn s : idle cfg s -> conn ∈ connections s -> going cfg conn s.
Proof.
  intros [Hi Hl] Hc. split.
  - split; [done|done|]. intros c i _. apply Hl.
  - intros i Hi'. by apply (Hl conn i).
Qed.

Lemma idle_of_going cfg conn s : going cfg conn s -> idle cfg s.
Proof.
  intros [[Hi Hc Ho] Hr]. split; [done|]. intros c i Hci.
  destruct (decide (c = conn)) as [->|Hne]; [|by apply Ho].
  split; [done|]. intros _. by apply Hr.
Qed.

(** Updates of fields the invariant does not look at. *)
Lemma inv_same cfg s s' :
  inv cfg s -> (length (audit s') <= MAX_AUDIT_RECORDS)%nat ->
  (length (handler_failures s') <= MAX_AUDIT_RECORDS)%nat ->
  issued_commands s' = issued_commands s -> command_results s' = command_results s ->
  objects s' = objects s -> sessions s' = sessions s -> nodes_by_rank s' = nodes_by_rank s ->
  (all_established s' = true -> all_established s = true) -> inv cfg s'.
Proof.
  intros [] ?? Hi Hr Ho Hs Hn He. split; rewrite ?Hi, ?Hr, ?Ho, ?Hs, ?Hn; auto.
  intros Hal r Hr'. unfold is_established. rewrite Hs, Ho. fold (is_established s r). auto.
Qed.

Definition same_shape (s s' : t) : Prop :=
  issued_commands s' = issued_commands s /\ command_results s' = command_results s /\
  objects s' = objects s /\ sessions s' = sessions s /\ nodes_by_rank s' = nodes_by_rank s /\
  connections s' = connections s /\ handler_failures s' = handler_failures s /\
  (audit s' = audit s \/ (length (audit s') <= MAX_AUDIT_RECORDS)%nat) /\
  (all_established s' = true -> all_established s = true).

Lemma turn_inv_same cfg conn s s' : turn_inv cfg conn s -> same_shape s s' -> turn_inv cfg conn s'.
Proof.
  intros [Hi Hc Ho] (E1 & E2 & E3 & E4 & E5 & E6 & E7 & E8 & E9).
  split; rewrite ?E6, ?E3; [|done|done].
  apply (inv_same cfg s); try done.
  - destruct E8 as [->|]; [apply Hi|done].
  - rewrite E7. apply Hi.
Qed.

Lemma going_same cfg conn s s' : going cfg conn s -> same_shape s s' -> going cfg conn s'.
Proof.
  intros [Ht Hr] Hs. split; [by eapply turn_inv_same|].
  destruct Hs as (_ & _ & -> & _). done.
Qed.

(** An update of a session object that keeps its identity and registration. *)
Definition evolves (i i' : SessionInfo.t) : Prop :=
  SessionInfo.rank i' = SessionInfo.rank i /\ SessionInfo.node_id i' = SessionInfo.node_id i /\
  SessionInfo.registered i' = SessionInfo.registered i /\
  (SessionInfo.established i = true -> SessionInfo.established i' = true).

Lemma is_established_put s c i i' r :
  objects s !! c = Some i -> evolves i i' -> is_established s r = true ->
  is_established (set_objects (<[c := i']> (objects s)) s) r = true.
Proof.
  intros Hc (_ & _ & Hr & He). unfold is_established. cbn [objects set_objects sessions].
  destruct (sessions s !! r) as [c'|]; [|done]. cbn.
  destruct (decide (c = c')) as [->|Hne]; [|by rewrite lookup_insert_ne].
  rewrite lookup_insert_eq, Hc. intros [H1 H2]%andb_prop. rewrite Hr, H1. by rewrite He.
Qed.

Lemma listener_inv_put cfg s c i i' :
  inv cfg s -> objects s !! c = Some i -> evolves i i' -> session_inv cfg i' ->
  inv cfg (set_objects (<[c := i']> (objects s)) s).
Proof.
  intros Hinv Hc Hev Hsi. pose proof Hev as (Hrk & Hnd & Hrg & _).
  destruct Hinv as [? ? ? ? Hobj Hses Hreg Hnodes Hevt]. split; cbn [audit handler_failures
    issued_commands command_results sessions nodes_by_rank objects set_objects all_established]; try done.
  - intros c' i0. destruct (decide (c = c')) as [->|]; [|rewrite lookup_insert_ne by done; apply Hobj].
    rewrite lookup_insert_eq. by intros [= <-].
  - intros r c' Hr. destruct (Hses r c' Hr) as (i0 & Hi0 & Hr0).
    destruct (decide (c = c')) as [->|]; [|exists i0; by rewrite lookup_insert_ne].
    exists i'. rewrite lookup_insert_eq. split; [done|]. congruence.
  - intros c' i0. destruct (decide (c = c')) as [->|]; [|rewrite lookup_insert_ne by done; apply Hreg].
    rewrite lookup_insert_eq. intros [= <-]. rewrite Hrk, Hnd, Hrg. by apply Hreg.
  - intros Hal r Hr. apply is_established_put with (i := i); auto.
Qed.

Lemma turn_inv_put cfg conn s i i' :
  turn_inv cfg conn s -> objects s !! conn = Some i -> evolves i i' -> session_inv cfg i' ->
  turn_inv cfg conn (set_objects (<[conn := i']> (objects s)) s).
Proof.
  intros [Hi Hc Ho] Hconn Hev Hsi. split; [by eapply listener_inv_put|done|].
  intros c i0 Hne. cbn [objects set_objects connections]. rewrite lookup_insert_ne by done. by apply Ho.
Qed.

Lemma going_put cfg conn s i i' :
  going cfg conn s -> objects s !! conn = Some i -> evolves i i' -> session_inv cfg i' ->
  going cfg conn (set_objects (<[conn := i']> (objects s)) s).
Proof.
  intros [Ht Hr] Hc Hev Hsi. split; [by eapply turn_inv_put|].
  intros i0. cbn [objects set_objects]. rewrite lookup_insert_eq. intros [= <-].
  destruct Hev as (_ & _ & -> & _). by apply Hr.
Qed.

(** The same for the object of any connection. *)
Lemma idle_put cfg s c i i' :
  idle cfg s -> objects s !! c = Some i -> evolves i i' -> session_inv cfg i' ->
  idle cfg (set_objects (<[c := i']> (objects s)) s).
Proof.
  intros [Hi Hl] Hc Hev Hsi. split; [by eapply listener_inv_put|]. intros c' i0. cbn [objects set_objects connections].
  destruct (decide (c = c')) as [->|]; [|rewrite lookup_insert_ne by done; apply Hl].
  rewrite lookup_insert_eq. intros [= <-]. destruct Hev as (_ & _ & -> & _). by apply Hl.
Qed.

Lemma going_session cfg conn s i :
  going cfg conn s -> objects s !! conn = Some i -> session_inv cfg i /\ SessionInfo.registered i = true.
Proof. intros [[Hi _ _] Hr] Hc. split; [by eapply i_objects|auto]. Qed.

Lemma alter_some {A} (f : A -> A) (m : gmap nat A) k x :
  m !! k = Some x -> alter f k m = <[k := f x]> m.
Proof.
  intros Hk. apply map_eq. intros j. destruct (decide (k = j)) as [->|].
  - by rewrite lookup_alter_eq, lookup_insert_eq, Hk.
  - by rewrite lookup_alter_ne, lookup_insert_ne.
Qed.

(** ** Every turn keeps the invariant *)

Ltac shape := unfold same_shape; cbn; split_and!; auto.

Lemma evolves_refl i : evolves i i.
Proof. by repeat split. Qed.

Lemma going_weaken cfg conn s : going cfg conn s -> turn_inv cfg conn s.
Proof. by intros []. Qed.

#[export] Hint Resolve going_weaken evolves_refl : exaserve.

Lemma session_inv_components cfg seen seqs instances i :
  session_inv cfg i -> (length seen <= MAX_DEDUP_KEYS)%nat ->
  (size instances <= MAX_COMPONENTS_PER_RANK)%nat ->
  (forall c k z, seqs !! (c, k) = Some z -> instances !! c = Some k) ->
  session_inv cfg (SessionInfo.set_components seen seqs instances i).
Proof. intros [] ???. by split. Qed.

Lemma trim_seen_length l : (length (SessionInfo.trim_seen l) <= MAX_DEDUP_KEYS)%nat.
Proof. unfold SessionInfo.trim_seen. rewrite length_drop. lia. Qed.

Lemma remember_length key f l l' b :
  SessionInfo.remember key f l = Ok (l', b) -> (length l <= MAX_DEDUP_KEYS)%nat ->
  (length l' <= MAX_DEDUP_KEYS)%nat.
Proof.
  unfold SessionInfo.remember. intros Hr Hl.
  destruct (SessionInfo.seen_get key l); [case_bool_decide; [|done]|]; simplify_eq; [done|].
  apply trim_seen_length.
Qed.

Section preserves.
  Context `{FloatText} (mac : text -> text -> text) (sha256 : text -> string) (cfg : config).
  Context (ans : answers) (conn : nat).

(** A turn that may change the session object and nothing else of the invariant. *)
Definition keeps {A} (m : M A) (s : t) : Prop :=
  wp m (fun _ _ s' => going cfg conn s') (fun _ s' => turn_inv cfg conn s') s.

Lemma going_audit s x :
  going cfg conn s -> (length x <= MAX_AUDIT_RECORDS)%nat -> going cfg conn (set_audit x s).
Proof. intros Hg Hx. eapply going_same; [done|]. shape. Qed.

Lemma going_out_seq s q : going cfg conn s -> going cfg conn (set_out_seq q s).
Proof. intros Hg. eapply going_same; [done|]. shape. Qed.

Lemma going_goodbyes s g : going cfg conn s -> going cfg conn (set_goodbyes g s).
Proof. intros Hg. eapply going_same; [done|]. shape. Qed.

Lemma going_snapshots s g : going cfg conn s -> going cfg conn (set_snapshots g s).
Proof. intros Hg. eapply going_same; [done|]. shape. Qed.

Lemma going_writers s g : going cfg conn s -> going cfg conn (set_writers g s).
Proof. intros Hg. eapply going_same; [done|]. shape. Qed.
#[local] Hint Resolve going_audit going_out_seq going_goodbyes going_snapshots going_writers : exaserve.

Lemma handle_receipt_keeps i e s : going cfg conn s -> keeps (handle_receipt ans conn i e) s.
Proof. intros Hg. unfold keeps, handle_receipt. wp_run; auto with exaserve. Qed.

Lemma handle_goodbye_keeps i e s : going cfg conn s -> keeps (handle_goodbye ans conn i e) s.
Proof. intros Hg. unfold keeps, handle_goodbye. wp_run; auto with exaserve. Qed.

Lemma handle_heartbeat_keeps i e s :
  going cfg conn s -> objects s !! conn = Some i -> keeps (handle_heartbeat mac cfg ans conn i e) s.
Proof.
  intros Hg Hi. destruct (going_session _ _ _ _ Hg Hi) as [Hsi _].
  assert (going cfg conn (set_objects (alter (SessionInfo.set_last_seen_at (an_now ans)) conn
    (objects s)) s)) as Hg'.
  { rewrite (alter_some _ _ _ _ Hi). apply (going_put _ _ _ i); [done|done|by repeat split|].
    destruct Hsi. by split. }
  unfold keeps, handle_heartbeat. wp_run; auto with exaserve.
Qed.

Lemma apply_observation_keeps i item s :
  going cfg conn s -> objects s !! conn = Some i ->
  keeps (apply_observation sha256 cfg ans conn i item) s.
Proof.
  intros Hg Hi. destruct (going_session _ _ _ _ Hg Hi) as [Hsi _].
  unfold keeps, apply_observation. apply wp_bind, wp_or_violate; [|auto with exaserve..].
  intros o Ho. apply wp_bind.
  assert (wp (match observation_identity cfg i o with
              | Some (reason, detail) => violate ans conn reason detail | None => mret tt end)
            (fun _ out s' => out = [] /\ s' = s) (fun _ s' => turn_inv cfg conn s') s) as Hid.
  { wp_run; auto with exaserve. }
  eapply wp_mono; [exact Hid| |done]. clear Hid. intros _ out s' [-> ->]. cbv zeta. apply wp_bind.
  set (c := ComponentObservation.component_id o). set (k := ComponentObservation.instance_id o).
  (* the session object after the instance check *)
  eapply (wp_mono _ (fun i1 _ s1 => going cfg conn s1 /\ objects s1 !! conn = Some i1 /\
    session_inv cfg i1 /\ SessionInfo.component_instances i1 !! c = Some k) _
    (fun _ s' => turn_inv cfg conn s')); [|clear Hsi Hg Hi|auto].
  - destruct (SessionInfo.component_instances i !! c) as [active|] eqn:Ea; wp_run; auto with exaserve.
    + bool_prop. subst active. split_and!; auto.
    + assert (session_inv cfg (SessionInfo.set_components (SessionInfo.seen_obs i)
        (SessionInfo.last_component_seq i) (<[c := k]> (SessionInfo.component_instances i)) i)) as Hsi1.
      { apply session_inv_components; [done|apply Hsi| |].
        - rewrite map_size_insert_None by done. unfold MAX_COMPONENTS_PER_RANK in *.
          apply Nat.leb_gt in H0. lia.
        - intros c' k' z Hz. apply (si_seqs _ _ Hsi) in Hz.
          rewrite lookup_insert_ne; [done|]. intros <-. congruence. }
      split_and!; [eapply going_put; try done; by repeat split| |done|].
      * cbn [objects set_objects]. by rewrite lookup_insert_eq.
      * cbn. by rewrite lookup_insert_eq.
  - intros i1 out s1 (Hg & Hi & Hsi & Hck).
    assert (forall seen, (length seen <= MAX_DEDUP_KEYS)%nat ->
      let i2 := SessionInfo.set_components seen (SessionInfo.last_component_seq i1)
                  (SessionInfo.component_instances i1) i1 in
      let s2 := set_objects (<[conn := i2]> (objects s1)) s1 in
      let i3 := SessionInfo.set_components seen
                  (<[(c, k) := ComponentObservation.sequence o]> (SessionInfo.last_component_seq i2))
                  (SessionInfo.component_instances i2) i2 in
      going cfg conn s2 /\ going cfg conn (set_objects (<[conn := i3]> (objects s2)) s2)) as Hput.
    { intros seen Hseen i2 s2 i3.
      assert (session_inv cfg i2) as Hsi2 by (apply session_inv_components; [done|done|apply Hsi..]).
      assert (going cfg conn s2) as Hg2 by (eapply going_put; [done|done|by repeat split|done]).
      split; [done|]. eapply going_put; [done|by apply lookup_insert_eq|by repeat split|].
      apply session_inv_components; [done|done|apply Hsi|]. cbn.
      intros c' k' z. destruct (decide ((c, k) = (c', k'))) as [[= <- <-]|Hne]; [done|].
      rewrite lookup_insert_ne by done. apply Hsi. }
    assert (forall f l b, SessionInfo.remember (ComponentObservation.dedup_key o) f
      (SessionInfo.seen_obs i1) = Ok (l, b) -> (length l <= MAX_DEDUP_KEYS)%nat) as Hrem.
    { intros f l b Hr. eapply remember_length; [exact Hr|apply Hsi]. }
    wp_run; auto with exaserve; subst;
      match goal with Hr : SessionInfo.remember _ _ _ = Ok _ |- _ =>
        destruct (Hput _ (Hrem _ _ _ Hr)) as [? ?] end; auto with exaserve.
Qed.
Lemma handle_observation_keeps i e s :
  going cfg conn s -> objects s !! conn = Some i ->
  keeps (handle_observation sha256 cfg ans conn i e) s.
Proof.
  intros Hg Hi. unfold keeps, handle_observation.
  pose proof (fun item => apply_observation_keeps i item s Hg Hi) as Ha.
  wp_run; auto with exaserve; (eapply wp_mono; [apply Ha|done|done]).
Qed.

(** *** Commands *)

Lemma dom_insert_issued (m : gmap string (Z * dict)) k v id :
  is_Some (m !! id) -> is_Some (<[k := v]> m !! id).
Proof. intros Hs. apply lookup_insert_is_Some'. by right. Qed.

Lemma going_issue s id req :
  going cfg conn s -> issued_commands s !! id = None ->
  (size (issued_commands s) < MAX_COMMAND_RECORDS)%nat ->
  going cfg conn (set_issued_commands (<[id := req]> (issued_commands s)) s).
Proof.
  intros [[[] Hc Ho] Hr] Hid Hsz. split; [|done]. split; [|done|done].
  split; cbn; try done.
  - rewrite map_size_insert_None by done. lia.
  - intros id' Hid'. apply dom_insert_issued. auto.
Qed.

Lemma remember_issued_keeps id req s :
  going cfg conn s ->
  wp (remember_issued_command id req)
    (fun _ out s' => going cfg conn s' /\ objects s' = objects s /\ out = [] /\
       is_Some (issued_commands s' !! id))
    (fun _ s' => turn_inv cfg conn s') s.
Proof.
  intros Hg. unfold remember_issued_command. wp_run; auto with exaserve.
  apply Nat.leb_gt in H0. split_and!; auto using going_issue. cbn. rewrite lookup_insert_eq. by eexists.
Qed.

Lemma send_command_to_keeps sent rank id op payload s :
  going cfg conn s ->
  wp (send_command_to mac cfg sent rank id op payload)
    (fun _ _ s' => going cfg conn s' /\ objects s' = objects s)
    (fun _ s' => turn_inv cfg conn s') s.
Proof.
  intros Hg. unfold send_command_to. wp_run; auto with exaserve.
  eapply wp_mono; [by apply remember_issued_keeps| |auto].
  intros [] out s1 (Hg1 & Ho & -> & _). wp_run; cbn; auto with exaserve.
Qed.

(** *** Snapshots *)

Lemma add_instances_fold (obs : list ComponentObservation.t) m m' :
  fold_res add_instance m obs = Ok m' ->
  m' = fold_left (fun m o => <[ComponentObservation.component_id o :=
                               ComponentObservation.instance_id o]> m) obs m /\
  NoDup (ComponentObservation.component_id <$> obs) /\
  Forall (fun o => m !! ComponentObservation.component_id o = None) obs.
Proof.
  revert m. induction obs as [|o obs IH]; cbn [fold_res fold_left]; intros m Hf.
  { injection Hf as ->. split_and!; constructor. }
  apply bind_Ok in Hf as (m1 & Ha & Hf). unfold add_instance in Ha.
  destruct (m !! _) eqn:E; [done|]. injection Ha as <-.
  destruct (IH _ Hf) as (-> & Hnd & Hn). split; [done|]. split.
  - constructor; [|done]. intros (o' & Ho & Hin)%list_elem_of_fmap.
    rewrite Forall_forall in Hn. specialize (Hn o' Hin). rewrite <- Ho, lookup_insert_eq in Hn. done.
  - constructor; [done|]. eapply Forall_impl; [exact Hn|]. intros o' Ho'. cbv beta in Ho' |- *.
    destruct (decide (ComponentObservation.component_id o = ComponentObservation.component_id o')) as [Heq|];
      [by rewrite Heq, lookup_insert_eq in Ho'|by rewrite lookup_insert_ne in Ho'].
Qed.

(** The component tables of a snapshot agree. *)
Lemma snapshot_tables (obs : list ComponentObservation.t) (seqs : gmap (string * string) Z) (inst : gmap string string) :
  NoDup (ComponentObservation.component_id <$> obs) ->
  Forall (fun o => inst !! ComponentObservation.component_id o = None) obs ->
  (forall c k z, seqs !! (c, k) = Some z -> inst !! c = Some k) ->
  forall c k z,
  fold_left (fun m o => <[(ComponentObservation.component_id o, ComponentObservation.instance_id o) :=
    ComponentObservation.sequence o]> m) obs seqs !! (c, k) = Some z ->
  fold_left (fun m o => <[ComponentObservation.component_id o :=
    ComponentObservation.instance_id o]> m) obs inst !! c = Some k.
Proof.
  revert seqs inst. induction obs as [|o obs IH]; cbn; intros seqs inst Hnd Hn Hs; [done|].
  inv Hnd as [|? ? Hno Hnd']. inv Hn as [|? ? Hn1 Hn2]. apply IH; [done| |].
  - rewrite Forall_forall in Hn2 |- *. intros o' Ho'. rewrite lookup_insert_ne; [by apply Hn2|].
    intros Heq. apply Hno. rewrite Heq. by apply list_elem_of_fmap_2.
  - intros c' k' z'. destruct (decide ((ComponentObservation.component_id o,
      ComponentObservation.instance_id o) = (c', k'))) as [[= <- <-]|Hne].
    + intros _. by rewrite lookup_insert_eq.
    + rewrite lookup_insert_ne by done. intros Hz%Hs. rewrite lookup_insert_ne; [done|].
      intros <-. congruence.
Qed.

Lemma remember_observations_length obs l l' :
  fold_res (remember_observation sha256) l obs = Ok l' -> (length l <= MAX_DEDUP_KEYS)%nat ->
  (length l' <= MAX_DEDUP_KEYS)%nat.
Proof.
  intros Hf. pattern l'. revert Hf. revert l.
  intros l Hf Hl. eapply (fold_res_ind _ (fun l => (length l <= MAX_DEDUP_KEYS)%nat)); [|exact Hl|exact Hf].
  intros l1 o l2 _ H1 Hr. unfold remember_observation in Hr.
  apply bind_Ok in Hr as (f & _ & Hr). apply bind_Ok in Hr as ([seen b] & Hr & [= <-]).
  by eapply remember_length.
Qed.

Lemma deliver_receipts_keeps rank l s :
  going cfg conn s ->
  wp (deliver_receipts ans rank l) (fun _ _ s' => s' = s) (fun _ s' => turn_inv cfg conn s') s.
Proof.
  intros Hg. induction l as [|r l IH]; cbn [deliver_receipts]; wp_run; auto with exaserve.
Qed.

Lemma deliver_observations_keeps rank l s :
  going cfg conn s ->
  wp (deliver_observations ans conn rank l) (fun _ _ s' => s' = s) (fun _ s' => turn_inv cfg conn s') s.
Proof.
  intros Hg. induction l as [|r l IH]; cbn [deliver_observations]; wp_run; auto with exaserve.
Qed.

Lemma install_snapshot_keeps i sid hash obs inst s :
  going cfg conn s -> objects s !! conn = Some i ->
  fold_res add_instance ∅ obs = Ok inst -> (size inst <= MAX_COMPONENTS_PER_RANK)%nat ->
  keeps (install_snapshot mac sha256 cfg ans conn i sid hash obs) s.
Proof.
  intros Hg Hi Hadd Hsz. destruct (going_session _ _ _ _ Hg Hi) as [Hsi _].
  apply add_instances_fold in Hadd as (-> & Hnd & Hn).
  pose proof (snapshot_tables obs ∅ ∅ Hnd Hn ltac:(intros ? ? ?; by rewrite lookup_empty)) as Htab.
  fold (snapshot_instances obs) in *. fold (snapshot_seqs obs) in *.
  unfold keeps, install_snapshot. generalize dependent (snapshot_instances obs). intros inst Hsz Htab.
  generalize dependent (snapshot_seqs obs). intros seqs Htab.
  assert (session_inv cfg (SessionInfo.set_components [] seqs inst i)) as H1
    by (apply session_inv_components; auto; cbn; lia).
  wp_step. wp_step. rewrite (alter_some _ _ _ _ Hi).
  set (s1 := set_objects _ s).
  assert (going cfg conn s1) as Hg1 by (eapply going_put; [done|done|by repeat split|done]).
  assert (objects s1 !! conn = Some (SessionInfo.set_components [] seqs inst i)) as Hi1
    by apply lookup_insert_eq.
  wp_step. wp_step; [|auto with exaserve].
  wp_step. wp_step. rewrite (alter_some _ _ _ _ Hi1). set (s2 := set_objects _ s1).
  assert (going cfg conn s2) as Hg2.
  { eapply going_put; [done|done|by repeat split|].
    assert (length a <= MAX_DEDUP_KEYS)%nat by (eapply remember_observations_length; [eassumption|cbn; lia]).
    destruct (session_inv_components cfg a seqs inst i) as [? ? ? ? ?]; auto. by split. }
  wp_step. eapply wp_mono; [by apply send_command_to_keeps| |auto].
  intros b out s3 [Hg3 _]. wp_run; auto with exaserve.
Qed.
Lemma validate_snapshot_items_Ok i items obs recs :
  validate_snapshot_items cfg i items = Ok (obs, recs) ->
  exists inst, fold_res add_instance ∅ obs = Ok inst /\ (size inst <= MAX_COMPONENTS_PER_RANK)%nat.
Proof.
  unfold validate_snapshot_items. intros (acc & _ & (inst & Hf & (u & Hsz & [= ->])%bind_Ok)%bind_Ok)%bind_Ok.
  exists inst. split; [done|]. apply raise_if_Ok, Nat.ltb_ge in Hsz. done.
Qed.

Lemma handle_snapshot_keeps i e s :
  going cfg conn s -> objects s !! conn = Some i ->
  keeps (handle_snapshot mac sha256 cfg ans conn i e) s.
Proof.
  intros Hg Hi. unfold keeps, handle_snapshot. wp_step. wp_step.
  destruct (assemble_snapshot _ _ _ _ _) as [buffer verdict]. wp_step. wp_step.
  set (s1 := set_snapshots _ s). assert (going cfg conn s1) as Hg1 by (by apply going_snapshots).
  assert (objects s1 !! conn = Some i) as Hi1 by done. clearbody s1. clear Hg Hi s.
  destruct verdict; wp_run; auto with exaserve.
  all: subst; match goal with Hv : validate_snapshot_items _ _ _ = Ok _ |- _ =>
         apply validate_snapshot_items_Ok in Hv as (inst & Hadd & Hsz) end.
  all: wp_run; auto with exaserve; try (eapply wp_mono; [by eapply install_snapshot_keeps|done|done]).
  all: eapply wp_mono; [by apply deliver_receipts_keeps| |done]; intros [] out s' ->; cbv beta.
  all: eapply wp_mono; [by apply deliver_observations_keeps| |done]; intros [] out' s' ->; cbv beta.
  all: eapply wp_mono; [by eapply install_snapshot_keeps|done|done].
Qed.

Lemma going_refresh s :
  going cfg conn s ->
  going cfg conn (set_events (all_authenticated s) (forallb (is_established s) (ranks cfg)) s).
Proof.
  intros [[[] Hc Ho] Hr]. split; [|done]. split; [|done|done]. split; try done.
  cbn. intros Hf r Hrange. rewrite forallb_forall in Hf.
  apply (Hf r), list_elem_of_In, elem_of_seqZ. lia.
Qed.

Lemma acknowledge_snapshot_keeps i payload s :
  going cfg conn s -> is_Some (objects s !! conn) ->
  keeps (acknowledge_snapshot cfg ans conn i payload) s.
Proof.
  intros Hg [i0 Hi]. destruct (going_session _ _ _ _ Hg Hi) as [Hsi Hreg].
  unfold keeps, acknowledge_snapshot, refresh_established_event.
  wp_run; auto with exaserve.
  apply going_refresh. rewrite (alter_some _ _ _ _ Hi).
  eapply going_put; [done|done|by repeat split|]. destruct Hsi. by split.
Qed.

Lemma expect_goodbye_keeps rank s :
  going cfg conn s ->
  wp (expect_goodbye rank)
    (fun _ _ s' => going cfg conn s' /\ (is_Some (objects s !! conn) -> is_Some (objects s' !! conn)))
    (fun _ s' => turn_inv cfg conn s') s.
Proof.
  intros Hg. unfold expect_goodbye. wp_run; auto with exaserve.
  match goal with Hi : objects s !! ?c = Some ?i |- _ =>
    rewrite (alter_some _ _ _ _ Hi); pose proof (idle_put cfg s c i
      (SessionInfo.set_expected_goodbye true i) (idle_of_going _ _ _ Hg) Hi ltac:(by repeat split)) as Hp;
    assert (session_inv cfg i) as Hsi by (eapply i_objects; [apply Hg|exact Hi]) end.
  split; [|cbn; intros; apply lookup_insert_is_Some'; by right].
  apply going_goodbyes, going_of_idle; [|apply Hg]. apply Hp. destruct Hsi. by split.
Qed.

Lemma going_results s id r :
  going cfg conn s -> is_Some (issued_commands s !! id) ->
  going cfg conn (set_command_results (<[id := r]> (command_results s)) s).
Proof.
  intros [[[] Hc Ho] Hr] Hid. split; [|done]. split; [|done|done]. split; try done.
  cbn. intros id'. rewrite lookup_insert_is_Some'. intros [<-|]; auto.
Qed.

Lemma handle_command_result_keeps i e s :
  going cfg conn s -> objects s !! conn = Some i ->
  keeps (handle_command_result cfg ans conn i e) s.
Proof.
  intros Hg Hi. unfold keeps, handle_command_result.
  wp_step. wp_step; [|auto with exaserve..]. wp_step. wp_step.
  destruct (attr "command_id" a) as [| | | |id| |]; try (by apply wp_ret).
  destruct (issued_commands s !! id) as [[r p]|] eqn:Eid; [|wp_run; auto with exaserve].
  do 4 (wp_step; wp_step; [wp_run; auto with exaserve|]). wp_step. wp_step.
  assert (going cfg conn (set_command_results (<[id := dset "rank" (VInt (Envelope.sender_rank e)) a]>
    (command_results s)) s)) as Hg1 by (apply going_results; [done|by rewrite Eid]).
  set (s1 := set_command_results _ s) in *. assert (objects s1 !! conn = Some i) as Hi1 by done. clearbody s1.
  wp_step. eapply (wp_mono _ (fun _ _ s' => going cfg conn s' /\ is_Some (objects s' !! conn))
    _ (fun _ s' => turn_inv cfg conn s')); [|intros [] out s2 [Hg2 Hi2]|done].
  - wp_step; [|split; [done|by eexists]].
    eapply wp_mono; [by apply expect_goodbye_keeps| |done]. intros [] out s2 [Hg2 Hi2]. split; [done|].
    apply Hi2. by eexists.
  - wp_step; [|done]. eapply wp_mono; [by apply acknowledge_snapshot_keeps|done|done].
Qed.

(** *** Registration *)

Lemma same_node_sym a b : same_node a b = same_node b a.
Proof.
  unfold same_node. destruct (decide (canonical_node_id a = canonical_node_id b)) as [E|E].
  - by rewrite E.
  - rewrite !bool_decide_false by congruence. by rewrite !andb_false_r.
Qed.

(** A registration adds one fresh session for a rank without a registered one. *)
Lemma register_going now e s s' :
  going cfg conn s -> objects s !! conn = None -> register cfg conn now e s = Ok s' ->
  going cfg conn s' /\
  exists i, objects s' !! conn = Some i /\ SessionInfo.rank i = Envelope.sender_rank e /\
    SessionInfo.established i = false.
Proof.
  intros [[Hinv Hc Ho] Hr] Hnone Hreg. unfold register in Hreg.
  destruct (nonempty_str _) as [inst|]; [|done].
  next_guard Hreg Hfields. next_guard Hreg Hrange. next_guard Hreg Hseq. next_guard Hreg Hplanned.
  next_guard Hreg Hnr. next_guard Hreg Hmoved. next_guard Hreg Hdup. apply Ok_inj in Hreg.
  set (rank := Envelope.sender_rank e) in *. set (node := Envelope.sender_node e) in *.
  set (info := SessionInfo.fresh _ _ _ _ _) in Hreg. bool_prop.
  set (s3 := set_nodes_by_rank _ _) in Hreg.
  assert (inv cfg s3) as Hinv3.
  { destruct Hinv as [? ? ? ? Hobj Hses Hregd Hnodes Hevt]. split; try done.
    - intros c i. cbn. destruct (decide (conn = c)) as [->|]; [|rewrite lookup_insert_ne by done; apply Hobj].
      rewrite lookup_insert_eq. intros [= <-]. split; cbn; try done; rewrite ?map_size_empty; lia.
    - intros r c. cbn. destruct (decide (rank = r)) as [->|].
      + rewrite lookup_insert_eq. intros [= <-]. exists info. by rewrite lookup_insert_eq.
      + rewrite lookup_insert_ne by done. intros Hs. destruct (Hses r c Hs) as (i & Hi & Hri).
        exists i. rewrite lookup_insert_ne; [done|]. intros ->. congruence.
    - intros c i. cbn. destruct (decide (conn = c)) as [->|].
      + rewrite lookup_insert_eq. intros [= <-] _. cbn. by rewrite !lookup_insert_eq.
      + rewrite lookup_insert_ne by done. intros Hi Hri. destruct (Hregd c i Hi Hri) as [Hs1 Hn1].
        assert (rank <> SessionInfo.rank i) as Hne.
        { intros Heq. unfold is_registered in Hnr. rewrite Heq, Hs1 in Hnr. cbn in Hnr.
          rewrite Hi in Hnr. congruence. }
        by rewrite !lookup_insert_ne.
    - cbn. assert (forall r' n', rank <> r' -> nodes_by_rank s !! r' = Some n' -> same_node n' node = false)
        as Hdup'.
      { intros r' n' Hne Hn'. apply not_true_is_false. intros Hsame.
        apply not_true_iff_false in Hdup. apply Hdup. apply existsb_exists. exists (r', n').
        split; [by apply list_elem_of_In, elem_of_map_to_list|]. cbn. rewrite Hsame.
        by rewrite (proj2 (Z.eqb_neq _ _)) by congruence. }
      intros r r' n n' Hne. destruct (decide (rank = r)) as [<-|], (decide (rank = r')) as [<-|]; try done.
      + rewrite lookup_insert_eq, lookup_insert_ne by done. intros [= <-] Hn'.
        rewrite same_node_sym. by eapply Hdup'.
      + rewrite lookup_insert_ne, lookup_insert_eq by done. intros Hn' [= <-]. by eapply Hdup'.
      + rewrite !lookup_insert_ne by done. by apply Hnodes.
    - cbn. intros Hal r Hrr. pose proof (Hevt Hal r Hrr) as Hes.
      assert (rank <> r) as Hne.
      { intros <-. unfold is_established in Hes. unfold is_registered in Hnr.
        destruct (_ ≫= _); [|done]. apply andb_prop in Hes as [Hes _]. congruence. }
      unfold is_established in *. cbn. rewrite lookup_insert_ne by done.
      destruct (sessions s !! r) as [c|] eqn:Es; [|done]. cbn in *.
      rewrite lookup_insert_ne; [done|]. intros ->. by rewrite Hnone in Hes. }
  assert (going cfg conn s3) as Hg3.
  { split; [split; [done|done|]|].
    - intros c i Hne. cbn. rewrite lookup_insert_ne by done. by apply Ho.
    - intros i. cbn. rewrite lookup_insert_eq. by intros [= <-]. }
  split.
  - subst s'. destruct (forallb _ _); [|done]. eapply going_same; [done|]. shape.
  - exists info. subst s'. split; [|done]. destruct (forallb _ _); cbn; by rewrite lookup_insert_eq.
Qed.
(** A session that is no longer registered. *)
Lemma inv_retire s c i i' :
  inv cfg s -> objects s !! c = Some i -> SessionInfo.rank i' = SessionInfo.rank i ->
  session_inv cfg i' -> SessionInfo.registered i' = false -> all_established s = false ->
  inv cfg (set_objects (<[c := i']> (objects s)) s).
Proof.
  intros [? ? ? ? Hobj Hses Hregd Hnodes Hevt] Hc Hrk Hsi Hnr Hal. split; try done; cbn.
  - intros c' i0. destruct (decide (c = c')) as [->|]; [|rewrite lookup_insert_ne by done; apply Hobj].
    rewrite lookup_insert_eq. by intros [= <-].
  - intros r c' Hr. destruct (Hses r c' Hr) as (i0 & Hi0 & Hr0).
    destruct (decide (c = c')) as [->|]; [|exists i0; by rewrite lookup_insert_ne].
    exists i'. rewrite lookup_insert_eq. split; [done|]. congruence.
  - intros c' i0. destruct (decide (c = c')) as [->|]; [|rewrite lookup_insert_ne by done; apply Hregd].
    rewrite lookup_insert_eq. intros [= <-]. congruence.
  - congruence.
Qed.

Lemma event_excludes s c i :
  inv cfg s -> objects s !! c = Some i -> SessionInfo.registered i = true ->
  SessionInfo.established i = false -> all_established s = false.
Proof.
  intros Hinv Hc Hr He. apply not_true_is_false. intros Hal.
  pose proof (i_event _ _ Hinv Hal _ (si_rank _ _ (i_objects _ _ Hinv _ _ Hc))) as Hes.
  unfold is_established in Hes. rewrite (proj1 (i_registered _ _ Hinv _ _ Hc Hr)) in Hes. cbn in Hes.
  rewrite Hc, He, andb_false_r in Hes. done.
Qed.

Lemma turn_inv_reject s i :
  going cfg conn s -> objects s !! conn = Some i -> SessionInfo.established i = false ->
  turn_inv cfg conn (set_objects (alter (SessionInfo.set_registered false) conn (objects s)) s).
Proof.
  intros Hg Hi He. rewrite (alter_some _ _ _ _ Hi).
  destruct (going_session _ _ _ _ Hg Hi) as [Hsi Hreg]. destruct Hg as [[Hinv Hc Ho] Hr].
  split; [|done|].
  - eapply inv_retire; [done|done|done| |done|by eapply event_excludes].
    destruct Hsi. split; try done. cbn. congruence.
  - intros c i0 Hne. cbn. rewrite lookup_insert_ne by done. by apply Ho.
Qed.

Lemma handle_register_keeps e s :
  going cfg conn s -> keeps (handle_register mac cfg ans conn e) s.
Proof.
  intros Hg. unfold keeps, handle_register. wp_step. wp_step. wp_step. wp_step.
  { wp_run. auto with exaserve. }
  assert (objects s !! conn = None) as Hnone.
  { destruct (objects s !! conn) as [i|] eqn:Ei; [|done]. exfalso.
    destruct (going_session _ _ _ _ Hg Ei) as [_ Hreg]. unfold session_of in *.
    rewrite Ei in *. congruence. }
  destruct (register cfg conn (an_now ans) e s) as [s1|err] eqn:Hreg; [|wp_run; auto with exaserve].
  destruct (register_going _ _ _ _ Hg Hnone Hreg) as (Hg1 & i & Hi & Hrk & He).
  wp_step. wp_step. wp_step. unfold session_of. rewrite Hi. wp_step. wp_step.
  cbn beta iota. wp_step; [|auto with exaserve]. destruct a as [ok detail].
  wp_run; auto with exaserve.
  eapply turn_inv_reject; [by apply going_audit|exact Hi|done].
Qed.

Lemma handle_envelope_keeps e s :
  going cfg conn s -> keeps (handle_envelope mac sha256 cfg ans conn e) s.
Proof.
  intros Hg. unfold keeps, handle_envelope.
  destruct (check_scope cfg e); [wp_run; auto with exaserve|].
  case_bool_decide; [by apply handle_register_keeps|]. wp_step. wp_step.
  destruct (session_of conn s) as [i|] eqn:Hi; [|wp_run; auto with exaserve].
  unfold session_of in Hi. destruct (going_session _ _ _ _ Hg Hi) as [Hsi Hreg].
  rewrite Hreg. cbn [negb]. destruct (_ || _); [wp_run; auto with exaserve|].
  destruct (_ <=? _); [wp_run; auto with exaserve|]. wp_step. wp_step.
  set (i1 := SessionInfo.set_last_seq _ _). set (s1 := set_objects _ s).
  assert (going cfg conn s1) as Hg1.
  { eapply going_put; [done|done|by repeat split|]. destruct Hsi. by split. }
  assert (objects s1 !! conn = Some i1) as Hi1 by (cbn; by rewrite lookup_insert_eq).
  clearbody s1 i1. clear Hg Hi Hsi Hreg.
  destruct (Envelope.kind e); try (by wp_step).
  - eapply wp_mono; [by apply handle_observation_keeps|done|done].
  - eapply wp_mono; [by apply handle_command_result_keeps|done|done].
  - eapply wp_mono; [by apply handle_snapshot_keeps|done|done].
  - eapply wp_mono; [by apply handle_receipt_keeps|done|done].
  - eapply wp_mono; [by apply handle_heartbeat_keeps|done|done].
  - eapply wp_mono; [by apply handle_goodbye_keeps|done|done].
Qed.

(** The end of a handler leaves no session of it behind. *)
Lemma finish_idle s : turn_inv cfg conn s -> idle cfg (finish ans conn s).1.
Proof.
  intros [Hinv Hc Ho]. unfold finish, session_of.
  assert (forall s1, inv cfg s1 -> (forall i, objects s1 !! conn = Some i -> SessionInfo.registered i = false) ->
    (forall c i, c <> conn -> objects s1 !! c = Some i -> SessionInfo.registered i = true <-> c ∈ connections s1) ->
    idle cfg (set_connections (connections s1 ∖ {[ conn ]}) s1) /\ idle cfg (cleanup conn s1)) as Hend.
  { intros s1 Hi1 Hr1 Ho1.
    cut (forall s2, same_shape s1 s2 -> idle cfg (set_connections (connections s1 ∖ {[ conn ]}) s2)).
    { intros Hcut. split; apply Hcut; shape. }
    intros s2 Hsh. pose proof Hsh as (E1 & E2 & E3 & E4 & E5 & E6 & E7 & E8 & E9).
    split.
    - apply (inv_same cfg s1); try done; cbn.
      + destruct E8 as [->|]; [apply Hi1|done].
      + rewrite E7. apply Hi1.
    - cbn. rewrite E3. intros c i Hi. destruct (decide (c = conn)) as [->|Hne].
      + rewrite (Hr1 _ Hi). set_solver.
      + rewrite (Ho1 _ _ Hne Hi). set_solver. }
  destruct (objects s !! conn) as [i|] eqn:Hi.
  - destruct (SessionInfo.registered i) eqn:Hreg.
    + cbn [fst]. set (s1 := set_objects _ s). set (s2 := set_events false false s1).
      assert (inv cfg s2) as Hinv2.
      { assert (s2 = set_objects (<[conn := SessionInfo.set_established false
          (SessionInfo.set_registered false i)]> (objects (set_events false false s)))
          (set_events false false s)) as ->.
        { unfold s2, s1. by rewrite (alter_some _ _ _ _ Hi). }
        eapply inv_retire; [|exact Hi|done| |done|done].
        - eapply inv_same; [exact Hinv|apply Hinv|apply Hinv|done..].
        - destruct (i_objects _ _ Hinv _ _ Hi). by split. }
      assert (objects s2 !! conn = Some (SessionInfo.set_established false
          (SessionInfo.set_registered false i))) as Hi2.
      { unfold s2, s1. cbn. by rewrite lookup_alter_eq, Hi. }
      assert (forall c i, c <> conn -> objects s2 !! c = Some i ->
        SessionInfo.registered i = true <-> c ∈ connections s2) as Ho2.
      { intros c i0 Hne. unfold s2, s1. cbn. rewrite lookup_alter_ne by done. by apply Ho. }
      assert (forall i, objects s2 !! conn = Some i -> SessionInfo.registered i = false) as Hr2.
      { intros i0. rewrite Hi2. by intros [= <-]. }
      destruct (an_session ans).
      * apply (Hend s2 Hinv2 Hr2 Ho2).
      * apply (Hend s2 Hinv2 Hr2 Ho2).
    + cbn [fst]. apply (Hend s Hinv); [|done]. intros i0. rewrite Hi. by intros [= <-].
  - cbn [fst]. apply (Hend s Hinv); [|done]. intros i0. by rewrite Hi.
Qed.

Lemma handle_turn_idle m s :
  going cfg conn s -> keeps m s -> idle cfg (handle_turn ans conn m s).1.
Proof.
  intros Hg Hm. unfold keeps, wp, handle_turn in *. destruct (m s) as [[s1 out] [[]| |e]].
  - by eapply idle_of_going.
  - destruct (finish ans conn s1) as [s2 out2] eqn:Ef. cbn.
    pose proof (finish_idle s1 Hm) as Hi. by rewrite Ef in Hi.
  - match goal with |- context [finish ans conn ?x] => set (s3 := x) end.
    destruct (finish ans conn s3) as [s4 out2] eqn:Ef. cbn.
    assert (turn_inv cfg conn s3) as Ht3.
    { destruct Hm as [Hinv Hc Ho]. split; [|done|done]. apply (inv_same cfg s1); try done; unfold s3; cbn.
      - unfold keep_last. rewrite length_drop. lia.
      - unfold keep_last. rewrite length_drop. lia. }
    pose proof (finish_idle s3 Ht3) as Hi. by rewrite Ef in Hi.
Qed.
End preserves.

(** ** Reachable states *)

Section reachable.
  Context `{FloatText} (mac : text -> text -> text) (sha256 : text -> string) (cfg : config).

Lemma idle_init : idle cfg init.
Proof.
  split; [split; cbn|]; rewrite ?map_size_empty; try done; try lia;
    intros *; rewrite lookup_empty; first [done|by intros []].
Qed.

Lemma idle_same s s' : idle cfg s -> same_shape s s' -> idle cfg s'.
Proof.
  intros [Hi Hl] (E1 & E2 & E3 & E4 & E5 & E6 & E7 & E8 & E9).
  split; [|by rewrite E3, E6]. apply (inv_same cfg s); try done.
  - destruct E8 as [->|]; [apply Hi|done].
  - rewrite E7. apply Hi.
Qed.

Lemma send_command_idle sent rank id op payload s :
  idle cfg s ->
  wp (send_command mac cfg sent rank id op payload) (fun _ _ s' => idle cfg s') (fun _ s' => idle cfg s') s.
Proof.
  intros Hi. unfold send_command, send_command_to, remember_issued_command.
  assert (forall s1 q, idle cfg s1 -> idle cfg (set_out_seq q s1)) as Hq
    by (intros; eapply idle_same; [done|shape]).
  assert (forall s1 req, idle cfg s1 -> issued_commands s1 !! id = None ->
    (MAX_COMMAND_RECORDS <=? size (issued_commands s1))%nat = false ->
    idle cfg (set_issued_commands (<[id := req]> (issued_commands s1)) s1)) as Hissue.
  { intros s1 req [[] Hl] Hn Hsz%Nat.leb_gt. split; [|done]. split; cbn; try done.
    - rewrite map_size_insert_None by done. lia.
    - intros id' Hid'. apply lookup_insert_is_Some'. right. auto. }
  wp_run; auto.
Qed.

Lemma expect_goodbye_idle rank s :
  idle cfg s -> wp (expect_goodbye rank) (fun _ _ s' => idle cfg s') (fun _ s' => idle cfg s') s.
Proof.
  intros Hi. unfold expect_goodbye. wp_run; auto.
  match goal with Ho : objects s !! ?c = Some ?i |- _ =>
    rewrite (alter_some _ _ _ _ Ho);
    assert (session_inv cfg i) as Hsi by (eapply i_objects; [apply Hi|exact Ho]);
    pose proof (idle_put cfg s c i (SessionInfo.set_expected_goodbye true i) Hi Ho
      ltac:(by repeat split)) as Hp end.
  eapply idle_same; [apply Hp; destruct Hsi; by split|shape].
Qed.

Lemma run_idle {A} (m : M A) s :
  wp m (fun _ _ s' => idle cfg s') (fun _ s' => idle cfg s') s -> idle cfg (run m s).1.1.
Proof. unfold wp, run. by destruct (m s) as [[s' out] [a| |e]]. Qed.

Lemma step_idle ev s : idle cfg s -> idle cfg (step mac sha256 cfg ev s).1.
Proof.
  intros Hi. destruct ev as [conn|conn ans e|conn ans reason|conn ans|sent rank id op p|rank]; cbn [step].
  - destruct (_ || _) eqn:Hb; [done|]. cbn. bool_prop. destruct Hi as [Hinv Hl]. split.
    + by apply (inv_same cfg s); try apply Hinv.
    + cbn. intros c i Hc. rewrite (Hl c i Hc). split; [set_solver|].
      intros [Hin|Hin]%elem_of_union; [done|]. apply elem_of_singleton in Hin as ->.
      exfalso. match goal with Hn : ~ is_Some _ |- _ => apply Hn end. by rewrite Hc.
  - case_bool_decide as Hc; [|done]. pose proof (going_of_idle _ _ _ Hi Hc) as Hg.
    by apply handle_turn_idle, handle_envelope_keeps.
  - case_bool_decide as Hc; [|done]. pose proof (going_of_idle _ _ _ Hi Hc) as Hg.
    apply handle_turn_idle; [done|]. unfold keeps, rejected_frame. wp_run.
    by apply going_weaken, going_audit.
  - case_bool_decide as Hc; [|done]. pose proof (going_of_idle _ _ _ Hi Hc) as Hg.
    apply handle_turn_idle; [done|]. unfold keeps. wp_run. by apply going_weaken.
  - pose proof (run_idle _ _ (send_command_idle sent rank id op p s Hi)) as Hr.
    by destruct (run _ s) as [[s1 out] r].
  - pose proof (run_idle _ _ (expect_goodbye_idle rank s Hi)) as Hr.
    by destruct (run _ s) as [[s1 out] r].
Qed.

Lemma steps_idle evs s : idle cfg s -> idle cfg (steps mac sha256 cfg evs s).1.
Proof.
  revert s. induction evs as [|ev evs IH]; intros s Hi; [done|]. cbn [steps].
  pose proof (step_idle ev s Hi) as H1. destruct (step mac sha256 cfg ev s) as [s1 out1]. cbn in H1.
  pose proof (IH s1 H1) as H2. destruct (steps mac sha256 cfg evs s1) as [s2 out2]. done.
Qed.

Lemma reachable_idle evs : idle cfg (steps mac sha256 cfg evs init).1.
Proof. apply steps_idle, idle_init. Qed.

(** Whatever frames arrive and whatever the head sends, the listener's memory stays
    bounded: audit and failure records, command identities and their results, and
    per session the deduplication keys and the components with their sequences. *)
Theorem listener_memory_bounded (evs : list event) :
  let s := (steps mac sha256 cfg evs init).1 in
  (length (audit s) <= 1000)%nat /\ (length (handler_failures s) <= 1000)%nat /\
  (size (issued_commands s) <= N.to_nat 4096)%nat /\
  (forall id, is_Some (command_results s !! id) -> is_Some (issued_commands s !! id)) /\
  (forall c i, objects s !! c = Some i ->
     (length (SessionInfo.seen_obs i) <= N.to_nat 4096)%nat /\
     (size (SessionInfo.component_instances i) <= 64)%nat /\
     forall component k z, SessionInfo.last_component_seq i !! (component, k) = Some z ->
       SessionInfo.component_instances i !! component = Some k).
Proof.
  intros s. destruct (reachable_idle evs) as [[] _].
  split_and!; auto. intros c i Hc. destruct (i_objects0 _ _ Hc). auto.
Qed.

(** C33: At any time each rank has at most one registered session, registered sessions of
    different ranks come from different nodes, a session exists exactly while its
    handler lives, and the all-established event is set only when every planned rank
    has an established session. *)
Theorem sessions_exclusive (evs : list event) :
  let s := (steps mac sha256 cfg evs init).1 in
  (forall c c' i i', objects s !! c = Some i -> objects s !! c' = Some i' ->
     SessionInfo.registered i = true -> SessionInfo.registered i' = true -> c <> c' ->
     SessionInfo.rank i <> SessionInfo.rank i' /\
     same_node (SessionInfo.node_id i) (SessionInfo.node_id i') = false) /\
  (forall c i, objects s !! c = Some i -> (SessionInfo.registered i = true <-> c ∈ connections s)) /\
  (all_established s = true -> forall r, 0 <= r < expected_ranks cfg -> is_established s r = true).
Proof.
  intros s. destruct (reachable_idle evs) as [Hinv Hl]. split_and!; [|done|apply Hinv].
  intros c c' i i' Hc Hc' Hr Hr' Hne.
  destruct (i_registered _ _ Hinv _ _ Hc Hr) as [Hs Hn].
  destruct (i_registered _ _ Hinv _ _ Hc' Hr') as [Hs' Hn'].
  assert (SessionInfo.rank i <> SessionInfo.rank i') as Hrk by congruence.
  split; [done|]. by eapply i_nodes.
Qed.
End reachable.
