(* ===== verification/DeliveryProps.v ===== *)
(** What the turns of the listener do to sessions: a session is established only by
    the exact acknowledgment of its own complete snapshot, and incremental
    observations are delivered in order, at most once, and only for the session's
    own rank and node. *)

From S2P Require Import Prelude PyValue Json JsonProps Envelopes EnvelopesProps Frames Contracts Snapshots SnapshotsProps NodeChannel Listener ListenerProps.
Import ControlListener.

(** ** What a turn does to its session object *)

Definition no_observation (out : list output) : Prop :=
  Forall (fun o => match o with OObservation _ _ _ => False | _ => True end) out.

Lemma violations_no_observation out : Forall is_violation out -> no_observation out.
Proof. intros Hf. eapply Forall_impl; [exact Hf|]. by intros []. Qed.

Lemma no_observation_nil : no_observation [].
Proof. constructor. Qed.

Lemma no_observation_app a b : no_observation (a ++ b) <-> no_observation a /\ no_observation b.
Proof. apply Forall_app. Qed.

Lemma no_observation_cons o l :
  no_observation (o :: l) <-> match o with OObservation _ _ _ => False | _ => True end /\ no_observation l.
Proof. apply Forall_cons. Qed.

(** The parts of a session object that matter to establishment and delivery. *)
Definition same_identity (i i' : SessionInfo.t) : Prop :=
  SessionInfo.rank i' = SessionInfo.rank i /\ SessionInfo.node_id i' = SessionInfo.node_id i /\
  SessionInfo.registered i' = SessionInfo.registered i.
Definition same_pending (i i' : SessionInfo.t) : Prop :=
  SessionInfo.pending_snapshot_id i' = SessionInfo.pending_snapshot_id i /\
  SessionInfo.pending_snapshot_hash i' = SessionInfo.pending_snapshot_hash i /\
  SessionInfo.pending_snapshot_command_id i' = SessionInfo.pending_snapshot_command_id i.
Definition same_seqs (i i' : SessionInfo.t) : Prop :=
  SessionInfo.last_component_seq i' = SessionInfo.last_component_seq i.

(** Nothing of it changes. *)
Definition steady (i i' : SessionInfo.t) (out : list output) : Prop :=
  same_identity i i' /\ SessionInfo.established i' = SessionInfo.established i /\
  same_pending i i' /\ same_seqs i i' /\ no_observation out.

Lemma steady_refl i out : no_observation out -> steady i i out.
Proof. by repeat split. Qed.

Section session_effects.
  Context `{FloatText} (mac : text -> text -> text) (sha256 : text -> string) (cfg : config).
  Context (ans : answers) (conn : nat).

(** The turn changed at most the object of [conn], to one related by [R]. *)
Definition changes (R : SessionInfo.t -> list output -> Prop) (s : t) (out : list output) (s' : t)
    : Prop :=
  sessions s' = sessions s /\ exists i', objects s' = <[conn := i']> (objects s) /\ R i' out.

Lemma changes_same (R : SessionInfo.t -> list output -> Prop) s s' i out :
  objects s !! conn = Some i -> objects s' = objects s -> sessions s' = sessions s -> R i out ->
  changes R s out s'.
Proof.
  intros Hi Ho Hs HR. split; [done|]. exists i. split; [|done]. by rewrite insert_id, Ho.
Qed.

Lemma changes_put (R : SessionInfo.t -> list output -> Prop) s s' i' out :
  objects s' = <[conn := i']> (objects s) -> sessions s' = sessions s -> R i' out ->
  changes R s out s'.
Proof. intros Ho Hs HR. split; [done|]. by exists i'. Qed.

Definition turns (R : SessionInfo.t -> list output -> Prop) {A} (m : M A) (s : t) : Prop :=
  wp m (fun _ out s' => changes R s out s') (fun out s' => changes R s out s') s.

Lemma turns_mono (R R' : SessionInfo.t -> list output -> Prop) {A} (m : M A) s :
  turns R m s -> (forall i out, R i out -> R' i out) -> turns R' m s.
Proof.
  intros Hm HR. eapply wp_mono; [exact Hm|..]; intros *; intros [Hs (i' & Ho & Hi')];
    (split; [done|]; exists i'; auto).
Qed.

#[local] Hint Resolve violations_no_observation no_observation_nil steady_refl : exaserve.

Ltac quiet :=
  repeat (rewrite no_observation_app || rewrite no_observation_cons);
  repeat match goal with |- _ /\ _ => split end; try exact I; auto with exaserve.
Ltac unchanged Hi := apply (changes_same _ _ _ _ _ Hi); [reflexivity|reflexivity|apply steady_refl; quiet].

Lemma handle_receipt_steady i e s :
  objects s !! conn = Some i -> turns (steady i) (handle_receipt ans conn i e) s.
Proof. intros Hi. unfold turns, handle_receipt. wp_run; unchanged Hi. Qed.

Lemma handle_goodbye_steady i e s :
  objects s !! conn = Some i -> turns (steady i) (handle_goodbye ans conn i e) s.
Proof. intros Hi. unfold turns, handle_goodbye. wp_run; unchanged Hi. Qed.

Lemma handle_heartbeat_steady i e s :
  objects s !! conn = Some i -> turns (steady i) (handle_heartbeat mac cfg ans conn i e) s.
Proof.
  intros Hi. unfold turns, handle_heartbeat. wp_run; try unchanged Hi.
  all: rewrite (alter_some _ _ _ _ Hi);
    eapply changes_put; [reflexivity|reflexivity|]; repeat split; quiet.
Qed.

(** *** Incremental observations *)

(** Delivered at most once, in order and only to its own session. *)
Definition delivers (i i' : SessionInfo.t) (out : list output) : Prop :=
  same_identity i i' /\ SessionInfo.established i' = SessionInfo.established i /\
  same_pending i i' /\
  ((same_seqs i i' /\ no_observation out) \/
   (exists o before after,
      let key := (ComponentObservation.component_id o, ComponentObservation.instance_id o) in
      out = before ++ OObservation conn (SessionInfo.rank i) o :: after /\
      no_observation before /\ no_observation after /\
      SessionInfo.established i = true /\ wf_observation o = true /\
      observation_identity cfg i o = None /\
      default (-1) (SessionInfo.last_component_seq i !! key) < ComponentObservation.sequence o /\
      SessionInfo.last_component_seq i' =
        <[key := ComponentObservation.sequence o]> (SessionInfo.last_component_seq i))).

Lemma steady_delivers i i' out : steady i i' out -> delivers i i' out.
Proof. intros (?&?&?&?&?). unfold delivers. auto 10. Qed.

Lemma apply_observation_delivers i item s :
  objects s !! conn = Some i -> SessionInfo.established i = true ->
  turns (delivers i) (apply_observation sha256 cfg ans conn i item) s.
Proof.
  intros Hi Hest. unfold turns, apply_observation. cbv zeta.
  assert (forall out x, no_observation out -> changes (delivers i) s out (set_audit x s)) as Hq.
  { intros out x Hout. apply (changes_same _ _ _ _ _ Hi); [done|done|].
    by apply steady_delivers, steady_refl. }
  assert (forall out, no_observation out -> changes (delivers i) s out s) as Hq'.
  { intros out Hout. apply (changes_same _ _ _ _ _ Hi); [done|done|].
    by apply steady_delivers, steady_refl. }
  assert (forall seen inst out s', no_observation out -> sessions s' = sessions s ->
    objects s' = <[conn := SessionInfo.set_components seen (SessionInfo.last_component_seq i) inst i]>
      (objects s) -> changes (delivers i) s out s') as Hc.
  { intros seen inst out s' Hout Hs Ho. eapply changes_put; [exact Ho|done|].
    apply steady_delivers. by repeat split. }
  wp_step. wp_step; [|auto with exaserve..]. wp_step.
  match goal with Hv : validate_observation _ = Ok _ |- _ => apply validate_observation_wf in Hv as Hwf end.
  destruct (observation_identity cfg i a) as [[reason detail]|] eqn:Hid;
    [wp_run; apply Hq; quiet|].
  wp_step. wp_step.
  set (c := ComponentObservation.component_id a). set (k := ComponentObservation.instance_id a).
  (* the object after the instance check differs at most in its instances *)
  eapply (wp_mono _ (fun i1 out s1 => out = [] /\ sessions s1 = sessions s /\
    (exists inst, i1 = SessionInfo.set_components (SessionInfo.seen_obs i)
                   (SessionInfo.last_component_seq i) inst i) /\
    objects s1 = <[conn := i1]> (objects s)) _ (fun out s' => changes (delivers i) s out s'));
    [|intros i1 out s1 (-> & Hs1 & [inst Ei1] & Ho1)|done].
  - destruct (SessionInfo.component_instances i !! c); wp_run; try (by apply Hq; quiet).
    + split_and!; [done|done|by exists (SessionInfo.component_instances i); destruct i|].
      by rewrite insert_id.
    + split_and!; [done|done|by eexists|done].
  - assert (forall seen out s', no_observation out -> sessions s' = sessions s1 ->
      (objects s' = objects s1 \/
       objects s' = <[conn := SessionInfo.set_components seen (SessionInfo.last_component_seq i1)
         (SessionInfo.component_instances i1) i1]> (objects s1)) -> changes (delivers i) s out s') as Hc1.
    { intros seen out s' Hout Hs' [Ho'|Ho']; subst i1.
      - eapply (Hc _ _ _ _ Hout); [congruence|]. by rewrite Ho', Ho1.
      - eapply (Hc seen inst _ _ Hout); [congruence|]. rewrite Ho', Ho1, insert_insert_eq. done. }
    wp_run; cbn [app]; try (by eapply (Hc1 []); [quiet|done|by left]);
      try (by eapply Hc1; [quiet|done|by right]).
    all: subst i1; eapply changes_put;
      [cbn; rewrite Ho1, !insert_insert_eq; reflexivity|exact Hs1|].
    all: repeat match goal with
      | Hb : (_ <? _) = false |- _ =>
          apply Z.ltb_ge in Hb; cbn [SessionInfo.last_component_seq SessionInfo.set_components] in Hb
      | Hb : (_ =? _) = false |- _ =>
          apply Z.eqb_neq in Hb; cbn [SessionInfo.last_component_seq SessionInfo.set_components] in Hb
      end.
    all: split; [by repeat split|]; split; [done|]; split; [by repeat split|]; right.
    all: exists a, []; eexists; cbv zeta; fold c k; cbn [app].
    all: split_and!; [reflexivity|constructor|auto with exaserve|done|done|done| |done].
    all: destruct (SessionInfo.last_component_seq i !! (c, k)); cbn in *; lia.
Qed.

Lemma handle_observation_delivers i e s :
  objects s !! conn = Some i ->
  turns (delivers i) (handle_observation sha256 cfg ans conn i e) s.
Proof.
  intros Hi. unfold turns, handle_observation. cbv zeta.
  assert (forall out s', no_observation out -> objects s' = objects s -> sessions s' = sessions s ->
    changes (delivers i) s out s') as Hq.
  { intros out s' Hout Ho Hs. apply (changes_same _ _ _ _ _ Hi); [done|done|].
    by apply steady_delivers, steady_refl. }
  wp_step. wp_step; [wp_run; apply Hq; [quiet|done|done]|].
  match goal with Hb : negb (SessionInfo.established i) = false |- _ => apply negb_false_iff in Hb as Hest end.
  pose proof (fun item => apply_observation_delivers i item s Hi Hest) as Ha.
  assert (forall item before, no_observation before ->
    wp (apply_observation sha256 cfg ans conn i item)
      (fun _ out s' => changes (delivers i) s (before ++ out) s')
      (fun out s' => changes (delivers i) s (before ++ out) s') s) as Hb.
  { intros item before Hbef.
    assert (forall out s', changes (delivers i) s out s' -> changes (delivers i) s (before ++ out) s') as Hpre.
    { intros out s' [Hs (i' & Ho & (H1 & H2 & H3 & H4))]. split; [done|]. exists i'. split; [done|].
      split_and!; try done. destruct H4 as [[Hss Hno]|(o & b & a & -> & H5)].
      - left. split; [done|]. by apply no_observation_app.
      - right. exists o, (before ++ b), a. rewrite <- app_assoc. split; [done|].
        destruct H5 as (H5 & H6 & H7). rewrite no_observation_app. split_and!; [done|done|done|apply H7..]. }
    eapply wp_mono; [apply Ha|auto|auto]. }
  destruct (dget "observation" (Envelope.payload e)) as [item|];
    [|wp_run; apply Hq; [quiet|done|done]].
  wp_step. wp_step; [wp_run; apply Hq; [quiet|done|done]|].
  wp_step. eapply (wp_mono _ (fun _ out s' => s' = s /\ no_observation out) _
    (fun out s' => objects s' = objects s /\ sessions s' = sessions s /\ no_observation out)).
  - destruct (attr "compatibility_receipt" (Envelope.payload e)); wp_run; split_and!;
      try done; quiet.
  - intros [] out s' [-> Hout]. eapply wp_mono; [apply (Hb item out Hout)|auto|auto].
  - intros out s' (Ho & Hs & Hout). apply Hq; [quiet|done|done].
Qed.

(** *** Snapshots *)

Lemma assemble_complete limits now buffer payload buffer' items :
  assemble_snapshot sha256 limits now buffer payload = (buffer', Complete items) ->
  exists h, attr "complete_set_hash" payload = VStr h /\ snapshot_set_hash sha256 items = Ok h.
Proof.
  unfold assemble_snapshot. intros Ha.
  destruct (negb _); [done|]. destruct (negb _); [done|].
  destruct (attr "chunk_count" payload); try done. destruct (attr "chunk_index" payload); try done.
  destruct (nonempty_str _) as [sid|]; [|done].
  destruct (sha256_text _) as [h|] eqn:Hh; [|done]. next_guard Ha Hrange. next_guard Ha Hcap.
  cbv zeta in Ha. next_guard Ha Hid. next_guard Ha Hdead.
  set (a := default _ buffer) in *. bool_prop.
  exists h. split.
  { unfold sha256_text in Hh. destruct (attr "complete_set_hash" payload) as [| | | |t0| |]; try done.
    destruct (is_sha256 t0); congruence. }
  unfold add_chunk in Ha. destruct (body_items _ _); [|done]. destruct (body_items _ _); [|done].
  destruct (dumps _); [|done]. cbv zeta in Ha. next_guard Ha Hconf. next_guard Ha Hbytes.
  next_guard Ha Hitems. next_guard Ha Hmore. injection Ha as _ Hfin. unfold finish_assembly in Hfin.
  cbn [a_chunks a_hash] in Hfin. destruct (canonical_snapshot_items _) as [l1|[]]; try done.
  destruct (snapshot_set_hash sha256 l1) as [actual|[]] eqn:Ehash; try done.
  case_bool_decide as Heq; [|done]. injection Hfin as <-. congruence.
Qed.

(** A snapshot turn: the projection is replaced only by a complete, hashed, validated
    and accepted snapshot. *)
Definition replaces (e : Envelope.t) (i i' : SessionInfo.t) (out : list output) : Prop :=
  same_identity i i' /\ SessionInfo.established i' = SessionInfo.established i /\
  no_observation out /\
  (same_pending i i' \/
   exists items obs recs detail,
     snapshot_set_hash sha256 items = Ok (SessionInfo.pending_snapshot_hash i') /\
     validate_snapshot_items cfg i items = Ok (obs, recs) /\
     an_decision ans = Ok (true, detail) /\
     SessionInfo.pending_snapshot_command_id i' =
       snapshot_command_id (SessionInfo.rank i) (SessionInfo.pending_snapshot_id i') /\
     attr "snapshot_id" (Envelope.payload e) = VStr (SessionInfo.pending_snapshot_id i') /\
     attr "complete_set_hash" (Envelope.payload e) = VStr (SessionInfo.pending_snapshot_hash i') /\
     SessionInfo.last_component_seq i' = snapshot_seqs obs).

Lemma steady_replaces e i i' out : steady i i' out -> replaces e i i' out.
Proof. intros (?&?&?&?&?). unfold replaces. auto 10. Qed.

Lemma send_command_to_objects sent rank id op payload s :
  wp (send_command_to mac cfg sent rank id op payload)
    (fun _ out s' => objects s' = objects s /\ sessions s' = sessions s /\ no_observation out)
    (fun out s' => objects s' = objects s /\ sessions s' = sessions s /\ no_observation out) s.
Proof.
  unfold send_command_to, remember_issued_command. cbv zeta. wp_run; split_and!; try done; quiet.
Qed.

Lemma handle_snapshot_replaces i e s :
  has_on_snapshot cfg = true -> objects s !! conn = Some i ->
  turns (replaces e i) (handle_snapshot mac sha256 cfg ans conn i e) s.
Proof.
  intros Hcb Hi. unfold turns, handle_snapshot. wp_step. wp_step.
  destruct (assemble_snapshot _ _ _ _ _) as [buffer verdict] eqn:Hasm. wp_step. wp_step.
  set (s1 := set_snapshots _ s).
  assert (objects s1 = objects s) as Ho1 by done. assert (sessions s1 = sessions s) as Hs1 by done.
  clearbody s1.
  assert (forall out s', no_observation out -> objects s' = objects s1 -> sessions s' = sessions s1 ->
    changes (replaces e i) s out s') as Hq.
  { intros out s' Hout Ho Hs. apply (changes_same _ _ _ _ _ Hi); [congruence|congruence|].
    by apply steady_replaces, steady_refl. }
  destruct verdict as [|items|reason|x]; [wp_run; apply Hq; [quiet|done|done]| |wp_run; apply Hq; [quiet|done|done]..].
  apply assemble_complete in Hasm as (h & Hh & Hhash).
  destruct (attr "snapshot_id" (Envelope.payload e)) as [| | | |sid| |] eqn:Hsid;
    try (wp_run; apply Hq; [quiet|done|done]).
  rewrite Hh. rewrite Hcb.
  wp_step. wp_step; [|apply Hq; [quiet|done|done]..].
  destruct a as [obs recs]. wp_step. wp_step; [|done]. wp_step.
  wp_step. wp_step; [|apply Hq; [quiet|done|done]]. destruct a as [ok detail].
  wp_step. wp_step; [wp_run; apply Hq; [quiet|done|done]|]. wp_step. wp_step; [done|].
  unfold install_snapshot. cbv zeta. rewrite <- Ho1 in Hi.
  wp_step. wp_step. rewrite (alter_some _ _ _ _ Hi).
  match goal with |- context [set_objects (<[conn := ?x]> _) _] => set (i1 := x) end.
  wp_step. wp_step.
  2: { eapply changes_put; [cbn; rewrite Ho1; reflexivity|done|]. repeat split; [quiet|by left]. }
  wp_step. wp_step. cbn [objects set_objects].
  assert (<[conn := i1]> (objects s1) !! conn = Some i1) as Hi1 by apply lookup_insert_eq.
  rewrite (alter_some _ _ _ _ Hi1), insert_insert_eq. wp_step.
  assert (forall out s', no_observation out -> objects s' = <[conn := SessionInfo.set_pending sid h
      (snapshot_command_id (SessionInfo.rank i) sid)
      (SessionInfo.set_components a (snapshot_seqs obs) (snapshot_instances obs) i1)]> (objects s1) ->
      sessions s' = sessions s1 -> changes (replaces e i) s out s') as Hdone.
  { intros out s' Hout Ho Hs. eapply changes_put; [rewrite Ho, Ho1; reflexivity|congruence|].
    split; [by repeat split|]. split; [done|]. split; [done|]. right.
    exists items, obs, recs, detail. cbn. split_and!; try done.
    match goal with Hb : negb ok = false |- _ => apply negb_false_iff in Hb as -> end. done. }
  eapply wp_mono; [apply send_command_to_objects|..].
  - intros b out s' (Ho & Hs & Hout). wp_run; apply Hdone; try done; quiet.
  - intros out s' (Ho & Hs & Hout). apply Hdone; try done; quiet.
Qed.

(** *** Command results *)

(** The exact acknowledgment of the pending snapshot. *)
Definition exact_ack (i : SessionInfo.t) (payload : dict) : Prop :=
  SessionInfo.pending_snapshot_command_id i <> "" /\
  attr "command_id" payload = VStr (SessionInfo.pending_snapshot_command_id i) /\
  attr "operation" payload = VStr "SNAPSHOT_ACCEPTED" /\
  attr "snapshot_id" payload = VStr (SessionInfo.pending_snapshot_id i) /\
  attr "complete_set_hash" payload = VStr (SessionInfo.pending_snapshot_hash i) /\
  attr "status" payload = VStr "SUCCEEDED" /\ attr "ok" payload = VBool true.

Definition acknowledges (e : Envelope.t) (i i' : SessionInfo.t) (out : list output) : Prop :=
  same_identity i i' /\ same_seqs i i' /\ no_observation out /\
  (same_pending i i' \/ SessionInfo.pending_snapshot_command_id i' = "") /\
  (SessionInfo.established i' = SessionInfo.established i \/
   exact_ack i (Envelope.payload e) /\ exists detail, an_decision ans = Ok (true, detail)).

Lemma steady_acknowledges e i i' out : steady i i' out -> acknowledges e i i' out.
Proof. intros (?&?&?&?&?). unfold acknowledges. auto 10. Qed.

Lemma validate_command_result_same v d :
  validate_command_result_payload v = Ok d ->
  v = VDict d /\ attr "command_id" d <> VStr "" /\
  (attr "status" d = VStr "SUCCEEDED" -> attr "ok" d = VBool true).
Proof.
  unfold validate_command_result_payload. intros Hv. destruct v as [| | | | | |d']; try done.
  cbv zeta in Hv. apply bind_Ok in Hv as (_ & _ & Hv). apply bind_Ok in Hv as (_ & _ & Hv).
  apply bind_Ok in Hv as (? & Hid & Hv). apply bind_Ok in Hv as (? & _ & Hv).
  apply bind_Ok in Hv as (_ & _ & Hv). apply bind_Ok in Hv as (ok & Hok & Hv).
  apply bind_Ok in Hv as (? & _ & Hv). apply bind_Ok in Hv as (? & _ & Hv).
  apply bind_Ok in Hv as (_ & _ & Hv). apply bind_Ok in Hv as (? & Hagree & Hv).
  assert (d' = d) as ->.
  { match type of Hv with (if ?b then _ else _) = _ => destruct b end; [|by injection Hv].
    apply bind_Ok in Hv as (? & _ & Hv). apply bind_Ok in Hv as (? & _ & Hv). by injection Hv. }
  split; [done|]. split; [intros E; by rewrite E in Hid|].
  intros Hst. destruct (attr "ok" d) as [|b| | | | |]; try done. injection Hok as ->.
  rewrite Hst in Hagree. apply raise_if_Ok in Hagree. apply negb_false_iff, Bool.eqb_prop in Hagree.
  cbn in Hagree. by rewrite <- Hagree.
Qed.

Lemma py_eqb_str v x : py_eqb v (VStr x) = true -> v = VStr x.
Proof.
  destruct v; cbn; try done; try (by destruct (num_compare _ _)).
  intros Hb%bool_decide_eq_true. by subst.
Qed.

Lemma handle_command_result_acknowledges i e s :
  going cfg conn s -> objects s !! conn = Some i ->
  turns (acknowledges e i) (handle_command_result cfg ans conn i e) s.
Proof.
  intros Hg Hi. destruct (going_session _ _ _ _ Hg Hi) as [_ Hreg].
  pose proof (i_registered _ _ (ti_inv _ _ _ (proj1 Hg)) _ _ Hi Hreg) as [Hses _].
  unfold turns, handle_command_result.
  assert (forall out s', no_observation out -> objects s' = objects s -> sessions s' = sessions s ->
    changes (acknowledges e i) s out s') as Hq.
  { intros out s' Hout Ho Hs. apply (changes_same _ _ _ _ _ Hi); [done|done|].
    by apply steady_acknowledges, steady_refl. }
  wp_step. wp_step; [|apply Hq; [quiet|done|done]..]. wp_step. wp_step.
  match goal with Hv : validate_command_result_payload _ = Ok _ |- _ =>
    apply validate_command_result_same in Hv as ([= <-] & Hidne & Hok) end.
  destruct (attr "command_id" (Envelope.payload e)) as [| | | |id| |] eqn:Hid;
    try (apply wp_ret; apply Hq; [quiet|done|done]).
  destruct (issued_commands s !! id) as [[r p]|] eqn:Eid; [|wp_run; apply Hq; [quiet|done|done]].
  do 4 (cbv zeta; wp_step; wp_step; [wp_run; apply Hq; [quiet|done|done]|]). wp_step. wp_step.
  set (s1 := set_command_results _ s).
  assert (objects s1 = objects s) as Ho1 by done. assert (sessions s1 = sessions s) as Hs1 by done.
  clearbody s1. wp_step.
  (* after the goodbye authorization the object is steady *)
  eapply (wp_mono _ (fun _ out s2 => sessions s2 = sessions s /\ no_observation out /\
    exists i2, steady i i2 [] /\ objects s2 = <[conn := i2]> (objects s)) _
    (fun out s' => objects s' = objects s /\ sessions s' = sessions s /\ no_observation out)).
  - wp_step; [|split_and!; [done|quiet|exists i; split; [by apply steady_refl; quiet|by rewrite insert_id]]].
    unfold expect_goodbye. wp_step. wp_step. rewrite Hs1, Hses, Ho1, Hi.
    destruct (SessionInfo.expected_goodbye i).
    + wp_step. split_and!; [done|quiet|]. exists i. split; [apply steady_refl; quiet|by rewrite insert_id, Ho1].
    + wp_step. wp_step; [wp_run; split_and!; [done|done|quiet]|]. wp_run. split_and!; [done|quiet|].
      exists (SessionInfo.set_expected_goodbye true i). split; [by repeat split; quiet|].
      cbn. rewrite Ho1. by rewrite (alter_some _ _ _ _ Hi).
  - intros [] out1 s2 (Hs2 & Hout1 & i2 & Hi2 & Ho2).
    assert (forall out s', no_observation out -> objects s' = objects s2 -> sessions s' = sessions s2 ->
      changes (acknowledges e i) s out s') as Hq2.
    { intros out s' Hout Ho Hs. eapply changes_put; [rewrite Ho, Ho2; reflexivity|congruence|].
      destruct Hi2 as (?&?&?&?&_). apply steady_acknowledges. unfold steady. auto 10. }
    wp_step; [|apply Hq2; [quiet|done|done]].
    unfold acknowledge_snapshot, refresh_established_event. cbv zeta.
    wp_step. wp_step; [wp_run; apply Hq2; [quiet|done|done]|].
    wp_step. wp_step. wp_step. wp_step; [|apply Hq2; [quiet|done|done]].
    destruct a as [ok detail]. wp_step. wp_step; [wp_run; apply Hq2; [quiet|done|done]|].
    wp_run.
    assert (objects s2 !! conn = Some i2) as Hi2' by (rewrite Ho2; apply lookup_insert_eq).
    eapply changes_put; [cbn; rewrite (alter_some _ _ _ _ Hi2'), Ho2, insert_insert_eq; reflexivity|done|].
    destruct Hi2 as (Hident & _ & _ & Hseqs & _).
    split; [exact Hident|]. split; [exact Hseqs|]. split; [quiet|]. split; [by right|]. right.
    match goal with Hm : existsb _ _ = false |- _ => rename Hm into Hmis end.
    cbn [existsb fst snd] in Hmis. rewrite !orb_false_iff, !negb_false_iff in Hmis.
    destruct Hmis as (_ & Hop & Hsid & Hhash & Hst & _). apply py_eqb_str in Hop, Hsid, Hhash, Hst.
    bool_prop. subst id. split; [|exists detail].
    + split_and!; try done; [congruence|by apply Hok].
    + congruence.
  - intros out s' (Ho & Hs & Hout). apply Hq; [quiet|done|done].
Qed.

(** *** A whole turn *)

Definition session_turn (e : Envelope.t) (i i' : SessionInfo.t) (out : list output) : Prop :=
  steady i i' out \/
  match Envelope.kind e with
  | OBSERVATION => delivers i i' out
  | SNAPSHOT => replaces e i i' out
  | COMMAND_RESULT => acknowledges e i i' out
  | _ => False
  end.

Lemma changes_mono (R R' : SessionInfo.t -> list output -> Prop) s out s' :
  (forall i out, R i out -> R' i out) -> changes R s out s' -> changes R' s out s'.
Proof. intros HR [Hs (i' & Ho & Hi')]. split; [done|]. exists i'. auto. Qed.

(** The bookkeeping of the sequence number is invisible to the relations. *)
Lemma handle_envelope_turn i e s :
  has_on_snapshot cfg = true -> going cfg conn s -> objects s !! conn = Some i ->
  turns (session_turn e i) (handle_envelope mac sha256 cfg ans conn e) s.
Proof.
  intros Hcb Hg Hi. unfold turns, handle_envelope.
  assert (forall out s', no_observation out -> objects s' = objects s -> sessions s' = sessions s ->
    changes (session_turn e i) s out s') as Hq.
  { intros out s' Hout Ho Hs. apply (changes_same _ _ _ _ _ Hi); [done|done|].
    left. by apply steady_refl. }
  destruct (check_scope cfg e); [wp_run; apply Hq; [quiet|done|done]|].
  destruct (going_session _ _ _ _ Hg Hi) as [Hsi Hreg].
  case_bool_decide as Hk.
  { unfold handle_register. wp_step. wp_step. wp_step. unfold session_of. rewrite Hi, Hreg.
    wp_step; [|done]. wp_run. apply Hq; [quiet|done|done]. }
  wp_step. wp_step. unfold session_of. rewrite Hi, Hreg. cbn [negb].
  destruct (_ || _); [wp_run; apply Hq; [quiet|done|done]|].
  destruct (_ <=? _); [wp_run; apply Hq; [quiet|done|done]|]. wp_step. wp_step.
  set (i1 := SessionInfo.set_last_seq _ _). set (s1 := set_objects _ s).
  assert (going cfg conn s1) as Hg1.
  { eapply going_put; [done|done|by repeat split|]. destruct Hsi. by split. }
  assert (objects s1 !! conn = Some i1) as Hi1 by (cbn; by rewrite lookup_insert_eq).
  assert (objects s1 = <[conn := i1]> (objects s)) as Ho1 by done.
  assert (sessions s1 = sessions s) as Hs1 by done. clearbody s1.
  assert (forall A (m : M A) (R : SessionInfo.t -> list output -> Prop), turns R m s1 ->
    (forall i' out, R i' out -> session_turn e i i' out) ->
    wp m (fun _ out s' => changes (session_turn e i) s out s')
         (fun out s' => changes (session_turn e i) s out s') s1) as Hlift.
  { intros A m R Hm HR. eapply wp_mono; [exact Hm|..]; intros *; intros [Hs' (i' & Ho' & Hi')];
      (split; [congruence|]; exists i'; split; [by rewrite Ho', Ho1, insert_insert_eq|auto]). }
  destruct (Envelope.kind e) eqn:Ek; try done.
  - eapply Hlift; [by apply handle_observation_delivers|]. intros i' out Hd. right. by rewrite Ek.
  - apply wp_ret. eapply changes_put; [exact Ho1|done|]. left. repeat split; constructor.
  - eapply Hlift; [by apply handle_command_result_acknowledges|]. intros i' out Hd. right. by rewrite Ek.
  - eapply Hlift; [by apply handle_snapshot_replaces|]. intros i' out Hd. right. by rewrite Ek.
  - eapply Hlift; [by apply handle_receipt_steady|]. intros i' out Hd. by left.
  - eapply Hlift; [by apply handle_heartbeat_steady|]. intros i' out Hd. by left.
  - eapply Hlift; [by apply handle_goodbye_steady|]. intros i' out Hd. by left.
Qed.

(** A connection without a session can only register, which shows no observation. *)
Definition fresh_session (i : SessionInfo.t) : Prop :=
  SessionInfo.established i = false /\ SessionInfo.pending_snapshot_command_id i = "".

Lemma handle_envelope_first e s :
  going cfg conn s -> objects s !! conn = None ->
  wp (handle_envelope mac sha256 cfg ans conn e)
    (fun _ out s' => no_observation out /\
       exists i, objects s' = <[conn := i]> (objects s) /\ fresh_session i)
    (fun out s' => no_observation out /\
       (objects s' = objects s \/ exists i, objects s' = <[conn := i]> (objects s) /\ fresh_session i)) s.
Proof.
  intros Hg Hi. unfold handle_envelope.
  destruct (check_scope cfg e); [wp_run; split; [quiet|by left]|].
  case_bool_decide as Hk.
  2: { wp_step. wp_step. unfold session_of. rewrite Hi. wp_run. split; [quiet|by left]. }
  unfold handle_register. wp_step. wp_step. wp_step. unfold session_of. rewrite Hi. wp_step; [done|].
  destruct (register cfg conn (an_now ans) e s) as [s1|err] eqn:Hreg;
    [|wp_run; split; [quiet|by left]].
  assert (exists i, objects s1 = <[conn := i]> (objects s) /\ fresh_session i) as (i1 & Ho1 & Hf1).
  { unfold register in Hreg. destruct (nonempty_str _) as [inst|]; [|done].
    next_guard Hreg Hfields. next_guard Hreg Hrange. next_guard Hreg Hseq. next_guard Hreg Hplanned.
    next_guard Hreg Hnr. next_guard Hreg Hmoved. next_guard Hreg Hdup. apply Ok_inj in Hreg.
    exists (SessionInfo.fresh (Envelope.sender_rank e) (Envelope.sender_node e) inst (Envelope.seq e)
      (an_now ans)). split; [|done]. subst s1. by destruct (forallb _ _). }
  assert (objects s1 !! conn = Some i1) as Hi1 by (rewrite Ho1; apply lookup_insert_eq).
  wp_step. wp_step. wp_step. rewrite Hi1. wp_step. wp_step. wp_step; [|split; [quiet|right; by exists i1]].
  destruct a as [ok detail]. wp_run; (split; [quiet|]); try (right; by exists i1); try (by exists i1).
  right. cbn. rewrite (alter_some _ _ _ _ Hi1), Ho1, insert_insert_eq. by eexists.
Qed.
End session_effects.

(** ** What a step does to one session *)

(** The observations delivered over connection [c]. *)
Definition deliveries (c : nat) (out : list output) : list ComponentObservation.t :=
  omap (fun o => match o with
                 | OObservation c' _ o => if decide (c' = c) then Some o else None
                 | _ => None
                 end) out.

Lemma deliveries_app c a b : deliveries c (a ++ b) = deliveries c a ++ deliveries c b.
Proof. apply omap_app. Qed.

Lemma deliveries_none c out : no_observation out -> deliveries c out = [].
Proof. induction 1 as [|o out Ho Hf IH]; [done|]. cbn. by destruct o. Qed.

Lemma deliveries_own c r o out :
  deliveries c (OObservation c r o :: out) = o :: deliveries c out.
Proof. unfold deliveries. cbn. by rewrite decide_True. Qed.

Lemma deliveries_other c c' r o out :
  c <> c' -> deliveries c (OObservation c' r o :: out) = deliveries c out.
Proof. intros. unfold deliveries. cbn. by rewrite decide_False. Qed.

Section steps_of_a_session.
  Context `{FloatText} (mac : text -> text -> text) (sha256 : text -> string) (cfg : config).
  Context (has_callback : has_on_snapshot cfg = true).

Definition snapshot_of (c : nat) (ev : event) : bool :=
  match ev with
  | EEnvelope c' _ e => bool_decide (c' = c) && bool_decide (Envelope.kind e = SNAPSHOT)
  | _ => false
  end.

Definition observation_key (o : ComponentObservation.t) : string * string :=
  (ComponentObservation.component_id o, ComponentObservation.instance_id o).

(** How the session [i] of connection [c] becomes [i'] while [ds] is delivered. *)
Record session_step (c : nat) (ev : event) (i i' : SessionInfo.t) (ds : list ComponentObservation.t)
    : Prop := {
  ss_rank : SessionInfo.rank i' = SessionInfo.rank i;
  ss_node : SessionInfo.node_id i' = SessionInfo.node_id i;
  ss_delivery :
    (ds = [] /\ (same_seqs i i' \/ snapshot_of c ev = true)) \/
    (exists o, ds = [o] /\ SessionInfo.established i = true /\ wf_observation o = true /\
       observation_identity cfg i o = None /\
       default (-1) (SessionInfo.last_component_seq i !! observation_key o)
         < ComponentObservation.sequence o /\
       SessionInfo.last_component_seq i' =
         <[observation_key o := ComponentObservation.sequence o]> (SessionInfo.last_component_seq i));
  ss_established : SessionInfo.established i' = true ->
    SessionInfo.established i = true \/
    exists ans e detail, ev = EEnvelope c ans e /\ Envelope.kind e = COMMAND_RESULT /\
      exact_ack i (Envelope.payload e) /\ an_decision ans = Ok (true, detail);
  ss_pending : SessionInfo.pending_snapshot_command_id i' <> "" ->
    same_pending i i' \/
    exists ans e items obs recs detail, ev = EEnvelope c ans e /\ Envelope.kind e = SNAPSHOT /\
      snapshot_set_hash sha256 items = Ok (SessionInfo.pending_snapshot_hash i') /\
      validate_snapshot_items cfg i items = Ok (obs, recs) /\ an_decision ans = Ok (true, detail)
}.

Lemma session_step_idle c ev i i' :
  SessionInfo.rank i' = SessionInfo.rank i -> SessionInfo.node_id i' = SessionInfo.node_id i ->
  same_seqs i i' -> same_pending i i' ->
  (SessionInfo.established i' = true -> SessionInfo.established i = true) ->
  session_step c ev i i' [].
Proof. intros. split; auto. Qed.

(** Retiring a session keeps what it knew. *)
Definition retired (i i' : SessionInfo.t) : Prop :=
  i' = i \/ i' = SessionInfo.set_established false (SessionInfo.set_registered false i).

Lemma session_step_turn c ans e i i1 i' out tail :
  session_turn sha256 cfg ans c e i i1 out -> retired i1 i' -> no_observation tail ->
  session_step c (EEnvelope c ans e) i i' (deliveries c (out ++ tail)).
Proof.
  intros Ht Hret Htail. rewrite deliveries_app, (deliveries_none _ tail Htail), app_nil_r.
  assert (SessionInfo.rank i' = SessionInfo.rank i1 /\ SessionInfo.node_id i' = SessionInfo.node_id i1 /\
    same_seqs i1 i' /\ same_pending i1 i' /\
    (SessionInfo.established i' = true -> SessionInfo.established i1 = true)) as (R1 & R2 & R3 & R4 & R5).
  { destruct Hret as [-> | ->]; by repeat split. }
  unfold same_seqs in R3. destruct R4 as (P1 & P2 & P3).
  assert (steady i i1 out -> session_step c (EEnvelope c ans e) i i' (deliveries c out)) as Hsteady.
  { intros ((I1 & I2 & I3) & E & (Q1 & Q2 & Q3) & S & No). rewrite deliveries_none by done.
    unfold same_seqs in S. apply session_step_idle; [congruence|congruence|..].
    - unfold same_seqs. congruence.
    - unfold same_pending. split_and!; congruence.
    - rewrite <- E. done. }
  destruct Ht as [Ht|Ht]; [by apply Hsteady|].
  destruct (Envelope.kind e) eqn:Ek; try done.
  - destruct Ht as ((I1 & I2 & I3) & E & (Q1 & Q2 & Q3) & Hd). split; [congruence|congruence| | |].
    + destruct Hd as [[S No]|(o & before & after & -> & B1 & B2 & B3 & B4 & B5 & B6 & B7)].
      * left. split; [by apply deliveries_none|]. left. unfold same_seqs in *. congruence.
      * right. exists o.
        rewrite deliveries_app, (deliveries_none _ before B1), deliveries_own, (deliveries_none _ after B2).
        unfold observation_key. split_and!; try done. congruence.
    + rewrite <- E. auto.
    + intros _. left. unfold same_pending. split_and!; congruence.
  - destruct Ht as ((I1 & I2 & I3) & S & No & Hp & Hd). rewrite deliveries_none by done. unfold same_seqs in S.
    split; [congruence|congruence| | |].
    + left. split; [done|]. left. unfold same_seqs. congruence.
    + intros Hi'. destruct Hd as [E|[Hack [detail Hdec]]]; [left; rewrite <- E; auto|].
      right. by exists ans, e, detail.
    + intros Hne. destruct Hp as [(Q1 & Q2 & Q3)|Hempty]; [|congruence].
      left. unfold same_pending. split_and!; congruence.
  - destruct Ht as ((I1 & I2 & I3) & E & No & Hd). rewrite deliveries_none by done.
    split; [congruence|congruence| | |].
    + left. split; [done|]. right. cbn. by rewrite bool_decide_true, Ek by done.
    + rewrite <- E. auto.
    + intros Hne. destruct Hd as [(Q1 & Q2 & Q3)|(items & obs & recs & detail & H1 & H2 & H3 & _)].
      * left. unfold same_pending. split_and!; congruence.
      * right. exists ans, e, items, obs, recs, detail. rewrite P2. done.
Qed.

Lemma finish_objects ans conn s :
  no_observation (finish ans conn s).2 /\
  (forall c, c <> conn -> objects (finish ans conn s).1 !! c = objects s !! c) /\
  (forall i, objects s !! conn = Some i ->
     exists i', objects (finish ans conn s).1 !! conn = Some i' /\ retired i i').
Proof.
  unfold finish, session_of. destruct (objects s !! conn) as [i|] eqn:Hi.
  - destruct (SessionInfo.registered i); destruct (an_session ans); cbn.
    all: split_and!; try (by repeat constructor).
    all: try (intros c Hc; by rewrite ?lookup_alter_ne).
    all: intros i0 [= <-]; rewrite ?lookup_alter_eq, ?Hi; eexists; (split; [reflexivity|]);
      first [by left|by right].
  - cbn. split_and!; [constructor|done|done].
Qed.

(** The end of a turn: what the body did, and what the clean-up adds. *)
Lemma handle_turn_objects ans conn m (P : list output -> t -> Prop) s :
  wp m (fun _ out s' => P out s') (fun out s' => P out s') s ->
  exists s1 out tail, P out s1 /\ (handle_turn ans conn m s).2 = out ++ tail /\ no_observation tail /\
    (forall c, c <> conn -> objects (handle_turn ans conn m s).1 !! c = objects s1 !! c) /\
    (forall i, objects s1 !! conn = Some i ->
       exists i', objects (handle_turn ans conn m s).1 !! conn = Some i' /\ retired i i').
Proof.
  unfold wp, handle_turn. destruct (m s) as [[s1 out] [[]| |e]]; intros HP.
  - exists s1, out, []. split_and!; [done|by rewrite app_nil_r|constructor|done|].
    intros i Hi. exists i. split; [done|by left].
  - pose proof (finish_objects ans conn s1) as (F1 & F2 & F3).
    destruct (finish ans conn s1) as [s2 out2]. by exists s1, out, out2.
  - match goal with |- context [finish ans conn ?x] => set (s3 := x) end.
    pose proof (finish_objects ans conn s3) as (F1 & F2 & F3).
    destruct (finish ans conn s3) as [s4 out2]. by exists s1, out, out2.
Qed.

Lemma session_turn_others c conn ans e i i' out :
  c <> conn -> session_turn sha256 cfg ans conn e i i' out -> deliveries c out = [].
Proof.
  intros Hne [(_&_&_&_&No)|Ht]; [by apply deliveries_none|].
  destruct (Envelope.kind e); try done.
  - destruct Ht as (_ & _ & _ & [[_ No]|(o & before & after & -> & B1 & B2 & _)]);
      [by apply deliveries_none|].
    by rewrite deliveries_app, (deliveries_none _ _ B1), deliveries_other, (deliveries_none _ _ B2).
  - destruct Ht as (_ & _ & No & _). by apply deliveries_none.
  - destruct Ht as (_ & _ & No & _). by apply deliveries_none.
Qed.

Lemma session_step_refl c ev i : session_step c ev i i [].
Proof. by apply session_step_idle. Qed.

(** Every step of the listener moves each session along [session_step]. *)
Lemma step_session ev s c i :
  idle cfg s -> objects s !! c = Some i ->
  exists i', objects (step mac sha256 cfg ev s).1 !! c = Some i' /\
    session_step c ev i i' (deliveries c (step mac sha256 cfg ev s).2).
Proof.
  intros Hidle Hi.
  assert (exists i', objects s !! c = Some i' /\ session_step c ev i i' (deliveries c [])) as Hnone
    by (exists i; split; [done|apply session_step_refl]).
  destruct ev as [conn|conn ans e|conn ans reason|conn ans|sent rank id op p|rank]; cbn [step].
  - destruct (_ || _); exact Hnone.
  - case_bool_decide as Hc; [|exact Hnone]. pose proof (going_of_idle _ _ _ Hidle Hc) as Hg.
    destruct (decide (c = conn)) as [<-|Hne].
    + destruct (handle_turn_objects ans c _ _ s
        (handle_envelope_turn mac sha256 cfg ans c i e s has_callback Hg Hi))
        as (s1 & out & tail & [_ (i1 & Ho1 & Ht)] & -> & Htail & _ & Hret).
      destruct (Hret i1) as (i' & Hi' & Hr); [rewrite Ho1; apply lookup_insert_eq|].
      exists i'. split; [done|]. by eapply session_step_turn.
    + exists i. destruct (objects s !! conn) as [j|] eqn:Hj.
      * destruct (handle_turn_objects ans conn _ _ s
          (handle_envelope_turn mac sha256 cfg ans conn j e s has_callback Hg Hj))
          as (s1 & out & tail & [_ (j1 & Ho1 & Ht)] & -> & Htail & Hoth & _).
        rewrite Hoth, Ho1, lookup_insert_ne by done. split; [done|].
        rewrite deliveries_app, (deliveries_none _ tail Htail), app_nil_r.
        rewrite (session_turn_others _ _ _ _ _ _ _ Hne Ht). apply session_step_refl.
      * destruct (handle_turn_objects ans conn (handle_envelope mac sha256 cfg ans conn e)
          (fun out s' => no_observation out /\ objects s' !! c = Some i) s)
          as (s1 & out & tail & [No Ho1] & -> & Htail & Hoth & _).
        { eapply wp_mono; [by apply handle_envelope_first|..].
          - intros [] out s' (No & j & -> & _). by rewrite lookup_insert_ne.
          - intros out s' (No & [->|(j & -> & _)]); [done|]. by rewrite lookup_insert_ne. }
        rewrite Hoth, Ho1 by done. split; [done|].
        rewrite deliveries_none by (by apply no_observation_app). apply session_step_refl.
  - case_bool_decide as Hc; [|exact Hnone].
    destruct (handle_turn_objects ans conn (rejected_frame conn reason)
      (fun out s' => no_observation out /\ objects s' = objects s) s)
      as (s1 & out & tail & [No Ho1] & -> & Htail & Hoth & Hret).
    { unfold rejected_frame. wp_run. split; [constructor|done]. }
    rewrite deliveries_none by (by apply no_observation_app).
    destruct (decide (c = conn)) as [<-|Hne].
    + destruct (Hret i) as (i' & Hi' & Hr); [by rewrite Ho1|]. exists i'. split; [done|].
      destruct Hr as [-> | ->]; by apply session_step_idle.
    + exists i. rewrite Hoth, Ho1 by done. split; [done|apply session_step_refl].
  - case_bool_decide as Hc; [|exact Hnone].
    destruct (handle_turn_objects ans conn stop
      (fun out s' => no_observation out /\ objects s' = objects s) s)
      as (s1 & out & tail & [No Ho1] & -> & Htail & Hoth & Hret).
    { wp_run. split; [constructor|done]. }
    rewrite deliveries_none by (by apply no_observation_app).
    destruct (decide (c = conn)) as [<-|Hne].
    + destruct (Hret i) as (i' & Hi' & Hr); [by rewrite Ho1|]. exists i'. split; [done|].
      destruct Hr as [-> | ->]; by apply session_step_idle.
    + exists i. rewrite Hoth, Ho1 by done. split; [done|apply session_step_refl].
  - assert (wp (send_command mac cfg sent rank id op p)
      (fun _ out s' => objects s' = objects s /\ no_observation out)
      (fun out s' => objects s' = objects s /\ no_observation out) s) as Hs.
    { unfold send_command. wp_step. wp_step; [wp_run; split; [done|constructor]|].
      wp_step. wp_step. destruct (is_established s rank); [|wp_run; split; [done|constructor]].
      eapply wp_mono; [apply send_command_to_objects|..]; intros *; intros (Ho & _ & No); done. }
    unfold wp, run in *. destruct (send_command _ _ _ _ _ _ _ s) as [[s1 out] [b| |x]];
      destruct Hs as [Ho No]; cbn [fst snd]; rewrite deliveries_none by done; exists i; rewrite Ho;
      (split; [done|apply session_step_refl]).
  - assert (wp (expect_goodbye rank)
      (fun _ out s' => no_observation out /\ exists i', objects s' !! c = Some i' /\ steady i i' [])
      (fun out s' => no_observation out /\ exists i', objects s' !! c = Some i' /\ steady i i' []) s) as Hs.
    { assert (exists i', objects s !! c = Some i' /\ steady i i' []) as Hsame
        by (exists i; split; [done|apply steady_refl; constructor]).
      unfold expect_goodbye. wp_run; try (split; [constructor|exact Hsame]).
      split; [constructor|]. cbn. match goal with |- context [alter _ ?c' _] =>
        destruct (decide (c' = c)) as [->|Hne] end.
      - rewrite lookup_alter_eq, Hi. eexists. split; [reflexivity|]. repeat split. constructor.
      - by rewrite lookup_alter_ne. }
    unfold wp, run in *. destruct (expect_goodbye rank s) as [[s1 out] [b| |x]];
      destruct Hs as (No & i' & Hi' & ((I1&I2&I3)&E&P&S&_)); cbn [fst snd]; rewrite deliveries_none by done;
      exists i'; (split; [done|]); apply session_step_idle; auto; by rewrite E.
Qed.

(** ** Runs *)

Lemma steps_app evs1 evs2 s :
  (steps mac sha256 cfg (evs1 ++ evs2) s).1 =
  (steps mac sha256 cfg evs2 (steps mac sha256 cfg evs1 s).1).1.
Proof.
  revert s. induction evs1 as [|ev evs1 IH]; intros s; [done|]. cbn [app steps].
  destruct (step mac sha256 cfg ev s) as [s1 out1].
  specialize (IH s1). destruct (steps mac sha256 cfg evs1 s1) as [s2 out2].
  by destruct (steps mac sha256 cfg (evs1 ++ evs2) s1) as [s3 out3].
Qed.

Lemma observation_identity_same i i' o :
  SessionInfo.rank i' = SessionInfo.rank i -> SessionInfo.node_id i' = SessionInfo.node_id i ->
  observation_identity cfg i' o = observation_identity cfg i o.
Proof. intros Hr Hn. unfold observation_identity. by rewrite Hr, Hn. Qed.

Definition sequences (key : string * string) (ds : list ComponentObservation.t) : list Z :=
  ComponentObservation.sequence <$> List.filter (fun o => bool_decide (observation_key o = key)) ds.

(** Deliveries of one session above what it already has. *)
Definition in_order (i : SessionInfo.t) (ds : list ComponentObservation.t) : Prop :=
  Forall (fun o => wf_observation o = true /\ observation_identity cfg i o = None /\
            default (-1) (SessionInfo.last_component_seq i !! observation_key o)
              < ComponentObservation.sequence o) ds /\
  forall key, StronglySorted Z.lt (sequences key ds).

Lemma in_order_cons i i1 o ds :
  SessionInfo.rank i1 = SessionInfo.rank i -> SessionInfo.node_id i1 = SessionInfo.node_id i ->
  SessionInfo.last_component_seq i1 =
    <[observation_key o := ComponentObservation.sequence o]> (SessionInfo.last_component_seq i) ->
  wf_observation o = true -> observation_identity cfg i o = None ->
  default (-1) (SessionInfo.last_component_seq i !! observation_key o) < ComponentObservation.sequence o ->
  in_order i1 ds -> in_order i (o :: ds).
Proof.
  intros Hr Hn Hs Hw Hid Hlt [Hf Hsort]. split.
  - constructor; [done|]. eapply Forall_impl; [exact Hf|]. intros o' (H1 & H2 & H3).
    rewrite (observation_identity_same i i1) in H2 by done. split_and!; [done|done|].
    rewrite Hs in H3. destruct (decide (observation_key o = observation_key o')) as [E|E].
    + rewrite E, lookup_insert_eq in H3. cbn in H3. rewrite E in Hlt. lia.
    + by rewrite lookup_insert_ne in H3.
  - intros key. unfold sequences. cbn [List.filter]. case_bool_decide as Hk; [|apply Hsort].
    cbn. constructor; [apply Hsort|]. apply Forall_forall. intros z (o' & -> & Ho')%list_elem_of_fmap.
    apply list_elem_of_In, filter_In in Ho' as [Hin Hk']. apply bool_decide_eq_true in Hk'.
    apply list_elem_of_In in Hin. rewrite Forall_forall in Hf. destruct (Hf o' Hin) as (_ & _ & H3).
    rewrite Hs, Hk', <- Hk, lookup_insert_eq in H3. done.
Qed.

Lemma steps_in_order evs s c i :
  idle cfg s -> objects s !! c = Some i -> Forall (fun ev => snapshot_of c ev = false) evs ->
  in_order i (deliveries c (steps mac sha256 cfg evs s).2).
Proof.
  revert s i. induction evs as [|ev evs IH]; intros s i Hidle Hi Hns.
  { split; [constructor|]. intros key. constructor. }
  inv Hns as [|? ? Hev Hns']. cbn [steps].
  destruct (step_session ev s c i Hidle Hi) as (i1 & Hi1 & [Hr Hn Hd _ _]).
  pose proof (step_idle mac sha256 cfg ev s Hidle) as Hidle1.
  destruct (step mac sha256 cfg ev s) as [s1 out1]. cbn [fst snd] in *.
  specialize (IH s1 i1 Hidle1 Hi1 Hns'). destruct (steps mac sha256 cfg evs s1) as [s2 out2].
  cbn [fst snd] in *. rewrite deliveries_app.
  destruct Hd as [[-> [Hs|Hs]]|(o & -> & _ & Hw & Hid & Hlt & Hs)]; [|congruence|].
  - cbn [app]. destruct IH as [Hf Hsort]. split; [|done]. eapply Forall_impl; [exact Hf|].
    intros o (H1 & H2 & H3). rewrite Hs in H3. by rewrite (observation_identity_same i i1) in H2.
  - by eapply in_order_cons.
Qed.
End steps_of_a_session.

Section delivery.
  Context `{FloatText} (mac : text -> text -> text) (sha256 : text -> string) (cfg : config).

(** C31: Between two snapshots of a session, whatever frames arrive on any connection, the
    observations delivered for it are valid, carry the session's own deployment,
    plan, generation, rank and node, exceed what was known of their component, and
    per component instance their sequence numbers strictly increase: a duplicate or
    reordered observation is never delivered twice. *)
Theorem observations_in_order (evs0 evs : list event) (c : nat) (i : SessionInfo.t) :
  has_on_snapshot cfg = true ->
  let s := (steps mac sha256 cfg evs0 init).1 in
  objects s !! c = Some i -> Forall (fun ev => snapshot_of c ev = false) evs ->
  let ds := deliveries c (steps mac sha256 cfg evs s).2 in
  Forall (fun o => wf_observation o = true /\ observation_identity cfg i o = None /\
            default (-1) (SessionInfo.last_component_seq i !! observation_key o)
              < ComponentObservation.sequence o) ds /\
  forall key, StronglySorted Z.lt (sequences key ds).
Proof.
  intros Hcb s Hi Hns. apply steps_in_order; [done| |done|done]. apply reachable_idle.
Qed.

(** ** How a session came to be established *)

(** Earlier in the run, [c] completed a snapshot with the hash [h] that was validated
    for its session and accepted by the caller. *)
Definition snapshot_accepted (evs : list event) (c : nat) (h : string) : Prop :=
  exists evs1 ans e evs2 i items obs recs detail,
    evs = evs1 ++ EEnvelope c ans e :: evs2 /\ Envelope.kind e = SNAPSHOT /\
    objects (steps mac sha256 cfg evs1 init).1 !! c = Some i /\
    snapshot_set_hash sha256 items = Ok h /\
    validate_snapshot_items cfg i items = Ok (obs, recs) /\ an_decision ans = Ok (true, detail).

(** Later it acknowledged exactly that snapshot, and the caller accepted. *)
Definition snapshot_acknowledged (evs : list event) (c : nat) : Prop :=
  exists evs1 ans e evs2 i detail,
    evs = evs1 ++ EEnvelope c ans e :: evs2 /\ Envelope.kind e = COMMAND_RESULT /\
    objects (steps mac sha256 cfg evs1 init).1 !! c = Some i /\
    exact_ack i (Envelope.payload e) /\ an_decision ans = Ok (true, detail) /\
    snapshot_accepted evs1 c (SessionInfo.pending_snapshot_hash i).

Lemma snapshot_accepted_snoc evs c h ev : snapshot_accepted evs c h -> snapshot_accepted (evs ++ [ev]) c h.
Proof.
  intros (evs1 & ans & e & evs2 & i & items & obs & recs & detail & -> & Hrest).
  exists evs1, ans, e, (evs2 ++ [ev]), i, items, obs, recs, detail. by rewrite <- app_assoc.
Qed.

Lemma snapshot_acknowledged_snoc evs c ev : snapshot_acknowledged evs c -> snapshot_acknowledged (evs ++ [ev]) c.
Proof.
  intros (evs1 & ans & e & evs2 & i & detail & -> & Hrest).
  exists evs1, ans, e, (evs2 ++ [ev]), i, detail. by rewrite <- app_assoc.
Qed.

(** A session object appears only by registration. *)
Lemma finish_retired ans conn s c i' :
  objects (finish ans conn s).1 !! c = Some i' -> exists i, objects s !! c = Some i /\ retired i i'.
Proof.
  destruct (finish_objects ans conn s) as (_ & Hoth & Hown).
  destruct (decide (c = conn)) as [->|Hne].
  - destruct (objects s !! conn) as [i|] eqn:Hi.
    + destruct (Hown i eq_refl) as (i1 & -> & Hr). intros [= <-]. by exists i.
    + unfold finish, session_of. rewrite Hi. cbn. by rewrite Hi.
  - rewrite Hoth by done. intros Hi. exists i'. split; [done|by left].
Qed.

Lemma handle_turn_retired ans conn m (P : t -> Prop) s c i' :
  wp m (fun _ _ s' => P s') (fun _ s' => P s') s ->
  objects (handle_turn ans conn m s).1 !! c = Some i' ->
  exists s1 i, P s1 /\ objects s1 !! c = Some i /\ retired i i'.
Proof.
  unfold wp, handle_turn. destruct (m s) as [[s1 out] [[]| |e]]; intros HP.
  - intros Hi. exists s1, i'. split_and!; [done|done|by left].
  - pose proof (finish_retired ans conn s1 c i') as Hf. destruct (finish ans conn s1) as [s2 out2].
    intros (i & Hi & Hr)%Hf. by exists s1, i.
  - match goal with |- context [finish ans conn ?x] => set (s3 := x) end.
    pose proof (finish_retired ans conn s3 c i') as Hf. destruct (finish ans conn s3) as [s4 out2].
    intros (i & Hi & Hr)%Hf. by exists s1, i.
Qed.

Definition only_fresh (c : nat) (s : t) : Prop := forall i, objects s !! c = Some i -> fresh_session i.

Lemma only_fresh_none c s : objects s !! c = None -> only_fresh c s.
Proof. intros Hn i. by rewrite Hn. Qed.

Lemma handle_envelope_fresh ans conn e s c :
  has_on_snapshot cfg = true -> going cfg conn s -> objects s !! c = None ->
  wp (handle_envelope mac sha256 cfg ans conn e)
    (fun _ _ s' => only_fresh c s') (fun _ s' => only_fresh c s') s.
Proof.
  intros Hcb Hg Hnone. unfold only_fresh.
  assert (forall j m, m = <[conn := j]> (objects s) -> (c = conn -> fresh_session j) ->
    forall i, m !! c = Some i -> fresh_session i) as Hput.
  { intros j m -> Hj i. destruct (decide (c = conn)) as [->|Hne].
    - rewrite lookup_insert_eq. intros [= <-]. auto.
    - rewrite lookup_insert_ne by done. congruence. }
  destruct (objects s !! conn) as [j|] eqn:Hj.
  - assert (c <> conn) as Hne by congruence.
    eapply wp_mono; [by apply (handle_envelope_turn mac sha256 cfg ans conn j e s)|..];
      intros *; intros [_ (j' & Ho & _)]; by eapply Hput.
  - eapply wp_mono; [by apply handle_envelope_first|..].
    + intros [] out s' (_ & j & Ho & Hj'). by eapply Hput.
    + intros out s' (_ & [->|(j & Ho & Hj')]); [congruence|by eapply Hput].
Qed.

Lemma run_fresh {A} (m : M A) s c :
  wp m (fun _ _ s' => only_fresh c s') (fun _ s' => only_fresh c s') s -> only_fresh c (run m s).1.1.
Proof. unfold wp, run. by destruct (m s) as [[s' out] [a| |e]]. Qed.

Lemma step_fresh ev s c i :
  has_on_snapshot cfg = true ->
  idle cfg s -> objects s !! c = None -> objects (step mac sha256 cfg ev s).1 !! c = Some i ->
  fresh_session i.
Proof.
  intros Hcb Hidle Hnone.
  assert (objects s !! c = Some i -> fresh_session i) as Hno by congruence.
  assert (forall conn ans m, wp m (fun _ _ s' => only_fresh c s') (fun _ s' => only_fresh c s') s ->
    objects (handle_turn ans conn m s).1 !! c = Some i -> fresh_session i) as Hturn.
  { intros conn ans m Hm Hi. destruct (handle_turn_retired _ _ _ _ _ _ _ Hm Hi) as (s1 & j & HP & Hj & Hr).
    specialize (HP j Hj). destruct HP. by destruct Hr as [-> | ->]. }
  pose proof (only_fresh_none c s Hnone) as Hs.
  destruct ev as [conn|conn ans e|conn ans reason|conn ans|sent rank id op p|rank]; cbn [step].
  - by destruct (_ || _).
  - case_bool_decide as Hc; [|done]. apply Hturn, handle_envelope_fresh; [done| |done].
    by apply going_of_idle.
  - case_bool_decide as Hc; [|done]. apply Hturn. unfold rejected_frame. by wp_run.
  - case_bool_decide as Hc; [|done]. apply Hturn. by wp_run.
  - assert (wp (send_command mac cfg sent rank id op p)
      (fun _ _ s' => only_fresh c s') (fun _ s' => only_fresh c s') s) as Hw.
    { unfold send_command. wp_step. wp_step; [by wp_run|]. wp_step. wp_step.
      destruct (is_established s rank); [|by wp_run].
      eapply wp_mono; [apply send_command_to_objects|..]; intros *; intros (Ho & _); unfold only_fresh;
        by rewrite Ho. }
    apply run_fresh in Hw. destruct (run _ s) as [[s1 out] r]. apply Hw.
  - assert (wp (expect_goodbye rank) (fun _ _ s' => only_fresh c s') (fun _ s' => only_fresh c s') s) as Hw.
    { unfold expect_goodbye. wp_run; try done. intros i0. cbn.
      match goal with |- context [alter _ ?c' _] => destruct (decide (c' = c)) as [->|Hne] end.
      - by rewrite lookup_alter_eq, Hnone.
      - rewrite lookup_alter_ne by done. congruence. }
    apply run_fresh in Hw. destruct (run _ s) as [[s1 out] r]. apply Hw.
Qed.

(** What the run says about how far a session object has come. *)
Definition explained (evs : list event) (c : nat) (i : SessionInfo.t) : Prop :=
  (SessionInfo.established i = true -> snapshot_acknowledged evs c) /\
  (SessionInfo.pending_snapshot_command_id i <> "" ->
     snapshot_accepted evs c (SessionInfo.pending_snapshot_hash i)).

Lemma explained_step evs ev c i i' ds :
  objects (steps mac sha256 cfg evs init).1 !! c = Some i ->
  explained evs c i -> session_step sha256 cfg c ev i i' ds -> explained (evs ++ [ev]) c i'.
Proof.
  intros Hi [Hest Hpend] [_ _ _ Hest' Hpend']. split.
  - intros He. destruct (Hest' He) as [Ho|(ans & e & detail & -> & Hk & Hack & Hd)].
    + by apply snapshot_acknowledged_snoc, Hest.
    + exists evs, ans, e, [], i, detail. split_and!; try done. apply Hpend, Hack.
  - intros Hp. destruct (Hpend' Hp) as [(H1 & H2 & H3)|(ans & e & items & obs & recs & detail & -> & Hk & Hh & Hv & Hd)].
    + rewrite H2. apply snapshot_accepted_snoc, Hpend. congruence.
    + by exists evs, ans, e, [], i, items, obs, recs, detail.
Qed.

Lemma run_explained evs c i :
  has_on_snapshot cfg = true -> objects (steps mac sha256 cfg evs init).1 !! c = Some i ->
  explained evs c i.
Proof.
  intros Hcb. revert i. induction evs as [|ev evs IH] using rev_ind; intros i'; [done|].
  rewrite steps_app. cbn [steps].
  pose proof (reachable_idle mac sha256 cfg evs) as Hidle.
  set (s := (steps mac sha256 cfg evs init).1) in *. intros Hi'.
  assert (objects (step mac sha256 cfg ev s).1 !! c = Some i') as Hi1.
  { by destruct (step mac sha256 cfg ev s) as [s1 out]. }
  destruct (objects s !! c) as [i|] eqn:Hi.
  - destruct (step_session mac sha256 cfg Hcb ev s c i Hidle Hi) as (i1 & H1 & Hstep).
    rewrite H1 in Hi1. injection Hi1 as <-. by eapply explained_step; [exact Hi|apply IH|].
  - destruct (step_fresh ev s c i' Hcb Hidle Hi Hi1) as [Hf1 Hf2]. split; congruence.
Qed.

(** C6: The establishment barrier. When the head treats a session as established, the run
    contains a complete snapshot of that very connection whose items were validated for
    the session and accepted by the caller, and after it the exact acknowledgment of
    that snapshot (command id, snapshot id, complete hash, success), also accepted. *)
Theorem established_session_history (evs : list event) (c : nat) (i : SessionInfo.t) :
  has_on_snapshot cfg = true -> objects (steps mac sha256 cfg evs init).1 !! c = Some i ->
  SessionInfo.established i = true -> snapshot_acknowledged evs c.
Proof. intros Hcb Hi. by apply (run_explained evs c i). Qed.
End delivery.

(** ** A run: register, snapshot, acknowledgment, two observations (one a duplicate) *)

Module ExampleRun.
Definition sha (_ : text) : string :=
  "aaaaaaaaaaaaaaaaaaaaaaaaaaaaaaaaaaaaaaaaaaaaaaaaaaaaaaaaaaaaaaaa".

Definition cfg : config :=
  Config "dep" "hash" 0 2 (replicate 32 "k"%char) ControlLimits.default_limits ∅ true.

Definition answer : answers :=
  Answers (Float.of_Z 100) (Ok (true, "ok")) (Ok tt) (Ok tt) (Ok tt) (Ok tt) (Ok tt) true.

Definition envelope (kind : EnvelopeKind) (seq : Z) (payload : dict) : event :=
  EEnvelope 0 answer (Envelope.mk kind "dep" "hash" 0 1 "node1" seq payload).

Definition later : ComponentObservation.t :=
  ComponentObservation.mk "dep" "hash" 0 "ray" "ray-1" 4 RANK "worker" "node1" "READY"
    (VInt 13) (Some 1) None None None None None.

Definition establish : list event :=
  [EConnect 0;
   envelope REGISTER 0 [("payload_version", VInt 1); ("instance_id", VStr "node1:supervisor")];
   envelope SNAPSHOT 1
     (NodeChannel.chunk_payload "snap" (sha []) 1 0
        [snapshot_item "observation" (VDict (ComponentObservation.to_dict example_observation))]);
   envelope COMMAND_RESULT 2
     [("payload_version", VInt 1); ("command_id", VStr "SNAPSHOT_ACCEPTED:1:snap");
      ("operation", VStr "SNAPSHOT_ACCEPTED"); ("ok", VBool true); ("detail", VStr "");
      ("status", VStr "SUCCEEDED"); ("snapshot_id", VStr "snap");
      ("complete_set_hash", VStr (sha []))]].

Definition observe : list event :=
  map (fun seq => envelope OBSERVATION seq
         [("payload_version", VInt 1); ("observation", VDict (ComponentObservation.to_dict later))])
      [3; 4].

Definition run (evs : list event) (s : t) : t * list output :=
  steps (H := DecimalFloat.ops) example_mac sha cfg evs s.

Definition object (evs : list event) : SessionInfo.t :=
  default (SessionInfo.fresh 0 "" "" 0 (Float.of_Z 0)) (objects (run evs init).1 !! 0%nat).
End ExampleRun.

Lemma observations_in_order_witness :
  let s := (ExampleRun.run ExampleRun.establish init).1 in
  deliveries 0 (ExampleRun.run ExampleRun.observe s).2 = [ExampleRun.later] /\
  Forall (fun o => wf_observation o = true /\
            observation_identity ExampleRun.cfg (ExampleRun.object ExampleRun.establish) o = None /\
            default (-1) (SessionInfo.last_component_seq (ExampleRun.object ExampleRun.establish)
              !! observation_key o) < ComponentObservation.sequence o)
    (deliveries 0 (ExampleRun.run ExampleRun.observe s).2) /\
  forall key, StronglySorted Z.lt (sequences key (deliveries 0 (ExampleRun.run ExampleRun.observe s).2)).
Proof.
  split; [vm_compute; reflexivity|].
  apply (observations_in_order (H := DecimalFloat.ops) example_mac ExampleRun.sha ExampleRun.cfg
    ExampleRun.establish ExampleRun.observe 0 (ExampleRun.object ExampleRun.establish)).
  - reflexivity.
  - vm_compute. reflexivity.
  - repeat constructor.
Defined.

Lemma established_session_history_witness :
  snapshot_acknowledged (H := DecimalFloat.ops) example_mac ExampleRun.sha ExampleRun.cfg
    ExampleRun.establish 0.
Proof.
  apply (established_session_history (H := DecimalFloat.ops) example_mac ExampleRun.sha ExampleRun.cfg
    ExampleRun.establish 0 (ExampleRun.object ExampleRun.establish)).
  - reflexivity.
  - vm_compute. reflexivity.
  - vm_compute. reflexivity.
Defined.
