(* ===== verification/CommandProps.v ===== *)
(** The identity of commands. On the head, a command id is bound to one rank and one
    request for good, and a result is kept only for an issued command, from the rank
    it was issued to, for the same operation, and never changes. On the rank, a command
    id is bound to one request and answered with one result. *)

From S2P Require Import Prelude PyValue Json JsonProps Envelopes EnvelopesProps Frames Contracts Snapshots SnapshotsProps NodeChannel Listener ListenerProps DeliveryProps.

(** ** Results as records *)

Definition result_fields (op : string) : list string :=
  RESULT_FIELDS ++ if bool_decide (op = "SNAPSHOT_ACCEPTED") then SNAPSHOT_FIELDS else [].

(** The type of each field of a valid result. *)
Definition field_type (k : string) (v : value) : Prop :=
  match v with
  | VBool _ => k = "ok"
  | VInt _ => k = "payload_version" \/ k = "rank"
  | VStr _ => k ∉ ["ok"; "payload_version"; "rank"]
  | _ => False
  end.

(** A dictionary with exactly the given fields, each of its type. *)
Definition shaped (fields : list string) (d : dict) : Prop :=
  (forall k, is_Some (dget k d) <-> k ∈ fields) /\ forall k v, dget k d = Some v -> field_type k v.

Definition same_fields (a b : dict) : Prop := forall k, dget k b = dget k a.

#[global] Instance same_fields_equiv : Equivalence same_fields.
Proof.
  split; [by intros a k|by intros a b Hab k|]. intros a b c Hab Hbc k. by rewrite Hbc, Hab.
Qed.

Lemma py_eqb_typed k u v : field_type k u -> field_type k v -> py_eqb u v = true -> u = v.
Proof.
  destruct u, v; cbn; try done; intros Hu Hv Heq.
  all: try (exfalso; set_solver).
  all: try (by case_bool_decide; subst).
  - destruct b, b0; cbn in *; congruence.
  - f_equal. destruct (_ ?= _) eqn:E; try done. by apply Z.compare_eq in E.
Qed.

Lemma py_eqb_dict_get x y k u :
  py_eqb (VDict x) (VDict y) = true -> dget k x = Some u ->
  exists v, dget k y = Some v /\ py_eqb u v = true.
Proof.
  cbn. intros [_ Hgo]%andb_prop Hk. apply dget_Some_elem in Hk.
  induction x as [|[k0 u0] x IH]; [by apply elem_of_nil in Hk|].
  destruct (dget k0 y) as [v0|] eqn:E0; [|done]. apply andb_prop in Hgo as [Hv Hgo].
  apply elem_of_cons in Hk as [[= -> ->]|Hk]; [by exists v0|auto].
Qed.

Lemma shaped_eq fields a b :
  shaped fields a -> shaped fields b -> NodeChannel.dict_eqb a b = true -> same_fields a b.
Proof.
  intros [Ka Ta] [Kb Tb] Heq k. destruct (dget k a) as [u|] eqn:Ea.
  - destruct (py_eqb_dict_get _ _ _ _ Heq Ea) as (v & Ev & Huv).
    rewrite Ev. f_equal. symmetry. eapply py_eqb_typed; eauto.
  - destruct (dget k b) as [v|] eqn:Eb; [|done].
    assert (is_Some (dget k a)) as [? ?]; [|congruence]. apply Ka, Kb. by rewrite Eb.
Qed.

Lemma attr_dget k d v : attr k d = v -> v <> VNone -> dget k d = Some v.
Proof. unfold attr, dget_default. destruct (dget k d); cbn; congruence. Qed.

Lemma fields_are_get fields d k : fields_are fields d = true -> is_Some (dget k d) <-> k ∈ fields.
Proof.
  unfold fields_are, same_keys. intros [H1 H2]%andb_prop. rewrite forallb_forall in H1, H2.
  rewrite dget_is_Some. setoid_rewrite bool_decide_eq_true in H1.
  setoid_rewrite bool_decide_eq_true in H2.
  split; intros Hk; [apply H1|apply H2]; by apply list_elem_of_In.
Qed.

Lemma need_Ok {A} (o : option A) m a : need o m = Ok a -> o = Some a.
Proof. destruct o; cbn; congruence. Qed.

Lemma nonempty_str_Some v s : nonempty_str v = Some s -> v = VStr s.
Proof. destruct v; cbn; try done. destruct (nonempty _); congruence. Qed.

Lemma sha256_text_Some v s : sha256_text v = Some s -> v = VStr s.
Proof. destruct v; cbn; try done. destruct (is_sha256 _); congruence. Qed.

Lemma in_string_set_Ok l v : in_string_set l v = Ok true -> exists s, v = VStr s /\ s ∈ l.
Proof. destruct v; cbn; try done. intros [= Hb%bool_decide_eq_true]. eauto. Qed.

(** The fields and types of a valid result. *)
Lemma validate_result_shaped v d :
  validate_command_result_payload v = Ok d ->
  exists id op, v = VDict d /\ attr "command_id" d = VStr id /\ attr "operation" d = VStr op /\
    shaped (result_fields op) d.
Proof.
  unfold validate_command_result_payload. intros Hv. destruct v as [| | | | | |d']; try done.
  cbv zeta in Hv. apply bind_Ok in Hv as (_ & Hver%raise_if_Ok & Hv).
  apply bind_Ok in Hv as (_ & Hfields%raise_if_Ok & Hv).
  apply bind_Ok in Hv as (id & Hid%need_Ok%nonempty_str_Some & Hv).
  apply bind_Ok in Hv as (known & Hop & Hv). apply bind_Ok in Hv as (_ & Hknown%raise_if_Ok & Hv).
  apply bind_Ok in Hv as (ok & Hok & Hv). apply bind_Ok in Hv as (detail & Hdetail%need_Ok & Hv).
  apply bind_Ok in Hv as (ks & Hst & Hv). apply bind_Ok in Hv as (_ & Hks%raise_if_Ok & Hv).
  apply bind_Ok in Hv as (_ & _ & Hv). bool_prop. subst known ks.
  apply in_string_set_Ok in Hop as (op & Hop & _). apply in_string_set_Ok in Hst as (st & Hst & _).
  assert (as_str (attr "detail" d') = Some detail -> attr "detail" d' = VStr detail) as Hdet
    by (destruct (attr "detail" d'); cbn; congruence). specialize (Hdet Hdetail).
  assert (exists b, attr "ok" d' = VBool b) as [b Hb] by (destruct (attr "ok" d'); try done; eauto).
  assert (dget "payload_version" d' = Some (VInt 1)) as Hone.
  { unfold is_payload_version_one in Hver. destruct (dget _ d') as [[]|]; try done. by apply Z.eqb_eq in Hver as ->. }
  assert (is_str "SNAPSHOT_ACCEPTED" (attr "operation" d') = bool_decide (op = "SNAPSHOT_ACCEPTED")) as Esn
    by (by rewrite Hop). rewrite Esn in Hv, Hfields.
  assert (d' = d /\ (op = "SNAPSHOT_ACCEPTED" -> exists sid h, attr "snapshot_id" d = VStr sid /\
    attr "complete_set_hash" d = VStr h)) as [-> Hsnap].
  { case_bool_decide.
    - apply bind_Ok in Hv as (sid & Hsid%need_Ok%nonempty_str_Some & Hv).
      apply bind_Ok in Hv as (h & Hh%need_Ok%sha256_text_Some & Hv). injection Hv as ->. eauto.
    - injection Hv as ->. done. }
  exists id, op. split_and!; try done. split.
  - intros k. by apply fields_are_get.
  - intros k v Hk. assert (k ∈ result_fields op) as Hin by (eapply fields_are_get; [exact Hfields|by rewrite Hk]).
    assert (attr k d = v) as Hat by (unfold attr, dget_default; by rewrite Hk).
    unfold result_fields in Hin. apply elem_of_app in Hin as [Hin|Hin].
    + unfold RESULT_FIELDS in Hin. rewrite !elem_of_cons, elem_of_nil in Hin.
      assert (attr "payload_version" d = VInt 1) as Hone'
        by (unfold attr, dget_default; by rewrite Hone).
      destruct Hin as [-> |[-> |[-> |[-> |[-> |[-> |[]]]]]]]; rewrite <- Hat, ?Hone', ?Hid, ?Hop, ?Hb, ?Hdet, ?Hst; cbn;
        first [by left|by right|done|set_solver].
    + case_bool_decide; [|by apply elem_of_nil in Hin]. destruct Hsnap as (sid & h & Hs & Hh); [done|].
      unfold SNAPSHOT_FIELDS in Hin. rewrite !elem_of_cons, elem_of_nil in Hin.
      destruct Hin as [-> |[-> |[]]]; rewrite <- Hat, ?Hs, ?Hh; cbn; set_solver.
Qed.

(** ** The head *)

Import ControlListener.

(** A stored result belongs to the command it names: the rank it was issued to, the
    operation that was issued, and the fields of that operation. *)
Definition answers_command (id : string) (issued : Z * dict) (r : dict) : Prop :=
  exists op, attr "operation" issued.2 = VStr op /\ attr "operation" r = VStr op /\
    attr "command_id" r = VStr id /\ attr "rank" r = VInt issued.1 /\
    shaped ("rank" :: result_fields op) r.

Definition results_answer (s : t) : Prop :=
  forall id r, command_results s !! id = Some r ->
    exists issued, issued_commands s !! id = Some issued /\ answers_command id issued r.

(** Commands and results of [s] are still those of [s']. *)
Definition commands_kept (s s' : t) : Prop :=
  issued_commands s ⊆ issued_commands s' /\
  forall id r, command_results s !! id = Some r ->
    exists r', command_results s' !! id = Some r' /\ same_fields r r'.

Definition commands_step (s s' : t) : Prop :=
  results_answer s -> results_answer s' /\ commands_kept s s'.

Lemma commands_same s s' :
  issued_commands s' = issued_commands s -> command_results s' = command_results s -> commands_step s s'.
Proof.
  intros Hi Hr Ha. split.
  - intros id r. rewrite Hi, Hr. apply Ha.
  - split; [by rewrite Hi|]. intros id r Hid. exists r. rewrite Hr. by split.
Qed.

#[global] Instance commands_step_preorder : PreOrder commands_step.
Proof.
  split; [intros s; by apply commands_same|]. intros s1 s2 s3 H12 H23 Ha.
  destruct (H12 Ha) as [Ha2 [Hi2 Hr2]]. destruct (H23 Ha2) as [Ha3 [Hi3 Hr3]].
  split; [done|]. split; [by etrans|]. intros id r Hid.
  destruct (Hr2 id r Hid) as (r2 & Hid2 & Hs2). destruct (Hr3 id r2 Hid2) as (r3 & Hid3 & Hs3).
  exists r3. split; [done|]. by transitivity r2.
Qed.

Lemma commands_issue s id request :
  issued_commands s !! id = None ->
  commands_step s (set_issued_commands (<[id := request]> (issued_commands s)) s).
Proof.
  intros Hn Ha. split.
  - intros id' r Hr. destruct (Ha id' r Hr) as (issued & Hi & Hans). exists issued. split; [|done].
    cbn. rewrite lookup_insert_ne; [done|]. intros ->. by rewrite Hn in Hi.
  - split; [by apply insert_subseteq|]. intros id' r Hr. by exists r.
Qed.

Lemma commands_answer s id issued r :
  issued_commands s !! id = Some issued -> answers_command id issued r ->
  match command_results s !! id with Some prior => NodeChannel.dict_eqb prior r = true | None => True end ->
  commands_step s (set_command_results (<[id := r]> (command_results s)) s).
Proof.
  intros Hi Hans Hprior Ha. split.
  - intros id' r'. cbn. destruct (decide (id = id')) as [<-|Hne]; [|rewrite lookup_insert_ne by done; apply Ha].
    rewrite lookup_insert_eq. intros [= <-]. by exists issued.
  - split; [done|]. intros id' r'. cbn.
    destruct (decide (id = id')) as [<-|Hne]; [|rewrite lookup_insert_ne by done; by exists r'].
    intros Hr'. exists r. rewrite lookup_insert_eq. split; [done|]. rewrite Hr' in Hprior.
    destruct (Ha id r' Hr') as (issued' & Hi' & op & Hop & _ & _ & _ & Hsh).
    destruct Hans as (op' & Hop' & _ & _ & _ & Hsh'). replace op' with op in * by congruence.
    by eapply shaped_eq.
Qed.

Section head.
  Context `{FloatText} (mac : text -> text -> text) (sha256 : text -> string) (cfg : config).

Definition commanding {A} (m : M A) (s : t) : Prop :=
  wp m (fun _ _ s' => commands_step s s') (fun _ s' => commands_step s s') s.

Ltac same_commands := by apply commands_same.

Lemma commanding_bind {A B} (m : M A) (f : A -> M B) s :
  commanding m s -> (forall a s', commanding (f a) s') -> commanding (m ≫= f) s.
Proof.
  intros Hm Hf. apply wp_bind. eapply wp_mono; [exact Hm|..]; cbn beta; [|done].
  intros a out s' Hs. eapply wp_mono; [apply Hf|..]; cbn beta; intros *; by transitivity s'.
Qed.

Lemma commanding_when b m s : (forall s', commanding m s') -> commanding (when b m) s.
Proof. intros Hm. destruct b; [apply Hm|]. apply wp_ret. same_commands. Qed.

(** Computations that leave the command tables alone, piece by piece. *)
Ltac commands :=
  repeat match goal with
    | |- commanding (_ ≫= _) _ => apply commanding_bind; [|intros ? ?]
    | |- commanding (when _ _) _ => apply commanding_when; intros ?
    | |- commanding (match ?x with _ => _ end) _ => destruct x
    | |- commanding (let _ := _ in _) _ => cbv zeta
    end;
  try (unfold commanding; wp_run; same_commands).

Lemma send_command_to_commanding sent rank id op payload s :
  commanding (send_command_to mac cfg sent rank id op payload) s.
Proof.
  unfold commanding, send_command_to, remember_issued_command. cbv zeta.
  wp_run; try same_commands.
  all: etrans; [by eapply commands_issue|same_commands].
Qed.

Lemma expect_goodbye_commanding rank s : commanding (expect_goodbye rank) s.
Proof. unfold commanding, expect_goodbye. wp_run; same_commands. Qed.

Section turn.
  Context (ans : answers) (conn : nat).

Lemma handle_command_result_commanding i e s :
  Envelope.sender_rank e = SessionInfo.rank i ->
  commanding (handle_command_result cfg ans conn i e) s.
Proof.
  intros Hrank. unfold commanding, handle_command_result.
  wp_step. wp_step; [|same_commands..]. wp_step. wp_step.
  match goal with Hv : validate_command_result_payload _ = Ok ?d |- _ =>
    destruct (validate_result_shaped _ _ Hv) as (id & op & _ & Hid & Hop & Hsh) end.
  rewrite Hid. destruct (issued_commands s !! id) as [[r p]|] eqn:Eid; [|wp_run; same_commands].
  do 4 (cbv zeta; wp_step; wp_step; [wp_run; same_commands|]). wp_step. wp_step.
  set (record := dset "rank" _ a). bool_prop.
  assert (commands_step s (set_command_results (<[id := record]> (command_results s)) s)) as Hstep.
  { apply (commands_answer s id (r, p)); [done| |by destruct (command_results s !! id); bool_prop].
    assert (forall k, k <> "rank" -> attr k record = attr k a) as Hk
      by (intros k Hne; unfold attr, dget_default, record; by rewrite dget_dset_ne).
    exists op. rewrite !Hk by done. split_and!; try done.
    - rewrite Hop in *. cbn [snd]. destruct (attr "operation" p); try done. cbn in *. bool_prop. congruence.
    - unfold attr, dget_default, record. rewrite dget_dset_eq. cbn. congruence.
    - destruct Hsh as [Hf Ht]. split.
      + intros k. unfold record. rewrite dget_dset, elem_of_cons. destruct (decide ("rank" = k)) as [<-|].
        * split; [by left|done].
        * rewrite Hf. naive_solver.
      + intros k v. unfold record. rewrite dget_dset. destruct (decide ("rank" = k)) as [<-|]; [|apply Ht].
        intros [= <-]. by right. }
  set (s1 := set_command_results _ s) in *. clearbody s1.
  wp_step. eapply wp_mono.
  - apply (wp_when _ _ (fun _ _ s' => commands_step s s') (fun _ s' => commands_step s s')); intros _; [|done].
    eapply wp_mono; [apply expect_goodbye_commanding|..]; intros *; by transitivity s1.
  - intros [] out s2 Hs2. wp_step; [|done]. unfold acknowledge_snapshot, refresh_established_event. cbv zeta.
    wp_run; (etrans; [exact Hs2|same_commands]).
  - intros out s2 Hs2. exact Hs2.
Qed.

Lemma deliver_receipts_commanding rank l s : commanding (deliver_receipts ans rank l) s.
Proof.
  revert s. induction l as [|r l IH]; intros s; cbn [deliver_receipts]; commands. apply IH.
Qed.

Lemma deliver_observations_commanding rank l s : commanding (deliver_observations ans conn rank l) s.
Proof.
  revert s. induction l as [|o l IH]; intros s; cbn [deliver_observations]; commands. apply IH.
Qed.

Lemma install_snapshot_commanding i sid h obs s :
  commanding (install_snapshot mac sha256 cfg ans conn i sid h obs) s.
Proof. unfold install_snapshot. commands. apply send_command_to_commanding. Qed.

Lemma handle_snapshot_commanding i e s :
  commanding (handle_snapshot mac sha256 cfg ans conn i e) s.
Proof.
  unfold handle_snapshot. commands; auto using deliver_receipts_commanding,
    deliver_observations_commanding, install_snapshot_commanding.
Qed.

Lemma apply_observation_commanding i item s :
  commanding (apply_observation sha256 cfg ans conn i item) s.
Proof. unfold apply_observation. commands. Qed.

Lemma register_commands e s s1 :
  register cfg conn (an_now ans) e s = Ok s1 ->
  issued_commands s1 = issued_commands s /\ command_results s1 = command_results s.
Proof.
  unfold register. intros Hreg. destruct (nonempty_str _) as [inst|]; [|done].
  next_guard Hreg Hfields. next_guard Hreg Hrange. next_guard Hreg Hseq. next_guard Hreg Hplanned.
  next_guard Hreg Hnr. next_guard Hreg Hmoved. next_guard Hreg Hdup. apply Ok_inj in Hreg as <-.
  by destruct (forallb _ _).
Qed.

Lemma handle_register_commanding e s : commanding (handle_register mac cfg ans conn e) s.
Proof.
  unfold commanding, handle_register. wp_step. wp_step. wp_step. wp_step; [wp_run; same_commands|].
  destruct (register cfg conn (an_now ans) e s) as [s1|err] eqn:Hreg; [|wp_run; same_commands].
  apply register_commands in Hreg as [Hi Hr]. wp_run; by apply commands_same.
Qed.

Lemma handle_envelope_commanding e s : commanding (handle_envelope mac sha256 cfg ans conn e) s.
Proof.
  unfold handle_envelope. destruct (check_scope cfg e); [commands|].
  case_bool_decide; [apply handle_register_commanding|].
  apply commanding_bind; [commands|]. intros s0 s1.
  destruct (session_of conn s0) as [i|]; [|commands]. destruct (negb _); [commands|].
  destruct (_ || _) eqn:Hid; [commands|]. bool_prop. destruct (_ <=? _); [commands|]. cbv zeta.
  apply commanding_bind; [commands|]. intros [] s2. destruct (Envelope.kind e).
  - commands.
  - unfold handle_observation. commands. apply apply_observation_commanding.
  - commands.
  - by apply handle_command_result_commanding.
  - apply handle_snapshot_commanding.
  - unfold handle_receipt. commands.
  - unfold handle_heartbeat. commands.
  - unfold handle_goodbye. commands.
Qed.

Lemma finish_commands s : commands_step s (finish ans conn s).1.
Proof.
  unfold finish, session_of. destruct (objects s !! conn) as [i|]; [|same_commands].
  destruct (SessionInfo.registered i); [|same_commands]. destruct (an_session ans); same_commands.
Qed.

Lemma handle_turn_commands m s : commanding m s -> commands_step s (handle_turn ans conn m s).1.
Proof.
  unfold commanding, wp, handle_turn. destruct (m s) as [[s1 out] [[]| |e]]; intros Hm; [done|..].
  - pose proof (finish_commands s1) as Hf. destruct (finish ans conn s1) as [s2 out2]. by transitivity s1.
  - match goal with |- context [finish ans conn ?x] => set (s3 := x) end.
    pose proof (finish_commands s3) as Hf. destruct (finish ans conn s3) as [s4 out2].
    transitivity s1; [done|]. transitivity s3; [same_commands|done].
Qed.
End turn.

Lemma step_commands ev s : commands_step s (step mac sha256 cfg ev s).1.
Proof.
  assert (forall A (m : M A), commanding m s -> commands_step s (run m s).1.1) as Hrun.
  { intros A m. unfold commanding, wp, run. by destruct (m s) as [[s' out] [a| |e]]. }
  destruct ev as [conn|conn ans e|conn ans reason|conn ans|sent rank id op p|rank]; cbn [step].
  - destruct (_ || _); same_commands.
  - case_bool_decide; [|same_commands]. apply handle_turn_commands, handle_envelope_commanding.
  - case_bool_decide; [|same_commands]. apply handle_turn_commands. unfold rejected_frame. commands.
  - case_bool_decide; [|same_commands]. apply handle_turn_commands. commands.
  - assert (commanding (send_command mac cfg sent rank id op p) s) as Hs%Hrun.
    { unfold send_command. commands. apply send_command_to_commanding. }
    by destruct (run _ s) as [[s1 out] r].
  - pose proof (Hrun _ _ (expect_goodbye_commanding rank s)) as Hs. by destruct (run _ s) as [[s1 out] r].
Qed.

Lemma steps_commands evs s : commands_step s (steps mac sha256 cfg evs s).1.
Proof.
  revert s. induction evs as [|ev evs IH]; intros s; [same_commands|]. cbn [steps].
  pose proof (step_commands ev s) as H1. destruct (step mac sha256 cfg ev s) as [s1 out1].
  specialize (IH s1). destruct (steps mac sha256 cfg evs s1) as [s2 out2]. by transitivity s1.
Qed.

(** A command id means one thing for the life of the head. Once issued it stays bound
    to its rank and its request; a result is kept only for an issued command, it came
    from the rank the command went to, it names the issued operation and has exactly
    the fields of that operation; and no later frame changes a kept result. *)
Theorem command_identity (evs evs' : list event) :
  let s := (steps mac sha256 cfg evs init).1 in
  let s' := (steps mac sha256 cfg (evs ++ evs') init).1 in
  (forall id request, issued_commands s !! id = Some request -> issued_commands s' !! id = Some request) /\
  (forall id r, command_results s !! id = Some r ->
     exists issued, issued_commands s !! id = Some issued /\ answers_command id issued r) /\
  (forall id r, command_results s !! id = Some r ->
     exists r', command_results s' !! id = Some r' /\ forall k, dget k r' = dget k r).
Proof.
  intros s s'. assert (results_answer init) as H0 by (intros id r Hr; cbn in Hr; by rewrite lookup_empty in Hr).
  destruct (steps_commands evs init H0) as [Ha _]. fold s in Ha.
  assert (s' = (steps mac sha256 cfg evs' s).1) as Es' by exact (steps_app mac sha256 cfg evs evs' init).
  rewrite Es'. clearbody s s'.
  destruct (steps_commands evs' s Ha) as [_ [Hi Hr]].
  split_and!; [|exact Ha|exact Hr]. intros id request Hid. by eapply lookup_weaken.
Qed.
End head.

(** In the example run the snapshot command is issued and answered. *)
Example command_identity_example :
  (fun s => (fst <$> issued_commands s !! "SNAPSHOT_ACCEPTED:1:snap",
             attr "status" <$> command_results s !! "SNAPSHOT_ACCEPTED:1:snap"))
    (ExampleRun.run ExampleRun.establish init).1 = (Some 1, Some (VStr "SUCCEEDED")).
Proof. vm_compute. reflexivity. Qed.

(** ** The rank *)

(** ** Computations of the channel that return *)

Lemma chan_bind_Ok {A B} (m : NodeChannel.M A) (f : A -> NodeChannel.M B) ch ch' out b :
  (m ≫= f) ch = (ch', out, Ok b) ->
  exists ch1 out1 a out2, m ch = (ch1, out1, Ok a) /\ f a ch1 = (ch', out2, Ok b) /\ out = out1 ++ out2.
Proof.
  unfold mbind, NodeChannel.M_bind. destruct (m ch) as [[ch1 out1] [a|x]]; [|done].
  destruct (f a ch1) as [[ch2 out2] r] eqn:E. intros [= <- <- ->]. eauto 8.
Qed.

Lemma chan_refuse b x ch ch' out :
  NodeChannel.when b (NodeChannel.raise x) ch = (ch', out, Ok tt) -> b = false /\ ch' = ch /\ out = [].
Proof. unfold NodeChannel.when, NodeChannel.raise. destruct b; [done|]. by intros [= <- <-]. Qed.

Lemma chan_lift {A} (r : result exc A) ch ch' out a :
  NodeChannel.lift r ch = (ch', out, Ok a) -> r = Ok a /\ ch' = ch /\ out = [].
Proof. unfold NodeChannel.lift. destruct r; [|done]. by intros [= <- <- <-]. Qed.

Module RankCommands.
Import NodeChannel.

(** The calls of the rank's supervisor on its channel. *)
Inductive operation :=
| OpRegister (instance : string) (cleaned opened sent : bool) (input : incoming)
| OpObservation (sent : bool) (o : ComponentObservation.t) (receipt : option dict)
| OpReceipt (sent : bool) (receipt : dict)
| OpSnapshot (sent : nat) (obs : list ComponentObservation.t) (recs : list dict) (id : string) (n : Z)
| OpReceive (input : incoming)
| OpResult (sent : bool) (id : string) (ok : bool) (detail op : string) (status : option string)
           (extra : dict)
| OpReplay (sent : bool) (command : dict)
| OpAwaitSnapshot (sent : bool) (id : string) (input : incoming)
| OpHeartbeat (sent : bool)
| OpRoundTrip (sent : bool) (inputs : list incoming)
| OpClose (expected sent closed : bool).

Section rank.
  Context `{FloatText} (mac : text -> text -> text) (sha256 : text -> string).

Definition outcome {A} (r : t * list Envelope.t * A) : t * list Envelope.t := r.1.

Definition operate (o : operation) (c : t) : t * list Envelope.t :=
  match o with
  | OpRegister instance cleaned opened sent input =>
      outcome (connect_and_register mac instance cleaned opened sent input c)
  | OpObservation sent o receipt => outcome (send_observation mac sent o receipt c)
  | OpReceipt sent receipt => outcome (send_receipt mac sent receipt c)
  | OpSnapshot sent obs recs id n => outcome (send_snapshot mac sha256 sent obs recs id n c)
  | OpReceive input => outcome (receive_command input c)
  | OpResult sent id ok detail op status extra =>
      outcome (send_command_result mac sent id ok detail op status extra c)
  | OpReplay sent command => outcome (replay_command_result mac sent command c)
  | OpAwaitSnapshot sent id input => outcome (await_snapshot_accepted mac sent id input c)
  | OpHeartbeat sent => outcome (send_heartbeat mac sent c)
  | OpRoundTrip sent inputs => outcome (heartbeat_round_trip mac sent inputs c)
  | OpClose expected sent closed => outcome (close mac expected sent closed c)
  end.

Fixpoint operate_all (ops : list operation) (c : t) : t * list Envelope.t :=
  match ops with
  | [] => (c, [])
  | o :: ops' =>
      let '(c1, out1) := operate o c in
      let '(c2, out2) := operate_all ops' c1 in (c2, out1 ++ out2)
  end.

(** A cached result answers the command received under its id. *)
Definition result_of (c : t) (id : string) (r : dict) : Prop :=
  exists request op, received_commands c !! id = Some request /\
    attr "operation" request = VStr op /\ attr "operation" r = VStr op /\
    attr "command_id" r = VStr id /\ attr "payload_version" r = VInt 1 /\
    shaped (result_fields op) r /\
    (op = "SNAPSHOT_ACCEPTED" -> forall k, k ∈ SNAPSHOT_FIELDS -> attr k request = attr k r).

Definition is_result (e : Envelope.t) : Prop := Envelope.kind e = COMMAND_RESULT.

(** A result the rank hands to the transport between [c] and [c'] answers a received
    command, and repeats the result cached for that command, if there is one. *)
Definition answer (c c' : t) (e : Envelope.t) : Prop :=
  is_result e -> exists id, attr "command_id" (Envelope.payload e) = VStr id /\
    result_of c' id (Envelope.payload e) /\
    forall r, command_results c !! id = Some r -> same_fields r (Envelope.payload e).

Definition cache_ok (c : t) : Prop :=
  forall id r, command_results c !! id = Some r -> result_of c id r.

Definition cache_kept (c c' : t) : Prop :=
  forall id r, command_results c !! id = Some r ->
    exists r', command_results c' !! id = Some r' /\ same_fields r r'.

(** A result cached since [c] was handed to the transport. *)
Definition cache_written (c : t) (out : list Envelope.t) (c' : t) : Prop :=
  forall id r, command_results c' !! id = Some r ->
    is_Some (command_results c !! id) \/
    exists e, e ∈ out /\ is_result e /\ same_fields r (Envelope.payload e).

Definition rank_step (c : t) (out : list Envelope.t) (c' : t) : Prop :=
  cache_ok c -> cache_ok c' /\ received_commands c ⊆ received_commands c' /\
  cache_kept c c' /\ cache_written c out c' /\ Forall (answer c c') out.

Lemma result_of_weaken c c' id r :
  received_commands c ⊆ received_commands c' -> result_of c id r -> result_of c' id r.
Proof.
  intros Hsub (request & op & Hreq & Hrest). exists request, op. split; [|done]. by eapply lookup_weaken.
Qed.

Lemma rank_step_trans c1 c2 c3 o1 o2 :
  rank_step c1 o1 c2 -> rank_step c2 o2 c3 -> rank_step c1 (o1 ++ o2) c3.
Proof.
  intros H12 H23 H1. destruct (H12 H1) as (H2 & S2 & R2 & W2 & O2).
  destruct (H23 H2) as (H3 & S3 & R3 & W3 & O3). split_and!; [done|by etrans|..].
  - intros id r Hr. destruct (R2 id r Hr) as (r2 & Hr2 & E2). destruct (R3 id r2 Hr2) as (r3 & Hr3 & E3).
    exists r3. split; [done|]. by transitivity r2.
  - intros id r Hr. destruct (W3 id r Hr) as [[r2 Hr2]|(e & He & Hk & Hs)].
    + destruct (W2 id r2 Hr2) as [?|(e & He & Hk & Hs)]; [by left|right]. exists e.
      split_and!; [set_solver|done|]. destruct (R3 id r2 Hr2) as (r3 & Hr3 & E3).
      transitivity r2; [|done]. symmetry. congruence.
    + right. exists e. split_and!; [set_solver|done|done].
  - apply Forall_app. split.
    + eapply Forall_impl; [exact O2|]. intros e He Hk. destruct (He Hk) as (id & Hid & Hr & Hc).
      exists id. split_and!; [done|by eapply result_of_weaken|done].
    + eapply Forall_impl; [exact O3|]. intros e He Hk. destruct (He Hk) as (id & Hid & Hr & Hc).
      exists id. split_and!; [done|done|]. intros r Hr1. destruct (R2 id r Hr1) as (r2 & Hr2 & E2).
      transitivity r2; auto.
Qed.

(** The cache stays and every result written is right. *)
Lemma rank_step_answer c c' out :
  received_commands c' = received_commands c -> command_results c' = command_results c ->
  Forall (answer c c') out -> rank_step c out c'.
Proof.
  intros Hrec Hres Hout Hok. split_and!; [|by rewrite Hrec| | |done].
  - intros id r. rewrite Hres. intros Hr%Hok. eapply result_of_weaken; [|exact Hr]. by rewrite Hrec.
  - intros id r Hr. exists r. by rewrite Hres.
  - intros id r Hr. left. rewrite <- Hres. by eexists.
Qed.

Lemma rank_step_same c c' out :
  received_commands c' = received_commands c -> command_results c' = command_results c ->
  Forall (fun e => ~ is_result e) out -> rank_step c out c'.
Proof.
  intros Hrec Hres Hout. apply rank_step_answer; [done|done|].
  eapply Forall_impl; [exact Hout|]. by intros e Hne Hk.
Qed.

Definition ranking {A} (m : M A) (c : t) : Prop := let '(c', out, _) := m c in rank_step c out c'.

Lemma ranking_bind {A B} (m : M A) (f : A -> M B) c :
  ranking m c -> (forall a c', ranking (f a) c') -> ranking (m ≫= f) c.
Proof.
  unfold ranking, mbind, M_bind. intros Hm Hf. destruct (m c) as [[c1 o1] [a|e]]; [|done].
  specialize (Hf a c1). destruct (f a c1) as [[c2 o2] r]. by eapply rank_step_trans.
Qed.

Lemma ranking_when b m c : (forall c', ranking m c') -> ranking (when b m) c.
Proof. intros Hm. destruct b; [apply Hm|]. by apply rank_step_same. Qed.

Lemma ranking_get c : ranking get c.
Proof. by apply rank_step_same. Qed.
Lemma ranking_ret {A} (a : A) c : ranking (mret a) c.
Proof. by apply rank_step_same. Qed.
Lemma ranking_raise {A} e c : ranking (@raise A e) c.
Proof. by apply rank_step_same. Qed.
Lemma ranking_lift {A} (r : result exc A) c : ranking (lift r) c.
Proof. by apply rank_step_same. Qed.

(** Computations that leave the command tables alone and write no result. *)
Ltac rank_commands :=
  repeat match goal with
    | |- ranking (_ ≫= _) _ => apply ranking_bind; [|intros ? ?]
    | |- ranking (when _ _) _ => apply ranking_when; intros ?
    | |- ranking (match ?x with _ => _ end) _ => destruct x
    | |- ranking (let _ := _ in _) _ => cbv zeta
    | |- ranking get _ => apply ranking_get
    | |- ranking (mret _) _ => apply ranking_ret
    | |- ranking (raise _) _ => apply ranking_raise
    | |- ranking (contract _) _ => apply ranking_raise
    | |- ranking (lift _) _ => apply ranking_lift
    | |- ranking (modify _) _ => by apply rank_step_same
    end.

(** What a write does: the command tables stay, and it writes at most this envelope, which
    it has written when it returns and may have written when it raises. *)
Lemma write_spec sent kind payload c :
  let '(c', out, r) := write mac sent kind payload c in
  received_commands c' = received_commands c /\ command_results c' = command_results c /\
  (r = Ok tt -> out <> []) /\
  (out = [] \/ exists e, out = [e] /\ Envelope.kind e = kind /\ Envelope.payload e = payload).
Proof.
  unfold write, put_frame, env, mbind, M_bind, get, modify, emit, raise, when, lift, mret, M_ret.
  destruct (has_writer c); cbn -[write_frame]; [|by split_and!; [..|left]].
  destruct (write_frame _ _ _ _); cbn -[write_frame]; [|by split_and!; [..|left]].
  destruct sent; cbn; split_and!; try done; right; by eexists.
Qed.

Lemma ranking_write sent kind payload c :
  kind <> COMMAND_RESULT -> ranking (write mac sent kind payload) c.
Proof.
  intros Hk. pose proof (write_spec sent kind payload c) as Hw. unfold ranking.
  destruct (write mac sent kind payload c) as [[c' out] r]. destruct Hw as (Hrec & Hres & _ & Hout).
  apply rank_step_same; [done|done|]. destruct Hout as [-> |(e & -> & Hke & _)]; repeat constructor.
  unfold is_result. congruence.
Qed.

Lemma ranking_write_chunks sent payloads c : ranking (write_chunks mac sent payloads) c.
Proof.
  revert sent c. induction payloads as [|p ps IH]; intros sent c; cbn [write_chunks]; rank_commands.
  - by apply ranking_write.
  - apply IH.
Qed.

Lemma ranking_remember command c : ranking (remember_received_command command) c.
Proof.
  unfold ranking, remember_received_command, mbind, M_bind, get, modify, when, contract, raise, mret, M_ret.
  cbn. destruct (attr "command_id" command); cbn; try (by apply rank_step_same).
  destruct (received_commands c !! s) as [previous|] eqn:Hs; cbn.
  - destruct (negb _); by apply rank_step_same.
  - destruct (_ <=? _)%nat; cbn; [by apply rank_step_same|]. intros Hok.
    assert (received_commands c ⊆ <[s := command]> (received_commands c)) as Hsub by by apply insert_subseteq.
    split_and!; [|done|by eexists|intros id r Hr; left; by eexists|constructor]. intros id r Hr.
    eapply result_of_weaken; [exact Hsub|by apply Hok].
Qed.

Lemma ranking_read input c : ranking (read_head_envelope input) c.
Proof. unfold read_head_envelope, validate_head_envelope. rank_commands. Qed.

Lemma ranking_receive input c : ranking (receive_command input) c.
Proof. unfold receive_command. rank_commands; auto using ranking_remember, ranking_read. Qed.

Lemma extra_fields_kept k (d extra : dict) :
  existsb (fun k => bool_decide (k ∈ RESULT_RESERVED)) (dkeys extra) = false -> k ∈ RESULT_RESERVED ->
  dget k (dupdate d extra) = dget k d.
Proof.
  intros Hex Hk. apply dget_dupdate_not_in. intros Hin.
  apply not_true_iff_false in Hex. apply Hex, existsb_exists. exists k.
  split; [by apply list_elem_of_In|by apply bool_decide_eq_true].
Qed.

Lemma cached_result_kept c id r r' :
  cache_ok c -> command_results c !! id = Some r -> result_of c id r' ->
  dict_eqb r r' = true -> same_fields r r'.
Proof.
  intros Hok Hr (request' & op' & Hreq' & Hop' & _ & _ & _ & Hsh' & _) Heq.
  destruct (Hok id r Hr) as (request & op & Hreq & Hop & _ & _ & _ & Hsh & _).
  replace op' with op in * by congruence. by eapply shaped_eq.
Qed.

(** Writing a result and caching it afterwards. *)
Lemma ranking_answer sent id r c :
  result_of c id r ->
  match command_results c !! id with Some prior => dict_eqb prior r = true | None => True end ->
  ranking (_ ← write mac sent COMMAND_RESULT r;
           modify (fun c => set_results (<[id := r]> (command_results c)) c)) c.
Proof.
  intros Hres Hprior. pose proof (write_spec sent COMMAND_RESULT r c) as Hw. unfold ranking, mbind, M_bind.
  assert (attr "command_id" r = VStr id) as Hid by (by destruct Hres as (_ & _ & _ & _ & _ & Hid & _)).
  assert (cache_ok c -> forall r', command_results c !! id = Some r' -> same_fields r' r) as Hsame
    by (intros Hc r' Hr'; rewrite Hr' in Hprior; by eapply cached_result_kept).
  destruct (write mac sent COMMAND_RESULT r c) as [[c1 out] x]. destruct Hw as (Hrec & Hre & Hok & Hout).
  assert (cache_ok c -> forall c', received_commands c ⊆ received_commands c' -> Forall (answer c c') out) as Hans.
  { intros Hc c' Hsub. destruct Hout as [-> |(e & -> & Hk & Hp)]; [constructor|]. constructor; [|constructor].
    intros _. exists id. rewrite Hp. split_and!; [done|by eapply result_of_weaken|auto]. }
  destruct x as [[]|x].
  - intros Hc. unfold modify. rewrite app_nil_r. destruct Hout as [-> |(e & -> & Hk & Hp)]; [by destruct (Hok eq_refl)|].
    split_and!.
    + intros id' r'. cbn. rewrite Hre. intros Hr'. apply (result_of_weaken c); [cbn; by rewrite Hrec|].
      destruct (decide (id = id')) as [<-|Hne].
      * rewrite lookup_insert_eq in Hr'. by injection Hr' as <-.
      * rewrite lookup_insert_ne in Hr' by done. by apply Hc.
    + cbn. by rewrite Hrec.
    + cbn. intros id' r' Hr'. cbn. rewrite Hre. destruct (decide (id = id')) as [<-|Hne].
      * exists r. rewrite lookup_insert_eq. auto.
      * exists r'. by rewrite lookup_insert_ne.
    + intros id' r'. cbn. rewrite Hre. destruct (decide (id = id')) as [<-|Hne].
      * rewrite lookup_insert_eq. intros [= <-]. right. exists e. rewrite Hp. split_and!; [set_solver|done|done].
      * rewrite lookup_insert_ne by done. intros Hr'. left. by eexists.
    + apply Hans; [done|]. cbn. by rewrite Hrec.
  - intros Hc. apply rank_step_answer; [done|done| |done]. apply Hans; [done|]. by rewrite Hrec.
Qed.

(** Sequential composition that keeps what is known of the state. *)
Lemma ranking_get_bind {A} (f : t -> M A) c : ranking (f c) c -> ranking (get ≫= f) c.
Proof. unfold ranking, mbind, M_bind, get. by destruct (f c c) as [[c' out] r]. Qed.

Lemma ranking_guard {A} b message (f : unit -> M A) c :
  (b = false -> ranking (f tt) c) -> ranking (when b (contract message) ≫= f) c.
Proof.
  unfold ranking, mbind, M_bind, when, contract, raise. destruct b; cbn.
  - intros _. by apply rank_step_same.
  - intros Hf. specialize (Hf eq_refl). by destruct (f tt c) as [[c' out] r].
Qed.

Lemma ranking_lift_bind {A B} (r : result exc A) (f : A -> M B) c :
  (forall a, r = Ok a -> ranking (f a) c) -> ranking (lift r ≫= f) c.
Proof.
  unfold ranking, mbind, M_bind, lift. destruct r as [a|e]; cbn.
  - intros Hf. specialize (Hf a eq_refl). by destruct (f a c) as [[c' out] r].
  - intros _. by apply rank_step_same.
Qed.

Lemma ranking_result sent id ok detail op status extra c :
  ranking (send_command_result mac sent id ok detail op status extra) c.
Proof.
  unfold send_command_result. do 3 (apply ranking_guard; intros _). apply ranking_guard. intros Hextra.
  cbv zeta. set (body := dupdate _ extra). apply ranking_get_bind.
  assert (attr "command_id" body = VStr id /\ attr "operation" body = VStr op /\
    attr "payload_version" body = VInt 1) as (Hid & Hop & Hver).
  { unfold attr, dget_default, body. by rewrite !extra_fields_kept by (done || set_solver). }
  clearbody body. destruct (received_commands c !! id) as [request|] eqn:Hreq; [|rank_commands].
  apply ranking_guard. intros Hsame. apply ranking_guard. intros Hsnap. apply ranking_lift_bind.
  intros r Hv. destruct (validate_result_shaped _ _ Hv) as (id' & op' & [= <-] & _ & Hop' & Hsh).
  replace op' with op in * by congruence. bool_prop. apply py_eqb_str in Hsame.
  assert (result_of c id body) as Hres.
  { exists request, op. split_and!; try done. intros -> k Hk. cbn [andb] in Hsnap.
    rewrite bool_decide_true in Hsnap by done. cbn [andb] in Hsnap.
    assert (py_eqb (attr k request) (attr k body) = true) as Heq.
    { apply not_false_iff_true. intros Hf. apply not_true_iff_false in Hsnap. apply Hsnap, existsb_exists.
      exists k. split; [by apply list_elem_of_In|by rewrite Hf]. }
    destruct Hsh as [Hf Ht]. assert (is_Some (dget k body)) as [v Hkv].
    { apply Hf. unfold result_fields. rewrite bool_decide_true by done. set_solver. }
    pose proof (Ht k v Hkv) as Htype. unfold SNAPSHOT_FIELDS in Hk.
    rewrite !elem_of_cons, elem_of_nil in Hk. assert (exists x, v = VStr x) as [x ->].
    { destruct Hk as [-> |[-> |[]]]; destruct v; cbn in Htype; try done; [by destruct Htype..|by eexists| |];
        [by destruct Htype|by eexists]. }
    unfold attr, dget_default in Heq |- *. rewrite Hkv in Heq |- *. cbn in Heq |- *.
    by apply py_eqb_str in Heq. }
  clear Hextra Hsnap Hv.
  destruct (command_results c !! id) as [prior|] eqn:Hp; apply ranking_guard; intros Hprior; apply ranking_answer;
    try done; rewrite Hp; by bool_prop.
Qed.

Lemma ranking_replay sent command c : ranking (replay_command_result mac sent command) c.
Proof.
  unfold replay_command_result. apply ranking_get_bind. destruct (nonempty_str _) as [id|]; [|rank_commands].
  destruct (command_results c !! id) as [r|] eqn:Hr; [|rank_commands]. apply ranking_guard. intros _.
  pose proof (write_spec sent COMMAND_RESULT r c) as Hw. unfold ranking, mbind, M_bind.
  assert (forall c1 out, received_commands c1 = received_commands c -> command_results c1 = command_results c ->
    (out = [] \/ exists e, out = [e] /\ Envelope.kind e = COMMAND_RESULT /\ Envelope.payload e = r) ->
    rank_step c out c1) as Hstep.
  { intros c1 out Hrec Hre Hout Hc. apply rank_step_answer; [done|done| |done].
    destruct Hout as [-> |(e & -> & _ & Hp)]; [constructor|]. constructor; [|constructor]. intros _.
    pose proof (Hc id r Hr) as Hres. destruct (Hres) as (? & ? & _ & _ & _ & Hid & _).
    exists id. rewrite Hp. split_and!; [done|eapply result_of_weaken; [|exact Hres]; by rewrite Hrec|].
    rewrite Hr. by intros r' [= <-]. }
  destruct (write mac sent COMMAND_RESULT r c) as [[c1 out] [[]|x]]; destruct Hw as (Hrec & Hre & _ & Hout).
  - cbn. rewrite app_nil_r. by apply Hstep.
  - by apply Hstep.
Qed.

Lemma ranking_await_heartbeat id inputs c : ranking (await_heartbeat id inputs) c.
Proof.
  revert c. induction inputs as [|input inputs IH]; intros c; cbn [await_heartbeat]; [rank_commands|].
  assert (forall c, ranking (e ← read_head_envelope input;
      match Envelope.kind e with
      | COMMAND => _ ← queue_head_command (VDict (Envelope.payload e)); await_heartbeat id inputs
      | HEARTBEAT =>
          if fields_are ["payload_version"; "heartbeat_id"] (Envelope.payload e) &&
             is_payload_version_one (Envelope.payload e) &&
             is_str id (attr "heartbeat_id" (Envelope.payload e))
          then mret (Some true)
          else contract "unexpected HEARTBEAT during heartbeat"
      | k => contract ("unexpected " +:+ kind_value k +:+ " during heartbeat")
      end) c) as Hread.
  { intros c'. apply ranking_bind; [apply ranking_read|]. intros e c1. destruct (Envelope.kind e); rank_commands.
    - unfold queue_head_command. rank_commands.
    - apply IH. }
  destruct input; [apply Hread..|rank_commands].
Qed.

Lemma ranking_accept ack c : ranking (accept_registration ack) c.
Proof. unfold accept_registration, validate_head_envelope, accept_limits, all_timing. rank_commands. Qed.

Lemma ranking_put_frame sent e c :
  Envelope.kind e <> COMMAND_RESULT -> ranking (put_frame mac sent e) c.
Proof.
  intros Hk. unfold put_frame. apply ranking_get_bind, ranking_lift_bind. intros a _.
  apply ranking_bind; [|intros; rank_commands]. apply rank_step_same; [done|done|]. by repeat constructor.
Qed.

Lemma ranking_env_bind {A} kind payload (f : Envelope.t -> M A) c :
  (forall e c', Envelope.kind e = kind -> ranking (f e) c') -> ranking (env kind payload ≫= f) c.
Proof.
  intros Hf. unfold ranking, env, mbind, M_bind, modify, get, mret, M_ret.
  match goal with |- context [f ?e ?c1] => specialize (Hf e c1 eq_refl); unfold ranking in Hf;
    destruct (f e c1) as [[c2 out] r] end.
  rewrite <- (app_nil_l (_ ++ out)). eapply rank_step_trans; [|exact Hf]. by apply rank_step_same.
Qed.

Lemma ranking_register instance cleaned opened sent input c :
  ranking (connect_and_register mac instance cleaned opened sent input) c.
Proof.
  unfold connect_and_register. apply ranking_get_bind. do 3 (apply ranking_bind; [rank_commands|intros [] ?]).
  apply ranking_env_bind. intros e c1 Hk. apply ranking_bind; [apply ranking_put_frame; by rewrite Hk|].
  intros [] c2. destruct input; rank_commands. apply ranking_accept.
Qed.

Lemma ranking_snapshot sent obs recs id n c : ranking (send_snapshot mac sha256 sent obs recs id n) c.
Proof. unfold send_snapshot. rank_commands. apply ranking_write_chunks. Qed.

Lemma ranking_await_snapshot sent id input c : ranking (await_snapshot_accepted mac sent id input) c.
Proof.
  unfold await_snapshot_accepted. rank_commands; [apply ranking_receive|apply ranking_result].
Qed.

Lemma ranking_heartbeat c : ranking next_heartbeat c.
Proof. unfold next_heartbeat. rank_commands. Qed.

Lemma ranking_close expected sent closed c : ranking (close mac expected sent closed) c.
Proof.
  unfold ranking, close. destruct (has_writer c); [|by apply rank_step_same].
  assert (let '(c1, out, _) := (if expected then write mac sent GOODBYE [("payload_version", VInt 1)] c
    else (c, [], Ok tt)) in rank_step c out c1) as Hw.
  { destruct expected; [by apply ranking_write|by apply rank_step_same]. }
  destruct (if expected then _ else _) as [[c1 out] r].
  assert (rank_step c out (set_connection false false c1)) as Hw2.
  { rewrite <- (app_nil_r out). eapply rank_step_trans; [exact Hw|by apply rank_step_same]. }
  destruct r as [[]|[m| |x]]; try done; [by destruct closed|by destruct (is_contract_error x)].
Qed.

Lemma outcome_ranking {A} (m : M A) c :
  ranking m c -> rank_step c (outcome (m c)).2 (outcome (m c)).1.
Proof. unfold ranking. by destruct (m c) as [[c' out] r]. Qed.

Lemma operate_step o c : rank_step c (operate o c).2 (operate o c).1.
Proof.
  destruct o; cbn [operate]; apply outcome_ranking.
  - apply ranking_register.
  - by apply ranking_write.
  - by apply ranking_write.
  - apply ranking_snapshot.
  - apply ranking_receive.
  - apply ranking_result.
  - apply ranking_replay.
  - apply ranking_await_snapshot.
  - unfold send_heartbeat. rank_commands; [apply ranking_heartbeat|by apply ranking_write].
  - unfold heartbeat_round_trip. rank_commands; [apply ranking_heartbeat|by apply ranking_write|].
    apply ranking_await_heartbeat.
  - apply ranking_close.
Qed.

Lemma operate_all_step ops c : rank_step c (operate_all ops c).2 (operate_all ops c).1.
Proof.
  revert c. induction ops as [|o ops IH]; intros c; [by apply rank_step_same|]. cbn [operate_all].
  pose proof (operate_step o c) as H1. destruct (operate o c) as [c1 out1]. specialize (IH c1).
  destruct (operate_all ops c1) as [c2 out2]. by eapply rank_step_trans.
Qed.

(** A result is determined by the command it answers and by the outcome it reports. *)
Lemma result_determined c id r r' :
  result_of c id r -> result_of c id r' ->
  (forall k, k ∈ ["ok"; "detail"; "status"] -> attr k r' = attr k r) -> same_fields r r'.
Proof.
  intros (request & op & Hreq & Hop & Hop1 & Hid1 & Hv1 & [Hf1 _] & Hs1)
         (request' & op' & Hreq' & Hop' & Hop2 & Hid2 & Hv2 & [Hf2 _] & Hs2) Hout.
  replace request' with request in * by congruence. replace op' with op in * by congruence.
  assert (forall k, attr k r' = attr k r -> dget k r' = dget k r) as Hattr.
  { intros k. unfold attr, dget_default. pose proof (Hf1 k) as Hk1. pose proof (Hf2 k) as Hk2.
    destruct (dget k r) as [v|], (dget k r') as [v'|]; cbn; try congruence.
    - intros _. exfalso. by destruct (proj2 Hk2 (proj1 Hk1 ltac:(eauto))).
    - intros _. exfalso. by destruct (proj2 Hk1 (proj1 Hk2 ltac:(eauto))). }
  intros k. destruct (decide (k ∈ result_fields op)) as [Hk|Hk].
  - apply Hattr. unfold result_fields in Hk. apply elem_of_app in Hk as [Hk|Hk].
    + unfold RESULT_FIELDS in Hk. rewrite !elem_of_cons, elem_of_nil in Hk.
      destruct Hk as [-> |[-> |[-> |[-> |[-> |[-> |[]]]]]]]; try congruence; apply Hout; set_solver.
    + case_bool_decide; [|by apply elem_of_nil in Hk]. rewrite <- Hs1, <- Hs2 by done. done.
  - assert (forall d : dict, (is_Some (dget k d) <-> k ∈ result_fields op) -> dget k d = None) as Hn
      by (intros d Hd; apply eq_None_not_Some; tauto).
    by rewrite (Hn r (Hf1 k)), (Hn r' (Hf2 k)).
Qed.

(** A call that returns has cached the result it wrote. *)
Lemma result_cached sent id ok detail op status extra c c' out :
  send_command_result mac sent id ok detail op status extra c = (c', out, Ok tt) ->
  exists e, out = [e] /\ is_result e /\ command_results c' !! id = Some (Envelope.payload e).
Proof.
  unfold send_command_result. intros Hs.
  do 4 (apply chan_bind_Ok in Hs as (? & ? & [] & ? & (_ & -> & ->)%chan_refuse & Hs & ->)).
  apply chan_bind_Ok in Hs as (? & ? & ? & ? & [= <- <- <-] & Hs & ->). cbv zeta in Hs.
  destruct (received_commands c !! id) as [request|]; [|done].
  do 2 (apply chan_bind_Ok in Hs as (? & ? & [] & ? & (_ & -> & ->)%chan_refuse & Hs & ->)).
  apply chan_bind_Ok in Hs as (? & ? & r & ? & (_ & -> & ->)%chan_lift & Hs & ->).
  apply chan_bind_Ok in Hs as (c1 & o1 & [] & o2 & Hprior & Hs & ->).
  assert (c1 = c /\ o1 = []) as [-> ->].
  { by destruct (command_results c !! id); apply chan_refuse in Hprior as (_ & -> & ->). }
  apply chan_bind_Ok in Hs as (c2 & o3 & [] & o4 & Hw & [= <- <-] & ->).
  pose proof (write_spec sent COMMAND_RESULT r c) as Hspec. rewrite Hw in Hspec.
  destruct Hspec as (_ & _ & Hok & [-> |(e & -> & Hk & Hp)]); [by destruct (Hok eq_refl)|].
  exists e. split_and!; [done|done|]. cbn. by rewrite lookup_insert_eq, Hp.
Qed.

(** C32: One command, one answer. Whatever the rank does, however often commands are
    redelivered and connections lost, and whether or not the drain after a write raises
    (the frame may then have left all the same): every result it hands to the transport
    answers a command it received (it names that command's operation and, for a snapshot
    acknowledgment, its snapshot id and hash), and two results for one command that
    report the same outcome (ok, detail and status) have the same fields. A call that
    returns writes one result and caches it; a cached result was written, and from then
    on every result for that command has its fields, whatever outcome is asked for. Only
    a result whose drain raised is not cached, and may be followed by another outcome. *)
Theorem rank_answers_once (c : t) (ops1 ops2 : list operation) :
  command_results c = ∅ ->
  let '(c1, out1) := operate_all ops1 c in
  let '(c2, out2) := operate_all ops2 c1 in
  (forall e, e ∈ out1 ++ out2 -> is_result e ->
     exists id, attr "command_id" (Envelope.payload e) = VStr id /\ result_of c2 id (Envelope.payload e)) /\
  (forall e e' id, e ∈ out1 ++ out2 -> e' ∈ out1 ++ out2 -> is_result e -> is_result e' ->
     attr "command_id" (Envelope.payload e) = VStr id -> attr "command_id" (Envelope.payload e') = VStr id ->
     (forall k, k ∈ ["ok"; "detail"; "status"] -> attr k (Envelope.payload e') = attr k (Envelope.payload e)) ->
     forall k, dget k (Envelope.payload e') = dget k (Envelope.payload e)) /\
  (forall sent id ok detail op status extra c' out,
     send_command_result mac sent id ok detail op status extra c1 = (c', out, Ok tt) ->
     exists e, out = [e] /\ is_result e /\ command_results c' !! id = Some (Envelope.payload e)) /\
  forall id r, command_results c1 !! id = Some r ->
    (exists e, e ∈ out1 /\ is_result e /\ same_fields r (Envelope.payload e)) /\
    forall e, e ∈ out2 -> is_result e -> attr "command_id" (Envelope.payload e) = VStr id ->
      forall k, dget k (Envelope.payload e) = dget k r.
Proof.
  intros Hempty. pose proof (operate_all_step ops1 c) as H1. destruct (operate_all ops1 c) as [c1 out1].
  pose proof (operate_all_step ops2 c1) as H2. destruct (operate_all ops2 c1) as [c2 out2].
  assert (cache_ok c) as Hc by (intros id r; by rewrite Hempty).
  destruct (rank_step_trans _ _ _ _ _ H1 H2 Hc) as (_ & _ & _ & _ & Hall).
  destruct (H1 Hc) as (Hc1 & _ & _ & W1 & _). destruct (H2 Hc1) as (_ & _ & _ & _ & O2).
  rewrite Forall_forall in Hall, O2. split_and!.
  - intros e He Hk. destruct (Hall e He Hk) as (id & Hid & Hr & _). by exists id.
  - intros e e' id He He' Hk Hk' Hid Hid' Hout.
    destruct (Hall e He Hk) as (id1 & Hid1 & Hr1 & _). destruct (Hall e' He' Hk') as (id2 & Hid2 & Hr2 & _).
    replace id2 with id1 in * by congruence. by apply (result_determined c2 id1).
  - intros * Hs. by eapply result_cached.
  - intros id r Hr. split.
    + destruct (W1 id r Hr) as [[? Hr0]|?]; [by rewrite Hempty in Hr0|done].
    + intros e He Hk Hid. destruct (O2 e He Hk) as (id' & Hid' & _ & Hs).
      replace id' with id in * by congruence. by apply Hs.
Qed.
End rank.
End RankCommands.

Module ExampleRank.
Import NodeChannel RankCommands.

Definition channel : t :=
  mk (replicate 32 "k"%char) "dep" "hash" 0 1 "node1" true true 0 0 MAX_MESSAGE_BYTES 256 65536 4096
    [] ∅ [] ∅ ∅ 0.

Definition command : dict :=
  [("payload_version", VInt 1); ("command_id", VStr "start:1"); ("operation", VStr "START")].

Definition delivery (seq : Z) : operation :=
  OpReceive (InEnvelope (Envelope.mk COMMAND "dep" "hash" 0 SUPERVISOR_RANK "head" seq command)).

(** The command arrives; the connection breaks while the first answer is drained, and the
    command is redelivered and answered. *)
Definition before : list operation :=
  [delivery 1; OpResult false "start:1" true "" "START" None [];
   delivery 2; OpResult true "start:1" true "" "START" None []].

(** Another outcome is refused, and a third delivery is answered from the cache. *)
Definition after : list operation :=
  [OpResult true "start:1" false "changed its mind" "START" None [];
   delivery 3; OpReplay true command].
End ExampleRank.

(** A result whose drain raised can be followed by another outcome. *)
Example undrained_result_can_change :
  map (fun e => attr "ok" (Envelope.payload e))
    (RankCommands.operate_all (H := DecimalFloat.ops) example_mac ExampleRun.sha
       [ExampleRank.delivery 1; RankCommands.OpResult false "start:1" true "" "START" None [];
        RankCommands.OpResult true "start:1" false "broken pipe" "START" None []] ExampleRank.channel).2 =
  [VBool true; VBool false].
Proof. vm_compute. reflexivity. Qed.

Lemma rank_answers_once_witness :
  let '(c1, out1) := RankCommands.operate_all (H := DecimalFloat.ops) example_mac ExampleRun.sha
                       ExampleRank.before ExampleRank.channel in
  let '(c2, out2) := RankCommands.operate_all (H := DecimalFloat.ops) example_mac ExampleRun.sha
                       ExampleRank.after c1 in
  length out1 = 2%nat /\ length out2 = 1%nat /\
  forall id r, NodeChannel.command_results c1 !! id = Some r ->
    (exists e, e ∈ out1 /\ RankCommands.is_result e /\ same_fields r (Envelope.payload e)) /\
    forall e, e ∈ out2 -> RankCommands.is_result e -> attr "command_id" (Envelope.payload e) = VStr id ->
      forall k, dget k (Envelope.payload e) = dget k r.
Proof.
  pose proof (RankCommands.rank_answers_once (H := DecimalFloat.ops) example_mac ExampleRun.sha
    ExampleRank.channel ExampleRank.before ExampleRank.after eq_refl) as Hr.
  assert (length (RankCommands.operate_all (H := DecimalFloat.ops) example_mac ExampleRun.sha
    ExampleRank.before ExampleRank.channel).2 = 2%nat) as Hl1 by (vm_compute; reflexivity).
  assert (length (RankCommands.operate_all (H := DecimalFloat.ops) example_mac ExampleRun.sha
    ExampleRank.after (RankCommands.operate_all (H := DecimalFloat.ops) example_mac ExampleRun.sha
    ExampleRank.before ExampleRank.channel).1).2 = 1%nat) as Hl2 by (vm_compute; reflexivity).
  destruct (RankCommands.operate_all example_mac ExampleRun.sha ExampleRank.before ExampleRank.channel)
    as [c1 out1]. cbn [fst] in Hl2.
  destruct (RankCommands.operate_all example_mac ExampleRun.sha ExampleRank.after c1) as [c2 out2].
  destruct Hr as (_ & _ & _ & Hcached). split; [exact Hl1|]. split; [exact Hl2|exact Hcached].
Defined.
