(* ===== verification/TransferProps.v ===== *)
(** A snapshot crosses the channel: the chunks that a rank's [send_snapshot] cuts, as
    they arrive after the wire's canonical encoding, assemble on the head to the items
    that were sent, in whatever order the chunks arrive; with the exact byte bound the
    head applies, which is not the one the rank applies. *)

From S2P Require Import Prelude PyValue Json JsonProps Envelopes EnvelopesProps Frames Contracts Snapshots SnapshotsProps NodeChannel Listener ListenerProps DeliveryProps CommandProps.

(** ** Items before and after the wire *)

(** The item the head rebuilds from a received body. *)
Definition received (item : value) : value :=
  match NodeChannel.item_kind item with
  | VStr kind => snapshot_item kind (canon (NodeChannel.item_body item))
  | _ => item
  end.

Section items.
  Context `{FloatText} (sha256 : text -> string).

(** An item in normal form, with its key, and with a body as Python builds it. *)
Definition normal_item (item : value) (k : list string) : Prop :=
  (exists t, snapshot_entry item = Ok (k, (t, item))) /\ distinct_keys (NodeChannel.item_body item) = true.

Lemma normal_item_shape item k :
  normal_item item k ->
  exists kind body, item = snapshot_item kind (VDict body) /\ kind ∈ ["observation"; "receipt"] /\
    NoDup (dkeys body) /\ encodable (VDict body) = true.
Proof.
  intros [[t He] Hd]. unfold snapshot_entry in He. destruct item as [| | | | | |d]; try done.
  apply bind_Ok in He as (_ & _ & He). apply bind_Ok in He as (known & Hk & He).
  destruct known; [|done]. destruct (attr "kind" d) as [| | | |kind| |]; try done.
  destruct (attr "body" d) as [| | | | | |body]; try done.
  apply bind_Ok in He as (parts & _ & He).
  destruct (dumps (snapshot_item kind (VDict body))) as [t'|] eqn:Hdu; [|done].
  assert (VDict d = snapshot_item kind (VDict body)) as Hitem by congruence.
  exists kind, body. split_and!; [done| | |].
  - cbn in Hk. injection Hk as Hk. by apply bool_decide_eq_true in Hk.
  - rewrite Hitem in Hd. cbn in Hd. apply andb_prop in Hd as [Hd _]. by apply bool_decide_eq_true in Hd.
  - apply dumps_Ok in Hdu as [Henc _]. cbn in Henc. by rewrite andb_true_r in Henc.
Qed.

Lemma key_parts_canon fields body :
  NoDup (dkeys body) -> key_parts fields (canon_dict body) = key_parts fields body.
Proof.
  intros Hn. unfold key_parts. induction fields as [|f fields IH]; [done|]. cbn [mapM].
  rewrite IH. f_equal. unfold attr, dget_default. rewrite dget_canon_dict by done.
  by destruct (dget f body) as [[]|].
Qed.

Lemma snapshot_entry_item kind body :
  kind ∈ ["observation"; "receipt"] ->
  snapshot_entry (snapshot_item kind (VDict body)) =
    (parts ← need
       (key_parts
          (if bool_decide (kind = "observation") then ["component_id"; "instance_id"]
           else ["receipt_requirement_id"; "component_id"; "instance_id"]) body)
       ("snapshot " +:+ kind +:+ " key is incomplete");
     match dumps (snapshot_item kind (VDict body)) with
     | Ok encoded => Ok (kind :: parts, (encoded, snapshot_item kind (VDict body)))
     | Err _ => Err (ContractError "snapshot item is not canonical JSON")
     end).
Proof.
  intros Hk. unfold snapshot_entry, snapshot_item.
  change (fields_are ["kind"; "body"] [("kind", VStr kind); ("body", VDict body)]) with true.
  change (attr "kind" [("kind", VStr kind); ("body", VDict body)]) with (VStr kind).
  change (attr "body" [("kind", VStr kind); ("body", VDict body)]) with (VDict body).
  cbn [negb raise_if mbind result_bind in_string_set]. by rewrite bool_decide_true.
Qed.

Lemma canon_received kind v : canon (snapshot_item kind (canon v)) = canon (snapshot_item kind v).
Proof. unfold snapshot_item. cbn [canon map fst snd]. by rewrite canon_idem. Qed.

Lemma dumps_received kind v : dumps (snapshot_item kind (canon v)) = dumps (snapshot_item kind v).
Proof.
  rewrite <- dumps_canon_same, <- (dumps_canon_same (snapshot_item kind v)).
  f_equal. apply canon_received.
Qed.

Lemma received_item kind body :
  received (snapshot_item kind (VDict body)) = snapshot_item kind (VDict (canon_dict body)).
Proof. done. Qed.

(** The rebuilt item has the same key and the same canonical text. *)
Lemma received_entry item k t :
  normal_item item k -> snapshot_entry item = Ok (k, (t, item)) ->
  snapshot_entry (received item) = Ok (k, (t, received item)).
Proof.
  intros Hn He. destruct (normal_item_shape _ _ Hn) as (kind & body & -> & Hkind & Hnd & _).
  rewrite received_item, snapshot_entry_item in * by done. rewrite key_parts_canon by done.
  change (VDict (canon_dict body)) with (canon (VDict body)). rewrite dumps_received.
  destruct (need _ _) as [parts|]; [|done]. cbn [mbind result_bind] in *.
  destruct (dumps _) as [t'|]; [|done]. simplify_eq. done.
Qed.

Lemma dumps_received_item item k : normal_item item k -> dumps (received item) = dumps item.
Proof.
  intros (kind & body & -> & _)%normal_item_shape. rewrite received_item.
  apply (dumps_received kind (VDict body)).
Qed.

Definition normal_items (items : list value) (keys : list (list string)) : Prop :=
  Forall2 normal_item items keys /\ StronglySorted snap_key_le keys /\ NoDup keys.

Lemma normal_items_received items keys : normal_items items keys -> normal (map received items) keys.
Proof.
  intros (Hf & Hs & Hn). split; [|done]. clear Hs Hn. induction Hf as [|item k items keys Hi Hf IH];
    cbn; constructor; [|done]. pose proof Hi as [[t He] _]. exists t. by apply received_entry.
Qed.

(** The canonical form does not depend on the order in which items are found. *)
Lemma canonical_of_permutation items items' keys :
  normal items keys -> items' ≡ₚ items -> canonical_snapshot_items items' = Ok items.
Proof.
  intros Hnorm Hp. pose proof Hnorm as (Hf & Hs & Hn).
  destruct (Permutation_Forall2 (symmetry Hp) Hf) as (keys' & Hk' & Hf').
  unfold canonical_snapshot_items.
  destruct (add_entries_normal items' keys' ∅ Hf') as (m & -> & Hout & Hin).
  { by rewrite <- Hk'. }
  { apply Forall_forall. intros k _. apply lookup_empty. }
  cbn [mbind result_bind]. f_equal.
  assert (sorted_keys m = keys) as ->.
  { apply sorted_keys_unique; [done..|]. intros k. rewrite Hk'. split.
    - intros Hk. destruct (Forall2_elem_of_r _ _ _ _ Hin Hk) as (x & _ & Hx).
      destruct (m !! k); [by eexists|done].
    - intros [x Hx]. destruct (decide (k ∈ keys')) as [|Hk]; [done|].
      rewrite Hout in Hx by done. by rewrite lookup_empty in Hx. }
  assert (forall item k t, item ∈ items -> snapshot_entry item = Ok (k, (t, item)) ->
    snd <$> m !! k = Some item) as Hget.
  { intros item k t Hi He. rewrite <- Hp in Hi. apply list_elem_of_lookup in Hi as [j Hj].
    rewrite Forall2_lookup in Hf', Hin. specialize (Hf' j). specialize (Hin j). rewrite Hj in Hf', Hin.
    destruct (keys' !! j) as [k'|] eqn:Ek; inv Hf' as [? ? [t' He'] |]. inv Hin.
    rewrite He in He'. by simplify_eq. }
  clear -Hf Hget. induction Hf as [|item k items keys [t He] Hf IH]; [done|]. cbn.
  rewrite (Hget item k t) by (done || left). f_equal. apply IH. intros ? ? ? Hi. apply Hget. by right.
Qed.

Lemma dumps_received_list items keys :
  Forall2 normal_item items keys -> dumps (VList (map received items)) = dumps (VList items) /\
  exists b, dumps (VList items) = Ok b.
Proof.
  intros Hf. assert (forallb encodable items = true /\ forallb encodable (map received items) = true /\
    map print (map received items) = map print items) as (E1 & E2 & E3).
  { induction Hf as [|item k items keys Hi Hf (IH1 & IH2 & IH3)]; [done|]. cbn [map forallb].
    pose proof (dumps_received_item _ _ Hi) as Hd. destruct Hi as [[t He] _].
    apply snapshot_entry_text in He. rewrite He in Hd. apply dumps_Ok in He as [He ->].
    apply dumps_Ok in Hd as [Hd ->]. by rewrite IH1, IH2, IH3, He, Hd. }
  unfold dumps. cbn [encodable print]. rewrite E1, E2, E3. eauto.
Qed.

Lemma received_hash items keys :
  normal_items items keys ->
  snapshot_set_hash sha256 (map received items) = snapshot_set_hash sha256 items.
Proof.
  intros Hn. pose proof (normal_items_received _ _ Hn) as Hr. destruct Hn as (Hf & Hs & Hnd).
  unfold snapshot_set_hash. rewrite (canonical_of_normal _ _ Hr).
  rewrite (canonical_of_normal items keys); [|split; [|done]; eapply Forall2_impl; [exact Hf|]; by intros ? ? []].
  cbn [mbind result_bind]. by rewrite (proj1 (dumps_received_list _ _ Hf)).
Qed.

(** ** The chunk that arrives *)

Definition arrives (payload : dict) : dict := canon_dict payload.

Definition rebuilt (chunk : list value) : list value :=
  map (snapshot_item "observation") (map canon (NodeChannel.bodies "observation" chunk)) ++
  map (snapshot_item "receipt") (map canon (NodeChannel.bodies "receipt" chunk)).

Lemma rebuilt_permutation chunk :
  Forall (fun item => exists k, normal_item item k) chunk -> rebuilt chunk ≡ₚ map received chunk.
Proof.
  induction 1 as [|item chunk [k Hi] Hf IH]; [done|].
  destruct (normal_item_shape _ _ Hi) as (kind & body & -> & Hk & _).
  apply elem_of_cons in Hk as [->|[->|Hk%elem_of_nil]%elem_of_cons]; [..|done].
  - cbn. by rewrite <- IH.
  - cbn [map]. rewrite <- IH. unfold rebuilt. cbn. symmetry. apply Permutation_middle.
Qed.

Lemma attr_arrives k payload :
  NoDup (dkeys payload) -> attr k (arrives payload) = canon (attr k payload).
Proof.
  intros Hn. unfold attr, dget_default, arrives. rewrite dget_canon_dict by done. by destruct (dget k payload).
Qed.

Lemma fields_arrive fields payload :
  fields_are fields (arrives payload) = fields_are fields payload.
Proof.
  apply eq_iff_eq_true. unfold fields_are, same_keys, arrives.
  rewrite !andb_true_iff, !forallb_forall. setoid_rewrite <- list_elem_of_In.
  setoid_rewrite bool_decide_eq_true. by setoid_rewrite dkeys_canon_dict.
Qed.

(** ** Sizes *)

(** The printed items, each with the separator that follows it. *)
Definition weight (l : list value) : nat := sum_list_with (fun v => S (length (print v))) l.

Lemma print_list_length l :
  length (print (VList l)) = match l with [] => 2 | _ => S (weight l) end%nat.
Proof.
  cbn [print length]. rewrite length_app. cbn [length].
  assert (forall v l, S (length (join (map print (v :: l)))) = weight (v :: l)) as Hj.
  { clear. intros v l. revert v. induction l as [|w l IH]; intros v; [cbn; lia|].
    change (map print (v :: w :: l)) with (print v :: map print (w :: l)). rewrite join_cons.
    cbn [map]. rewrite length_app. cbn [length]. unfold weight in *. cbn [sum_list_with] in *.
    rewrite <- IH. cbn [map]. lia. }
  destruct l as [|v l]; [done|]. rewrite <- Hj. lia.
Qed.

Lemma weight_app a b : weight (a ++ b) = (weight a + weight b)%nat.
Proof. apply sum_list_with_app. Qed.

Lemma weight_perm a b : a ≡ₚ b -> weight a = weight b.
Proof. unfold weight. induction 1; cbn; lia. Qed.

Lemma weight_received items keys : Forall2 normal_item items keys -> weight (map received items) = weight items.
Proof.
  unfold weight. induction 1 as [|item k items keys Hi Hf IH]; [done|]. cbn. rewrite IH.
  pose proof (dumps_received_item _ _ Hi) as Hd. destruct Hi as [[t He] _]. apply snapshot_entry_text in He.
  rewrite He in Hd. apply dumps_Ok in He as [_ ->]. apply dumps_Ok in Hd as [_ ->]. done.
Qed.
End items.

(** ** The chunks of one snapshot *)

Section transfer.
  Context `{FloatText} (sha256 : text -> string).
  Context (limits : ControlLimits.t) (sid h : string) (items : list value) (keys : list (list string)).
  Context (chunks : list (list value)) (t0 : float).
  Context (Hitems : normal_items items keys) (Hchunks : concat chunks = items).

Definition chunk (i : nat) : list value := default [] (chunks !! i).

Definition arriving (i : nat) : dict :=
  arrives (NodeChannel.chunk_payload sid h (Z.of_nat (length chunks)) (Z.of_nat i) (chunk i)).

Definition chunk_map (done : list nat) : gmap Z (list value) :=
  list_to_map ((fun i => (Z.of_nat i, rebuilt (chunk i))) <$> done).

Definition bytes_of (done : list nat) : Z :=
  foldr (fun i n => n + Z.of_nat (length (print (VList (rebuilt (chunk i)))))) 0 done.

Definition assembly_of (done : list nat) : assembly :=
  Assembly sid (Z.of_nat (length chunks)) h (chunk_map done) (bytes_of done) t0.

Lemma chunk_normal i : Forall (fun item => exists k, normal_item item k) (chunk i).
Proof.
  destruct Hitems as [Hf _]. unfold chunk. destruct (chunks !! i) as [c|] eqn:Hc; [|constructor].
  apply list_elem_of_lookup_2 in Hc. apply Forall_forall. intros item Hi.
  assert (item ∈ items) as Hin. { rewrite <- Hchunks. apply list_elem_of_In, in_concat. exists c.
    split; by apply list_elem_of_In. }
  apply list_elem_of_lookup in Hin as [j Hj]. rewrite Forall2_lookup in Hf. specialize (Hf j).
  rewrite Hj in Hf. inv Hf. eauto.
Qed.

Lemma chunk_map_fresh i done : i ∉ done -> chunk_map done !! Z.of_nat i = None.
Proof.
  intros Hi. apply not_elem_of_list_to_map_1. rewrite <- list_fmap_compose. intros (j & Hj & Hin)%list_elem_of_fmap.
  cbn in Hj. apply Nat2Z.inj in Hj as ->. done.
Qed.

Lemma chunk_map_cons i done :
  chunk_map (i :: done) = <[Z.of_nat i := rebuilt (chunk i)]> (chunk_map done).
Proof. done. Qed.

Lemma chunk_map_size done : NoDup done -> size (chunk_map done) = length done.
Proof.
  induction 1 as [|i done Hi Hn IH]; [apply map_size_empty|].
  rewrite chunk_map_cons, map_size_insert_None by (by apply chunk_map_fresh). cbn. by rewrite IH.
Qed.

Lemma chunk_map_count done :
  NoDup done -> count_chunk_items (chunk_map done) = Z.of_nat (sum_list_with (fun i => length (chunk i)) done).
Proof.
  unfold count_chunk_items. induction 1 as [|i done Hi Hn IH]; [apply map_fold_empty|].
  rewrite chunk_map_cons, map_fold_insert_L; [|intros; lia|by apply chunk_map_fresh].
  rewrite IH. cbn. rewrite (rebuilt_permutation _ (chunk_normal i)), length_map. lia.
Qed.

Definition indices : list nat := seq 0 (length chunks).

Lemma chunks_by_index {A} (f : list value -> A) : (fun i => f (chunk i)) <$> indices = f <$> chunks.
Proof.
  apply list_eq. intros j. unfold indices. rewrite !list_lookup_fmap.
  destruct (decide (j < length chunks)%nat) as [Hj|Hj].
  - rewrite lookup_seq_lt by done. cbn. unfold chunk. by destruct (lookup_lt_is_Some_2 _ _ Hj) as [c ->].
  - rewrite lookup_seq_ge, (lookup_ge_None_2 chunks) by lia. done.
Qed.

Lemma all_items : indices ≫= (fun i => rebuilt (chunk i)) ≡ₚ map received items.
Proof.
  transitivity (concat ((fun i => rebuilt (chunk i)) <$> indices)).
  { rewrite <- flat_map_concat_map. done. }
  rewrite (chunks_by_index rebuilt), <- Hchunks.
  assert (Forall (Forall (fun item => exists k, normal_item item k)) chunks) as Hall.
  { apply Forall_lookup. intros i c Hc. pose proof (chunk_normal i) as Hi. unfold chunk in Hi. by rewrite Hc in Hi. }
  clear -Hall. induction Hall as [|c cs Hc Hall IH]; [done|]. cbn. rewrite map_app, <- IH.
  by rewrite (rebuilt_permutation c Hc).
Qed.

Lemma assembled_items done : done ≡ₚ indices -> chunk_items (chunk_map done) ≡ₚ map received items.
Proof.
  intros Hp. assert (NoDup done) as Hnd by (rewrite Hp; apply NoDup_seq).
  rewrite <- all_items. unfold chunk_items. rewrite sortedZ_perm.
  assert ((map_to_list (chunk_map done)).*1 ≡ₚ Z.of_nat <$> done) as ->.
  { unfold chunk_map. rewrite map_to_list_to_map.
    - by rewrite <- list_fmap_compose.
    - rewrite <- list_fmap_compose. apply NoDup_fmap_2; [intros ? ?; apply Nat2Z.inj|done]. }
  rewrite <- Hp, list_fmap_bind.
  assert (done ≫= (fun i => default [] (chunk_map done !! i)) ∘ Z.of_nat = done ≫= (fun i => rebuilt (chunk i)))
    as ->; [|done].
  apply Forall_bind_ext, Forall_forall. intros i Hi. cbn. unfold chunk_map.
  erewrite elem_of_list_to_map_1; [done|..].
  - rewrite <- list_fmap_compose. apply NoDup_fmap_2; [intros ? ?; apply Nat2Z.inj|done].
  - apply list_elem_of_fmap. by exists i.
Qed.

(** ** Bounds *)

Lemma bytes_of_app a b : bytes_of (a ++ b) = bytes_of a + bytes_of b.
Proof. induction a as [|i a IH]; cbn -[print]; [done|]. unfold bytes_of in *. rewrite IH. lia. Qed.

Lemma bytes_of_nonneg a : 0 <= bytes_of a.
Proof. induction a as [|i a IH]; cbn -[print]; unfold bytes_of in *; lia. Qed.

Lemma bytes_of_perm a b : a ≡ₚ b -> bytes_of a = bytes_of b.
Proof. unfold bytes_of. induction 1; cbn -[print]; lia. Qed.

Lemma count_le done rest :
  done ++ rest ≡ₚ indices -> (sum_list_with (fun i => length (chunk i)) done <= length items)%nat.
Proof.
  intros Hp. assert (sum_list_with (fun i => length (chunk i)) (done ++ rest) = length items) as Hs.
  { assert (forall l, sum_list_with (fun i => length (chunk i)) l = sum_list ((fun i => length (chunk i)) <$> l))
      as Hsum by (intros l; induction l as [|i l IH]; cbn; [done|by rewrite <- IH]).
    rewrite Hsum, (fmap_Permutation _ _ _ Hp), (chunks_by_index length), <- Hchunks.
    clear. induction chunks as [|c cs IH]; [done|]. cbn. rewrite length_app. by f_equal. }
  rewrite sum_list_with_app in Hs. lia.
Qed.

(** ** One chunk arrives *)

Context (Hsid : nonempty sid = true) (Hsha : is_sha256 h = true)
        (Hhash : snapshot_set_hash sha256 items = Ok h)
        (Hcount : Z.of_nat (length chunks) <= ControlLimits.max_snapshot_chunks limits)
        (Hmany : Z.of_nat (length items) <= ControlLimits.max_snapshot_items limits)
        (Hbytes : bytes_of indices <= ControlLimits.max_snapshot_bytes limits).

Definition in_time (now : float) : bool :=
  negb (Float.gtb (Float.sub now t0) (ControlLimits.snapshot_assembly_deadline_s limits)).

Lemma rebuilt_dumps i : dumps (VList (rebuilt (chunk i))) = Ok (print (VList (rebuilt (chunk i)))).
Proof.
  apply dumps_Ok. split; [|done]. cbn [encodable]. apply forallb_forall. intros v Hv%list_elem_of_In.
  rewrite (rebuilt_permutation _ (chunk_normal i)) in Hv.
  apply list_elem_of_In, in_map_iff in Hv as (item & <- & Hin%list_elem_of_In).
  pose proof (chunk_normal i) as Hn. rewrite Forall_forall in Hn. destruct (Hn item Hin) as [k Hk].
  pose proof (dumps_received_item _ _ Hk) as Hd. destruct Hk as [[t He] _]. apply snapshot_entry_text in He.
  rewrite He in Hd. by apply dumps_Ok in Hd as [Hd _].
Qed.

Lemma finish_all done :
  done ≡ₚ indices -> finish_assembly sha256 (assembly_of done) = Complete (map received items).
Proof.
  intros Hp. unfold finish_assembly. cbn [a_chunks assembly_of a_hash].
  rewrite (canonical_of_permutation (map received items) _ keys);
    [|by apply normal_items_received|by apply assembled_items].
  rewrite (received_hash sha256 _ _ Hitems), Hhash. by rewrite bool_decide_true.
Qed.

Lemma add_chunk_arriving i done rest :
  i ∉ done -> NoDup done -> i :: done ++ rest ≡ₚ indices ->
  add_chunk sha256 limits (assembly_of done) (Z.of_nat i)
    (VList (map canon (NodeChannel.bodies "observation" (chunk i))))
    (VList (map canon (NodeChannel.bodies "receipt" (chunk i)))) =
  match rest with
  | [] => (None, Complete (map received items))
  | _ => (Some (assembly_of (i :: done)), MoreChunks)
  end.
Proof.
  intros Hi Hnd Hp. unfold add_chunk. cbn [body_items]. fold (rebuilt (chunk i)).
  rewrite rebuilt_dumps. cbn [a_chunks assembly_of a_bytes a_snapshot_id a_total a_hash a_started_at].
  rewrite chunk_map_fresh, bool_decide_true by done. cbn [andb].
  change (bytes_of done + Z.of_nat (length (print (VList (rebuilt (chunk i)))))) with (bytes_of (i :: done)).
  assert ((ControlLimits.max_snapshot_bytes limits <? bytes_of (i :: done)) = false) as ->.
  { apply Z.ltb_ge. rewrite <- (bytes_of_perm _ _ Hp) in Hbytes.
    change (i :: done ++ rest) with ((i :: done) ++ rest) in Hbytes. rewrite bytes_of_app in Hbytes.
    pose proof (bytes_of_nonneg rest). lia. }
  rewrite <- chunk_map_cons, chunk_map_count by (by constructor).
  assert ((ControlLimits.max_snapshot_items limits <?
    Z.of_nat (sum_list_with (fun i => length (chunk i)) (i :: done))) = false) as ->.
  { apply Z.ltb_ge. pose proof (count_le (i :: done) rest Hp). lia. }
  rewrite chunk_map_size by (by constructor).
  assert (length (i :: done ++ rest) = length chunks) as Hlen by (rewrite Hp; apply length_seq).
  cbn [length] in Hlen |- *. rewrite length_app in Hlen. fold (assembly_of (i :: done)).
  destruct rest as [|j rest]; cbn [length] in Hlen.
  - rewrite (proj2 (Z.ltb_ge _ _)) by lia. rewrite finish_all; [done|]. by rewrite app_nil_r in Hp.
  - by rewrite (proj2 (Z.ltb_lt _ _)) by lia.
Qed.

(** The assembly in flight after [done]. *)
Definition buffer_of (done : list nat) : option assembly :=
  match done with [] => None | _ => Some (assembly_of done) end.

Lemma assemble_arriving now i done rest :
  (done = [] -> now = t0) -> in_time now = true ->
  i ∉ done -> NoDup done -> i :: done ++ rest ≡ₚ indices ->
  assemble_snapshot sha256 limits now (buffer_of done) (arriving i) =
  match rest with
  | [] => (None, Complete (map received items))
  | _ => (Some (assembly_of (i :: done)), MoreChunks)
  end.
Proof.
  intros Hnow Htime Hi Hnd Hp.
  assert (i ∈ indices) as [_ Hlt]%elem_of_seq by (rewrite <- Hp; left). cbn [Nat.add] in Hlt.
  unfold assemble_snapshot, arriving. set (p := NodeChannel.chunk_payload _ _ _ _ _).
  assert (NoDup (dkeys p)) as Hpd by (by apply (bool_decide_unpack _); vm_compute).
  assert (forall k, dget k (arrives p) = canon <$> dget k p) as Hget by (intros; by apply dget_canon_dict).
  unfold is_payload_version_one. rewrite Hget, fields_arrive, !attr_arrives by done.
  change (dget "payload_version" p) with (Some (VInt 1)).
  change (fields_are ASSEMBLY_FIELDS p) with true.
  change (attr "chunk_count" p) with (VInt (Z.of_nat (length chunks))).
  change (attr "chunk_index" p) with (VInt (Z.of_nat i)).
  change (attr "snapshot_id" p) with (VStr sid).
  change (attr "complete_set_hash" p) with (VStr h).
  change (attr "observations" p) with (VList (NodeChannel.bodies "observation" (chunk i))).
  change (attr "compatibility_receipts" p) with (VList (NodeChannel.bodies "receipt" (chunk i))).
  cbn [fmap option_fmap option_map canon Z.eqb Pos.eqb negb nonempty_str sha256_text].
  rewrite Hsid, Hsha.
  rewrite (proj2 (Z.ltb_ge (Z.of_nat (length chunks)) 1)), (proj2 (Z.ltb_ge (Z.of_nat i) 0)),
    (proj2 (Z.leb_gt (Z.of_nat (length chunks)) (Z.of_nat i))) by lia.
  rewrite (proj2 (Z.ltb_ge (ControlLimits.max_snapshot_chunks limits) _)) by lia. cbn [orb].
  assert (default (Assembly sid (Z.of_nat (length chunks)) h ∅ 0 now) (buffer_of done) = assembly_of done)
    as ->.
  { destruct done; [|done]. cbn. by rewrite Hnow. }
  cbn [a_snapshot_id a_total a_hash a_started_at assembly_of].
  rewrite !bool_decide_true, Z.eqb_refl by done. cbn [negb orb].
  unfold in_time in Htime. apply negb_true_iff in Htime. rewrite Htime. by apply add_chunk_arriving.
Qed.

(** The verdicts on a sequence of chunks, and the assembly left at the end. *)
Fixpoint assemble_all (buffer : option assembly) (arrivals : list (float * dict))
    : option assembly * list assembled :=
  match arrivals with
  | [] => (buffer, [])
  | (now, payload) :: rest =>
      let '(buffer1, verdict) := assemble_snapshot sha256 limits now buffer payload in
      let '(buffer2, verdicts) := assemble_all buffer1 rest in (buffer2, verdict :: verdicts)
  end.

Lemma assemble_all_arriving arrivals seen :
  NoDup seen -> (arrivals.*2 ++ seen) ≡ₚ indices -> arrivals <> [] ->
  Forall (fun x => in_time x.1 = true) arrivals ->
  (seen = [] -> fst <$> head arrivals = Some t0) ->
  assemble_all (buffer_of seen) ((fun x => (x.1, arriving x.2)) <$> arrivals) =
  (None, replicate (pred (length arrivals)) MoreChunks ++ [Complete (map received items)]).
Proof.
  revert seen. induction arrivals as [|[now i] arrivals IH]; intros seen Hnd Hp Hne Ht Hfirst; [done|].
  apply Forall_cons in Ht as [Hnow Ht']. cbn [fmap list_fmap assemble_all fst snd].
  assert (i :: seen ++ arrivals.*2 ≡ₚ indices) as Hp'.
  { rewrite <- Hp. cbn. by rewrite Permutation_app_comm. }
  assert (NoDup (i :: seen ++ arrivals.*2)) as Hnd' by (rewrite Hp'; apply NoDup_seq).
  apply NoDup_cons in Hnd' as [Hi Hnd']. rewrite elem_of_app in Hi.
  rewrite (assemble_arriving now i seen (arrivals.*2)); [|intros ->; by injection (Hfirst eq_refl)|done|tauto|done|done].
  destruct arrivals as [|[now' j] arrivals]; [done|]. cbn [fmap list_fmap].
  specialize (IH (i :: seen)). cbn [buffer_of] in IH. cbn [fmap list_fmap fst snd] in IH, Hp', Hi, Hnd' |- *.
  rewrite IH; [done|..].
  - constructor; [tauto|done].
  - rewrite <- Hp'. etrans; [symmetry; apply Permutation_middle|]. apply Permutation_skip, Permutation_app_comm.
  - done.
  - done.
  - done.
Qed.
End transfer.

(** ** How the rank cuts a snapshot *)

Section cutting.
  Context `{FloatText} (mac : text -> text -> text) (sha256 : text -> string).

Lemma slices_spec n fuel l :
  (1 <= n)%nat -> (length l <= fuel)%nat ->
  concat (NodeChannel.slices fuel n l) = l /\ Forall (fun c => c <> []) (NodeChannel.slices fuel n l).
Proof.
  intros Hn. revert l. induction fuel as [|fuel IH]; intros l Hl.
  - destruct l; cbn in Hl |- *; [split; [done|constructor]|lia].
  - destruct l as [|v l]; cbn [NodeChannel.slices concat]; [split; [done|constructor]|].
    destruct (IH (drop n (v :: l))) as [Hc Hf].
    { rewrite length_drop. cbn in Hl |- *. lia. }
    split; [by rewrite Hc, take_drop|]. constructor; [|done]. destruct n; [lia|done].
Qed.

Lemma chunks_of_spec n l :
  (1 <= n)%nat -> concat (NodeChannel.chunks_of n l) = l /\
  (NodeChannel.chunks_of n l = [[]] /\ l = [] \/
   l <> [] /\ Forall (fun c => c <> []) (NodeChannel.chunks_of n l)).
Proof.
  intros Hn. unfold NodeChannel.chunks_of. destruct (slices_spec n (length l) l Hn) as [Hc Hf]; [done|].
  destruct (NodeChannel.slices _ _ _) as [|c cs] eqn:Es; [cbn in Hc; subst l; auto|].
  split; [done|]. right. split; [|done]. intros ->. done.
Qed.

(** What the head will count: the rank's own count and one byte per further chunk. *)
Lemma bytes_of_cut items keys n :
  (1 <= n)%nat -> Forall2 normal_item items keys ->
  let chunks := NodeChannel.chunks_of n items in
  bytes_of chunks (indices chunks) =
  Z.of_nat (length (print (VList items))) + Z.of_nat (length chunks) - 1.
Proof.
  intros Hn Hf chunks. destruct (chunks_of_spec n items Hn) as [Hc Hne]. fold chunks in Hc, Hne.
  assert (forall l, bytes_of chunks l =
    foldr Z.add 0 ((fun i => Z.of_nat (length (print (VList (rebuilt (chunk chunks i)))))) <$> l)) as Hb.
  { intros l. unfold bytes_of. induction l as [|i l IH]; cbn -[print]; [done|]. rewrite IH. lia. }
  rewrite Hb, (chunks_by_index chunks (fun c => Z.of_nat (length (print (VList (rebuilt c)))))).
  clear Hb. destruct Hne as [[-> ->]|[Hi Hne]]; [done|].
  assert (forall c, c ∈ chunks -> exists ks, Forall2 normal_item c ks) as Hks.
  { intros c Hin. rewrite <- Hc in Hf. clear -Hin Hf. revert keys Hf.
    induction chunks as [|c0 cs IH]; intros keys Hf; [by apply elem_of_nil in Hin|]. cbn in Hf.
    apply Forall2_app_inv_l in Hf as (k1 & k2 & H1 & H2 & ->).
    apply elem_of_cons in Hin as [->|Hin]; eauto. }
  assert (forall c, c ∈ chunks -> length (print (VList (rebuilt c))) = S (weight c)) as Hlen.
  { intros c Hin. destruct (Hks c Hin) as [ks Hk]. rewrite print_list_length.
    assert (rebuilt c ≡ₚ map received c) as Hp.
    { apply rebuilt_permutation, Forall_forall. intros item [j Hj]%list_elem_of_lookup.
      rewrite Forall2_lookup in Hk. specialize (Hk j). rewrite Hj in Hk. inv Hk. eauto. }
    rewrite (weight_perm _ _ Hp), (weight_received _ _ Hk).
    destruct (rebuilt c) eqn:Er; [|done]. apply Permutation_nil in Hp. rewrite Forall_forall in Hne.
    exfalso. apply (Hne c Hin). by destruct c. }
  rewrite print_list_length. destruct items as [|v l]; [done|]. rewrite <- Hc. clear -Hlen.
  induction chunks as [|c cs IH]; [done|]. cbn [fmap list_fmap foldr concat length].
  rewrite Hlen by left. rewrite weight_app. cbn [concat] in IH.
  rewrite IH by (intros; apply Hlen; by right). lia.
Qed.

Lemma write_chunks_spec sent payloads c c' out :
  NodeChannel.write_chunks mac sent payloads c = (c', out, Ok tt) -> Envelope.payload <$> out = payloads.
Proof.
  revert sent c out. induction payloads as [|p ps IH]; intros sent c out; cbn [NodeChannel.write_chunks].
  { unfold mret, NodeChannel.M_ret. by intros [= <- <-]. }
  unfold mbind, NodeChannel.M_bind.
  pose proof (RankCommands.write_spec mac (0 <? sent)%nat SNAPSHOT p c) as Hw.
  destruct (NodeChannel.write mac (0 <? sent)%nat SNAPSHOT p c) as [[c1 out1] [[]|x]]; [|done].
  destruct Hw as (_ & _ & Hok & [-> |(e & -> & _ & Hp)]); [by destruct (Hok eq_refl)|].
  destruct (NodeChannel.write_chunks mac (pred sent) ps c1) as [[c2 out2] r] eqn:Hc.
  intros [= <- <- ->]. apply IH in Hc. cbn. by rewrite Hp, Hc.
Qed.

(** What a successful [send_snapshot] has checked and written. *)
Lemma send_snapshot_spec sent obs recs id n c c' out sid :
  NodeChannel.send_snapshot mac sha256 sent obs recs id n c = (c', out, Ok sid) ->
  exists items h,
    canonical_snapshot_items (NodeChannel.snapshot_items obs recs) = Ok items /\
    snapshot_set_hash sha256 items = Ok h /\ nonempty sid = true /\ 1 <= n /\
    Z.of_nat (length items) <= NodeChannel.max_snapshot_items c /\
    Z.of_nat (length (NodeChannel.chunks_of (Z.to_nat n) items)) <= NodeChannel.max_snapshot_chunks c /\
    Envelope.payload <$> out =
      NodeChannel.chunk_payloads sid h (NodeChannel.chunks_of (Z.to_nat n) items).
Proof.
  unfold NodeChannel.send_snapshot, mbind, NodeChannel.M_bind, NodeChannel.lift, NodeChannel.get.
  destruct (canonical_snapshot_items _) as [items|] eqn:Hc; [|done].
  destruct (snapshot_set_hash sha256 items) as [h|] eqn:Hh; [|done].
  set (sid' := if nonempty id then id else _).
  assert (nonempty sid' = true) as Hsid by (unfold sid'; destruct (nonempty id) eqn:E; done).
  clearbody sid'. unfold NodeChannel.when, NodeChannel.contract, NodeChannel.raise.
  destruct (n <? 1) eqn:Hn; [done|]. unfold mret, NodeChannel.M_ret.
  destruct (NodeChannel.max_snapshot_items c <? _) eqn:Hmi; [done|].
  destruct (dumps (VList items)) as [encoded|]; [|done].
  destruct (NodeChannel.max_snapshot_bytes c <? _) eqn:Hmb; [done|].
  destruct (NodeChannel.max_snapshot_chunks c <? _) eqn:Hmc; [done|]. bool_prop.
  destruct (NodeChannel.snapshot_hashes c !! sid') as [previous|];
    [destruct (negb (bool_decide (previous = h))); [done|]
    |destruct (negb (bool_decide (NodeChannel.snapshot_hashes c = ∅))); [done|]; unfold NodeChannel.modify].
  all: match goal with |- context [NodeChannel.write_chunks ?m ?k ?ps ?c1] =>
    destruct (NodeChannel.write_chunks m k ps c1) as [[c2 out2] [[]|]] eqn:Hw; [|done] end.
  all: apply write_chunks_spec in Hw; intros Heq; simplify_eq; rewrite !app_nil_r; cbn [app].
  all: exists items, h; done.
Qed.

Lemma canonical_bodies raw items :
  canonical_snapshot_items raw = Ok items ->
  Forall (fun item => distinct_keys (NodeChannel.item_body item) = true) raw ->
  Forall (fun item => distinct_keys (NodeChannel.item_body item) = true) items.
Proof.
  unfold canonical_snapshot_items. intros (m & Hm & [= <-])%bind_Ok Hraw. rewrite Forall_forall in Hraw.
  assert (forall k t n, m !! k = Some (t, n) -> distinct_keys (NodeChannel.item_body n) = true) as Hinv.
  { pattern m. eapply fold_res_ind; [|intros ? ? ?; by rewrite lookup_empty|exact Hm].
    intros m1 item m2 Hin IH Ha. unfold add_entry in Ha.
    apply bind_Ok in Ha as ([k0 [t0 n0]] & He & Ha).
    assert (m2 = <[k0 := (t0, n0)]> m1) as ->.
    { destruct (m1 !! k0) as [[]|]; [case_bool_decide; [|done]|]; by injection Ha as <-. }
    intros k t n. destruct (decide (k0 = k)) as [->|]; [|rewrite lookup_insert_ne by done; apply IH].
    rewrite lookup_insert_eq. intros [= <- <-]. specialize (Hraw item Hin).
    unfold snapshot_entry in He. destruct item as [| | | | | |d]; try done.
    apply bind_Ok in He as (_ & _ & He). apply bind_Ok in He as (known & _ & He).
    destruct known; [|done]. destruct (attr "kind" d) as [| | | |kind| |]; try done.
    cbn [NodeChannel.item_body] in Hraw. destruct (attr "body" d) as [| | | | | |body]; try done.
    apply bind_Ok in He as (parts & _ & He). destruct (dumps _); [|done].
    replace n0 with (snapshot_item kind (VDict body)) by congruence. exact Hraw. }
  apply Forall_forall. intros item (k & Hk & Hi)%list_elem_of_omap.
  destruct (m !! k) as [[t n]|] eqn:E; [|done]. injection Hi as <-. by eapply Hinv.
Qed.

Lemma arrived_payload sid h chunks out i :
  Envelope.payload <$> out = NodeChannel.chunk_payloads sid h chunks -> (i < length out)%nat ->
  default [] ((fun e => Envelope.payload (canon_envelope e)) <$> out !! i) = arriving sid h chunks i.
Proof.
  intros Hout Hi. destruct (lookup_lt_is_Some_2 _ _ Hi) as [e He].
  assert ((Envelope.payload <$> out) !! i = Some (Envelope.payload e)) as Hp by (by rewrite list_lookup_fmap, He).
  rewrite Hout in Hp. unfold NodeChannel.chunk_payloads in Hp. rewrite list_lookup_imap in Hp.
  rewrite He. cbn. unfold arriving, arrives, chunk. destruct (chunks !! i) as [ch|]; [|done].
  cbn in Hp |- *. by injection Hp as <-.
Qed.

Lemma received_canon items keys :
  Forall2 normal_item items keys -> map canon (map received items) = map canon items.
Proof.
  induction 1 as [|item k items keys Hi Hf IH]; [done|]. cbn [map]. rewrite IH. f_equal.
  destruct (normal_item_shape _ _ Hi) as (kind & body & -> & _). rewrite received_item.
  apply (canon_received kind (VDict body)).
Qed.

Lemma snapshot_hash_sha items h :
  (forall t, is_sha256 (sha256 t) = true) -> snapshot_set_hash sha256 items = Ok h -> is_sha256 h = true.
Proof.
  intros Hsha. unfold snapshot_set_hash. intros (l & _ & Hh)%bind_Ok.
  destruct (dumps (VList l)); [|done]. injection Hh as <-. apply Hsha.
Qed.

(** C17: A snapshot that the rank sent is the snapshot the head assembles. When the rank uses the
    item and chunk limits the head announced, no object in an item repeats a key, the hash
    function yields SHA-256 texts, the chunks arrive in any order within the deadline, and
    the head's byte count (one more than the rank's for every further chunk) fits its limit,
    then every chunk but the last is kept waiting, the last completes the snapshot, its items
    are the canonical items the rank was given up to the order of keys, and their hash
    is the hash the rank announced. *)
Theorem snapshot_transfer (limits : ControlLimits.t) (sent : nat) (obs : list ComponentObservation.t)
    (recs : list dict) (id : string) (n : Z) (c c' : NodeChannel.t) (out : list Envelope.t)
    (sid : string) (t0 : float) (arrivals : list (float * nat)) :
  (forall t, is_sha256 (sha256 t) = true) ->
  Forall (fun item => distinct_keys (NodeChannel.item_body item) = true)
    (NodeChannel.snapshot_items obs recs) ->
  NodeChannel.send_snapshot mac sha256 sent obs recs id n c = (c', out, Ok sid) ->
  NodeChannel.max_snapshot_items c = ControlLimits.max_snapshot_items limits ->
  NodeChannel.max_snapshot_chunks c = ControlLimits.max_snapshot_chunks limits ->
  (forall items, canonical_snapshot_items (NodeChannel.snapshot_items obs recs) = Ok items ->
     Z.of_nat (length (print (VList items))) + Z.of_nat (length out) - 1
       <= ControlLimits.max_snapshot_bytes limits) ->
  arrivals.*2 ≡ₚ seq 0 (length out) -> fst <$> head arrivals = Some t0 ->
  Forall (fun x => in_time limits t0 x.1 = true) arrivals ->
  exists items,
    canonical_snapshot_items (NodeChannel.snapshot_items obs recs) = Ok items /\
    assemble_all sha256 limits None
      ((fun x => (x.1, default [] ((fun e => Envelope.payload (canon_envelope e)) <$> out !! x.2))) <$> arrivals)
    = (None, replicate (pred (length out)) MoreChunks ++ [Complete (map received items)]) /\
    snapshot_set_hash sha256 (map received items) = snapshot_set_hash sha256 items /\
    map canon (map received items) = map canon items.
Proof.
  intros Hsha Hbodies Hsend Hmi Hmc Hmb Harr Ht0 Htime.
  destruct (send_snapshot_spec _ _ _ _ _ _ _ _ _ Hsend) as (items & h & Hc & Hh & Hsid & Hn & Hi & Hch & Hout).
  destruct (canonical_normal _ _ Hc) as (keys & Hf & Hs & Hnd).
  pose proof (canonical_bodies _ _ Hc Hbodies) as Hd.
  assert (Forall2 normal_item items keys) as Hf'.
  { clear -Hf Hd. induction Hf as [|item k items keys He Hf IH]; [constructor|]. inv Hd. by constructor; [split|auto]. }
  assert (normal_items items keys) as Hnorm by done.
  assert (1 <= Z.to_nat n)%nat as Hn' by lia.
  set (chunks := NodeChannel.chunks_of (Z.to_nat n) items) in *.
  assert (length out = length chunks) as Hlen.
  { rewrite <- (length_fmap Envelope.payload out), Hout. apply length_imap. }
  exists items. split; [done|]. split; [|split; [by eapply received_hash|by eapply received_canon]].
  assert ((fun x : float * nat => (x.1, default [] ((fun e => Envelope.payload (canon_envelope e)) <$> out !! x.2)))
    <$> arrivals = (fun x => (x.1, arriving sid h chunks x.2)) <$> arrivals) as ->.
  { apply list_fmap_ext. intros j [now i] Hj. cbn. f_equal. apply arrived_payload; [done|].
    assert (i ∈ arrivals.*2) as Hin by (apply list_elem_of_fmap; exists (now, i); split; [done|by eapply list_elem_of_lookup_2]).
    rewrite Harr in Hin. apply elem_of_seq in Hin. lia. }
  replace (length out) with (length arrivals) in *.
  2: { rewrite <- (length_fmap snd arrivals), Harr. apply length_seq. }
  rewrite <- (assemble_all_arriving sha256 limits sid h items keys chunks t0 Hnorm) with (seen := []); try done.
  - apply chunks_of_spec; lia.
  - by eapply snapshot_hash_sha.
  - lia.
  - lia.
  - unfold chunks. rewrite (bytes_of_cut items keys) by done. fold chunks. rewrite <- Hlen. by apply Hmb.
  - constructor.
  - rewrite app_nil_r, Harr. unfold indices. by rewrite Hlen.
  - intros ->. done.
Qed.
End cutting.

(** ** Two observations in two chunks *)

Module ExampleTransfer.
Definition other : ComponentObservation.t :=
  ComponentObservation.mk "dep" "hash" 0 "gateway" "gw-1" 1 RANK "gateway" "node1" "STARTING"
    (VInt 11) (Some 1) None None None None None.

Definition observations : list ComponentObservation.t := [example_observation; other].

Definition limits (bytes : Z) : ControlLimits.t :=
  ControlLimits.mk (Float.of_Z 300) (Float.of_Z 60) (Float.of_Z 5) (Float.of_Z 30) (Float.of_Z 60)
    (Float.of_Z 300) (Z.shiftl 1 20) 256 bytes 65536 false.

(** The rank under the same limits. *)
Definition channel (bytes : Z) : NodeChannel.t :=
  NodeChannel.mk (replicate 32 "k"%char) "dep" "hash" 0 1 "node1" true true 0 0 (Z.shiftl 1 20) 256 bytes
    65536 [] ∅ [] ∅ ∅ 0.

Definition send (bytes : Z) : NodeChannel.t * list Envelope.t * result chan_error string :=
  NodeChannel.send_snapshot (H := DecimalFloat.ops) example_mac ExampleRun.sha 2 observations [] "snap" 1
    (channel bytes).

Definition now : float := Float.of_Z 100.

Definition assemble (bytes : Z) (order : list nat) : option assembly * list assembled :=
  assemble_all (H := DecimalFloat.ops) ExampleRun.sha (limits bytes) None
    ((fun i => (now, default [] ((fun e => Envelope.payload (canon_envelope e)) <$> (send bytes).1.2 !! i)))
       <$> order).

(** The bytes of both items as the rank counts them. *)
Definition exact : Z :=
  match canonical_snapshot_items (H := DecimalFloat.ops) (NodeChannel.snapshot_items observations []) with
  | Ok items => Z.of_nat (length (print (H := DecimalFloat.ops) (VList items)))
  | Err _ => 0
  end.
End ExampleTransfer.

(** The two ends do not apply the same byte limit: a snapshot of two chunks whose
    encoding is exactly [max_snapshot_bytes] is accepted and sent by the rank, and the
    head, under the same limits, rejects its last chunk as too large. *)
Theorem snapshot_byte_limit_mismatch :
  let bytes := ExampleTransfer.exact in
  (ExampleTransfer.send bytes).2 = Ok "snap" /\
  NodeChannel.max_snapshot_bytes (ExampleTransfer.channel bytes) =
    ControlLimits.max_snapshot_bytes (ExampleTransfer.limits bytes) /\
  (ExampleTransfer.assemble bytes [0; 1]%nat).2 =
    [MoreChunks; RejectedChunk "snapshot exceeds max_snapshot_bytes"].
Proof. split_and!; vm_compute; reflexivity. Qed.

Lemma snapshot_transfer_witness :
  let bytes := 1000 in
  let out := (ExampleTransfer.send bytes).1.2 in
  length out = 2%nat /\
  exists items,
    canonical_snapshot_items (H := DecimalFloat.ops)
      (NodeChannel.snapshot_items ExampleTransfer.observations []) = Ok items /\
    ExampleTransfer.assemble bytes [1; 0]%nat
    = (None, replicate (pred (length out)) MoreChunks ++ [Complete (map received items)]) /\
    snapshot_set_hash (H := DecimalFloat.ops) ExampleRun.sha (map received items) =
      snapshot_set_hash (H := DecimalFloat.ops) ExampleRun.sha items /\
    map canon (map received items) = map canon items.
Proof.
  split; [vm_compute; reflexivity|].
  apply (snapshot_transfer (H := DecimalFloat.ops) example_mac ExampleRun.sha (ExampleTransfer.limits 1000) 2
    ExampleTransfer.observations [] "snap" 1 (ExampleTransfer.channel 1000) (ExampleTransfer.send 1000).1.1
    (ExampleTransfer.send 1000).1.2 "snap" ExampleTransfer.now
    [(ExampleTransfer.now, 1%nat); (ExampleTransfer.now, 0%nat)]).
  - intros t. vm_compute. reflexivity.
  - repeat constructor.
  - vm_compute. reflexivity.
  - reflexivity.
  - reflexivity.
  - intros items Hi. vm_compute in Hi. injection Hi as <-. vm_compute. discriminate.
  - change (seq 0 (length (ExampleTransfer.send 1000).1.2)) with [0; 1]%nat. apply Permutation_swap.
  - reflexivity.
  - repeat constructor; vm_compute; reflexivity.
Defined.
