(* ===== verification/Session.v ===== *)
(** The control-session state machine of the allocation head
    (src/exaserve/control/session.py): registration barrier, chunked snapshot
    assembly, lease loss, bounded reconnect.

    Every method of [SessionCoordinator] is one definition that takes the
    coordinator and returns the updated coordinator with the method's result.
    [clk] is the reading of the injected monotonic clock. Result texts are the
    constructors of [reply] and [reason]. *)

From S2P Require Import Prelude.
From S2P Require Import PyValue.
From S2P Require Import Contracts.

(** ** Data *)

Inductive SessionState : Set :=
| EXPECTED | AUTHENTICATED | SNAPSHOT_PENDING | SNAPSHOT_ACK_PENDING
| ESTABLISHED | LOST | TERMINAL.

#[global] Instance SessionState_eq_dec : EqDecision SessionState.
Proof. solve_decision. Defined.

Inductive GenerationState : Set :=
| GEN_REGISTERING | GEN_STARTED | GEN_TERMINAL.

#[global] Instance GenerationState_eq_dec : EqDecision GenerationState.
Proof. solve_decision. Defined.

(** Why a generation became terminal. *)
Inductive reason : Set :=
| RegisteredFromWrongNode (rank : Z) (node_id bound : string)
| ReconnectedFromUnboundNode (rank : Z) (node_id : string)
| ReconnectGraceExpired (rank : Z)
| RegistrationDeadlineExpired (pending : list Z)
| GraceExpiredForRanks (ranks : list Z)
| RankProtocolViolation (rank : Z) (what : string).

(** The text component of the [(bool, str)] results. *)
Inductive reply : Set :=
| NotInBinding | RegistrationNotStarted | NodeMismatch | AlreadyEstablished | SnapshotOwed
| SnapshotBeforeAuthentication | NoChunksDeclared | TooManyChunks | DifferentSnapshotInFlight
| IdenticalSnapshotAssembling | Assembling
| NoSnapshotInFlight | AssemblyDeadlineExpired
| ChunkOutOfRange | ConflictingChunk | TooManyItems | ChunkAccepted
| IncompleteSnapshot (missing : list Z) | HashMismatch | SupervisorReceiptMissing
| AcknowledgmentPending
| UnknownRank | NoAckPending | AckCommandFailed | AckCommandMismatch | AckSnapshotMismatch
| AckHashMismatch | NowEstablished
| GenerationIsTerminal (why : option reason) | RanksNotEstablished (pending : list Z)
| AllRanksEstablished
| SessionIsTerminal | GraceExpired | Reconnected
| IncrementalBeforeSnapshot | IncrementalAccepted.

(** The result of [on_disconnect]. *)
Inductive disconnect : Set :=
| DisconnectUnknownRank | ExpectedGoodbye | RegistrationInterrupted | SessionLost.

(** The [f"SNAPSHOT_ACCEPTED:{rank}:{snapshot_id}"] command identity. *)
Definition snapshot_command (rank : Z) (snapshot_id : string) : string :=
  "SNAPSHOT_ACCEPTED:" +:+ str_Z rank +:+ ":" +:+ snapshot_id.

Module RankSession.
Record t := mk {
  rank : Z;
  node_id : string;
  state : SessionState;
  instance_id : string;
  last_heartbeat_at : option float;
  loss_time : option float;
  snapshot_id : string;
  complete_set_hash : string;
  snapshot_command_id : string;
  snapshot_accepted : bool;
  supervisor_receipt_accepted : bool;
  reconnects : Z;
}.

Definition is_established (s : t) : bool := bool_decide (state s = ESTABLISHED).

(** [RankSession(rank=rank, node_id=...)]: a planned, never connected rank. *)
Definition planned (rank : Z) (node_id : string) : t :=
  mk rank node_id EXPECTED "" None None "" "" "" false false 0.

Definition set_state (st : SessionState) (s : t) : t :=
  mk (rank s) (node_id s) st (instance_id s) (last_heartbeat_at s) (loss_time s) (snapshot_id s)
     (complete_set_hash s) (snapshot_command_id s) (snapshot_accepted s)
     (supervisor_receipt_accepted s) (reconnects s).

Definition set_loss_time (lt : option float) (s : t) : t :=
  mk (rank s) (node_id s) (state s) (instance_id s) (last_heartbeat_at s) lt (snapshot_id s)
     (complete_set_hash s) (snapshot_command_id s) (snapshot_accepted s)
     (supervisor_receipt_accepted s) (reconnects s).

Definition set_heartbeat (hb : option float) (s : t) : t :=
  mk (rank s) (node_id s) (state s) (instance_id s) hb (loss_time s) (snapshot_id s)
     (complete_set_hash s) (snapshot_command_id s) (snapshot_accepted s)
     (supervisor_receipt_accepted s) (reconnects s).

Definition set_snapshot_accepted (b : bool) (s : t) : t :=
  mk (rank s) (node_id s) (state s) (instance_id s) (last_heartbeat_at s) (loss_time s)
     (snapshot_id s) (complete_set_hash s) (snapshot_command_id s) b
     (supervisor_receipt_accepted s) (reconnects s).

Definition set_receipt_accepted (b : bool) (s : t) : t :=
  mk (rank s) (node_id s) (state s) (instance_id s) (last_heartbeat_at s) (loss_time s)
     (snapshot_id s) (complete_set_hash s) (snapshot_command_id s) (snapshot_accepted s) b
     (reconnects s).

Definition set_snapshot (sid hash cmd : string) (s : t) : t :=
  mk (rank s) (node_id s) (state s) (instance_id s) (last_heartbeat_at s) (loss_time s)
     sid hash cmd (snapshot_accepted s) (supervisor_receipt_accepted s) (reconnects s).

Definition set_instance (i : string) (s : t) : t :=
  mk (rank s) (node_id s) (state s) i (last_heartbeat_at s) (loss_time s) (snapshot_id s)
     (complete_set_hash s) (snapshot_command_id s) (snapshot_accepted s)
     (supervisor_receipt_accepted s) (reconnects s).

Definition add_reconnect (s : t) : t :=
  mk (rank s) (node_id s) (state s) (instance_id s) (last_heartbeat_at s) (loss_time s)
     (snapshot_id s) (complete_set_hash s) (snapshot_command_id s) (snapshot_accepted s)
     (supervisor_receipt_accepted s) (reconnects s + 1).
End RankSession.

Module SnapshotAssembly.
Record t := mk {
  snapshot_id : string;
  total_chunks : Z;
  complete_hash : string;
  limits : ControlLimits.t;
  started_at : float;
  chunks : gmap Z (list value);
}.

Definition set_chunks (c : gmap Z (list value)) (a : t) : t :=
  mk (snapshot_id a) (total_chunks a) (complete_hash a) (limits a) (started_at a) c.

(** [sum(len(c) for c in chunks.values())] *)
Definition count_items (c : gmap Z (list value)) : Z :=
  map_fold (fun _ payload n => Z.of_nat (length payload) + n) 0 c.

Definition add (a : t) (index : Z) (payload : list value) : t * (bool * reply) :=
  if (index <? 0) || (total_chunks a <=? index) then (a, (false, ChunkOutOfRange))
  else if ControlLimits.max_snapshot_chunks (limits a) <? total_chunks a
  then (a, (false, TooManyChunks))
  else
    let conflict :=
      match chunks a !! index with
      | Some existing => negb (py_list_eqb existing payload)
      | None => false
      end in
    if conflict then (a, (false, ConflictingChunk))
    else
      let a' := set_chunks (<[index := payload]> (chunks a)) a in
      if ControlLimits.max_snapshot_items (limits a) <? count_items (chunks a')
      then (a', (false, TooManyItems))
      else (a', (true, ChunkAccepted)).

Definition is_complete (a : t) : bool :=
  Z.of_nat (size (chunks a)) =? total_chunks a.

Definition expired (a : t) (now : float) : bool :=
  Float.gtb (Float.sub now (started_at a))
    (ControlLimits.snapshot_assembly_deadline_s (limits a)).

(** [for index in sorted(self.chunks): out.extend(self.chunks[index])] *)
Definition items (a : t) : list value :=
  sortedZ (elements (dom (chunks a))) ≫= fun index => default [] (chunks a !! index).

(** [sorted(set(range(total_chunks)) - set(chunks))] *)
Definition missing (a : t) : list Z :=
  filter (fun index => chunks a !! index = None) (seqZ 0 (total_chunks a)).
End SnapshotAssembly.

(** ** The coordinator *)

Module SessionCoordinator.
Record t := mk {
  binding : AllocationBinding.t;
  limits : ControlLimits.t;
  generation_state : GenerationState;
  terminal_reason : option reason;
  started_at : option float;
  sessions : gmap Z RankSession.t;
  assemblies : gmap Z SnapshotAssembly.t;
  drain_requested : gset Z;
}.

Definition set_generation (g : GenerationState) (r : option reason) (c : t) : t :=
  mk (binding c) (limits c) g r (started_at c) (sessions c) (assemblies c) (drain_requested c).
Definition set_started (x : option float) (c : t) : t :=
  mk (binding c) (limits c) (generation_state c) (terminal_reason c) x (sessions c)
     (assemblies c) (drain_requested c).
Definition set_sessions (m : gmap Z RankSession.t) (c : t) : t :=
  mk (binding c) (limits c) (generation_state c) (terminal_reason c) (started_at c) m
     (assemblies c) (drain_requested c).
Definition set_assemblies (m : gmap Z SnapshotAssembly.t) (c : t) : t :=
  mk (binding c) (limits c) (generation_state c) (terminal_reason c) (started_at c) (sessions c)
     m (drain_requested c).
Definition set_drain (d : gset Z) (c : t) : t :=
  mk (binding c) (limits c) (generation_state c) (terminal_reason c) (started_at c) (sessions c)
     (assemblies c) d.

(** Mutation of the session object stored under [rank]. *)
Definition put (rank : Z) (s : RankSession.t) (c : t) : t :=
  set_sessions (<[rank := s]> (sessions c)) c.

(** [__init__]: one planned session per bound rank. *)
Definition init (b : AllocationBinding.t) (l : ControlLimits.t) : t :=
  mk b l GEN_REGISTERING None None
     (list_to_map ((fun rank =>
        (rank, RankSession.planned rank (default "" (AllocationBinding.node_for b rank))))
        <$> AllocationBinding.ranks b))
     ∅ ∅.

(** The insertion order of the [sessions] dict, which is never changed. *)
Definition session_order (c : t) : list Z := AllocationBinding.ranks (binding c).

(** The ranks whose session satisfies [f], in insertion order. *)
Definition ranks_where (f : RankSession.t -> bool) (c : t) : list Z :=
  filter (fun rank => from_option f false (sessions c !! rank) = true) (session_order c).

Definition fatal (r : reason) (c : t) : t :=
  if bool_decide (generation_state c = GEN_TERMINAL) then c
  else set_generation GEN_TERMINAL (Some r) c.

Definition expected_ranks (c : t) : list Z := sortedZ (elements (dom (sessions c))).

(** [None] is the [RuntimeError] of a generation that is not registering. *)
Definition begin_registration (clk : float) (c : t) : t * option float :=
  if negb (bool_decide (generation_state c = GEN_REGISTERING)) then (c, None)
  else match started_at c with
       | Some x => (c, Some x)
       | None => (set_started (Some clk) c, Some clk)
       end.

Definition registration_deadline_at (c : t) : option float :=
  match started_at c with
  | None => None
  | Some x => Some (Float.add x (ControlLimits.registration_deadline_s (limits c)))
  end.

Definition registration_remaining_s (clk : float) (c : t) : option float :=
  match registration_deadline_at c with
  | None => None
  | Some d => Some (Float.max Float.zero (Float.sub d clk))
  end.

(** The part of [register] after the node check. *)
Definition register_bound (clk : float) (rank : Z) (instance_id : string)
    (session : RankSession.t) (c : t) : t * (bool * reply) :=
  if RankSession.is_established session
     && bool_decide (instance_id = RankSession.instance_id session)
  then (c, (true, AlreadyEstablished))
  else
    (put rank
       (RankSession.mk (RankSession.rank session) (RankSession.node_id session) AUTHENTICATED
          instance_id (Some clk) None "" "" "" false false (RankSession.reconnects session)) c,
     (true, SnapshotOwed)).

Definition register (clk : float) (rank : Z) (node_id instance_id : string) (c : t)
    : t * (bool * reply) :=
  match sessions c !! rank with
  | None => (c, (false, NotInBinding))
  | Some session =>
      match started_at c with
      | None => (c, (false, RegistrationNotStarted))
      | Some _ =>
          let bound := default "" (AllocationBinding.node_for (binding c) rank) in
          if nonempty bound && negb (AllocationBinding.is_bound_node (binding c) rank node_id)
          then
            (put rank (RankSession.set_state TERMINAL session)
               (fatal (RegisteredFromWrongNode rank node_id bound) c),
             (false, NodeMismatch))
          else register_bound clk rank instance_id session c
      end
  end.

Definition begin_snapshot (clk : float) (rank : Z) (snapshot_id : string) (total_chunks : Z)
    (complete_hash : string) (c : t) : t * (bool * reply) :=
  match sessions c !! rank with
  | None => (c, (false, SnapshotBeforeAuthentication))
  | Some session =>
      if bool_decide (RankSession.state session = EXPECTED)
      then (c, (false, SnapshotBeforeAuthentication))
      else if total_chunks <? 1 then (c, (false, NoChunksDeclared))
      else if ControlLimits.max_snapshot_chunks (limits c) <? total_chunks
      then (c, (false, TooManyChunks))
      else
        match assemblies c !! rank with
        | Some existing =>
            if negb (bool_decide (SnapshotAssembly.snapshot_id existing = snapshot_id))
               || negb (SnapshotAssembly.total_chunks existing =? total_chunks)
               || negb (bool_decide (SnapshotAssembly.complete_hash existing = complete_hash))
            then (c, (false, DifferentSnapshotInFlight))
            else (c, (true, IdenticalSnapshotAssembling))
        | None =>
            let assembly :=
              SnapshotAssembly.mk snapshot_id total_chunks complete_hash (limits c) clk ∅ in
            (put rank
               (RankSession.set_snapshot_accepted false
                  (RankSession.set_state SNAPSHOT_PENDING session))
               (set_assemblies (<[rank := assembly]> (assemblies c)) c),
             (true, Assembling))
        end
  end.

Definition add_snapshot_chunk (clk : float) (rank index : Z) (payload : list value) (c : t)
    : t * (bool * reply) :=
  match assemblies c !! rank with
  | None => (c, (false, NoSnapshotInFlight))
  | Some assembly =>
      if SnapshotAssembly.expired assembly clk
      then (set_assemblies (delete rank (assemblies c)) c, (false, AssemblyDeadlineExpired))
      else
        let '(assembly', r) := SnapshotAssembly.add assembly index payload in
        (set_assemblies (<[rank := assembly']> (assemblies c)) c, r)
  end.

Section Hashing.
(** [canonical_hash] of a list of items: SHA-256 over canonical JSON. *)
Context (canonical_hash : list value -> string).

Definition complete_snapshot (clk : float) (rank : Z) (verify_hash : option string)
    (supervisor_receipt : bool) (c : t) : t * (bool * reply) :=
  match assemblies c !! rank, sessions c !! rank with
  | Some assembly, Some session =>
      if negb (SnapshotAssembly.is_complete assembly)
      then (c, (false, IncompleteSnapshot (take 8 (SnapshotAssembly.missing assembly))))
      else
        let expected :=
          match verify_hash with
          | Some h => if nonempty h then h else SnapshotAssembly.complete_hash assembly
          | None => SnapshotAssembly.complete_hash assembly
          end in
        let actual := canonical_hash (SnapshotAssembly.items assembly) in
        let c1 := set_assemblies (delete rank (assemblies c)) c in
        if nonempty expected && negb (bool_decide (actual = expected))
        then (c1, (false, HashMismatch))
        else
          let sid := SnapshotAssembly.snapshot_id assembly in
          let receipt := supervisor_receipt || RankSession.supervisor_receipt_accepted session in
          let s1 :=
            RankSession.set_receipt_accepted receipt
              (RankSession.set_snapshot_accepted false
                 (RankSession.set_snapshot sid actual (snapshot_command rank sid) session)) in
          if negb receipt then (put rank s1 c1, (false, SupervisorReceiptMissing))
          else
            (put rank
               (RankSession.set_loss_time None
                  (RankSession.set_heartbeat (Some clk)
                     (RankSession.set_state SNAPSHOT_ACK_PENDING s1))) c1,
             (true, AcknowledgmentPending))
  | _, _ => (c, (false, NoSnapshotInFlight))
  end.
End Hashing.

Definition acknowledge_snapshot (clk : float) (rank : Z)
    (command_id snapshot_id complete_set_hash : string) (succeeded : bool) (c : t)
    : t * (bool * reply) :=
  match sessions c !! rank with
  | None => (c, (false, UnknownRank))
  | Some session =>
      if negb (bool_decide (RankSession.state session = SNAPSHOT_ACK_PENDING))
      then (c, (false, NoAckPending))
      else if negb succeeded then (c, (false, AckCommandFailed))
      else if negb (bool_decide (command_id = RankSession.snapshot_command_id session))
      then (c, (false, AckCommandMismatch))
      else if negb (bool_decide (snapshot_id = RankSession.snapshot_id session))
      then (c, (false, AckSnapshotMismatch))
      else if negb (bool_decide (complete_set_hash = RankSession.complete_set_hash session))
      then (c, (false, AckHashMismatch))
      else
        (put rank
           (RankSession.set_heartbeat (Some clk)
              (RankSession.set_state ESTABLISHED
                 (RankSession.set_snapshot_accepted true session))) c,
         (true, NowEstablished))
  end.

(** [s.is_established() and s.snapshot_accepted and s.supervisor_receipt_accepted] *)
Definition registered (s : RankSession.t) : bool :=
  RankSession.is_established s && RankSession.snapshot_accepted s
  && RankSession.supervisor_receipt_accepted s.

Definition all_registered (c : t) : bool :=
  bool_decide (map_Forall (fun _ s => registered s = true) (sessions c)).

Definition may_start (c : t) : bool * reply :=
  if bool_decide (generation_state c = GEN_TERMINAL)
  then (false, GenerationIsTerminal (terminal_reason c))
  else if negb (all_registered c)
  then (false, RanksNotEstablished (take 8 (sortedZ (ranks_where (fun s => negb (registered s)) c))))
  else (true, AllRanksEstablished).

Definition start (c : t) : t * (bool * reply) :=
  let '(ok, r) := may_start c in
  if ok then (set_generation GEN_STARTED (terminal_reason c) c, (ok, r)) else (c, (ok, r)).

Definition not_established_ranks (c : t) : list Z :=
  sortedZ (ranks_where (fun s => negb (RankSession.is_established s)) c).

Definition check_registration_deadline (clk : float) (c : t) : t * option reason :=
  if negb (bool_decide (generation_state c = GEN_REGISTERING)) then (c, None)
  else
    match started_at c with
    | None => (c, None)
    | Some x =>
        if Float.ltb (Float.sub clk x) (ControlLimits.registration_deadline_s (limits c))
        then (c, None)
        else
          match not_established_ranks c with
          | [] => (c, None)
          | pending =>
              let r := RegistrationDeadlineExpired (take 8 pending) in
              (fatal r c, Some r)
          end
    end.

(** *** Loss and reconnect *)

Definition on_disconnect (clk : float) (rank : Z) (expected : bool) (now : option float) (c : t)
    : t * disconnect :=
  match sessions c !! rank with
  | None => (c, DisconnectUnknownRank)
  | Some session =>
      let now := default clk now in
      if expected then (put rank (RankSession.set_state TERMINAL session) c, ExpectedGoodbye)
      else
        let c1 := set_assemblies (delete rank (assemblies c)) c in
        let s1 := RankSession.set_snapshot_accepted false session in
        if negb (RankSession.is_established session)
        then
          (put rank (RankSession.set_loss_time None (RankSession.set_state EXPECTED s1)) c1,
           RegistrationInterrupted)
        else
          (put rank (RankSession.set_loss_time (Some now) (RankSession.set_state LOST s1)) c1,
           SessionLost)
  end.

Definition request_drain (rank : Z) (c : t) : t :=
  set_drain ({[rank]} ∪ drain_requested c) c.

Definition on_heartbeat (clk : float) (rank : Z) (now : option float) (c : t) : t :=
  match sessions c !! rank with
  | Some session =>
      if RankSession.is_established session
      then put rank (RankSession.set_heartbeat (Some (default clk now)) session) c
      else c
  | None => c
  end.

(** Did this session's lease run out silently by [now]? *)
Definition lease_expired (l : ControlLimits.t) (now : float) (s : RankSession.t) : bool :=
  bool_decide (RankSession.state s = ESTABLISHED)
  && match RankSession.last_heartbeat_at s with
     | Some last => Float.gtb (Float.sub now last) (ControlLimits.lease_timeout_s l)
     | None => false
     end.

Definition lose_lease (l : ControlLimits.t) (s : RankSession.t) : RankSession.t :=
  RankSession.set_loss_time
    (option_map (fun last => Float.add last (ControlLimits.lease_timeout_s l))
       (RankSession.last_heartbeat_at s))
    (RankSession.set_state LOST s).

Definition poll_leases (clk : float) (now : option float) (c : t) : t * list Z :=
  let now := default clk now in
  (set_sessions
     ((fun s => if lease_expired (limits c) now s then lose_lease (limits c) s else s)
        <$> sessions c) c,
   ranks_where (lease_expired (limits c) now) c).

Definition readiness_revoked_ranks (c : t) : list Z := not_established_ranks c.

Definition past_grace (l : ControlLimits.t) (now : float) (loss : float) : bool :=
  Float.gtb now (Float.add loss (ControlLimits.reconnect_grace_s l)).

Definition reconnect (clk : float) (rank : Z) (node_id instance_id : string) (now : option float)
    (c : t) : t * (bool * reply) :=
  match sessions c !! rank with
  | None => (c, (false, UnknownRank))
  | Some session =>
      if negb (AllocationBinding.is_bound_node (binding c) rank node_id)
      then
        (put rank (RankSession.set_state TERMINAL session)
           (fatal (ReconnectedFromUnboundNode rank node_id) c),
         (false, NodeMismatch))
      else if bool_decide (RankSession.state session = TERMINAL)
      then (c, (false, SessionIsTerminal))
      else if from_option (past_grace (limits c) (default clk now)) false
                (RankSession.loss_time session)
      then
        (put rank (RankSession.set_state TERMINAL session) (fatal (ReconnectGraceExpired rank) c),
         (false, GraceExpired))
      else
        (put rank
           (RankSession.set_state AUTHENTICATED
              (RankSession.set_instance instance_id
                 (RankSession.set_snapshot "" "" ""
                    (RankSession.set_receipt_accepted false
                       (RankSession.set_snapshot_accepted false
                          (RankSession.add_reconnect session)))))) c,
         (true, Reconnected))
  end.

Definition protocol_violation (rank : Z) (what : string) (c : t) : t :=
  let c1 :=
    match sessions c !! rank with
    | Some session => put rank (RankSession.set_state TERMINAL session) c
    | None => c
    end in
  fatal (RankProtocolViolation rank what) (set_assemblies (delete rank (assemblies c1)) c1).

Definition accept_incremental (rank : Z) (c : t) : bool * reply :=
  match sessions c !! rank with
  | None => (false, UnknownRank)
  | Some session =>
      if negb (RankSession.is_established session) || negb (RankSession.snapshot_accepted session)
      then (false, IncrementalBeforeSnapshot)
      else (true, IncrementalAccepted)
  end.

Definition grace_expired (l : ControlLimits.t) (now : float) (s : RankSession.t) : bool :=
  bool_decide (RankSession.state s = LOST)
  && from_option (past_grace l now) false (RankSession.loss_time s).

Definition check_grace_deadlines (clk : float) (now : option float) (c : t) : t * list Z :=
  let now := default clk now in
  let expired := ranks_where (grace_expired (limits c) now) c in
  let c1 :=
    set_sessions
      ((fun s => if grace_expired (limits c) now s then RankSession.set_state TERMINAL s else s)
         <$> sessions c) c in
  (match expired with [] => c1 | _ => fatal (GraceExpiredForRanks expired) c1 end, expired).

Definition cleanup_deadline_for (rank : Z) (c : t) : option float :=
  match sessions c !! rank with
  | None => None
  | Some session =>
      match RankSession.loss_time session with
      | None => None
      | Some loss =>
          Some (Float.add (Float.add loss (ControlLimits.reconnect_grace_s (limits c)))
                  (ControlLimits.watchdog_cleanup_deadline_s (limits c)))
      end
  end.
End SessionCoordinator.

(** ** How the head's channel drives the coordinator
    (src/exaserve/control/channel_runtime.py) *)

Module HeadDriver.
Import SessionCoordinator.

(** [HeadChannel._on_register]: a lost rank reconnects, any other registers. *)
Definition on_register (clk : float) (rank : Z) (node_id instance_id : string) (c : t)
    : t * (bool * reply) :=
  match sessions c !! rank with
  | Some session =>
      if bool_decide (RankSession.state session = LOST)
      then reconnect clk rank node_id instance_id None c
      else register clk rank node_id instance_id c
  | None => register clk rank node_id instance_id c
  end.

(** The coordinator part of [HeadChannel._on_snapshot]: the transport has already
    reassembled the items, so they are handed over as one chunk. *)
Definition on_snapshot (canonical_hash : list value -> string) (clk : float) (rank : Z)
    (snapshot_id complete_hash : string) (items : list value) (c : t) : t * (bool * reply) :=
  let '(c1, (ok1, r1)) := begin_snapshot clk rank snapshot_id 1 complete_hash c in
  if negb ok1 then (c1, (false, r1))
  else
    let '(c2, (ok2, r2)) := add_snapshot_chunk clk rank 0 items c1 in
    if negb ok2 then (c2, (false, r2))
    else complete_snapshot canonical_hash clk rank (Some complete_hash) true c2.

(** The coordinator part of [HeadChannel.poll]. *)
Definition poll (clk : float) (c : t) : t * option reason :=
  let c1 := (poll_leases clk None c).1 in
  let c2 := (check_registration_deadline clk c1).1 in
  let c3 := (check_grace_deadlines clk None c2).1 in
  (c3, terminal_reason c3).
End HeadDriver.
