(* ===== verification/SessionProps.v ===== *)
(** Theorems on the control-session state machine of [Session].

    [step] is one call of a coordinator method; [inv] is the invariant of every
    state the methods can reach. The theorems state the START barrier, the
    finality of a terminal generation, the exactness of an accepted snapshot,
    the anchoring of loss times, and where the reconnect grace is lost. *)

From S2P Require Import Prelude.
From S2P Require Import PyValue.
From S2P Require Import Contracts.
From S2P Require Import Session.

Import SessionCoordinator.

(** ** Steps *)

Section Steps.
Context (canonical_hash : list value -> string).

(** One call of a method of the coordinator. *)
Inductive event : Type :=
| EBeginRegistration (clk : float)
| ERegister (clk : float) (rank : Z) (node_id instance_id : string)
| EBeginSnapshot (clk : float) (rank : Z) (snapshot_id : string) (total : Z) (hash : string)
| EAddChunk (clk : float) (rank index : Z) (payload : list value)
| ECompleteSnapshot (clk : float) (rank : Z) (verify_hash : option string) (receipt : bool)
| EAcknowledge (clk : float) (rank : Z) (command_id snapshot_id hash : string) (succeeded : bool)
| EStart
| ERegistrationDeadline (clk : float)
| EDisconnect (clk : float) (rank : Z) (expected : bool) (now : option float)
| EDrain (rank : Z)
| EHeartbeat (clk : float) (rank : Z) (now : option float)
| EPollLeases (clk : float) (now : option float)
| EReconnect (clk : float) (rank : Z) (node_id instance_id : string) (now : option float)
| EViolation (rank : Z) (what : string)
| EGraceDeadlines (clk : float) (now : option float).

Definition exec (e : event) (c : t) : t :=
  match e with
  | EBeginRegistration clk => (begin_registration clk c).1
  | ERegister clk rank node inst => (register clk rank node inst c).1
  | EBeginSnapshot clk rank sid total h => (begin_snapshot clk rank sid total h c).1
  | EAddChunk clk rank i payload => (add_snapshot_chunk clk rank i payload c).1
  | ECompleteSnapshot clk rank vh sr => (complete_snapshot canonical_hash clk rank vh sr c).1
  | EAcknowledge clk rank cmd sid h ok => (acknowledge_snapshot clk rank cmd sid h ok c).1
  | EStart => (start c).1
  | ERegistrationDeadline clk => (check_registration_deadline clk c).1
  | EDisconnect clk rank expected now => (on_disconnect clk rank expected now c).1
  | EDrain rank => request_drain rank c
  | EHeartbeat clk rank now => on_heartbeat clk rank now c
  | EPollLeases clk now => (poll_leases clk now c).1
  | EReconnect clk rank node inst now => (reconnect clk rank node inst now c).1
  | EViolation rank what => protocol_violation rank what c
  | EGraceDeadlines clk now => (check_grace_deadlines clk now c).1
  end.

(** A history of calls. *)
Definition run (tr : list event) (c : t) : t := fold_left (fun c e => exec e c) tr c.

(** The states one generation can be in. *)
Definition reachable (b : AllocationBinding.t) (l : ControlLimits.t) (c : t) : Prop :=
  exists tr, c = run tr (init b l).

(** ** The invariant *)

(** What the assembly of one rank satisfies. *)
Definition assembly_ok (a : SnapshotAssembly.t) : Prop :=
  forall i, is_Some (SnapshotAssembly.chunks a !! i) -> 0 <= i < SnapshotAssembly.total_chunks a.

(** States in which no snapshot is in flight. *)
Definition settled (st : SessionState) : Prop :=
  st = EXPECTED \/ st = SNAPSHOT_ACK_PENDING \/ st = ESTABLISHED \/ st = LOST.

(** What the session and the assembly of one rank satisfy together. *)
Definition session_ok (rank : Z) (a : option SnapshotAssembly.t) (s : RankSession.t) : Prop :=
  RankSession.rank s = rank
  /\ (RankSession.state s = ESTABLISHED -> RankSession.snapshot_accepted s = true)
  /\ (RankSession.state s = ESTABLISHED \/ RankSession.state s = SNAPSHOT_ACK_PENDING ->
        RankSession.supervisor_receipt_accepted s = true /\ RankSession.loss_time s = None
        /\ is_Some (RankSession.last_heartbeat_at s)
        /\ RankSession.snapshot_command_id s = snapshot_command rank (RankSession.snapshot_id s))
  /\ (RankSession.state s = LOST -> is_Some (RankSession.loss_time s))
  /\ (RankSession.state s = EXPECTED -> RankSession.loss_time s = None)
  /\ (is_Some a -> ~ settled (RankSession.state s)).

Definition inv (c : t) : Prop :=
  dom (sessions c) = list_to_set (session_order c)
  /\ (generation_state c = GEN_TERMINAL <-> is_Some (terminal_reason c))
  /\ (forall rank s, sessions c !! rank = Some s -> session_ok rank (assemblies c !! rank) s)
  /\ (forall rank a, assemblies c !! rank = Some a -> assembly_ok a).

(** ** Preservation *)

(** The fields [fatal] leaves alone, and what it establishes. *)
Lemma fatal_sessions r c : sessions (fatal r c) = sessions c.
Proof. unfold fatal. by case_bool_decide. Qed.
Lemma fatal_assemblies r c : assemblies (fatal r c) = assemblies c.
Proof. unfold fatal. by case_bool_decide. Qed.
Lemma fatal_binding r c : binding (fatal r c) = binding c.
Proof. unfold fatal. by case_bool_decide. Qed.
Lemma fatal_limits r c : limits (fatal r c) = limits c.
Proof. unfold fatal. by case_bool_decide. Qed.
Lemma fatal_generation r c : generation_state (fatal r c) = GEN_TERMINAL.
Proof. unfold fatal. by case_bool_decide. Qed.
Lemma fatal_reason r c :
  (generation_state c = GEN_TERMINAL -> is_Some (terminal_reason c)) ->
  is_Some (terminal_reason (fatal r c)).
Proof. unfold fatal. case_bool_decide; naive_solver. Qed.

Lemma init_inv b l : inv (init b l).
Proof.
  split; [|split; [|split]]; cbn.
  - rewrite dom_list_to_map_L. unfold session_order. cbn. f_equal.
    rewrite <- list_fmap_compose. apply list_fmap_id.
  - split; [done|]. by intros [].
  - intros rank s Hs%elem_of_list_to_map_2. apply list_elem_of_fmap in Hs as (r & [= -> ->] & _).
    rewrite lookup_empty. split_and!; cbn; try done; try naive_solver.
  - intros rank a. by rewrite lookup_empty.
Qed.

(** A method that touches one rank preserves the invariant when the new session
    and assembly of that rank satisfy it. *)
Lemma inv_update c c' rank s s' :
  inv c ->
  binding c' = binding c ->
  (generation_state c' = GEN_TERMINAL <-> is_Some (terminal_reason c')) ->
  sessions c !! rank = Some s ->
  sessions c' = <[rank := s']> (sessions c) ->
  (forall r, r <> rank -> assemblies c' !! r = assemblies c !! r) ->
  session_ok rank (assemblies c' !! rank) s' ->
  (forall a, assemblies c' !! rank = Some a -> assembly_ok a) ->
  inv c'.
Proof.
  intros (Hdom & _ & Hs & Ha) Hb Hg Hr Hs' Has Hok Haok. split; [|split; [|split]]; [|done|..].
  - rewrite Hs', dom_insert_lookup_L by eauto. unfold session_order. by rewrite Hb.
  - intros r s0. rewrite Hs'. destruct (decide (r = rank)) as [->|Hne].
    + rewrite lookup_insert_eq. by intros [= <-].
    + rewrite lookup_insert_ne, Has by done. apply Hs.
  - intros r a. destruct (decide (r = rank)) as [->|Hne]; [apply Haok|]. rewrite Has by done.
    apply Ha.
Qed.

(** The same when only the session of the rank changes. *)
Lemma inv_put c rank s s' :
  inv c -> sessions c !! rank = Some s -> session_ok rank (assemblies c !! rank) s' ->
  inv (put rank s' c).
Proof. intros Hi Hr Hok. eapply inv_update; eauto; try done; apply Hi. Qed.

Lemma inv_fatal r c : inv c -> inv (fatal r c).
Proof.
  intros (Hdom & Hg & Hs & Ha). split; [|split; [|split]].
  - unfold session_order. by rewrite fatal_sessions, fatal_binding.
  - rewrite fatal_generation. split; [|done]. intros _. apply fatal_reason, Hg.
  - by rewrite fatal_sessions, fatal_assemblies.
  - by rewrite fatal_assemblies.
Qed.

(** Marking one session TERMINAL is always allowed. *)
Lemma session_ok_terminal rank a s :
  RankSession.rank s = rank -> session_ok rank a (RankSession.set_state TERMINAL s).
Proof.
  intros Hr. split_and!; cbn; try done; try naive_solver. unfold settled. naive_solver.
Qed.

Lemma inv_put_fatal r c rank s :
  inv c -> sessions c !! rank = Some s ->
  inv (put rank (RankSession.set_state TERMINAL s) (fatal r c)).
Proof.
  intros Hi Hs. eapply inv_put; [by apply inv_fatal|by rewrite fatal_sessions|].
  apply session_ok_terminal. by destruct Hi as (_ & _ & H & _), (H _ _ Hs).
Qed.

#[local] Hint Resolve inv_fatal inv_put_fatal session_ok_terminal : exaserve.

Ltac session_cases :=
  split_and!; cbn; unfold settled; try done; try naive_solver.

Lemma register_inv clk rank node inst c : inv c -> inv (register clk rank node inst c).1.
Proof.
  intros Hi. unfold register, register_bound.
  destruct (sessions c !! rank) as [s|] eqn:Hs; [|done].
  destruct (started_at c); [|done]. case_match; cbn; [by apply inv_put_fatal|].
  case_match; cbn; [done|]. eapply inv_put; [done..|].
  destruct Hi as (_ & _ & Hi & _). destruct (Hi _ _ Hs) as (Hr & _).
  session_cases.
Qed.

Lemma begin_snapshot_inv clk rank sid total h c :
  inv c -> inv (begin_snapshot clk rank sid total h c).1.
Proof.
  intros Hi. unfold begin_snapshot. destruct (sessions c !! rank) as [s|] eqn:Hs; [|done].
  do 3 (case_match; [done|]).
  destruct (assemblies c !! rank) as [a|] eqn:Ha; [by case_match|]. cbn.
  pose proof Hi as (_ & Hg & Hi' & _). destruct (Hi' _ _ Hs) as (Hr & _).
  eapply inv_update; [exact Hi|done|done|exact Hs|done|..]; cbn.
  - intros r Hne. by rewrite lookup_insert_ne.
  - session_cases.
  - intros a. rewrite lookup_insert_eq. intros [= <-] i. cbn. rewrite lookup_empty. by intros [].
Qed.

Lemma add_ok a i payload : assembly_ok a -> assembly_ok (SnapshotAssembly.add a i payload).1.
Proof.
  intros Ha. unfold SnapshotAssembly.add. case_match eqn:Hi; [done|].
  apply orb_false_elim in Hi as [Hi1%Z.ltb_ge Hi2%Z.leb_gt].
  assert (assembly_ok (SnapshotAssembly.set_chunks
    (<[i:=payload]> (SnapshotAssembly.chunks a)) a)) as Hok; [|cbv zeta; repeat case_match; done].
  intros j. cbn. destruct (decide (j = i)) as [->|]; [intros; lia|].
  rewrite lookup_insert_ne by done. apply Ha.
Qed.

Lemma inv_drop_assembly rank c :
  inv c -> inv (set_assemblies (delete rank (assemblies c)) c).
Proof.
  intros (Hdom & Hg & Hs & Ha). split; [done|split; [done|split]]; cbn.
  - intros r s Hrs. destruct (Hs _ _ Hrs) as (? & ? & ? & ? & ? & Hset). split_and!; try done.
    destruct (decide (r = rank)) as [->|]; [rewrite lookup_delete_eq; by intros []|].
    by rewrite lookup_delete_ne.
  - intros r a. rewrite lookup_delete_Some. naive_solver.
Qed.

Lemma add_snapshot_chunk_inv clk rank i payload c :
  inv c -> inv (add_snapshot_chunk clk rank i payload c).1.
Proof.
  intros Hi. unfold add_snapshot_chunk.
  destruct (assemblies c !! rank) as [a|] eqn:Hr; [|done]. case_match.
  - by apply inv_drop_assembly.
  - destruct Hi as (Hdom & Hg & Hs & Ha).
    destruct (SnapshotAssembly.add a i payload) as [a' r] eqn:Hadd.
    pose proof (add_ok a i payload (Ha _ _ Hr)) as Hok. rewrite Hadd in Hok.
    split; [done|split; [done|split]]; cbn.
    + intros r0 s Hrs. destruct (Hs _ _ Hrs) as (? & ? & ? & ? & ? & Hset). split_and!; try done.
      destruct (decide (r0 = rank)) as [->|]; [intros _; apply Hset; by rewrite Hr|].
      by rewrite lookup_insert_ne.
    + intros r0 a0. rewrite lookup_insert_Some. naive_solver.
Qed.

Lemma complete_snapshot_inv clk rank vh sr c :
  inv c -> inv (complete_snapshot canonical_hash clk rank vh sr c).1.
Proof.
  intros Hi. unfold complete_snapshot.
  destruct (assemblies c !! rank) as [a|] eqn:Ha; [|done].
  destruct (sessions c !! rank) as [s|] eqn:Hs; [|done].
  case_match; [done|]. cbv zeta.
  pose proof Hi as (_ & Hg & Hall & _). destruct (Hall _ _ Hs) as (Hr & Hok).
  rewrite Ha in Hok.
  assert (~ settled (RankSession.state s)) as Hset by (apply Hok; eauto).
  assert (forall s', session_ok rank None s' ->
    inv (put rank s' (set_assemblies (delete rank (assemblies c)) c))) as Hput.
  { intros s' Hs'. eapply inv_update; [exact Hi|done|done|exact Hs|done|..]; cbn.
    - intros r Hne. by rewrite lookup_delete_ne.
    - by rewrite lookup_delete_eq.
    - intros a'. by rewrite lookup_delete_eq. }
  unfold settled in Hset. set (expected := match vh with Some _ => _ | None => _ end).
  destruct (nonempty expected && _); cbn.
  - replace (set_assemblies _ c) with (put rank s (set_assemblies (delete rank (assemblies c)) c)).
    + apply Hput. session_cases.
    + unfold put, set_sessions. cbn. by rewrite insert_id.
  - destruct (sr || _) eqn:Hsr; cbn; apply Hput; session_cases.
Qed.

Lemma acknowledge_snapshot_inv clk rank cmd sid h ok c :
  inv c -> inv (acknowledge_snapshot clk rank cmd sid h ok c).1.
Proof.
  intros Hi. unfold acknowledge_snapshot. destruct (sessions c !! rank) as [s|] eqn:Hs; [|done].
  case_match eqn:Hst; [done|]. repeat (case_match; [done|]). cbn.
  pose proof Hi as (_ & _ & Hall & _). destruct (Hall _ _ Hs) as (Hr & _ & Hack & _ & _ & Hset).
  bool_prop. unfold settled in Hset. eapply inv_put; [done..|]. session_cases.
Qed.

Lemma on_disconnect_inv clk rank expected now c :
  inv c -> inv (on_disconnect clk rank expected now c).1.
Proof.
  intros Hi. unfold on_disconnect. destruct (sessions c !! rank) as [s|] eqn:Hs; [|done].
  pose proof Hi as (_ & Hg & Hall & _). destruct (Hall _ _ Hs) as (Hr & _).
  case_match; cbn; [eapply inv_put; eauto with exaserve|].
  case_match; cbn;
    (eapply inv_update; [exact Hi|done|done|exact Hs|done|..]; cbn;
     [intros r Hne; by rewrite lookup_delete_ne
     |rewrite lookup_delete_eq; session_cases
     |intros a'; by rewrite lookup_delete_eq]).
Qed.

Lemma on_heartbeat_inv clk rank now c : inv c -> inv (on_heartbeat clk rank now c).
Proof.
  intros Hi. unfold on_heartbeat. destruct (sessions c !! rank) as [s|] eqn:Hs; [|done].
  case_match; [|done]. pose proof Hi as (_ & _ & Hall & _).
  destruct (Hall _ _ Hs) as (Hr & H1 & H2 & H3 & H4 & H5).
  eapply inv_put; [done..|]. session_cases.
Qed.

Lemma reconnect_inv clk rank node inst now c : inv c -> inv (reconnect clk rank node inst now c).1.
Proof.
  intros Hi. unfold reconnect. destruct (sessions c !! rank) as [s|] eqn:Hs; [|done].
  pose proof Hi as (_ & _ & Hall & _). destruct (Hall _ _ Hs) as (Hr & _).
  case_match; cbn; [by apply inv_put_fatal|]. case_match; cbn; [done|].
  case_match; cbn; [by apply inv_put_fatal|]. eapply inv_put; [done..|]. session_cases.
Qed.

(** A pass over all sessions that keeps the per-rank invariant. *)
Lemma inv_map f c :
  inv c ->
  (forall rank s, sessions c !! rank = Some s -> session_ok rank (assemblies c !! rank) (f s)) ->
  inv (set_sessions (f <$> sessions c) c).
Proof.
  intros (Hdom & Hg & Hs & Ha) Hf. split; [|split; [|split]]; cbn; try done.
  - by rewrite dom_fmap_L.
  - intros rank s. rewrite lookup_fmap. intros (s0 & Hs0 & ->)%fmap_Some. by apply Hf.
Qed.

Lemma poll_leases_inv clk now c : inv c -> inv (poll_leases clk now c).1.
Proof.
  intros Hi. unfold poll_leases. cbn. apply inv_map; [done|]. intros rank s Hs.
  pose proof Hi as (_ & _ & Hall & _). pose proof (Hall _ _ Hs) as Hok.
  destruct (lease_expired _ _ _) eqn:Hexp; [|done]. unfold lease_expired in Hexp. bool_prop.
  destruct Hok as (Hr & H1 & H2 & H3 & H4 & H5). unfold settled in H5.
  destruct (RankSession.last_heartbeat_at s) eqn:Hhb; [|done].
  split_and!; cbn; rewrite ?Hhb; cbn; unfold settled; naive_solver.
Qed.

Lemma check_grace_deadlines_inv clk now c : inv c -> inv (check_grace_deadlines clk now c).1.
Proof.
  intros Hi. unfold check_grace_deadlines. cbn [fst]. set (c1 := set_sessions _ c).
  assert (inv c1) as Hc1; [|by case_match; [|apply inv_fatal]].
  apply inv_map; [done|]. intros rank s Hs. pose proof Hi as (_ & _ & Hall & _).
  case_match; [|by apply Hall]. apply session_ok_terminal. apply (Hall _ _ Hs).
Qed.

Lemma protocol_violation_inv rank what c : inv c -> inv (protocol_violation rank what c).
Proof.
  intros Hi. unfold protocol_violation. apply inv_fatal, inv_drop_assembly.
  case_match eqn:Hs; [|done]. pose proof Hi as (_ & _ & Hall & _). destruct (Hall _ _ Hs) as (Hr & _).
  eapply inv_put; eauto with exaserve.
Qed.

Lemma check_registration_deadline_inv clk c :
  inv c -> inv (check_registration_deadline clk c).1.
Proof.
  intros Hi. unfold check_registration_deadline. repeat case_match; cbn; try done.
  by apply inv_fatal.
Qed.

Lemma may_start_true c r :
  may_start c = (true, r) -> generation_state c <> GEN_TERMINAL /\ all_registered c = true.
Proof.
  unfold may_start. destruct (bool_decide _) eqn:Ht; [done|].
  destruct (all_registered c) eqn:Ha; cbn; [|done]. bool_prop. done.
Qed.

Lemma start_inv c : inv c -> inv (start c).1.
Proof.
  intros (Hdom & Hg & Hs & Ha). unfold start. destruct (may_start c) as [[] r] eqn:Hm; [|done].
  apply may_start_true in Hm as [Ht _].
  split; [done|split; [|done]]. cbn. split; [done|]. intros Hr. by apply Hg in Hr.
Qed.

Lemma exec_inv e c : inv c -> inv (exec e c).
Proof.
  intros Hi. destruct e; cbn [exec].
  - unfold begin_registration. by repeat case_match.
  - by apply register_inv.
  - by apply begin_snapshot_inv.
  - by apply add_snapshot_chunk_inv.
  - by apply complete_snapshot_inv.
  - by apply acknowledge_snapshot_inv.
  - by apply start_inv.
  - by apply check_registration_deadline_inv.
  - by apply on_disconnect_inv.
  - done.
  - by apply on_heartbeat_inv.
  - by apply poll_leases_inv.
  - by apply reconnect_inv.
  - by apply protocol_violation_inv.
  - by apply check_grace_deadlines_inv.
Qed.

(** Induction over a history. *)
Lemma session_run_ind (P : t -> Prop) tr c :
  P c -> (forall e c, P c -> P (exec e c)) -> P (run tr c).
Proof.
  intros Hc Hstep. unfold run. revert c Hc. induction tr as [|e tr IH]; intros c Hc; cbn; eauto.
Qed.

Lemma reachable_inv b l c : reachable b l c -> inv c.
Proof. intros [tr ->]. apply session_run_ind; [apply init_inv|]. intros. by apply exec_inv. Qed.

(** ** The plan-derived fields never change *)

Ltac exec_cases := 
  cbn [exec]; unfold begin_registration, register, register_bound, begin_snapshot,
    add_snapshot_chunk, complete_snapshot, acknowledge_snapshot, start, check_registration_deadline,
    on_disconnect, on_heartbeat, reconnect, protocol_violation, poll_leases, check_grace_deadlines;
  cbv zeta; repeat case_match; cbn; rewrite ?fatal_binding, ?fatal_limits; try done.

Lemma exec_binding e c : binding (exec e c) = binding c.
Proof. destruct e; exec_cases. Qed.

Lemma exec_limits e c : limits (exec e c) = limits c.
Proof. destruct e; exec_cases. Qed.

Lemma reachable_binding b l c : reachable b l c -> binding c = b /\ limits c = l.
Proof.
  intros [tr ->]. apply (session_run_ind (fun c => binding c = b /\ limits c = l)); [done|].
  intros e c. by rewrite exec_binding, exec_limits.
Qed.

(** ** Which ranks are established *)

Lemma elem_of_session_order c rank :
  inv c -> rank ∈ session_order c <-> is_Some (sessions c !! rank).
Proof.
  intros (Hdom & _). rewrite <- elem_of_dom, Hdom. by rewrite elem_of_list_to_set.
Qed.

Lemma elem_of_ranks_where f c rank :
  inv c -> rank ∈ ranks_where f c <-> exists s, sessions c !! rank = Some s /\ f s = true.
Proof.
  intros Hi. unfold ranks_where. rewrite list_elem_of_filter, elem_of_session_order by done.
  destruct (sessions c !! rank); cbn; naive_solver.
Qed.

Lemma is_established_spec s :
  RankSession.is_established s = true <-> RankSession.state s = ESTABLISHED.
Proof. apply bool_decide_eq_true. Qed.

Lemma elem_of_revoked c rank :
  inv c ->
  rank ∈ readiness_revoked_ranks c <->
  exists s, sessions c !! rank = Some s /\ RankSession.state s <> ESTABLISHED.
Proof.
  intros Hi. unfold readiness_revoked_ranks, not_established_ranks.
  rewrite elem_of_sortedZ, elem_of_ranks_where by done.
  setoid_rewrite negb_true_iff. unfold RankSession.is_established.
  by setoid_rewrite bool_decide_eq_false.
Qed.

Lemma established_registered rank a s :
  session_ok rank a s -> registered s = true <-> RankSession.state s = ESTABLISHED.
Proof.
  intros (_ & Hacc & Hrec & _). unfold registered.
  rewrite !andb_true_iff, is_established_spec. naive_solver.
Qed.

Lemma all_registered_spec c :
  inv c -> all_registered c = true <-> readiness_revoked_ranks c = [].
Proof.
  intros Hi. unfold all_registered. rewrite bool_decide_eq_true. split.
  - intros Hall. apply elem_of_nil_inv. intros rank (s & Hs & Hne)%elem_of_revoked; [|done].
    apply Hne. eapply established_registered; [by apply Hi|by apply (Hall rank)].
  - intros Hnil rank s Hs. eapply established_registered; [by apply Hi|].
    destruct (decide (RankSession.state s = ESTABLISHED)) as [|Hne]; [done|].
    assert (rank ∈ readiness_revoked_ranks c) as Hin by (apply elem_of_revoked; eauto).
    rewrite Hnil in Hin. by apply not_elem_of_nil in Hin.
Qed.

Lemma start_ok_spec c :
  (start c).2.1 = true <-> generation_state c <> GEN_TERMINAL /\ all_registered c = true.
Proof.
  unfold start. destruct (may_start c) as [[] r] eqn:Hm; cbn.
  - split; [|done]. intros _. by eapply may_start_true.
  - split; [done|]. unfold may_start in Hm. destruct (bool_decide _) eqn:Ht; bool_prop; [naive_solver|].
    destruct (all_registered c); [done|naive_solver].
Qed.

(** C1: START is the registration barrier: in every reachable state [start] succeeds
    exactly when the generation is not terminal and no planned rank is revoked,
    and then every rank of the binding has completed the whole handshake. *)
Theorem start_barrier b l c :
  reachable b l c ->
  ((start c).2.1 = true <->
     generation_state c <> GEN_TERMINAL /\ readiness_revoked_ranks c = []) /\
  ((start c).2.1 = true ->
     generation_state (start c).1 = GEN_STARTED /\
     forall rank, rank ∈ AllocationBinding.ranks b ->
     exists s, sessions c !! rank = Some s /\ RankSession.state s = ESTABLISHED /\
       RankSession.snapshot_accepted s = true /\
       RankSession.supervisor_receipt_accepted s = true /\
       RankSession.snapshot_command_id s = snapshot_command rank (RankSession.snapshot_id s)).
Proof.
  intros Hr. pose proof (reachable_inv _ _ _ Hr) as Hi.
  rewrite start_ok_spec, <- all_registered_spec by done. split; [done|].
  intros [Ht Hall]. split.
  { unfold start. destruct (may_start c) as [[] r] eqn:Hm; [done|]. exfalso.
    pose proof (proj2 (start_ok_spec c) (conj Ht Hall)) as Hok.
    unfold start in Hok. by rewrite Hm in Hok. }
  intros rank Hrank.
  destruct (reachable_binding _ _ _ Hr) as [Hb _].
  assert (is_Some (sessions c !! rank)) as [s Hs].
  { apply elem_of_session_order; [done|]. unfold session_order. by rewrite Hb. }
  pose proof Hi as (_ & _ & Hok & _). specialize (Hok _ _ Hs).
  apply all_registered_spec in Hall; [|done].
  destruct (decide (RankSession.state s = ESTABLISHED)) as [He|Hne].
  - exists s. destruct Hok as (_ & H1 & H2 & _). naive_solver.
  - exfalso. assert (rank ∈ readiness_revoked_ranks c) as Hin by (apply elem_of_revoked; eauto).
    rewrite Hall in Hin. by apply not_elem_of_nil in Hin.
Qed.

(** ** A terminal generation is final *)

Lemma fatal_keeps r c : generation_state c = GEN_TERMINAL -> fatal r c = c.
Proof. intros H. unfold fatal. by rewrite bool_decide_true. Qed.

Lemma start_terminal c : generation_state c = GEN_TERMINAL -> (start c).1 = c.
Proof. intros H. unfold start, may_start. by rewrite bool_decide_true. Qed.

Lemma exec_terminal e c :
  generation_state c = GEN_TERMINAL ->
  generation_state (exec e c) = GEN_TERMINAL /\ terminal_reason (exec e c) = terminal_reason c.
Proof.
  intros H. destruct e; try (cbn [exec]; by rewrite start_terminal);
    exec_cases; try (by rewrite H in *); rewrite ?fatal_keeps by done; done.
Qed.

(** Once a generation is terminal no later call of any method revives it, and the
    reason recorded first is never overwritten. *)
Theorem generation_terminal_final tr c :
  generation_state c = GEN_TERMINAL ->
  generation_state (run tr c) = GEN_TERMINAL /\ terminal_reason (run tr c) = terminal_reason c /\
  (start (run tr c)).2.1 = false.
Proof.
  intros H.
  assert (generation_state (run tr c) = GEN_TERMINAL
          /\ terminal_reason (run tr c) = terminal_reason c) as [Hg Hr].
  { apply (session_run_ind (fun c' => generation_state c' = GEN_TERMINAL
                              /\ terminal_reason c' = terminal_reason c)); [done|].
    intros e c' [Hg Hr]. destruct (exec_terminal e c' Hg) as [? ->]. done. }
  split_and!; [done..|]. destruct ((start (run tr c)).2.1) eqn:Hs; [|done].
  apply start_ok_spec in Hs as [? _]. done.
Qed.

(** ** The only way to become established *)

(** The session a method leaves under [rank], case by case. *)
Ltac lookup_cases H :=
  cbn in H; rewrite ?fatal_sessions in H; cbn in H;
  repeat (rewrite ?lookup_fmap, ?lookup_insert in H; cbn in H;
    first [ case_decide; simplify_eq | progress simplify_option_eq | idtac ]).

Lemma exec_not_established e c rank s s' :
  sessions c !! rank = Some s -> RankSession.state s <> ESTABLISHED ->
  sessions (exec e c) !! rank = Some s' -> RankSession.state s' = ESTABLISHED ->
  RankSession.state s = SNAPSHOT_ACK_PENDING /\
  exists clk, e = EAcknowledge clk rank (RankSession.snapshot_command_id s)
                    (RankSession.snapshot_id s) (RankSession.complete_set_hash s) true.
Proof.
  intros Hs Hne Hs' He. destruct e; cbn [exec] in Hs';
    unfold begin_registration, register, register_bound, begin_snapshot,
      add_snapshot_chunk, complete_snapshot, acknowledge_snapshot, start,
      check_registration_deadline, on_disconnect, on_heartbeat, reconnect, protocol_violation,
      poll_leases, check_grace_deadlines, request_drain in Hs'; cbv zeta in Hs';
    repeat case_match; lookup_cases Hs'; simplify_eq; try done.
  all: try (rewrite Hs in Hs'; cbn in Hs'; simplify_eq; repeat case_match; simplify_eq; done).
  all: try (bool_prop; naive_solver).
  all: repeat case_match; done.
Qed.

Lemma exec_lookup_None e c rank :
  inv c -> sessions c !! rank = None -> sessions (exec e c) !! rank = None.
Proof.
  intros Hi Hn. pose proof (exec_inv e c Hi) as Hi'.
  destruct (sessions (exec e c) !! rank) as [s'|] eqn:Hs'; [|done].
  assert (rank ∈ session_order (exec e c)) as Hin by (apply elem_of_session_order; eauto).
  unfold session_order in Hin. rewrite exec_binding in Hin.
  apply (elem_of_session_order c rank Hi) in Hin as [? Hs]. congruence.
Qed.

Lemma accept_incremental_spec c rank :
  inv c ->
  (accept_incremental rank c).1 = true <->
  exists s, sessions c !! rank = Some s /\ RankSession.state s = ESTABLISHED.
Proof.
  intros Hi. unfold accept_incremental. destruct (sessions c !! rank) as [s|] eqn:Hs; cbn.
  - pose proof Hi as (_ & _ & Hok & _). destruct (Hok _ _ Hs) as (_ & Hacc & _).
    rewrite <- negb_andb. destruct (RankSession.is_established s) eqn:He; cbn.
    + apply is_established_spec in He. rewrite Hacc by done. naive_solver.
    + unfold RankSession.is_established in He. bool_prop. naive_solver.
  - naive_solver.
Qed.

(** Is [e] an acknowledgment from [rank]? *)
Definition acknowledges (rank : Z) (e : event) : bool :=
  match e with EAcknowledge _ r _ _ _ _ => r =? rank | _ => false end.

(** A rank whose incremental observations are refused (never connected, lost,
    reconnecting, assembling) stays refused until an acknowledgment of its own
    complete snapshot is processed, whatever else is called in between. *)
Theorem incremental_needs_acknowledged_snapshot b l c rank tr :
  reachable b l c ->
  (accept_incremental rank c).1 = false ->
  Forall (fun e => acknowledges rank e = false) tr ->
  (accept_incremental rank (run tr c)).1 = false.
Proof.
  intros Hr%reachable_inv Hf Htr.
  assert (forall c, inv c -> (accept_incremental rank c).1 = false <->
            forall s, sessions c !! rank = Some s -> RankSession.state s <> ESTABLISHED) as Hspec.
  { intros c0 Hi0. rewrite <- not_true_iff_false, accept_incremental_spec by done. naive_solver. }
  rewrite Hspec in Hf by done. unfold run. revert c Hr Hf.
  induction Htr as [|e tr He Htr IH]; intros c Hr Hf; cbn; [by apply Hspec|].
  apply IH; [by apply exec_inv|]. intros s' Hs' Hest.
  destruct (sessions c !! rank) as [s|] eqn:Hs.
  - destruct (exec_not_established e c rank s s') as (_ & clk & ->); eauto.
    cbn in He. bool_prop. congruence.
  - rewrite exec_lookup_None in Hs' by done. done.
Qed.

(** The registration barrier is crossed only from [SNAPSHOT_ACK_PENDING] and only
    by the acknowledgment that names the exact command, snapshot and set hash of
    the snapshot the head validated. *)
Theorem established_only_by_exact_acknowledgment b l c e rank s s' :
  reachable b l c ->
  sessions c !! rank = Some s -> RankSession.state s <> ESTABLISHED ->
  sessions (exec e c) !! rank = Some s' -> RankSession.state s' = ESTABLISHED ->
  RankSession.state s = SNAPSHOT_ACK_PENDING /\
  RankSession.supervisor_receipt_accepted s = true /\
  assemblies c !! rank = None /\
  exists clk, e = EAcknowledge clk rank (snapshot_command rank (RankSession.snapshot_id s))
                    (RankSession.snapshot_id s) (RankSession.complete_set_hash s) true.
Proof.
  intros Hr%reachable_inv Hs Hne Hs' Hest.
  destruct (exec_not_established e c rank s s') as (Hst & clk & ->); [done..|].
  destruct Hr as (_ & _ & Hok & _). destruct (Hok _ _ Hs) as (_ & _ & Hack & _ & _ & Hset).
  destruct (Hack (or_intror Hst)) as (Hrec & _ & _ & Hcmd).
  split_and!; [done|done| |exists clk; by rewrite <- Hcmd].
  destruct (assemblies c !! rank); [|done]. exfalso. apply Hset; [done|]. unfold settled. auto.
Qed.

(** ** Accepted snapshots are complete *)

Lemma complete_chunks a :
  assembly_ok a -> SnapshotAssembly.is_complete a = true ->
  dom (SnapshotAssembly.chunks a) = list_to_set (seqZ 0 (SnapshotAssembly.total_chunks a)).
Proof.
  intros Hok Hc. unfold SnapshotAssembly.is_complete in Hc. apply Z.eqb_eq in Hc.
  apply set_subseteq_size_eq.
  - intros i [x Hx]%elem_of_dom. apply elem_of_list_to_set, elem_of_seqZ.
    assert (0 <= i < SnapshotAssembly.total_chunks a); [by apply Hok; rewrite Hx|lia].
  - rewrite size_list_to_set by apply NoDup_seqZ. rewrite length_seqZ, size_dom. lia.
Qed.

Lemma complete_items a :
  assembly_ok a -> SnapshotAssembly.is_complete a = true ->
  SnapshotAssembly.items a =
    seqZ 0 (SnapshotAssembly.total_chunks a)
      ≫= fun i => default [] (SnapshotAssembly.chunks a !! i).
Proof.
  intros Hok Hc. unfold SnapshotAssembly.items. f_equal. apply sortedZ_unique.
  - apply seqZ_sorted.
  - apply NoDup_Permutation; [apply NoDup_elements|apply NoDup_seqZ|].
    intros i. rewrite elem_of_elements, complete_chunks by done. by rewrite elem_of_list_to_set.
Qed.

(** An accepted snapshot is the whole declared set: every chunk [0..total-1] and
    no other arrived, the recorded hash is the hash of their concatenation in
    index order, it equals the expected hash whenever one was declared, and the
    assembly is consumed. *)
Theorem accepted_snapshot_exact b l c clk rank vh sr c' r :
  reachable b l c ->
  complete_snapshot canonical_hash clk rank vh sr c = (c', (true, r)) ->
  exists a s', assemblies c !! rank = Some a /\ assemblies c' !! rank = None /\
    (forall i, is_Some (SnapshotAssembly.chunks a !! i) <->
               0 <= i < SnapshotAssembly.total_chunks a) /\
    sessions c' !! rank = Some s' /\ RankSession.state s' = SNAPSHOT_ACK_PENDING /\
    RankSession.complete_set_hash s' =
      canonical_hash (seqZ 0 (SnapshotAssembly.total_chunks a)
                        ≫= fun i => default [] (SnapshotAssembly.chunks a !! i)) /\
    (forall h, h <> EmptyString ->
       vh = Some h \/ (vh = None /\ SnapshotAssembly.complete_hash a = h) ->
       RankSession.complete_set_hash s' = h).
Proof.
  intros Hr%reachable_inv Hc. unfold complete_snapshot in Hc.
  destruct (assemblies c !! rank) as [a|] eqn:Ha; [|done].
  destruct (sessions c !! rank) as [s|] eqn:Hs; [|done].
  destruct (SnapshotAssembly.is_complete a) eqn:Hcomp; cbn in Hc; [|done].
  set (expected := match vh with Some _ => _ | None => _ end) in Hc.
  destruct (nonempty expected && _) eqn:Hexp; [done|].
  destruct (sr || _) eqn:Hsr; cbn in Hc; [|done]. injection Hc as <- <-.
  pose proof Hr as (_ & _ & _ & Hasm). specialize (Hasm _ _ Ha).
  exists a. eexists. cbn. rewrite lookup_delete_eq, lookup_insert_eq.
  split_and!; [done|done| |done|done| |]; cbn.
  - intros i. rewrite <- elem_of_dom, complete_chunks by done.
    rewrite elem_of_list_to_set, elem_of_seqZ. lia.
  - by rewrite complete_items.
  - intros h Hh Hvh. assert (expected = h) as Heq.
    { subst expected. destruct Hvh as [->|[-> <-]]; [|done].
      unfold nonempty. by rewrite bool_decide_false. }
    rewrite Heq in Hexp. unfold nonempty in Hexp. rewrite bool_decide_false in Hexp by done.
    cbn in Hexp. by bool_prop.
Qed.

(** ** Loss timing *)

Lemma poll_leases_lookup clk now c rank s :
  sessions c !! rank = Some s ->
  sessions (poll_leases clk now c).1 !! rank =
    Some (if lease_expired (limits c) (default clk now) s then lose_lease (limits c) s else s).
Proof. intros Hs. cbn. by rewrite lookup_fmap, Hs. Qed.

(** A silent loss is anchored at the last heartbeat plus one lease: [poll_leases]
    reports exactly the established ranks whose lease ran out, dates their loss
    there, revokes them, and leaves every other session alone; node cleanup is due
    one grace and one watchdog after that anchor. *)
Theorem silent_loss_anchored b l c clk now rank s :
  reachable b l c -> sessions c !! rank = Some s ->
  let '(c', lost) := poll_leases clk (Some now) c in
  (rank ∈ lost <->
     RankSession.state s = ESTABLISHED /\
     exists last, RankSession.last_heartbeat_at s = Some last /\
       Float.gtb (Float.sub now last) (ControlLimits.lease_timeout_s l) = true) /\
  (rank ∉ lost -> sessions c' !! rank = Some s) /\
  (forall last, rank ∈ lost -> RankSession.last_heartbeat_at s = Some last ->
     let anchor := Float.add last (ControlLimits.lease_timeout_s l) in
     rank ∈ readiness_revoked_ranks c' /\
     cleanup_deadline_for rank c' =
       Some (Float.add (Float.add anchor (ControlLimits.reconnect_grace_s l))
               (ControlLimits.watchdog_cleanup_deadline_s l)) /\
     exists s', sessions c' !! rank = Some s' /\ RankSession.state s' = LOST /\
       RankSession.loss_time s' = Some anchor).
Proof.
  intros Hr Hs. pose proof (reachable_inv _ _ _ Hr) as Hi.
  destruct (reachable_binding _ _ _ Hr) as [_ Hl].
  destruct (poll_leases clk (Some now) c) as [c' lost] eqn:Hp.
  pose proof (poll_leases_inv clk (Some now) c Hi) as Hi'. rewrite Hp in Hi'.
  pose proof (poll_leases_lookup clk (Some now) c rank s Hs) as Hs'.
  rewrite Hp in Hs'. cbn [fst] in Hs', Hi'. change (default clk (Some now)) with now in Hs'.
  assert (limits c' = l) as Hl' by (injection Hp as <- _; done).
  assert (rank ∈ lost <-> lease_expired l now s = true) as Hlost.
  { injection Hp as _ <-. rewrite elem_of_ranks_where by done. rewrite Hl. naive_solver. }
  rewrite Hl in Hs'. rewrite Hlost. split_and!.
  - unfold lease_expired. rewrite andb_true_iff, bool_decide_eq_true.
    destruct (RankSession.last_heartbeat_at s); naive_solver.
  - intros Hne%not_true_iff_false. by rewrite Hne in Hs'.
  - intros last He Hlast. apply Hlost in He. rewrite He in Hs'. cbv zeta. split_and!.
    + apply elem_of_revoked; [done|]. eauto.
    + unfold cleanup_deadline_for. rewrite Hs', Hl'. cbn. by rewrite Hlast.
    + eexists; split_and!; [exact Hs'|done|]. cbn. by rewrite Hlast.
Qed.

(** Grace is enforced on a lost session: past [loss_time + reconnect_grace_s] the
    deadline check terminates session and generation, and a reconnect is refused
    and is fatal; within it a reconnect from the bound node is taken back only as
    AUTHENTICATED, with the whole snapshot owed again. *)
Theorem reconnect_grace_enforced b l c clk now rank s loss node inst :
  reachable b l c -> sessions c !! rank = Some s ->
  RankSession.state s = LOST -> RankSession.loss_time s = Some loss ->
  AllocationBinding.is_bound_node b rank node = true ->
  let late := Float.gtb now (Float.add loss (ControlLimits.reconnect_grace_s l)) in
  let '(c1, expired) := check_grace_deadlines clk (Some now) c in
  let '(c2, (ok, _)) := reconnect clk rank node inst (Some now) c in
  (rank ∈ expired <-> late = true) /\ ok = negb late /\
  (late = true ->
     generation_state c1 = GEN_TERMINAL /\ generation_state c2 = GEN_TERMINAL /\
     (RankSession.state <$> sessions c1 !! rank) = Some TERMINAL /\
     (RankSession.state <$> sessions c2 !! rank) = Some TERMINAL) /\
  (late = false ->
     (RankSession.state <$> sessions c1 !! rank) = Some LOST /\
     exists s2, sessions c2 !! rank = Some s2 /\ RankSession.state s2 = AUTHENTICATED /\
       RankSession.snapshot_accepted s2 = false /\
       RankSession.supervisor_receipt_accepted s2 = false /\
       generation_state c2 = generation_state c).
Proof.
  intros Hr Hs Hst Hloss Hnode. pose proof (reachable_inv _ _ _ Hr) as Hi.
  destruct (reachable_binding _ _ _ Hr) as [Hb Hl].
  assert (rank ∈ ranks_where (grace_expired (limits c) now) c
          <-> past_grace l now loss = true) as Hexp.
  { rewrite elem_of_ranks_where by done. unfold grace_expired. rewrite Hl.
    split; [intros (s0 & Hs0 & H0)|intros H0; exists s; split; [done|]];
      simplify_eq; rewrite ?bool_decide_true, ?Hloss in * by done; done. }
  cbv zeta. unfold check_grace_deadlines, reconnect. rewrite Hs, Hb, Hnode, Hloss, Hl. cbn.
  rewrite bool_decide_false by congruence. rewrite Hl in Hexp.
  fold (past_grace l now loss).
  destruct (past_grace l now loss) eqn:Hlate; cbn.
  - destruct (ranks_where (grace_expired l now) c) as [|r0 rs] eqn:Hrs.
    { exfalso. apply (not_elem_of_nil rank). by apply Hexp. }
    split_and!; [by rewrite Hexp|done| |done]. intros _.
    rewrite !fatal_generation, fatal_sessions. cbn. rewrite lookup_fmap, Hs. cbn.
    unfold grace_expired. rewrite bool_decide_true, Hloss by done. cbn. rewrite Hlate.
    by rewrite lookup_insert_eq.
  - split_and!; [by rewrite Hexp|done|done|]. intros _.
    rewrite lookup_insert_eq.
    split; [|eexists; by split_and!].
    assert ((if grace_expired l now s then RankSession.set_state TERMINAL s else s) = s) as Hkeep.
    { unfold grace_expired. rewrite Hloss. cbn. rewrite Hlate. by rewrite andb_false_r. }
    destruct (ranks_where (grace_expired l now) c); rewrite ?fatal_sessions; cbn;
      rewrite lookup_fmap, Hs; cbn; rewrite Hkeep; by rewrite Hst.
Qed.

(** ** Where the grace is lost *)

(** The head polls at the clock readings [clks]. *)
Definition polls (clks : list float) (c : t) : t :=
  fold_left (fun c clk => (HeadDriver.poll clk c).1) clks c.

Lemma poll_expected clk c rank s :
  generation_state c <> GEN_REGISTERING ->
  sessions c !! rank = Some s -> RankSession.state s = EXPECTED ->
  generation_state (HeadDriver.poll clk c).1 <> GEN_REGISTERING /\
  sessions (HeadDriver.poll clk c).1 !! rank = Some s.
Proof.
  intros Hg Hs He. unfold HeadDriver.poll. cbn [fst].
  pose proof (poll_leases_lookup clk None c rank s Hs) as H1.
  unfold lease_expired in H1. rewrite bool_decide_false in H1 by congruence. cbn [andb] in H1.
  set (c1 := (poll_leases clk None c).1) in *.
  assert (generation_state c1 = generation_state c) as Hg1 by done. clearbody c1.
  assert ((check_registration_deadline clk c1).1 = c1) as ->.
  { unfold check_registration_deadline. by rewrite Hg1, bool_decide_false. }
  unfold check_grace_deadlines. cbn [fst]. set (c3 := set_sessions _ c1).
  assert (sessions c3 !! rank = Some s) as H3.
  { subst c3. cbn. rewrite lookup_fmap, H1. cbn. unfold grace_expired.
    by rewrite bool_decide_false by congruence. }
  case_match; rewrite ?fatal_generation, ?fatal_sessions; split; try done. cbn. congruence.
Qed.

(** After START, a disconnect that reaches a session already LOST (an EOF after
    the lease ran out, or a second drop during the reconnect handshake) returns it
    to EXPECTED with its loss time erased. From then on no deadline of the
    coordinator covers that rank: polling at any later times leaves the session
    exactly as it is, there is no cleanup deadline, and a registration from the
    bound node is accepted however late it comes. *)
Theorem grace_erased_by_disconnect b l c clk now rank s :
  reachable b l c -> generation_state c = GEN_STARTED ->
  sessions c !! rank = Some s ->
  RankSession.state s = LOST ->
  let c' := (on_disconnect clk rank false now c).1 in
  exists s', sessions c' !! rank = Some s' /\ RankSession.state s' = EXPECTED /\
    cleanup_deadline_for rank c' = None /\
    (forall clks, sessions (polls clks c') !! rank = Some s') /\
    (forall late node inst, started_at c <> None ->
       AllocationBinding.is_bound_node b rank node = true ->
       (HeadDriver.on_register late rank node inst c').2.1 = true).
Proof.
  intros Hr Hg Hs Hst. destruct (reachable_binding _ _ _ Hr) as [Hb _]. cbv zeta.
  assert (RankSession.is_established s = false) as He.
  { unfold RankSession.is_established. by rewrite bool_decide_false by congruence. }
  unfold on_disconnect. rewrite Hs, He. cbn [negb fst]. set (c' := put _ _ _).
  set (s' := RankSession.set_loss_time _ _) in c'.
  assert (sessions c' !! rank = Some s') as Hs' by (cbn; by rewrite lookup_insert_eq).
  exists s'. split_and!; [done|done| | |].
  - unfold cleanup_deadline_for. by rewrite Hs'.
  - intros clks. unfold polls.
    assert (generation_state c' <> GEN_REGISTERING) as Hg' by (cbn; congruence).
    clearbody c'. revert c' Hs' Hg'. induction clks as [|k clks IH]; intros c' Hs' Hg'; [done|].
    destruct (poll_expected k c' rank s' Hg' Hs') as [Hg1 H1]; [done|]. by apply IH.
  - intros late node inst Hstart Hnode. unfold HeadDriver.on_register. rewrite Hs'. cbn.
    unfold register. rewrite Hs'. cbn. destruct (started_at c); [|done]. rewrite Hb, Hnode.
    rewrite andb_false_r. unfold register_bound. by destruct (_ && _).
Qed.
End Steps.

(** ** Witnesses: a one-rank generation *)

Section Witnesses.

Definition demo_binding : AllocationBinding.t :=
  AllocationBinding.mk 3 "dep" 0 "" "" "job" [(0, "node0.site")] "".
Definition demo_limits : ControlLimits.t := ControlLimits.default_limits.
Definition demo_hash (_ : list value) : string := "hash".
Definition at_s (n : Z) : float := Float.of_Z n.

(** Registration, a two-chunk snapshot, and the validated set. *)
Definition demo_handshake : list event :=
  [EBeginRegistration (at_s 0); ERegister (at_s 1) 0 "NODE0" "inst";
   EBeginSnapshot (at_s 1) 0 "snap" 2 "hash";
   EAddChunk (at_s 1) 0 1 [VInt 7]; EAddChunk (at_s 1) 0 0 [VStr "receipt"]].
Definition demo_validated : list event := demo_handshake ++ [ECompleteSnapshot (at_s 2) 0 None true].
Definition demo_ack : event :=
  EAcknowledge (at_s 3) 0 "SNAPSHOT_ACCEPTED:0:snap" "snap" "hash" true.
Definition demo_established : list event := demo_validated ++ [demo_ack].
Definition demo_started : list event := demo_established ++ [EStart].
Definition demo_lost : list event := demo_started ++ [EPollLeases (at_s 40) None].

Definition demo (tr : list event) : t := run demo_hash tr (init demo_binding demo_limits).

Lemma demo_reachable tr : reachable demo_hash demo_binding demo_limits (demo tr).
Proof. by exists tr. Qed.

Lemma start_barrier_witness :
  (start (demo demo_established)).2.1 = true /\
  forall rank, rank ∈ AllocationBinding.ranks demo_binding ->
  exists s, sessions (demo demo_established) !! rank = Some s /\
    RankSession.state s = ESTABLISHED.
Proof.
  destruct (start_barrier demo_hash demo_binding demo_limits (demo demo_established)
              (demo_reachable _)) as [_ H].
  assert ((start (demo demo_established)).2.1 = true) as Hok by (vm_compute; reflexivity).
  split; [exact Hok|]. intros rank Hrank.
  destruct (proj2 (H Hok) rank Hrank) as (s & Hs & He & _). exists s. split; assumption.
Defined.

Lemma generation_terminal_final_witness :
  generation_state (run demo_hash demo_established
    (demo [EViolation 0 "bad frame"])) = GEN_TERMINAL.
Proof.
  apply (generation_terminal_final demo_hash demo_established (demo [EViolation 0 "bad frame"])).
  vm_compute. reflexivity.
Defined.

Lemma incremental_needs_acknowledged_snapshot_witness :
  (accept_incremental 0 (run demo_hash [EReconnect (at_s 50) 0 "node0" "i2" None]
                           (demo demo_lost))).1 = false.
Proof.
  apply (incremental_needs_acknowledged_snapshot demo_hash demo_binding demo_limits).
  - apply demo_reachable.
  - vm_compute. reflexivity.
  - repeat constructor.
Defined.

Lemma established_only_by_exact_acknowledgment_witness :
  assemblies (demo demo_validated) !! 0 = None.
Proof.
  destruct (sessions (demo demo_validated) !! 0) as [s|] eqn:Hs; [|vm_compute in Hs; discriminate].
  destruct (sessions (exec demo_hash demo_ack (demo demo_validated)) !! 0) as [s'|] eqn:Hs';
    [|vm_compute in Hs'; discriminate].
  apply (established_only_by_exact_acknowledgment demo_hash demo_binding demo_limits
           (demo demo_validated) demo_ack 0 s s'); [apply demo_reachable|exact Hs| |exact Hs'|].
  - vm_compute in Hs. injection Hs as <-. discriminate.
  - vm_compute in Hs'. injection Hs' as <-. reflexivity.
Defined.

Lemma accepted_snapshot_exact_witness :
  exists a, assemblies (demo demo_handshake) !! 0 = Some a /\
    (forall i, is_Some (SnapshotAssembly.chunks a !! i) <->
               0 <= i < SnapshotAssembly.total_chunks a).
Proof.
  destruct (complete_snapshot demo_hash (at_s 2) 0 None true (demo demo_handshake))
    as [c' [ok r]] eqn:Hc.
  assert (ok = true) as ->.
  { change ok with ((c', (ok, r)).2.1). rewrite <- Hc. vm_compute. reflexivity. }
  destruct (accepted_snapshot_exact demo_hash demo_binding demo_limits _ _ _ _ _ _ _
              (demo_reachable _) Hc) as (a & s' & Ha & _ & Hi & _).
  exists a. split; assumption.
Defined.

Lemma silent_loss_anchored_witness :
  0 ∈ (poll_leases (at_s 40) (Some (at_s 40)) (demo demo_started)).2.
Proof.
  destruct (sessions (demo demo_started) !! 0) as [s|] eqn:Hs; [|vm_compute in Hs; discriminate].
  pose proof (silent_loss_anchored demo_hash demo_binding demo_limits (demo demo_started)
                (at_s 40) (at_s 40) 0 s (demo_reachable _) Hs) as H.
  destruct (poll_leases _ _ _) as [c' lost]. apply H.
  vm_compute in Hs. injection Hs as <-. split; [reflexivity|].
  exists (at_s 3). split; vm_compute; reflexivity.
Defined.

Lemma reconnect_grace_enforced_witness :
  0 ∈ (check_grace_deadlines (at_s 100) (Some (at_s 100)) (demo demo_lost)).2.
Proof.
  destruct (sessions (demo demo_lost) !! 0) as [s|] eqn:Hs; [|vm_compute in Hs; discriminate].
  pose proof (reconnect_grace_enforced demo_hash demo_binding demo_limits (demo demo_lost)
                (at_s 100) (at_s 100) 0 s (at_s 33) "node0" "i2" (demo_reachable _) Hs) as H.
  destruct (check_grace_deadlines _ _ _) as [c1 expired].
  destruct (reconnect _ _ _ _ _ _) as [c2 [ok r]].
  vm_compute in Hs. injection Hs as <-. apply H; vm_compute; reflexivity.
Defined.

Lemma grace_erased_by_disconnect_witness :
  RankSession.state <$>
    sessions (polls [at_s 100; at_s 1000; at_s 100000]
                (on_disconnect (at_s 45) 0 false None (demo demo_lost)).1) !! 0
  = Some EXPECTED.
Proof.
  destruct (sessions (demo demo_lost) !! 0) as [s|] eqn:Hs; [|vm_compute in Hs; discriminate].
  destruct (grace_erased_by_disconnect demo_hash demo_binding demo_limits (demo demo_lost)
              (at_s 45) None 0 s (demo_reachable _)) as (s' & _ & He & _ & Hp & _);
    [vm_compute; reflexivity|exact Hs|vm_compute in Hs; injection Hs as <-; reflexivity|].
  rewrite Hp. cbn. rewrite He. reflexivity.
Defined.
End Witnesses.
