(* ===== verification/Status.v ===== *)
(** The durable status record (src/exaserve/state/status.py): lifecycle state
    machines, the strict loader, and lease-guarded compare-and-set writers.

    The file on disk is [file]; a JSON document is a [value]. The exclusive lease
    of src/exaserve/state/atomic.py serializes the writers, so every operation is
    one atomic step on the file; [store_io] says how the lease, the write and the
    release ended: an operation may raise with the new record on file. [now] is the
    reading of [time.time()]. *)

From S2P Require Import Prelude PyValue Atomic.

Definition SCHEMA_VERSION : Z := 1.
Definition MAX_STATUS_HISTORY_EVENTS : Z := 256.
Definition HISTORY_DROPPED_KEY : string := "status_history_events_dropped".
Definition HISTORY_OMITTED_KEY : string := "status_history_events_omitted".
Definition INTERNAL_DATA_KEYS : list string := [HISTORY_DROPPED_KEY; HISTORY_OMITTED_KEY].

(** ** Lifecycles *)

Inductive DeploymentState : Set :=
| PLANNED | STAGING | CLUSTER_STARTING | DEPLOYING | VALIDATING | READY | DRAINING
| STOPPED | FAILED | CANCELLED.

#[global] Instance DeploymentState_eq_dec : EqDecision DeploymentState.
Proof. solve_decision. Defined.

Definition ACTIVE : list DeploymentState :=
  [PLANNED; STAGING; CLUSTER_STARTING; DEPLOYING; VALIDATING; READY; DRAINING].

Definition DEPLOYMENT_TRANSITIONS (s : DeploymentState) : list DeploymentState :=
  (match s with
   | PLANNED => [STAGING]
   | STAGING => [CLUSTER_STARTING]
   | CLUSTER_STARTING => [DEPLOYING]
   | DEPLOYING => [VALIDATING]
   | VALIDATING => [READY]
   | READY => [VALIDATING; DRAINING]
   | DRAINING => [STOPPED]
   | STOPPED | FAILED | CANCELLED => []
   end) ++ (if bool_decide (s ∈ ACTIVE) then [FAILED; CANCELLED] else []).

Definition deployment_value (s : DeploymentState) : string :=
  match s with
  | PLANNED => "PLANNED" | STAGING => "STAGING" | CLUSTER_STARTING => "CLUSTER_STARTING"
  | DEPLOYING => "DEPLOYING" | VALIDATING => "VALIDATING" | READY => "READY"
  | DRAINING => "DRAINING" | STOPPED => "STOPPED" | FAILED => "FAILED"
  | CANCELLED => "CANCELLED"
  end.

Inductive RunState : Set :=
| RUN_PLANNED | RUN_SUBMITTED | RUN_RUNNING | RUN_SUCCEEDED | RUN_PARTIAL | RUN_FAILED
| RUN_CANCELLED | RUN_INVALID.

#[global] Instance RunState_eq_dec : EqDecision RunState.
Proof. solve_decision. Defined.

Definition RUN_TRANSITIONS (s : RunState) : list RunState :=
  match s with
  | RUN_PLANNED => [RUN_SUBMITTED; RUN_CANCELLED; RUN_INVALID]
  | RUN_SUBMITTED =>
      [RUN_RUNNING; RUN_FAILED; RUN_CANCELLED; RUN_SUCCEEDED; RUN_PARTIAL; RUN_INVALID]
  | RUN_RUNNING => [RUN_SUCCEEDED; RUN_PARTIAL; RUN_FAILED; RUN_CANCELLED; RUN_INVALID]
  | RUN_SUCCEEDED | RUN_PARTIAL | RUN_FAILED | RUN_CANCELLED | RUN_INVALID => []
  end.

Definition run_value (s : RunState) : string :=
  match s with
  | RUN_PLANNED => "PLANNED" | RUN_SUBMITTED => "SUBMITTED" | RUN_RUNNING => "RUNNING"
  | RUN_SUCCEEDED => "SUCCEEDED" | RUN_PARTIAL => "PARTIAL" | RUN_FAILED => "FAILED"
  | RUN_CANCELLED => "CANCELLED" | RUN_INVALID => "INVALID"
  end.

(** What [StatusStore.__init__] is given: the record kind, the state enumeration
    and its transition table, with the laws the store relies on. *)
Class Lifecycle (S : Type) := {
  lc_eq_dec :: EqDecision S;
  lc_kind : string;
  lc_members : list S;
  lc_value : S -> string;
  lc_transitions : S -> list S;
  lc_initial : S;
  lc_members_all : forall s, s ∈ lc_members;
  lc_value_inj : forall s s', lc_value s = lc_value s' -> s = s';
}.

Definition DEPLOYMENT_MEMBERS : list DeploymentState := ACTIVE ++ [STOPPED; FAILED; CANCELLED].
Lemma deployment_members_all s : s ∈ DEPLOYMENT_MEMBERS.
Proof. apply list_elem_of_In. destruct s; cbn; tauto. Qed.
Lemma deployment_value_inj s s' : deployment_value s = deployment_value s' -> s = s'.
Proof. by destruct s, s'. Qed.

#[global] Instance deployment_lifecycle : Lifecycle DeploymentState := {|
  lc_kind := "deployment";
  lc_members := DEPLOYMENT_MEMBERS;
  lc_value := deployment_value;
  lc_transitions := DEPLOYMENT_TRANSITIONS;
  lc_initial := PLANNED;
  lc_members_all := deployment_members_all;
  lc_value_inj := deployment_value_inj;
|}.

Definition RUN_MEMBERS : list RunState :=
  [RUN_PLANNED; RUN_SUBMITTED; RUN_RUNNING; RUN_SUCCEEDED; RUN_PARTIAL; RUN_FAILED;
   RUN_CANCELLED; RUN_INVALID].
Lemma run_members_all s : s ∈ RUN_MEMBERS.
Proof. apply list_elem_of_In. destruct s; cbn; tauto. Qed.
Lemma run_value_inj s s' : run_value s = run_value s' -> s = s'.
Proof. by destruct s, s'. Qed.

#[global] Instance run_lifecycle : Lifecycle RunState := {|
  lc_kind := "run";
  lc_members := RUN_MEMBERS;
  lc_value := run_value;
  lc_transitions := RUN_TRANSITIONS;
  lc_initial := RUN_PLANNED;
  lc_members_all := run_members_all;
  lc_value_inj := run_value_inj;
|}.

(** ** Exceptions *)

Inductive exn : Type :=
| StatusConflict (message : string)
| IllegalTransition
| ValueError (message : string)
| OverflowError
| OSError
| LeaseHeldError
| LeaseReleaseError.

Definition conflict_if (b : bool) (message : string) : result exn unit :=
  raise_if b (StatusConflict message).
Definition value_error_if (b : bool) (message : string) : result exn unit :=
  raise_if b (ValueError message).

(** ** Records *)

Inductive file : Type :=
| Missing
| Unreadable
| Doc (v : value).

Section Store.
Context {S : Type} `{!Lifecycle S}.

(** [self._enum(v)] for text; anything else raises. *)
Definition enum_of (v : value) : option S :=
  match v with
  | VStr s => List.find (fun m => bool_decide (lc_value m = s)) lc_members
  | _ => None
  end.

Record event := Event {
  ev_state : S;
  ev_at : value;
  ev_reason_code : string;
}.

Record StatusRecord := Rec {
  record_id : string;
  state : S;
  revision : Z;
  updated_at : value;
  reason_code : option string;
  detail : option string;
  provenance : dict;
  data : dict;
  history : list event;
}.

Definition RECORD_FIELDS : list string :=
  ["schema_version"; "kind"; "record_id"; "state"; "revision"; "updated_at"; "reason_code";
   "detail"; "provenance"; "data"; "history"].

Definition opt_str (o : option string) : value :=
  match o with Some s => VStr s | None => VNone end.

Definition event_to_value (e : event) : value :=
  VDict [("state", VStr (lc_value (ev_state e))); ("at", ev_at e);
         ("reason_code", VStr (ev_reason_code e))].

(** [asdict(record)] *)
Definition asdict (r : StatusRecord) : value :=
  VDict [("schema_version", VInt SCHEMA_VERSION); ("kind", VStr lc_kind);
         ("record_id", VStr (record_id r)); ("state", VStr (lc_value (state r)));
         ("revision", VInt (revision r)); ("updated_at", updated_at r);
         ("reason_code", opt_str (reason_code r)); ("detail", opt_str (detail r));
         ("provenance", VDict (provenance r)); ("data", VDict (data r));
         ("history", VList (event_to_value <$> history r))].

(** ** The strict loader *)

(** [raw.get(k)] *)
Definition field (k : string) (raw : dict) : value := default VNone (dget k raw).

(** [isinstance(v, bool) or not isinstance(v, int) or v < 0] raises. *)
Definition nonneg_int (v : value) (message : string) : result exn Z :=
  match v with
  | VInt z => if z <? 0 then Err (StatusConflict message) else Ok z
  | _ => Err (StatusConflict message)
  end.

Definition optional_text (v : value) (message : string) : result exn (option string) :=
  match v with
  | VNone => Ok None
  | VStr s => Ok (Some s)
  | _ => Err (StatusConflict message)
  end.

Definition as_object (v : value) (message : string) : result exn dict :=
  match v with
  | VDict d => Ok d
  | _ => Err (StatusConflict message)
  end.

(** The test on [updated_at]; [float(v)] of a huge integer raises [OverflowError]. *)
Definition load_updated_at (v : value) : result exn unit :=
  let message := "status updated_at must be finite and non-negative" in
  _ ← conflict_if (negb (is_number v)) message;
  f ← to_float OverflowError v;
  _ ← conflict_if (negb (Float.is_finite f)) message;
  conflict_if (num_ltb v (VInt 0)) message.

(** One event of the history, given the previous timestamp. *)
Definition load_event (previous_at : float) (v : value) : result exn (float * event) :=
  match v with
  | VDict d =>
      _ ← conflict_if (negb (same_keys (dkeys d) ["state"; "at"; "reason_code"]))
            "status history event shape mismatch";
      match enum_of (field "state" d) with
      | None => Err (StatusConflict "status history event has unknown state")
      | Some st =>
          let at_ := field "at" d in
          let message := "status history event timestamp is invalid" in
          _ ← conflict_if (negb (is_number at_)) message;
          f ← to_float OverflowError at_;
          _ ← conflict_if (negb (Float.is_finite f)) message;
          _ ← conflict_if (num_ltb at_ (VFloat previous_at)) message;
          match field "reason_code" d with
          | VStr reason =>
              _ ← conflict_if (negb (nonempty reason))
                    "status history event reason_code is invalid";
              Ok (f, Event st at_ reason)
          | _ => Err (StatusConflict "status history event reason_code is invalid")
          end
      end
  | _ => Err (StatusConflict "status history event shape mismatch")
  end.

Fixpoint load_events (previous_at : float) (l : list value) : result exn (list event) :=
  match l with
  | [] => Ok []
  | v :: l' =>
      x ← load_event previous_at v;
      rest ← load_events x.1 l';
      Ok (x.2 :: rest)
  end.

Definition legal_edge (a b : event) : bool :=
  bool_decide (ev_state b = ev_state a)
  || bool_decide (ev_state b ∈ lc_transitions (ev_state a)).

Fixpoint legal_path (h : list event) : bool :=
  match h with
  | a :: ((b :: _) as h') => legal_edge a b && legal_path h'
  | _ => true
  end.

(** The loop over adjacent events; once events were dropped the edge from the
    creation event to the first retained one is not checked. *)
Definition edges_ok (dropped : Z) (h : list event) : bool :=
  if dropped =? 0 then legal_path h else legal_path (tail h).

Definition count_of (k : string) (d : dict) : value := dget_default k (VInt 0) d.

Definition load_doc (v : value) : result exn StatusRecord :=
  match v with
  | VDict raw =>
      _ ← conflict_if (negb (same_keys (dkeys raw) RECORD_FIELDS)) "status record shape mismatch";
      _ ← conflict_if (match field "schema_version" raw with
                       | VInt z => negb (z =? SCHEMA_VERSION)
                       | _ => true
                       end) "unknown status schema_version";
      _ ← conflict_if (negb (py_eqb (field "kind" raw) (VStr lc_kind)))
            "status kind differs from expected";
      match field "record_id" raw, enum_of (field "state" raw) with
      | VStr rid, Some st =>
          _ ← conflict_if (negb (nonempty rid)) "status record_id must be a non-empty string";
          rev ← nonneg_int (field "revision" raw) "status revision must be a non-negative integer";
          _ ← load_updated_at (field "updated_at" raw);
          reason ← optional_text (field "reason_code" raw)
                     "status reason_code must be null or a string";
          det ← optional_text (field "detail" raw) "status detail must be null or a string";
          _ ← conflict_if (bool_decide (reason = Some EmptyString))
                "status reason_code must be null or non-empty";
          prov ← as_object (field "provenance" raw) "status provenance and data must be objects";
          dat ← as_object (field "data" raw) "status provenance and data must be objects";
          match field "history" raw with
          | VList hist =>
              let n := Z.of_nat (length hist) in
              _ ← conflict_if ((n =? 0) || (rev + 1 <? n) || (MAX_STATUS_HISTORY_EVENTS <? n))
                    "status history must be nonempty and within its revision/storage bounds";
              dropped ← nonneg_int (count_of HISTORY_DROPPED_KEY dat)
                          "status dropped count is invalid";
              omitted ← nonneg_int (count_of HISTORY_OMITTED_KEY dat)
                          "status omitted count is invalid";
              _ ← conflict_if (negb (n + dropped + omitted =? rev + 1))
                    "status history accounting disagrees with revision";
              _ ← conflict_if (negb (dropped =? 0) && negb (n =? MAX_STATUS_HISTORY_EVENTS))
                    "status dropped history does not retain the full bounded window";
              events ← load_events Float.minus_one hist;
              _ ← conflict_if
                    (match head events with
                     | Some e => negb (bool_decide (ev_state e = lc_initial)
                                       && bool_decide (ev_reason_code e = "INIT"))
                     | None => true
                     end) "status history does not begin at the required initial state";
              _ ← conflict_if (negb (edges_ok dropped events))
                    "status history contains illegal transition";
              _ ← conflict_if
                    (match last events with
                     | Some e => negb (bool_decide (ev_state e = st))
                     | None => true
                     end) "status history tail disagrees with current state";
              Ok (Rec rid st rev (field "updated_at" raw) reason det prov dat events)
          | _ => Err (StatusConflict
                        "status history must be nonempty and within its revision/storage bounds")
          end
      | VStr rid, None =>
          _ ← conflict_if (negb (nonempty rid)) "status record_id must be a non-empty string";
          Err (StatusConflict "unknown state")
      | _, _ => Err (StatusConflict "status record_id must be a non-empty string")
      end
  | _ => Err (StatusConflict "status record shape mismatch")
  end.

Definition load (f : file) : result exn (option StatusRecord) :=
  match f with
  | Missing => Ok None
  | Unreadable => Err (StatusConflict "status record is unreadable")
  | Doc v => Some <$> load_doc v
  end.

(** ** Writers *)

Definition validate_data_update (d : option dict) : result exn unit :=
  match d with
  | None => Ok tt
  | Some d => value_error_if (existsb (fun k => bool_decide (k ∈ dkeys d)) INTERNAL_DATA_KEYS)
                "status history accounting keys are owned by StatusStore"
  end.

Definition validate_reason_detail (reason : string) : result exn unit :=
  value_error_if (negb (nonempty reason)) "status reason_code must be a non-empty string".

Definition validate_expected_revision (r : option Z) : result exn unit :=
  value_error_if (from_option (fun n => n <? 0) false r)
    "status expected_revision must be null or non-negative integer".

(** [json.dumps(..., allow_nan=False)]: a non-finite float cannot be written. *)
Fixpoint json_writable (v : value) : bool :=
  match v with
  | VFloat f => Float.is_finite f
  | VList l => forallb json_writable l
  | VDict d => forallb (fun kv => json_writable (snd kv)) d
  | _ => true
  end.

(** How the lease, the write and the release of one operation end. *)
Record store_io := StoreIO {
  io_lease : lease_outcome;
  io_write : write_outcome;
  io_release : release_outcome;
}.

Definition io_done : store_io := StoreIO LeaseAcquired Written Released.

(** The new record is visible although the operation raises. *)
Definition ambiguous (io : store_io) : Prop :=
  io_lease io = LeaseAcquired /\
  (io_write io = Undurable \/ io_write io = Written /\ io_release io <> Released).

Definition atomic_write_json (w : write_outcome) (r : StatusRecord) (f : file) : file * result exn unit :=
  if json_writable (asdict r) then atomic_write OSError w (Doc (asdict r)) f
  else (f, Err (ValueError "Out of range float values are not JSON compliant")).

Definition append_history (e : event) (h : list event) (d : dict)
    : result exn (list event * dict) :=
  if MAX_STATUS_HISTORY_EVENTS <=? Z.of_nat (length h) then
    dropped ← nonneg_int (count_of HISTORY_DROPPED_KEY d) "status dropped count is invalid";
    Ok (delete 1%nat h ++ [e], dset HISTORY_DROPPED_KEY (VInt (dropped + 1)) d)
  else Ok (h ++ [e], d).

(** [_acquire_lease] and the entry of the [with] statement. *)
Definition acquire_lease (o : lease_outcome) : result exn unit :=
  match o with
  | LeaseAcquired => Ok tt
  | LeaseBusy => Err (StatusConflict "status lease busy")
  | LeaseLost => Err LeaseHeldError
  | LeaseOsError => Err OSError
  end.

(** One operation: its checks, and under the lease the new record, its write, the release. *)
Definition commit (io : store_io) (f : file) (checks : result exn unit) (body : result exn StatusRecord)
    : file * result exn StatusRecord :=
  match checks, acquire_lease (io_lease io) with
  | Err e, _ | Ok _, Err e => (f, Err e)
  | Ok _, Ok _ =>
      let '(f', r) := match body with
                      | Err e => (f, Err e)
                      | Ok r => let '(f', w) := atomic_write_json (io_write io) r f in
                                (f', match w with Ok _ => Ok r | Err e => Err e end)
                      end in
      (f', lease_exit LeaseReleaseError OSError (io_release io) r)
  end.

Definition initialize_checks (rid : string) (st : S) (dat : option dict) : result exn unit :=
  _ ← value_error_if (negb (nonempty rid)) "status record_id must be a non-empty string";
  _ ← validate_data_update dat;
  raise_if (negb (bool_decide (st = lc_initial))) IllegalTransition.

Definition initialize_record (now : float) (rid : string) (st : S) (prov dat : option dict) (f : file)
    : result exn StatusRecord :=
  existing ← load f;
  _ ← conflict_if (bool_decide (is_Some existing)) "already initialized";
  Ok (Rec rid st 0 (VFloat now) None None (default [] prov) (default [] dat)
        [Event st (VFloat now) "INIT"]).

Definition initialize (io : store_io) (now : float) (rid : string) (st : S)
    (prov dat : option dict) (f : file) : file * result exn StatusRecord :=
  commit io f (initialize_checks rid st dat) (initialize_record now rid st prov dat f).

(** The record a compare-and-set writer may modify. *)
Definition cas_load (expected : S) (expected_revision : option Z) (f : file)
    : result exn StatusRecord :=
  existing ← load f;
  match existing with
  | None => Err (StatusConflict "not initialized")
  | Some r =>
      _ ← conflict_if (negb (bool_decide (state r = expected))) "unexpected state";
      _ ← conflict_if
            (match expected_revision with
             | Some n => negb (revision r =? n)
             | None => false
             end) "stale writer";
      Ok r
  end.

(** [max(float(record.updated_at), time.time())] *)
Definition bump_time (r : StatusRecord) (now : float) : result exn float :=
  old ← to_float OverflowError (updated_at r);
  Ok (Float.max old now).

Definition apply_update (d : dict) (u : option dict) : dict :=
  match u with Some u => dupdate d u | None => d end.

(** [set(commit_update).intersection(data_update)] is not empty. *)
Definition overlaps (a b : option dict) : bool :=
  match a, b with
  | Some a, Some b => existsb (fun k => bool_decide (k ∈ dkeys b)) (dkeys a)
  | _, _ => false
  end.

Definition transition_checks (expected new : S) (reason : string) (data_update : option dict)
    (expected_revision : option Z) : result exn unit :=
  _ ← validate_reason_detail reason;
  _ ← validate_expected_revision expected_revision;
  _ ← validate_data_update data_update;
  raise_if (negb (bool_decide (new ∈ lc_transitions expected))) IllegalTransition.

Definition transition_record (now : float) (expected new : S) (reason : string)
    (det : option string) (data_update : option dict) (expected_revision : option Z)
    (commit_data_factory : option (Z -> result exn (option dict))) (f : file)
    : result exn StatusRecord :=
  r ← cas_load expected expected_revision f;
  stamp ← bump_time r now;
  let rev := revision r + 1 in
  let d1 := apply_update (data r) data_update in
  commit_update ← match commit_data_factory with
                  | Some factory => factory rev
                  | None => Ok None
                  end;
  _ ← validate_data_update commit_update;
  _ ← value_error_if (overlaps commit_update data_update)
        "status commit-time data overlaps caller data";
  let d2 := apply_update d1 commit_update in
  hd ← append_history (Event new (VFloat stamp) reason) (history r) d2;
  Ok (Rec (record_id r) new rev (VFloat stamp) (Some reason) det (provenance r) hd.2 hd.1).

Definition transition (io : store_io) (now : float) (expected new : S) (reason : string)
    (det : option string) (data_update : option dict) (expected_revision : option Z)
    (commit_data_factory : option (Z -> result exn (option dict))) (f : file)
    : file * result exn StatusRecord :=
  commit io f (transition_checks expected new reason data_update expected_revision)
    (transition_record now expected new reason det data_update expected_revision commit_data_factory f).

Definition update_checks (reason : string) (data_update : option dict) (expected_revision : option Z)
    : result exn unit :=
  _ ← validate_reason_detail reason;
  _ ← validate_expected_revision expected_revision;
  validate_data_update data_update.

Definition update_record (now : float) (expected : S) (reason : string)
    (det : option string) (data_update : option dict) (expected_revision : option Z)
    (record_history : bool) (f : file) : result exn StatusRecord :=
  r ← cas_load expected expected_revision f;
  stamp ← bump_time r now;
  let rev := revision r + 1 in
  let d1 := apply_update (data r) data_update in
  hd ← (if record_history
        then append_history (Event expected (VFloat stamp) reason) (history r) d1
        else
          omitted ← nonneg_int (count_of HISTORY_OMITTED_KEY d1)
                      "status omitted count is invalid";
          Ok (history r, dset HISTORY_OMITTED_KEY (VInt (omitted + 1)) d1));
  Ok (Rec (record_id r) (state r) rev (VFloat stamp) (Some reason) det (provenance r) hd.2 hd.1).

Definition update (io : store_io) (now : float) (expected : S) (reason : string)
    (det : option string) (data_update : option dict) (expected_revision : option Z)
    (record_history : bool) (f : file) : file * result exn StatusRecord :=
  commit io f (update_checks reason data_update expected_revision)
    (update_record now expected reason det data_update expected_revision record_history f).
End Store.
Arguments event : clear implicits.
Arguments StatusRecord : clear implicits.
