(* ===== verification/StatusProps.v ===== *)
(** Theorems on the durable status store of [Status]: whatever the writers
    publish the strict loader reads back, the record refines its lifecycle graph,
    and compare-and-set excludes stale writers. *)

From S2P Require Import Prelude PyValue Atomic Status.

(** ** What the writers keep true of a record *)

Section Invariant.
Context {S : Type} `{!Lifecycle S}.

Definition ev_time (e : event S) : float :=
  match ev_at e with VFloat f => f | _ => S754_nan end.

(** A timestamp the writers produce: a finite, non-negative double. *)
Definition good_time (f : float) : Prop :=
  Float.is_finite f = true /\ Float.leb Float.zero f = true.

Definition le_time (a b : float) : Prop := Float.leb a b = true.

Definition event_ok (e : event S) : Prop :=
  ev_at e = VFloat (ev_time e) /\ good_time (ev_time e) /\ nonempty (ev_reason_code e) = true.

(** The retained window and its accounting. *)
Definition window_ok (dropped omitted rev : Z) (h : list (event S)) : Prop :=
  0 <= dropped /\ 0 <= omitted /\
  1 <= Z.of_nat (length h) <= MAX_STATUS_HISTORY_EVENTS /\
  Z.of_nat (length h) + dropped + omitted = rev + 1 /\
  (dropped <> 0 -> Z.of_nat (length h) = MAX_STATUS_HISTORY_EVENTS).

Definition begins_at_init (h : list (event S)) : Prop :=
  exists e, head h = Some e /\ ev_state e = lc_initial /\ ev_reason_code e = "INIT".

(** The history [h] of a record whose state is [st], whose last stamp is [u]. *)
Definition log_ok (d : dict) (rev : Z) (u : float) (st : S) (h : list (event S)) : Prop :=
  (exists dropped omitted,
     count_of HISTORY_DROPPED_KEY d = VInt dropped /\
     count_of HISTORY_OMITTED_KEY d = VInt omitted /\
     window_ok dropped omitted rev h /\ edges_ok dropped h = true) /\
  Forall event_ok h /\
  Forall (fun e => le_time (ev_time e) u) h /\
  StronglySorted le_time (ev_time <$> h) /\
  begins_at_init h /\
  (exists e, last h = Some e /\ ev_state e = st).

Definition rec_ok (r : StatusRecord S) : Prop :=
  nonempty (record_id r) = true /\
  reason_code r <> Some EmptyString /\
  (exists u, updated_at r = VFloat u /\ good_time u /\
     log_ok (data r) (revision r) u (state r) (history r)).

(** ** Reading back what was written *)

Lemma enum_of_value (s : S) : enum_of (VStr (lc_value s)) = Some s.
Proof.
  cbn. destruct (List.find _ _) as [s'|] eqn:Hf.
  - apply List.find_some in Hf as [_ Hf%bool_decide_eq_true]. f_equal. by apply lc_value_inj.
  - exfalso. pose proof (lc_members_all s) as Hin%list_elem_of_In.
    pose proof (List.find_none _ _ Hf s Hin) as Hn. cbn in Hn. by rewrite bool_decide_true in Hn.
Qed.

Lemma nonneg_float_not_ltb u : good_time u -> num_ltb (VFloat u) (VInt 0) = false.
Proof.
  intros [Hf Hle]. unfold num_ltb, num_compare, compare_Z_float.
  destruct u as [s|s| |s m e]; try done. destruct s; [done|].
  destruct (0 <=? e) eqn:He; bool_prop; [|done].
  assert (0 < Z.pos m * 2 ^ e) as Hpos by (apply Z.mul_pos_pos; [lia|by apply Z.pow_pos_nonneg]).
  apply Z.compare_lt_iff in Hpos. by rewrite Hpos.
Qed.

Lemma good_time_not_nan u : good_time u -> u <> S754_nan.
Proof. intros [Hf _] ->. done. Qed.

Lemma load_event_back prev e :
  event_ok e -> prev <> S754_nan -> le_time prev (ev_time e) ->
  load_event prev (event_to_value e) = Ok (ev_time e, e).
Proof.
  intros (Hat & Hgood & Hreason) Hprev Hle.
  pose proof (good_time_not_nan _ Hgood) as Hnan. destruct Hgood as [Hfin _].
  destruct e as [st at_ reason]. cbn [ev_at ev_reason_code] in *.
  set (t := ev_time _) in *. clearbody t. subst at_.
  unfold load_event, event_to_value. cbn [ev_state ev_at ev_reason_code].
  set (d := [("state", _); _; _]).
  replace (same_keys (dkeys d) ["state"; "at"; "reason_code"]) with true by reflexivity.
  replace (field "state" d) with (VStr (lc_value st)) by reflexivity.
  replace (field "at" d) with (VFloat t) by reflexivity.
  replace (field "reason_code" d) with (VStr reason) by reflexivity.
  rewrite enum_of_value. cbn -[Float.is_finite nonempty num_ltb].
  rewrite Hfin, Hreason. unfold num_ltb. cbn -[SFcompare].
  pose proof (Float.leb_not_ltb _ _ Hprev Hnan Hle) as Hlt.
  unfold Float.ltb, SFltb in Hlt. by rewrite Hlt.
Qed.

Lemma load_events_back h prev :
  prev <> S754_nan -> Forall event_ok h ->
  Forall (fun e => le_time prev (ev_time e)) h -> StronglySorted le_time (ev_time <$> h) ->
  load_events prev (event_to_value <$> h) = Ok h.
Proof.
  revert prev. induction h as [|e h IH]; intros prev Hprev Hok Hle Hs; [done|].
  inversion_clear Hok as [|?? He Hh]. inversion_clear Hle as [|?? Hpe Hph].
  inversion_clear Hs as [|?? Hs' Hall].
  cbn [fmap list_fmap load_events]. rewrite load_event_back by done. cbn.
  rewrite IH; try done.
  - apply good_time_not_nan, He.
  - exact (proj1 (Forall_fmap _ _ _) Hall).
Qed.

Lemma minus_one_le_good u : good_time u -> le_time Float.minus_one u.
Proof.
  intros Hg. pose proof (good_time_not_nan _ Hg). destruct Hg as [_ Hz]. unfold le_time.
  eapply (Float.leb_trans _ Float.zero); done.
Qed.

Lemma load_updated_at_back u : good_time u -> load_updated_at (VFloat u) = Ok tt.
Proof.
  intros Hg. unfold load_updated_at. cbn -[Float.is_finite num_ltb].
  rewrite (nonneg_float_not_ltb u Hg). destruct Hg as [-> _]. done.
Qed.

(** The strict loader is a left inverse of serialization on well-formed records. *)
Lemma load_doc_asdict r : rec_ok r -> load_doc (asdict r) = Ok r.
Proof.
  intros (Hid & Hrc & (u & Hu & Hgu & (dropped & omitted & Hd & Ho & Hw & Hedges)
          & Hev & _ & Hsort & (e0 & He0 & Hst0 & Hrc0) & (el & Hel & Hstl))).
  destruct Hw as (Hd0 & Ho0 & [Hlen1 Hlen2] & Hacc & Hfull).
  destruct r as [rid st rev upd rc det prov dat h]. cbn [record_id reason_code updated_at
    history data revision state] in *. subst upd.
  assert (load_events Float.minus_one (event_to_value <$> h) = Ok h) as Hload.
  { apply load_events_back; try done.
    eapply Forall_impl; [exact Hev|]. intros e He. apply minus_one_le_good, He. }
  unfold load_doc, asdict. set (prev0 := Float.minus_one) in *. cbn [record_id reason_code updated_at
    history data revision state detail provenance].
  set (raw := [("schema_version", _); _; _; _; _; _; _; _; _; _; _]).
  replace (same_keys (dkeys raw) RECORD_FIELDS) with true by reflexivity.
  replace (field "schema_version" raw) with (VInt SCHEMA_VERSION) by reflexivity.
  replace (field "kind" raw) with (VStr lc_kind) by reflexivity.
  replace (field "record_id" raw) with (VStr rid) by reflexivity.
  replace (field "state" raw) with (VStr (lc_value st)) by reflexivity.
  replace (field "revision" raw) with (VInt rev) by reflexivity.
  replace (field "updated_at" raw) with (VFloat u) by reflexivity.
  replace (field "reason_code" raw) with (opt_str rc) by reflexivity.
  replace (field "detail" raw) with (opt_str det) by reflexivity.
  replace (field "provenance" raw) with (VDict prov) by reflexivity.
  replace (field "data" raw) with (VDict dat) by reflexivity.
  replace (field "history" raw) with (VList (event_to_value <$> h)) by reflexivity.
  clear raw. rewrite enum_of_value, length_fmap. clearbody prev0.
  replace (py_eqb (VStr lc_kind) (VStr lc_kind)) with true
    by (symmetry; by apply bool_decide_eq_true).
  assert (optional_text (opt_str rc) "status reason_code must be null or a string" = Ok rc)
    as -> by by destruct rc.
  assert (optional_text (opt_str det) "status detail must be null or a string" = Ok det)
    as -> by by destruct det.
  rewrite load_updated_at_back, Hid by done. cbn -[MAX_STATUS_HISTORY_EVENTS count_of load_events fmap].
  rewrite (proj2 (Z.ltb_ge rev 0)) by lia. cbn -[MAX_STATUS_HISTORY_EVENTS count_of load_events fmap].
  rewrite bool_decide_eq_false_2 by done. cbn -[MAX_STATUS_HISTORY_EVENTS count_of load_events fmap].
  rewrite (proj2 (Z.eqb_neq _ 0)) by lia.
  rewrite (proj2 (Z.ltb_ge (rev + 1) _)), (proj2 (Z.ltb_ge MAX_STATUS_HISTORY_EVENTS _)) by lia.
  rewrite Hd, Ho. cbn -[MAX_STATUS_HISTORY_EVENTS count_of load_events fmap].
  rewrite (proj2 (Z.ltb_ge dropped 0)), (proj2 (Z.ltb_ge omitted 0)) by lia.
  cbn -[MAX_STATUS_HISTORY_EVENTS count_of load_events fmap].
  rewrite (proj2 (Z.eqb_eq (_ + dropped + omitted) _)) by lia.
  assert (negb (dropped =? 0) && negb (Z.of_nat (length h) =? MAX_STATUS_HISTORY_EVENTS) = false)
    as ->.
  { destruct (Z.eqb_spec dropped 0); [done|]. rewrite Hfull by done. by rewrite Z.eqb_refl. }
  cbn -[MAX_STATUS_HISTORY_EVENTS load_events fmap]. rewrite Hload. cbn -[MAX_STATUS_HISTORY_EVENTS].
  rewrite He0, bool_decide_eq_true_2, bool_decide_eq_true_2 by done. cbn.
  rewrite Hedges, Hel. cbn. by rewrite bool_decide_eq_true_2.
Qed.

(** ** Appending to the history *)

Lemma legal_path_cons a h : legal_path (a :: h) = true -> legal_path h = true.
Proof. destruct h; cbn; [done|]. by intros [_ ?]%andb_prop. Qed.

Lemma legal_path_tail h : legal_path h = true -> legal_path (tail h) = true.
Proof. destruct h; [done|]. apply legal_path_cons. Qed.

Lemma legal_path_snoc h a e :
  legal_path h = true -> last h = Some a -> legal_edge a e = true -> legal_path (h ++ [e]) = true.
Proof.
  induction h as [|x [|y h] IH]; cbn [legal_path app]; intros Hp Hl He; [done|..].
  - injection Hl as ->. by rewrite He.
  - apply andb_prop in Hp as [Hxy Hp]. rewrite Hxy. apply IH; done.
Qed.

Lemma edges_ok_tail dropped h : edges_ok dropped h = true -> legal_path (tail h) = true.
Proof. unfold edges_ok. destruct (_ =? _); [apply legal_path_tail|done]. Qed.

Lemma StronglySorted_snoc (l : list float) u :
  StronglySorted le_time l -> Forall (fun t => le_time t u) l -> StronglySorted le_time (l ++ [u]).
Proof.
  induction 1 as [|x l Hs IH Hx]; intros Hu; cbn; [repeat constructor|].
  inversion_clear Hu. constructor; [by apply IH|]. apply Forall_app; by repeat constructor.
Qed.

Lemma le_time_trans a b c : good_time b -> le_time a b -> le_time b c -> c <> S754_nan ->
  a <> S754_nan -> le_time a c.
Proof.
  intros Hb Hab Hbc Hc Ha. eapply Float.leb_trans; [..|exact Hab|exact Hbc]; try done.
  by apply good_time_not_nan.
Qed.

Lemma Forall_le_time_weaken h u stamp :
  good_time u -> good_time stamp -> le_time u stamp -> Forall event_ok h ->
  Forall (fun e => le_time (ev_time e) u) h -> Forall (fun e => le_time (ev_time e) stamp) h.
Proof.
  intros Hu Hs Hle Hok Hall. eapply Forall_impl; [apply Forall_and; split; [exact Hok|exact Hall]|].
  cbn. intros e [(_ & He & _) Heu]. eapply (le_time_trans _ u); auto using good_time_not_nan.
Qed.

(** Dropping the second event keeps everything but the window's length. *)
Lemma delete_second (a b : event S) t : delete 1%nat (a :: b :: t) = a :: t.
Proof. done. Qed.

Lemma log_ok_append_keep d rev u stamp st st' h reason :
  log_ok d rev u st h -> good_time u -> good_time stamp -> le_time u stamp ->
  nonempty reason = true -> st' = st \/ st' ∈ lc_transitions st ->
  Z.of_nat (length h) < MAX_STATUS_HISTORY_EVENTS ->
  log_ok d (rev + 1) stamp st' (h ++ [Event st' (VFloat stamp) reason]).
Proof.
  intros ((dr & om & Hd & Ho & (Hd0 & Ho0 & Hlen & Hacc & Hfull) & Hed) & Hev & Hle & Hs
          & (e0 & He0 & Hi) & (el & Hel & <-)) Hu Hst Hus Hr Hedge Hlt.
  assert (dr = 0) as -> by (destruct (decide (dr = 0)); [done|]; specialize (Hfull ltac:(done)); lia).
  pose proof (Forall_le_time_weaken h u stamp Hu Hst Hus Hev Hle) as Hle'.
  split_and!.
  - exists 0, om. split_and!; [done..| |].
    + unfold window_ok. rewrite length_app. cbn [length]. split_and!; lia.
    + unfold edges_ok in *. cbn in *. eapply legal_path_snoc; [done..|].
      unfold legal_edge. cbn. apply orb_true_iff. rewrite !bool_decide_eq_true. naive_solver.
  - apply Forall_app. repeat constructor; auto; apply Hst.
  - apply Forall_app. split; [done|]. repeat constructor.
    apply Float.leb_refl. by apply good_time_not_nan.
  - rewrite fmap_app. apply StronglySorted_snoc; [done|]. by apply Forall_fmap.
  - exists e0. split; [|done]. by destruct h.
  - eexists. by rewrite last_snoc.
Qed.

Lemma count_of_dset_eq k z d : count_of k (dset k (VInt z) d) = VInt z.
Proof. unfold count_of, dget_default. by rewrite dget_dset_eq. Qed.

Lemma count_of_dset_ne k k' v d : k <> k' -> count_of k' (dset k v d) = count_of k' d.
Proof. intros. unfold count_of, dget_default. by rewrite dget_dset_ne. Qed.

(** A full history loses its second event, and the drop is counted. *)
Lemma log_ok_append_drop d rev u stamp st st' a b t reason dropped :
  log_ok d rev u st (a :: b :: t) -> good_time u -> good_time stamp -> le_time u stamp ->
  nonempty reason = true -> st' = st \/ st' ∈ lc_transitions st ->
  Z.of_nat (length (a :: b :: t)) = MAX_STATUS_HISTORY_EVENTS ->
  count_of HISTORY_DROPPED_KEY d = VInt dropped ->
  log_ok (dset HISTORY_DROPPED_KEY (VInt (dropped + 1)) d) (rev + 1) stamp st'
    ((a :: t) ++ [Event st' (VFloat stamp) reason]).
Proof.
  intros ((dr & om & Hd & Ho & (Hd0 & Ho0 & Hlen & Hacc & Hfull) & Hed) & Hev & Hle & Hs
          & (e0 & He0 & Hi) & (el & Hel & <-)) Hu Hst Hus Hr Hedge Hmax Hdr.
  rewrite Hd in Hdr. injection Hdr as ->.
  pose proof (Forall_le_time_weaken _ u stamp Hu Hst Hus Hev Hle) as Hle'.
  assert (exists x t', t = x :: t') as (x & t' & ->).
  { destruct t; [|eauto]. unfold MAX_STATUS_HISTORY_EVENTS in *. cbn in *. lia. }
  apply edges_ok_tail in Hed. cbn [tail] in Hed. apply legal_path_cons in Hed.
  rewrite !Forall_cons in Hev. rewrite !Forall_cons in Hle'. cbn [length] in *.
  split_and!.
  - exists (dropped + 1), om. rewrite count_of_dset_eq, count_of_dset_ne by done. split_and!; [done..| |].
    + unfold window_ok. rewrite length_app. cbn [length]. split_and!; lia.
    + unfold edges_ok. rewrite (proj2 (Z.eqb_neq _ 0)) by lia.
      apply (legal_path_snoc (x :: t') el); [done..|].
      unfold legal_edge. cbn. apply orb_true_iff. rewrite !bool_decide_eq_true. naive_solver.
  - cbn. rewrite !Forall_cons, Forall_app. split_and!; try naive_solver.
    repeat constructor; auto; apply Hst.
  - cbn. rewrite !Forall_cons, Forall_app. split_and!; try naive_solver.
    repeat constructor. apply Float.leb_refl. by apply good_time_not_nan.
  - rewrite fmap_app. apply StronglySorted_snoc.
    + cbn in *. inversion_clear Hs as [|?? Hs' Ha]. inversion_clear Hs'.
      inversion_clear Ha. by constructor.
    + apply Forall_fmap. apply Forall_cons. split; [naive_solver|]. apply Forall_cons. naive_solver.
  - exists e0. split; [|done]. done.
  - eexists. by rewrite last_snoc.
Qed.

Lemma log_ok_append d rev u stamp st st' h reason h' d' :
  log_ok d rev u st h -> good_time u -> good_time stamp -> le_time u stamp ->
  nonempty reason = true -> st' = st \/ st' ∈ lc_transitions st ->
  append_history (Event st' (VFloat stamp) reason) h d = Ok (h', d') ->
  log_ok d' (rev + 1) stamp st' h'.
Proof.
  intros Hlog Hu Hst Hus Hr Hedge Happ. unfold append_history in Happ.
  destruct (_ <=? _) eqn:Hn; bool_prop.
  - pose proof Hlog as ((dr & om & Hd & _ & (Hd0 & _ & Hlen & _) & _) & _).
    rewrite Hd in Happ. cbn -[dset delete] in Happ. rewrite (proj2 (Z.ltb_ge _ _)) in Happ by lia.
    cbn -[dset delete] in Happ. injection Happ as <- <-.
    destruct h as [|a [|b t]]; try (unfold MAX_STATUS_HISTORY_EVENTS in *; cbn in *; lia).
    rewrite delete_second. eapply log_ok_append_drop; eauto. lia.
  - injection Happ as <- <-. by eapply log_ok_append_keep.
Qed.

(** An update that leaves no event is counted. *)
Lemma log_ok_omit d rev u stamp st h omitted :
  log_ok d rev u st h -> good_time u -> good_time stamp -> le_time u stamp ->
  count_of HISTORY_OMITTED_KEY d = VInt omitted ->
  log_ok (dset HISTORY_OMITTED_KEY (VInt (omitted + 1)) d) (rev + 1) stamp st h.
Proof.
  intros ((dr & om & Hd & Ho & (Hd0 & Ho0 & Hlen & Hacc & Hfull) & Hed) & Hev & Hle & Hrest)
    Hu Hst Hus Hom. rewrite Ho in Hom. injection Hom as ->.
  split_and!; [|done| |apply Hrest..].
  - exists dr, (omitted + 1). rewrite count_of_dset_eq, count_of_dset_ne by done.
    split_and!; [done..| |done]. unfold window_ok. split_and!; lia.
  - by eapply (Forall_le_time_weaken h u).
Qed.

(** Caller data cannot touch the accounting. *)
Lemma validate_data_update_keys d k :
  validate_data_update (Some d) = Ok tt -> k ∈ INTERNAL_DATA_KEYS -> k ∉ dkeys d.
Proof.
  intros Hv Hk Hin. apply raise_if_Ok in Hv. rewrite <- not_true_iff_false in Hv. apply Hv.
  apply existsb_exists. exists k. rewrite <- list_elem_of_In. split; [done|].
  by apply bool_decide_eq_true.
Qed.

Lemma count_of_apply_update k d u :
  k ∈ INTERNAL_DATA_KEYS -> validate_data_update u = Ok tt ->
  count_of k (apply_update d u) = count_of k d.
Proof.
  intros Hk Hv. destruct u as [u|]; [|done]. unfold count_of, dget_default, apply_update.
  by rewrite dget_dupdate_not_in by (eapply validate_data_update_keys; eauto).
Qed.

Lemma count_of_fresh k dat :
  k ∈ INTERNAL_DATA_KEYS -> validate_data_update dat = Ok tt ->
  count_of k (default [] dat) = VInt 0.
Proof.
  intros Hk Hv. destruct dat as [d|]; [|done]. unfold count_of, dget_default. cbn [default from_option].
  destruct (dget k d) eqn:Hg; [|by cbn; rewrite Hg].
  exfalso. apply (validate_data_update_keys d k Hv Hk), dget_is_Some. eauto.
Qed.

Lemma log_ok_apply_update d u rev t st h :
  validate_data_update u = Ok tt -> log_ok d rev t st h -> log_ok (apply_update d u) rev t st h.
Proof.
  intros Hv ((dr & om & Hd & Ho & Hw) & Hrest). split; [|done]. exists dr, om.
  rewrite !count_of_apply_update by (try done; unfold INTERNAL_DATA_KEYS; rewrite !elem_of_cons; auto). done.
Qed.

(** ** The writers as steps *)

(** A writer's call, with the clock reading and the lease it gets. *)
Inductive op : Type :=
| OpInitialize (io : store_io) (now : float) (rid : string) (st : S) (prov dat : option dict)
| OpTransition (io : store_io) (now : float) (expected new : S) (reason : string)
    (det : option string) (data_update : option dict) (expected_revision : option Z)
    (commit_data_factory : option (Z -> result exn (option dict)))
| OpUpdate (io : store_io) (now : float) (expected : S) (reason : string)
    (det : option string) (data_update : option dict) (expected_revision : option Z)
    (record_history : bool).

Definition exec (o : op) (f : file) : file * result exn (StatusRecord S) :=
  match o with
  | OpInitialize io now rid st prov dat => initialize io now rid st prov dat f
  | OpTransition io now expected new reason det du er fac =>
      transition io now expected new reason det du er fac f
  | OpUpdate io now expected reason det du er rh => update io now expected reason det du er rh f
  end.

Definition op_now (o : op) : float :=
  match o with
  | OpInitialize _ now _ _ _ _ | OpTransition _ now _ _ _ _ _ _ _
  | OpUpdate _ now _ _ _ _ _ _ => now
  end.

Definition op_io (o : op) : store_io :=
  match o with
  | OpInitialize io _ _ _ _ _ | OpTransition io _ _ _ _ _ _ _ _ | OpUpdate io _ _ _ _ _ _ _ => io
  end.

(** The revision a writer says it has read, if it says so. *)
Definition op_expected_revision (o : op) : option Z :=
  match o with
  | OpInitialize _ _ _ _ _ _ => None
  | OpTransition _ _ _ _ _ _ _ er _ | OpUpdate _ _ _ _ _ _ er _ => er
  end.

(** Files the store's own writers produce, with a clock that reads sane times. *)
Inductive reachable : file -> Prop :=
| reach_missing : reachable Missing
| reach_exec o f : reachable f -> good_time (op_now o) -> reachable (exec o f).1.

(** The abstract lifecycle: at most one record, at a state and a revision. *)
Definition abstract : Type := option (S * Z).

Inductive astep : abstract -> op -> abstract -> Prop :=
| astep_init io now rid prov dat :
    astep None (OpInitialize io now rid lc_initial prov dat) (Some (lc_initial, 0))
| astep_transition io now s s' reason det du er fac n :
    s' ∈ lc_transitions s -> er = None \/ er = Some n ->
    astep (Some (s, n)) (OpTransition io now s s' reason det du er fac) (Some (s', n + 1))
| astep_update io now s reason det du er rh n :
    er = None \/ er = Some n ->
    astep (Some (s, n)) (OpUpdate io now s reason det du er rh) (Some (s, n + 1)).

Definition abs_record (r : StatusRecord S) : abstract := Some (state r, revision r).

(** What a file of the store holds. *)
Definition holds (f : file) (a : abstract) : Prop :=
  match a with
  | None => f = Missing
  | Some _ => exists r, f = Doc (asdict r) /\ rec_ok r /\ abs_record r = a
  end.

(** An operation writes its record, and returns it or, after an ambiguous failure, raises;
    or it raises and leaves the file as it was. *)
Lemma commit_cases io f checks (body : result exn (StatusRecord S)) f' x :
  commit io f checks body = (f', x) ->
  (exists r, checks = Ok tt /\ body = Ok r /\ json_writable (asdict r) = true /\ f' = Doc (asdict r) /\
     (x = Ok r /\ io = io_done \/ (exists e, x = Err e) /\ ambiguous io)) \/
  (f' = f /\ exists e, x = Err e).
Proof.
  unfold commit. destruct checks as [[]|e]; [|naive_solver]. destruct io as [le wr re]. cbn [io_lease io_write io_release].
  destruct le; cbn [acquire_lease]; [|naive_solver..].
  destruct body as [r|e]; [|destruct re; cbn; naive_solver].
  unfold atomic_write_json. destruct (json_writable (asdict r)) eqn:Hw; [|destruct re; cbn; naive_solver].
  destruct wr; cbn [atomic_write]; destruct re; cbn [lease_exit]; intros [= <- <-];
    (right; split; [done|by eexists]) || (left; exists r; split_and!; try done; (by left) ||
      (right; split; [by eexists|split; [done|]]; cbn; (by left) || (right; done))).
Qed.

Lemma commit_Ok io f checks (body : result exn (StatusRecord S)) f' r :
  commit io f checks body = (f', Ok r) ->
  checks = Ok tt /\ body = Ok r /\ json_writable (asdict r) = true /\ f' = Doc (asdict r) /\ io = io_done.
Proof.
  intros [(r' & H1 & H2 & H3 & H4 & [[[= ->] ->]|[[e ?] _]])|(_ & e & ?)]%commit_cases; done.
Qed.

Lemma commit_done f (body : result exn (StatusRecord S)) r checks :
  checks = Ok tt -> body = Ok r -> json_writable (asdict r) = true ->
  commit io_done f checks body = (Doc (asdict r), Ok r).
Proof. intros -> -> Hw. unfold commit, atomic_write_json. cbn [io_done io_lease io_write io_release acquire_lease]. by rewrite Hw. Qed.

Lemma load_holds f a r :
  holds f a -> load f = Ok r ->
  match r with Some r => f = Doc (asdict r) /\ rec_ok r /\ a = abs_record r | None => a = None end.
Proof.
  intros Hh Hl. destruct a as [[s n]|]; cbn in Hh.
  - destruct Hh as (r' & -> & Hok & Habs). unfold load in Hl. rewrite load_doc_asdict in Hl by done.
    cbn in Hl. injection Hl as <-. done.
  - subst f. cbn in Hl. injection Hl as <-. done.
Qed.

Lemma cas_load_Ok f a expected er r :
  holds f a -> cas_load expected er f = Ok r ->
  rec_ok r /\ state r = expected /\ a = Some (expected, revision r) /\
  (er = None \/ er = Some (revision r)).
Proof.
  intros Hh Hc. unfold cas_load in Hc. apply bind_Ok in Hc as (o & Hl & Hc).
  pose proof (load_holds _ _ _ Hh Hl) as Ho. destruct o as [r0|]; [|done].
  destruct Ho as (-> & Hok & ->). unfold conflict_if in Hc. res_inv. bool_prop. subst.
  split_and!; try done. destruct er; [|by left]. bool_prop. subst. by right.
Qed.

Lemma bump_time_Ok r now stamp :
  rec_ok r -> good_time now -> bump_time r now = Ok stamp ->
  exists u, updated_at r = VFloat u /\ good_time u /\ good_time stamp /\ le_time u stamp /\
    log_ok (data r) (revision r) u (state r) (history r).
Proof.
  intros (_ & _ & u & Hu & Hg & Hlog) Hnow Hb. unfold bump_time in Hb. rewrite Hu in Hb.
  cbn -[Float.max] in Hb. injection Hb as <-. exists u.
  pose proof (good_time_not_nan _ Hg). pose proof (good_time_not_nan _ Hnow).
  split_and!; try done.
  - unfold Float.max. by destruct (Float.gtb _ _).
  - by apply Float.max_l.
Qed.

Lemma nonneg_int_Ok v m z : nonneg_int v m = Ok z -> v = VInt z /\ 0 <= z.
Proof. destruct v; cbn; try done. destruct (_ <? _) eqn:E; [done|]. intros [= ->]. bool_prop. done. Qed.

(** ** Simulation: every call either refuses or is a step of the lifecycle *)

Lemma rec_ok_write rid s s' u rev stamp reason det prov d h :
  nonempty rid = true -> nonempty reason = true -> good_time stamp ->
  log_ok d rev stamp s h -> s' = s -> u = VFloat stamp ->
  rec_ok (Rec rid s' rev u (Some reason) det prov d h).
Proof.
  intros Hid Hr Hg Hlog -> ->. split_and!; cbn; [done| |eauto].
  intros [= ->]. done.
Qed.

Lemma initialize_sim now rid st prov dat f (r : StatusRecord S) a :
  holds f a -> good_time now -> initialize_checks rid st dat = Ok tt ->
  initialize_record now rid st prov dat f = Ok r ->
  rec_ok r /\ a = None /\ st = lc_initial /\
  abs_record r = Some (lc_initial, 0).
Proof.
  intros Hh Hg Hc Hi. unfold initialize_checks, value_error_if in Hc.
  unfold initialize_record, conflict_if in Hi. res_inv. simplify_eq. bool_prop. subst.
  match goal with H : load f = Ok ?o |- _ => pose proof (load_holds _ _ _ Hh H) as Ho; destruct o end.
  { exfalso. naive_solver. }
  repeat match goal with u : unit |- _ => destruct u end.
  subst a. split_and!; try done. split_and!; [done..|].
  exists now. split_and!; [done..|]. split_and!.
  - exists 0, 0. cbn [data]. rewrite !count_of_fresh by (try done; unfold INTERNAL_DATA_KEYS;
      rewrite !elem_of_cons; auto). split_and!; [done..|]. by cbn.
  - repeat constructor; apply Hg.
  - repeat constructor. apply Float.leb_refl. by apply good_time_not_nan.
  - repeat constructor.
  - eexists. split_and!; done.
  - eexists. split; done.
Qed.

Lemma transition_sim now expected new reason det du er fac f (r : StatusRecord S) a :
  holds f a -> good_time now -> transition_checks expected new reason du er = Ok tt ->
  transition_record now expected new reason det du er fac f = Ok r ->
  rec_ok r /\
  exists n, a = Some (expected, n) /\ new ∈ lc_transitions expected /\ (er = None \/ er = Some n) /\
    abs_record r = Some (new, n + 1).
Proof.
  intros Hh Hg Hc Hi. unfold transition_checks, validate_reason_detail, value_error_if in Hc.
  unfold transition_record, value_error_if in Hi.
  res_inv. simplify_eq. bool_prop. subst.
  match goal with H : cas_load _ _ _ = Ok ?r0 |- _ =>
    destruct (cas_load_Ok _ _ _ _ _ Hh H) as (Hok & Hst & Ha & Her) end.
  match goal with H : bump_time _ _ = Ok _ |- _ =>
    destruct (bump_time_Ok _ _ _ Hok Hg H) as (u & _ & Hgu & Hgs & Hus & Hlog) end.
  repeat match goal with u : unit |- _ => destruct u end.
  match goal with H : append_history _ _ _ = Ok ?p |- _ => destruct p as [h' d'] end.
  split.
  - eapply rec_ok_write; [apply Hok|done|exact Hgs| |done..].
    eapply (log_ok_append _ _ u); [|done..| |eassumption].
    + by repeat apply log_ok_apply_update.
    + right. by rewrite Hst.
  - eexists. split_and!; [exact Ha|done..].
Qed.

Lemma update_sim now expected reason det du er rh f (r : StatusRecord S) a :
  holds f a -> good_time now -> update_checks reason du er = Ok tt ->
  update_record now expected reason det du er rh f = Ok r ->
  rec_ok r /\
  exists n, a = Some (expected, n) /\ (er = None \/ er = Some n) /\
    abs_record r = Some (expected, n + 1).
Proof.
  intros Hh Hg Hc Hi. unfold update_checks, validate_reason_detail, value_error_if in Hc.
  unfold update_record in Hi.
  res_inv. simplify_eq. bool_prop. subst.
  match goal with H : cas_load _ _ _ = Ok ?r0 |- _ =>
    destruct (cas_load_Ok _ _ _ _ _ Hh H) as (Hok & Hst & Ha & Her) end.
  subst expected.
  match goal with H : bump_time _ _ = Ok _ |- _ =>
    destruct (bump_time_Ok _ _ _ Hok Hg H) as (u & _ & Hgu & Hgs & Hus & Hlog) end.
  repeat match goal with u : unit |- _ => destruct u end.
  match goal with H : (if rh then _ else _) = Ok ?p |- _ => destruct p as [h' d'] end.
  split.
  - eapply rec_ok_write; [apply Hok|done|exact Hgs| |done..]. destruct rh.
    + eapply (log_ok_append _ _ u); [by apply log_ok_apply_update|done..|by left|eassumption].
    + res_inv. simplify_eq.
      match goal with H : nonneg_int _ _ = Ok _ |- _ => apply nonneg_int_Ok in H as [? _] end.
      eapply (log_ok_omit _ _ u); [by apply log_ok_apply_update|done..].
  - eexists. split_and!; [exact Ha|done..].
Qed.

(** A call that changes the file has made the step it was asked for, also when it raises. *)
Lemma exec_cases o f f' x a :
  holds f a -> good_time (op_now o) -> exec o f = (f', x) ->
  (exists r : StatusRecord S, f' = Doc (asdict r) /\ json_writable (asdict r) = true /\ rec_ok r /\ astep a o (abs_record r) /\
     (x = Ok r /\ op_io o = io_done \/ (exists e, x = Err e) /\ ambiguous (op_io o))) \/
  (f' = f /\ exists e, x = Err e).
Proof.
  intros Hh Hg He. destruct o; cbn [exec op_now op_io] in *;
    apply commit_cases in He as [(r & Hc & Hb & Hw & -> & Hx)|?]; auto; left; exists r.
  - destruct (initialize_sim _ _ _ _ _ _ _ _ Hh Hg Hc Hb) as (Hok & -> & -> & ->).
    split_and!; [done..|constructor|done].
  - destruct (transition_sim _ _ _ _ _ _ _ _ _ _ _ Hh Hg Hc Hb) as (Hok & n & -> & Hin & Her & ->).
    split_and!; [done..|by constructor|done].
  - destruct (update_sim _ _ _ _ _ _ _ _ _ _ Hh Hg Hc Hb) as (Hok & n & -> & Her & ->).
    split_and!; [done..|by constructor|done].
Qed.

Lemma exec_Ok o f f' r a :
  holds f a -> good_time (op_now o) -> exec o f = (f', Ok r) ->
  f' = Doc (asdict r) /\ rec_ok r /\ astep a o (abs_record r).
Proof.
  intros Hh Hg He. destruct (exec_cases _ _ _ _ _ Hh Hg He)
    as [(r' & H1 & H2 & H3 & H4 & [[[= ->] _]|[[e ?] _]])|(_ & e & ?)]; done.
Qed.

Lemma holds_record r : rec_ok r -> holds (Doc (asdict r)) (abs_record r).
Proof. intros. exists r. done. Qed.

Lemma exec_holds o f a : holds f a -> good_time (op_now o) -> exists a', holds (exec o f).1 a'.
Proof.
  intros Hh Hg. destruct (exec o f) as [f' x] eqn:He; cbn.
  destruct (exec_cases _ _ _ _ _ Hh Hg He) as [(r & -> & _ & Hok & _)|(-> & _)]; eauto using holds_record.
Qed.

Lemma reachable_holds f : reachable f -> exists a, holds f a.
Proof.
  induction 1 as [|o f _ [a Ha] Hg]; [by exists None|]. by eapply exec_holds.
Qed.

Lemma load_doc_back r : rec_ok r -> load (Doc (asdict r)) = Ok (Some r).
Proof. intros Hok. unfold load. by rewrite load_doc_asdict. Qed.

(** ** Sequences of calls *)

(** The file after a sequence of calls, and the records that a reader finds after each. *)
Fixpoint run (ops : list op) (f : file) : file * list (StatusRecord S) :=
  match ops with
  | [] => (f, [])
  | o :: ops' =>
      let f1 := (exec o f).1 in
      let '(f2, recs) := run ops' f1 in
      (f2, match load f1 with Ok (Some r) => r :: recs | _ => recs end)
  end.

Lemma exec_load o f a :
  holds f a -> good_time (op_now o) ->
  (exists r : StatusRecord S, (exec o f).1 = Doc (asdict r) /\ load (exec o f).1 = Ok (Some r) /\ rec_ok r /\
     astep a o (abs_record r)) \/
  (exec o f).1 = f.
Proof.
  intros Hh Hg. destruct (exec o f) as [f' x] eqn:He; cbn.
  destruct (exec_cases _ _ _ _ _ Hh Hg He) as [(r & -> & _ & Hok & Hs & _)|(-> & _)]; [left|by right].
  exists r. by rewrite load_doc_back.
Qed.

Lemma holds_load f a : holds f a -> load f = Ok None /\ a = None \/
  exists r, load f = Ok (Some r) /\ f = Doc (asdict r) /\ rec_ok r /\ a = abs_record r.
Proof.
  destruct a as [[s n]|]; cbn.
  - intros (r & -> & Hok & <-). right. exists r. rewrite load_doc_back by done. done.
  - intros ->. by left.
Qed.

(** An invariant of the abstract lifecycle, over the trace of states that are read. *)
Lemma status_run_ind (P : list S -> abstract -> Prop) :
  (forall tr o a a', P tr a -> astep a o a' ->
     P (tr ++ (if a' is Some (s, _) then [s] else [])) a') ->
  (forall tr s n, P tr (Some (s, n)) -> P (tr ++ [s]) (Some (s, n))) ->
  forall ops f a tr, holds f a -> P tr a -> Forall (fun o => good_time (op_now o)) ops ->
  exists a', holds (run ops f).1 a' /\ P (tr ++ (state <$> (run ops f).2)) a'.
Proof.
  intros Hstep Hread ops. induction ops as [|o ops IH]; intros f a tr Hh HP Hg; cbn.
  { exists a. by rewrite app_nil_r. }
  inversion_clear Hg as [|?? Hgo Hgs]. destruct (exec_load o f a Hh Hgo) as [(r & Hf & Hl & Hok & Hs)|Hf].
  - pose proof (Hstep _ _ _ _ HP Hs) as HP'. cbn in HP'. rewrite Hl, Hf.
    destruct (IH _ _ _ (holds_record r Hok) HP' Hgs) as (a' & Ha' & HPa').
    destruct (run ops _) as [f2 recs]. cbn in *. exists a'. by rewrite <- app_assoc in HPa'.
  - rewrite Hf. destruct (holds_load f a Hh) as [[-> ->]|(r & -> & -> & Hok & ->)].
    + destruct (IH _ _ _ Hh HP Hgs) as (a' & Ha' & HPa'). destruct (run ops f) as [f2 recs]. eauto.
    + destruct (IH _ _ _ Hh (Hread _ _ _ HP) Hgs) as (a' & Ha' & HPa').
      destruct (run ops _) as [f2 recs]. cbn in *. exists a'. by rewrite <- app_assoc in HPa'.
Qed.
End Invariant.
#[export] Hint Resolve holds_record : exaserve.

(** ** The store as its callers see it *)

Section Promises.
Context {S : Type} `{!Lifecycle S}.

Lemma reachable_writable f : reachable (S := S) f ->
  match f with Doc v => json_writable v = true | Missing => True | Unreadable => False end.
Proof.
  induction 1 as [|o f Hr IH Hg]; [done|]. destruct (reachable_holds f Hr) as [a Ha].
  destruct (exec o f) as [f' x] eqn:He; cbn.
  by destruct (exec_cases _ _ _ _ _ Ha Hg He) as [(r & -> & Hw & _)|(-> & _)].
Qed.

Lemma writable_dset k v d :
  json_writable v = true -> json_writable (VDict d) = true -> json_writable (VDict (dset k v d)) = true.
Proof.
  intros Hv. induction d as [|[k' v'] d IH]; cbn in *; [by rewrite Hv|].
  intros [Hv' Hd]%andb_prop. destruct (decide (k' = k)); cbn.
  - by rewrite Hv, Hd.
  - rewrite Hv'. by apply IH.
Qed.

Lemma writable_apply_update d u :
  json_writable (VDict d) = true -> from_option (fun u => json_writable (VDict u)) true u = true ->
  json_writable (VDict (apply_update d u)) = true.
Proof.
  destruct u as [u|]; [|done]. cbn -[json_writable]. unfold dupdate. revert d.
  induction u as [|[k v] u IH]; intros d Hd Hu; [done|].
  apply andb_prop in Hu as [Hv Hu]. cbn [fold_left]. apply IH; [|done]. by apply writable_dset.
Qed.

Lemma writable_events (h : list (event S)) :
  Forall event_ok h -> forallb json_writable (event_to_value <$> h) = true.
Proof.
  intros Hh. apply forallb_forall. intros v (e & -> & He)%list_elem_of_In%list_elem_of_fmap.
  rewrite Forall_forall in Hh. destruct (Hh e He) as (Hat & [Hfin _] & _).
  unfold event_to_value. cbn. rewrite Hat. cbn. by rewrite Hfin.
Qed.

Lemma append_history_total (e : event S) d rev u st h :
  log_ok d rev u st h -> json_writable (VDict d) = true ->
  exists h' d', append_history e h d = Ok (h', d') /\ json_writable (VDict d') = true /\
    last h' = Some e.
Proof.
  intros ((dr & om & Hd & _ & (Hd0 & _) & _) & _) Hw. unfold append_history.
  destruct (_ <=? _).
  - rewrite Hd. cbn -[dset delete]. rewrite (proj2 (Z.ltb_ge _ _)) by lia. cbn -[dset delete].
    eexists _, _. split_and!; [done|by apply writable_dset|apply last_snoc].
  - eexists _, _. split_and!; [done..|apply last_snoc].
Qed.

Lemma cas_load_back (r : StatusRecord S) er :
  rec_ok r -> er = None \/ er = Some (revision r) ->
  cas_load (state r) er (Doc (asdict r)) = Ok r.
Proof.
  intros Hok Her. unfold cas_load. rewrite load_doc_back by done. cbn.
  rewrite bool_decide_eq_true_2 by done. cbn.
  destruct Her as [->| ->]; [done|]. by rewrite Z.eqb_refl.
Qed.

(** C2: Refinement: a call on a file of the store that changes the file is exactly one step of
    the lifecycle -- creation at the initial state with revision 0, a legal edge, or a
    same-state update, from the state (and the revision, when given) the caller named -- and
    the file then loads back as the record of that step. A call that returns has made the
    step and returns that record. A call that raises has left the file as it was, or, when
    the directory could not be synced after the rename or the lease could not be released,
    has made the step that it was asked for; a call whose write and lease succeed never does
    the latter. *)
Theorem store_refines_lifecycle (o : op) f (a : abstract) :
  holds f a -> good_time (op_now o) ->
  let '(f', x) := exec o f in
  (exists r : StatusRecord S, astep a o (abs_record r) /\ holds f' (abs_record r) /\ load f' = Ok (Some r) /\
     (x = Ok r /\ op_io o = io_done \/ (exists e, x = Err e) /\ ambiguous (op_io o))) \/
  (f' = f /\ exists e, x = Err e).
Proof.
  intros Hh Hg. destruct (exec o f) as [f' x] eqn:He.
  destruct (exec_cases _ _ _ _ _ Hh Hg He) as [(r & -> & _ & Hok & Hs & Hx)|?]; [left|by right].
  exists r. split_and!; [done|by apply holds_record|by apply load_doc_back|done].
Qed.

(** Whatever sequence of calls wrote the file, the strict loader accepts it, and
    the record it returns keeps its creation event, at most 256 events, and an
    exact count of the events dropped and omitted. *)
Theorem store_always_readable f :
  reachable (S := S) f ->
  (f = Missing /\ load (S := S) f = Ok None) \/
  exists (r : StatusRecord S) dropped omitted,
    f = Doc (asdict r) /\ load f = Ok (Some r) /\
    count_of HISTORY_DROPPED_KEY (data r) = VInt dropped /\
    count_of HISTORY_OMITTED_KEY (data r) = VInt omitted /\
    window_ok dropped omitted (revision r) (history r) /\
    begins_at_init (history r) /\
    ev_state <$> last (history r) = Some (state r).
Proof.
  intros Hr. destruct (reachable_holds f Hr) as [[[s n]|] Ha]; [|by left; cbn in Ha; subst].
  destruct Ha as (r & -> & Hok & _). right.
  pose proof Hok as (_ & _ & u & _ & _ & (dr & om & Hd & Ho & Hw & _) & _ & _ & _ & Hb & (e & He & Hst)).
  exists r, dr, om. rewrite load_doc_back, He by done. split_and!; try done. cbn. by rewrite Hst.
Qed.

Lemma writable_record (r : StatusRecord S) stamp :
  updated_at r = VFloat stamp -> Float.is_finite stamp = true -> Forall event_ok (history r) ->
  json_writable (VDict (provenance r)) = true -> json_writable (VDict (data r)) = true ->
  json_writable (asdict r) = true.
Proof.
  intros Hu Hf Hev Hp Hd. unfold asdict. cbn in *. rewrite Hu, (writable_events _ Hev), Hp, Hd. cbn.
  rewrite Hf. by destruct (reason_code r), (detail r).
Qed.

Lemma writable_parts (r : StatusRecord S) :
  json_writable (asdict r) = true ->
  json_writable (VDict (provenance r)) = true /\ json_writable (VDict (data r)) = true.
Proof. cbn. intros Hw. bool_prop. done. Qed.

Lemma rec_ok_revision (r : StatusRecord S) : rec_ok r -> 0 <= revision r.
Proof. intros (_ & _ & u & _ & _ & (? & ? & _ & _ & (? & ? & ? & ? & _) & _) & _). lia. Qed.

Lemma validate_expected_revision_ok (r : StatusRecord S) er :
  rec_ok r -> er = None \/ er = Some (revision r) -> validate_expected_revision er = Ok tt.
Proof.
  intros Hok%rec_ok_revision [->| ->]; [done|]. unfold validate_expected_revision, value_error_if.
  cbn. by rewrite (proj2 (Z.ltb_ge _ _)).
Qed.

(** A legal transition from a fresh view, with writable data of the caller and of the
    factory, goes through. *)
Lemma transition_goes (r : StatusRecord S) now new reason det du er fac cu :
  rec_ok r -> json_writable (asdict r) = true -> good_time now ->
  new ∈ lc_transitions (state r) -> nonempty reason = true ->
  validate_data_update du = Ok tt -> from_option (fun u => json_writable (VDict u)) true du = true ->
  er = None \/ er = Some (revision r) ->
  match fac with Some g => g (revision r + 1) | None => Ok None end = Ok cu ->
  validate_data_update cu = Ok tt -> from_option (fun u => json_writable (VDict u)) true cu = true ->
  overlaps cu du = false ->
  exists r', transition io_done now (state r) new reason det du er fac (Doc (asdict r))
               = (Doc (asdict r'), Ok r') /\
    state r' = new /\ revision r' = revision r + 1 /\ record_id r' = record_id r /\
    reason_code r' = Some reason /\ detail r' = det /\
    ev_state <$> last (history r') = Some new.
Proof.
  intros Hok Hw Hg Hnew Hreason Hdu Hwdu Her Hfac Hcu Hwcu Hov.
  pose proof Hok as (Hid & _ & u & Hu & Hgu & Hlog).
  assert (bump_time r now = Ok (Float.max u now)) as Hb by (unfold bump_time; by rewrite Hu).
  destruct (bump_time_Ok _ _ _ Hok Hg Hb) as (u' & Hu' & _ & Hgs & Hle & _).
  rewrite Hu in Hu'. injection Hu' as <-.
  destruct (writable_parts r Hw) as [Hwp Hwd].
  set (ev := Event new (VFloat (Float.max u now)) reason).
  pose proof (log_ok_apply_update _ _ _ _ _ _ Hcu (log_ok_apply_update _ _ _ _ _ _ Hdu Hlog)) as Hlog2.
  destruct (append_history_total ev (apply_update (apply_update (data r) du) cu) (revision r) u (state r) (history r))
    as (h' & d' & Happ & Hwd' & Hlast);
    [done|by apply writable_apply_update; [apply writable_apply_update|]|].
  pose proof (log_ok_append _ _ _ _ _ _ _ _ _ _ Hlog2 Hgu Hgs Hle Hreason (or_intror Hnew) Happ) as (_ & Hev & _).
  eexists (Rec (record_id r) new (revision r + 1) (VFloat (Float.max u now)) (Some reason) det
    (provenance r) d' h').
  split; [|by cbn; rewrite Hlast].
  apply commit_done.
  - unfold transition_checks, validate_reason_detail, value_error_if. rewrite Hreason. cbn [negb raise_if].
    rewrite (validate_expected_revision_ok r er), Hdu, bool_decide_eq_true_2 by done. done.
  - unfold transition_record, value_error_if. rewrite cas_load_back by done. cbn -[append_history apply_update bump_time].
    rewrite Hb. cbn -[append_history apply_update]. rewrite Hfac. cbn -[append_history apply_update].
    rewrite Hcu. cbn -[append_history apply_update]. rewrite Hov. cbn -[append_history apply_update].
    change (Event _ _ _) with ev. by rewrite Happ.
  - apply (writable_record _ (Float.max u now)); try done. apply Hgs.
Qed.

(** A transition the lifecycle allows, asked for with a fresh view and writable
    data, commits: the file holds the next revision at the new state. *)
Theorem transition_commits f (r : StatusRecord S) now new reason det du er :
  reachable (S := S) f -> load f = Ok (Some r) -> good_time now ->
  new ∈ lc_transitions (state r) -> nonempty reason = true ->
  validate_data_update du = Ok tt ->
  from_option (fun u => json_writable (VDict u)) true du = true ->
  er = None \/ er = Some (revision r) ->
  exists r', transition io_done now (state r) new reason det du er None f
               = (Doc (asdict r'), Ok r') /\
    state r' = new /\ revision r' = revision r + 1 /\ record_id r' = record_id r /\
    reason_code r' = Some reason /\ detail r' = det /\
    ev_state <$> last (history r') = Some new.
Proof.
  intros Hreach Hload Hg Hnew Hreason Hdu Hwdu Her.
  pose proof (reachable_writable f Hreach) as Hw.
  destruct (reachable_holds f Hreach) as [a Ha].
  destruct (holds_load f a Ha) as [[Hn _]|(r0 & Hl & -> & Hok & _)]; [congruence|].
  rewrite Hl in Hload. injection Hload as ->. by apply (transition_goes r now new reason det du er None None).
Qed.

Lemma astep_revision (a : abstract) o s n :
  astep (S := S) a o (Some (s, n)) -> match a with Some (_, m) => n = m + 1 | None => n = 0 end.
Proof. by inversion 1. Qed.

(** A file changes only by gaining revisions. *)
Lemma run_revision ops f (r : StatusRecord S) :
  f = Doc (asdict r) -> rec_ok r -> Forall (fun o => good_time (op_now o)) ops ->
  exists r', (run ops f).1 = Doc (asdict r') /\ rec_ok r' /\
    (revision r < revision r' \/ (run ops f).1 = f).
Proof.
  revert f r. induction ops as [|o ops IH]; intros f r Hf Hok Hg; cbn.
  { exists r. auto. }
  inversion_clear Hg as [|?? Hgo Hgs].
  assert (holds f (abs_record r)) as Hh by (subst f; by apply holds_record).
  destruct (exec_load o f _ Hh Hgo) as [(r1 & Hf1 & _ & Hok1 & Hs)|Hf1].
  - apply astep_revision in Hs. cbn in Hs. rewrite Hf1.
    destruct (IH _ r1 eq_refl Hok1 Hgs) as (r' & Heq & Hok' & Hor).
    destruct (run ops _) as [f2 recs]. cbn in *. exists r'. split_and!; [done..|]. left.
    destruct Hor as [|Hsame]; [lia|]. subst f2.
    assert (load (S := S) (Doc (asdict r')) = load (Doc (asdict r1))) as Hl by by rewrite Hsame.
    rewrite !load_doc_back in Hl by done. injection Hl as ->. lia.
  - rewrite Hf1. destruct (IH _ _ Hf Hok Hgs) as (r' & Hr').
    destruct (run ops f) as [f2 recs]. eauto.
Qed.

(** A call that names another revision than the one on file raises and changes nothing. *)
Lemma stale_exec (o : op) (r : StatusRecord S) n :
  rec_ok r -> good_time (op_now o) -> op_expected_revision o = Some n -> n <> revision r ->
  exists e, exec o (Doc (asdict r)) = (Doc (asdict r), Err e).
Proof.
  intros Hok Hg Her Hn. destruct (exec o _) as [f' x] eqn:He.
  destruct (exec_cases _ _ _ _ _ (holds_record r Hok) Hg He) as [(r' & _ & _ & _ & Hs & _)|(-> & e & ->)]; [|eauto].
  exfalso. inversion Hs; subst; cbn in Her; destruct_or?; simplify_eq; done.
Qed.

(** Compare-and-set excludes a stale writer (no ABA): once any call has changed
    the file since a record was read, a call that names that record's revision
    raises and changes nothing -- even when the state is back at what was read. *)
Theorem stale_writer_refused f ops (o : op) (r : StatusRecord S) :
  reachable (S := S) f -> load f = Ok (Some r) ->
  Forall (fun o => good_time (op_now o)) ops -> (run ops f).1 <> f ->
  good_time (op_now o) -> op_expected_revision o = Some (revision r) ->
  exists e, exec o (run ops f).1 = ((run ops f).1, Err e).
Proof.
  intros Hreach Hload Hops Hne Hg Her.
  destruct (reachable_holds f Hreach) as [a Ha].
  destruct (holds_load f a Ha) as [[Hn _]|(r0 & Hl & Hf & Hok & _)]; [congruence|].
  rewrite Hl in Hload. injection Hload as ->.
  destruct (run_revision ops f r Hf Hok Hops) as (r' & Heq & Hok' & [Hlt|?]); [|done].
  rewrite Heq. apply (stale_exec o r' (revision r)); [done..|lia].
Qed.

(** A state without outgoing edges is final: after any calls the record is still
    in it. *)
Theorem terminal_state_final f ops (r : StatusRecord S) :
  reachable (S := S) f -> load f = Ok (Some r) -> lc_transitions (state r) = [] ->
  Forall (fun o => good_time (op_now o)) ops ->
  exists r', load (run ops f).1 = Ok (Some r') /\ state r' = state r.
Proof.
  intros Hreach Hload Hterm Hops.
  destruct (reachable_holds f Hreach) as [a Ha].
  destruct (holds_load f a Ha) as [[Hn _]|(r0 & Hl & Hf & Hok & ->)]; [congruence|].
  rewrite Hl in Hload. injection Hload as ->.
  destruct (status_run_ind (fun _ a => exists n, a = Some (state r, n))) with (ops := ops) (f := f)
    (a := abs_record r) (tr := @nil S) as (a' & Ha' & n & ->); [|done|done|by eexists|done|].
  - intros tr o a1 a2 [n ->] Hs. inversion Hs; subst.
    + exfalso. rewrite Hterm in *. set_solver.
    + by eexists.
  - destruct (holds_load _ _ Ha') as [[_ ?]|(r' & Hl' & _ & _ & Heq)]; [done|].
    exists r'. split; [done|]. by injection Heq.
Qed.
End Promises.

(** ** The deployment lifecycle *)

(** The states a deployment passes on its way to [s]. *)
Definition milestones (s : DeploymentState) : list DeploymentState :=
  match s with
  | PLANNED => [PLANNED]
  | STAGING => [PLANNED; STAGING]
  | CLUSTER_STARTING => [PLANNED; STAGING; CLUSTER_STARTING]
  | DEPLOYING => [PLANNED; STAGING; CLUSTER_STARTING; DEPLOYING]
  | VALIDATING => [PLANNED; STAGING; CLUSTER_STARTING; DEPLOYING; VALIDATING]
  | READY => [PLANNED; STAGING; CLUSTER_STARTING; DEPLOYING; VALIDATING; READY]
  | DRAINING => [PLANNED; STAGING; CLUSTER_STARTING; DEPLOYING; VALIDATING; READY; DRAINING]
  | STOPPED =>
      [PLANNED; STAGING; CLUSTER_STARTING; DEPLOYING; VALIDATING; READY; DRAINING; STOPPED]
  | FAILED => [PLANNED; FAILED]
  | CANCELLED => [PLANNED; CANCELLED]
  end.

Lemma milestones_step s s' tr :
  s' ∈ DEPLOYMENT_TRANSITIONS s -> milestones s `sublist_of` tr ->
  milestones s' `sublist_of` tr ++ [s'].
Proof.
  intros Hin Hm.
  assert (exists l, milestones s' = l ++ [s'] /\ l `sublist_of` milestones s) as (l & -> & Hl).
  { exists (removelast (milestones s')). split; [by destruct s'|].
    apply list_elem_of_In in Hin. destruct s; vm_compute in Hin; destruct_or?; try done; subst s'; cbn;
      auto 12 using sublist_nil, sublist_skip, sublist_cons. }
  apply sublist_app; [by etrans|done].
Qed.

(** A deployment record that reads READY (or DRAINING, or STOPPED) was published
    at every earlier stage of the lifecycle, in order: no sequence of calls
    fabricates readiness, also when calls raise after their write. *)
Theorem deployment_stages_traversed ops (r : StatusRecord DeploymentState) :
  Forall (fun o => good_time (op_now o)) ops ->
  load (run ops Missing).1 = Ok (Some r) ->
  milestones (state r) `sublist_of` (state <$> (run ops Missing).2).
Proof.
  intros Hops Hl.
  destruct (status_run_ind (fun tr a => forall s n, a = Some (s, n) -> milestones s `sublist_of` tr))
    with (ops := ops) (f := Missing) (a := @None (DeploymentState * Z)) (tr := @nil DeploymentState)
    as (a' & Ha' & HP); [| |done..|].
  - intros tr o a a' HP Hs s n ->. inversion Hs; subst.
    + apply sublist_inserts_l. done.
    + eapply milestones_step; eauto.
    + eapply sublist_inserts_r. eauto.
  - intros tr s n HP s' n' [= <- <-]. eapply sublist_inserts_r. eauto.
  - destruct (holds_load _ _ Ha') as [[? _]|(r' & Hl' & _ & _ & ->)]; [congruence|].
    rewrite Hl in Hl'. injection Hl' as ->. by eapply HP.
Qed.

(** ** The loader on arbitrary documents *)

Section Loader.
Context {S : Type} `{!Lifecycle S}.

Lemma load_events_length h prev (es : list (event S)) :
  load_events prev h = Ok es -> length es = length h.
Proof.
  revert prev es. induction h as [|v h IH]; cbn; intros prev es Hl; res_inv; [done|].
  cbn. f_equal. by eapply IH.
Qed.

(** Soundness on any document, whoever wrote it: an accepted record begins at the
    initial state, follows legal edges between retained events, ends in its
    current state and accounts for every revision. *)
Theorem strict_load_sound v (r : StatusRecord S) :
  load (Doc v) = Ok (Some r) ->
  exists dropped omitted,
    count_of HISTORY_DROPPED_KEY (data r) = VInt dropped /\
    count_of HISTORY_OMITTED_KEY (data r) = VInt omitted /\
    window_ok dropped omitted (revision r) (history r) /\
    edges_ok dropped (history r) = true /\
    begins_at_init (history r) /\
    ev_state <$> last (history r) = Some (state r) /\ nonempty (record_id r) = true.
Proof.
  intros Hl. unfold load in Hl. destruct (load_doc v) as [r0|] eqn:Hd; [|done].
  cbn in Hl. injection Hl as ->. destruct v; try done. unfold load_doc in Hd.
  unfold conflict_if in Hd. res_inv. case_in H2; res_inv.
  case_in H10; res_inv; cbn [data revision history state record_id] in *.
  repeat match goal with H : nonneg_int _ _ = Ok _ |- _ => apply nonneg_int_Ok in H as [? ?] end.
  match goal with H : load_events _ _ = Ok ?es |- _ =>
    pose proof (load_events_length _ _ _ H) as Hlen; clear H;
    destruct (head es) as [e0|] eqn:He0, (last es) as [el|] eqn:Hel; try done end.
  match goal with H : negb (?d =? 0) && _ = false |- exists _, _ =>
    exists d; apply andb_false_iff in H; rewrite !negb_false_iff in H end.
  eexists. bool_prop. split_and!; [done..| |done| | |done].
  - unfold window_ok. rewrite Hlen. split_and!; lia.
  - exists e0. done.
  - cbn. by f_equal.
Qed.
End Loader.

(** A record whose only damage is the size of its [updated_at]. *)
Definition oversized_record (z : Z) : value :=
  VDict [("schema_version", VInt 1); ("kind", VStr "deployment"); ("record_id", VStr "d");
         ("state", VStr "PLANNED"); ("revision", VInt 0); ("updated_at", VInt z);
         ("reason_code", VNone); ("detail", VNone); ("provenance", VDict []); ("data", VDict []);
         ("history", VList [])].

(** The loader's error contract has a hole: [float()] of an integer too large for
    a double raises [OverflowError], so a damaged record escapes the typed
    [StatusConflict] that every other damage gets. *)
Theorem load_overflow_escapes z :
  match Float.of_Z z with S754_infinity _ => True | _ => False end ->
  load (S := DeploymentState) (Doc (oversized_record z)) = Err OverflowError.
Proof.
  intros Hz. assert (load_updated_at (VInt z) = Err OverflowError) as Ho.
  { unfold load_updated_at, to_float. cbn -[Float.of_Z]. by destruct (Float.of_Z z). }
  unfold load, oversized_record, load_doc. set (raw := [("schema_version", _); _; _; _; _; _; _; _; _; _; _]).
  change (field "updated_at" raw) with (VInt z). rewrite Ho. done.
Qed.

Lemma load_overflow_escapes_witness :
  load (S := DeploymentState) (Doc (oversized_record (2 ^ 1024))) = Err OverflowError.
Proof. apply load_overflow_escapes. vm_compute. exact I. Defined.

(** ** A concrete deployment *)

Definition demo_time : float := Float.of_Z 1700000000.
Definition demo_init : op (S := DeploymentState) :=
  OpInitialize io_done demo_time "dep-1" PLANNED None None.
Definition demo_move (a b : DeploymentState) : op :=
  OpTransition io_done demo_time a b "STEP" None None None None.
Definition demo_to_ready : list op :=
  [demo_init; demo_move PLANNED STAGING; demo_move STAGING CLUSTER_STARTING;
   demo_move CLUSTER_STARTING DEPLOYING; demo_move DEPLOYING VALIDATING;
   demo_move VALIDATING READY].
(** READY, lost, and READY again: the state cycles, the revision does not. *)
Definition demo_flap : list op := [demo_move READY VALIDATING; demo_move VALIDATING READY].
Definition demo_file : file := Eval vm_compute in (run demo_to_ready Missing).1.
Definition demo_failed : file := Eval vm_compute in (run [demo_init; demo_move PLANNED FAILED] Missing).1.

Lemma demo_time_good : good_time demo_time.
Proof. by split. Qed.

Lemma reachable_run {S} `{!Lifecycle S} (ops : list (op (S := S))) f :
  reachable (S := S) f -> Forall (fun o => good_time (op_now o)) ops ->
  reachable (S := S) (run ops f).1.
Proof.
  revert f. induction ops as [|o ops IH]; intros f Hf Hg; [done|]. inversion_clear Hg. cbn.
  pose proof (reach_exec o f Hf ltac:(done)) as Hr.
  specialize (IH _ Hr ltac:(done)). by destruct (run ops _).
Qed.

Lemma demo_file_reachable : reachable (S := DeploymentState) demo_file.
Proof.
  change demo_file with (run demo_to_ready Missing).1.
  apply reachable_run; [constructor|]. repeat (constructor; [apply demo_time_good|]). constructor.
Qed.

Lemma demo_failed_reachable : reachable (S := DeploymentState) demo_failed.
Proof.
  change demo_failed with (run [demo_init; demo_move PLANNED FAILED] Missing).1.
  apply reachable_run; [constructor|]. repeat (constructor; [apply demo_time_good|]). constructor.
Qed.

Definition demo_record (f : file) : StatusRecord DeploymentState :=
  match load f with Ok (Some r) => r | _ => Rec "" PLANNED 0 VNone None None [] [] [] end.
Definition demo_ready : StatusRecord DeploymentState := Eval vm_compute in demo_record demo_file.
Definition demo_ended : StatusRecord DeploymentState := Eval vm_compute in demo_record demo_failed.

(** A move whose directory cannot be synced: it raises with STAGING on file. *)
Definition demo_ambiguous : op :=
  OpTransition (StoreIO LeaseAcquired Undurable Released) demo_time PLANNED STAGING "STEP" None None None None.

Lemma store_refines_lifecycle_witness :
  exists r, (exec demo_ambiguous (exec demo_init Missing).1).2 = Err OSError /\
    astep (Some (PLANNED, 0)) demo_ambiguous (abs_record r) /\ state r = STAGING /\
    load (exec demo_ambiguous (exec demo_init Missing).1).1 = Ok (Some r).
Proof.
  assert (holds (exec demo_init Missing).1 (Some (PLANNED, 0))) as Hh.
  { destruct (exec demo_init Missing) as [f [r|e]] eqn:He; [|by vm_compute in He].
    destruct (exec_Ok demo_init Missing f r None eq_refl demo_time_good He) as (-> & Hok & Hs).
    cbn [fst]. exists r. split_and!; try done. unfold abs_record. by inversion Hs. }
  assert ((exec demo_ambiguous (exec demo_init Missing).1).2 = Err OSError) as Herr by (vm_compute; reflexivity).
  pose proof (store_refines_lifecycle demo_ambiguous _ _ Hh demo_time_good) as H.
  destruct (exec demo_ambiguous _) as [f' x] eqn:He. destruct H as [(r & Hs & _ & Hl & _)|(Hf & _)].
  - exists r. split_and!; try done. unfold abs_record, demo_ambiguous in Hs. by inversion Hs.
  - exfalso. apply (f_equal (fun z => load (S := DeploymentState) z.1)) in He. cbn [fst] in He. rewrite Hf in He.
    vm_compute in He. discriminate He.
Defined.

Lemma store_always_readable_witness :
  exists (r : StatusRecord DeploymentState) dropped omitted,
    demo_file = Doc (asdict r) /\ load demo_file = Ok (Some r) /\
    window_ok dropped omitted (revision r) (history r).
Proof.
  destruct (store_always_readable demo_file demo_file_reachable)
    as [[H _]|(r & dr & om & H1 & H2 & _ & _ & H3 & _)]; [discriminate H|].
  exists r, dr, om. auto.
Defined.

Lemma transition_commits_witness :
  exists r', transition io_done demo_time READY DRAINING "drain" None None (Some 5) None demo_file
               = (Doc (asdict r'), Ok r') /\ state r' = DRAINING /\ revision r' = 6.
Proof.
  destruct (transition_commits demo_file demo_ready demo_time DRAINING "drain" None None (Some 5))
    as (r' & H1 & H2 & H3 & _);
    [exact demo_file_reachable|vm_compute; reflexivity|exact demo_time_good|..|exists r'; auto].
  - apply list_elem_of_In. cbn. tauto.
  - reflexivity.
  - reflexivity.
  - reflexivity.
  - right. reflexivity.
Defined.

Lemma stale_writer_refused_witness :
  exists e, exec (OpTransition io_done demo_time READY DRAINING "drain" None None (Some 5) None)
              (run demo_flap demo_file).1 = ((run demo_flap demo_file).1, Err e).
Proof.
  apply (stale_writer_refused demo_file demo_flap _ demo_ready).
  - exact demo_file_reachable.
  - vm_compute. reflexivity.
  - repeat (constructor; [apply demo_time_good|]). constructor.
  - vm_compute. discriminate.
  - exact demo_time_good.
  - reflexivity.
Defined.

Lemma terminal_state_final_witness :
  exists r', load (run demo_to_ready demo_failed).1 = Ok (Some r') /\ state r' = FAILED.
Proof.
  apply (terminal_state_final demo_failed demo_to_ready demo_ended).
  - exact demo_failed_reachable.
  - vm_compute. reflexivity.
  - reflexivity.
  - repeat (constructor; [apply demo_time_good|]). constructor.
Defined.

Lemma deployment_stages_traversed_witness :
  milestones READY `sublist_of` (state <$> (run demo_to_ready Missing).2).
Proof.
  apply (deployment_stages_traversed demo_to_ready demo_ready).
  - repeat (constructor; [apply demo_time_good|]). constructor.
  - vm_compute. reflexivity.
Defined.

Lemma strict_load_sound_witness :
  exists dropped omitted, window_ok dropped omitted 5 (history demo_ready).
Proof.
  destruct (strict_load_sound (match demo_file with Doc v => v | _ => VNone end) demo_ready)
    as (dr & om & _ & _ & H & _); [vm_compute; reflexivity|].
  exists dr, om. exact H.
Defined.
