(* ===== verification/Placement.v ===== *)
(** The model-placement half of the plan compiler (src/exaserve/plan/compiler.py):
    decoding of the model intents and the resolution of exact replica slots.

    The planner's three mutable lists are the fields of [planner]; [reserve] is
    the nested function of [_resolve_models] on that state. Ranks index Python
    lists, so they are [nat] here and [Z] in the plan. The [while] loop runs on
    fuel; [resolve_models] gives it one round more than there are devices. *)

From S2P Require Import Prelude.
From S2P Require Import PyValue.
From S2P Require Import Contracts.

(** ** Typed access to the raw configuration *)

Definition mapping (v : value) : plan_result dict :=
  match v with
  | VDict d => Ok d
  | _ => Err (PlanError "must be a mapping")
  end.

Definition reject_unknown (raw : dict) (allowed : list string) : plan_result unit :=
  plan_raise_if (existsb (fun k => negb (bool_decide (k ∈ allowed))) (dkeys raw)) "unknown key(s)".

(** [raw.get(k)], where an absent key and a null are the same. *)
Definition get (k : string) (raw : dict) : value := default VNone (dget k raw).

Definition with_default (v : value) (d : option value) : plan_result value :=
  match v, d with
  | VNone, None => Err (PlanError "is required")
  | VNone, Some d => Ok d
  | _, _ => Ok v
  end.

Definition integer (v : value) (dflt minimum : option Z) : plan_result Z :=
  v' ← with_default v (VInt <$> dflt);
  match v' with
  | VInt n =>
      _ ← plan_raise_if (from_option (fun m => n <? m) false minimum) "must be >= minimum";
      Ok n
  | _ => Err (PlanError "must be an integer")
  end.

Definition number (v : value) (dflt minimum maximum : option float) : plan_result float :=
  v' ← with_default v (VFloat <$> dflt);
  if is_number v' then
    f ← to_float FloatOverflow v';
    _ ← plan_raise_if (negb (Float.is_finite f)) "must be finite";
    _ ← plan_raise_if (from_option (Float.ltb f) false minimum) "must be >= minimum";
    _ ← plan_raise_if (from_option (Float.gtb f) false maximum) "must be <= maximum";
    Ok f
  else Err (PlanError "must be a number").

Definition boolean (v : value) (dflt : bool) : plan_result bool :=
  match v with
  | VNone => Ok dflt
  | VBool b => Ok b
  | _ => Err (PlanError "must be a boolean")
  end.

(** [_string] without a default, refusing blank text. *)
Definition text (v : value) : plan_result string :=
  match v with
  | VNone => Err (PlanError "is required")
  | VStr s =>
      let result := strip s in
      _ ← plan_raise_if (negb (nonempty result)) "must be a non-empty string";
      Ok result
  | _ => Err (PlanError "must be a string")
  end.

(** ** Model identities *)

Definition storage_name_of (model_id : string) : string := replace_char "/"%char "--" model_id.

Definition is_route_char (c : Ascii.ascii) : bool :=
  is_alnum c || Ascii.eqb c "_"%char || Ascii.eqb c "-"%char.

Fixpoint lstrip_dash (l : list Ascii.ascii) : list Ascii.ascii :=
  match l with
  | c :: l' => if Ascii.eqb c "-"%char then lstrip_dash l' else l
  | [] => []
  end.

Definition route_name_of (storage_name : string) : string :=
  let cleaned := (fun c => if is_route_char c then c else "-"%char)
                   <$> String.list_ascii_of_string storage_name in
  lower (String.string_of_list_ascii (rev (lstrip_dash (rev (lstrip_dash cleaned))))).

Module ModelIntent.
Record t := mk {
  model_id : string;
  storage_name : string;
  route_name : string;
  tensor_parallel_size : Z;
  pipeline_parallel_size : Z;
  max_model_len : Z;
  size_b : Z;
  gpu_memory_utilization : float;
  enforce_eager : bool;
  enable_log_requests : bool;
  max_num_seqs : option Z;
  num_cpus_per_replica : Z;
  requested_replicas : option Z;
}.
End ModelIntent.

Definition MODEL_KEYS : list string :=
  ["model_id"; "tensor_parallel_size"; "pipeline_parallel_size"; "max_model_len"; "size";
   "gpu_memory_utilization"; "enforce_eager"; "enable_log_requests"; "max_num_seqs";
   "num_cpus_per_replica"; "num_replicas"].

(** [0.90] and [0.0000001], the doubles nearest to the literals. *)
Definition gpu_memory_default : float := Float.of_dyadic 8106479329266893 (-53).
Definition gpu_memory_minimum : float := Float.of_dyadic 7555786372591432 (-76).

(** [if raw.get(k) is not None: _integer(raw[k], minimum=1)] *)
Definition optional_positive (v : value) : plan_result (option Z) :=
  match v with
  | VNone => Ok None
  | _ => n ← integer v None (Some 1); Ok (Some n)
  end.

(** The three [identities] dictionaries, as the values seen so far. *)
Record identities := Ids {
  seen_model_id : list string;
  seen_storage_name : list string;
  seen_route_name : list string;
}.

Definition compile_model_intent (num_nodes gpus_per_node : Z)
    (acc : identities * list ModelIntent.t) (item : value)
    : plan_result (identities * list ModelIntent.t) :=
  let '(ids, intents) := acc in
  raw ← mapping item;
  _ ← reject_unknown raw MODEL_KEYS;
  model_id ← text (get "model_id" raw);
  _ ← require_model_id model_id;
  let storage_name := storage_name_of model_id in
  let route_name := route_name_of storage_name in
  _ ← plan_raise_if (bool_decide (model_id ∈ seen_model_id ids)) "model identity collision";
  _ ← plan_raise_if (bool_decide (storage_name ∈ seen_storage_name ids)) "model identity collision";
  _ ← plan_raise_if (bool_decide (route_name ∈ seen_route_name ids)) "model identity collision";
  tp ← integer (get "tensor_parallel_size" raw) (Some 1) (Some 1);
  pp ← integer (get "pipeline_parallel_size" raw) (Some 1) (Some 1);
  _ ← plan_raise_if (gpus_per_node <? tp) "tensor_parallel_size exceeds gpus_per_node";
  _ ← plan_raise_if (num_nodes <? pp) "pipeline_parallel_size exceeds deployment nodes";
  requested ← optional_positive (get "num_replicas" raw);
  max_num_seqs ← optional_positive (get "max_num_seqs" raw);
  max_model_len ← integer (get "max_model_len" raw) (Some 4096) (Some 1);
  size_b ← integer (get "size" raw) (Some 8) (Some 1);
  gpu_memory ← number (get "gpu_memory_utilization" raw) (Some gpu_memory_default)
                 (Some gpu_memory_minimum) (Some (Float.of_Z 1));
  enforce_eager ← boolean (get "enforce_eager" raw) true;
  enable_log_requests ← boolean (get "enable_log_requests" raw) true;
  num_cpus ← integer (get "num_cpus_per_replica" raw) (Some 4) (Some 1);
  Ok (Ids (model_id :: seen_model_id ids) (storage_name :: seen_storage_name ids)
        (route_name :: seen_route_name ids),
      intents ++
        [ModelIntent.mk model_id storage_name route_name tp pp max_model_len size_b gpu_memory
           enforce_eager enable_log_requests max_num_seqs num_cpus requested]).

Definition compile_model_intents (raw_models : value) (num_nodes gpus_per_node : Z)
    : plan_result (list ModelIntent.t) :=
  match raw_models with
  | VList ((_ :: _) as items) =>
      acc ← fold_res (compile_model_intent num_nodes gpus_per_node) (Ids [] [] [], []) items;
      Ok acc.2
  | _ => Err (PlanError "deployment.models must be a non-empty list")
  end.

(** ** The planner *)

Record planner := Planner {
  remaining_devices : list (list Z);
  remaining_cpus : list Z;
  placements : list (list ReplicaPlan.t);
}.

Definition initial_planner (intents : list ModelIntent.t) (num_nodes gpus cpus : Z) : planner :=
  Planner (replicate (Z.to_nat num_nodes) (seqZ 0 gpus)) (replicate (Z.to_nat num_nodes) cpus)
    (replicate (length intents) []).

(** [remaining_devices[rank]] and the like; every index below is in range. *)
Definition devices_at (st : planner) (rank : nat) : list Z := default [] (remaining_devices st !! rank).
Definition cpus_at (st : planner) (rank : nat) : Z := default 0 (remaining_cpus st !! rank).
Definition placed (st : planner) (m : nat) : list ReplicaPlan.t := default [] (placements st !! m).

(** The sort key [(len(remaining_devices[rank]), remaining_cpus[rank], rank)]. *)
Definition rank_leb (st : planner) (a b : nat) : bool :=
  let la := length (devices_at st a) in
  let lb := length (devices_at st b) in
  if (la =? lb)%nat then
    if cpus_at st a =? cpus_at st b then (a <=? b)%nat else cpus_at st a <? cpus_at st b
  else (la <? lb)%nat.

Definition rank_le (st : planner) (a b : nat) : Prop := rank_leb st a b = true.
#[global] Instance rank_le_dec st : RelDecision (rank_le st).
Proof. intros a b. unfold rank_le. apply _. Defined.

Definition sort_ranks (st : planner) (l : list nat) : list nat := merge_sort (rank_le st) l.

Definition pp_ranks_in_use (intent : ModelIntent.t) (st : planner) (m : nat) : list Z :=
  if 1 <? ModelIntent.pipeline_parallel_size intent
  then placed st m ≫= ReplicaPlan.planned_ranks else [].

Definition has_devices (intent : ModelIntent.t) (st : planner) (rank : nat) : bool :=
  ModelIntent.tensor_parallel_size intent <=? Z.of_nat (length (devices_at st rank)).

Definition eligible_primary (intent : ModelIntent.t) (num_nodes : Z) (st : planner) (m : nat)
    : list nat :=
  sort_ranks st (filter (fun rank =>
    Z.of_nat rank ∉ pp_ranks_in_use intent st m
    /\ has_devices intent st rank = true
    /\ ModelIntent.num_cpus_per_replica intent <= cpus_at st rank) (seq 0 (Z.to_nat num_nodes))).

Definition other_ranks (intent : ModelIntent.t) (num_nodes : Z) (st : planner) (m : nat)
    (primary : nat) : list nat :=
  sort_ranks st (filter (fun rank =>
    rank <> primary /\ Z.of_nat rank ∉ pp_ranks_in_use intent st m
    /\ has_devices intent st rank = true) (seq 0 (Z.to_nat num_nodes))).

(** The loop over [eligible_primary], stopping at the first primary that has
    enough other ranks; [[]] when none has. *)
Fixpoint select_ranks (intent : ModelIntent.t) (num_nodes : Z) (st : planner) (m : nat)
    (primaries : list nat) : list nat :=
  match primaries with
  | [] => []
  | primary :: rest =>
      let others := other_ranks intent num_nodes st m primary in
      let stages := Z.to_nat (ModelIntent.pipeline_parallel_size intent - 1) in
      if ModelIntent.pipeline_parallel_size intent - 1 <=? Z.of_nat (length others)
      then primary :: take stages others
      else select_ranks intent num_nodes st m rest
  end.

(** [for rank in selected]: the first [tp] devices of each rank leave the pool. *)
Fixpoint take_groups (tp : nat) (pool : list (list Z)) (selected : list nat)
    : list (list Z) * list (list Z) :=
  match selected with
  | [] => ([], pool)
  | rank :: rest =>
      let '(groups, pool') := take_groups tp (alter (drop tp) rank pool) rest in
      (take tp (default [] (pool !! rank)) :: groups, pool')
  end.

Definition new_replica (intent : ModelIntent.t) (index : Z) (selected : list nat)
    (groups : list (list Z)) : ReplicaPlan.t :=
  let tp := ModelIntent.tensor_parallel_size intent in
  let pp := ModelIntent.pipeline_parallel_size intent in
  ReplicaPlan.mk (ModelIntent.route_name intent +:+ "/replica-" +:+ str_Z index) index
    (Z.of_nat <$> selected) groups tp pp (tp * pp) (ModelIntent.num_cpus_per_replica intent).

(** [reserve(model_index)]: [None] is [return False]. *)
Definition reserve (intent : ModelIntent.t) (num_nodes : Z) (m : nat) (st : planner)
    : plan_result (option planner) :=
  match select_ranks intent num_nodes st m (eligible_primary intent num_nodes st m) with
  | [] => Ok None
  | (primary :: _) as selected =>
      let tp := Z.to_nat (ModelIntent.tensor_parallel_size intent) in
      let '(groups, pool) := take_groups tp (remaining_devices st) selected in
      let replica := new_replica intent (ReplicaPlan.len (placed st m)) selected groups in
      _ ← ReplicaPlan.post_init replica;
      Ok (Some (Planner pool
        (alter (fun c => c - ModelIntent.num_cpus_per_replica intent) primary (remaining_cpus st))
        (alter (fun group => group ++ [replica]) m (placements st))))
  end.

(** [for _ in range(n): if not reserve(index): raise] *)
Fixpoint reserve_all (intent : ModelIntent.t) (num_nodes : Z) (m : nat) (n : nat) (st : planner)
    : plan_result planner :=
  match n with
  | O => Ok st
  | S n' =>
      r ← reserve intent num_nodes m st;
      match r with
      | Some st' => reserve_all intent num_nodes m n' st'
      | None => Err (PlanError "num_replicas cannot be placed in the declared demand")
      end
  end.

Definition enumerate (intents : list ModelIntent.t) : list (nat * ModelIntent.t) :=
  imap (fun i x => (i, x)) intents.

(** The loop over explicit reservations. *)
Definition reserve_explicit (num_nodes : Z) (env : ScaleEnvelope.t) (st : planner)
    (item : nat * ModelIntent.t) : plan_result planner :=
  match ModelIntent.requested_replicas item.2 with
  | None => Ok st
  | Some n =>
      _ ← plan_raise_if (ScaleEnvelope.max_replicas_per_model env <? n)
            "num_replicas exceeds envelope maximum";
      reserve_all item.2 num_nodes item.1 (Z.to_nat n) st
  end.

Definition is_auto_pp (item : nat * ModelIntent.t) : Prop :=
  ModelIntent.requested_replicas item.2 = None /\ 1 < ModelIntent.pipeline_parallel_size item.2.
Definition is_auto_tp (item : nat * ModelIntent.t) : Prop :=
  ModelIntent.requested_replicas item.2 = None /\ ModelIntent.pipeline_parallel_size item.2 = 1.
#[global] Instance is_auto_pp_dec item : Decision (is_auto_pp item).
Proof. unfold is_auto_pp. apply _. Defined.
#[global] Instance is_auto_tp_dec item : Decision (is_auto_tp item).
Proof. unfold is_auto_tp. apply _. Defined.

Definition reserve_auto_pp (num_nodes : Z) (st : planner) (item : nat * ModelIntent.t)
    : plan_result planner :=
  r ← reserve item.2 num_nodes item.1 st;
  match r with
  | Some st' => Ok st'
  | None => Err (PlanError "cannot place the required default single PP replica")
  end.

(** One model's turn in a round of the [while] loop. *)
Definition auto_turn (num_nodes : Z) (env : ScaleEnvelope.t) (acc : planner * bool)
    (item : nat * ModelIntent.t) : plan_result (planner * bool) :=
  let '(st, progressed) := acc in
  if ScaleEnvelope.max_replicas_per_model env <=? ReplicaPlan.len (placed st item.1)
  then Ok (st, progressed)
  else
    r ← reserve item.2 num_nodes item.1 st;
    match r with
    | Some st' => Ok (st', true)
    | None => Ok (st, progressed)
    end.

(** [while auto_tp]; [None] when the fuel runs out. *)
Fixpoint auto_loop (fuel : nat) (num_nodes : Z) (env : ScaleEnvelope.t)
    (auto_tp : list (nat * ModelIntent.t)) (st : planner) : option (plan_result planner) :=
  match auto_tp with
  | [] => Some (Ok st)
  | _ =>
      match fuel with
      | O => None
      | S fuel' =>
          match fold_res (auto_turn num_nodes env) (st, false) auto_tp with
          | Err e => Some (Err e)
          | Ok (st', true) => auto_loop fuel' num_nodes env auto_tp st'
          | Ok (st', false) => Some (Ok st')
          end
      end
  end.

Definition model_plan (intent : ModelIntent.t) (group : list ReplicaPlan.t) : ModelPlan.t :=
  ModelPlan.mk (ModelIntent.model_id intent) (ModelIntent.storage_name intent)
    (ModelIntent.route_name intent) (ModelIntent.tensor_parallel_size intent)
    (ModelIntent.pipeline_parallel_size intent) (ModelIntent.max_model_len intent)
    (ModelIntent.size_b intent) (ModelIntent.gpu_memory_utilization intent)
    (ModelIntent.enforce_eager intent) (ModelIntent.enable_log_requests intent)
    (ModelIntent.max_num_seqs intent) (ModelIntent.num_cpus_per_replica intent)
    (ReplicaPlan.len group) group.

(** The checks after placement and the construction of the model plans. *)
Definition finish (intents : list ModelIntent.t) (env : ScaleEnvelope.t) (st : planner)
    : plan_result (list ModelPlan.t) :=
  _ ← plan_raise_if (existsb (fun group => bool_decide (group = [])) (placements st))
        "no feasible replica placement for required model(s)";
  _ ← plan_raise_if (ScaleEnvelope.max_total_replicas env
                     <? Z.of_nat (sum_list (length <$> placements st)))
        "resolved replica count exceeds envelope maximum";
  _ ← plan_raise_if (ScaleEnvelope.max_models env <? ReplicaPlan.len intents)
        "model count exceeds envelope maximum";
  let plans := imap (fun i intent => model_plan intent (placed st i)) intents in
  _ ← for_each ModelPlan.post_init plans;
  Ok plans.

(** One round per device, and the last round that finds nothing to place. *)
Definition rounds (num_nodes gpus : Z) : nat := S (Z.to_nat num_nodes * Z.to_nat gpus).

Definition resolve_models (intents : list ModelIntent.t) (num_nodes gpus cpus : Z)
    (env : ScaleEnvelope.t) : option (plan_result (list ModelPlan.t)) :=
  let items := enumerate intents in
  let reserved :=
    st ← fold_res (reserve_explicit num_nodes env) (initial_planner intents num_nodes gpus cpus)
           items;
    fold_res (reserve_auto_pp num_nodes) st (filter is_auto_pp items) in
  match reserved with
  | Err e => Some (Err e)
  | Ok st =>
      r ← auto_loop (rounds num_nodes gpus) num_nodes env (filter is_auto_tp items) st;
      Some (st' ← r; finish intents env st')
  end.
