(* ===== verification/PlacementProps.v ===== *)
(** Theorems on model placement: the resolver never double-books a device, its
    output passes the plan's own topology check, explicit requests are met
    exactly, and automatic placement terminates with no room left. *)

From S2P Require Import Prelude.
From S2P Require Import PyValue.
From S2P Require Import Contracts.
From S2P Require Import Placement.

(** ** Slots: (rank, device) pairs *)

Definition tag (rank : Z) (devices : list Z) : list (Z * Z) := (fun d => (rank, d)) <$> devices.

Definition slots (r : ReplicaPlan.t) : list (Z * Z) :=
  DeploymentPlan.stages r ≫= fun stage => tag stage.1 stage.2.

(** The free slots of a pool whose first rank is [start]. *)
Fixpoint free_from (start : Z) (pool : list (list Z)) : list (Z * Z) :=
  match pool with
  | [] => []
  | devices :: rest => tag start devices ++ free_from (start + 1) rest
  end.

Definition all_slots (n g : Z) : list (Z * Z) := free_from 0 (replicate (Z.to_nat n) (seqZ 0 g)).

Lemma elem_of_tag rank devices x : x ∈ tag rank devices <-> x.1 = rank /\ x.2 ∈ devices.
Proof.
  unfold tag. rewrite list_elem_of_fmap. destruct x as [r d]; cbn. naive_solver.
Qed.

Lemma elem_of_free_from start pool x :
  x ∈ free_from start pool <->
  exists i devices, pool !! i = Some devices /\ x.1 = start + Z.of_nat i /\ x.2 ∈ devices.
Proof.
  revert start. induction pool as [|ds pool IH]; intros start; cbn.
  - split; [by intros ?%not_elem_of_nil|]. intros (i & ? & ? & _). done.
  - rewrite elem_of_app, elem_of_tag, IH. split.
    + intros [[? ?]|(i & ds' & ? & ? & ?)]; [exists 0%nat, ds|exists (S i), ds'];
        cbn; split_and!; try done; lia.
    + intros ([|i] & ds' & Hl & ? & ?); cbn in Hl; [left|right].
      * simplify_eq. split; [lia|done].
      * exists i, ds'. split_and!; try done. lia.
Qed.

Lemma NoDup_free_from start pool :
  Forall NoDup pool -> NoDup (free_from start pool).
Proof.
  revert start. induction pool as [|ds pool IH]; intros start Hp; cbn; [constructor|].
  inversion_clear Hp. apply NoDup_app. split_and!; [|intros x|by apply IH].
  - unfold tag. apply NoDup_fmap_2; [|done]. by intros ?? [=].
  - rewrite elem_of_tag, elem_of_free_from. intros [? ?] (i & ? & ? & ? & ?). lia.
Qed.

Lemma NoDup_all_slots n g : NoDup (all_slots n g).
Proof.
  apply NoDup_free_from, Forall_replicate, NoDup_seqZ.
Qed.

Lemma elem_of_all_slots n g x : x ∈ all_slots n g <-> 0 <= x.1 < n /\ 0 <= x.2 < g.
Proof.
  unfold all_slots. rewrite elem_of_free_from. split.
  - intros (i & ds & [-> ?]%lookup_replicate & ? & Hin%elem_of_seqZ). lia.
  - intros [? ?]. exists (Z.to_nat x.1), (seqZ 0 g). rewrite lookup_replicate, elem_of_seqZ.
    split_and!; try done; lia.
Qed.

(** Taking devices from a rank moves its slots out of the pool. *)
Lemma free_from_alter start pool rank devices k :
  pool !! rank = Some devices ->
  free_from start pool ≡ₚ
    tag (start + Z.of_nat rank) (take k devices) ++ free_from start (alter (drop k) rank pool).
Proof.
  revert start rank. induction pool as [|ds pool IH]; intros start [|rank] Hl; cbn in Hl; try done.
  - simplify_eq. cbn -[Z.of_nat]. rewrite Z.add_0_r, app_assoc. f_equiv.
    unfold tag. rewrite <- fmap_app, take_drop. done.
  - cbn -[Z.of_nat]. rewrite (IH (start + 1) rank Hl).
    replace (start + 1 + Z.of_nat rank) with (start + Z.of_nat (S rank)) by lia.
    rewrite !app_assoc. f_equiv. apply Permutation_app_comm.
Qed.

Lemma take_groups_length tp pool sel :
  length (take_groups tp pool sel).1 = length sel /\
  length (take_groups tp pool sel).2 = length pool.
Proof.
  revert pool. induction sel as [|rank sel IH]; intros pool; cbn; [done|].
  specialize (IH (alter (drop tp) rank pool)). destruct (take_groups _ _ sel) as [gs p'].
  cbn in *. rewrite length_alter in IH. lia.
Qed.

Lemma take_groups_perm tp pool sel :
  Forall (fun rank => (rank < length pool)%nat) sel ->
  free_from 0 pool ≡ₚ
    (zip (Z.of_nat <$> sel) (take_groups tp pool sel).1 ≫= fun stage => tag stage.1 stage.2)
    ++ free_from 0 (take_groups tp pool sel).2.
Proof.
  revert pool. induction sel as [|rank sel IH]; intros pool Hs; cbn [take_groups]; [done|].
  inversion_clear Hs as [|?? Hr Hsel].
  destruct (lookup_lt_is_Some_2 pool rank Hr) as [devices Hd].
  specialize (IH (alter (drop tp) rank pool)). rewrite length_alter in IH. specialize (IH Hsel).
  destruct (take_groups tp (alter (drop tp) rank pool) sel) as [gs p']. cbn in *.
  rewrite (free_from_alter 0 pool rank devices tp Hd), IH, Hd. cbn. by rewrite app_assoc.
Qed.

(** Distinct ranks with enough devices give full groups. *)
Lemma take_groups_full tp pool sel :
  NoDup sel -> Forall (fun rank => (tp <= length (default [] (pool !! rank)))%nat) sel ->
  Forall (fun group => length group = tp) (take_groups tp pool sel).1.
Proof.
  revert pool. induction sel as [|rank sel IH]; intros pool Hnd Hs; cbn; [constructor|].
  inversion_clear Hs as [|?? Hr Hsel]. apply NoDup_cons in Hnd as [Hni Hnd].
  assert (Forall (fun r => (tp <= length (default [] (alter (drop tp) rank pool !! r)))%nat) sel) as Hs'.
  { apply Forall_forall. intros r Hin. rewrite list_lookup_alter_ne by congruence.
    rewrite Forall_forall in Hsel. by apply Hsel. }
  specialize (IH (alter (drop tp) rank pool) Hnd Hs').
  destruct (take_groups _ _ sel) as [gs p']. cbn in *. constructor; [|done].
  rewrite length_take. lia.
Qed.

(** ** Selecting ranks *)

Lemma sort_ranks_perm st l : sort_ranks st l ≡ₚ l.
Proof. apply merge_sort_Permutation. Qed.

Section Select.
Context (intent : ModelIntent.t) (n : Z) (st : planner) (m : nat).

Definition usable (rank : nat) : Prop :=
  (rank < Z.to_nat n)%nat /\ Z.of_nat rank ∉ pp_ranks_in_use intent st m /\
  has_devices intent st rank = true.

Lemma elem_of_eligible rank :
  rank ∈ eligible_primary intent n st m <->
  usable rank /\ ModelIntent.num_cpus_per_replica intent <= cpus_at st rank.
Proof.
  unfold eligible_primary, usable. rewrite sort_ranks_perm, list_elem_of_filter, elem_of_seq.
  split; [|intuition lia]. intros ((? & ? & ?) & ?). split_and!; try done. lia.
Qed.

Lemma elem_of_others primary rank :
  rank ∈ other_ranks intent n st m primary <-> usable rank /\ rank <> primary.
Proof.
  unfold other_ranks, usable. rewrite sort_ranks_perm, list_elem_of_filter, elem_of_seq.
  split; [|intuition lia]. intros ((? & ? & ?) & ?). split_and!; try done. lia.
Qed.

Lemma NoDup_others primary : NoDup (other_ranks intent n st m primary).
Proof. unfold other_ranks. rewrite sort_ranks_perm. apply NoDup_filter, NoDup_seq. Qed.

Lemma select_ranks_spec primaries :
  1 <= ModelIntent.pipeline_parallel_size intent ->
  (forall rank, rank ∈ primaries -> rank ∈ eligible_primary intent n st m) ->
  match select_ranks intent n st m primaries with
  | [] => forall primary, primary ∈ primaries ->
      Z.of_nat (length (other_ranks intent n st m primary))
        < ModelIntent.pipeline_parallel_size intent - 1
  | (primary :: _) as selected =>
      NoDup selected /\ Forall usable selected /\
      Z.of_nat (length selected) = ModelIntent.pipeline_parallel_size intent /\
      ModelIntent.num_cpus_per_replica intent <= cpus_at st primary
  end.
Proof.
  intros Hpp. induction primaries as [|primary rest IH]; intros Hel; cbn [select_ranks].
  { by intros ? ?%not_elem_of_nil. }
  destruct (_ <=? _) eqn:Hle; bool_prop.
  - pose proof (proj1 (elem_of_eligible primary) (Hel primary ltac:(left))) as [Hu Hc].
    set (k := Z.to_nat (ModelIntent.pipeline_parallel_size intent - 1)).
    assert (forall r, r ∈ take k (other_ranks intent n st m primary) -> usable r /\ r <> primary)
      as Hot by (intros r Hr%elem_of_take; apply elem_of_others;
                 destruct Hr as (? & ? & _); by eapply list_elem_of_lookup_2).
    split_and!.
    + constructor; [by intros [_ ?]%Hot|]. eapply sublist_NoDup; [apply NoDup_others|apply sublist_take].
    + constructor; [done|]. apply Forall_forall. intros r Hr. by apply Hot.
    + cbn [length]. rewrite length_take. lia.
    + done.
  - specialize (IH ltac:(intros; apply Hel; by right)).
    destruct (select_ranks intent n st m rest); [|done].
    intros p [->|Hin]%elem_of_cons; [lia|auto].
Qed.
End Select.

(** ** The planner's invariant *)

Definition intent_ok (intent : ModelIntent.t) : Prop :=
  1 <= ModelIntent.tensor_parallel_size intent /\
  1 <= ModelIntent.pipeline_parallel_size intent /\
  1 <= ModelIntent.num_cpus_per_replica intent.

(** CPU demand a list of replicas puts on a rank. *)
Definition demand_at (rank : Z) (rs : list ReplicaPlan.t) : Z :=
  foldr (fun r acc => (if primary_rank r =? rank then ReplicaPlan.cpu_demand r else 0) + acc) 0 rs.

Lemma demand_at_app rank rs rs' : demand_at rank (rs ++ rs') = demand_at rank rs + demand_at rank rs'.
Proof. unfold demand_at. induction rs as [|r rs IH]; cbn; [done|]. rewrite IH. lia. Qed.

#[global] Instance demand_at_proper rank : Proper ((≡ₚ) ==> (=)) (demand_at rank).
Proof. intros rs rs' Hp. unfold demand_at. induction Hp; cbn in *; lia. Qed.

Definition booked (st : planner) : list ReplicaPlan.t := concat (placements st).

(** A replica that fits its model's intent, inside the allocation. *)
Definition replica_ok (n : Z) (intent : ModelIntent.t) (r : ReplicaPlan.t) : Prop :=
  ReplicaPlan.post_init r = Ok tt /\
  Forall (fun rank => 0 <= rank < n) (ReplicaPlan.planned_ranks r) /\
  ReplicaPlan.tensor_parallel_size r = ModelIntent.tensor_parallel_size intent /\
  ReplicaPlan.pipeline_parallel_size r = ModelIntent.pipeline_parallel_size intent /\
  ReplicaPlan.cpu_demand r = ModelIntent.num_cpus_per_replica intent.

Definition group_ok (n : Z) (intent : ModelIntent.t) (group : list ReplicaPlan.t) : Prop :=
  Forall (replica_ok n intent) group /\
  ReplicaPlan.replica_index <$> group = seqZ 0 (ReplicaPlan.len group) /\
  (1 < ModelIntent.pipeline_parallel_size intent -> NoDup (group ≫= ReplicaPlan.planned_ranks)).

Definition planner_ok (intents : list ModelIntent.t) (n g c : Z) (st : planner) : Prop :=
  length (remaining_devices st) = Z.to_nat n /\
  length (remaining_cpus st) = Z.to_nat n /\
  (booked st ≫= slots) ++ free_from 0 (remaining_devices st) ≡ₚ all_slots n g /\
  (forall rank, 0 <= rank < n ->
     0 <= cpus_at st (Z.to_nat rank) /\
     cpus_at st (Z.to_nat rank) + demand_at rank (booked st) = c) /\
  Forall2 (group_ok n) intents (placements st).

Lemma concat_alter_snoc (l : list (list ReplicaPlan.t)) m group r :
  l !! m = Some group -> concat (alter (fun g => g ++ [r]) m l) ≡ₚ concat l ++ [r].
Proof.
  revert m. induction l as [|x l IH]; intros [|m] Hl; cbn in *; try done.
  - rewrite <- !app_assoc. f_equiv. apply Permutation_app_comm.
  - rewrite (IH m Hl). by rewrite app_assoc.
Qed.

Lemma initial_planner_ok intents n g c :
  0 <= c -> planner_ok intents n g c (initial_planner intents n g c).
Proof.
  intros Hc. unfold planner_ok, booked, initial_planner, cpus_at. cbn.
  assert (concat (replicate (length intents) (@nil ReplicaPlan.t)) = []) as ->
    by (generalize (length intents) as k; induction k; done).
  rewrite !length_replicate. split_and!; try done.
  - intros rank Hr. rewrite lookup_replicate_2 by lia. cbn. lia.
  - apply Forall2_replicate_r; [done|]. apply Forall_forall. intros intent _.
    split_and!; [constructor|done|constructor].
Qed.

(** *** The constructor of a reserved replica does not raise *)

Lemma post_init_ok intent index selected groups :
  intent_ok intent -> 0 <= index -> NoDup selected -> selected <> [] ->
  Z.of_nat (length selected) = ModelIntent.pipeline_parallel_size intent ->
  length groups = length selected ->
  Forall (fun group => Z.of_nat (length group) = ModelIntent.tensor_parallel_size intent
                       /\ NoDup group /\ Forall (fun d => 0 <= d) group) groups ->
  ReplicaPlan.post_init (new_replica intent index selected groups) = Ok tt.
Proof.
  intros (Htp & Hpp & Hcpu) Hi Hnd Hne Hlen Hgl Hg. unfold ReplicaPlan.post_init, plan_raise_if.
  cbn -[Z.mul]. set (tp := ModelIntent.tensor_parallel_size intent) in *.
  set (pp := ModelIntent.pipeline_parallel_size intent) in *.
  assert (nonempty (ModelIntent.route_name intent +:+ "/replica-" +:+ str_Z index) = true) as ->.
  { unfold nonempty. apply negb_true_iff, bool_decide_eq_false.
    destruct (ModelIntent.route_name intent); done. }
  rewrite !(proj2 (Z.ltb_ge _ _)) by nia. cbn -[Z.mul].
  assert (existsb (fun rank => rank <? 0) (Z.of_nat <$> selected) = false) as ->.
  { apply not_true_iff_false. rewrite existsb_exists. intros (x & Hx & ?).
    apply list_elem_of_In, list_elem_of_fmap in Hx as (y & -> & _). bool_prop. lia. }
  assert (existsb (existsb (fun device => device <? 0)) groups = false) as ->.
  { apply not_true_iff_false. rewrite existsb_exists. intros (x & Hx & Hy).
    apply existsb_exists in Hy as (d & Hd & ?). apply list_elem_of_In in Hx, Hd.
    rewrite Forall_forall in Hg. destruct (Hg x Hx) as (_ & _ & Hnn).
    rewrite Forall_forall in Hnn. specialize (Hnn d Hd). bool_prop. lia. }
  rewrite bool_decide_eq_false_2 by by destruct selected.
  assert (no_dups (Z.of_nat <$> selected) = true) as ->
    by (apply bool_decide_eq_true, NoDup_fmap_2; [apply _|done]).
  unfold ReplicaPlan.len. rewrite length_fmap, Hgl, Hlen, !Z.eqb_refl. cbn -[Z.mul].
  match goal with |- context [existsb ?f groups] => assert (existsb f groups = false) as -> end.
  { apply not_true_iff_false. rewrite existsb_exists. intros (x & Hx & Hy).
    apply list_elem_of_In in Hx. rewrite Forall_forall in Hg. destruct (Hg x Hx) as (Hxl & Hxn & _).
    unfold no_dups in Hy. rewrite Hxl, Z.eqb_refl, bool_decide_eq_true_2 in Hy by done. done. }
  cbn -[Z.mul]. done.
Qed.

Lemma zip_groups_ok ranks groups :
  length groups = length ranks ->
  NoDup (zip ranks groups ≫= fun stage => tag stage.1 stage.2) ->
  (forall x, x ∈ (zip ranks groups ≫= fun stage => tag stage.1 stage.2) -> 0 <= x.2) ->
  Forall (fun group => NoDup group /\ Forall (fun d => 0 <= d) group) groups.
Proof.
  revert groups. induction ranks as [|rank ranks IH]; intros [|group groups] Hl Hnd Hpos;
    try done; cbn in *.
  apply NoDup_app in Hnd as (Hng & _ & Hnd). constructor.
  - split; [by eapply NoDup_fmap_1|]. apply Forall_forall. intros d Hd.
    apply (Hpos (rank, d)), elem_of_app. left. by apply elem_of_tag.
  - apply IH; [lia|done|]. intros x Hx. apply Hpos, elem_of_app. by right.
Qed.

Section Reserve.
Context (intents : list ModelIntent.t) (n g c : Z).

(** What a reservation does to the planner. *)
Record reserved (intent : ModelIntent.t) (m : nat) (st : planner) (r : ReplicaPlan.t)
    (st' : planner) : Prop := Reserved {
  res_ok : planner_ok intents n g c st';
  res_placements : placements st' = alter (fun group => group ++ [r]) m (placements st);
  res_free : (length (free_from 0 (remaining_devices st'))
              < length (free_from 0 (remaining_devices st)))%nat;
}.

Lemma cpus_at_alter st primary k (pool : list (list Z)) pl rank :
  (primary < length (remaining_cpus st))%nat ->
  cpus_at (Planner pool (alter (fun x => x - k) primary (remaining_cpus st)) pl) rank
  = cpus_at st rank - (if (primary =? rank)%nat then k else 0).
Proof.
  intros Hlt. unfold cpus_at. cbn. destruct (Nat.eqb_spec primary rank) as [->|Hne].
  - rewrite list_lookup_alter_eq. destruct (lookup_lt_is_Some_2 _ _ Hlt) as [x ->]. done.
  - rewrite list_lookup_alter_ne by done. lia.
Qed.

Lemma pp_fresh intent st m group (selected : list nat) :
  1 < ModelIntent.pipeline_parallel_size intent ->
  placements st !! m = Some group -> NoDup (group ≫= ReplicaPlan.planned_ranks) ->
  Forall (usable intent n st m) selected -> NoDup selected ->
  NoDup ((group ≫= ReplicaPlan.planned_ranks) ++ (Z.of_nat <$> selected)).
Proof.
  intros Hpp Hg Hnd Hu Hs. apply NoDup_app. split_and!; [done| |by apply NoDup_fmap_2; [apply _|]].
  intros x Hx (r & -> & Hr)%list_elem_of_fmap. rewrite Forall_forall in Hu.
  destruct (Hu r Hr) as (_ & Hni & _). apply Hni. unfold pp_ranks_in_use, placed.
  by rewrite (proj2 (Z.ltb_lt _ _) Hpp), Hg.
Qed.

(** The group of the model stays well formed. *)
Lemma group_ok_snoc intent st m group selected groups :
  intent_ok intent -> placements st !! m = Some group -> group_ok n intent group ->
  NoDup selected -> Forall (usable intent n st m) selected ->
  ReplicaPlan.post_init (new_replica intent (ReplicaPlan.len group) selected groups) = Ok tt ->
  group_ok n intent (group ++ [new_replica intent (ReplicaPlan.len group) selected groups]).
Proof.
  intros Hi Hg (Hall & Hidx & Hpp) Hnd Hu Hpost. split_and!.
  - apply Forall_app. split; [done|]. constructor; [|done]. split_and!; try done.
    cbn. apply Forall_fmap. eapply Forall_impl; [exact Hu|]. intros r (Hr & _ & _). cbn. lia.
  - rewrite fmap_app, Hidx. unfold ReplicaPlan.len. rewrite length_app. cbn.
    rewrite Nat2Z.inj_add, seqZ_app by lia. done.
  - intros Hgt. rewrite bind_app. cbn. rewrite app_nil_r. by eapply pp_fresh; eauto.
Qed.

(** Booking a replica on free slots keeps the books balanced. *)
Lemma planner_ok_book intent m st group r pool primary rest :
  planner_ok intents n g c st -> intents !! m = Some intent ->
  placements st !! m = Some group -> group_ok n intent (group ++ [r]) ->
  slots r ++ free_from 0 pool ≡ₚ free_from 0 (remaining_devices st) ->
  length pool = length (remaining_devices st) ->
  ReplicaPlan.planned_ranks r = Z.of_nat primary :: rest ->
  ReplicaPlan.cpu_demand r = ModelIntent.num_cpus_per_replica intent ->
  (primary < Z.to_nat n)%nat -> ModelIntent.num_cpus_per_replica intent <= cpus_at st primary ->
  planner_ok intents n g c
    (Planner pool
       (alter (fun x => x - ModelIntent.num_cpus_per_replica intent) primary (remaining_cpus st))
       (alter (fun group => group ++ [r]) m (placements st))).
Proof.
  intros (Hld & Hlc & Hperm & Hcpu & Hgroups) Hm Hg Hgok Hfree Hpl Hranks Hdem Hp Hc.
  assert (concat (alter (fun group => group ++ [r]) m (placements st)) ≡ₚ booked st ++ [r]) as Hcat
    by by eapply concat_alter_snoc.
  unfold planner_ok, booked. cbn [remaining_devices remaining_cpus placements].
  split_and!; [lia|by rewrite length_alter| | |].
  - rewrite Hcat, bind_app. cbn [mbind list_bind]. rewrite app_nil_r, <- app_assoc, Hfree. done.
  - intros rank Hr. rewrite cpus_at_alter by lia. rewrite Hcat, demand_at_app.
    destruct (Hcpu rank Hr) as [H0 H1]. cbn [demand_at foldr]. unfold primary_rank.
    rewrite Hranks, Hdem. cbn [head from_option id].
    destruct (Z.eqb_spec (Z.of_nat primary) rank) as [<-|Hne].
    + rewrite Nat2Z.id in *. rewrite Nat.eqb_refl. lia.
    + rewrite (proj2 (Nat.eqb_neq _ _)) by lia. lia.
  - apply Forall2_alter_r; [done|]. intros x y Hx Hy _. simplify_eq. done.
Qed.

Lemma reserve_spec intent m st :
  planner_ok intents n g c st -> intents !! m = Some intent -> intent_ok intent ->
  (reserve intent n m st = Ok None /\
   select_ranks intent n st m (eligible_primary intent n st m) = []) \/
  exists r st', reserve intent n m st = Ok (Some st') /\ reserved intent m st r st'.
Proof.
  intros (Hld & Hlc & Hperm & Hcpu & Hgroups) Hm Hi. unfold reserve.
  pose proof (select_ranks_spec intent n st m (eligible_primary intent n st m)
                (proj1 (proj2 Hi)) (fun _ H => H)) as Hsel.
  destruct (select_ranks _ _ _ _ _) as [|primary rest] eqn:Hs; [by left|right].
  set (selected := primary :: rest) in *. clear Hs.
  destruct Hsel as (Hnd & Hu & Hlen & Hc).
  destruct (Forall2_lookup_l _ _ _ _ _ Hgroups Hm) as (group & Hgm & Hgok).
  set (tp := Z.to_nat (ModelIntent.tensor_parallel_size intent)).
  pose proof (take_groups_length tp (remaining_devices st) selected) as [Hgl Hpl].
  pose proof (take_groups_perm tp (remaining_devices st) selected) as Htp.
  pose proof (take_groups_full tp (remaining_devices st) selected Hnd) as Hfull.
  destruct (take_groups tp (remaining_devices st) selected) as [groups pool]. cbn [fst snd] in *.
  rewrite Forall_forall in Hu.
  specialize (Htp ltac:(apply Forall_forall; intros x Hx; destruct (Hu x Hx); lia)).
  specialize (Hfull ltac:(apply Forall_forall; intros x Hx; destruct (Hu x Hx) as (_ & _ & Hd);
    unfold has_devices, devices_at in Hd; bool_prop; lia)).
  set (r := new_replica intent (ReplicaPlan.len (placed st m)) selected groups).
  assert (slots r ++ free_from 0 pool ≡ₚ free_from 0 (remaining_devices st)) as Hfree by by rewrite Htp.
  assert (NoDup (slots r) /\ forall x, x ∈ slots r -> 0 <= x.2) as [Hsn Hsp].
  { pose proof (NoDup_all_slots n g) as Hna. rewrite <- Hperm, <- Hfree in Hna.
    split; [rewrite !NoDup_app in Hna; naive_solver|]. intros x Hx.
    assert (x ∈ all_slots n g) as Hin by (rewrite <- Hperm, <- Hfree, !elem_of_app; auto).
    apply elem_of_all_slots in Hin. lia. }
  assert (ReplicaPlan.post_init r = Ok tt) as Hpost.
  { apply post_init_ok; try done; [unfold ReplicaPlan.len; lia|].
    pose proof (zip_groups_ok (Z.of_nat <$> selected) groups ltac:(by rewrite length_fmap) Hsn Hsp) as Hz.
    eapply Forall_impl; [apply Forall_and; split; [exact Hz|exact Hfull]|].
    intros gr [[? ?] ?]. split_and!; try done. destruct Hi. unfold tp in *. lia. }
  assert (placed st m = group) as Hpg by (unfold placed; by rewrite Hgm).
  rewrite Hpost. eexists r, _. split; [reflexivity|]. split; [|done|].
  - eapply (planner_ok_book intent m st group r pool primary (Z.of_nat <$> rest)); try done.
    + unfold r in *. rewrite Hpg in *. apply (group_ok_snoc intent st m group selected groups); try done.
      by apply Forall_forall.
    + by destruct (Hu primary ltac:(left)).
  - cbn. rewrite <- Hfree, length_app.
    enough (length (slots r) <> 0)%nat by lia. intros Hz.
    destruct groups as [|[|d gr] groups]; [done| |done].
    inversion Hfull. cbn in *. destruct Hi. unfold tp in *. lia.
Qed.
End Reserve.

(** ** The phases of the resolver *)

Definition count (st : planner) (m : nat) : nat := length (placed st m).

Section Phases.
Context (intents : list ModelIntent.t) (n g c : Z) (env : ScaleEnvelope.t).
Hypothesis intents_ok : Forall intent_ok intents.

Definition free_slots (st : planner) : nat := length (free_from 0 (remaining_devices st)).

Lemma intent_ok_lookup m intent : intents !! m = Some intent -> intent_ok intent.
Proof. intros. by eapply Forall_lookup_1. Qed.

Lemma reserved_count intent m st r st' j :
  planner_ok intents n g c st -> intents !! m = Some intent ->
  reserved intents n g c intent m st r st' ->
  count st' j = (count st j + (if decide (m = j) then 1 else 0))%nat.
Proof.
  intros (_ & _ & _ & _ & Hg) Hm [_ Hp _].
  destruct (Forall2_lookup_l _ _ _ _ _ Hg Hm) as (group & Hgm & _).
  unfold count, placed. rewrite Hp. destruct (decide (m = j)) as [<-|Hne].
  - rewrite list_lookup_alter_eq, Hgm. cbn. rewrite length_app. done.
  - rewrite list_lookup_alter_ne by done. lia.
Qed.

(** [reserve] returns; when it returns [True], the books are balanced again. *)
Lemma reserve_cases intent m st :
  planner_ok intents n g c st -> intents !! m = Some intent ->
  (reserve intent n m st = Ok None /\
   select_ranks intent n st m (eligible_primary intent n st m) = []) \/
  exists st', reserve intent n m st = Ok (Some st') /\ planner_ok intents n g c st' /\
    (free_slots st' < free_slots st)%nat /\
    forall j, count st' j = (count st j + (if decide (m = j) then 1 else 0))%nat.
Proof.
  intros Hok Hm. destruct (reserve_spec intents n g c intent m st Hok Hm (intent_ok_lookup _ _ Hm))
    as [?|(r & st' & Hr & Hres)]; [by left|right].
  exists st'. split_and!; [done|apply Hres|apply Hres|]. intros j. by eapply reserved_count.
Qed.

Lemma reserve_all_spec intent m k st st' :
  planner_ok intents n g c st -> intents !! m = Some intent ->
  reserve_all intent n m k st = Ok st' ->
  planner_ok intents n g c st' /\
  forall j, count st' j = (count st j + (if decide (m = j) then k else 0))%nat.
Proof.
  revert st. induction k as [|k IH]; intros st Hok Hm Hr; cbn [reserve_all] in Hr.
  { res_inv. split; [done|]. intros j. destruct (decide (m = j)); lia. }
  destruct (reserve_cases intent m st Hok Hm) as [[Hn _]|(st1 & Hn & Hok1 & _ & Hc1)];
    rewrite Hn in Hr; [done|]. cbn in Hr. destruct (IH st1 Hok1 Hm Hr) as [Hok' Hc']. split; [done|].
  intros j. rewrite Hc', Hc1. destruct (decide (m = j)); lia.
Qed.

(** A loop over models in which each turn adds a known number of replicas. *)
Lemma fold_counts (step : planner -> nat * ModelIntent.t -> plan_result planner)
    (inc : ModelIntent.t -> nat) items :
  NoDup items.*1 ->
  (forall st item st', item ∈ items -> planner_ok intents n g c st -> step st item = Ok st' ->
     planner_ok intents n g c st' /\
     forall j, count st' j = (count st j + (if decide (item.1 = j) then inc item.2 else 0))%nat) ->
  forall st st', planner_ok intents n g c st -> fold_res step st items = Ok st' ->
  planner_ok intents n g c st' /\
  (forall j x, (j, x) ∈ items -> count st' j = (count st j + inc x)%nat) /\
  (forall j, j ∉ items.*1 -> count st' j = count st j).
Proof.
  induction items as [|[i x] items IH]; cbn [fmap list_fmap fold_res]; intros Hnd Hstep st st' Hok Hf.
  { res_inv. split_and!; try done. by intros ?? ?%not_elem_of_nil. }
  apply NoDup_cons in Hnd as [Hni Hnd]. apply bind_Ok in Hf as (st1 & H1 & Hf).
  destruct (Hstep st (i, x) st1 ltac:(left) Hok H1) as [Hok1 Hc1].
  destruct (IH Hnd ltac:(intros; eapply Hstep; eauto; by right) st1 st' Hok1 Hf)
    as (Hok' & Hin & Hout).
  split_and!; [done| |].
  - intros j y [[= -> ->]|Hy]%elem_of_cons.
    + rewrite Hout, Hc1 by done. cbn. by rewrite decide_True.
    + rewrite (Hin _ _ Hy), Hc1. cbn. rewrite decide_False; [lia|].
      intros ->. apply Hni, list_elem_of_fmap. by exists (j, y).
  - intros j Hj. rewrite not_elem_of_cons in Hj. destruct Hj as [Hne Hj].
    rewrite Hout, Hc1 by done. cbn. rewrite decide_False by done. lia.
Qed.

Lemma elem_of_enumerate j x : (j, x) ∈ enumerate intents <-> intents !! j = Some x.
Proof.
  unfold enumerate. rewrite elem_of_lookup_imap. split.
  - intros (i & y & [= -> ->] & ?). done.
  - intros ?. exists j, x. done.
Qed.

Lemma enumerate_fst : (enumerate intents).*1 = seq 0 (length intents).
Proof.
  unfold enumerate. rewrite fmap_imap. apply list_eq. intros i. rewrite list_lookup_imap.
  destruct (decide (i < length intents)%nat) as [Hi|Hi].
  - rewrite lookup_seq_lt by done. destruct (lookup_lt_is_Some_2 _ _ Hi) as [x ->]. done.
  - rewrite lookup_ge_None_2 by lia. rewrite lookup_seq_ge by lia. done.
Qed.

Lemma NoDup_filter_fst (P : nat * ModelIntent.t -> Prop) `{forall x, Decision (P x)} :
  NoDup (filter P (enumerate intents)).*1.
Proof.
  eapply sublist_NoDup; [|apply fmap_sublist, sublist_filter].
  rewrite enumerate_fst. apply NoDup_seq.
Qed.

(** *** The round-robin loop *)

Definition stuck (st : planner) (item : nat * ModelIntent.t) : Prop :=
  ScaleEnvelope.max_replicas_per_model env <= Z.of_nat (count st item.1) \/
  select_ranks item.2 n st item.1 (eligible_primary item.2 n st item.1) = [].

(** One model's turn. *)
Lemma auto_turn_spec st p item :
  planner_ok intents n g c st -> intents !! item.1 = Some item.2 ->
  exists st' p', auto_turn n env (st, p) item = Ok (st', p') /\
    planner_ok intents n g c st' /\
    ((st' = st /\ p' = p /\ stuck st item) \/
     (p' = true /\ (free_slots st' < free_slots st)%nat /\
      Z.of_nat (count st' item.1) <= ScaleEnvelope.max_replicas_per_model env /\
      forall j, count st' j = (count st j + (if decide (item.1 = j) then 1 else 0))%nat)).
Proof.
  intros Hok Hm. unfold auto_turn. destruct (_ <=? _) eqn:Hmax; bool_prop.
  { exists st, p. split_and!; [done..|]. left. split_and!; try done. by left. }
  destruct (reserve_cases item.2 item.1 st Hok Hm) as [[-> Hs]|(st' & -> & Hok' & Hf & Hc)].
  - exists st, p. split_and!; [done..|]. left. split_and!; try done. by right.
  - exists st', true. split_and!; [done..|]. right. split_and!; try done.
    rewrite Hc, decide_True by done. unfold ReplicaPlan.len, count in *. lia.
Qed.

(** One round: either nothing was placed and every model is stuck, or the pool
    of free devices shrank. *)
Lemma auto_round_spec items st p :
  planner_ok intents n g c st -> Forall (fun item => intents !! item.1 = Some item.2) items ->
  exists st' p', fold_res (auto_turn n env) (st, p) items = Ok (st', p') /\
    planner_ok intents n g c st' /\
    (forall j, (count st j <= count st' j)%nat /\ (j ∉ items.*1 -> count st' j = count st j) /\
       (Z.of_nat (count st j) <= ScaleEnvelope.max_replicas_per_model env ->
        Z.of_nat (count st' j) <= ScaleEnvelope.max_replicas_per_model env)) /\
    ((st' = st /\ p' = p /\ Forall (stuck st) items) \/
     (p' = true /\ (free_slots st' < free_slots st)%nat)).
Proof.
  revert st p. induction items as [|item items IH]; intros st p Hok Hall; cbn [fold_res].
  { exists st, p. split_and!; [done..| |]; [intros j; auto with lia|]. left. auto. }
  inversion_clear Hall as [|?? Hm Hms].
  destruct (auto_turn_spec st p item Hok Hm) as (st1 & p1 & -> & Hok1 & Hcase).
  cbn [mbind result_bind].
  destruct (IH st1 p1 Hok1 Hms) as (st' & p' & -> & Hok' & Hc' & Hend).
  exists st', p'. split_and!; [done..| |].
  - intros j. destruct (Hc' j) as (Hle & Hout & Hmax).
    destruct Hcase as [(-> & _ & _)|(_ & _ & Hm1 & Hc1)].
    + split_and!; [done| |done]. rewrite fmap_cons, not_elem_of_cons. intros [_ ?]. auto.
    + rewrite fmap_cons, not_elem_of_cons, Hc1 in *.
      destruct (decide (item.1 = j)) as [<-|]; split_and!; try lia.
      * intros _. rewrite decide_True in Hm1 by done. auto.
      * intros [_ Hj]. rewrite Hout by done. lia.
  - destruct Hcase as [(-> & -> & Hst)|(-> & Hf & _ & _)], Hend as [(-> & -> & Hs)|(-> & Hf')].
    + left. auto.
    + right. done.
    + right. done.
    + right. split; [done|lia].
Qed.

Lemma auto_loop_spec fuel items st :
  planner_ok intents n g c st -> Forall (fun item => intents !! item.1 = Some item.2) items ->
  (free_slots st < fuel)%nat ->
  exists st', auto_loop fuel n env items st = Some (Ok st') /\ planner_ok intents n g c st' /\
    (forall j, (count st j <= count st' j)%nat /\ (j ∉ items.*1 -> count st' j = count st j) /\
       (Z.of_nat (count st j) <= ScaleEnvelope.max_replicas_per_model env ->
        Z.of_nat (count st' j) <= ScaleEnvelope.max_replicas_per_model env)) /\
    Forall (stuck st') items.
Proof.
  revert st. induction fuel as [|fuel IH]; intros st Hok Hall Hfuel; [lia|].
  destruct items as [|item items]; cbn [auto_loop].
  { exists st. split_and!; [done..| |constructor]. intros j; auto with lia. }
  destruct (auto_round_spec (item :: items) st false Hok Hall)
    as (st1 & p1 & -> & Hok1 & Hc1 & [(-> & -> & Hs)|(-> & Hf)]).
  - by exists st.
  - destruct (IH st1 Hok1 Hall ltac:(lia)) as (st' & -> & Hok' & Hc' & Hs).
    exists st'. split_and!; try done. intros j.
    destruct (Hc1 j) as (? & Ho1 & ?), (Hc' j) as (? & Ho' & ?).
    split_and!; [lia| |auto]. intros Hj. rewrite Ho', Ho1; done.
Qed.
End Phases.

(** ** The resolver *)

Lemma length_all_slots n g : length (all_slots n g) = (Z.to_nat n * Z.to_nat g)%nat.
Proof.
  unfold all_slots. generalize 0 at 1 as start. generalize (Z.to_nat n) as k.
  induction k as [|k IH]; intros start; [done|]. cbn. rewrite length_app, IH.
  unfold tag. by rewrite length_fmap, length_seqZ.
Qed.

Lemma planner_ok_free intents n g c st :
  planner_ok intents n g c st -> (free_slots st < rounds n g)%nat.
Proof.
  intros (_ & _ & Hp & _). unfold rounds, free_slots. rewrite <- length_all_slots, <- Hp, length_app.
  lia.
Qed.

(** How many replicas each kind of model ends up with. *)
Definition share_ok (n : Z) (env : ScaleEnvelope.t) (st : planner) (j : nat) (x : ModelIntent.t)
    : Prop :=
  match ModelIntent.requested_replicas x with
  | Some k => count st j = Z.to_nat k
  | None =>
      if 1 <? ModelIntent.pipeline_parallel_size x then count st j = 1%nat
      else Z.of_nat (count st j) <= ScaleEnvelope.max_replicas_per_model env
           /\ stuck n env st (j, x)
  end.

Section Resolve.
Context (intents : list ModelIntent.t) (n g c : Z) (env : ScaleEnvelope.t).
Hypothesis intents_ok : Forall intent_ok intents.

Lemma filter_lookup (P : nat * ModelIntent.t -> Prop) `{forall x, Decision (P x)} :
  Forall (fun item => intents !! item.1 = Some item.2) (filter P (enumerate intents)).
Proof.
  apply Forall_forall. intros [j x] [_ Hin]%list_elem_of_filter. by apply elem_of_enumerate.
Qed.

Lemma not_in_filter (P : nat * ModelIntent.t -> Prop) `{forall x, Decision (P x)} j x :
  intents !! j = Some x -> ~ P (j, x) -> j ∉ (filter P (enumerate intents)).*1.
Proof.
  intros Hj HP ([j' x'] & Heq & [HP' Hin]%list_elem_of_filter)%list_elem_of_fmap.
  cbn in Heq. subst j'. apply elem_of_enumerate in Hin. simplify_eq. done.
Qed.

Lemma explicit_spec st st' :
  planner_ok intents n g c st ->
  fold_res (reserve_explicit n env) st (enumerate intents) = Ok st' ->
  planner_ok intents n g c st' /\
  forall j x, intents !! j = Some x ->
    count st' j = (count st j + Z.to_nat (default 0%Z (ModelIntent.requested_replicas x)))%nat.
Proof.
  intros Hok Hf.
  destruct (fold_counts intents n g c (reserve_explicit n env)
    (fun x => Z.to_nat (default 0%Z (ModelIntent.requested_replicas x))) (enumerate intents))
    with (st := st) (st' := st') as (Hok' & Hin & _); try done.
  - rewrite enumerate_fst. apply NoDup_seq.
  - intros st0 [j x] st1 Hj%elem_of_enumerate Hok0 Hs. unfold reserve_explicit in Hs. cbn in Hs |- *.
    destruct (ModelIntent.requested_replicas x) as [k|]; cbn; res_inv.
    + by eapply reserve_all_spec.
    + split; [done|]. intros i. destruct (decide (j = i)); lia.
  - split; [done|]. intros j x Hj. by apply Hin, elem_of_enumerate.
Qed.

Lemma auto_pp_spec st st' :
  planner_ok intents n g c st ->
  fold_res (reserve_auto_pp n) st (filter is_auto_pp (enumerate intents)) = Ok st' ->
  planner_ok intents n g c st' /\
  forall j x, intents !! j = Some x ->
    count st' j = (count st j + (if decide (is_auto_pp (j, x)) then 1 else 0))%nat.
Proof.
  intros Hok Hf.
  destruct (fold_counts intents n g c (reserve_auto_pp n) (fun _ => 1%nat)
    (filter is_auto_pp (enumerate intents))) with (st := st) (st' := st') as (Hok' & Hin & Hout);
    try done.
  - apply NoDup_filter_fst.
  - intros st0 [j x] st1 [_ Hj%elem_of_enumerate]%list_elem_of_filter Hok0 Hs.
    unfold reserve_auto_pp in Hs. cbn in Hs |- *.
    destruct (reserve_cases intents n g c intents_ok x j st0 Hok0 Hj)
      as [[Hr _]|(st2 & Hr & Hok2 & _ & Hc)]; rewrite Hr in Hs; cbn in Hs; [done|].
    by simplify_eq.
  - split; [done|]. intros j x Hj. destruct (decide (is_auto_pp (j, x))) as [Hp|Hp].
    + apply (Hin j x), list_elem_of_filter. by rewrite elem_of_enumerate.
    + rewrite Hout by by eapply not_in_filter. lia.
Qed.

Lemma count_initial j : count (initial_planner intents n g c) j = 0%nat.
Proof.
  unfold count, placed, initial_planner. cbn.
  destruct (replicate _ _ !! j) as [l|] eqn:Hl; [|done].
  by apply lookup_replicate in Hl as [-> _].
Qed.

Lemma resolve_spec :
  0 <= c -> 0 <= ScaleEnvelope.max_replicas_per_model env ->
  exists res, resolve_models intents n g c env = Some res /\
    forall plans, res = Ok plans ->
    exists st, planner_ok intents n g c st /\ finish intents env st = Ok plans /\
      forall j x, intents !! j = Some x -> share_ok n env st j x.
Proof.
  intros Hc Hmax. unfold resolve_models.
  pose proof (initial_planner_ok intents n g c Hc) as Hok0.
  destruct (fold_res (reserve_explicit n env) _ _) as [st1|e] eqn:H1; cbn [mbind result_bind].
  2: { eexists. split; [reflexivity|done]. }
  destruct (explicit_spec _ _ Hok0 H1) as [Hok1 Hc1].
  destruct (fold_res (reserve_auto_pp n) st1 _) as [st2|e] eqn:H2.
  2: { eexists. split; [reflexivity|done]. }
  destruct (auto_pp_spec _ _ Hok1 H2) as [Hok2 Hc2].
  destruct (auto_loop_spec intents n g c env intents_ok (rounds n g)
    (filter is_auto_tp (enumerate intents)) st2 Hok2 (filter_lookup is_auto_tp)
    (planner_ok_free _ _ _ _ _ Hok2)) as (st3 & -> & Hok3 & Hc3 & Hs).
  eexists. split; [reflexivity|]. cbn. intros plans Hfin. exists st3. split_and!; try done.
  intros j x Hj. specialize (Hc1 j x Hj). specialize (Hc2 j x Hj). rewrite count_initial in Hc1.
  destruct (Hc3 j) as (_ & Hout & Hle). unfold share_ok.
  pose proof (Forall_lookup_1 _ _ _ _ intents_ok Hj) as (_ & Hpp & _).
  destruct (ModelIntent.requested_replicas x) as [k|] eqn:Hk.
  - rewrite Hout by (eapply not_in_filter; [done|]; unfold is_auto_tp; cbn; rewrite Hk; naive_solver).
    rewrite Hc2, Hc1, decide_False by (unfold is_auto_pp; cbn; rewrite Hk; naive_solver). cbn. lia.
  - cbn in Hc1. destruct (1 <? _) eqn:Hp; bool_prop.
    + rewrite Hout by (eapply not_in_filter; [done|]; unfold is_auto_tp; cbn; lia).
      by rewrite Hc2, Hc1, decide_True.
    + rewrite decide_False in Hc2 by (unfold is_auto_pp; cbn; lia).
      split; [apply Hle; lia|]. rewrite Forall_forall in Hs. apply Hs, list_elem_of_filter.
      rewrite elem_of_enumerate. split; [|done]. split; cbn; [done|lia].
Qed.
End Resolve.

(** ** The topology check of the plan *)

Lemma fold_res_bind {E A B C} (f : B -> A -> result E B) (h : C -> list A) b l :
  fold_res (fun b x => fold_res f b (h x)) b l = fold_res f b (l ≫= h).
Proof.
  revert b. induction l as [|x l IH]; intros b; cbn [fold_res]; [done|].
  rewrite bind_cons, fold_res_app. destruct (fold_res f b (h x)); cbn; [apply IH|done].
Qed.

Definition book_slot (g : Z) (occupied : gset (Z * Z)) (x : Z * Z) :=
  DeploymentPlan.book_device g x.1 occupied x.2.

Lemma book_slots_ok g l occupied :
  NoDup l -> (forall x, x ∈ l -> x.2 < g) -> (forall x, x ∈ l -> x ∉ occupied) ->
  fold_res (book_slot g) occupied l = Ok (list_to_set l ∪ occupied).
Proof.
  revert occupied. induction l as [|[rank d] l IH]; intros occ Hnd Hg Ho; cbn [fold_res].
  { f_equal. set_solver. }
  apply NoDup_cons in Hnd as [Hni Hnd]. change (book_slot g occ (rank, d)) with (DeploymentPlan.book_device g rank occ d).
  unfold DeploymentPlan.book_device, plan_raise_if.
  pose proof (Hg (rank, d) ltac:(left)) as Hd. pose proof (Ho (rank, d) ltac:(left)) as Hoc. cbn in Hd.
  rewrite (proj2 (Z.leb_gt _ _)) by (cbn; lia). cbn [raise_if mbind result_bind fst snd].
  rewrite bool_decide_eq_false_2 by done. cbn [raise_if mbind result_bind].
  rewrite IH; [f_equal; set_solver|done|set_solver|set_solver].
Qed.

Lemma book_replica_slots g occ cpu r :
  DeploymentPlan.book_replica g (occ, cpu) r =
  (occ' ← fold_res (book_slot g) occ (slots r);
   Ok (occ', <[primary_rank r := default 0 (cpu !! primary_rank r) + ReplicaPlan.cpu_demand r]> cpu)).
Proof.
  unfold DeploymentPlan.book_replica, slots. cbn [fst snd]. rewrite <- fold_res_bind.
  f_equal. generalize (DeploymentPlan.stages r) as l. intros l. revert occ.
  induction l as [|[rank ds] l IH]; intros occ; cbn [fold_res]; [done|].
  assert (DeploymentPlan.book_stage g occ (rank, ds) = fold_res (book_slot g) occ (tag rank ds)) as ->.
  { unfold DeploymentPlan.book_stage, tag. cbn [fst snd]. clear. revert occ.
    induction ds as [|d ds IH]; intros occ; cbn [fold_res fmap list_fmap]; [done|].
    change (book_slot g occ (rank, d)) with (DeploymentPlan.book_device g rank occ d). destruct (DeploymentPlan.book_device g rank occ d); [|done].
    apply IH. }
  cbn [fst snd]. destruct (fold_res (book_slot g) occ (tag rank ds)); cbn; [apply IH|done].
Qed.

Lemma book_replicas_ok g rs occ cpu :
  NoDup (rs ≫= slots) -> (forall x, x ∈ rs ≫= slots -> x.2 < g) ->
  (forall x, x ∈ rs ≫= slots -> x ∉ occ) ->
  exists occ' cpu', fold_res (DeploymentPlan.book_replica g) (occ, cpu) rs = Ok (occ', cpu') /\
    forall rank d, cpu' !! rank = Some d ->
      (is_Some (cpu !! rank) \/ rank ∈ primary_rank <$> rs) /\
      d = default 0 (cpu !! rank) + demand_at rank rs.
Proof.
  revert occ cpu. induction rs as [|r rs IH]; intros occ cpu Hnd Hg Ho; cbn [fold_res].
  { exists occ, cpu. split; [done|]. intros rank d Hd. rewrite Hd. cbn. split; [eauto|lia]. }
  rewrite bind_cons in *. apply NoDup_app in Hnd as (Hn1 & Hdis & Hn2).
  rewrite book_replica_slots, book_slots_ok; [|done|intros; apply Hg, elem_of_app; auto..|
    intros; apply Ho, elem_of_app; auto].
  cbn [mbind result_bind].
  edestruct IH as (occ' & cpu' & -> & Hcpu); [done| | |exists occ', cpu'; split; [done|]].
  - intros. apply Hg, elem_of_app. auto.
  - intros x Hx. rewrite elem_of_union, elem_of_list_to_set. intros [?|?]; [by eapply Hdis|].
    eapply Ho; [|done]. apply elem_of_app. auto.
  - intros rank d Hd. destruct (Hcpu rank d Hd) as [Hor ->]. rewrite fmap_cons, elem_of_cons.
    cbn [demand_at foldr]. destruct (Z.eqb_spec (primary_rank r) rank) as [<-|Hne].
    + rewrite lookup_insert_eq. cbn. unfold demand_at. split; [auto|lia].
    + rewrite lookup_insert_ne in * by done. unfold demand_at. split; [naive_solver|lia].
Qed.

Lemma placements_of_plans intents n g c st :
  planner_ok intents n g c st ->
  (imap (fun i intent => model_plan intent (placed st i)) intents) ≫= ModelPlan.replicas = booked st.
Proof.
  intros (_ & _ & _ & _ & Hg). unfold booked, placed.
  apply Forall2_length in Hg. revert Hg. generalize (placements st) as pl. clear.
  induction intents as [|x intents IH]; intros [|group pl] Hl; try done.
  cbn [imap]. rewrite bind_cons. cbn. f_equal. rewrite <- (IH pl) by (cbn in Hl; lia). done.
Qed.

Lemma finish_Ok intents env st plans :
  finish intents env st = Ok plans ->
  plans = imap (fun i intent => model_plan intent (placed st i)) intents /\
  Forall (fun m => ModelPlan.post_init m = Ok tt) plans /\
  (forall group, group ∈ placements st -> group <> []) /\
  Z.of_nat (sum_list (length <$> placements st)) <= ScaleEnvelope.max_total_replicas env.
Proof.
  unfold finish, plan_raise_if. intros Hf. res_inv. bool_prop. split_and!; try done.
  intros group Hin ->. rewrite <- not_true_iff_false in H. apply H, existsb_exists.
  exists []. by rewrite <- list_elem_of_In.
Qed.

Lemma elem_of_booked st r :
  r ∈ booked st -> exists j group, placements st !! j = Some group /\ r ∈ group.
Proof.
  unfold booked. intros Hr. apply list_elem_of_In, in_concat in Hr as (group & Hg & Hr).
  apply list_elem_of_In in Hg, Hr. apply list_elem_of_lookup in Hg as [j Hj]. eauto.
Qed.

Lemma booked_ranks intents n g c st r :
  planner_ok intents n g c st -> r ∈ booked st ->
  Forall (fun rank => 0 <= rank < n) (ReplicaPlan.planned_ranks r) /\
  ReplicaPlan.planned_ranks r <> [].
Proof.
  intros (_ & _ & _ & _ & Hgroups) (j & group & Hj & Hr)%elem_of_booked.
  destruct (Forall2_lookup_r _ _ _ _ _ Hgroups Hj) as (x & _ & Hall & _).
  rewrite Forall_forall in Hall. destruct (Hall r Hr) as (Hpost & Hrk & _). split; [done|].
  unfold ReplicaPlan.post_init, plan_raise_if in Hpost. res_inv. bool_prop. done.
Qed.

(** ** Capacity accounting *)

Definition at_rank (rank : Z) (l : list (Z * Z)) : list (Z * Z) := filter (fun x => x.1 = rank) l.

Lemma at_rank_tag rank rank' ds :
  length (at_rank rank (tag rank' ds)) = if decide (rank' = rank) then length ds else 0%nat.
Proof.
  unfold at_rank, tag. destruct (decide (rank' = rank)) as [->|Hne];
    (induction ds as [|d ds IH]; [done|]); cbn [fmap list_fmap]; rewrite filter_cons; cbn [fst].
  - rewrite decide_True by done. cbn [length]. f_equal. apply IH.
  - rewrite decide_False by done. apply IH.
Qed.

Lemma at_rank_free start pool rank :
  length (at_rank rank (free_from start pool)) =
  if decide (start <= rank) then length (default [] (pool !! Z.to_nat (rank - start))) else 0%nat.
Proof.
  revert start. induction pool as [|ds pool IH]; intros start; cbn.
  { destruct (decide _); done. }
  unfold at_rank in *. rewrite filter_app, length_app, IH. fold (at_rank rank (tag start ds)).
  rewrite at_rank_tag. destruct (decide (start = rank)) as [->|Hne].
  - rewrite (decide_False (P := rank + 1 <= rank)), decide_True, Z.sub_diag by lia.
    by rewrite Nat.add_0_r.
  - destruct (decide (start <= rank)).
    + rewrite decide_True by lia. replace (rank - start) with (Z.succ (rank - (start + 1))) by lia.
      rewrite Z2Nat.inj_succ by lia. done.
    + rewrite decide_False by lia. done.
Qed.

(** Devices in use and devices free add up to the node's devices. *)
Lemma devices_balance intents n g c st rank :
  planner_ok intents n g c st -> 0 <= rank < n ->
  (length (at_rank rank (booked st ≫= slots)) + length (devices_at st (Z.to_nat rank)))%nat
  = Z.to_nat g.
Proof.
  intros (_ & _ & Hp & _) Hr.
  assert (at_rank rank ((booked st ≫= slots) ++ free_from 0 (remaining_devices st))
          ≡ₚ at_rank rank (all_slots n g)) as Hf by (unfold at_rank; by rewrite Hp).
  apply Permutation_length in Hf. unfold at_rank in Hf. rewrite filter_app, length_app in Hf.
  fold (at_rank rank (free_from 0 (remaining_devices st))) in Hf.
  fold (at_rank rank (all_slots n g)) in Hf. unfold all_slots in Hf.
  rewrite !at_rank_free, !decide_True, Z.sub_0_r in Hf by lia.
  rewrite lookup_replicate_2 in Hf by lia. cbn in Hf. rewrite length_seqZ in Hf.
  unfold at_rank, devices_at. lia.
Qed.

(** ** From configuration to intents *)

Lemma integer_Ok v d m z : integer v d m = Ok z -> from_option (fun k => k <= z) True m.
Proof.
  unfold integer, plan_raise_if. intros Hi. apply bind_Ok in Hi as (v' & _ & Hi).
  destruct v'; try done. res_inv. destruct m; cbn in *; [|done]. bool_prop. done.
Qed.

Lemma optional_positive_Ok v o :
  optional_positive v = Ok o -> from_option (fun k => 1 <= k) True o.
Proof.
  intros Ho. destruct o as [k|]; [|done]. cbn.
  destruct v; cbn [optional_positive] in Ho; res_inv; simplify_eq; try done;
    match goal with H : integer _ _ _ = Ok _ |- _ => by apply integer_Ok in H end.
Qed.

Record intents_wf (n g : Z) (acc : identities * list ModelIntent.t) : Prop := {
  wf_seen : forall s,
    (s ∈ seen_model_id acc.1 <-> s ∈ ModelIntent.model_id <$> acc.2) /\
    (s ∈ seen_storage_name acc.1 <-> s ∈ ModelIntent.storage_name <$> acc.2) /\
    (s ∈ seen_route_name acc.1 <-> s ∈ ModelIntent.route_name <$> acc.2);
  wf_distinct : NoDup (ModelIntent.model_id <$> acc.2) /\
                NoDup (ModelIntent.storage_name <$> acc.2) /\
                NoDup (ModelIntent.route_name <$> acc.2);
  wf_intents : Forall (fun x => intent_ok x
      /\ ModelIntent.tensor_parallel_size x <= g /\ ModelIntent.pipeline_parallel_size x <= n
      /\ from_option (fun k => 1 <= k) True (ModelIntent.requested_replicas x)
      /\ require_model_id (ModelIntent.model_id x) = Ok tt
      /\ ModelIntent.storage_name x = storage_name_of (ModelIntent.model_id x)
      /\ ModelIntent.route_name x = route_name_of (ModelIntent.storage_name x)) acc.2;
}.

Lemma NoDup_snoc {A} (l : list A) x : NoDup l -> x ∉ l -> NoDup (l ++ [x]).
Proof.
  intros. apply NoDup_app. split_and!; [done|set_solver|]. apply NoDup_singleton.
Qed.

Lemma compile_model_intent_wf n g acc item acc' :
  intents_wf n g acc -> compile_model_intent n g acc item = Ok acc' -> intents_wf n g acc'.
Proof.
  intros [Hs (Hd1 & Hd2 & Hd3) Hall] Hc. destruct acc as [ids intents]. cbn [fst snd] in *.
  unfold compile_model_intent, plan_raise_if in Hc. res_inv. bool_prop.
  repeat match goal with H : integer _ _ _ = Ok _ |- _ => apply integer_Ok in H; cbn in H end.
  repeat match goal with u : unit |- _ => destruct u end.
  split; cbn [fst snd seen_model_id seen_storage_name seen_route_name]; rewrite ?fmap_app.
  - intros s. specialize (Hs s). set_solver.
  - split_and!; apply NoDup_snoc; try done; cbn [ModelIntent.model_id ModelIntent.storage_name
      ModelIntent.route_name]; intros ?%Hs; done.
  - apply Forall_app. split; [done|]. constructor; [|done]. cbn. unfold intent_ok. cbn.
    split_and!; try done. by eapply optional_positive_Ok.
Qed.

Lemma compile_model_intents_wf raw n g intents :
  compile_model_intents raw n g = Ok intents -> intents <> [] /\ exists ids, intents_wf n g (ids, intents).
Proof.
  unfold compile_model_intents. intros Hc. destruct raw as [| | | | |[|item items]|]; try done.
  apply bind_Ok in Hc as ([ids xs] & Hf & Hx). cbn in Hx. injection Hx as <-.
  assert (intents_wf n g (ids, xs)) as Hwf.
  { eapply (fold_res_ind _ (intents_wf n g)); [| |exact Hf].
    - intros. by eapply compile_model_intent_wf.
    - split; cbn; [done|split_and!; constructor|constructor]. }
  split; [|by exists ids]. intros ->. cbn [fold_res] in Hf.
  apply bind_Ok in Hf as ([ids1 xs1] & H1 & Hf).
  assert (xs1 <> []) as Hne.
  { unfold compile_model_intent in H1. res_inv. simplify_eq. done. }
  revert Hf. revert Hne. generalize ids1 xs1. clear. induction items as [|it items IH]; intros i x Hne.
  - cbn. by intros [= -> ->].
  - cbn [fold_res]. intros ([i' x'] & H1 & Hf)%bind_Ok. eapply IH; [|exact Hf].
    unfold compile_model_intent in H1. res_inv. simplify_eq. by destruct x.
Qed.

(** ** What the compiler promises *)

(** Compiled intents name pairwise distinct models, storage directories and
    routes, within the node and device counts. *)
Theorem compiled_intents_distinct raw n g intents :
  compile_model_intents raw n g = Ok intents ->
  intents <> [] /\
  NoDup (ModelIntent.model_id <$> intents) /\ NoDup (ModelIntent.storage_name <$> intents) /\
  NoDup (ModelIntent.route_name <$> intents) /\
  Forall (fun x => 1 <= ModelIntent.tensor_parallel_size x <= g
                   /\ 1 <= ModelIntent.pipeline_parallel_size x <= n) intents.
Proof.
  intros compiled. destruct (compile_model_intents_wf _ _ _ _ compiled) as (Hne & ids & [_ (H1 & H2 & H3) Hall]).
  split_and!; try done. eapply Forall_impl; [exact Hall|]. cbn.
  intros x ((? & ? & _) & ? & ? & _). done.
Qed.

Section Promises.
Context (raw : value) (n g c : Z) (env : ScaleEnvelope.t) (intents : list ModelIntent.t).
Hypothesis compiled : compile_model_intents raw n g = Ok intents.

Lemma compiled_ok : Forall intent_ok intents.
Proof.
  destruct (compile_model_intents_wf _ _ _ _ compiled) as (_ & ids & [_ _ Hall]).
  eapply Forall_impl; [exact Hall|]. by intros x [? _].
Qed.

Lemma compiled_requests :
  Forall (fun x => from_option (fun k => 1 <= k) True (ModelIntent.requested_replicas x)) intents.
Proof.
  destruct (compile_model_intents_wf _ _ _ _ compiled) as (_ & ids & [_ _ Hall]).
  eapply Forall_impl; [exact Hall|]. cbn. by intros x (_ & _ & _ & ? & _).
Qed.

Hypothesis enveloped : ScaleEnvelope.post_init env = Ok tt.

Lemma envelope_max : 1 <= ScaleEnvelope.max_replicas_per_model env.
Proof.
  unfold ScaleEnvelope.post_init in enveloped. res_inv.
  match goal with H : Forall _ [ScaleEnvelope.min_nodes env; _; _; _; _; _] |- _ =>
    rewrite !Forall_cons in H; destruct H as (_ & _ & _ & Hm & _) end.
  unfold plan_raise_if in Hm. res_inv. bool_prop. done.
Qed.

(** C35: The round-robin loop ends: for intents that [compile_model_intents] returned, a valid
    scale envelope and a non-negative number of CPUs per node, the resolver returns a plan or
    raises; its loop is given n * g + 1 rounds, one more than there are devices. *)
Theorem placement_terminates :
  0 <= c -> exists res, resolve_models intents n g c env = Some res.
Proof.
  intros Hc. pose proof envelope_max.
  destruct (resolve_spec intents n g c env compiled_ok Hc ltac:(lia)) as (res & Hr & _). eauto.
Qed.

Lemma resolved plans :
  0 <= c -> resolve_models intents n g c env = Some (Ok plans) ->
  exists st, planner_ok intents n g c st /\ finish intents env st = Ok plans /\
    forall j x, intents !! j = Some x -> share_ok n env st j x.
Proof.
  intros Hc Hr. pose proof envelope_max.
  destruct (resolve_spec intents n g c env compiled_ok Hc ltac:(lia)) as (res & Hr' & Hok).
  rewrite Hr in Hr'. injection Hr' as <-. by apply Hok.
Qed.

Lemma plan_lookup st plans j m :
  finish intents env st = Ok plans -> plans !! j = Some m ->
  exists x, intents !! j = Some x /\ m = model_plan x (placed st j).
Proof.
  intros (-> & _)%finish_Ok Hj. rewrite list_lookup_imap in Hj.
  destruct (intents !! j) as [x|]; cbn in Hj; [|done]. injection Hj as <-. eauto.
Qed.

(** C3: The resolved topology is one the plan's own constructor accepts: no rank
    outside the allocation, no (rank, device) pair booked twice, and no rank's
    CPUs oversubscribed. *)
Theorem placement_passes_topology_check plans p :
  0 <= c -> resolve_models intents n g c env = Some (Ok plans) ->
  DeploymentPlan.models p = plans -> DeploymentPlan.num_nodes p = n ->
  DeploymentPlan.num_gpus_per_node p = g -> DeploymentPlan.node_cpus p = c ->
  DeploymentPlan.check_topology p = Ok tt.
Proof.
  intros Hc Hr Hm Hn Hg Hcpu. destruct (resolved plans Hc Hr) as (st & Hok & Hfin & _).
  pose proof (finish_Ok _ _ _ _ Hfin) as (Hplans & _). unfold DeploymentPlan.check_topology.
  assert (DeploymentPlan.all_replicas p = booked st) as ->.
  { unfold DeploymentPlan.all_replicas. rewrite Hm, Hplans. by eapply placements_of_plans. }
  pose proof Hok as (_ & _ & Hperm & Hcap & Hgroups).
  pose proof (fun r => booked_ranks intents n g c st r Hok) as Hranks.
  rewrite Hn, Hg, Hcpu.
  assert (existsb (fun replica => existsb (fun rank => n <=? rank) (ReplicaPlan.planned_ranks replica))
            (booked st) = false) as ->.
  { apply not_true_iff_false. rewrite existsb_exists. intros (r & Hin & Hx).
    apply existsb_exists in Hx as (rank & Hrk & ?). apply list_elem_of_In in Hin, Hrk.
    destruct (Hranks r Hin) as [Hall _]. rewrite Forall_forall in Hall.
    specialize (Hall rank Hrk). bool_prop. lia. }
  cbn [plan_raise_if raise_if mbind result_bind].
  pose proof (NoDup_all_slots n g) as Hnd. rewrite <- Hperm in Hnd.
  destruct (book_replicas_ok g (booked st) ∅ ∅) as (occ & cpu & Hb & Hcpus).
  - by apply NoDup_app in Hnd as [? _].
  - intros x Hx. assert (x ∈ all_slots n g) as Hin by (rewrite <- Hperm; by apply elem_of_app; left).
    apply elem_of_all_slots in Hin. lia.
  - set_solver.
  - rewrite Hb. cbn [mbind result_bind snd]. unfold plan_raise_if.
    rewrite bool_decide_eq_true_2; [done|]. intros rank d Hd.
    destruct (Hcpus rank d Hd) as [[[? Hno]|Hin] ->]; [by rewrite lookup_empty in Hno|].
    apply list_elem_of_fmap in Hin as (r & -> & Hin). destruct (Hranks r Hin) as [Hall Hne].
    unfold primary_rank. destruct (ReplicaPlan.planned_ranks r) as [|rank rest]; [done|]. cbn.
    inversion_clear Hall as [|?? Hrk _]. destruct (Hcap rank Hrk). rewrite lookup_empty. cbn. lia.
Qed.

(** Requests are promises: a model that asked for [k] replicas gets exactly [k],
    an automatic pipeline-parallel model gets exactly one, and an automatic
    tensor-parallel model at least one and at most the envelope's maximum. *)
Theorem placement_meets_requests plans j x m :
  0 <= c -> resolve_models intents n g c env = Some (Ok plans) ->
  intents !! j = Some x -> plans !! j = Some m ->
  match ModelIntent.requested_replicas x with
  | Some k => ModelPlan.num_replicas m = k /\ 1 <= k
  | None =>
      if 1 <? ModelIntent.pipeline_parallel_size x then ModelPlan.num_replicas m = 1
      else 1 <= ModelPlan.num_replicas m <= ScaleEnvelope.max_replicas_per_model env
  end.
Proof.
  intros Hc Hr Hx Hm. destruct (resolved plans Hc Hr) as (st & Hok & Hfin & Hshare).
  destruct (plan_lookup _ _ _ _ Hfin Hm) as (x' & Hx' & ->). simplify_eq.
  pose proof (finish_Ok _ _ _ _ Hfin) as (_ & _ & Hne & _).
  pose proof Hok as (_ & _ & _ & _ & Hg). destruct (Forall2_lookup_l _ _ _ _ _ Hg Hx) as (gr & Hgr & _).
  specialize (Hne gr ltac:(by eapply list_elem_of_lookup_2)).
  specialize (Hshare j x Hx). unfold share_ok, count, placed in Hshare. rewrite Hgr in Hshare.
  cbn [ModelPlan.num_replicas model_plan]. unfold ReplicaPlan.len, placed. rewrite Hgr. cbn in *.
  pose proof (Forall_lookup_1 _ _ _ _ compiled_requests Hx) as Hreq. cbn in Hreq.
  destruct (ModelIntent.requested_replicas x); [cbn in Hreq; lia|]. destruct (_ <? _); [lia|].
  destruct Hshare as [? _]. split; [|done]. destruct gr; [done|]. cbn. lia.
Qed.

(** Two stages of one pipeline-parallel model never share a node, across all of
    its replicas. *)
Theorem pipeline_stages_on_distinct_nodes plans m :
  0 <= c -> resolve_models intents n g c env = Some (Ok plans) -> m ∈ plans ->
  1 < ModelPlan.pipeline_parallel_size m ->
  NoDup (ModelPlan.replicas m ≫= ReplicaPlan.planned_ranks).
Proof.
  intros Hc Hr [j Hm]%list_elem_of_lookup Hpp. destruct (resolved plans Hc Hr) as (st & Hok & Hfin & _).
  destruct (plan_lookup _ _ _ _ Hfin Hm) as (x & Hx & ->).
  pose proof Hok as (_ & _ & _ & _ & Hg).
  destruct (Forall2_lookup_l _ _ _ _ _ Hg Hx) as (gr & Hgr & _ & _ & Hnd).
  cbn in *. unfold placed. rewrite Hgr. by apply Hnd.
Qed.

(** Devices of [rank] that the plan uses. *)
Definition devices_used (plans : list ModelPlan.t) (rank : Z) : Z :=
  Z.of_nat (length (at_rank rank ((plans ≫= ModelPlan.replicas) ≫= slots))).

(** Automatic placement leaves no room: a tensor-parallel model that did not ask
    for a replica count either reached the envelope's maximum, or no rank has
    both the devices and the CPUs for one more replica of it. *)
Theorem automatic_placement_fills_capacity plans j x m rank :
  0 <= c -> 0 <= g -> resolve_models intents n g c env = Some (Ok plans) ->
  intents !! j = Some x -> plans !! j = Some m ->
  ModelIntent.requested_replicas x = None -> ModelIntent.pipeline_parallel_size x = 1 ->
  ModelPlan.num_replicas m < ScaleEnvelope.max_replicas_per_model env -> 0 <= rank < n ->
  g - devices_used plans rank < ModelIntent.tensor_parallel_size x \/
  c - demand_at rank (plans ≫= ModelPlan.replicas) < ModelIntent.num_cpus_per_replica x.
Proof.
  intros Hc Hg Hr Hx Hm Hreq Hpp Hlt Hrank.
  destruct (resolved plans Hc Hr) as (st & Hok & Hfin & Hshare).
  destruct (plan_lookup _ _ _ _ Hfin Hm) as (x' & Hx' & ->). simplify_eq.
  specialize (Hshare j x Hx). unfold share_ok in Hshare. rewrite Hreq, Hpp in Hshare.
  destruct Hshare as [_ [Hfull|Hsel]]; cbn in Hlt.
  { unfold count, ReplicaPlan.len in *. cbn in Hfull. lia. }
  pose proof (finish_Ok _ _ _ _ Hfin) as (Hplans & _).
  assert (plans ≫= ModelPlan.replicas = booked st) as Hb
    by (rewrite Hplans; by eapply placements_of_plans).
  unfold devices_used. rewrite Hb.
  pose proof (devices_balance _ _ _ _ _ rank Hok Hrank) as Hbal.
  pose proof Hok as (_ & _ & _ & Hcap & _). destruct (Hcap rank Hrank) as [_ Hcpu].
  destruct (decide (Z.to_nat rank ∈ eligible_primary x n st j)) as [Hel|Hel].
  - pose proof (select_ranks_spec x n st j (eligible_primary x n st j) ltac:(lia) (fun _ H => H)) as Hs.
    cbn in Hsel. rewrite Hsel in Hs. specialize (Hs _ Hel). lia.
  - rewrite elem_of_eligible in Hel. unfold usable, has_devices, pp_ranks_in_use in Hel.
    rewrite Hpp in Hel. cbn in Hel.
    destruct (decide (ModelIntent.tensor_parallel_size x
                      <= Z.of_nat (length (devices_at st (Z.to_nat rank))))) as [Hd|Hd]; [right|left; lia].
    enough (~ ModelIntent.num_cpus_per_replica x <= cpus_at st (Z.to_nat rank)) by lia.
    intros ?. apply Hel. split_and!; [lia|set_solver|by apply Z.leb_le|done].
Qed.
End Promises.

(** ** A concrete deployment: three nodes of four devices *)

Definition demo_models : value :=
  VList [VDict [("model_id", VStr "org/big"); ("tensor_parallel_size", VInt 2);
                ("pipeline_parallel_size", VInt 2); ("num_replicas", VInt 1)];
         VDict [("model_id", VStr "org/Small.1"); ("tensor_parallel_size", VInt 3)]].

Definition demo_envelope : ScaleEnvelope.t :=
  ScaleEnvelope.mk 3 "env" "site" "pbs" "intel" "pvc" "vllm" "profile" (Some HAPROXY)
    PROXIED_INTERNAL "chat" "streaming" 1 4 8 true 8 64 4 "tier" false [].

Definition demo_intents : list ModelIntent.t :=
  Eval vm_compute in
    match compile_model_intents demo_models 3 4 with Ok l => l | Err _ => [] end.

Definition demo_plans : list ModelPlan.t :=
  Eval vm_compute in
    match resolve_models demo_intents 3 4 16 demo_envelope with Some (Ok l) => l | _ => [] end.

Lemma demo_compiled : compile_model_intents demo_models 3 4 = Ok demo_intents.
Proof. vm_compute. reflexivity. Qed.

Lemma demo_enveloped : ScaleEnvelope.post_init demo_envelope = Ok tt.
Proof. vm_compute. reflexivity. Qed.

Lemma demo_resolved : resolve_models demo_intents 3 4 16 demo_envelope = Some (Ok demo_plans).
Proof. vm_compute. reflexivity. Qed.

Example demo_routes :
  (fun m => (ModelPlan.route_name m, ModelPlan.num_replicas m,
             ReplicaPlan.planned_ranks <$> ModelPlan.replicas m)) <$> demo_plans
  = [("org--big", 1, [[0; 1]]); ("org--small-1", 1, [[2]])].
Proof. vm_compute. reflexivity. Qed.

Definition demo_sha : string :=
  "0123456789abcdef0123456789abcdef0123456789abcdef0123456789abcdef".

Definition demo_gateway : GatewayPlan.t := GatewayPlan.mk HAPROXY 8000 8001 "PATH:haproxy" 4.

Definition demo_plan : DeploymentPlan.t :=
  let env := ScaleEnvelope.mk 3 "env" "site" "pbs" "intel" "pvc" "vllm" demo_sha (Some HAPROXY)
    PROXIED_INTERNAL "chat" "streaming" 1 4 8 true 8 64 4 "tier" false [] in
  DeploymentPlan.mk 3 "dep-1" "site" demo_sha demo_sha demo_sha env 3 4 16 6379 "intel" "vllm"
    "/models" "/local" "serve" 32 false demo_plans
    (ExposurePlan.mk PROXIED_INTERNAL "http" "/v1" "trusted_allocation" None (Some 1048576) 8002)
    (Some demo_gateway)
    (build_receipt_requirements 3 demo_plans (Some demo_gateway) true)
    ControlLimits.default_limits ReadinessLimits.default_limits
    (RuntimePolicy.mk false Float.zero false true true 100 (Float.of_Z 1) 100) false "".

Example demo_plan_valid : DeploymentPlan.post_init demo_plan = Ok tt.
Proof. vm_compute. reflexivity. Qed.

Lemma compiled_intents_distinct_witness :
  NoDup (ModelIntent.route_name <$> demo_intents).
Proof.
  destruct (compiled_intents_distinct demo_models 3 4 demo_intents demo_compiled)
    as (_ & _ & _ & H & _). exact H.
Defined.

Lemma placement_terminates_witness :
  exists res, resolve_models demo_intents 3 4 16 demo_envelope = Some res.
Proof.
  apply (placement_terminates demo_models 3 4 16 demo_envelope demo_intents demo_compiled
           demo_enveloped). lia.
Defined.

Lemma placement_passes_topology_check_witness : DeploymentPlan.check_topology demo_plan = Ok tt.
Proof.
  apply (placement_passes_topology_check demo_models 3 4 16 demo_envelope demo_intents
           demo_compiled demo_enveloped demo_plans demo_plan);
    [lia|exact demo_resolved|reflexivity..].
Defined.

Lemma placement_meets_requests_witness :
  exists m, demo_plans !! 0%nat = Some m /\ ModelPlan.num_replicas m = 1.
Proof.
  eexists. split; [reflexivity|].
  destruct (placement_meets_requests demo_models 3 4 16 demo_envelope demo_intents demo_compiled
    demo_enveloped demo_plans 0 _ _ ltac:(lia) demo_resolved eq_refl eq_refl) as [H _].
  exact H.
Defined.

Lemma pipeline_stages_on_distinct_nodes_witness :
  exists m, demo_plans !! 0%nat = Some m /\
    NoDup (ModelPlan.replicas m ≫= ReplicaPlan.planned_ranks).
Proof.
  eexists. split; [reflexivity|].
  apply (pipeline_stages_on_distinct_nodes demo_models 3 4 16 demo_envelope demo_intents
           demo_compiled demo_enveloped demo_plans); [lia|exact demo_resolved|left|reflexivity].
Defined.

Lemma automatic_placement_fills_capacity_witness :
  exists x, demo_intents !! 1%nat = Some x /\
  (4 - devices_used demo_plans 2 < ModelIntent.tensor_parallel_size x \/
   16 - demand_at 2 (demo_plans ≫= ModelPlan.replicas) < ModelIntent.num_cpus_per_replica x).
Proof.
  eexists. split; [reflexivity|].
  eapply (automatic_placement_fills_capacity demo_models 3 4 16 demo_envelope demo_intents
            demo_compiled demo_enveloped demo_plans 1);
    [lia|lia|exact demo_resolved|reflexivity|reflexivity|reflexivity|reflexivity|reflexivity|lia].
Defined.
