(* ===== verification/Receipts.v ===== *)
(** Compatibility receipts: the value and its validation
    (src/exaserve/compat/receipt_v2.py), and the patch requirements that the
    plan and the compatibility profile resolve for one slot
    (src/exaserve/compat/profile.py, src/exaserve/compat/producers.py).

    Fields carry their declared types, so [isinstance] tests are discharged by
    typing. The digest of a receipt ([canonical_hash]) and the RFC 3339 parser
    ([datetime.fromisoformat] followed by the UTC test) are parameters. *)

From S2P Require Import Prelude.
From S2P Require Import PyValue.
From S2P Require Import Contracts.

Definition RECEIPT_SCHEMA_VERSION : Z := 2.

Inductive receipt_error : Type :=
| ReceiptError (message : string).

Abbreviation receipt_result := (result receipt_error).

Definition receipt_raise_if (b : bool) (message : string) : receipt_result unit :=
  raise_if b (ReceiptError message).

(** [_SHA256.match(value)]: unlike [fullmatch], [$] also matches before one
    trailing newline. *)
Definition sha_match (s : string) : bool :=
  is_sha256 s
  || ((String.length s =? 65)%nat
      && is_sha256 (String.substring 0 64 s)
      && bool_decide (String.substring 64 1 s = String (Ascii.ascii_of_nat 10) EmptyString)).

Definition require_sha (s : string) : receipt_result unit :=
  receipt_raise_if (negb (sha_match s)) "must be a lowercase sha256 hex digest".

Definition require_sha_opt (s : option string) : receipt_result unit :=
  match s with Some s => require_sha s | None => Ok tt end.

(** ** Patch results *)

Definition APPLIED : string := "APPLIED".
Definition NOT_REQUIRED : string := "NOT_REQUIRED".
Definition FAILED_PATCH : string := "FAILED".

Module PatchResult.
Record t := mk {
  status : string;
  postcondition_passed : bool;
  evidence_hash : option string;
}.

#[global] Instance eq_dec : EqDecision t.
Proof. solve_decision. Defined.

Definition post_init (p : t) : receipt_result unit :=
  _ ← receipt_raise_if (negb (bool_decide (status p ∈ [APPLIED; NOT_REQUIRED; FAILED_PATCH])))
        "patch status unknown";
  _ ← receipt_raise_if (bool_decide (status p = APPLIED) && negb (postcondition_passed p))
        "APPLIED requires a true semantic postcondition";
  require_sha_opt (evidence_hash p).
End PatchResult.

Module Receipt.
Record t := mk {
  schema_version : Z;
  deployment_id : string;
  generation : Z;
  deployment_plan_hash : string;
  site_profile_hash : string;
  allocation_binding_hash : string;
  compatibility_profile_hash : string;
  manifest_hash : string;
  receipt_requirement_id : string;
  role : string;
  component_id : string;
  instance_id : string;
  owner_scope : string;
  owner_rank : option Z;
  node_id : string;
  pid : option Z;
  actor_id : option string;
  executable_hash : string;
  argv_hash : option string;
  prepared_environment_hash : string;
  observed_versions : list (string * string);
  observed_package_hashes : list (string * string);
  observed_source_hashes : list (string * string);
  patch_results : list (string * PatchResult.t);
  capabilities : list string;
  attestation_type : string;
  attested_at : string;
  receipt_hash : string;
}.

#[global] Instance eq_dec : EqDecision t.
Proof. solve_decision. Defined.

Definition slot_key (r : t) : string := receipt_requirement_id r.
End Receipt.

(** ** Validation *)

Definition string_le (a b : string) : Prop := string_leb a b = true.
#[global] Instance string_le_dec : RelDecision string_le.
Proof. intros a b. unfold string_le. apply _. Defined.

Lemma elements_nil_iff (X : gset string) : merge_sort string_le (elements X) = [] <-> X = ∅.
Proof.
  split.
  - intros H. assert (elements X ≡ₚ []) as Hp by by rewrite <- H, merge_sort_Permutation.
    apply Permutation_nil_r in Hp. apply set_eq. intros x. rewrite <- elem_of_elements, Hp. set_solver.
  - intros ->. by rewrite elements_empty.
Qed.

(** [tuple(sorted(set(l)))] *)
Definition sorted_set (l : list string) : list string := merge_sort string_le (remove_dups l).

Definition require_map (digest_values : bool) (m : list (string * string)) : receipt_result unit :=
  for_each (fun kv =>
    _ ← receipt_raise_if (negb (nonempty kv.1)) "must be map<string,string>";
    if digest_values then require_sha kv.2 else Ok tt) m.

Section Validate.
Context (compute_hash : Receipt.t -> string) (is_utc_timestamp : string -> bool).

Definition check_identity (r : Receipt.t) : receipt_result unit :=
  _ ← receipt_raise_if (negb (Receipt.schema_version r =? RECEIPT_SCHEMA_VERSION))
        "version-1 role-only payloads fail closed rather than upgrading";
  _ ← for_each (fun s => receipt_raise_if (negb (nonempty s)) "must be a non-empty string")
        [Receipt.deployment_id r; Receipt.receipt_requirement_id r; Receipt.role r;
         Receipt.component_id r; Receipt.instance_id r; Receipt.node_id r; Receipt.attested_at r];
  _ ← receipt_raise_if (Receipt.generation r <? 0) "generation must be non-negative";
  _ ← for_each require_sha
        [Receipt.deployment_plan_hash r; Receipt.site_profile_hash r;
         Receipt.allocation_binding_hash r; Receipt.compatibility_profile_hash r;
         Receipt.manifest_hash r; Receipt.executable_hash r; Receipt.prepared_environment_hash r];
  _ ← require_sha_opt (Receipt.argv_hash r);
  require_sha (Receipt.receipt_hash r).

Definition check_owner (r : Receipt.t) : receipt_result unit :=
  _ ← receipt_raise_if (negb (bool_decide (Receipt.owner_scope r ∈ ["GLOBAL"; "RANK"])))
        "owner_scope invalid";
  _ ← (if bool_decide (Receipt.owner_scope r = "GLOBAL") then
         receipt_raise_if (bool_decide (is_Some (Receipt.owner_rank r)))
           "owner_rank must be null exactly for GLOBAL"
       else
         receipt_raise_if (match Receipt.owner_rank r with Some n => n <? 0 | None => true end)
           "RANK receipts require a non-negative owner_rank");
  _ ← receipt_raise_if
        (bool_decide (Receipt.pid r = None)
         && negb (from_option nonempty false (Receipt.actor_id r)))
        "at least one of pid or actor_id must be present";
  _ ← receipt_raise_if (from_option (fun p => p <=? 0) false (Receipt.pid r))
        "pid must be a positive integer when present";
  _ ← receipt_raise_if (from_option (fun a => negb (nonempty a)) false (Receipt.actor_id r))
        "actor_id must be null or a non-empty string";
  receipt_raise_if (negb (bool_decide (Receipt.attestation_type r ∈ ["SELF"; "SUPERVISOR"])))
    "attestation_type invalid".

Definition check_observations (r : Receipt.t) : receipt_result unit :=
  _ ← require_map false (Receipt.observed_versions r);
  _ ← require_map true (Receipt.observed_package_hashes r);
  _ ← require_map true (Receipt.observed_source_hashes r);
  _ ← receipt_raise_if
        (existsb (fun c => negb (nonempty c)) (Receipt.capabilities r)
         || negb (bool_decide (sorted_set (Receipt.capabilities r) = Receipt.capabilities r)))
        "capabilities must be a sorted unique list of strings";
  receipt_raise_if (negb (is_utc_timestamp (Receipt.attested_at r)))
    "attested_at must be an RFC3339 UTC timestamp".

Definition patch_failed (p : PatchResult.t) : bool :=
  bool_decide (PatchResult.status p = FAILED_PATCH)
  || negb (PatchResult.postcondition_passed p || bool_decide (PatchResult.status p = NOT_REQUIRED)).

Definition check_patches (required not_required : list string)
    (results : list (string * PatchResult.t)) : receipt_result unit :=
  _ ← for_each (fun kv => PatchResult.post_init kv.2) results;
  _ ← receipt_raise_if (existsb (fun kv => negb (nonempty kv.1)) results)
        "patch_results keys must be non-empty strings";
  _ ← receipt_raise_if
        (existsb (fun k => negb (bool_decide (k ∈ required)) && negb (bool_decide (k ∈ not_required)))
           (dkeys results)) "unknown patch key(s)";
  _ ← receipt_raise_if (existsb (fun k => negb (bool_decide (k ∈ dkeys results))) required)
        "missing required patch key(s)";
  _ ← receipt_raise_if (existsb (fun kv => patch_failed kv.2) results) "failed patch(es)";
  receipt_raise_if
    (existsb (fun kv => bool_decide (PatchResult.status kv.2 = NOT_REQUIRED)
                        && bool_decide (kv.1 ∈ required)
                        && negb (bool_decide (kv.1 ∈ not_required))) results)
    "targeted by the resolved manifest and cannot be reported NOT_REQUIRED".

Definition validate_receipt (r : Receipt.t) (required not_required : list string)
    : receipt_result unit :=
  _ ← check_identity r;
  _ ← check_owner r;
  _ ← check_observations r;
  _ ← check_patches required not_required (Receipt.patch_results r);
  receipt_raise_if (negb (bool_decide (Receipt.receipt_hash r = compute_hash r)))
    "receipt_hash mismatch".
End Validate.

(** ** The compatibility profile *)

Definition PP_PATCH_GATE : string := "EXASERVE_VLLM_PATCH_PP_LAYER_FILTER".
Definition RAY_WORKER_PATCH_GATE : string := "EXASERVE_VLLM_PATCH_RAY_WORKERS".
Definition MULTIPROC_WORKER_PATCH_GATE : string := "EXASERVE_VLLM_PATCH_MULTIPROC_WORKERS".

Module PatchSpec.
(** The fields of a manifest entry that receipts are checked against. *)
Record t := mk {
  patch_id : string;
  roles : list string;
  capability : string;
  required : bool;
  env_gate : string;
  target_source_hash : string;
  patch_artifact_hash : string;
  delivery_artifact_hash : string;
}.
End PatchSpec.

Module Profile.
Record t := mk {
  profile_id : string;
  python : string;
  ray : string;
  vllm : string;
  mpi4py : string;
  patches : list PatchSpec.t;
  seed_manifest_hash : string;
  installer_hash : string;
  (** (target_file, target_sha256) *)
  support_sources : list (string * string);
  (** (architecture, target_sha256, seed_sha256) *)
  seeds : list (string * string * string);
}.

Definition capabilities (p : t) : list string :=
  sorted_set (filter (fun c => c <> EmptyString) (PatchSpec.capability <$> patches p)
              ++ (match seeds p with [] => [] | _ => ["vllm_modelinfo_cache_seed"] end)).

(** [env.get(gate) == "1"] *)
Definition gate_on (env : list (string * string)) (gate : string) : bool :=
  bool_decide (dget gate env = Some "1").

Definition required_patch_ids (p : t) (role : string) (env : list (string * string))
    : list string :=
  merge_sort string_le
    (PatchSpec.patch_id <$> filter (fun x => PatchSpec.required x = true
       /\ role ∈ PatchSpec.roles x
       /\ (PatchSpec.env_gate x = EmptyString \/ gate_on env (PatchSpec.env_gate x) = true))
       (patches p)).

Definition gated_out (p : t) (role : string) (env : list (string * string)) : list string :=
  merge_sort string_le
    (PatchSpec.patch_id <$> filter (fun x => role ∈ PatchSpec.roles x
       /\ PatchSpec.env_gate x <> EmptyString
       /\ gate_on env (PatchSpec.env_gate x) = false) (patches p)).

Definition expected_versions (p : t) : list (string * string) :=
  [("python", python p); ("ray", ray p); ("vllm", vllm p)]
  ++ (if nonempty (mpi4py p) then [("mpi4py", mpi4py p)] else []).

Definition expected_sources (p : t) : list (string * string) :=
  (patches p ≫= fun x =>
     [("target:" +:+ PatchSpec.patch_id x, PatchSpec.target_source_hash x);
      ("artifact:" +:+ PatchSpec.patch_id x, PatchSpec.patch_artifact_hash x);
      ("delivery:" +:+ PatchSpec.patch_id x, PatchSpec.delivery_artifact_hash x)])
  ++ match seeds p with
     | [] => []
     | _ =>
         [("vllm_modelinfo:manifest", seed_manifest_hash p);
          ("vllm_modelinfo:installer", installer_hash p)]
         ++ ((fun s => ("vllm_modelinfo:support:" +:+ s.1, s.2)) <$> support_sources p)
         ++ (seeds p ≫= fun s =>
               [("vllm_modelinfo:target:" +:+ s.1.1, s.1.2);
                ("vllm_modelinfo:seed:" +:+ s.1.1, s.2)])
     end.
End Profile.

(** ** Patch requirements of one planned slot *)

Definition find_requirement (plan : DeploymentPlan.t) (requirement_id : string)
    : option ReceiptRequirement.t :=
  List.find (fun r => bool_decide (ReceiptRequirement.receipt_requirement_id r = requirement_id))
    (DeploymentPlan.receipt_requirements plan).

Definition is_pp (m : ModelPlan.t) : bool := 1 <? ModelPlan.pipeline_parallel_size m.
Definition is_multiproc (m : ModelPlan.t) : bool :=
  (ModelPlan.pipeline_parallel_size m =? 1) && (1 <? ModelPlan.tensor_parallel_size m).

Definition gate_value (b : bool) : string := if b then "1" else "0".

Definition patch_environment (pp multiproc : bool) : list (string * string) :=
  [(PP_PATCH_GATE, gate_value pp); (RAY_WORKER_PATCH_GATE, gate_value pp);
   (MULTIPROC_WORKER_PATCH_GATE, gate_value multiproc)].

Definition requirement_patch_environment (plan : DeploymentPlan.t) (requirement_id : string)
    : receipt_result (list (string * string)) :=
  match find_requirement plan requirement_id with
  | None => Err (ReceiptError "no planned receipt requirement")
  | Some requirement =>
      if bool_decide (ReceiptRequirement.role requirement
                      ∈ ["replica"; "engine_core"; "engine_worker"]) then
        match filter (fun m => startswith ("model/" +:+ ModelPlan.route_name m +:+ "/replica/")
                                 requirement_id = true) (DeploymentPlan.models plan) with
        | [m] => Ok (patch_environment (is_pp m) (is_multiproc m))
        | _ => Err (ReceiptError "model receipt requirement maps to a wrong number of models")
        end
      else
        Ok (patch_environment (existsb is_pp (DeploymentPlan.models plan))
              (existsb is_multiproc (DeploymentPlan.models plan)))
  end.

Definition patch_requirements_for_plan (plan : DeploymentPlan.t) (requirement_id : string)
    (profile : Profile.t) : receipt_result (list string * list string) :=
  match find_requirement plan requirement_id with
  | None => Err (ReceiptError "no planned receipt requirement")
  | Some requirement =>
      env ← requirement_patch_environment plan requirement_id;
      Ok (Profile.required_patch_ids profile (ReceiptRequirement.role requirement) env,
          Profile.gated_out profile (ReceiptRequirement.role requirement) env)
  end.
