(* ===== verification/ReceiptCodec.v ===== *)
(** Receipts on the wire (compat/receipt_v2.py): the canonical dictionary of a
    receipt, its decoding, and validation before types are known.

    [receipt_from_dict] checks the shape of a payload and the patch results; the
    other fields keep whatever JSON value they had, and [validate_receipt] is what
    refuses a wrong type. [RawReceipt] is that object, [validate_raw] is the
    validation on it: it returns the typed receipt of Receipts.v. Membership tests in
    a set hash the value first, so an unhashable one raises [TypeError]. *)

From S2P Require Import Prelude PyValue Envelopes Contracts Receipts.

(** ** The canonical dictionary *)

Definition RECEIPT_FIELDS : list string :=
  ["schema_version"; "deployment_id"; "generation"; "deployment_plan_hash"; "site_profile_hash";
   "allocation_binding_hash"; "compatibility_profile_hash"; "manifest_hash";
   "receipt_requirement_id"; "role"; "component_id"; "instance_id"; "owner_scope"; "owner_rank";
   "node_id"; "pid"; "actor_id"; "executable_hash"; "argv_hash"; "prepared_environment_hash";
   "observed_versions"; "observed_package_hashes"; "observed_source_hashes"; "patch_results";
   "capabilities"; "attestation_type"; "attested_at"; "receipt_hash"].

Definition PATCH_FIELDS : list string := ["status"; "postcondition_passed"; "evidence_hash"].

Definition opt_value {A} (f : A -> value) (o : option A) : value :=
  match o with Some x => f x | None => VNone end.

(** [asdict] of a patch result. *)
Definition patch_dict (p : PatchResult.t) : value :=
  VDict [("status", VStr (PatchResult.status p));
         ("postcondition_passed", VBool (PatchResult.postcondition_passed p));
         ("evidence_hash", opt_value VStr (PatchResult.evidence_hash p))].

Definition map_values {A} (f : A -> value) (m : list (string * A)) : dict :=
  map (fun kv => (kv.1, f kv.2)) m.

(** [asdict] of a receipt. *)
Definition receipt_dict (r : Receipt.t) : dict :=
  [("schema_version", VInt (Receipt.schema_version r));
   ("deployment_id", VStr (Receipt.deployment_id r));
   ("generation", VInt (Receipt.generation r));
   ("deployment_plan_hash", VStr (Receipt.deployment_plan_hash r));
   ("site_profile_hash", VStr (Receipt.site_profile_hash r));
   ("allocation_binding_hash", VStr (Receipt.allocation_binding_hash r));
   ("compatibility_profile_hash", VStr (Receipt.compatibility_profile_hash r));
   ("manifest_hash", VStr (Receipt.manifest_hash r));
   ("receipt_requirement_id", VStr (Receipt.receipt_requirement_id r));
   ("role", VStr (Receipt.role r));
   ("component_id", VStr (Receipt.component_id r));
   ("instance_id", VStr (Receipt.instance_id r));
   ("owner_scope", VStr (Receipt.owner_scope r));
   ("owner_rank", opt_value VInt (Receipt.owner_rank r));
   ("node_id", VStr (Receipt.node_id r));
   ("pid", opt_value VInt (Receipt.pid r));
   ("actor_id", opt_value VStr (Receipt.actor_id r));
   ("executable_hash", VStr (Receipt.executable_hash r));
   ("argv_hash", opt_value VStr (Receipt.argv_hash r));
   ("prepared_environment_hash", VStr (Receipt.prepared_environment_hash r));
   ("observed_versions", VDict (map_values VStr (Receipt.observed_versions r)));
   ("observed_package_hashes", VDict (map_values VStr (Receipt.observed_package_hashes r)));
   ("observed_source_hashes", VDict (map_values VStr (Receipt.observed_source_hashes r)));
   ("patch_results", VDict (map_values patch_dict (Receipt.patch_results r)));
   ("capabilities", VList (map VStr (Receipt.capabilities r)));
   ("attestation_type", VStr (Receipt.attestation_type r));
   ("attested_at", VStr (Receipt.attested_at r));
   ("receipt_hash", VStr (Receipt.receipt_hash r))].

(** The order of [sorted(d.items())]: the keys of a dict are distinct. *)
Definition item_le {A} (a b : string * A) : Prop := string_le a.1 b.1.
#[global] Instance item_le_dec {A} : RelDecision (@item_le A).
Proof. intros a b. unfold item_le. apply _. Defined.

Definition sorted_items {A} (m : list (string * A)) : list (string * A) := merge_sort item_le m.

(** The receipt with the maps and capabilities in the order of the canonical form. *)
Definition normal (r : Receipt.t) : Receipt.t :=
  Receipt.mk (Receipt.schema_version r) (Receipt.deployment_id r) (Receipt.generation r)
    (Receipt.deployment_plan_hash r) (Receipt.site_profile_hash r)
    (Receipt.allocation_binding_hash r) (Receipt.compatibility_profile_hash r)
    (Receipt.manifest_hash r) (Receipt.receipt_requirement_id r) (Receipt.role r)
    (Receipt.component_id r) (Receipt.instance_id r) (Receipt.owner_scope r)
    (Receipt.owner_rank r) (Receipt.node_id r) (Receipt.pid r) (Receipt.actor_id r)
    (Receipt.executable_hash r) (Receipt.argv_hash r) (Receipt.prepared_environment_hash r)
    (sorted_items (Receipt.observed_versions r))
    (sorted_items (Receipt.observed_package_hashes r))
    (sorted_items (Receipt.observed_source_hashes r))
    (sorted_items (Receipt.patch_results r))
    (sorted_set (Receipt.capabilities r)) (Receipt.attestation_type r)
    (Receipt.attested_at r) (Receipt.receipt_hash r).

Definition canonical (r : Receipt.t) : dict :=
  List.filter (fun kv => negb (bool_decide (kv.1 = "receipt_hash"))) (receipt_dict (normal r)).

Section Hashing.
(** [canonical_hash] of a JSON object: SHA-256 over canonical JSON. *)
Context (canonical_hash : dict -> string).

Definition compute_hash (r : Receipt.t) : string := canonical_hash (canonical r).

Definition finalize (r : Receipt.t) : Receipt.t :=
  Receipt.mk (Receipt.schema_version r) (Receipt.deployment_id r) (Receipt.generation r)
    (Receipt.deployment_plan_hash r) (Receipt.site_profile_hash r)
    (Receipt.allocation_binding_hash r) (Receipt.compatibility_profile_hash r)
    (Receipt.manifest_hash r) (Receipt.receipt_requirement_id r) (Receipt.role r)
    (Receipt.component_id r) (Receipt.instance_id r) (Receipt.owner_scope r)
    (Receipt.owner_rank r) (Receipt.node_id r) (Receipt.pid r) (Receipt.actor_id r)
    (Receipt.executable_hash r) (Receipt.argv_hash r) (Receipt.prepared_environment_hash r)
    (Receipt.observed_versions r) (Receipt.observed_package_hashes r)
    (Receipt.observed_source_hashes r) (Receipt.patch_results r) (Receipt.capabilities r)
    (Receipt.attestation_type r) (Receipt.attested_at r) (compute_hash r).

Definition to_dict (r : Receipt.t) : dict :=
  dset "receipt_hash"
    (VStr (if nonempty (Receipt.receipt_hash r) then Receipt.receipt_hash r else compute_hash r))
    (canonical r).
End Hashing.

(** ** Decoding *)

(** [bool(v)] *)
Definition truthy (v : value) : bool :=
  match v with
  | VNone => false
  | VBool b => b
  | VInt z => negb (z =? 0)
  | VFloat f => negb (Float.eqb f Float.zero)
  | VStr s => nonempty s
  | VList l => negb (bool_decide (length l = O))
  | VDict d => negb (bool_decide (length d = O))
  end.

Definition invalid {A} (what : string) : receipt_result A := Err (ReceiptError what).

(** [PatchResult( **dict(value))] with the constructor's checks. *)
Definition decode_patch (v : value) : receipt_result PatchResult.t :=
  match v with
  | VDict d =>
      _ ← receipt_raise_if (negb (same_keys (dkeys d) PATCH_FIELDS)) "patch result shape mismatch";
      match attr "status" d with
      | VStr status =>
          _ ← receipt_raise_if (negb (bool_decide (status ∈ [APPLIED; NOT_REQUIRED; FAILED_PATCH])))
                "patch status unknown";
          _ ← receipt_raise_if (bool_decide (status = APPLIED)
                                && negb (truthy (attr "postcondition_passed" d)))
                "APPLIED requires a true semantic postcondition";
          match attr "postcondition_passed" d with
          | VBool passed =>
              match attr "evidence_hash" d with
              | VNone => Ok (PatchResult.mk status passed None)
              | VStr h => _ ← require_sha h; Ok (PatchResult.mk status passed (Some h))
              | _ => invalid "must be a lowercase sha256 hex digest"
              end
          | _ => invalid "postcondition_passed must be a boolean"
          end
      | _ => invalid "patch status unknown"
      end
  | _ => invalid "patch_results must be map<string,object>"
  end.

(** The loop over [patch_results]; the keys of a JSON object are distinct. *)
Fixpoint decode_patches (d : dict) : receipt_result (list (string * PatchResult.t)) :=
  match d with
  | [] => Ok []
  | (key, v) :: d' =>
      p ← decode_patch v;
      rest ← decode_patches d';
      Ok ((key, p) :: rest)
  end.

Definition is_dict (v : value) : bool := match v with VDict _ => true | _ => false end.

(** The object that [receipt_from_dict] builds. *)
Record RawReceipt := Raw { raw_data : dict; raw_patches : list (string * PatchResult.t) }.

Definition receipt_from_dict (data : value) : receipt_result RawReceipt :=
  match data with
  | VDict d =>
      let version := attr "schema_version" d in
      _ ← receipt_raise_if
            (match version with VBool _ => true | _ => false end
             || negb (py_eqb version (VInt RECEIPT_SCHEMA_VERSION)))
            "version-1 role-only receipts are not permissively upgraded";
      _ ← receipt_raise_if (negb (same_keys (dkeys d) RECEIPT_FIELDS))
            "receipt payload shape mismatch";
      patches ← match attr "patch_results" d with
                | VDict p => decode_patches p
                | _ => invalid "patch_results must be a map"
                end;
      _ ← for_each (fun name => receipt_raise_if (negb (is_dict (attr name d))) "must be a map")
            ["observed_versions"; "observed_package_hashes"; "observed_source_hashes"];
      match attr "capabilities" d with
      | VList _ => Ok (Raw (dset "schema_version" (VInt RECEIPT_SCHEMA_VERSION) d) patches)
      | _ => invalid "capabilities must be a JSON array"
      end
  | _ => invalid "receipt payload must be a mapping"
  end.

(** ** Validation of an untyped receipt *)

(** [Refused] is the [ReceiptError]; [Unhashable] the [TypeError] of a membership
    test, which the callers do not expect. *)
Inductive validate_error :=
| Refused (e : receipt_error)
| Unhashable.

Abbreviation raw_result := (result validate_error).

Definition refused {A} (r : receipt_result A) : raw_result A :=
  match r with Ok a => Ok a | Err e => Err (Refused e) end.

Definition refuse {A} (message : string) : raw_result A := Err (Refused (ReceiptError message)).

Definition raw_text (d : dict) (name : string) : raw_result string :=
  match nonempty_str (attr name d) with
  | Some s => Ok s
  | None => refuse "must be a non-empty string"
  end.

Definition raw_sha (d : dict) (name : string) : raw_result string :=
  match attr name d with
  | VStr s => _ ← refused (require_sha s); Ok s
  | _ => refuse "must be a lowercase sha256 hex digest"
  end.

Definition raw_sha_opt (d : dict) (name : string) : raw_result (option string) :=
  match attr name d with
  | VNone => Ok None
  | VStr s => _ ← refused (require_sha s); Ok (Some s)
  | _ => refuse "must be a lowercase sha256 hex digest"
  end.

(** [value in {texts}] *)
Definition raw_member (d : dict) (name : string) (texts : list string) (message : string)
    : raw_result string :=
  match attr name d with
  | VStr s => if bool_decide (s ∈ texts) then Ok s else refuse message
  | VList _ | VDict _ => Err Unhashable
  | _ => refuse message
  end.

Definition raw_generation (d : dict) : raw_result Z :=
  match attr "generation" d with
  | VInt z => if z <? 0 then refuse "generation must be non-negative" else Ok z
  | _ => refuse "generation must be non-negative"
  end.

Definition raw_owner_rank (d : dict) (scope : string) : raw_result (option Z) :=
  if bool_decide (scope = "GLOBAL") then
    match attr "owner_rank" d with
    | VNone => Ok None
    | _ => refuse "owner_rank must be null exactly for GLOBAL"
    end
  else
    match attr "owner_rank" d with
    | VInt z => if z <? 0 then refuse "RANK receipts require a non-negative owner_rank"
                else Ok (Some z)
    | _ => refuse "RANK receipts require a non-negative owner_rank"
    end.

Definition raw_process (d : dict) : raw_result (option Z * option string) :=
  _ ← refused (receipt_raise_if
        (match attr "pid" d with VNone => negb (truthy (attr "actor_id" d)) | _ => false end)
        "at least one of pid or actor_id must be present");
  pid ← match attr "pid" d with
        | VNone => Ok None
        | VInt z => if z <=? 0 then refuse "pid must be a positive integer when present"
                    else Ok (Some z)
        | _ => refuse "pid must be a positive integer when present"
        end;
  actor ← match attr "actor_id" d with
          | VNone => Ok None
          | VStr s => if nonempty s then Ok (Some s)
                      else refuse "actor_id must be null or a non-empty string"
          | _ => refuse "actor_id must be null or a non-empty string"
          end;
  Ok (pid, actor).

Fixpoint raw_map_items (digest_values : bool) (m : dict) : raw_result (list (string * string)) :=
  match m with
  | [] => Ok []
  | (k, v) :: m' =>
      match v with
      | VStr s =>
          _ ← refused (receipt_raise_if (negb (nonempty k)) "must be map<string,string>");
          _ ← refused (if digest_values then require_sha s else Ok tt);
          rest ← raw_map_items digest_values m';
          Ok ((k, s) :: rest)
      | _ => refuse "must be map<string,string>"
      end
  end.

Definition raw_map (d : dict) (digest_values : bool) (name : string)
    : raw_result (list (string * string)) :=
  match attr name d with
  | VDict m => raw_map_items digest_values m
  | _ => refuse "must be a map"
  end.

Definition raw_capabilities (d : dict) : raw_result (list string) :=
  match attr "capabilities" d with
  | VList l =>
      match mapM nonempty_str l with
      | Some texts =>
          if bool_decide (sorted_set texts = texts) then Ok texts
          else refuse "capabilities must be a sorted unique list of strings"
      | None => refuse "capabilities must be a sorted unique list of strings"
      end
  | _ => refuse "capabilities must be a sorted unique list of strings"
  end.

Section ValidateRaw.
Context (canonical_hash : dict -> string) (is_utc_timestamp : string -> bool).

(** [validate_receipt] on the object that [receipt_from_dict] built. *)
Definition validate_raw (raw : RawReceipt) (required not_required : list string)
    : raw_result Receipt.t :=
  let d := raw_data raw in
  deployment_id ← raw_text d "deployment_id";
  requirement_id ← raw_text d "receipt_requirement_id";
  role ← raw_text d "role";
  component_id ← raw_text d "component_id";
  instance_id ← raw_text d "instance_id";
  node_id ← raw_text d "node_id";
  attested_at ← raw_text d "attested_at";
  generation ← raw_generation d;
  deployment_plan_hash ← raw_sha d "deployment_plan_hash";
  site_profile_hash ← raw_sha d "site_profile_hash";
  allocation_binding_hash ← raw_sha d "allocation_binding_hash";
  compatibility_profile_hash ← raw_sha d "compatibility_profile_hash";
  manifest_hash ← raw_sha d "manifest_hash";
  executable_hash ← raw_sha d "executable_hash";
  prepared_environment_hash ← raw_sha d "prepared_environment_hash";
  argv_hash ← raw_sha_opt d "argv_hash";
  receipt_hash ← raw_sha d "receipt_hash";
  owner_scope ← raw_member d "owner_scope" ["GLOBAL"; "RANK"] "owner_scope invalid";
  owner_rank ← raw_owner_rank d owner_scope;
  '(pid, actor_id) ← raw_process d;
  attestation_type ← raw_member d "attestation_type" ["SELF"; "SUPERVISOR"]
                       "attestation_type invalid";
  observed_versions ← raw_map d false "observed_versions";
  observed_package_hashes ← raw_map d true "observed_package_hashes";
  observed_source_hashes ← raw_map d true "observed_source_hashes";
  capabilities ← raw_capabilities d;
  _ ← refused (receipt_raise_if (negb (is_utc_timestamp attested_at))
                 "attested_at must be an RFC3339 UTC timestamp");
  _ ← refused (check_patches required not_required (raw_patches raw));
  let r := Receipt.mk RECEIPT_SCHEMA_VERSION deployment_id generation deployment_plan_hash
    site_profile_hash allocation_binding_hash compatibility_profile_hash manifest_hash
    requirement_id role component_id instance_id owner_scope owner_rank node_id pid actor_id
    executable_hash argv_hash prepared_environment_hash observed_versions observed_package_hashes
    observed_source_hashes (raw_patches raw) capabilities attestation_type attested_at
    receipt_hash in
  _ ← refused (receipt_raise_if
        (negb (bool_decide (Receipt.receipt_hash r = compute_hash canonical_hash r)))
        "receipt_hash mismatch");
  Ok r.
End ValidateRaw.
