(* ===== verification/ReceiptCodecProps.v ===== *)
(** What the receipt codec promises: validation on the wire form is validation of a
    typed receipt, nothing is invented on the way, and the canonical dictionary of a
    valid receipt decodes back to it. *)

From S2P Require Import Prelude PyValue Json JsonProps Envelopes Contracts Receipts ReceiptCodec.

(** ** The field readers *)

Lemma refused_Ok {A} (r : receipt_result A) a : refused r = Ok a <-> r = Ok a.
Proof. destruct r; cbn; naive_solver. Qed.

Lemma nonempty_str_is v s : nonempty_str v = Some s <-> v = VStr s /\ nonempty s = true.
Proof.
  destruct v as [| | | |t| |]; unfold nonempty_str;
    try (split; [discriminate | intros [[=] _]]).
  destruct (nonempty t) eqn:E; split; [intros [= <-]; done | intros [[= ->] _]; done
    | discriminate | intros [[= ->] ?]; congruence].
Qed.

Lemma raw_text_Ok d name s :
  raw_text d name = Ok s <-> attr name d = VStr s /\ nonempty s = true.
Proof.
  unfold raw_text. rewrite <- nonempty_str_is.
  destruct (nonempty_str (attr name d)); unfold refuse; naive_solver.
Qed.

Lemma require_sha_Ok s u : require_sha s = Ok u <-> sha_match s = true.
Proof. unfold require_sha, receipt_raise_if. rewrite raise_if_Ok, negb_false_iff. done. Qed.

Lemma raw_sha_Ok d name s : raw_sha d name = Ok s <-> attr name d = VStr s /\ sha_match s = true.
Proof.
  unfold raw_sha, refuse.
  destruct (attr name d) as [| | | |t| |]; try naive_solver.
  rewrite bind_Ok. setoid_rewrite refused_Ok. setoid_rewrite require_sha_Ok.
  split; [intros (? & ? & ?); simplify_eq; naive_solver | intros [? ?]; simplify_eq].
  exists tt. naive_solver.
Qed.

Lemma raw_sha_opt_Ok d name o :
  raw_sha_opt d name = Ok o <->
  attr name d = opt_value VStr o /\ from_option sha_match true o = true.
Proof.
  unfold raw_sha_opt, refuse.
  destruct (attr name d) as [| | | |t| |] eqn:E; try (destruct o; cbn; naive_solver).
  rewrite bind_Ok. setoid_rewrite refused_Ok. setoid_rewrite require_sha_Ok.
  split.
  - intros (? & ? & ?). simplify_eq. naive_solver.
  - destruct o; cbn; [|naive_solver]. intros [? ?]; simplify_eq. exists tt. naive_solver.
Qed.

Lemma raw_member_Ok d name texts message s :
  raw_member d name texts message = Ok s <-> attr name d = VStr s /\ s ∈ texts.
Proof.
  unfold raw_member, refuse. destruct (attr name d); try naive_solver.
  case_bool_decide; naive_solver.
Qed.

Lemma raw_generation_Ok d z :
  raw_generation d = Ok z <-> attr "generation" d = VInt z /\ 0 <= z.
Proof.
  unfold raw_generation, refuse. destruct (attr "generation" d) as [| |x| | | |]; try naive_solver.
  destruct (Z.ltb_spec x 0); split; try done; intros; try naive_solver.
  destruct H0 as [[= ->] ?]. lia.
Qed.

(** The owner rank that goes with a scope. *)
Definition owner_ok (scope : string) (rank : option Z) : Prop :=
  if bool_decide (scope = "GLOBAL") then rank = None
  else exists z, rank = Some z /\ 0 <= z.

Lemma raw_owner_rank_Ok d scope o :
  raw_owner_rank d scope = Ok o <->
  attr "owner_rank" d = opt_value VInt o /\ owner_ok scope o.
Proof.
  unfold raw_owner_rank, owner_ok, refuse. case_bool_decide.
  - destruct (attr "owner_rank" d), o; cbn; naive_solver.
  - destruct (attr "owner_rank" d) as [| |z| | | |]; try (destruct o; cbn; naive_solver).
    destruct (Z.ltb_spec z 0); [|destruct o; cbn; naive_solver].
    split; [done|]. destruct o; cbn; [|naive_solver].
    intros (? & ? & ? & ?); simplify_eq; lia.
Qed.

Definition process_ok (pid : option Z) (actor : option string) : Prop :=
  (pid = None -> from_option nonempty false actor = true) /\
  from_option (fun p => p <=? 0) false pid = false /\
  from_option (fun a => negb (nonempty a)) false actor = false.

Lemma raw_process_Ok d pid actor :
  raw_process d = Ok (pid, actor) <->
  attr "pid" d = opt_value VInt pid /\ attr "actor_id" d = opt_value VStr actor /\
  process_ok pid actor.
Proof.
  unfold raw_process, process_ok, refuse, receipt_raise_if. split.
  - intros H. res_inv. apply refused_Ok in H. apply raise_if_Ok in H.
    repeat case_match; simplify_eq/=; bool_prop; repeat split; try done; try congruence;
      try lia; apply negb_false_iff; assumption.
  - intros (Hp & Ha & Hn & Hpos & Hact). rewrite Hp, Ha.
    destruct pid as [z|], actor as [a|]; cbn in *;
      rewrite ?Hpos; cbn; try (rewrite negb_false_iff in Hact; rewrite Hact); cbn; try done.
    exfalso. specialize (Hn eq_refl). done.
Qed.

Definition text_item_ok (digest_values : bool) (kv : string * string) : bool :=
  nonempty kv.1 && (negb digest_values || sha_match kv.2).

Lemma raw_map_items_Ok digest m l :
  raw_map_items digest m = Ok l <->
  m = map_values VStr l /\ forallb (text_item_ok digest) l = true.
Proof.
  revert l. induction m as [|[k v] m IH]; intros l; cbn.
  - split; [naive_solver|]. destruct l; naive_solver.
  - destruct v as [| | | |s| |]; try (unfold refuse; split; [done|]; destruct l; cbn; naive_solver).
    split.
    + intros H. res_inv. apply refused_Ok, raise_if_Ok, negb_false_iff in H.
      apply refused_Ok in H0. apply IH in H1 as [-> Hl]. split; [done|].
      cbn. rewrite Hl, andb_true_r. unfold text_item_ok; cbn. rewrite H; cbn.
      destruct digest; [|done]. by apply require_sha_Ok in H0.
    + destruct l as [|[k' s'] l]; cbn; [naive_solver|]. intros [? Hok]; simplify_eq.
      apply andb_true_iff in Hok as [Hx Hl]. unfold text_item_ok in Hx; cbn in Hx.
      apply andb_true_iff in Hx as [Hk Hs]. rewrite Hk; cbn.
      rewrite (proj2 (IH l) (conj eq_refl Hl)).
      destruct digest; cbn in Hs; [|done].
      unfold require_sha, receipt_raise_if. by rewrite Hs.
Qed.

Lemma raw_map_Ok d digest name l :
  raw_map d digest name = Ok l <->
  attr name d = VDict (map_values VStr l) /\ forallb (text_item_ok digest) l = true.
Proof.
  unfold raw_map, refuse. destruct (attr name d); try naive_solver.
  rewrite raw_map_items_Ok. naive_solver.
Qed.

Lemma map_VStr_inj l l' : map VStr l = map VStr l' -> l = l'.
Proof. revert l'. induction l; intros [|? ?]; cbn; try done. intros ?; simplify_eq. f_equal; auto. Qed.

Lemma mapM_nonempty_str l texts :
  mapM nonempty_str l = Some texts <->
  l = map VStr texts /\ forallb nonempty texts = true.
Proof.
  rewrite mapM_Some. split.
  - induction 1 as [|v s l' ts Hv _ IH]; [done|]. apply nonempty_str_is in Hv as [-> Hs].
    destruct IH as [-> IH]. cbn. by rewrite Hs.
  - intros [-> Hall]. induction texts as [|s texts IH]; cbn in *; [constructor|].
    apply andb_true_iff in Hall as [Hs Hall]. constructor; [|auto].
    by apply nonempty_str_is.
Qed.

Lemma raw_capabilities_Ok d l :
  raw_capabilities d = Ok l <->
  attr "capabilities" d = VList (map VStr l) /\ forallb nonempty l = true /\ sorted_set l = l.
Proof.
  unfold raw_capabilities, refuse. destruct (attr "capabilities" d) as [| | | | |vs|]; try naive_solver.
  destruct (mapM nonempty_str vs) as [ts|] eqn:E.
  - apply mapM_nonempty_str in E as [-> Hts]. case_bool_decide as Hs.
    + split; [naive_solver|]. intros ([= He%map_VStr_inj] & _ & _). by subst.
    + split; [done|]. intros ([= He%map_VStr_inj] & _ & ?). by subst.
  - split; [done|]. intros (He & Hne & _). injection He as ->.
    assert (mapM nonempty_str (map VStr l) = Some l) as Hm by (apply mapM_nonempty_str; done).
    congruence.
Qed.

(** ** Typed and untyped validation *)

(** The untyped receipt has the fields of the typed one. *)
Definition same_fields (raw : RawReceipt) (r : Receipt.t) : Prop :=
  raw_patches raw = Receipt.patch_results r /\
  forall name, name ∈ RECEIPT_FIELDS -> name <> "patch_results" -> name <> "schema_version" ->
    attr name (raw_data raw) = attr name (receipt_dict r).

Lemma require_map_Ok digest m u :
  require_map digest m = Ok u <-> forallb (text_item_ok digest) m = true.
Proof.
  unfold require_map. rewrite for_each_Ok, forallb_forall, Forall_forall.
  split; intros H [k s] Hin; specialize (H (k, s));
    rewrite <- ?list_elem_of_In in *; specialize (H Hin); unfold text_item_ok in *; cbn in *.
  - res_inv. apply raise_if_Ok, negb_false_iff in H. rewrite H; cbn.
    destruct digest; [|done]. by apply require_sha_Ok in H0.
  - apply andb_true_iff in H as [-> Hs]; cbn. destruct digest; [|done]. cbn in Hs.
    unfold require_sha, receipt_raise_if. by rewrite Hs.
Qed.

Lemma texts_ok_Ok (f : string -> receipt_result unit) (p : string -> bool) l u :
  (forall s, f s = Ok tt <-> p s = true) -> for_each f l = Ok u <-> forallb p l = true.
Proof.
  intros Hf. rewrite for_each_Ok, forallb_forall, Forall_forall.
  setoid_rewrite Hf. setoid_rewrite list_elem_of_In. done.
Qed.

Lemma nonempty_text_Ok s :
  receipt_raise_if (negb (nonempty s)) "must be a non-empty string" = Ok tt <-> nonempty s = true.
Proof. unfold receipt_raise_if. by rewrite raise_if_Ok, negb_false_iff. Qed.

Lemma check_owner_Ok r u :
  check_owner r = Ok u <->
  Receipt.owner_scope r ∈ ["GLOBAL"; "RANK"] /\
  owner_ok (Receipt.owner_scope r) (Receipt.owner_rank r) /\
  process_ok (Receipt.pid r) (Receipt.actor_id r) /\
  Receipt.attestation_type r ∈ ["SELF"; "SUPERVISOR"].
Proof.
  destruct u. unfold check_owner, owner_ok, process_ok, receipt_raise_if. split.
  - intros H. res_inv. bool_prop. repeat split; try done.
    + destruct (bool_decide (Receipt.owner_scope r = "GLOBAL")); res_inv; bool_prop.
      * apply eq_None_not_Some. done.
      * destruct (Receipt.owner_rank r) as [z|]; [|done]. bool_prop. eauto.
    + intros Hp. rewrite Hp in *. rewrite bool_decide_true in H1 by done. cbn in H1.
      by apply negb_false_iff in H1.
  - intros (Hs & Ho & (Hp & Hpos & Ha) & Hat).
    rewrite (bool_decide_true _ Hs), (bool_decide_true _ Hat), Hpos, Ha; cbn.
    case_bool_decide.
    + rewrite Ho; cbn. case_bool_decide as Hn; cbn; [|done]. by rewrite (Hp Hn).
    + destruct Ho as (z & -> & Hz). rewrite (proj2 (Z.ltb_ge z 0) Hz); cbn.
      case_bool_decide as Hn; cbn; [|done]. by rewrite (Hp Hn).
Qed.

(** [name] is one of the fields. *)
Ltac field_in := apply (bool_decide_unpack _); vm_compute; exact I.

(** Read one field whose raw value [Ha] gives. *)
Ltac read_field Ha lem := apply bind_Ok; eexists; split;
  [apply lem; split; [apply Ha; [field_in|done|done|reflexivity]|eauto]|].

Section Validated.
Context (canonical_hash : dict -> string) (is_utc_timestamp : string -> bool).

Lemma check_observations_Ok r u :
  check_observations is_utc_timestamp r = Ok u <->
  forallb (text_item_ok false) (Receipt.observed_versions r) = true /\
  forallb (text_item_ok true) (Receipt.observed_package_hashes r) = true /\
  forallb (text_item_ok true) (Receipt.observed_source_hashes r) = true /\
  (forallb nonempty (Receipt.capabilities r) = true /\
   sorted_set (Receipt.capabilities r) = Receipt.capabilities r) /\
  is_utc_timestamp (Receipt.attested_at r) = true.
Proof.
  destruct u.
  assert (forall l, existsb (fun c => negb (nonempty c)) l = negb (forallb nonempty l)) as Hex.
  { induction l; cbn; [done|]. by rewrite IHl, negb_andb. }
  unfold check_observations, receipt_raise_if. rewrite Hex. split.
  - intros H. res_inv. apply require_map_Ok in H, H0, H1. bool_prop. done.
  - intros (H1 & H2 & H3 & (H4 & H5) & H6).
    apply (require_map_Ok _ _ tt) in H1, H2, H3. rewrite H1, H2, H3, H4, H6; cbn.
    by rewrite bool_decide_true.
Qed.

Lemma check_identity_Ok r u :
  check_identity r = Ok u <->
  Receipt.schema_version r = RECEIPT_SCHEMA_VERSION /\
  forallb nonempty
    [Receipt.deployment_id r; Receipt.receipt_requirement_id r; Receipt.role r;
     Receipt.component_id r; Receipt.instance_id r; Receipt.node_id r; Receipt.attested_at r] = true /\
  0 <= Receipt.generation r /\
  forallb sha_match
    [Receipt.deployment_plan_hash r; Receipt.site_profile_hash r;
     Receipt.allocation_binding_hash r; Receipt.compatibility_profile_hash r;
     Receipt.manifest_hash r; Receipt.executable_hash r; Receipt.prepared_environment_hash r] = true /\
  from_option sha_match true (Receipt.argv_hash r) = true /\
  sha_match (Receipt.receipt_hash r) = true.
Proof.
  destruct u. unfold check_identity. split.
  - intros H.
    apply bind_Ok in H as ([] & H1 & H). apply bind_Ok in H as ([] & H2 & H).
    apply bind_Ok in H as ([] & H3 & H). apply bind_Ok in H as ([] & H4 & H).
    apply bind_Ok in H as ([] & H5 & H).
    apply raise_if_Ok in H1. apply (texts_ok_Ok _ nonempty) in H2; [|apply nonempty_text_Ok].
    apply raise_if_Ok in H3. apply (texts_ok_Ok _ sha_match) in H4; [|intros; apply require_sha_Ok].
    apply require_sha_Ok in H. bool_prop. repeat split; try done.
    destruct (Receipt.argv_hash r); cbn in *; [|done]. by apply require_sha_Ok in H5.
  - intros (H1 & H2 & H3 & H4 & H5 & H6). rewrite H1.
    rewrite (proj2 (texts_ok_Ok _ nonempty _ tt nonempty_text_Ok) H2); cbn [mbind result_bind].
    rewrite (proj2 (Z.ltb_ge _ _) H3).
    rewrite (proj2 (texts_ok_Ok require_sha sha_match _ tt (fun s => require_sha_Ok s tt)) H4).
    cbn [mbind result_bind receipt_raise_if raise_if].
    rewrite (proj2 (require_sha_Ok _ tt) H6).
    destruct (Receipt.argv_hash r); cbn in *; [|done]. by rewrite (proj2 (require_sha_Ok _ tt) H5).
Qed.

Ltac raw_inv_step :=
  match goal with
  | H : (_ ≫= _) = Ok _ |- _ => apply bind_Ok in H as (? & ? & H)
  | H : raw_text _ _ = Ok _ |- _ => apply raw_text_Ok in H as [? ?]
  | H : raw_sha _ _ = Ok _ |- _ => apply raw_sha_Ok in H as [? ?]
  | H : raw_sha_opt _ _ = Ok _ |- _ => apply raw_sha_opt_Ok in H as [? ?]
  | H : raw_member _ _ _ _ = Ok _ |- _ => apply raw_member_Ok in H as [? ?]
  | H : raw_generation _ = Ok _ |- _ => apply raw_generation_Ok in H as [? ?]
  | H : raw_owner_rank _ _ = Ok _ |- _ => apply raw_owner_rank_Ok in H as [? ?]
  | H : raw_process _ = Ok ?p |- _ => destruct p; apply raw_process_Ok in H as (? & ? & ?)
  | H : raw_map _ _ _ = Ok _ |- _ => apply raw_map_Ok in H as [? ?]
  | H : raw_capabilities _ = Ok _ |- _ => apply raw_capabilities_Ok in H as (? & ? & ?)
  | H : refused _ = Ok _ |- _ => apply refused_Ok in H
  | H : receipt_raise_if _ _ = Ok _ |- _ => apply raise_if_Ok in H
  end.

Lemma validate_raw_sound raw required not_required r :
  validate_raw canonical_hash is_utc_timestamp raw required not_required = Ok r ->
  same_fields raw r /\
  validate_receipt (compute_hash canonical_hash) is_utc_timestamp r required not_required = Ok tt.
Proof.
  unfold validate_raw. intros H. repeat raw_inv_step. injection H as H.
  repeat match goal with H : unit |- _ => destruct H end. split.
  - subst r. split; [done|]. intros name Hin Hp Hv. unfold RECEIPT_FIELDS in Hin.
    repeat (apply elem_of_cons in Hin as [->|Hin]); try done; try (by cbn; assumption).
    by apply not_elem_of_nil in Hin.
  - unfold validate_receipt.
    rewrite (proj2 (check_identity_Ok r tt)) by
      (subst r; cbn; repeat match goal with H : _ = true |- _ => rewrite H end; done).
    cbn [mbind result_bind].
    rewrite (proj2 (check_owner_Ok r tt)) by (subst r; done).
    cbn [mbind result_bind].
    rewrite (proj2 (check_observations_Ok r tt)).
    2: { subst r; cbn. bool_prop. done. }
    cbn [mbind result_bind].
    assert (Receipt.patch_results r = raw_patches raw) as -> by (by subst r).
    match goal with H : check_patches _ _ _ = Ok _ |- _ => rewrite H end.
    cbn [mbind result_bind]. unfold receipt_raise_if.
    apply raise_if_Ok. subst r. assumption.
Qed.

Lemma validate_raw_complete raw required not_required r :
  same_fields raw r ->
  validate_receipt (compute_hash canonical_hash) is_utc_timestamp r required not_required = Ok tt ->
  validate_raw canonical_hash is_utc_timestamp raw required not_required = Ok r.
Proof.
  intros [Hpatches Hf] Hv. unfold validate_receipt in Hv.
  apply bind_Ok in Hv as ([] & Hid & Hv). apply bind_Ok in Hv as ([] & Hown & Hv).
  apply bind_Ok in Hv as ([] & Hobs & Hv). apply bind_Ok in Hv as ([] & Hpatch & Hhash).
  apply check_identity_Ok in Hid as (Hver & Htexts & Hgen & Hshas & Hargv & Hrh).
  apply check_owner_Ok in Hown as (Hscope & Hrank & Hproc & Hatt).
  apply check_observations_Ok in Hobs as (Hm1 & Hm2 & Hm3 & [Hc1 Hc2] & Hts).
  cbn in Htexts, Hshas. rewrite !andb_true_iff in Htexts, Hshas. destruct_and?.
  assert (forall name s, name ∈ RECEIPT_FIELDS -> name <> "patch_results" ->
            name <> "schema_version" -> attr name (receipt_dict r) = s ->
            attr name (raw_data raw) = s) as Ha by (intros; subst; auto).
  unfold validate_raw.
  do 7 read_field Ha raw_text_Ok.
  read_field Ha raw_generation_Ok.
  do 7 read_field Ha raw_sha_Ok.
  read_field Ha raw_sha_opt_Ok.
  read_field Ha raw_sha_Ok.
  read_field Ha raw_member_Ok.
  read_field Ha raw_owner_rank_Ok.
  apply bind_Ok. exists (Receipt.pid r, Receipt.actor_id r). split.
  { apply raw_process_Ok. repeat split; try apply Hproc; by apply Ha; [field_in|..]. }
  cbv beta iota.
  read_field Ha raw_member_Ok.
  do 3 read_field Ha raw_map_Ok.
  read_field Ha raw_capabilities_Ok.
  rewrite Hts, Hpatches, Hpatch; cbn [negb receipt_raise_if raise_if refused mbind result_bind].
  destruct r; cbn in *; subst. apply raise_if_Ok in Hhash. unfold receipt_raise_if.
  by rewrite Hhash.
Qed.
End Validated.

(** ** The round trip *)

(** The four maps of a receipt are dicts: their keys are distinct. *)
Definition maps_ok (r : Receipt.t) : Prop :=
  NoDup (dkeys (Receipt.observed_versions r)) /\
  NoDup (dkeys (Receipt.observed_package_hashes r)) /\
  NoDup (dkeys (Receipt.observed_source_hashes r)) /\
  NoDup (dkeys (Receipt.patch_results r)).

Lemma sorted_items_perm {A} (m : list (string * A)) : sorted_items m ≡ₚ m.
Proof. apply merge_sort_Permutation. Qed.

#[global] Instance string_le_trans : Transitive string_le := str_le_trans.
#[global] Instance item_le_trans {A} : Transitive (@item_le A).
Proof. intros a b c. apply (transitivity (R := string_le)). Qed.
#[global] Instance item_le_total {A} : Total (@item_le A).
Proof. intros a b. apply String.leb_total. Qed.

Lemma nodup_keys_inj {A} (m : list (string * A)) k v v' :
  NoDup (dkeys m) -> (k, v) ∈ m -> (k, v') ∈ m -> v = v'.
Proof.
  unfold dkeys. induction m as [|[k0 v0] m IH]; cbn; [by intros _ ?%not_elem_of_nil|].
  intros [Hn Hnd]%NoDup_cons. rewrite !elem_of_cons.
  intros [[= -> ->]|H1] [[= <-]|H2]; subst; auto; exfalso; apply Hn.
  - by apply (list_elem_of_fmap_2 fst) in H2.
  - by apply (list_elem_of_fmap_2 fst) in H1.
Qed.

Lemma sorted_items_idemp {A} (m : list (string * A)) :
  NoDup (dkeys m) -> sorted_items (sorted_items m) = sorted_items m.
Proof.
  intros Hnd. apply (StronglySorted_unique_strong item_le);
    [|apply (StronglySorted_merge_sort item_le)..|apply sorted_items_perm].
  intros [k1 v1] [k2 v2] H1 H2 Hle1 Hle2.
  pose proof (String.leb_antisym _ _ Hle1 Hle2) as Hk. cbn in Hk. subst k2. f_equal.
  unfold sorted_items in *. rewrite !merge_sort_Permutation in H1.
  rewrite merge_sort_Permutation in H2. by eapply nodup_keys_inj.
Qed.

Lemma forallb_perm {A} (f : A -> bool) l l' : l ≡ₚ l' -> forallb f l = forallb f l'.
Proof. induction 1; cbn; try congruence. by rewrite !andb_assoc, (andb_comm (f y)). Qed.

Lemma existsb_perm {A} (f : A -> bool) l l' : l ≡ₚ l' -> existsb f l = existsb f l'.
Proof. induction 1; cbn; try congruence. by rewrite !orb_assoc, (orb_comm (f y)). Qed.

Lemma existsb_pointwise {A} (f g : A -> bool) l : (forall x, f x = g x) -> existsb f l = existsb g l.
Proof. intros H. induction l; cbn; congruence. Qed.

Lemma check_patches_perm required not_required results results' :
  results ≡ₚ results' ->
  check_patches required not_required results = Ok tt ->
  check_patches required not_required results' = Ok tt.
Proof.
  intros Hp H. unfold check_patches in *. apply bind_Ok in H as (? & H1 & H).
  apply for_each_Ok in H1. rewrite Hp in H1. apply (for_each_Ok _ _ tt) in H1. rewrite H1.
  cbn [mbind result_bind]. assert (dkeys results ≡ₚ dkeys results') as Hk by (unfold dkeys; by rewrite Hp).
  rewrite <- !(existsb_perm _ _ _ Hp), <- (existsb_perm _ _ _ Hk).
  rewrite (existsb_pointwise (fun k => negb (bool_decide (k ∈ dkeys results')))
             (fun k => negb (bool_decide (k ∈ dkeys results)))); [done|].
  intros k. f_equal. apply bool_decide_ext. by rewrite Hk.
Qed.

Lemma normal_validates ch ts r required not_required :
  maps_ok r ->
  validate_receipt (compute_hash ch) ts r required not_required = Ok tt ->
  validate_receipt (compute_hash ch) ts (normal r) required not_required = Ok tt /\
  normal (normal r) = normal r.
Proof.
  intros (Hn1 & Hn2 & Hn3 & Hn4) Hv. unfold validate_receipt in *.
  apply bind_Ok in Hv as ([] & Hid & Hv). apply bind_Ok in Hv as ([] & Hown & Hv).
  apply bind_Ok in Hv as ([] & Hobs & Hv). apply bind_Ok in Hv as ([] & Hpatch & Hhash).
  apply check_identity_Ok in Hid. apply check_owner_Ok in Hown.
  apply check_observations_Ok in Hobs as (Hm1 & Hm2 & Hm3 & [Hc1 Hc2] & Hts).
  assert (normal (normal r) = normal r) as Hnn.
  { unfold normal. cbn -[sorted_items sorted_set]. by rewrite !sorted_items_idemp, !Hc2 by done. }
  split; [|done].
  rewrite (proj2 (check_identity_Ok (normal r) tt) Hid).
  rewrite (proj2 (check_owner_Ok (normal r) tt) Hown). cbn [mbind result_bind].
  rewrite (proj2 (check_observations_Ok ts (normal r) tt)).
  2: { cbn. rewrite !(forallb_perm _ _ _ (sorted_items_perm _)), Hc2. done. }
  cbn [mbind result_bind].
  rewrite (check_patches_perm _ _ _ (Receipt.patch_results (normal r))
             (symmetry (sorted_items_perm _)) Hpatch).
  apply raise_if_Ok in Hhash. apply raise_if_Ok. rewrite <- Hhash.
  unfold compute_hash, canonical. by rewrite Hnn.
Qed.

Lemma decode_patch_dict p : PatchResult.post_init p = Ok tt -> decode_patch (patch_dict p) = Ok p.
Proof.
  destruct p as [status passed evidence]; unfold PatchResult.post_init. intros H.
  apply bind_Ok in H as ([] & H1 & H). apply bind_Ok in H as ([] & H2 & H).
  apply raise_if_Ok in H1, H2. apply negb_false_iff, bool_decide_eq_true in H1. cbn in H1, H.
  unfold decode_patch, patch_dict. cbv zeta.
  change (dkeys _) with PATCH_FIELDS.
  assert (same_keys PATCH_FIELDS PATCH_FIELDS = true) as -> by (vm_compute; reflexivity).
  change (attr "status" _) with (VStr status).
  change (attr "postcondition_passed" _) with (VBool passed).
  change (attr "evidence_hash" _) with (opt_value VStr evidence).
  cbv iota beta. rewrite (bool_decide_true _ H1). cbn [negb receipt_raise_if raise_if mbind result_bind truthy].
  cbn in H2. rewrite H2. cbn [negb receipt_raise_if raise_if mbind result_bind].
  destruct evidence as [h|]; cbn -[require_sha] in *; [|done]. by rewrite H.
Qed.

Lemma decode_patches_dict ps :
  Forall (fun kv => PatchResult.post_init kv.2 = Ok tt) ps ->
  decode_patches (map_values patch_dict ps) = Ok ps.
Proof.
  induction 1 as [|[k p] ps Hp _ IH]; [done|].
  change (map_values patch_dict ((k, p) :: ps)) with ((k, patch_dict p) :: map_values patch_dict ps).
  cbn [decode_patches]. rewrite (decode_patch_dict p Hp), IH. done.
Qed.

Lemma to_dict_normal ch r :
  nonempty (Receipt.receipt_hash r) = true -> to_dict ch r = receipt_dict (normal r).
Proof. intros H. unfold to_dict. rewrite H. reflexivity. Qed.

Lemma dget_sorted_items {A} (m : list (string * A)) k :
  NoDup (dkeys m) -> dget k (sorted_items m) = dget k m.
Proof. intros. symmetry. apply dget_perm; [done|]. symmetry. apply sorted_items_perm. Qed.

Lemma sha_match_nonempty s : sha_match s = true -> nonempty s = true.
Proof. destruct s; done. Qed.

Section Parts.
Context (hash : Receipt.t -> string) (ts : string -> bool) (r : Receipt.t).
Context (required not_required : list string).
Context (Hvalid : validate_receipt hash ts r required not_required = Ok tt).

Lemma receipt_hash_nonempty : nonempty (Receipt.receipt_hash r) = true.
Proof.
  unfold validate_receipt in Hvalid. apply bind_Ok in Hvalid as ([] & Hid & _).
  apply check_identity_Ok in Hid. apply sha_match_nonempty. tauto.
Qed.

Lemma patches_of_validated :
  Forall (fun kv => PatchResult.post_init kv.2 = Ok tt) (Receipt.patch_results r).
Proof.
  unfold validate_receipt in Hvalid.
  apply bind_Ok in Hvalid as ([] & _ & H). apply bind_Ok in H as ([] & _ & H).
  apply bind_Ok in H as ([] & _ & H). apply bind_Ok in H as ([] & H & _).
  unfold check_patches in H. apply bind_Ok in H as ([] & H & _). by apply for_each_Ok in H.
Qed.

Lemma capabilities_of_validated : Receipt.capabilities (normal r) = Receipt.capabilities r.
Proof.
  unfold validate_receipt in Hvalid.
  apply bind_Ok in Hvalid as ([] & _ & H). apply bind_Ok in H as ([] & _ & H).
  apply bind_Ok in H as ([] & H & _). apply check_observations_Ok in H. cbn. tauto.
Qed.

Lemma version_of_validated : Receipt.schema_version r = RECEIPT_SCHEMA_VERSION.
Proof.
  unfold validate_receipt in Hvalid. apply bind_Ok in Hvalid as ([] & Hid & _).
  apply check_identity_Ok in Hid. tauto.
Qed.
End Parts.

Lemma decode_receipt_dict r :
  Receipt.schema_version r = RECEIPT_SCHEMA_VERSION ->
  Forall (fun kv => PatchResult.post_init kv.2 = Ok tt) (Receipt.patch_results r) ->
  receipt_from_dict (VDict (receipt_dict r)) = Ok (Raw (receipt_dict r) (Receipt.patch_results r)).
Proof.
  intros Hver Hp. unfold receipt_from_dict.
  change (attr "schema_version" (receipt_dict r)) with (VInt (Receipt.schema_version r)).
  change (attr "patch_results" (receipt_dict r))
    with (VDict (map_values patch_dict (Receipt.patch_results r))).
  change (attr "capabilities" (receipt_dict r)) with (VList (map VStr (Receipt.capabilities r))).
  change (dkeys (receipt_dict r)) with RECEIPT_FIELDS.
  assert (same_keys RECEIPT_FIELDS RECEIPT_FIELDS = true) as -> by (vm_compute; reflexivity).
  rewrite Hver, (decode_patches_dict _ Hp).
  assert (dset "schema_version" (VInt RECEIPT_SCHEMA_VERSION) (receipt_dict r) = receipt_dict r) as ->;
    [|reflexivity].
  unfold receipt_dict. rewrite Hver. reflexivity.
Qed.

(** The canonical dictionary of a valid receipt decodes, and what it decodes to
    validates to the same receipt with its maps in canonical order, which has the same
    dictionary again: the private copy that the ledger keeps of an accepted receipt is
    the receipt it validated. Conversely whatever validates on the wire is a valid
    typed receipt with exactly the fields of the payload. *)
Theorem receipt_roundtrip ch ts r required not_required
    (Hmaps : maps_ok r)
    (Hvalid : validate_receipt (compute_hash ch) ts r required not_required = Ok tt) :
  (exists raw, receipt_from_dict (VDict (to_dict ch r)) = Ok raw /\
     validate_raw ch ts raw required not_required = Ok (normal r)) /\
  to_dict ch (normal r) = to_dict ch r /\
  (forall k, dget k (Receipt.observed_versions (normal r)) = dget k (Receipt.observed_versions r)) /\
  (forall k, dget k (Receipt.observed_package_hashes (normal r))
             = dget k (Receipt.observed_package_hashes r)) /\
  (forall k, dget k (Receipt.observed_source_hashes (normal r))
             = dget k (Receipt.observed_source_hashes r)) /\
  (forall k, dget k (Receipt.patch_results (normal r)) = dget k (Receipt.patch_results r)) /\
  Receipt.capabilities (normal r) = Receipt.capabilities r /\
  forall raw r', validate_raw ch ts raw required not_required = Ok r' ->
    same_fields raw r' /\
    validate_receipt (compute_hash ch) ts r' required not_required = Ok tt.
Proof.
  destruct (normal_validates _ _ _ _ _ Hmaps Hvalid) as [Hnv Hnn].
  assert (nonempty (Receipt.receipt_hash r) = true) as Hh by (by eapply receipt_hash_nonempty).
  destruct Hmaps as (Hn1 & Hn2 & Hn3 & Hn4).
  split.
  { exists (Raw (receipt_dict (normal r)) (Receipt.patch_results (normal r))). split.
    - rewrite to_dict_normal by done. apply decode_receipt_dict.
      + by eapply (version_of_validated _ _ (normal r)).
      + by eapply (patches_of_validated _ _ (normal r)).
    - apply validate_raw_complete; [|done]. by split. }
  split; [rewrite !to_dict_normal by done; by rewrite Hnn|].
  do 4 (split; [intros k; by apply dget_sorted_items|]).
  split; [by eapply capabilities_of_validated|].
  intros raw r'. apply validate_raw_sound.
Qed.
