(* ===== verification/Bindings.v ===== *)
(** The live component-instance binding store (src/exaserve/state/bindings.py)
    and its event (ComponentInstanceBinding of src/exaserve/plan/contracts.py).

    [Store.t] is the writer's memory together with the two kinds of files it
    publishes: the immutable event segments, in the order of their zero-padded
    names (which is the order of their sequence numbers below 10^12), and the
    projection [current.json]. An operation returns the new state also when it
    raises, because [_append] updates memory before it publishes. [barrier_io]
    says how the lease, the writes of a barrier and the release end: a segment may be
    visible although its publication raised. [now] is [time.time()]. *)

From S2P Require Import Prelude.
From S2P Require Import PyValue.
From S2P Require Import Atomic.
From S2P Require Import Contracts.
From S2P Require Import Receipts.

(** ** Events *)

Inductive BindingState : Set := B_ACTIVE | B_SUPERSEDED | B_REVOKED.

#[global] Instance BindingState_eq_dec : EqDecision BindingState.
Proof. solve_decision. Defined.

(** What every event of one store has in common. *)
Record identity := Identity {
  id_deployment_id : string;
  id_generation : Z;
  id_deployment_plan_hash : string;
  id_site_profile_hash : string;
  id_allocation_binding_hash : string;
}.

#[global] Instance identity_eq_dec : EqDecision identity.
Proof. solve_decision. Defined.

Module ComponentBinding.
Record t := mk {
  schema_version : Z;
  ident : identity;
  receipt_requirement_id : string;
  component_id : string;
  instance_id : string;
  owner_scope : string;
  owner_rank : option Z;
  node_id : string;
  bound_at : float;
  state : BindingState;
  binding_sequence : Z;
  supersedes_instance_id : option string;
  binding_hash : string;
}.

#[global] Instance eq_dec : EqDecision t.
Proof. solve_decision. Defined.

Definition post_init (e : t) : plan_result unit :=
  _ ← require_schema_version (schema_version e);
  _ ← for_each (fun s => plan_raise_if (negb (nonempty s)) "instance_binding field must be non-empty")
        [id_deployment_id (ident e); receipt_requirement_id e; component_id e; instance_id e;
         node_id e];
  _ ← for_each (fun s => require_sha256 s false)
        [id_deployment_plan_hash (ident e); id_site_profile_hash (ident e);
         id_allocation_binding_hash (ident e)];
  _ ← require_sha256 (binding_hash e) true;
  _ ← plan_raise_if (id_generation (ident e) <? 0)
        "instance_binding.generation must be a non-negative integer";
  _ ← plan_raise_if (binding_sequence e <? 0)
        "instance_binding.binding_sequence must be non-negative";
  _ ← plan_raise_if (negb (Float.is_finite (bound_at e)) || Float.ltb (bound_at e) Float.zero)
        "instance_binding.bound_at must be finite and non-negative";
  _ ← plan_raise_if (negb (bool_decide (owner_scope e ∈ ["GLOBAL"; "RANK"])))
        "instance_binding.owner_scope must be GLOBAL or RANK";
  _ ← (if bool_decide (owner_scope e = "GLOBAL") then
         plan_raise_if (bool_decide (is_Some (owner_rank e)))
           "instance_binding.owner_rank must be null for GLOBAL"
       else
         plan_raise_if (match owner_rank e with Some n => n <? 0 | None => true end)
           "instance_binding RANK owner requires a non-negative owner_rank");
  plan_raise_if
    (match supersedes_instance_id e with
     | Some s => negb (nonempty s) || bool_decide (s = instance_id e)
     | None => false
     end) "instance_binding.supersedes_instance_id must name a distinct non-empty instance".

Definition key (e : t) : string := receipt_requirement_id e.

Definition with_hash (h : string) (e : t) : t :=
  mk (schema_version e) (ident e) (receipt_requirement_id e) (component_id e) (instance_id e)
     (owner_scope e) (owner_rank e) (node_id e) (bound_at e) (state e) (binding_sequence e)
     (supersedes_instance_id e) h.

(** [replace(e, state=st, binding_sequence=n, component_instance_binding_hash="")] *)
Definition retire (st : BindingState) (n : Z) (e : t) : t :=
  mk (schema_version e) (ident e) (receipt_requirement_id e) (component_id e) (instance_id e)
     (owner_scope e) (owner_rank e) (node_id e) (bound_at e) st n
     (supersedes_instance_id e) EmptyString.

Section Hash.
Context (canonical_hash : t -> string).

(** The hash field is not part of what is hashed. *)
Definition compute_hash (e : t) : string := canonical_hash (with_hash EmptyString e).

(** [e.finalize()]: [dataclasses.replace] runs the constructor again. *)
Definition finalize (e : t) : plan_result t :=
  let e' := with_hash (compute_hash e) e in
  _ ← post_init e';
  Ok e'.

(** A constructor call followed by [.finalize()]. *)
Definition build (e : t) : plan_result t :=
  _ ← post_init e;
  finalize e.
End Hash.
End ComponentBinding.

(** ** The store *)

Inductive store_error : Type :=
| BindingStoreError (message : string)
| StorePlanError (e : plan_error)
| StoreValueError (message : string)
| LeaseHeldError
| StoreOSError
| StoreLeaseReleaseError.

Definition lift_plan {A} (r : plan_result A) : result store_error A :=
  match r with Ok a => Ok a | Err e => Err (StorePlanError e) end.

Module Store.
Record t := mk {
  self_identity : identity;
  current_publish_batch_size : Z;
  event_publish_batch_size : Z;
  current : gmap string ComponentBinding.t;
  sequence : Z;
  published_sequence : Z;
  pending_events : list ComponentBinding.t;
  (** files *)
  segments : list (list ComponentBinding.t);
  current_json : option (Z * list ComponentBinding.t);
}.

(** [f'(state)] with some fields replaced. *)
Definition set_memory (cur : gmap string ComponentBinding.t) (seq : Z)
    (pending : list ComponentBinding.t) (s : t) : t :=
  mk (self_identity s) (current_publish_batch_size s) (event_publish_batch_size s) cur seq
     (published_sequence s) pending (segments s) (current_json s).

(** The effect of one event on the projection: shared by [_append] and
    [_apply_recovered_event]. *)
Definition project (cur : gmap string ComponentBinding.t) (e : ComponentBinding.t)
    : gmap string ComponentBinding.t :=
  match ComponentBinding.state e with
  | B_ACTIVE => <[ComponentBinding.key e := e]> cur
  | _ =>
      match cur !! ComponentBinding.key e with
      | Some c =>
          if bool_decide (ComponentBinding.instance_id c = ComponentBinding.instance_id e)
          then delete (ComponentBinding.key e) cur
          else cur
      | None => cur
      end
  end.

Definition verify_identity (s : t) (e : ComponentBinding.t) : result store_error unit :=
  raise_if (negb (bool_decide (ComponentBinding.ident e = self_identity s)))
    (BindingStoreError "component binding identity mismatch").

(** [[self._current[key] for key in sorted(self._current)]] *)
Definition sorted_bindings (cur : gmap string ComponentBinding.t) : list ComponentBinding.t :=
  (merge_sort string_le (map_to_list cur).*1) ≫= fun k => option_list (cur !! k).

(** How one [_publish_barrier] ends: the lease, the new segment, current.json, the release. *)
Record barrier_io := BarrierIO {
  bi_lease : lease_outcome;
  bi_segment : write_outcome;
  bi_current : write_outcome;
  bi_release : release_outcome;
}.

Definition barrier_done : barrier_io := BarrierIO LeaseAcquired Written Written Released.

(** [_publish_current]: the sequence is noted as published only when the write returns. *)
Definition publish_current (w : write_outcome) (s : t) : t * result store_error unit :=
  let '(f, x) := atomic_write StoreOSError w (Some (sequence s, sorted_bindings (current s))) (current_json s) in
  (mk (self_identity s) (current_publish_batch_size s) (event_publish_batch_size s) (current s)
      (sequence s) (match x with Ok _ => sequence s | Err _ => published_sequence s end)
      (pending_events s) (segments s) f, x).

Section Operations.
Context (canonical_hash : ComponentBinding.t -> string)
        (batch_hash : list ComponentBinding.t -> string).

(** The start and end sequence and the digest that name a segment's file. *)
Definition segment_name (events : list ComponentBinding.t) : option Z * option Z * string :=
  (ComponentBinding.binding_sequence <$> head events,
   ComponentBinding.binding_sequence <$> last events, batch_hash events).

(** The temporary file of [atomic_create_json] is made before the link, which refuses a name that
    exists; the events stay pending when the call raises, also when the segment is visible. *)
Definition publish_pending_events (w : write_outcome) (s : t) : t * result store_error unit :=
  match pending_events s with
  | [] => (s, Ok tt)
  | events =>
      if bool_decide (w <> NotWritten) && bool_decide (segment_name events ∈ segment_name <$> segments s)
      then (s, Err (BindingStoreError "component binding batch already exists"))
      else
        let '(segs, x) := atomic_write StoreOSError w (segments s ++ [events]) (segments s) in
        (mk (self_identity s) (current_publish_batch_size s) (event_publish_batch_size s)
            (current s) (sequence s) (published_sequence s)
            (match x with Ok _ => [] | Err _ => events end) segs (current_json s), x)
  end.

(** The body of the [with] statement. *)
Definition publish_held (io : barrier_io) (publish_cur : bool) (s : t) : t * result store_error unit :=
  match publish_pending_events (bi_segment io) s with
  | (s1, Err e) => (s1, Err e)
  | (s1, Ok _) =>
      if publish_cur && negb (published_sequence s1 =? sequence s1)
      then publish_current (bi_current io) s1 else (s1, Ok tt)
  end.

Definition publish_barrier (io : barrier_io) (publish_cur : bool) (s : t)
    : t * result store_error unit :=
  match bi_lease io with
  | LeaseBusy | LeaseLost => (s, Err LeaseHeldError)
  | LeaseOsError => (s, Err StoreOSError)
  | LeaseAcquired =>
      let '(s1, x) := publish_held io publish_cur s in
      (s1, lease_exit StoreLeaseReleaseError StoreOSError (bi_release io) x)
  end.

Definition append (io : barrier_io) (e : ComponentBinding.t) (s : t)
    : t * result store_error unit :=
  match verify_identity s e with
  | Err err => (s, Err err)
  | Ok _ =>
      if negb (bool_decide (ComponentBinding.binding_hash e
                            = ComponentBinding.compute_hash canonical_hash e))
      then (s, Err (BindingStoreError "component binding event is not finalized"))
      else
        let s1 := set_memory (project (current s) e) (ComponentBinding.binding_sequence e)
                    (pending_events s ++ [e]) s in
        let publish_cur :=
          current_publish_batch_size s1 <=? sequence s1 - published_sequence s1 in
        if (event_publish_batch_size s1 <=? Z.of_nat (length (pending_events s1))) || publish_cur
        then publish_barrier io publish_cur s1
        else (s1, Ok tt)
  end.

Definition flush (io : barrier_io) (s : t) : t * result store_error unit :=
  publish_barrier io true s.

(** [self._append(replace(current, ...).finalize())] *)
Definition append_retired (io : barrier_io) (st : BindingState) (c : ComponentBinding.t) (s : t)
    : t * result store_error unit :=
  match lift_plan (ComponentBinding.build canonical_hash
                     (ComponentBinding.retire st (sequence s + 1) c)) with
  | Err e => (s, Err e)
  | Ok e => append io e s
  end.

(** The new event of [bind_receipt]. *)
Definition active_event (now : float) (supersedes : option string) (r : Receipt.t) (s : t)
    : ComponentBinding.t :=
  ComponentBinding.mk SCHEMA_VERSION (self_identity s) (Receipt.receipt_requirement_id r)
    (Receipt.component_id r) (Receipt.instance_id r) (Receipt.owner_scope r) (Receipt.owner_rank r)
    (Receipt.node_id r) now B_ACTIVE (sequence s + 1) supersedes EmptyString.

Definition append_active (io : barrier_io) (now : float) (supersedes : option string)
    (r : Receipt.t) (s : t) : t * result store_error ComponentBinding.t :=
  match lift_plan (ComponentBinding.build canonical_hash (active_event now supersedes r s)) with
  | Err e => (s, Err e)
  | Ok e =>
      match append io e s with
      | (s', Ok _) => (s', Ok e)
      | (s', Err err) => (s', Err err)
      end
  end.

(** [ios]: the barrier of the retirement and that of the activation. *)
Definition bind_receipt (ios : barrier_io * barrier_io) (now : float) (r : Receipt.t) (s : t)
    : t * result store_error ComponentBinding.t :=
  match current s !! Receipt.receipt_requirement_id r with
  | Some c =>
      if bool_decide (ComponentBinding.instance_id c = Receipt.instance_id r) then (s, Ok c)
      else
        match append_retired ios.1 B_SUPERSEDED c s with
        | (s1, Err e) => (s1, Err e)
        | (s1, Ok _) =>
            append_active ios.2 now (Some (ComponentBinding.instance_id c)) r s1
        end
  | None => append_active ios.2 now None r s
  end.

Definition revoke_slot (io : barrier_io) (slot : string) (s : t) : t * result store_error bool :=
  match current s !! slot with
  | None => (s, Ok false)
  | Some c =>
      match append_retired io B_REVOKED c s with
      | (s', Ok _) => (s', Ok true)
      | (s', Err e) => (s', Err e)
      end
  end.

(** *** Recovery *)

(** [component_instance_binding_from_dict] on a stored event. *)
Definition decode_event (e : ComponentBinding.t) : result store_error ComponentBinding.t :=
  match ComponentBinding.build canonical_hash e with
  | Err _ => Err (BindingStoreError "component binding batch contains an invalid event")
  | Ok e' =>
      if bool_decide (ComponentBinding.binding_hash e' = ComponentBinding.binding_hash e)
      then Ok e' else Err (BindingStoreError "component binding batch contains an invalid event")
  end.

Fixpoint decode_events (l : list ComponentBinding.t) : result store_error (list ComponentBinding.t) :=
  match l with
  | [] => Ok []
  | e :: l' => e' ← decode_event e; rest ← decode_events l'; Ok (e' :: rest)
  end.

(** [_decode_batch]: a segment this store wrote carries its identity, its
    digest and its range by construction, so what is left to check is the
    events and that their sequence numbers are contiguous. *)
Definition decode_batch (events : list ComponentBinding.t)
    : result store_error (list ComponentBinding.t) :=
  match events with
  | [] => Err (BindingStoreError "component binding batch is empty")
  | first :: _ =>
      decoded ← decode_events events;
      let sequences := ComponentBinding.binding_sequence <$> decoded in
      _ ← raise_if
            (negb (bool_decide
               (sequences = seqZ (ComponentBinding.binding_sequence first)
                              (Z.of_nat (length sequences)))))
            (BindingStoreError "component binding batch sequence range is invalid");
      Ok decoded
  end.

Definition apply_recovered_event (s : t) (e : ComponentBinding.t) : result store_error t :=
  _ ← verify_identity s e;
  _ ← raise_if (negb (ComponentBinding.binding_sequence e =? sequence s + 1))
        (BindingStoreError "component binding sequence is not contiguous");
  Ok (set_memory (project (current s) e) (ComponentBinding.binding_sequence e)
        (pending_events s) s).

Definition recover_segment (s : t) (events : list ComponentBinding.t) : result store_error t :=
  decoded ← decode_batch events;
  fold_res apply_recovered_event s decoded.

(** [ComponentBindingStore(run_dir, ...)] on a directory that holds [segs]; [w] is how the write of
    current.json ends. *)
Definition open_store (ident : identity) (csize esize : Z) (w : write_outcome) (segs : list (list ComponentBinding.t))
    : result store_error t :=
  _ ← raise_if ((csize <? 1) || (esize <? 1))
        (StoreValueError "publish batch size must be a positive integer");
  s ← fold_res recover_segment (mk ident csize esize ∅ 0 0 [] segs None) segs;
  match publish_current w s with
  | (s', Ok _) => Ok s'
  | (_, Err e) => Err e
  end.
End Operations.
End Store.
