(* ===== verification/BindingsProps.v ===== *)
(** Theorems on the binding store: the segments and the pending events are parts of
    one contiguous, well-bracketed history of which the projection is the replay,
    through any interleaving of bindings, revocations, flushes, failures of the
    lease and of the writes, and restarts; and they are exactly that history as long
    as no segment was left behind by a call that raised. *)

From S2P Require Import Prelude.
From S2P Require Import PyValue.
From S2P Require Import Atomic.
From S2P Require Import Contracts.
From S2P Require Import Receipts.
From S2P Require Import Bindings.

Import Store.

Abbreviation cevent := ComponentBinding.t.

(** ** Strict replay *)

(** An activation needs a free slot; a retirement names the live instance. *)
Definition strict_step (cur : gmap string cevent) (e : cevent) : option (gmap string cevent) :=
  match ComponentBinding.state e, cur !! ComponentBinding.key e with
  | B_ACTIVE, None => Some (<[ComponentBinding.key e := e]> cur)
  | B_ACTIVE, Some _ => None
  | _, Some c =>
      if bool_decide (ComponentBinding.instance_id c = ComponentBinding.instance_id e)
      then Some (delete (ComponentBinding.key e) cur) else None
  | _, None => None
  end.

Fixpoint strict_replay (cur : gmap string cevent) (l : list cevent) : option (gmap string cevent) :=
  match l with
  | [] => Some cur
  | e :: l' => cur' ← strict_step cur e; strict_replay cur' l'
  end.

Lemma strict_step_project cur e cur' : strict_step cur e = Some cur' -> project cur e = cur'.
Proof.
  unfold strict_step, project.
  destruct (ComponentBinding.state e), (cur !! ComponentBinding.key e); try done;
    try destruct (bool_decide _); naive_solver.
Qed.

Lemma strict_replay_app cur l l' :
  strict_replay cur (l ++ l') = (cur' ← strict_replay cur l; strict_replay cur' l').
Proof.
  revert cur. induction l as [|e l IH]; intros cur; cbn; [done|].
  destruct (strict_step cur e); cbn; [apply IH|done].
Qed.

(** The only instances a projection holds were activated for their slot. *)
Definition keyed (cur : gmap string cevent) : Prop :=
  map_Forall (fun k e => ComponentBinding.key e = k /\ ComponentBinding.state e = B_ACTIVE) cur.

Lemma strict_step_keyed cur e cur' : keyed cur -> strict_step cur e = Some cur' -> keyed cur'.
Proof.
  intros Hk Hs. unfold strict_step in Hs.
  destruct (ComponentBinding.state e) eqn:Hst, (cur !! ComponentBinding.key e); try done;
    try destruct (bool_decide _); simplify_eq.
  - by apply map_Forall_insert_2.
  - by apply map_Forall_delete.
  - by apply map_Forall_delete.
Qed.

Lemma strict_replay_keyed l cur cur' : keyed cur -> strict_replay cur l = Some cur' -> keyed cur'.
Proof.
  revert cur. induction l as [|e l IH]; intros cur Hk Hr; cbn in Hr; [naive_solver|].
  destruct (strict_step cur e) as [c1|] eqn:Hs; [|done]. eapply IH; [|exact Hr].
  by eapply strict_step_keyed.
Qed.

Section Store_props.
Context (canonical_hash : cevent -> string) (batch_hash : list cevent -> string).
(** [hashlib.sha256(...).hexdigest()] is a lowercase SHA-256 digest. *)
Hypothesis hash_digest : forall e, is_sha256 (canonical_hash e) = true.

Definition finalized (e : cevent) : Prop :=
  ComponentBinding.post_init e = Ok tt /\
  ComponentBinding.binding_hash e = ComponentBinding.compute_hash canonical_hash e.

(** Every event before the pending ones is in a segment. *)
Definition covered (h : list cevent) (s : t) : Prop :=
  exists n, pending_events s = drop n h /\ (n <= length h)%nat /\
    forall i e, (i < n)%nat -> h !! i = Some e -> exists seg, seg ∈ segments s /\ e ∈ seg.

(** [h] is the history of [s]; a [tidy] store has nothing but its history in its files. *)
Record hist_ok (tidy : bool) (h : list cevent) (s : t) : Prop := HistOk {
  ok_events : Forall (fun e => finalized e /\ ComponentBinding.ident e = self_identity s) h;
  ok_contiguous : ComponentBinding.binding_sequence <$> h = seqZ 1 (Z.of_nat (length h));
  ok_sequence : sequence s = Z.of_nat (length h);
  ok_replay : strict_replay ∅ h = Some (current s);
  ok_covered : covered h s;
  ok_segments : Forall (fun seg => seg <> [] /\ exists pre post, h = pre ++ seg ++ post) (segments s);
  ok_tidy : tidy = true -> h = concat (segments s) ++ pending_events s;
  ok_sizes : 1 <= current_publish_batch_size s /\ 1 <= event_publish_batch_size s;
  ok_published :
    match current_json s with
    | Some (rev, l) =>
        0 <= published_sequence s <= rev /\ rev <= sequence s /\
        exists cur, strict_replay ∅ (take (Z.to_nat rev) h) = Some cur
                    /\ l = sorted_bindings cur
    | None => False
    end;
}.

Definition store_ok (s : t) : Prop := exists tidy h, hist_ok tidy h s.

Lemma hist_ok_weaken tidy tidy' h s :
  (tidy' = true -> tidy = true) -> hist_ok tidy h s -> hist_ok tidy' h s.
Proof. intros Ht [H1 H2 H3 H4 H5 H6 H7 H8 H9]. split; auto. Qed.

Lemma compute_hash_with_hash h e :
  ComponentBinding.compute_hash canonical_hash (ComponentBinding.with_hash h e)
  = ComponentBinding.compute_hash canonical_hash e.
Proof. done. Qed.

(** Setting a digest keeps the constructor's checks. *)
Lemma post_init_with_hash e h :
  ComponentBinding.post_init e = Ok tt -> is_sha256 h = true ->
  ComponentBinding.post_init (ComponentBinding.with_hash h e) = Ok tt.
Proof.
  intros Hp Hh. unfold ComponentBinding.post_init in *. cbn [ComponentBinding.with_hash
    ComponentBinding.schema_version ComponentBinding.ident ComponentBinding.receipt_requirement_id
    ComponentBinding.component_id ComponentBinding.instance_id ComponentBinding.owner_scope
    ComponentBinding.owner_rank ComponentBinding.node_id ComponentBinding.bound_at
    ComponentBinding.state ComponentBinding.binding_sequence ComponentBinding.supersedes_instance_id
    ComponentBinding.binding_hash].
  apply bind_Ok in Hp as (u1 & -> & Hp). cbn [mbind result_bind].
  apply bind_Ok in Hp as (u2 & -> & Hp). cbn [mbind result_bind].
  apply bind_Ok in Hp as (u3 & -> & Hp). cbn [mbind result_bind].
  apply bind_Ok in Hp as (u4 & _ & Hp).
  assert (require_sha256 h true = Ok tt) as ->; [|exact Hp].
  unfold require_sha256, plan_raise_if. rewrite Hh. by destruct (_ && _).
Qed.

Lemma build_ok e :
  ComponentBinding.post_init e = Ok tt ->
  exists e', ComponentBinding.build canonical_hash e = Ok e' /\
    e' = ComponentBinding.with_hash (ComponentBinding.compute_hash canonical_hash e) e /\ finalized e'.
Proof.
  intros Hp. unfold ComponentBinding.build, ComponentBinding.finalize. rewrite Hp. cbn [mbind result_bind].
  rewrite (post_init_with_hash e (ComponentBinding.compute_hash canonical_hash e) Hp (hash_digest _)).
  cbn [mbind result_bind]. eexists. split_and!; [done..|].
  split; [by apply post_init_with_hash; [|apply hash_digest]|done].
Qed.

Lemma build_finalized e : finalized e -> ComponentBinding.build canonical_hash e = Ok e.
Proof.
  intros [Hp Hh]. destruct (build_ok e Hp) as (e' & -> & -> & _). rewrite <- Hh. by destruct e.
Qed.

(** ** Publishing *)

Lemma sequences_lookup (l : list cevent) i e :
  ComponentBinding.binding_sequence <$> l = seqZ 1 (Z.of_nat (length l)) ->
  l !! i = Some e -> ComponentBinding.binding_sequence e = 1 + Z.of_nat i.
Proof.
  intros Hs Hi. assert ((ComponentBinding.binding_sequence <$> l) !! i
    = Some (ComponentBinding.binding_sequence e)) as Hl by by rewrite list_lookup_fmap, Hi.
  rewrite Hs in Hl. apply lookup_seqZ in Hl. lia.
Qed.

(** The last pending event is later than any in a segment. *)
Definition fresh_tail (s : t) : Prop :=
  forall e, last (pending_events s) = Some e ->
  forall seg x, seg ∈ segments s -> x ∈ seg ->
    ComponentBinding.binding_sequence x < ComponentBinding.binding_sequence e.

(** Then the name of the next segment is new. *)
Lemma segment_fresh tidy h s :
  hist_ok tidy h s -> fresh_tail s -> pending_events s <> [] ->
  segment_name batch_hash (pending_events s) ∉ segment_name batch_hash <$> segments s.
Proof.
  intros Hok Hf Hne (seg & Hname & Hin)%list_elem_of_fmap. injection Hname as _ Hlast _.
  destruct (last (pending_events s)) as [e|] eqn:He; [|by apply last_None in He].
  pose proof (ok_segments _ _ _ Hok) as Hs. rewrite Forall_forall in Hs. destruct (Hs seg Hin) as [Hsne _].
  destruct (last seg) as [x|] eqn:Hx; [|by apply last_None in Hx]. injection Hlast as Hlast.
  pose proof (Hf e He seg x Hin (last_Some_elem_of _ _ Hx)). lia.
Qed.

(** In a tidy store the pending events come after the segments. *)
Lemma tidy_fresh h s : hist_ok true h s -> fresh_tail s.
Proof.
  intros Hok e He seg x Hseg Hx. pose proof (ok_tidy _ _ _ Hok eq_refl) as Hh.
  pose proof (ok_contiguous _ _ _ Hok) as Hc. rewrite Hh in Hc.
  assert (exists i, concat (segments s) !! i = Some x) as [i Hi].
  { apply list_elem_of_lookup, list_elem_of_In, in_concat. exists seg. by rewrite <- !list_elem_of_In. }
  apply last_Some_elem_of in He. apply list_elem_of_lookup in He as [j Hj].
  pose proof (lookup_lt_Some _ _ _ Hi) as Hlt.
  pose proof (sequences_lookup _ i x Hc) as H1. rewrite lookup_app_l in H1 by done.
  pose proof (sequences_lookup _ (length (concat (segments s)) + j) e Hc) as H2.
  rewrite lookup_app_r, Nat.add_comm, Nat.add_sub in H2 by lia. specialize (H1 Hi). specialize (H2 Hj). lia.
Qed.

(** The segment that is made is not left behind by a raising call. *)
Definition settled (w : write_outcome) : bool := bool_decide (w <> Undurable).

Lemma covered_publish n h s :
  pending_events s = drop n h -> (n <= length h)%nat ->
  (forall i e, (i < n)%nat -> h !! i = Some e -> exists seg, seg ∈ segments s /\ e ∈ seg) ->
  forall i e, h !! i = Some e -> exists seg, seg ∈ segments s ++ [pending_events s] /\ e ∈ seg.
Proof.
  intros Hp Hn Hcov i e Hi. destruct (decide (i < n)%nat) as [Hlt|Hge].
  - destruct (Hcov i e Hlt Hi) as (seg & Hs & He). exists seg. split; [|done]. apply elem_of_app. by left.
  - exists (pending_events s). split; [apply elem_of_app; right; by left|]. rewrite Hp.
    apply list_elem_of_lookup. exists (i - n)%nat. rewrite lookup_drop. by replace (n + (i - n))%nat with i by lia.
Qed.

(** What publishing does: memory is kept, the pending events become a segment. *)
Lemma publish_pending_spec tidy h w s :
  hist_ok tidy h s ->
  exists s' r, publish_pending_events batch_hash w s = (s', r) /\ hist_ok (tidy && settled w) h s' /\
    current s' = current s /\ sequence s' = sequence s /\ self_identity s' = self_identity s /\
    (w = Written -> fresh_tail s -> r = Ok tt /\ pending_events s' = []).
Proof.
  intros Hok. assert (hist_ok (tidy && settled w) h s) as Hsame
    by (eapply hist_ok_weaken; [|exact Hok]; by intros [? _]%andb_prop).
  unfold publish_pending_events. destruct (pending_events s) as [|e0 rest] eqn:Hp.
  { exists s, (Ok tt). split_and!; done. }
  pose proof (segment_fresh _ _ _ Hok) as Hfresh. rewrite Hp in Hfresh.
  destruct (bool_decide (w <> NotWritten) && _) eqn:Hex.
  { eexists _, _. split_and!; try done. intros -> Hf. exfalso. bool_prop. by apply (Hfresh Hf). }
  destruct (ok_covered _ _ _ Hok) as (n & Hpn & Hn & Hcov).
  pose proof (covered_publish n h s Hpn Hn Hcov) as Hall. rewrite Hp in Hall, Hpn.
  assert (Forall (fun seg => seg <> [] /\ exists pre post, h = pre ++ seg ++ post) (segments s ++ [e0 :: rest])) as Hsegs.
  { apply Forall_app. split; [apply Hok|]. apply Forall_singleton. split; [done|]. exists (take n h), [].
    rewrite app_nil_r, Hpn. by rewrite take_drop. }
  destruct Hok as [H1 H2 H3 H4 H5 H6 H7 H8 H9].
  destruct w; cbn [atomic_write]; eexists _, _; (split; [reflexivity|]); (split_and!; [|done..|try done]).
  - split; try done.
    + exists (length h). cbn. split_and!; [by rewrite drop_all|done|]. intros i e _. apply Hall.
    + intros [Ht _]%andb_prop. cbn. rewrite (H7 Ht) at 1. rewrite Hp, concat_app. cbn. by rewrite !app_nil_r.
  - cbn. rewrite <- Hp. destruct s. exact Hsame.
  - split; try done.
    + exists n. cbn. split_and!; try done. intros i e _. apply Hall.
    + intros [_ Ht]%andb_prop. done.
Qed.

Lemma publish_current_spec tidy h w s :
  hist_ok tidy h s ->
  exists s' r, publish_current w s = (s', r) /\ hist_ok tidy h s' /\ current s' = current s /\
    sequence s' = sequence s /\ self_identity s' = self_identity s /\ pending_events s' = pending_events s /\
    segments s' = segments s /\ (w = Written -> r = Ok tt /\ published_sequence s' = sequence s').
Proof.
  intros [H1 H2 H3 H4 H5 H6 H7 H8 H9]. unfold publish_current.
  assert (strict_replay ∅ (take (Z.to_nat (sequence s)) h) = Some (current s)) as Hall
    by by rewrite H3, Nat2Z.id, firstn_all.
  assert (0 <= published_sequence s <= sequence s) as Hps.
  { destruct (current_json s) as [[rev l]|]; [|done]. lia. }
  destruct w; cbn [atomic_write]; eexists _, _; (split; [reflexivity|]); (split_and!; [|done..]);
    split; try done; cbn; (split_and!; [lia..|]); by exists (current s).
Qed.

Definition durable (io : barrier_io) : bool := settled (bi_segment io).

Lemma barrier_spec tidy h io pc s :
  hist_ok tidy h s ->
  exists s' r, publish_barrier batch_hash io pc s = (s', r) /\ hist_ok (tidy && durable io) h s' /\
    current s' = current s /\ sequence s' = sequence s /\ self_identity s' = self_identity s /\
    (io = barrier_done -> fresh_tail s -> r = Ok tt /\ pending_events s' = [] /\
       (pc = true -> published_sequence s' = sequence s')).
Proof.
  intros Hok. assert (hist_ok (tidy && durable io) h s) as Hsame
    by (eapply hist_ok_weaken; [|exact Hok]; by intros [? _]%andb_prop).
  unfold publish_barrier.
  destruct (bi_lease io) eqn:Hle; [|eexists _, _; split_and!; try done; by intros ->..].
  unfold publish_held.
  destruct (publish_pending_spec tidy h (bi_segment io) s Hok) as (s1 & r1 & -> & Hok1 & Hc1 & Hs1 & Hi1 & Hw1).
  destruct r1 as [[]|e].
  2: { eexists _, _. split_and!; try done. intros -> Hf. by destruct (Hw1 eq_refl Hf). }
  destruct (pc && negb (published_sequence s1 =? sequence s1)) eqn:Hb.
  - destruct (publish_current_spec _ _ (bi_current io) s1 Hok1) as (s2 & r2 & -> & Hok2 & Hc2 & Hs2 & Hi2 & Hp2 & _ & Hw2).
    eexists _, _. split_and!; try done; [congruence..|]. intros -> Hf. destruct (Hw1 eq_refl Hf) as [_ Hp1].
    destruct (Hw2 eq_refl) as [-> Hps]. split_and!; try done. congruence.
  - eexists _, _. split_and!; try done. intros -> Hf. destruct (Hw1 eq_refl Hf) as [_ Hp1]. split_and!; try done.
    intros ->. cbn in Hb. bool_prop. done.
Qed.

(** ** Appending *)

Lemma append_spec tidy h io e s cur' :
  hist_ok tidy h s -> finalized e -> ComponentBinding.ident e = self_identity s ->
  ComponentBinding.binding_sequence e = sequence s + 1 ->
  strict_step (current s) e = Some cur' ->
  exists s' r, append canonical_hash batch_hash io e s = (s', r) /\ hist_ok (tidy && durable io) (h ++ [e]) s' /\
    current s' = cur' /\ sequence s' = sequence s + 1 /\
    self_identity s' = self_identity s /\ (io = barrier_done -> r = Ok tt).
Proof.
  intros Hok Hfin Hid Hseq Hstep. unfold append, verify_identity.
  rewrite bool_decide_eq_true_2 by done. cbn [negb raise_if].
  rewrite bool_decide_eq_true_2 by apply Hfin. cbn [negb].
  rewrite (strict_step_project _ _ _ Hstep), Hseq.
  set (s1 := set_memory _ _ _ s).
  assert (fresh_tail s1) as Hfresh.
  { intros e' He' seg x Hseg Hx. cbn in He'. rewrite last_snoc in He'. injection He' as <-. rewrite Hseq.
    destruct Hok as [_ H2 H3 _ _ H6 _ _ _]. rewrite Forall_forall in H6. destruct (H6 seg Hseg) as (_ & pre & post & ->).
    assert (x ∈ pre ++ seg ++ post) as [i Hi]%list_elem_of_lookup by (rewrite !elem_of_app; auto).
    pose proof (sequences_lookup _ i x H2 Hi). apply lookup_lt_Some in Hi. lia. }
  assert (hist_ok tidy (h ++ [e]) s1) as Hok1.
  { destruct Hok as [H1 H2 H3 H4 (n & H5 & Hn & Hcov) H6 H7 H8 H9]. split; rewrite ?length_app; try done.
    - apply Forall_app. split; [done|]. by apply Forall_singleton.
    - rewrite fmap_app, H2. cbn. rewrite Nat2Z.inj_add, seqZ_app by lia. f_equal.
      cbn. rewrite Hseq, H3, seqZ_cons, seqZ_nil by lia. f_equal. lia.
    - cbn. lia.
    - rewrite strict_replay_app, H4. cbn. by rewrite Hstep.
    - exists n. cbn. rewrite H5, length_app, drop_app_le by done. split_and!; [done|lia|].
      intros i x Hi. rewrite lookup_app_l by lia. by apply Hcov.
    - eapply Forall_impl; [exact H6|]. intros seg (Hne & pre & post & ->). split; [done|].
      exists pre, (post ++ [e]). by rewrite <- !app_assoc.
    - intros Ht. cbn. by rewrite app_assoc, <- (H7 Ht).
    - cbn. destruct (current_json s) as [[rev l]|]; [|done]. destruct H9 as (Hr & Hrs & Hcur).
      split_and!; try lia; try done. rewrite take_app_le by lia. done. }
  destruct (_ || _).
  - destruct (barrier_spec tidy (h ++ [e]) io (current_publish_batch_size s1 <=? sequence s1 - published_sequence s1)
      s1 Hok1) as (s' & r & -> & Hok' & Hc & Hs & Hi & Ht).
    eexists _, _. split_and!; try done. intros ?. by apply Ht.
  - eexists _, _. split_and!; try done. eapply hist_ok_weaken; [|exact Hok1]. by intros [? _]%andb_prop.
Qed.

(** ** Binding and revoking *)

Lemma store_ok_current tidy h s slot c :
  hist_ok tidy h s -> current s !! slot = Some c ->
  finalized c /\ ComponentBinding.ident c = self_identity s /\ ComponentBinding.key c = slot /\
  ComponentBinding.state c = B_ACTIVE.
Proof.
  intros Hok Hc. pose proof (strict_replay_keyed h ∅ (current s)
    (map_Forall_empty _) (ok_replay _ _ _ Hok) slot c Hc) as [Hk Hst].
  assert (forall l cur cur', strict_replay cur l = Some cur' ->
    (forall k x, cur !! k = Some x -> x ∈ h) -> (forall x, x ∈ l -> x ∈ h) ->
    forall k x, cur' !! k = Some x -> x ∈ h) as Hin.
  { clear. induction l as [|e l IH]; intros cur cur' Hr Hcur Hl; cbn in Hr; [naive_solver|].
    destruct (strict_step cur e) as [c1|] eqn:Hs; [|done]. eapply IH; [exact Hr| |set_solver].
    intros k x Hx. apply strict_step_project in Hs as <-. unfold project in Hx.
    destruct (ComponentBinding.state e); [|destruct (cur !! _); [destruct (bool_decide _)|]..];
      rewrite ?lookup_insert_Some, ?lookup_delete_Some in Hx; naive_solver (set_solver). }
  specialize (Hin _ _ _ (ok_replay _ _ _ Hok) ltac:(intros ?? Hx; by rewrite lookup_empty in Hx)
    ltac:(done) slot c Hc).
  pose proof (ok_events _ _ _ Hok) as Hall. rewrite Forall_forall in Hall.
  destruct (Hall c Hin) as [? ?]. done.
Qed.

(** Retiring a live instance: the constructor of the event cannot raise. *)
Lemma post_init_retire st n c :
  0 <= n -> ComponentBinding.post_init c = Ok tt ->
  ComponentBinding.post_init (ComponentBinding.retire st n c) = Ok tt.
Proof.
  intros Hn Hp. unfold ComponentBinding.post_init in *. cbn [ComponentBinding.retire
    ComponentBinding.schema_version ComponentBinding.ident ComponentBinding.receipt_requirement_id
    ComponentBinding.component_id ComponentBinding.instance_id ComponentBinding.owner_scope
    ComponentBinding.owner_rank ComponentBinding.node_id ComponentBinding.bound_at
    ComponentBinding.state ComponentBinding.binding_sequence ComponentBinding.supersedes_instance_id
    ComponentBinding.binding_hash].
  apply bind_Ok in Hp as (u1 & -> & Hp). apply bind_Ok in Hp as (u2 & -> & Hp).
  apply bind_Ok in Hp as (u3 & -> & Hp). apply bind_Ok in Hp as (u4 & _ & Hp).
  apply bind_Ok in Hp as (u5 & -> & Hp). apply bind_Ok in Hp as (u6 & _ & Hp).
  cbn [mbind result_bind]. change (require_sha256 EmptyString true) with (Ok tt : plan_result unit).
  cbn [mbind result_bind]. unfold plan_raise_if at 1. rewrite (proj2 (Z.ltb_ge n 0)) by lia.
  exact Hp.
Qed.

Lemma append_retired_spec tidy h io st slot c s :
  st <> B_ACTIVE -> hist_ok tidy h s -> current s !! slot = Some c ->
  exists s' r e, append_retired canonical_hash batch_hash io st c s = (s', r) /\
    hist_ok (tidy && durable io) (h ++ [e]) s' /\
    ComponentBinding.state e = st /\ ComponentBinding.key e = slot /\
    current s' = delete slot (current s) /\
    self_identity s' = self_identity s /\ (io = barrier_done -> r = Ok tt).
Proof.
  intros Hst Hok Hc. destruct (store_ok_current _ _ s slot c Hok Hc) as ([Hp _] & Hid & Hkey & _).
  unfold append_retired. pose proof (ok_sequence _ _ _ Hok).
  destruct (build_ok (ComponentBinding.retire st (sequence s + 1) c)) as (e & -> & He & Hfin).
  { apply post_init_retire; [lia|done]. }
  cbn [lift_plan].
  assert (ComponentBinding.key e = slot /\ ComponentBinding.state e = st /\
          ComponentBinding.instance_id e = ComponentBinding.instance_id c) as (Hke & Hse & Hie)
    by by subst e.
  destruct (append_spec tidy h io e s (delete slot (current s)) Hok Hfin)
    as (s' & r & -> & Hok' & Hcur & Hseq & Hi & Hr); [by subst e..| |by exists s', r, e].
  unfold strict_step. rewrite Hke, Hse, Hie, Hc, bool_decide_eq_true_2 by done. by destruct st.
Qed.

(** What the ledger guarantees of a receipt it binds. *)
Definition bindable (r : Receipt.t) : Prop :=
  nonempty (Receipt.receipt_requirement_id r) = true /\
  nonempty (Receipt.component_id r) = true /\ nonempty (Receipt.instance_id r) = true /\
  nonempty (Receipt.node_id r) = true /\
  ((Receipt.owner_scope r = "GLOBAL" /\ Receipt.owner_rank r = None) \/
   (Receipt.owner_scope r = "RANK" /\ exists n, Receipt.owner_rank r = Some n /\ 0 <= n)).

Definition identity_ok (i : identity) : Prop :=
  nonempty (id_deployment_id i) = true /\ 0 <= id_generation i /\
  is_sha256 (id_deployment_plan_hash i) = true /\ is_sha256 (id_site_profile_hash i) = true /\
  is_sha256 (id_allocation_binding_hash i) = true.

Definition good_clock (now : float) : Prop :=
  Float.is_finite now = true /\ Float.ltb now Float.zero = false.

Lemma post_init_active now sup r s :
  bindable r -> identity_ok (self_identity s) -> good_clock now -> 0 <= sequence s ->
  (forall i, sup = Some i -> nonempty i = true /\ i <> Receipt.instance_id r) ->
  ComponentBinding.post_init (active_event now sup r s) = Ok tt.
Proof.
  intros (Hr1 & Hr2 & Hr3 & Hr4 & Hown) (Hi1 & Hi2 & Hi3 & Hi4 & Hi5) [Hf Hpos] Hseq Hsup.
  unfold ComponentBinding.post_init, active_event, require_schema_version, require_sha256, plan_raise_if.
  cbn -[nonempty is_sha256 Float.is_finite Float.ltb]. rewrite Hi1, Hr1, Hr2, Hr3, Hr4.
  cbn -[nonempty is_sha256 Float.is_finite Float.ltb]. rewrite Hi3, Hi4, Hi5.
  cbn -[nonempty is_sha256 Float.is_finite Float.ltb].
  rewrite !(proj2 (Z.ltb_ge _ _)) by lia. cbn -[nonempty is_sha256 Float.is_finite Float.ltb].
  rewrite Hf, Hpos. cbn -[nonempty].
  assert (match sup with Some x => negb (nonempty x) || bool_decide (x = Receipt.instance_id r)
          | None => false end = false) as Hs.
  { destruct sup as [i|]; [|done]. destruct (Hsup i eq_refl) as [-> Hne]. cbn.
    by rewrite bool_decide_eq_false_2. }
  destruct Hown as [[-> ->]|[-> (n & -> & Hn)]]; cbn -[nonempty].
  - by rewrite Hs.
  - rewrite (proj2 (Z.ltb_ge n 0)) by lia. cbn -[nonempty]. by rewrite Hs.
Qed.

Lemma append_active_spec tidy h io now sup r s :
  hist_ok tidy h s -> current s !! Receipt.receipt_requirement_id r = None ->
  bindable r -> identity_ok (self_identity s) -> good_clock now ->
  (forall i, sup = Some i -> nonempty i = true /\ i <> Receipt.instance_id r) ->
  exists s' e res, append_active canonical_hash batch_hash io now sup r s = (s', res) /\
    hist_ok (tidy && durable io) (h ++ [e]) s' /\
    current s' = <[Receipt.receipt_requirement_id r := e]> (current s) /\
    ComponentBinding.instance_id e = Receipt.instance_id r /\
    self_identity s' = self_identity s /\
    (forall e', res = Ok e' -> e' = e) /\ (io = barrier_done -> res = Ok e).
Proof.
  intros Hok Hnone Hb Hid Hnow Hsup. unfold append_active.
  pose proof (ok_sequence _ _ _ Hok) as Hseq.
  destruct (build_ok (active_event now sup r s)) as (e & -> & He & Hfin);
    [apply post_init_active; auto; lia|]. cbn [lift_plan].
  assert (ComponentBinding.key e = Receipt.receipt_requirement_id r /\
          ComponentBinding.state e = B_ACTIVE) as [Hke Hse] by by subst e.
  destruct (append_spec tidy h io e s (<[Receipt.receipt_requirement_id r := e]> (current s)) Hok Hfin)
    as (s' & res & -> & Hok' & Hc & Hs & Hi & Hr); [by subst e..| |].
  { unfold strict_step. by rewrite Hke, Hse, Hnone. }
  destruct res as [[]|err].
  - exists s', e, (Ok e). split_and!; try done; [by subst e|by intros e' [= <-]].
  - exists s', e, (Err err). split_and!; try done; [by subst e|]. intros ->. by specialize (Hr eq_refl).
Qed.

(** Binding changes no other slot; when it returns the slot has the receipt's instance. *)
Lemma bind_receipt_spec tidy h io1 io2 now r s :
  hist_ok tidy h s -> bindable r -> identity_ok (self_identity s) -> good_clock now ->
  exists s' res h', bind_receipt canonical_hash batch_hash (io1, io2) now r s = (s', res) /\
    hist_ok (tidy && durable io1 && durable io2) h' s' /\ self_identity s' = self_identity s /\
    (forall k, k <> Receipt.receipt_requirement_id r -> current s' !! k = current s !! k) /\
    (forall e, res = Ok e -> current s' !! Receipt.receipt_requirement_id r = Some e /\
       ComponentBinding.instance_id e = Receipt.instance_id r) /\
    (io1 = barrier_done -> io2 = barrier_done -> exists e, res = Ok e).
Proof.
  intros Hok Hb Hid Hnow. unfold bind_receipt. set (slot := Receipt.receipt_requirement_id r).
  destruct (current s !! slot) as [c|] eqn:Hc.
  - destruct (bool_decide (ComponentBinding.instance_id c = Receipt.instance_id r)) eqn:Hsame; bool_prop.
    { eexists _, _, h. split_and!; try done; [|by intros e [= <-]|by eexists].
      eapply hist_ok_weaken; [|exact Hok]. by intros [[? _]%andb_prop _]%andb_prop. }
    destruct (append_retired_spec tidy h io1 B_SUPERSEDED slot c s ltac:(done) Hok Hc)
      as (s1 & r1 & e1 & Heq & Hok1 & _ & _ & Hc1 & Hi1 & Hr1). cbn [fst snd]. rewrite Heq.
    destruct r1 as [[]|err].
    2: { eexists _, _, _. split_and!; try done; [| |by intros ->; specialize (Hr1 eq_refl)].
         - eapply hist_ok_weaken; [|exact Hok1]. by intros [? _]%andb_prop.
         - intros k Hk. rewrite Hc1. by apply lookup_delete_ne. }
    destruct (append_active_spec _ _ io2 now (Some (ComponentBinding.instance_id c)) r s1 Hok1)
      as (s2 & e2 & r2 & -> & Hok2 & Hc2 & Hin & Hi2 & He2 & Hr2); try done.
    + rewrite Hc1. apply lookup_delete_eq.
    + by rewrite Hi1.
    + intros i [= <-]. split; [|done].
      destruct (store_ok_current _ _ s slot c Hok Hc) as ([Hp _] & _).
      unfold ComponentBinding.post_init, plan_raise_if in Hp. res_inv.
      rewrite !Forall_cons in *. destruct_and!. res_inv. bool_prop. done.
    + eexists _, _, _. split_and!; try done; [congruence| | |].
      * intros k Hk. rewrite Hc2, lookup_insert_ne, Hc1 by done. by apply lookup_delete_ne.
      * intros e He. rewrite (He2 e He), Hc2, lookup_insert_eq. done.
      * intros _ Hl2. eauto.
  - cbn [fst snd]. destruct (append_active_spec tidy h io2 now None r s Hok Hc Hb Hid Hnow ltac:(done))
      as (s2 & e2 & r2 & -> & Hok2 & Hc2 & Hin & Hi2 & He2 & Hr2).
    eexists _, _, _. split_and!; try done.
    + eapply hist_ok_weaken; [|exact Hok2]. intros [[? _]%andb_prop ?]%andb_prop. by apply andb_true_intro.
    + intros k Hk. rewrite Hc2. by apply lookup_insert_ne.
    + intros e He. rewrite (He2 e He), Hc2, lookup_insert_eq. done.
    + eauto.
Qed.

Lemma revoke_slot_spec tidy h io slot s :
  hist_ok tidy h s ->
  exists s' res h', revoke_slot canonical_hash batch_hash io slot s = (s', res) /\
    hist_ok (tidy && durable io) h' s' /\
    self_identity s' = self_identity s /\ current s' = delete slot (current s) /\
    (io = barrier_done -> res = Ok (bool_decide (is_Some (current s !! slot)))).
Proof.
  intros Hok. unfold revoke_slot. destruct (current s !! slot) as [c|] eqn:Hc.
  - destruct (append_retired_spec tidy h io B_REVOKED slot c s ltac:(done) Hok Hc)
      as (s' & r & e & -> & Hok' & _ & _ & Hc' & Hi & Hr).
    destruct r as [[]|err]; eexists _, _, _; split_and!; try done; intros ->; by specialize (Hr eq_refl).
  - eexists _, _, h. split_and!; try done; [|by rewrite delete_id].
    eapply hist_ok_weaken; [|exact Hok]. by intros [? _]%andb_prop.
Qed.

(** ** Recovery *)

Lemma decode_events_finalized l : Forall finalized l -> decode_events canonical_hash l = Ok l.
Proof.
  induction 1 as [|e l He Hl IH]; cbn; [done|]. unfold decode_event.
  rewrite (build_finalized e He), bool_decide_eq_true_2 by done. cbn. by rewrite IH.
Qed.

Definition memory_of (s : t) : gmap string cevent * Z := (current s, sequence s).

Lemma apply_recovered_events l s :
  Forall (fun e => ComponentBinding.ident e = self_identity s) l ->
  ComponentBinding.binding_sequence <$> l = seqZ (sequence s + 1) (Z.of_nat (length l)) ->
  fold_res apply_recovered_event s l =
  Ok (set_memory (foldl project (current s) l) (sequence s + Z.of_nat (length l))
        (pending_events s) s).
Proof.
  revert s. induction l as [|e l IH]; intros s Hid Hseq; cbn [fold_res].
  { cbn. rewrite Z.add_0_r. by destruct s. }
  inversion_clear Hid as [|?? He Hl]. cbn [fmap list_fmap length] in Hseq.
  rewrite Nat2Z.inj_succ, seqZ_cons, Z.pred_succ in Hseq by lia. injection Hseq as Hs Hseq.
  assert (apply_recovered_event s e =
    Ok (set_memory (project (current s) e) (sequence s + 1) (pending_events s) s)) as ->.
  { unfold apply_recovered_event, verify_identity. rewrite bool_decide_eq_true_2 by done.
    cbn [negb raise_if mbind result_bind]. by rewrite Hs, Z.eqb_refl. }
  cbn [mbind result_bind]. rewrite IH; [|done|cbn; rewrite Hseq; f_equal; lia].
  cbn [set_memory current sequence pending_events length foldl]. unfold set_memory. cbn.
  by replace (sequence s + 1 + Z.of_nat (length l)) with (sequence s + Z.of_nat (S (length l))) by lia.
Qed.

Lemma strict_replay_foldl l cur cur' :
  strict_replay cur l = Some cur' -> foldl project cur l = cur'.
Proof.
  revert cur. induction l as [|e l IH]; intros cur Hr; cbn in *; [naive_solver|].
  destruct (strict_step cur e) as [c1|] eqn:Hs; [|done].
  rewrite (strict_step_project _ _ _ Hs). by apply IH.
Qed.

Lemma recover_segments segs s :
  Forall (fun e => finalized e /\ ComponentBinding.ident e = self_identity s) (concat segs) ->
  Forall (fun seg => seg <> []) segs ->
  ComponentBinding.binding_sequence <$> concat segs
    = seqZ (sequence s + 1) (Z.of_nat (length (concat segs))) ->
  fold_res (recover_segment canonical_hash) s segs =
  Ok (set_memory (foldl project (current s) (concat segs))
        (sequence s + Z.of_nat (length (concat segs))) (pending_events s) s).
Proof.
  revert s. induction segs as [|seg segs IH]; intros s Hall Hne Hseq; cbn [fold_res concat] in *.
  { cbn. rewrite Z.add_0_r. by destruct s. }
  apply Forall_app in Hall as [Hseg Hall]. inversion_clear Hne as [|?? Hn Hns].
  rewrite fmap_app, length_app, Nat2Z.inj_add, seqZ_app in Hseq by lia.
  apply app_inj_1 in Hseq as [Hs1 Hs2]; [|rewrite length_fmap, length_seqZ; lia].
  assert (recover_segment canonical_hash s seg =
    Ok (set_memory (foldl project (current s) seg) (sequence s + Z.of_nat (length seg))
          (pending_events s) s)) as ->.
  { unfold recover_segment, decode_batch. destruct seg as [|x seg]; [done|].
    rewrite decode_events_finalized by (eapply Forall_impl; [exact Hseg|]; by intros ? [? _]).
    cbn [mbind result_bind]. rewrite Hs1, length_seqZ.
    assert (ComponentBinding.binding_sequence x = sequence s + 1) as ->.
    { cbn [fmap list_fmap length] in Hs1. rewrite seqZ_cons in Hs1 by lia. by injection Hs1. }
    rewrite Z2Nat.id by lia. rewrite bool_decide_eq_true_2 by done. cbn [negb raise_if mbind result_bind].
    apply apply_recovered_events; [eapply Forall_impl; [exact Hseg|]; by intros ? [_ ?]|done]. }
  cbn [mbind result_bind]. rewrite IH; [|done..|].
  - rewrite foldl_app, length_app, Nat2Z.inj_add, Z.add_assoc. done.
  - cbn. rewrite Hs2. f_equal. lia.
Qed.

(** Segments that number their events 1, 2, 3, ... and replay are a store's whole history. *)
Lemma open_tidy ident csize esize segs cur :
  Forall (fun e => finalized e /\ ComponentBinding.ident e = ident) (concat segs) ->
  Forall (fun seg => seg <> []) segs ->
  ComponentBinding.binding_sequence <$> concat segs = seqZ 1 (Z.of_nat (length (concat segs))) ->
  strict_replay ∅ (concat segs) = Some cur -> 1 <= csize -> 1 <= esize ->
  (forall w s', open_store canonical_hash ident csize esize w segs = Ok s' -> w = Written) /\
  exists s', open_store canonical_hash ident csize esize Written segs = Ok s' /\
    hist_ok true (concat segs) s' /\ segments s' = segs /\ pending_events s' = [] /\
    self_identity s' = ident /\ current s' = cur.
Proof.
  intros H1 H2 H3 H4 Hc He. unfold open_store. rewrite !(proj2 (Z.ltb_ge _ _)) by lia.
  cbn [orb raise_if mbind result_bind]. rewrite recover_segments by done. cbn [mbind result_bind].
  cbn -[concat]. rewrite (strict_replay_foldl _ _ _ H4). split.
  { intros w s'. unfold publish_current. by destruct w. }
  eexists. split; [reflexivity|]. split_and!; try done.
  split; cbn -[concat]; try done; try lia.
  - exists (length (concat segs)). cbn -[concat]. split_and!; [by rewrite drop_all|done|].
    intros i e _ Hi%list_elem_of_lookup_2. apply list_elem_of_In, in_concat in Hi as (seg & Hs & Hin).
    exists seg. by rewrite !list_elem_of_In.
  - apply Forall_forall. intros seg Hin. rewrite Forall_forall in H2. split; [by apply H2|].
    apply list_elem_of_split in Hin as (l1 & l2 & ->). exists (concat l1), (concat l2). by rewrite concat_app.
  - intros _. by rewrite app_nil_r.
  - split_and!; try lia. exists cur. split; [|done]. by rewrite firstn_all2 by lia.
Qed.

(** The events that were applied are numbered without a gap. *)
Lemma applied_numbers l s s' :
  fold_res apply_recovered_event s l = Ok s' ->
  ComponentBinding.binding_sequence <$> l = seqZ (sequence s + 1) (Z.of_nat (length l)) /\
  sequence s' = sequence s + Z.of_nat (length l) /\ self_identity s' = self_identity s.
Proof.
  revert s. induction l as [|e l IH]; intros s; cbn [fold_res].
  { intros [= <-]. cbn. split_and!; [done|lia|done]. }
  unfold apply_recovered_event at 2. intros H. res_inv. bool_prop. subst.
  match goal with H : fold_res _ _ _ = Ok _ |- _ => apply IH in H as (Hl & Hs & Hi) end. cbn in Hl, Hs, Hi.
  match goal with H : ComponentBinding.binding_sequence e = _ |- _ => rename H into Heq end.
  rewrite Heq in *. cbn [fmap list_fmap length]. rewrite Nat2Z.inj_succ, (seqZ_cons (sequence s + 1)), Z.pred_succ, Heq, Hl by lia.
  split_and!; [f_equal; f_equal; lia|lia|done].
Qed.

Lemma recovered_numbers segs s s' :
  Forall (fun e => finalized e /\ ComponentBinding.ident e = self_identity s) (concat segs) ->
  fold_res (recover_segment canonical_hash) s segs = Ok s' ->
  ComponentBinding.binding_sequence <$> concat segs = seqZ (sequence s + 1) (Z.of_nat (length (concat segs))).
Proof.
  revert s. induction segs as [|seg segs IH]; intros s Hall; cbn [fold_res concat] in *; [done|].
  apply Forall_app in Hall as [Hseg Hall]. intros H. apply bind_Ok in H as (s1 & Hs1 & H).
  unfold recover_segment in Hs1. apply bind_Ok in Hs1 as (decoded & Hd & Hs1).
  assert (decoded = seg) as ->.
  { unfold decode_batch in Hd. destruct seg as [|x seg]; [done|].
    rewrite decode_events_finalized in Hd by (eapply Forall_impl; [exact Hseg|]; by intros ? [? _]).
    cbn [mbind result_bind] in Hd. apply bind_Ok in Hd as (? & _ & [= <-]). done. }
  apply applied_numbers in Hs1 as (Hn & Hseq & Hid). rewrite <- Hid in Hall. apply IH in H; [|done].
  rewrite fmap_app, Hn, H, Hseq, length_app, Nat2Z.inj_add, seqZ_app by lia. f_equal. f_equal. lia.
Qed.

(** Reopening after a crash, when it succeeds, recovers exactly the segments, which are then the
    first events of the history. *)
Lemma reopen_spec tidy h s csize esize w s' :
  hist_ok tidy h s -> open_store canonical_hash (self_identity s) csize esize w (segments s) = Ok s' ->
  hist_ok true (concat (segments s)) s' /\ segments s' = segments s /\ pending_events s' = [] /\
  self_identity s' = self_identity s /\ concat (segments s) = take (length (concat (segments s))) h.
Proof.
  intros Hok Ho. pose proof (ok_segments _ _ _ Hok) as Hsegs. rewrite Forall_forall in Hsegs.
  assert (forall x, x ∈ concat (segments s) -> x ∈ h) as Hin.
  { intros x (seg & Hs & Hx)%list_elem_of_In%in_concat. apply list_elem_of_In in Hs, Hx.
    destruct (Hsegs seg Hs) as (_ & pre & post & ->). rewrite !elem_of_app. auto. }
  assert (Forall (fun e => finalized e /\ ComponentBinding.ident e = self_identity s) (concat (segments s))) as Hall.
  { apply Forall_forall. intros x Hx. pose proof (ok_events _ _ _ Hok) as Hev. rewrite Forall_forall in Hev. auto. }
  assert (1 <= csize /\ 1 <= esize) as [Hc He].
  { unfold open_store in Ho. apply bind_Ok in Ho as ([] & Hsz & _). apply raise_if_Ok in Hsz. bool_prop. lia. }
  assert (ComponentBinding.binding_sequence <$> concat (segments s) = seqZ 1 (Z.of_nat (length (concat (segments s))))) as Hnum.
  { unfold open_store in Ho. apply bind_Ok in Ho as ([] & _ & Ho). apply bind_Ok in Ho as (s1 & Hf & _).
    exact (recovered_numbers _ _ _ (Hall : Forall (fun e => _ /\ _ = self_identity (mk _ _ _ _ _ _ _ _ _)) _) Hf). }
  assert (concat (segments s) = take (length (concat (segments s))) h) as Hpre.
  { apply list_eq. intros i. destruct (concat (segments s) !! i) as [x|] eqn:Hi.
    - pose proof (sequences_lookup _ _ _ Hnum Hi) as E1. apply lookup_lt_Some in Hi as Hlt.
      apply list_elem_of_lookup_2 in Hi as (j & Hj)%Hin%list_elem_of_lookup.
      pose proof (sequences_lookup _ _ _ (ok_contiguous _ _ _ Hok) Hj) as E2.
      rewrite lookup_take_lt by done. rewrite <- Hj. f_equal. lia.
    - apply lookup_ge_None in Hi. by rewrite lookup_take_ge. }
  destruct (strict_replay ∅ (concat (segments s))) as [cur|] eqn:Hr.
  2: { exfalso. pose proof (ok_replay _ _ _ Hok) as Hrep. rewrite <- (take_drop (length (concat (segments s))) h) in Hrep.
       rewrite <- Hpre, strict_replay_app, Hr in Hrep. done. }
  destruct (open_tidy (self_identity s) csize esize (segments s) cur) as [Hw (s2 & Ho2 & Hok2 & H1 & H2 & H3 & _)]; try done.
  { apply Forall_forall. intros seg Hs. by apply Hsegs. }
  pose proof (Hw _ _ Ho) as ->. rewrite Ho2 in Ho. injection Ho as <-. by split_and!.
Qed.

(** The files of a tidy store can be opened again. *)
Lemma reopen_goes h s csize esize :
  hist_ok true h s -> 1 <= csize -> 1 <= esize ->
  exists s', open_store canonical_hash (self_identity s) csize esize Written (segments s) = Ok s'.
Proof.
  intros Hok Hc He. pose proof (ok_tidy _ _ _ Hok eq_refl) as Hh. pose proof Hok as [H1 H2 H3 H4 H5 H6 H7 H8 H9].
  rewrite Hh in H1, H2, H4. apply Forall_app in H1 as [H1 _].
  rewrite fmap_app, length_app, Nat2Z.inj_add, seqZ_app in H2 by lia.
  apply app_inj_1 in H2 as [H2 _]; [|rewrite length_fmap, length_seqZ; lia].
  rewrite strict_replay_app in H4.
  destruct (strict_replay ∅ (concat (segments s))) as [cur|] eqn:Hr; [|done].
  destruct (open_tidy (self_identity s) csize esize (segments s) cur) as [_ (s2 & Ho2 & _)]; try done; [|eauto].
  eapply Forall_impl; [exact H6|]. by intros seg [? _].
Qed.

(** ** Runs *)

Inductive bop : Type :=
| Bind (ios : barrier_io * barrier_io) (now : float) (r : Receipt.t)
| Revoke (io : barrier_io) (slot : string)
| Flush (io : barrier_io).

Definition bop_ok (o : bop) : Prop :=
  match o with
  | Bind _ now r => bindable r /\ good_clock now
  | _ => True
  end.

(** No segment of the call is left visible by a publication that raised. *)
Definition bop_durable (o : bop) : bool :=
  match o with
  | Bind ios _ _ => durable ios.1 && durable ios.2
  | Revoke io _ | Flush io => durable io
  end.

Definition bstep (s : t) (o : bop) : t :=
  match o with
  | Bind ios now r => (bind_receipt canonical_hash batch_hash ios now r s).1
  | Revoke io slot => (revoke_slot canonical_hash batch_hash io slot s).1
  | Flush io => (flush batch_hash io s).1
  end.

(** The stores of a run directory: a fresh one, calls that return or raise, and, after a crash of
    which only the files are left, the store that is opened on them. [tidy]: since the store was
    opened no call left a segment behind. *)
Inductive breachable (ident : identity) : bool -> t -> Prop :=
| breach_fresh csize esize w s :
    open_store canonical_hash ident csize esize w [] = Ok s -> breachable ident true s
| breach_step tidy s o :
    breachable ident tidy s -> bop_ok o -> breachable ident (tidy && bop_durable o) (bstep s o)
| breach_reopen tidy s csize esize w s' :
    breachable ident tidy s -> open_store canonical_hash ident csize esize w (segments s) = Ok s' ->
    breachable ident true s'.

Lemma fresh_ok ident csize esize w s :
  open_store canonical_hash ident csize esize w [] = Ok s -> hist_ok true [] s /\ self_identity s = ident.
Proof.
  intros Ho. assert (1 <= csize /\ 1 <= esize) as [Hc He].
  { unfold open_store in Ho. apply bind_Ok in Ho as ([] & Hsz & _). apply raise_if_Ok in Hsz. bool_prop. lia. }
  destruct (open_tidy ident csize esize [] ∅) as [Hw (s2 & Ho2 & Hok2 & _ & _ & H3 & _)]; try done.
  pose proof (Hw _ _ Ho) as ->. rewrite Ho2 in Ho. by injection Ho as <-.
Qed.

Lemma bstep_ok tidy h s o :
  hist_ok tidy h s -> identity_ok (self_identity s) -> bop_ok o ->
  (exists h', hist_ok (tidy && bop_durable o) h' (bstep s o)) /\ self_identity (bstep s o) = self_identity s.
Proof.
  intros Hok Hid Ho. destruct o as [[io1 io2] now r|io slot|io]; cbn [bstep bop_durable fst snd].
  - destruct Ho as [Hb Hn]. destruct (bind_receipt_spec tidy h io1 io2 now r s Hok Hb Hid Hn)
      as (s' & res & h' & -> & Hok' & Hi & _). split; [|done]. exists h'. by rewrite andb_assoc.
  - destruct (revoke_slot_spec tidy h io slot s Hok) as (s' & res & h' & -> & Hok' & Hi & _). eauto.
  - unfold flush. destruct (barrier_spec tidy h io true s Hok) as (s' & r & -> & Hok' & _ & _ & Hi & _). eauto.
Qed.

Lemma breachable_ok ident tidy s :
  identity_ok ident -> breachable ident tidy s -> (exists h, hist_ok tidy h s) /\ self_identity s = ident.
Proof.
  intros Hid. induction 1 as [? ? ? ? Ho|tidy s o _ [[h Hok] Hi] Ho|tidy s csize esize w s' _ [[h Hok] Hi] Ho].
  - apply fresh_ok in Ho as [? ?]. eauto.
  - subst ident. destruct (bstep_ok tidy h s o Hok Hid Ho). eauto.
  - subst ident. destruct (reopen_spec _ _ _ _ _ _ _ Hok Ho) as (Hok' & _ & _ & Hi' & _). eauto.
Qed.

(** C39: Through any interleaving of bindings, revocations, flushes and restarts, with leases and
    writes that fail before or after their effect, there is one history, numbered 1, 2, 3, ...,
    in which every activation finds its slot free and every retirement names the live
    instance. The projection in memory is its replay; the pending events are its end, and
    every earlier event is in a segment; every segment is a contiguous part of it; and
    current.json is the replay of a prefix of it. While no segment was left visible by a call
    that raised (since the store was opened), the segments followed by the pending events are
    exactly the history. *)
Theorem binding_log_is_history ident tidy s :
  identity_ok ident -> breachable ident tidy s ->
  exists h,
    ComponentBinding.binding_sequence <$> h = seqZ 1 (Z.of_nat (length h)) /\
    sequence s = Z.of_nat (length h) /\
    strict_replay ∅ h = Some (current s) /\
    (exists n, pending_events s = drop n h /\
       forall i e, (i < n)%nat -> h !! i = Some e -> exists seg, seg ∈ segments s /\ e ∈ seg) /\
    (forall seg, seg ∈ segments s -> exists pre post, h = pre ++ seg ++ post) /\
    (tidy = true -> h = concat (segments s) ++ pending_events s) /\
    exists rev l cur, current_json s = Some (rev, l) /\ 0 <= rev <= sequence s /\
      strict_replay ∅ (take (Z.to_nat rev) h) = Some cur /\ l = sorted_bindings cur.
Proof.
  intros Hid Hr. destruct (breachable_ok ident tidy s Hid Hr) as [[h [H1 H2 H3 H4 H5 H6 H7 H8 H9]] _].
  exists h. split_and!; try done.
  - destruct H5 as (n & ? & _ & ?). by exists n.
  - intros seg Hseg. rewrite Forall_forall in H6. by apply H6.
  - destruct (current_json s) as [[rev l]|]; [|done].
    destruct H9 as (Hps & Hrev & cur & Hc & Hl). exists rev, l, cur. split_and!; try done; lia.
Qed.

(** A flush of a tidy store whose writes and lease succeed returns, and from then on a restart
    recovers exactly the projection and the sequence the writer had in memory. *)
Theorem flush_makes_durable ident s csize esize :
  identity_ok ident -> breachable ident true s -> 1 <= csize -> 1 <= esize ->
  exists s' s2, flush batch_hash barrier_done s = (s', Ok tt) /\
    open_store canonical_hash ident csize esize Written (segments s') = Ok s2 /\
    current s2 = current s /\ sequence s2 = sequence s /\ current s' = current s.
Proof.
  intros Hid Hr Hc He. destruct (breachable_ok ident true s Hid Hr) as [[h Hok] Hi]. unfold flush.
  destruct (barrier_spec true h barrier_done true s Hok) as (s' & r & -> & Hok' & Hcur & Hseq & Hi' & Ht).
  destruct (Ht eq_refl (tidy_fresh h s Hok)) as (-> & Hp & _).
  destruct (reopen_goes h s' csize esize Hok' Hc He) as [s2 Ho].
  destruct (reopen_spec _ _ _ _ _ _ _ Hok' Ho) as (Hok2 & Hseg & Hp2 & Hi2 & _).
  pose proof (ok_tidy _ _ _ Hok' eq_refl) as Hh. rewrite Hp, app_nil_r in Hh. rewrite <- Hh in Hok2.
  exists s', s2. rewrite <- Hi, <- Hi'. split_and!; try done.
  - pose proof (ok_replay _ _ _ Hok2) as E2. pose proof (ok_replay _ _ _ Hok') as E1. congruence.
  - rewrite (ok_sequence _ _ _ Hok2), <- Hseq, (ok_sequence _ _ _ Hok'). done.
Qed.

(** Binding a receipt, when the lease and the writes succeed, makes its instance the slot's live
    one, changes no other slot, and binding it again changes nothing. *)
Theorem bind_receipt_installs ident tidy s now r :
  identity_ok ident -> breachable ident tidy s -> bindable r -> good_clock now ->
  exists s' e, bind_receipt canonical_hash batch_hash (barrier_done, barrier_done) now r s = (s', Ok e) /\
    current s' !! Receipt.receipt_requirement_id r = Some e /\
    ComponentBinding.instance_id e = Receipt.instance_id r /\
    (forall k, k <> Receipt.receipt_requirement_id r -> current s' !! k = current s !! k) /\
    forall ios now', bind_receipt canonical_hash batch_hash ios now' r s' = (s', Ok e).
Proof.
  intros Hid Hr Hb Hn. destruct (breachable_ok ident tidy s Hid Hr) as [[h Hok] <-].
  destruct (bind_receipt_spec tidy h barrier_done barrier_done now r s Hok Hb Hid Hn)
    as (s' & res & h' & -> & Hok' & Hi & Hother & Hret & Hin).
  destruct (Hin eq_refl eq_refl) as (e & ->). destruct (Hret e eq_refl) as [Hc He].
  exists s', e. split_and!; try done.
  intros ios now'. unfold bind_receipt. rewrite Hc. by rewrite bool_decide_eq_true_2.
Qed.
End Store_props.

(** ** A concrete store *)

Definition demo_digest : string :=
  "aaaaaaaaaaaaaaaaaaaaaaaaaaaaaaaaaaaaaaaaaaaaaaaaaaaaaaaaaaaaaaaa".
Definition demo_identity : identity := Identity "dep-1" 0 demo_digest demo_digest demo_digest.
Definition demo_event_hash (_ : cevent) : string := demo_digest.
Definition demo_batch_hash (_ : list cevent) : string := demo_digest.
Definition demo_receipt (slot instance : string) (rank : Z) : Receipt.t :=
  Receipt.mk 2 "dep-1" 0 demo_digest demo_digest demo_digest demo_digest demo_digest slot "ray_head"
    "ray" instance "RANK" (Some rank) "node0" (Some 17) None demo_digest None demo_digest [] [] []
    [] [] "SELF" "2026-01-01T00:00:00Z" demo_digest.

(** A lease that is held by another writer. *)
Definition busy_barrier : barrier_io := BarrierIO LeaseBusy Written Written Released.
(** The directory cannot be synced after the segment was linked. *)
Definition unsynced_barrier : barrier_io := BarrierIO LeaseAcquired Undurable Written Released.

Definition demo_store_run : list bop :=
  [Bind (barrier_done, barrier_done) (Float.of_Z 1) (demo_receipt "rank0/ray_head" "i1" 0);
   Bind (barrier_done, busy_barrier) (Float.of_Z 2) (demo_receipt "rank0/ray_head" "i2" 0);
   Flush barrier_done; Revoke barrier_done "rank0/ray_head"].

Definition demo_fresh : t :=
  match open_store demo_event_hash demo_identity 1 1 Written [] with
  | Ok s => s
  | Err _ => mk demo_identity 1 1 ∅ 0 0 [] [] None
  end.
Definition demo_store : t := foldl (bstep demo_event_hash demo_batch_hash) demo_fresh demo_store_run.

Lemma demo_bindable slot i rank :
  nonempty slot = true -> nonempty i = true -> 0 <= rank -> bindable (demo_receipt slot i rank).
Proof. intros. split_and!; try done. right. split; [done|]. by exists rank. Qed.

Lemma breach_tidy ch bh ident s o :
  breachable ch bh ident true s -> bop_ok o -> bop_durable o = true -> breachable ch bh ident true (bstep ch bh s o).
Proof. intros Hs Ho Hd. pose proof (breach_step ch bh ident true s o Hs Ho) as H. by rewrite Hd in H. Qed.

Lemma demo_store_reachable :
  breachable demo_event_hash demo_batch_hash demo_identity true demo_store.
Proof.
  unfold demo_store. cbn [foldl demo_store_run].
  repeat (apply breach_tidy; [|cbn; try done; by split; [apply demo_bindable|split]|reflexivity]).
  eapply (breach_fresh _ _ _ 1 1 Written). vm_compute. reflexivity.
Qed.

(** A segment that is left visible by a raising call. *)
Definition demo_untidy : t :=
  bstep demo_event_hash demo_batch_hash demo_store
    (Bind (barrier_done, unsynced_barrier) (Float.of_Z 9) (demo_receipt "rank1/ray_worker" "w1" 1)).

Lemma demo_untidy_reachable :
  breachable demo_event_hash demo_batch_hash demo_identity false demo_untidy.
Proof.
  apply (breach_step _ _ _ true demo_store (Bind (barrier_done, unsynced_barrier) (Float.of_Z 9) (demo_receipt "rank1/ray_worker" "w1" 1)));
    [apply demo_store_reachable|]. split; [apply demo_bindable; done|by split].
Qed.

(** After such a call the next group commit writes its events again, in a segment that overlaps
    the one that is visible; the run directory can then not be opened any more, and without a
    further event every flush raises. *)
Example untidy_store_cannot_reopen :
  (bind_receipt demo_event_hash demo_batch_hash (barrier_done, unsynced_barrier) (Float.of_Z 9)
     (demo_receipt "rank1/ray_worker" "w1" 1) demo_store).2 = Err StoreOSError /\
  (flush demo_batch_hash barrier_done demo_untidy).2
    = Err (BindingStoreError "component binding batch already exists") /\
  (exists e, (bind_receipt demo_event_hash demo_batch_hash (barrier_done, barrier_done) (Float.of_Z 10)
     (demo_receipt "rank2/ray_worker" "w2" 2) demo_untidy).2 = Ok e) /\
  open_store demo_event_hash demo_identity 1 1 Written
    (segments (bstep demo_event_hash demo_batch_hash demo_untidy
       (Bind (barrier_done, barrier_done) (Float.of_Z 10) (demo_receipt "rank2/ray_worker" "w2" 2))))
    = Err (BindingStoreError "component binding sequence is not contiguous").
Proof. vm_compute. split_and!; [reflexivity|reflexivity|eexists; reflexivity|reflexivity]. Qed.

Lemma demo_identity_ok : identity_ok demo_identity.
Proof. by split_and!. Qed.

Lemma demo_digest_ok (e : cevent) : is_sha256 (demo_event_hash e) = true.
Proof. vm_compute. reflexivity. Qed.

Lemma binding_log_is_history_witness :
  exists h, sequence demo_untidy = Z.of_nat (length h) /\ strict_replay ∅ h = Some (current demo_untidy) /\
    length h = 5%nat.
Proof.
  destruct (binding_log_is_history demo_event_hash demo_batch_hash demo_digest_ok demo_identity false
              demo_untidy demo_identity_ok demo_untidy_reachable) as (h & _ & Hs & H & _).
  exists h. split; [exact Hs|]. split; [exact H|].
  assert (sequence demo_untidy = 5) as E by (vm_compute; reflexivity). lia.
Defined.

Lemma flush_makes_durable_witness :
  exists s' s2, flush demo_batch_hash barrier_done demo_store = (s', Ok tt) /\
    open_store demo_event_hash demo_identity 3 2 Written (segments s') = Ok s2 /\
    current s2 = current demo_store /\ sequence s2 = sequence demo_store /\
    current s' = current demo_store.
Proof.
  apply (flush_makes_durable demo_event_hash demo_batch_hash demo_digest_ok demo_identity demo_store
           3 2 demo_identity_ok demo_store_reachable); lia.
Defined.

Lemma bind_receipt_installs_witness :
  exists s' e, bind_receipt demo_event_hash demo_batch_hash (barrier_done, barrier_done) (Float.of_Z 5)
                 (demo_receipt "rank1/ray_worker" "w1" 1) demo_store = (s', Ok e) /\
    current s' !! "rank1/ray_worker" = Some e.
Proof.
  destruct (bind_receipt_installs demo_event_hash demo_batch_hash demo_digest_ok demo_identity true
    demo_store (Float.of_Z 5) (demo_receipt "rank1/ray_worker" "w1" 1) demo_identity_ok
    demo_store_reachable) as (s' & e & H1 & H2 & _);
    [apply demo_bindable; [reflexivity|reflexivity|lia]|split; reflexivity|].
  exists s', e. split; [exact H1|exact H2].
Defined.
