(* ===== verification/Ledger.v ===== *)
(** The exact receipt ledger (ExactReceiptLedger of
    src/exaserve/compat/receipt_v2.py).

    [by_slot] is a Python dict, so it keeps insertion order: the order in which
    slots are revoked and bound in the store. The binding store is reached
    through the interface [BindingStore]; a store call may raise, and the ledger
    operation then stops where the source stops. [receipt_from_dict(
    receipt.to_dict())], the private copy of an accepted receipt, is the identity
    on values. *)

From S2P Require Import Prelude.
From S2P Require Import PyValue.
From S2P Require Import Atomic.
From S2P Require Import Contracts.
From S2P Require Import Receipts.
From S2P Require Import Bindings.
From S2P Require Import BindingsProps.

(** ** The interface to the binding store *)

(** What the environment decides in one call: the barrier of the retirement and that of
    the activation, and the clock. *)
Record io_env := Io { io_barriers : Store.barrier_io * Store.barrier_io; io_now : float }.

Definition io_ok (e : io_env) : Prop := good_clock (io_now e).

(** The lease is acquired and released, and the writes are durable. *)
Definition io_works (e : io_env) : Prop := io_barriers e = (Store.barrier_done, Store.barrier_done).

(** [bs_live] is the live instance of every bound slot. A call may raise, and nothing but the
    well-formedness of the store is then known; a call that returns has had its effect, and with
    working files it returns. *)
Class BindingStore (B : Type) := {
  bs_ok : B -> Prop;
  bs_live : B -> gmap string string;
  bs_bind : io_env -> Receipt.t -> B -> B * result store_error unit;
  bs_revoke : io_env -> string -> B -> B * result store_error unit;
  bs_flush : io_env -> B -> B * result store_error unit;
  bs_bind_ok : forall e r b, bs_ok b -> io_ok e -> bindable r -> bs_ok (bs_bind e r b).1;
  bs_bind_live : forall e r b, bs_ok b -> io_ok e -> bindable r -> (bs_bind e r b).2 = Ok tt ->
    bs_live (bs_bind e r b).1
      = <[Receipt.receipt_requirement_id r := Receipt.instance_id r]> (bs_live b);
  bs_bind_goes : forall e r b, bs_ok b -> io_ok e -> bindable r -> io_works e -> (bs_bind e r b).2 = Ok tt;
  bs_revoke_ok : forall e slot b, bs_ok b -> bs_ok (bs_revoke e slot b).1;
  bs_revoke_live : forall e slot b, bs_ok b -> (bs_revoke e slot b).2 = Ok tt ->
    bs_live (bs_revoke e slot b).1 = delete slot (bs_live b);
  bs_revoke_goes : forall e slot b, bs_ok b -> io_works e -> (bs_revoke e slot b).2 = Ok tt;
  bs_flush_ok : forall e b, bs_ok b ->
    bs_ok (bs_flush e b).1 /\ bs_live (bs_flush e b).1 = bs_live b;
}.

(** ** Dictionaries with deletion *)

(** [del d[k]] / [d.pop(k, None)] *)
Definition ddel {A} (k : string) (d : list (string * A)) : list (string * A) :=
  filter (fun kv => kv.1 <> k) d.

(** ** The ledger *)

Module Ledger.
Record t (B : Type) := mk {
  plan : DeploymentPlan.t;
  binding : AllocationBinding.t;
  profile : Profile.t;
  by_slot : list (string * Receipt.t);
  superseded : list string;
  rejected : list (string * string);
  store : option B;
}.
Arguments mk {B}.
Arguments plan {B}.
Arguments binding {B}.
Arguments profile {B}.
Arguments by_slot {B}.
Arguments superseded {B}.
Arguments rejected {B}.
Arguments store {B}.

(** [ExactReceiptLedger(plan, binding, binding_store=store)] *)
Definition init {B} (default_profile : string -> Profile.t) (manifest_hash : Profile.t -> string)
    (p : DeploymentPlan.t) (b : AllocationBinding.t) (st : option B) : receipt_result (t B) :=
  _ ← receipt_raise_if
        (negb (bool_decide (AllocationBinding.deployment_id b = DeploymentPlan.deployment_id p)))
        "allocation binding deployment_id disagrees with plan";
  _ ← receipt_raise_if
        (negb (bool_decide (AllocationBinding.deployment_plan_hash b
                            = DeploymentPlan.deployment_plan_hash p)))
        "allocation binding deployment_plan_hash disagrees with plan";
  _ ← receipt_raise_if
        (negb (bool_decide (AllocationBinding.site_profile_hash b
                            = DeploymentPlan.site_profile_hash p)))
        "allocation binding site_profile_hash disagrees with plan";
  _ ← receipt_raise_if
        (negb (Z.of_nat (length (AllocationBinding.rank_to_node b)) =? DeploymentPlan.num_nodes p))
        "allocation binding rank count disagrees with plan";
  let profile := default_profile (DeploymentPlan.vendor p) in
  _ ← receipt_raise_if
        (negb (bool_decide (Profile.profile_id profile
                            = DeploymentPlan.compatibility_profile_hash p)))
        "no locally resolved compatibility profile matches the plan";
  _ ← receipt_raise_if
        (negb (bool_decide (manifest_hash profile = DeploymentPlan.manifest_hash p)))
        "locally resolved patch manifest does not match the plan";
  Ok (mk p b profile [] [] [] st).

(** *** Acceptance *)

(** [if cond: return self._reject(receipt, reason)] *)
Definition refuse_if (b : bool) (reason : string) : result string unit := raise_if b reason.

(** Every expected key has the expected observed value. *)
Definition observed_match (expected observed : list (string * string)) : bool :=
  forallb (fun kv => bool_decide (dget kv.1 observed = Some kv.2)) expected.

Definition check_contract {B} (l : t B) (r : Receipt.t) : result string unit :=
  _ ← refuse_if (negb (bool_decide (Receipt.deployment_plan_hash r
                                    = DeploymentPlan.deployment_plan_hash (plan l))))
        "deployment_plan_hash does not match the plan";
  _ ← refuse_if (negb (bool_decide (Receipt.deployment_id r = DeploymentPlan.deployment_id (plan l))))
        "deployment_id does not match the plan";
  _ ← refuse_if (negb (bool_decide (Receipt.site_profile_hash r
                                    = DeploymentPlan.site_profile_hash (plan l))))
        "site_profile_hash does not match the plan";
  _ ← refuse_if (negb (bool_decide (Receipt.compatibility_profile_hash r
                                    = DeploymentPlan.compatibility_profile_hash (plan l))))
        "compatibility_profile_hash does not match the plan";
  _ ← refuse_if (negb (bool_decide (Receipt.manifest_hash r = DeploymentPlan.manifest_hash (plan l))))
        "manifest_hash does not match the plan";
  _ ← refuse_if (negb (observed_match (Profile.expected_versions (profile l))
                         (Receipt.observed_versions r)))
        "observed compatibility versions mismatch";
  _ ← refuse_if (negb (observed_match (Profile.expected_sources (profile l))
                         (Receipt.observed_source_hashes r)))
        "observed compatibility source/artifact hashes mismatch";
  _ ← refuse_if (bool_decide (Receipt.attestation_type r = "SELF")
                 && negb (bool_decide (Receipt.capabilities r = Profile.capabilities (profile l))))
        "capabilities do not match the compatibility profile";
  _ ← refuse_if (negb (bool_decide (Receipt.allocation_binding_hash r
                                    = AllocationBinding.allocation_binding_hash (binding l))))
        "allocation_binding_hash is from another generation";
  refuse_if (negb (Receipt.generation r =? AllocationBinding.generation (binding l)))
    "stale generation".

Definition check_slot (slot : ReceiptRequirement.t) (r : Receipt.t) : result string unit :=
  _ ← refuse_if (negb (bool_decide (ReceiptRequirement.role slot = Receipt.role r)))
        "role differs from the planned slot";
  _ ← refuse_if (negb (bool_decide (ReceiptRequirement.owner_scope slot = Receipt.owner_scope r)))
        "owner_scope does not match the planned slot";
  _ ← refuse_if (negb (bool_decide (ReceiptRequirement.component_slot slot = Receipt.component_id r)))
        "component_id differs from the planned slot";
  refuse_if (negb (bool_decide (ReceiptRequirement.attestation_type slot
                                = Receipt.attestation_type r)))
    "attestation_type differs from the planned slot".

(** Authorization: a rank session submits only its own RANK receipts; GLOBAL
    receipts enter only from the in-process supervisor. *)
Definition check_authority {B} (l : t B) (slot : ReceiptRequirement.t) (r : Receipt.t)
    (session_rank : option Z) (session_node : option string) (from_global_authority : bool)
    : result string unit :=
  if bool_decide (Receipt.owner_scope r = "GLOBAL") then
    _ ← refuse_if (negb from_global_authority)
          "GLOBAL receipts may enter only from the in-process supervisor authority";
    refuse_if
      (match AllocationBinding.node_for (binding l) 0 with
       | Some head_node => negb (same_node head_node (Receipt.node_id r))
       | None => true
       end) "GLOBAL node_id is not allocation head"
  else
    match session_rank with
    | None => Err "RANK receipt without an authenticated session"
    | Some rank =>
        _ ← refuse_if (negb (bool_decide (Receipt.owner_rank r = Some rank)))
              "owner_rank differs from the authenticated rank";
        _ ← refuse_if (negb (bool_decide (ReceiptRequirement.planned_rank slot = Some rank)))
              "slot is planned for another rank";
        _ ← refuse_if
              (match AllocationBinding.node_for (binding l) rank with
               | Some bound_node => negb (same_node bound_node (Receipt.node_id r))
               | None => false
               end) "node_id differs from the bound node";
        refuse_if
          (match session_node with
           | Some node => negb (same_node node (Receipt.node_id r))
           | None => false
           end) "node_id does not match the session"
    end.

(** [self.rejected.append((requirement_id, reason))] *)
Definition note_rejection {B} (l : t B) (requirement_id reason : string) : t B :=
  mk (plan l) (binding l) (profile l) (by_slot l) (superseded l)
     (rejected l ++ [(requirement_id, reason)]) (store l).

Definition reject {B} (l : t B) (r : Receipt.t) (reason : string) : t B :=
  note_rejection l (Receipt.receipt_requirement_id r) reason.

Definition set_store {B} (st : option B) (l : t B) : t B :=
  mk (plan l) (binding l) (profile l) (by_slot l) (superseded l) (rejected l) st.
Definition set_slots {B} (slots : list (string * Receipt.t)) (l : t B) : t B :=
  mk (plan l) (binding l) (profile l) slots (superseded l) (rejected l) (store l).
Definition set_superseded {B} (s : list string) (l : t B) : t B :=
  mk (plan l) (binding l) (profile l) (by_slot l) s (rejected l) (store l).

Section Operations.
Context {B : Type} `{!BindingStore B}.
Context (compute_hash : Receipt.t -> string) (is_utc_timestamp : string -> bool).

(** A store call of the ledger; without a store nothing happens. *)
Definition with_store (f : B -> B * result store_error unit) (l : t B)
    : t B * result store_error unit :=
  match store l with
  | None => (l, Ok tt)
  | Some b => let '(b', r) := f b in (set_store (Some b') l, r)
  end.

(** [self.ledger.binding_store.flush()], as the head channel calls it. *)
Definition flush_store (io : io_env) (l : t B) : t B * result store_error unit :=
  with_store (bs_flush io) l.

(** Validation before the ledger's own checks: the patches required of the slot
    are the caller's, or re-derived from the plan. *)
Definition validated (l : t B) (r : Receipt.t) (patches : option (list string * list string))
    : receipt_result unit :=
  req ← match patches with
        | Some req => Ok req
        | None => patch_requirements_for_plan (plan l) (Receipt.receipt_requirement_id r) (profile l)
        end;
  validate_receipt compute_hash is_utc_timestamp r req.1 req.2.

(** All the refusals after validation, in the order of the source. *)
Definition refusals (l : t B) (r : Receipt.t) (session_rank : option Z)
    (session_node : option string) (from_global_authority : bool) : result string unit :=
  _ ← check_contract l r;
  match find_requirement (plan l) (Receipt.receipt_requirement_id r) with
  | None => Err "no such planned receipt requirement"
  | Some slot =>
      _ ← check_slot slot r;
      check_authority l slot r session_rank session_node from_global_authority
  end.

(** Bind the receipt in the store and install it. *)
Definition install (io : io_env) (r : Receipt.t) (l : t B)
    : t B * result store_error (bool * string) :=
  match with_store (bs_bind io r) l with
  | (l1, Err e) => (l1, Err e)
  | (l1, Ok _) => (set_slots (dset (Receipt.slot_key r) r (by_slot l1)) l1, Ok (true, "accepted"))
  end.

Definition accept (io : io_env) (r : Receipt.t) (patches : option (list string * list string))
    (session_rank : option Z) (session_node : option string) (from_global_authority : bool)
    (l : t B) : t B * result store_error (bool * string) :=
  match validated l r patches with
  | Err (ReceiptError msg) => (reject l r msg, Ok (false, msg))
  | Ok _ =>
      match refusals l r session_rank session_node from_global_authority with
      | Err msg => (reject l r msg, Ok (false, msg))
      | Ok _ =>
          match dget (Receipt.slot_key r) (by_slot l) with
          | Some existing =>
              if bool_decide (Receipt.instance_id existing = Receipt.instance_id r) then
                if bool_decide (Receipt.receipt_hash existing = Receipt.receipt_hash r)
                then (l, Ok (true, "duplicate"))
                else (reject l r "conflicting duplicate for the same instance",
                      Ok (false, "conflicting duplicate for the same instance"))
              else install io r (set_superseded (superseded l ++ [Receipt.instance_id existing]) l)
          | None => install io r l
          end
      end
  end.

(** *** Losing evidence *)

Definition supersede_instance (io : io_env) (slot_key instance_id : string) (l : t B)
    : t B * result store_error unit :=
  match dget slot_key (by_slot l) with
  | Some current =>
      if bool_decide (Receipt.instance_id current = instance_id) then
        match with_store (bs_revoke io slot_key) l with
        | (l1, Err e) => (l1, Err e)
        | (l1, Ok _) =>
            (set_superseded (superseded l1 ++ [instance_id])
               (set_slots (ddel slot_key (by_slot l1)) l1), Ok tt)
        end
      else (l, Ok tt)
  | None => (l, Ok tt)
  end.

(** The keys of [by_slot] whose receipt is owned by [rank]. *)
Definition owned (rank : Z) (slots : list (string * Receipt.t)) : list (string * Receipt.t) :=
  filter (fun kv => Receipt.owner_rank kv.2 = Some rank) slots.

(** The loop of [drop_rank] over a snapshot of the items. *)
Fixpoint drop_slots (io : string -> io_env) (items : list (string * Receipt.t)) (l : t B)
    : t B * result store_error unit :=
  match items with
  | [] => (l, Ok tt)
  | (key, _) :: rest =>
      match with_store (bs_revoke (io key) key) l with
      | (l1, Err e) => (l1, Err e)
      | (l1, Ok _) => drop_slots io rest (set_slots (ddel key (by_slot l1)) l1)
      end
  end.

Definition drop_rank (io : string -> io_env) (rank : Z) (l : t B)
    : t B * result store_error unit :=
  drop_slots io (owned rank (by_slot l)) l.

(** *** Snapshots *)

Fixpoint accept_all (rank : Z) (session_node : string) (receipts : list Receipt.t) (l : t B)
    : result string (t B) :=
  match receipts with
  | [] => Ok l
  | r :: rest =>
      match accept (Io (Store.barrier_done, Store.barrier_done) Float.zero) r None (Some rank) (Some session_node) false l with
      | (l1, Ok (true, _)) => accept_all rank session_node rest l1
      | (_, Ok (false, detail)) => Err detail
      | (_, Err _) => Err "candidate has no store"
      end
  end.

(** The candidate has no binding store, so none of its steps can raise. *)
Definition stage_rank_snapshot (rank : Z) (receipts : list Receipt.t) (session_node : string)
    (l : t B) : result string (t B) :=
  let candidate := set_store None l in
  let dropped := (drop_rank (fun _ => Io (Store.barrier_done, Store.barrier_done) Float.zero) rank candidate).1 in
  accept_all rank session_node receipts dropped.

(** The two store loops of a commit: revoke what disappeared, bind what changed. *)
Fixpoint revoke_missing (io : string -> io_env) (before after : list (string * Receipt.t)) (l : t B)
    : t B * result store_error unit :=
  match before with
  | [] => (l, Ok tt)
  | (key, _) :: rest =>
      match dget key after with
      | Some _ => revoke_missing io rest after l
      | None =>
          match with_store (bs_revoke (io key) key) l with
          | (l1, Err e) => (l1, Err e)
          | (l1, Ok _) => revoke_missing io rest after l1
          end
      end
  end.

Fixpoint bind_changed (io : string -> io_env) (before after : list (string * Receipt.t)) (l : t B)
    : t B * result store_error unit :=
  match after with
  | [] => (l, Ok tt)
  | (key, r) :: rest =>
      if match dget key before with
         | Some prior => bool_decide (Receipt.instance_id prior = Receipt.instance_id r)
         | None => false
         end
      then bind_changed io before rest l
      else
        match with_store (bs_bind (io key) r) l with
        | (l1, Err e) => (l1, Err e)
        | (l1, Ok _) => bind_changed io before rest l1
        end
  end.

(** [for key in before: self._by_slot.pop(key, None)] *)
Definition pop_all (before slots : list (string * Receipt.t)) : list (string * Receipt.t) :=
  fold_left (fun acc kv => ddel kv.1 acc) before slots.

(** In both commits the candidate was staged by this ledger, so the identity test
    on its plan and binding passes. *)
Definition commit_staged (io_revoke io_bind : string -> io_env) (candidate : t B) (l : t B)
    : t B * result store_error unit :=
  let before := by_slot l in
  match revoke_missing io_revoke before (by_slot candidate) l with
  | (l1, Err e) => (l1, Err e)
  | (l1, Ok _) =>
      match bind_changed io_bind before (by_slot candidate) l1 with
      | (l2, Err e) => (l2, Err e)
      | (l2, Ok _) =>
          (mk (plan l2) (binding l2) (profile l2) (by_slot candidate) (superseded candidate)
              (rejected candidate) (store l2), Ok tt)
      end
  end.

Definition commit_rank_snapshot (io_revoke io_bind : string -> io_env) (rank : Z) (candidate : t B)
    (l : t B) : t B * result store_error unit :=
  let before_rank := owned rank (by_slot l) in
  let after_rank := owned rank (by_slot candidate) in
  match revoke_missing io_revoke before_rank after_rank l with
  | (l1, Err e) => (l1, Err e)
  | (l1, Ok _) =>
      match bind_changed io_bind before_rank after_rank l1 with
      | (l2, Err e) => (l2, Err e)
      | (l2, Ok _) =>
          (mk (plan l2) (binding l2) (profile l2)
              (dupdate (pop_all before_rank (by_slot l2)) after_rank) (superseded candidate)
              (rejected candidate) (store l2), Ok tt)
      end
  end.
End Operations.

(** *** Reconciliation *)

Definition accepted_keys {B} (l : t B) : gset string := list_to_set (dkeys (by_slot l)).

Definition missing {B} (l : t B) : list string :=
  merge_sort string_le (elements (DeploymentPlan.requirement_keys (plan l) ∖ accepted_keys l)).
Definition unexpected {B} (l : t B) : list string :=
  merge_sort string_le (elements (accepted_keys l ∖ DeploymentPlan.requirement_keys (plan l))).

Definition satisfied {B} (l : t B) : bool :=
  bool_decide (missing l = []) && bool_decide (unexpected l = []).

Definition count {B} (l : t B) : nat := length (by_slot l).

Definition accepted_receipts {B} (l : t B) : list Receipt.t :=
  merge_sort string_le (dkeys (by_slot l)) ≫= fun k => option_list (dget k (by_slot l)).
End Ledger.
