(* ===== verification/LedgerProps.v ===== *)
(** Theorems on the receipt ledger: what is accepted was planned, validated and
    authorized; readiness is exact set equality; a rank's session can only touch
    its own slots; losing a rank revokes readiness; and the binding store stays
    in step with the ledger. *)

From S2P Require Import Prelude.
From S2P Require Import PyValue.
From S2P Require Import Atomic.
From S2P Require Import Contracts.
From S2P Require Import Receipts.
From S2P Require Import Bindings.
From S2P Require Import BindingsProps.
From S2P Require Import Ledger.

Import Ledger.

(** ** The concrete store implements the interface *)

Section Instance_.
Context (canonical_hash : cevent -> string) (batch_hash : list cevent -> string).
Hypothesis hash_digest : forall e, is_sha256 (canonical_hash e) = true.

Definition live_of (s : Store.t) : gmap string string :=
  ComponentBinding.instance_id <$> Store.current s.

Definition drop_value {A} (x : Store.t * result store_error A) : Store.t * result store_error unit :=
  (x.1, match x.2 with Ok _ => Ok tt | Err e => Err e end).

#[refine] Instance component_binding_store : BindingStore Store.t := {|
  bs_ok s := store_ok canonical_hash s /\ identity_ok (Store.self_identity s);
  bs_live := live_of;
  bs_bind e r s :=
    drop_value (Store.bind_receipt canonical_hash batch_hash (io_barriers e) (io_now e) r s);
  bs_revoke e slot s :=
    drop_value (Store.revoke_slot canonical_hash batch_hash (io_barriers e).1 slot s);
  bs_flush e s := Store.flush batch_hash (io_barriers e).1 s;
|}.
Proof.
  - intros [[l1 l2] now] r s [(tidy & h & Hok) Hid] Hio Hb. cbn.
    destruct (bind_receipt_spec canonical_hash batch_hash hash_digest tidy h l1 l2 now r s Hok Hb Hid Hio)
      as (s' & res & h' & -> & Hok' & Hi & _). cbn. rewrite Hi. split; [|done]. eexists _, _. exact Hok'.
  - intros [[l1 l2] now] r s [(tidy & h & Hok) Hid] Hio Hb. cbn.
    destruct (bind_receipt_spec canonical_hash batch_hash hash_digest tidy h l1 l2 now r s Hok Hb Hid Hio)
      as (s' & res & h' & -> & Hok' & Hi & Hother & Hret & _). cbn.
    destruct res as [e|]; [|done]. intros _. destruct (Hret e eq_refl) as [Hc He].
    apply map_eq. intros k. unfold live_of. rewrite lookup_fmap.
    destruct (decide (k = Receipt.receipt_requirement_id r)) as [->|Hne].
    + rewrite Hc, lookup_insert_eq. cbn. by rewrite He.
    + rewrite Hother, lookup_insert_ne, lookup_fmap by done. done.
  - intros [[l1 l2] now] r s [(tidy & h & Hok) Hid] Hio Hb [= -> ->]. cbn.
    destruct (bind_receipt_spec canonical_hash batch_hash hash_digest tidy h Store.barrier_done Store.barrier_done now r s Hok Hb Hid Hio)
      as (s' & res & h' & -> & _ & _ & _ & _ & Hin). cbn. by destruct (Hin eq_refl eq_refl) as [e ->].
  - intros e slot s [(tidy & h & Hok) Hid].
    destruct (revoke_slot_spec canonical_hash batch_hash hash_digest tidy h (io_barriers e).1 slot s Hok)
      as (s' & res & h' & -> & Hok' & Hi & _). cbn. rewrite Hi. split; [|done]. eexists _, _. exact Hok'.
  - intros e slot s [(tidy & h & Hok) Hid] _. cbn.
    destruct (revoke_slot_spec canonical_hash batch_hash hash_digest tidy h (io_barriers e).1 slot s Hok)
      as (s' & res & h' & -> & Hok' & Hi & Hc & _). cbn. unfold live_of. by rewrite Hc, fmap_delete.
  - intros [ios now] slot s [(tidy & h & Hok) Hid] [= ->]. cbn.
    destruct (revoke_slot_spec canonical_hash batch_hash hash_digest tidy h Store.barrier_done slot s Hok)
      as (s' & res & h' & -> & _ & _ & _ & Hr). cbn. by rewrite (Hr eq_refl).
  - intros e s [(tidy & h & Hok) Hid]. unfold Store.flush.
    destruct (barrier_spec canonical_hash batch_hash tidy h (io_barriers e).1 true s Hok)
      as (s' & res & -> & Hok' & Hc & _ & Hi & _). cbn. unfold live_of. rewrite Hi, Hc.
    split; [|done]. split; [|done]. eexists _, _. exact Hok'.
Defined.
End Instance_.

(** ** Dictionaries *)

Section Dicts.
Context {A : Type}.
Implicit Types d : list (string * A).

Lemma dget_ddel k k' d : dget k' (ddel k d) = if decide (k = k') then None else dget k' d.
Proof.
  unfold ddel. induction d as [|[k0 v0] d IH]; cbn [dget].
  { by destruct (decide (k = k')). }
  rewrite filter_cons. cbn [fst]. destruct (decide (k0 <> k)) as [Hne|Heq]; cbn [dget].
  - rewrite IH. destruct (decide (k0 = k')), (decide (k = k')); naive_solver.
  - rewrite IH. destruct (decide (k = k')) as [|Hne]; [done|].
    rewrite decide_False; [done|]. intros ->. apply Heq. intros ->. done.
Qed.

Lemma dkeys_ddel k d : dkeys (ddel k d) `sublist_of` dkeys d.
Proof. unfold dkeys, ddel. apply fmap_sublist, sublist_filter. Qed.

Lemma NoDup_dkeys_filter (P : string * A -> Prop) `{forall x, Decision (P x)} d :
  NoDup (dkeys d) -> NoDup (dkeys (filter P d)).
Proof. intros Hd. eapply sublist_NoDup; [exact Hd|]. apply fmap_sublist, sublist_filter. Qed.

Lemma elem_of_dget k v d : NoDup (dkeys d) -> (k, v) ∈ d <-> dget k d = Some v.
Proof.
  intros Hnd. split; [|apply dget_Some_elem].
  induction d as [|[k0 v0] d IH]; [by intros ?%not_elem_of_nil|].
  cbn in Hnd. apply NoDup_cons in Hnd as [Hni Hnd]. cbn [dget].
  intros [[= -> ->]|Hin]%elem_of_cons; [by rewrite decide_True|].
  rewrite decide_False; [by apply IH|]. intros ->. apply Hni, list_elem_of_fmap. by exists (k, v).
Qed.

Lemma dget_filter (P : string * A -> Prop) `{forall x, Decision (P x)} k d :
  NoDup (dkeys d) ->
  dget k (filter P d) = match dget k d with
                        | Some v => if decide (P (k, v)) then Some v else None
                        | None => None
                        end.
Proof.
  intros Hnd. destruct (dget k (filter P d)) as [v|] eqn:Hg.
  - apply dget_Some_elem, list_elem_of_filter in Hg as [HP Hin].
    apply elem_of_dget in Hin; [|done]. rewrite Hin. by rewrite decide_True.
  - destruct (dget k d) as [v|] eqn:Hd; [|done]. destruct (decide (P (k, v))) as [HP|]; [|done].
    assert ((k, v) ∈ filter P d) as Hin%elem_of_dget by
      (apply list_elem_of_filter; split; [done|by apply dget_Some_elem]); [congruence|].
    by apply NoDup_dkeys_filter.
Qed.
End Dicts.

Lemma dget_pop_all k before slots :
  dget k (pop_all before slots) = if decide (k ∈ dkeys before) then None else dget k slots.
Proof.
  unfold pop_all. revert slots. induction before as [|[k0 v0] before IH]; intros slots; cbn.
  { rewrite decide_False; [done|]. apply not_elem_of_nil. }
  rewrite IH, dget_ddel. destruct (decide (k ∈ dkeys before)) as [Hin|Hni].
  - rewrite decide_True; [done|]. by right.
  - destruct (decide (k0 = k)) as [->|Hne].
    + rewrite decide_True; [done|]. left.
    + rewrite decide_False; [done|]. rewrite not_elem_of_cons. split; [congruence|done].
Qed.

Lemma dkeys_pop_all before slots : dkeys (pop_all before slots) `sublist_of` dkeys slots.
Proof.
  unfold pop_all. revert slots. induction before as [|kv before IH]; intros slots; [done|].
  cbn. etrans; [apply IH|apply dkeys_ddel].
Qed.

(** ** What an accepted receipt proves *)

(** Reconciliation compares the key sets. *)
Lemma satisfied_sets {B} (l : Ledger.t B) :
  satisfied l = true <-> DeploymentPlan.requirement_keys (plan l) = accepted_keys l.
Proof.
  unfold satisfied, missing, unexpected. rewrite andb_true_iff, !bool_decide_eq_true, !elements_nil_iff.
  generalize (DeploymentPlan.requirement_keys (plan l)), (accepted_keys l). intros X Y. split.
  - intros [H1 H2]. apply set_eq. intros x.
    destruct (decide (x ∈ X)), (decide (x ∈ Y)); set_solver.
  - intros ->. by rewrite difference_diag_L.
Qed.

Section Evidence.
Context {B : Type} `{!BindingStore B}.
Context (compute_hash : Receipt.t -> string) (is_utc_timestamp : string -> bool).

(** The receipt satisfies the planned slot it is stored under. *)
Record evidence (l : t B) (k : string) (r : Receipt.t) : Prop := Evidence {
  ev_key : k = Receipt.receipt_requirement_id r;
  ev_valid : exists req notreq, validate_receipt compute_hash is_utc_timestamp r req notreq = Ok tt;
  ev_contract : check_contract l r = Ok tt;
  ev_slot : exists slot, find_requirement (plan l) k = Some slot /\ check_slot slot r = Ok tt /\
    ((Receipt.owner_scope r = "GLOBAL" /\ Receipt.owner_rank r = None) \/
     (exists rank, Receipt.owner_scope r = "RANK" /\ Receipt.owner_rank r = Some rank /\
        ReceiptRequirement.planned_rank slot = Some rank));
}.

Record ledger_ok (l : t B) : Prop := LedgerOk {
  lo_keys : NoDup (dkeys (by_slot l));
  lo_evidence : forall k r, dget k (by_slot l) = Some r -> evidence l k r;
}.

(** The parts of a ledger that no operation changes. *)
Definition same_context (l l' : t B) : Prop :=
  plan l' = plan l /\ binding l' = binding l /\ profile l' = profile l.

Lemma evidence_context l l' k r : same_context l l' -> evidence l k r -> evidence l' k r.
Proof.
  destruct l as [p b pr bs su re st], l' as [p' b' pr' bs' su' re' st'].
  unfold same_context. cbn. intros (-> & -> & ->) [H1 H2 H3 H4]. split; auto.
Qed.

Lemma validate_owner r req notreq :
  validate_receipt compute_hash is_utc_timestamp r req notreq = Ok tt ->
  bindable r /\ Receipt.receipt_hash r = compute_hash r.
Proof.
  unfold validate_receipt. intros Hv. apply bind_Ok in Hv as (u1 & Hi & Hv).
  apply bind_Ok in Hv as (u2 & Ho & Hv). apply bind_Ok in Hv as (u3 & _ & Hv).
  apply bind_Ok in Hv as (u4 & _ & Hh). unfold receipt_raise_if in Hh. res_inv. bool_prop.
  split; [|done]. unfold check_identity, receipt_raise_if in Hi. res_inv.
  rewrite !Forall_cons in *. destruct_and!. res_inv. bool_prop.
  unfold check_owner, receipt_raise_if in Ho. res_inv. bool_prop. split_and!; try done.
  match goal with H : _ ∈ ["GLOBAL"; "RANK"] |- _ =>
    apply elem_of_cons in H as [Hs|[Hs|?%not_elem_of_nil]%elem_of_cons]; [left|right|done] end.
  - rewrite Hs in *. split; [done|]. cbn in *. res_inv. bool_prop.
    destruct (Receipt.owner_rank r); naive_solver.
  - rewrite Hs in *. rewrite (bool_decide_eq_false_2 ("RANK" = "GLOBAL")) in * by done. res_inv.
    destruct (Receipt.owner_rank r) as [n|]; [|done]. bool_prop. split; [done|]. by exists n.
Qed.

Lemma evidence_bindable l k r : evidence l k r -> bindable r.
Proof. intros [_ (req & notreq & Hv) _ _]. by apply validate_owner in Hv as [? _]. Qed.

(** Passing validation and the refusals is exactly what evidence needs. *)
Lemma refusals_evidence l r patches rank node global :
  validated compute_hash is_utc_timestamp l r patches = Ok tt ->
  refusals l r rank node global = Ok tt -> evidence l (Receipt.receipt_requirement_id r) r.
Proof.
  unfold validated, refusals. intros Hv Hr. apply bind_Ok in Hv as ([req notreq] & _ & Hv).
  apply bind_Ok in Hr as ([] & Hc & Hr). cbn in Hv.
  destruct (find_requirement _ _) as [slot|] eqn:Hf; [|done]. apply bind_Ok in Hr as ([] & Hs & Ha).
  split; try done; [by eauto|]. exists slot. split_and!; try done.
  destruct (validate_owner _ _ _ Hv) as [(_ & _ & _ & _ & Ho) _].
  unfold check_authority in Ha. destruct Ho as [[Hs1 Hs2]|[Hs1 (n & Hs2 & _)]]; [by left|right].
  rewrite Hs1, bool_decide_eq_false_2 in Ha by done. destruct rank as [rank|]; [|done].
  unfold refuse_if in Ha. res_inv. bool_prop. exists rank. split_and!; congruence.
Qed.

(** ** Frame properties of the helpers *)

Lemma with_store_frame f l l' res :
  with_store f l = (l', res) -> same_context l l' /\ by_slot l' = by_slot l.
Proof.
  unfold with_store, same_context. destruct (store l) as [b|]; [|naive_solver].
  destruct (f b) as [b' r']. intros [= <- <-]. done.
Qed.

Lemma same_context_refl l : same_context l l.
Proof. done. Qed.

Lemma same_context_trans l1 l2 l3 : same_context l1 l2 -> same_context l2 l3 -> same_context l1 l3.
Proof. unfold same_context. intuition congruence. Qed.

Lemma ledger_ok_same l l' :
  same_context l l' -> by_slot l' = by_slot l -> ledger_ok l -> ledger_ok l'.
Proof.
  intros Hc Hs [Hk He]. split; rewrite Hs; [done|]. intros k r Hg.
  by eapply evidence_context, He.
Qed.

Lemma ledger_ok_install l l' k r :
  same_context l l' -> by_slot l' = dset k r (by_slot l) -> evidence l k r ->
  ledger_ok l -> ledger_ok l'.
Proof.
  intros Hc Hs Hev [Hk He]. split; rewrite Hs; [by apply NoDup_dset|].
  intros k' r'. rewrite dget_dset. destruct (decide (k = k')) as [<-|].
  - intros [= <-]. by eapply evidence_context.
  - intros Hg. by eapply evidence_context, He.
Qed.

Lemma ledger_ok_ddel l l' k :
  same_context l l' -> by_slot l' = ddel k (by_slot l) -> ledger_ok l -> ledger_ok l'.
Proof.
  intros Hc Hs [Hk He]. split; rewrite Hs.
  - eapply sublist_NoDup; [exact Hk|apply dkeys_ddel].
  - intros k' r'. rewrite dget_ddel. destruct (decide _); [done|].
    intros Hg. by eapply evidence_context, He.
Qed.

(** ** Acceptance *)

(** What [accept] may do to the slots. *)
Lemma accept_frame io r patches rank node global l l' res :
  accept compute_hash is_utc_timestamp io r patches rank node global l = (l', res) ->
  same_context l l' /\
  (by_slot l' = by_slot l \/
   (by_slot l' = dset (Receipt.receipt_requirement_id r) r (by_slot l) /\
    res = Ok (true, "accepted") /\
    validated compute_hash is_utc_timestamp l r patches = Ok tt /\
    refusals l r rank node global = Ok tt)).
Proof.
  unfold accept. destruct (validated _ _ _ _ _) as [[]|[msg]]; [|intros [= <- <-]; split; [done|by left]].
  destruct (refusals _ _ _ _ _) as [[]|msg]; [|intros [= <- <-]; split; [done|by left]].
  assert (forall l0, same_context l l0 -> by_slot l0 = by_slot l -> install io r l0 = (l', res) ->
    same_context l l' /\ (by_slot l' = by_slot l \/
      (by_slot l' = dset (Receipt.receipt_requirement_id r) r (by_slot l) /\
       res = Ok (true, "accepted") /\ Ok tt = Ok tt :> receipt_result unit /\
       Ok tt = Ok tt :> result string unit))) as Hins.
  { intros l0 Hc0 Hs0. unfold install. destruct (with_store _ l0) as [l1 r1] eqn:Hw.
    apply with_store_frame in Hw as [Hc1 Hs1].
    destruct r1; intros [= <- <-]; (split; [exact (same_context_trans _ _ _ Hc0 Hc1)|]).
    - right. split_and!; try done. unfold Receipt.slot_key. cbn. by rewrite Hs1, Hs0.
    - left. congruence. }
  destruct (dget _ _) as [existing|]; [|by apply Hins].
  destruct (bool_decide _); [destruct (bool_decide _); intros [= <- <-]; (split; [done|by left])|].
  by apply Hins.
Qed.

Lemma accept_ok io r patches rank node global l l' res :
  ledger_ok l ->
  accept compute_hash is_utc_timestamp io r patches rank node global l = (l', res) ->
  ledger_ok l' /\ same_context l l'.
Proof.
  intros Hok Ha. apply accept_frame in Ha as [Hc [Hs|(Hs & _ & Hv & Hr)]]; (split; [|done]).
  - by eapply ledger_ok_same.
  - eapply ledger_ok_install; try done. by eapply refusals_evidence.
Qed.

(** ** The other operations *)

Lemma supersede_ok io k i l l' res :
  ledger_ok l -> supersede_instance io k i l = (l', res) -> ledger_ok l' /\ same_context l l'.
Proof.
  intros Hok. unfold supersede_instance. destruct (dget k (by_slot l)); [|by intros [= <- <-]].
  destruct (bool_decide _); [|by intros [= <- <-]].
  destruct (with_store _ l) as [l1 r1] eqn:Hw. apply with_store_frame in Hw as [Hc Hs].
  destruct r1; intros [= <- <-]; (split; [|done]).
  - eapply (ledger_ok_ddel l); [done|cbn; by rewrite Hs|done].
  - by eapply ledger_ok_same.
Qed.

Lemma drop_slots_spec io items l l' res :
  drop_slots io items l = (l', res) ->
  same_context l l' /\ (ledger_ok l -> ledger_ok l') /\
  (res = Ok tt -> forall k, dget k (by_slot l') = if decide (k ∈ dkeys items) then None
                                                  else dget k (by_slot l)).
Proof.
  revert l. induction items as [|[k r] items IH]; intros l; cbn [drop_slots].
  { intros [= <- <-]. split_and!; done. }
  destruct (with_store _ l) as [l1 r1] eqn:Hw. apply with_store_frame in Hw as [Hc Hs].
  destruct r1 as [[]|e].
  2: { intros [= <- <-]. split; [done|]. split; [by apply ledger_ok_same|done]. }
  intros Hd. apply IH in Hd as (Hc' & Hok' & Hg'). split_and!.
  - exact (same_context_trans _ _ _ Hc Hc').
  - intros Hok. apply Hok'. eapply (ledger_ok_ddel l); [done|cbn; by rewrite Hs|done].
  - intros Hres k'. rewrite Hg' by done. cbn [dkeys fmap list_fmap fst by_slot set_slots].
    rewrite dget_ddel, Hs. destruct (decide (k' ∈ dkeys items)) as [Hin|Hni].
    + rewrite decide_True; [done|]. by right.
    + destruct (decide (k = k')) as [->|Hne].
      * rewrite decide_True; [done|]. left.
      * rewrite decide_False; [done|]. rewrite not_elem_of_cons. split; [congruence|done].
Qed.

Lemma dget_owned k rank slots :
  NoDup (dkeys slots) ->
  dget k (owned rank slots) = match dget k slots with
                              | Some r => if decide (Receipt.owner_rank r = Some rank) then Some r
                                          else None
                              | None => None
                              end.
Proof. intros Hn. unfold owned. by rewrite dget_filter. Qed.

Lemma elem_of_owned k rank slots :
  NoDup (dkeys slots) ->
  k ∈ dkeys (owned rank slots) <->
  exists r, dget k slots = Some r /\ Receipt.owner_rank r = Some rank.
Proof.
  intros Hn. rewrite <- dget_is_Some, dget_owned by done.
  destruct (dget k slots) as [r|]; [|by split; [intros []|intros (? & ? & ?)]].
  destruct (decide _) as [Ho|Ho]; (split; [intros [? ?]|intros (r' & [= <-] & Hr)]); eauto; done.
Qed.

(** Losing a rank removes exactly its evidence. *)
Lemma drop_rank_spec io rank l l' res :
  ledger_ok l -> drop_rank io rank l = (l', res) ->
  ledger_ok l' /\ same_context l l' /\
  (res = Ok tt -> forall k, dget k (by_slot l') =
     match dget k (by_slot l) with
     | Some r => if decide (Receipt.owner_rank r = Some rank) then None else Some r
     | None => None
     end).
Proof.
  intros Hok Hd. unfold drop_rank in Hd. apply drop_slots_spec in Hd as (Hc & Hok' & Hg).
  split; [by apply Hok'|]. split; [done|]. intros Hres k. rewrite Hg by done.
  pose proof (elem_of_owned k rank (by_slot l) (lo_keys l Hok)) as Ho.
  destruct (decide (k ∈ _)) as [Hin|Hni].
  - apply Ho in Hin as (r & -> & Hr). by rewrite decide_True.
  - destruct (dget k (by_slot l)) as [r|]; [|done].
    rewrite decide_False; [done|]. intros Hr. apply Hni, Ho. eauto.
Qed.

(** ** Snapshots *)

Lemma accept_all_ok rank node rs l l' :
  ledger_ok l -> accept_all compute_hash is_utc_timestamp rank node rs l = Ok l' ->
  ledger_ok l' /\ same_context l l'.
Proof.
  revert l. induction rs as [|r rs IH]; intros l Hok; cbn [accept_all].
  { intros [= <-]. by split. }
  destruct (accept _ _ _ _ _ _ _ _ _) as [l1 [[[] m]|e]] eqn:Ha; try done.
  destruct (accept_ok _ _ _ _ _ _ _ _ _ Hok Ha) as [Hok1 Hc1]. intros Hr.
  destruct (IH l1 Hok1 Hr) as [Hok' Hc']. split; [done|]. exact (same_context_trans _ _ _ Hc1 Hc').
Qed.

Lemma stage_ok rank rs node l cand :
  ledger_ok l -> stage_rank_snapshot compute_hash is_utc_timestamp rank rs node l = Ok cand ->
  ledger_ok cand /\ same_context l cand.
Proof.
  intros Hok. unfold stage_rank_snapshot.
  destruct (drop_rank _ _ _) as [l1 res] eqn:Hd. cbn [fst]. intros Ha.
  apply drop_rank_spec in Hd as (Hok1 & Hc1 & _); [|by eapply (ledger_ok_same l)].
  destruct (accept_all_ok _ _ _ _ _ Hok1 Ha) as [Hok' Hc']. split; [done|].
  exact (same_context_trans _ _ _ Hc1 Hc').
Qed.

Lemma revoke_missing_frame io before after l l' res :
  revoke_missing io before after l = (l', res) -> same_context l l' /\ by_slot l' = by_slot l.
Proof.
  revert l. induction before as [|[k r] before IH]; intros l; cbn [revoke_missing].
  { by intros [= <- <-]. }
  destruct (dget k after); [apply IH|]. destruct (with_store _ l) as [l1 r1] eqn:Hw.
  apply with_store_frame in Hw as [Hc Hs]. destruct r1; [|by intros [= <- <-]].
  intros [Hc' Hs']%IH. split; [exact (same_context_trans _ _ _ Hc Hc')|congruence].
Qed.

Lemma bind_changed_frame io before after l l' res :
  bind_changed io before after l = (l', res) -> same_context l l' /\ by_slot l' = by_slot l.
Proof.
  revert l. induction after as [|[k r] after IH]; intros l; cbn [bind_changed].
  { by intros [= <- <-]. }
  destruct (match dget k before with Some _ => _ | None => _ end); [apply IH|].
  destruct (with_store _ l) as [l1 r1] eqn:Hw.
  apply with_store_frame in Hw as [Hc Hs]. destruct r1; [|by intros [= <- <-]].
  intros [Hc' Hs']%IH. split; [exact (same_context_trans _ _ _ Hc Hc')|congruence].
Qed.

(** Publishing one rank of a candidate: its slots are the candidate's, every
    other slot is the ledger's own. *)
Lemma commit_rank_spec io1 io2 rank cand l l' res :
  ledger_ok l -> ledger_ok cand -> same_context l cand ->
  commit_rank_snapshot io1 io2 rank cand l = (l', res) ->
  ledger_ok l' /\ same_context l l' /\
  (res = Ok tt -> forall k, dget k (by_slot l') =
     match dget k (owned rank (by_slot cand)) with
     | Some r => Some r
     | None => if decide (k ∈ dkeys (owned rank (by_slot l))) then None else dget k (by_slot l)
     end).
Proof.
  intros Hok Hokc Hcc. unfold commit_rank_snapshot.
  destruct (revoke_missing _ _ _ _) as [l1 r1] eqn:H1. apply revoke_missing_frame in H1 as [Hc1 Hs1].
  destruct r1 as [[]|e]; [|intros [= <- <-]; split; [by eapply ledger_ok_same|done]].
  destruct (bind_changed _ _ _ _) as [l2 r2] eqn:H2. apply bind_changed_frame in H2 as [Hc2 Hs2].
  pose proof (same_context_trans _ _ _ Hc1 Hc2) as Hc.
  destruct r2 as [[]|e]; [|intros [= <- <-]; split; [eapply ledger_ok_same; [done|congruence|done]|done]].
  intros [= <- <-].
  assert (NoDup (dkeys (owned rank (by_slot cand)))) as Hna
    by (apply NoDup_dkeys_filter, (lo_keys cand Hokc)).
  assert (forall k, dget k (dupdate (pop_all (owned rank (by_slot l)) (by_slot l2))
                              (owned rank (by_slot cand))) =
     match dget k (owned rank (by_slot cand)) with
     | Some r => Some r
     | None => if decide (k ∈ dkeys (owned rank (by_slot l))) then None else dget k (by_slot l)
     end) as Hg.
  { intros k. rewrite dget_dupdate by done. destruct (dget k (owned rank (by_slot cand))); [done|].
    by rewrite dget_pop_all, Hs2, Hs1. }
  split; [|split; [done|]]; [|by intros _].
  split; cbn [by_slot].
  - apply NoDup_dupdate. eapply sublist_NoDup; [|apply dkeys_pop_all]. rewrite Hs2, Hs1. apply Hok.
  - intros k r. rewrite Hg. rewrite dget_owned by apply Hokc.
    destruct (dget k (by_slot cand)) as [rc|] eqn:Hgc.
    + destruct (decide _) as [Ho|Ho].
      * intros [= <-]. eapply (evidence_context cand); [|by apply Hokc].
        destruct Hcc as (? & ? & ?), Hc as (? & ? & ?). split_and!; cbn; congruence.
      * destruct (decide _); [done|]. intros Hgl. eapply (evidence_context l); [done|by apply Hok].
    + destruct (decide _); [done|]. intros Hgl. eapply (evidence_context l); [done|by apply Hok].
Qed.

Lemma commit_staged_ok io1 io2 cand l l' res :
  ledger_ok l -> ledger_ok cand -> same_context l cand ->
  commit_staged io1 io2 cand l = (l', res) ->
  ledger_ok l' /\ same_context l l' /\ (res = Ok tt -> by_slot l' = by_slot cand).
Proof.
  intros Hok Hokc Hcc. unfold commit_staged.
  destruct (revoke_missing _ _ _ _) as [l1 r1] eqn:H1. apply revoke_missing_frame in H1 as [Hc1 Hs1].
  destruct r1 as [[]|e]; [|intros [= <- <-]; split; [by eapply ledger_ok_same|done]].
  destruct (bind_changed _ _ _ _) as [l2 r2] eqn:H2. apply bind_changed_frame in H2 as [Hc2 Hs2].
  pose proof (same_context_trans _ _ _ Hc1 Hc2) as Hc.
  destruct r2 as [[]|e]; [|intros [= <- <-]; split; [eapply ledger_ok_same; [done|congruence|done]|done]].
  intros [= <- <-]. split; [|done]. eapply (ledger_ok_same cand); [|done..].
  destruct Hcc as (? & ? & ?), Hc as (? & ? & ?). split_and!; cbn; congruence.
Qed.

(** ** The binding store stays in step *)

(** The live instances of the store are those of the accepted receipts. *)
Definition in_step (l : t B) : Prop :=
  match store l with
  | None => True
  | Some b => bs_ok b /\ forall k, bs_live b !! k = Receipt.instance_id <$> dget k (by_slot l)
  end.

(** The store of [l] is well formed and holds [live]. *)
Definition store_live (l : t B) (live : string -> option string) : Prop :=
  match store l with None => True | Some b => bs_ok b /\ forall k, bs_live b !! k = live k end.

Lemma with_store_bind io r l live l' :
  store_live l live -> io_ok io -> bindable r -> with_store (bs_bind io r) l = (l', Ok tt) ->
  by_slot l' = by_slot l /\
  store_live l' (fun k => if decide (Receipt.receipt_requirement_id r = k)
                          then Some (Receipt.instance_id r) else live k).
Proof.
  unfold store_live, with_store. intros Hs Hio Hb. destruct (store l) as [b|] eqn:Hst.
  - destruct Hs as [Hok Hlive]. pose proof (bs_bind_ok io r b Hok Hio Hb) as Hok'.
    pose proof (bs_bind_live io r b Hok Hio Hb) as Hlv.
    destruct (bs_bind io r b) as [b' res]. cbn in *. intros [= <- ->].
    split; [done|]. cbn. split; [done|]. intros k. rewrite (Hlv eq_refl).
    destruct (decide _) as [<-|]; [apply lookup_insert_eq|rewrite lookup_insert_ne by done; apply Hlive].
  - intros [= <-]. by rewrite Hst.
Qed.

Lemma with_store_revoke io slot l live l' :
  store_live l live -> with_store (bs_revoke io slot) l = (l', Ok tt) ->
  by_slot l' = by_slot l /\ store_live l' (fun k => if decide (slot = k) then None else live k).
Proof.
  unfold store_live, with_store. intros Hs. destruct (store l) as [b|] eqn:Hst.
  - destruct Hs as [Hok Hlive]. pose proof (bs_revoke_ok io slot b Hok) as Hok'.
    pose proof (bs_revoke_live io slot b Hok) as Hlv.
    destruct (bs_revoke io slot b) as [b' res]. cbn in *. intros [= <- ->].
    split; [done|]. cbn. split; [done|]. intros k. rewrite (Hlv eq_refl).
    destruct (decide _) as [<-|]; [apply lookup_delete_eq|rewrite lookup_delete_ne by done; apply Hlive].
  - intros [= <-]. by rewrite Hst.
Qed.

Lemma store_live_ext l live live' :
  (forall k, live k = live' k) -> store_live l live -> store_live l live'.
Proof.
  unfold store_live. intros He. destruct (store l); [|done]. intros [? Hl].
  split; [done|]. intros k. by rewrite Hl, He.
Qed.

Lemma revoke_missing_live io before after l live l' :
  store_live l live -> revoke_missing io before after l = (l', Ok tt) ->
  by_slot l' = by_slot l /\
  store_live l' (fun k => if decide (k ∈ dkeys before /\ dget k after = None) then None
                          else live k).
Proof.
  intros Hs. revert l live Hs. induction before as [|[k r] before IH]; intros l live Hs;
    cbn [revoke_missing].
  { intros [= <-]. split; done. }
  destruct (dget k after) as [ra|] eqn:Hg.
  - intros H. destruct (IH l live Hs H) as (Hb & Hlive). split; [done|].
    eapply store_live_ext; [|exact Hlive]. intros k'. cbn.
    destruct (decide (k' ∈ dkeys before /\ dget k' after = None)) as [[H1 H2]|Hn].
    + rewrite decide_True; [done|]. split; [by right|done].
    + rewrite decide_False; [done|]. intros [[->|?]%elem_of_cons ?]; [congruence|naive_solver].
  - destruct (with_store _ l) as [l1 [[]|e]] eqn:Hw; [|done]. intros H.
    destruct (with_store_revoke (io k) k l live l1 Hs Hw) as (Hb1 & Hl1).
    destruct (IH l1 _ Hl1 H) as (Hb & Hlive). split; [congruence|].
    eapply store_live_ext; [|exact Hlive]. intros k'. cbn.
    destruct (decide (k' ∈ dkeys before /\ dget k' after = None)) as [[H1 H2]|Hn].
    + rewrite decide_True; [done|]. split; [by right|done].
    + destruct (decide (k = k')) as [<-|Hne].
      * rewrite decide_True; [done|]. split; [by left|done].
      * rewrite decide_False; [done|]. intros [[->|?]%elem_of_cons ?]; naive_solver.
Qed.

Lemma bind_changed_live io before after l live l' :
  store_live l live -> (forall k, io_ok (io k)) -> NoDup (dkeys after) ->
  (forall k r, (k, r) ∈ after -> bindable r /\ Receipt.receipt_requirement_id r = k) ->
  (forall k r, dget k before = Some r -> dget k after <> None ->
     live k = Some (Receipt.instance_id r)) ->
  bind_changed io before after l = (l', Ok tt) ->
  by_slot l' = by_slot l /\
  store_live l' (fun k => match dget k after with
                          | Some r => Some (Receipt.instance_id r)
                          | None => live k
                          end).
Proof.
  intros Hs Hio. revert l live Hs. induction after as [|[k r] after IH]; intros l live Hs Hnd Hb Hprior;
    cbn [bind_changed].
  { intros [= <-]. split; done. }
  cbn in Hnd. apply NoDup_cons in Hnd as [Hni Hnd].
  assert (dget k after = None) as Hgk.
  { destruct (dget k after) eqn:Hg; [|done]. exfalso. apply Hni, (dget_is_Some k after). eauto. }
  assert (forall k' r', (k', r') ∈ after -> bindable r' /\ Receipt.receipt_requirement_id r' = k')
    as Hb' by (intros; apply Hb; by right).
  assert (forall k' r', dget k' before = Some r' -> dget k' after <> None ->
     live k' = Some (Receipt.instance_id r')) as Hp'.
  { intros k' r' H1 H2. apply (Hprior k' r' H1). cbn. by destruct (decide (k = k')). }
  destruct (match dget k before with Some _ => _ | None => _ end) eqn:Hsame.
  - intros H. destruct (IH l live Hs Hnd Hb' Hp' H) as (Hbs & Hlive). split; [done|].
    eapply store_live_ext; [|exact Hlive]. intros k'. cbn.
    destruct (decide (k = k')) as [<-|]; [|done]. rewrite Hgk.
    destruct (dget k before) as [p|] eqn:Hpk; [|done]. bool_prop. rewrite <- Hsame.
    apply (Hprior k p Hpk). cbn. by rewrite decide_True.
  - destruct (Hb k r ltac:(left)) as [Hbr Hkey].
    destruct (with_store _ l) as [l1 [[]|e]] eqn:Hw; [|done]. intros H.
    destruct (with_store_bind (io k) r l live l1 Hs (Hio k) Hbr Hw) as (Hb1 & Hl1).
    destruct (IH l1 _ Hl1 Hnd Hb') as (Hbs & Hlive); [|exact H|].
    + intros k' r' H1 H2. rewrite decide_False; [by apply Hp'|]. rewrite Hkey. intros <-. done.
    + split; [congruence|].
      eapply store_live_ext; [|exact Hlive]. intros k'. cbn. rewrite Hkey.
      destruct (decide (k = k')) as [<-|]; [|done]. by rewrite Hgk.
Qed.

Definition instances (slots : list (string * Receipt.t)) (k : string) : option string :=
  Receipt.instance_id <$> dget k slots.

Lemma in_step_live l : in_step l <-> store_live l (instances (by_slot l)).
Proof. done. Qed.

Lemma install_in_step io r l l' x :
  in_step l -> io_ok io -> bindable r -> install io r l = (l', Ok x) -> in_step l'.
Proof.
  intros Hl%in_step_live Hio Hb. unfold install.
  destruct (with_store _ l) as [l1 [[]|e]] eqn:Hw; [|done].
  destruct (with_store_bind io r l _ l1 Hl Hio Hb Hw) as (Hbs & Hl1). intros [= <- <-].
  apply in_step_live. eapply store_live_ext; [|exact Hl1]. intros k. cbn. unfold instances.
  rewrite Hbs, dget_dset. unfold Receipt.slot_key. by destruct (decide _).
Qed.

Lemma accept_in_step io r patches rank node global l l' x :
  in_step l -> io_ok io ->
  accept compute_hash is_utc_timestamp io r patches rank node global l = (l', Ok x) -> in_step l'.
Proof.
  intros Hl Hio. unfold accept.
  destruct (validated _ _ _ _ _) as [[]|[msg]] eqn:Hv; [|by intros [= <- <-]].
  destruct (refusals _ _ _ _ _) as [[]|msg] eqn:Hr; [|by intros [= <- <-]].
  pose proof (evidence_bindable _ _ _ (refusals_evidence _ _ _ _ _ _ Hv Hr)) as Hb.
  destruct (dget _ _) as [existing|]; [|by apply install_in_step].
  destruct (bool_decide _); [by destruct (bool_decide _); intros [= <- <-]|].
  apply install_in_step; [exact Hl|done..].
Qed.

Lemma supersede_in_step io k i l l' :
  in_step l -> supersede_instance io k i l = (l', Ok tt) -> in_step l'.
Proof.
  intros Hl. unfold supersede_instance. destruct (dget k (by_slot l)); [|by intros [= <-]].
  destruct (bool_decide _); [|by intros [= <-]].
  destruct (with_store _ l) as [l1 [[]|e]] eqn:Hw; [|done].
  destruct (with_store_revoke io k l _ l1 (proj1 (in_step_live l) Hl) Hw) as (Hbs & Hl1).
  intros [= <-]. apply in_step_live. eapply store_live_ext; [|exact Hl1].
  intros k'. cbn. unfold instances. rewrite Hbs, dget_ddel. by destruct (decide _).
Qed.

Lemma drop_slots_in_step io items l l' :
  in_step l -> drop_slots io items l = (l', Ok tt) -> in_step l'.
Proof.
  revert l. induction items as [|[k r] items IH]; intros l Hl; cbn [drop_slots].
  { by intros [= <-]. }
  destruct (with_store _ l) as [l1 [[]|e]] eqn:Hw; [|done].
  destruct (with_store_revoke (io k) k l _ l1 (proj1 (in_step_live l) Hl) Hw) as (Hbs & Hl1).
  apply IH. apply in_step_live. eapply store_live_ext; [|exact Hl1].
  intros k'. cbn. unfold instances. rewrite Hbs, dget_ddel. by destruct (decide _).
Qed.

(** Both commits run the store loops on their [before] and [after] slots. *)
Lemma flush_in_step io l : in_step l -> in_step (flush_store io l).1.
Proof.
  unfold in_step, flush_store, with_store. destruct (store l) as [b|] eqn:Hs; cbn; [|by rewrite ?Hs].
  intros [Hok Hl]. destruct (bs_flush io b) as [b' r] eqn:Hf. cbn.
  destruct (bs_flush_ok io b Hok) as [Hok' Hlive]. rewrite Hf in Hok', Hlive. cbn in *.
  split; [done|]. intros k. by rewrite Hlive.
Qed.

Lemma commit_loops io1 io2 before after l l1 l2 :
  in_step l -> (forall k, io_ok (io2 k)) ->
  NoDup (dkeys after) ->
  (forall k r, (k, r) ∈ after -> bindable r /\ Receipt.receipt_requirement_id r = k) ->
  (forall k r, dget k before = Some r -> dget k (by_slot l) = Some r) ->
  revoke_missing io1 before after l = (l1, Ok tt) -> bind_changed io2 before after l1 = (l2, Ok tt) ->
  by_slot l2 = by_slot l /\
  store_live l2 (fun k => match dget k after with
    | Some r => Some (Receipt.instance_id r)
    | None => if decide (k ∈ dkeys before) then None else instances (by_slot l) k
    end).
Proof.
  intros Hl Hio2 Hnd Hb Hbefore H1 H2.
  destruct (revoke_missing_live io1 before after l _ l1 (proj1 (in_step_live l) Hl) H1) as (Hs1 & Hl1).
  destruct (bind_changed_live io2 before after l1 _ l2 Hl1 Hio2 Hnd Hb) as (Hs2 & Hl2); [|exact H2|].
  - intros k r Hk Ha. rewrite decide_False by naive_solver. unfold instances.
    by rewrite (Hbefore k r Hk).
  - split; [congruence|].
    eapply store_live_ext; [|exact Hl2]. intros k. cbn. destruct (dget k after); [done|].
    destruct (decide (k ∈ dkeys before)), (decide (k ∈ dkeys before /\ None = None)); naive_solver.
Qed.

Lemma commit_rank_in_step io1 io2 rank cand l l' :
  in_step l -> ledger_ok l -> ledger_ok cand ->
  (forall k, io_ok (io2 k)) ->
  commit_rank_snapshot io1 io2 rank cand l = (l', Ok tt) -> in_step l'.
Proof.
  intros Hl Hok Hokc Hio2. unfold commit_rank_snapshot.
  destruct (revoke_missing _ _ _ _) as [l1 [[]|e]] eqn:H1; [|done].
  destruct (bind_changed _ _ _ _) as [l2 [[]|e]] eqn:H2; [|done]. intros [= <-].
  assert (NoDup (dkeys (owned rank (by_slot cand)))) as Hna
    by (apply NoDup_dkeys_filter, (lo_keys cand Hokc)).
  destruct (commit_loops io1 io2 (owned rank (by_slot l)) (owned rank (by_slot cand)) l l1 l2 Hl Hio2 Hna) as [Hbs Hlive]; try done.
  - intros k r Hin. assert (dget k (by_slot cand) = Some r) as Hg.
    { apply elem_of_dget; [apply Hokc|]. by apply list_elem_of_filter in Hin as [_ ?]. }
    pose proof (lo_evidence cand Hokc k r Hg) as Hev. split; [by eapply evidence_bindable|].
    symmetry. apply Hev.
  - intros k r. rewrite dget_owned by apply Hok. destruct (dget k (by_slot l)); [|done].
    by destruct (decide _).
  - apply in_step_live. eapply store_live_ext; [|exact Hlive]. intros k. cbn. unfold instances.
    rewrite dget_dupdate by done. destruct (dget k (owned rank (by_slot cand))); [done|].
    rewrite dget_pop_all, Hbs. by destruct (decide _).
Qed.

Lemma commit_staged_in_step io1 io2 cand l l' :
  in_step l -> ledger_ok l -> ledger_ok cand ->
  (forall k, io_ok (io2 k)) ->
  commit_staged io1 io2 cand l = (l', Ok tt) -> in_step l'.
Proof.
  intros Hl Hok Hokc Hio2. unfold commit_staged.
  destruct (revoke_missing _ _ _ _) as [l1 [[]|e]] eqn:H1; [|done].
  destruct (bind_changed _ _ _ _) as [l2 [[]|e]] eqn:H2; [|done]. intros [= <-].
  destruct (commit_loops io1 io2 (by_slot l) (by_slot cand) l l1 l2 Hl Hio2 (lo_keys cand Hokc)) as [Hbs Hlive]; try done.
  - intros k r Hin%elem_of_dget; [|apply Hokc]. pose proof (lo_evidence cand Hokc k r Hin) as Hev.
    split; [by eapply evidence_bindable|]. symmetry. apply Hev.
  - apply in_step_live. eapply store_live_ext; [|exact Hlive]. intros k. cbn. unfold instances.
    destruct (dget k (by_slot cand)) eqn:Hc; [done|]. destruct (decide _) as [|Hni]; [done|].
    destruct (dget k (by_slot l)) eqn:Hg; [|done]. exfalso. apply Hni, dget_is_Some. eauto.
Qed.

(** ** Runs *)

(** A store call that has raised ends the operation. *)
Definition returned {A} (x : result store_error A) : Prop := exists a, x = Ok a.

(** The ledgers one generation can reach from its empty ledger [l0]. A snapshot
    is staged on some reachable ledger and committed on a later one. The store calls may raise
    at any point, before or after their files are visible; [clean] runs are those in which they
    return, at times that a clock reads. *)
Inductive lreach (clean : bool) (l0 : t B) : t B -> Prop :=
| lr_empty : lreach clean l0 l0
| lr_accept io r patches rank node global l :
    lreach clean l0 l ->
    (clean = true -> io_ok io /\
       returned (accept compute_hash is_utc_timestamp io r patches rank node global l).2) ->
    lreach clean l0 (accept compute_hash is_utc_timestamp io r patches rank node global l).1
| lr_supersede io k i l :
    lreach clean l0 l -> (clean = true -> returned (supersede_instance io k i l).2) ->
    lreach clean l0 (supersede_instance io k i l).1
| lr_drop io rank l :
    lreach clean l0 l -> (clean = true -> returned (drop_rank io rank l).2) ->
    lreach clean l0 (drop_rank io rank l).1
| lr_commit_rank io1 io2 rank rs node staged_on cand l :
    lreach clean l0 staged_on ->
    stage_rank_snapshot compute_hash is_utc_timestamp rank rs node staged_on = Ok cand ->
    lreach clean l0 l ->
    (clean = true -> (forall k, io_ok (io2 k)) /\ returned (commit_rank_snapshot io1 io2 rank cand l).2) ->
    lreach clean l0 (commit_rank_snapshot io1 io2 rank cand l).1
| lr_commit_staged io1 io2 rank rs node cand l :
    lreach clean l0 l ->
    stage_rank_snapshot compute_hash is_utc_timestamp rank rs node l = Ok cand ->
    (clean = true -> (forall k, io_ok (io2 k)) /\ returned (commit_staged io1 io2 cand l).2) ->
    lreach clean l0 (commit_staged io1 io2 cand l).1
| lr_reject id why l : lreach clean l0 l -> lreach clean l0 (note_rejection l id why)
| lr_flush io l : lreach clean l0 l -> lreach clean l0 (flush_store io l).1.

Definition empty_ledger (l : t B) : Prop := by_slot l = [].

Lemma empty_ok l : empty_ledger l -> ledger_ok l.
Proof. unfold empty_ledger. intros Hs. split; rewrite Hs; [constructor|done]. Qed.

Lemma same_context_sym_trans l l1 l2 : same_context l l1 -> same_context l l2 -> same_context l1 l2.
Proof. unfold same_context. intuition congruence. Qed.

Lemma lreach_ok clean l0 l :
  empty_ledger l0 -> lreach clean l0 l -> ledger_ok l /\ same_context l0 l.
Proof.
  intros He. induction 1 as [|io r pa ra no gl l _ [Hok Hc] _|io k i l _ [Hok Hc] _|
    io rank l _ [Hok Hc] _|io1 io2 rank rs node l1 cand l _ [Hok1 Hc1] Hst _ [Hok Hc] _|
    io1 io2 rank rs node cand l _ [Hok Hc] Hst _|id why l _ [Hok Hc]|io l _ [Hok Hc]].
  - split; [by apply empty_ok|done].
  - destruct (accept _ _ _ _ _ _ _ _ _) as [l' res] eqn:Ha.
    destruct (accept_ok _ _ _ _ _ _ _ _ _ Hok Ha) as [? Hc']. split; [done|].
    exact (same_context_trans _ _ _ Hc Hc').
  - destruct (supersede_instance _ _ _ _) as [l' res] eqn:Ha.
    destruct (supersede_ok _ _ _ _ _ _ Hok Ha) as [? Hc']. split; [done|].
    exact (same_context_trans _ _ _ Hc Hc').
  - destruct (drop_rank _ _ _) as [l' res] eqn:Ha.
    destruct (drop_rank_spec _ _ _ _ _ Hok Ha) as (? & Hc' & _). split; [done|].
    exact (same_context_trans _ _ _ Hc Hc').
  - destruct (stage_ok _ _ _ _ _ Hok1 Hst) as [Hokc Hcc].
    pose proof (same_context_sym_trans _ _ _ Hc (same_context_trans _ _ _ Hc1 Hcc)) as Hlc.
    destruct (commit_rank_snapshot _ _ _ _ _) as [l' res] eqn:Ha.
    destruct (commit_rank_spec _ _ _ _ _ _ _ Hok Hokc Hlc Ha) as (? & Hc' & _). split; [done|].
    exact (same_context_trans _ _ _ Hc Hc').
  - destruct (stage_ok _ _ _ _ _ Hok Hst) as [Hokc Hcc].
    destruct (commit_staged _ _ _ _) as [l' res] eqn:Ha.
    destruct (commit_staged_ok _ _ _ _ _ _ Hok Hokc Hcc Ha) as (? & Hc' & _). split; [done|].
    exact (same_context_trans _ _ _ Hc Hc').
  - split; [by apply (ledger_ok_same l)|done].
  - unfold flush_store. destruct (with_store _ l) as [l' res] eqn:Hw.
    apply with_store_frame in Hw as [Hc' Hs]. split; [by apply (ledger_ok_same l)|].
    exact (same_context_trans _ _ _ Hc Hc').
Qed.

(** C36: The binding store's live instance of every slot is the instance of the accepted receipt,
    and slots without a receipt are unbound, in every run in which the store calls of
    acceptances, supersessions, drops and snapshot commits return; flushes may raise at any
    point, before or after a segment or the projection is visible. *)
Theorem binding_store_in_step l0 l b :
  empty_ledger l0 -> in_step l0 -> lreach true l0 l -> store l = Some b ->
  forall k, bs_live b !! k = Receipt.instance_id <$> dget k (by_slot l).
Proof.
  intros He Hl0 Hr Hst. enough (in_step l) as Hl by (unfold in_step in Hl; rewrite Hst in Hl; apply Hl).
  clear Hst b. induction Hr as [|io r pa ra no gl l Hr IH Hio|io k i l Hr IH Hio|io rank l Hr IH Hio|
    io1 io2 rank rs node l1 cand l Hr1 IH1 Hst Hr IH Hio|io1 io2 rank rs node cand l Hr IH Hst Hio|
    id why l Hr IH|io l Hr IH];
    [done|..].
  - destruct (Hio eq_refl) as [Hok [x Hx]]. destruct (accept _ _ _ _ _ _ _ _ _) as [l' res] eqn:Ha.
    cbn in Hx. subst res. by eapply accept_in_step; eauto.
  - destruct (Hio eq_refl) as [[] Hx]. destruct (supersede_instance _ _ _ _) as [l' res] eqn:Ha.
    cbn in Hx. subst res. by eapply supersede_in_step; eauto.
  - destruct (Hio eq_refl) as [[] Hx]. unfold drop_rank in *. destruct (drop_slots _ _ _) as [l' res] eqn:Ha.
    cbn in Hx. subst res. by eapply drop_slots_in_step; eauto.
  - destruct (Hio eq_refl) as [Hio2 [[] Hx]].
    destruct (lreach_ok _ _ _ He Hr) as [Hok _], (lreach_ok _ _ _ He Hr1) as [Hok1 _].
    destruct (stage_ok _ _ _ _ _ Hok1 Hst) as [Hokc _].
    destruct (commit_rank_snapshot _ _ _ _ _) as [l' res] eqn:Hl'. cbn in Hx. subst res.
    by eapply commit_rank_in_step; [..|exact Hl'].
  - destruct (Hio eq_refl) as [Hio2 [[] Hx]].
    destruct (lreach_ok _ _ _ He Hr) as [Hok _]. destruct (stage_ok _ _ _ _ _ Hok Hst) as [Hokc _].
    destruct (commit_staged _ _ _ _) as [l' res] eqn:Hl'. cbn in Hx. subst res.
    by eapply commit_staged_in_step; [..|exact Hl'].
  - exact IH.
  - by apply flush_in_step.
Qed.

(** ** What the ledger promises *)

Lemma find_requirement_Some p k slot :
  find_requirement p k = Some slot ->
  slot ∈ DeploymentPlan.receipt_requirements p /\ ReceiptRequirement.receipt_requirement_id slot = k.
Proof.
  unfold find_requirement. intros [Hin Hk]%List.find_some. bool_prop. split; [|done].
  by apply list_elem_of_In.
Qed.

(** C4: Every receipt a generation ever holds was planned, for this plan, allocation
    and generation: it sits under the slot it names, agrees with the slot's role,
    scope, component and attestation, carries the digest of its own content, and
    a RANK receipt is owned by the rank the slot was planned for. *)
Theorem accepted_receipt_was_planned clean l0 l k r :
  empty_ledger l0 -> lreach clean l0 l -> dget k (by_slot l) = Some r ->
  exists slot, slot ∈ DeploymentPlan.receipt_requirements (plan l0) /\
    ReceiptRequirement.receipt_requirement_id slot = k /\ Receipt.receipt_requirement_id r = k /\
    Receipt.role r = ReceiptRequirement.role slot /\
    Receipt.owner_scope r = ReceiptRequirement.owner_scope slot /\
    Receipt.component_id r = ReceiptRequirement.component_slot slot /\
    Receipt.attestation_type r = ReceiptRequirement.attestation_type slot /\
    Receipt.deployment_plan_hash r = DeploymentPlan.deployment_plan_hash (plan l0) /\
    Receipt.manifest_hash r = DeploymentPlan.manifest_hash (plan l0) /\
    Receipt.allocation_binding_hash r = AllocationBinding.allocation_binding_hash (binding l0) /\
    Receipt.generation r = AllocationBinding.generation (binding l0) /\
    Receipt.receipt_hash r = compute_hash r /\
    (Receipt.owner_scope r = "RANK" ->
     is_Some (Receipt.owner_rank r) /\ Receipt.owner_rank r = ReceiptRequirement.planned_rank slot).
Proof.
  intros He Hr Hg. destruct (lreach_ok _ _ _ He Hr) as [Hok (Hp & Hb & _)].
  destruct (lo_evidence l Hok k r Hg) as [Hk (req & nr & Hv) Hc (slot & Hf & Hs & Ho)].
  apply find_requirement_Some in Hf as [Hin Hid]. rewrite Hp in Hin.
  apply validate_owner in Hv as [_ Hh]. exists slot.
  unfold check_contract, refuse_if in Hc. rewrite Hp, Hb in Hc. res_inv. bool_prop.
  unfold check_slot, refuse_if in Hs. res_inv. bool_prop. split_and!; try done.
  intros Hrank. destruct Ho as [[Hg' _]|(rank & _ & Ho1 & Ho2)]; [congruence|].
  rewrite Ho1, Ho2. eauto.
Qed.

(** Readiness evidence is exact: the ledger is satisfied exactly when every
    planned requirement has an accepted receipt -- and nothing else is held. *)
Theorem satisfied_means_every_slot_attested clean l0 l :
  empty_ledger l0 -> lreach clean l0 l ->
  satisfied l = true <->
  forall req, req ∈ DeploymentPlan.receipt_requirements (plan l0) ->
    exists r, dget (ReceiptRequirement.receipt_requirement_id req) (by_slot l) = Some r.
Proof.
  intros He Hr. destruct (lreach_ok _ _ _ He Hr) as [Hok (Hp & _ & _)].
  rewrite satisfied_sets, Hp. unfold DeploymentPlan.requirement_keys, accepted_keys.
  unfold DeploymentPlan.requirement_ids. split.
  - intros Heq req Hin. apply dget_is_Some.
    assert (ReceiptRequirement.receipt_requirement_id req
            ∈@{gset string} list_to_set (dkeys (by_slot l))) as Hk.
    { rewrite <- Heq, elem_of_list_to_set. apply list_elem_of_fmap. eauto. }
    by apply elem_of_list_to_set in Hk.
  - intros Hall. apply set_eq. intros k. rewrite !elem_of_list_to_set. split.
    + intros (req & -> & Hin)%list_elem_of_fmap. apply dget_is_Some.
      destruct (Hall req Hin) as [r ->]. eauto.
    + intros [r Hg]%dget_is_Some. destruct (lo_evidence l Hok k r Hg) as [_ _ _ (slot & Hf & _)].
      apply find_requirement_Some in Hf as [Hin <-]. rewrite Hp in Hin.
      apply list_elem_of_fmap. eauto.
Qed.

(** A rank's session is confined to its own slots: whatever receipt it submits,
    every slot that is not planned for that rank keeps its evidence. *)
Theorem rank_session_confined io r patches rank node l k slot :
  find_requirement (plan l) k = Some slot ->
  ReceiptRequirement.planned_rank slot <> Some rank ->
  dget k (by_slot (accept compute_hash is_utc_timestamp io r patches (Some rank) node false l).1)
  = dget k (by_slot l).
Proof.
  intros Hf Hne. destruct (accept _ _ _ _ _ _ _ _ _) as [l' res] eqn:Ha. cbn.
  apply accept_frame in Ha as [_ [->|(-> & _ & _ & Hr)]]; [done|].
  apply dget_dset_ne. intros <-. unfold refusals in Hr. apply bind_Ok in Hr as ([] & _ & Hr).
  rewrite Hf in Hr. apply bind_Ok in Hr as ([] & _ & Hr). unfold check_authority, refuse_if in Hr.
  destruct (bool_decide _); res_inv; bool_prop; done.
Qed.

(** Submitting the same evidence again adds no coverage, and different content
    for the same instance is refused; either way the ledger's slots stay. *)
Theorem duplicate_adds_no_coverage io r existing patches rank node global l :
  validated compute_hash is_utc_timestamp l r patches = Ok tt ->
  refusals l r rank node global = Ok tt ->
  dget (Receipt.receipt_requirement_id r) (by_slot l) = Some existing ->
  Receipt.instance_id existing = Receipt.instance_id r ->
  let out := accept compute_hash is_utc_timestamp io r patches rank node global l in
  by_slot out.1 = by_slot l /\ store out.1 = store l /\
  out.2 = Ok (if bool_decide (Receipt.receipt_hash existing = Receipt.receipt_hash r)
              then (true, "duplicate")
              else (false, "conflicting duplicate for the same instance")).
Proof.
  intros Hv Hr Hg Hi out. unfold out, accept. rewrite Hv, Hr. unfold Receipt.slot_key.
  rewrite Hg, bool_decide_eq_true_2 by done. by destruct (bool_decide _).
Qed.

(** A staged snapshot replaces one rank and only that rank: when it commits, the
    slots owned by the rank are the candidate's, and every other slot is what
    the ledger holds at commit time, even if it changed after staging. *)
Theorem snapshot_commit_is_rank_local clean l0 staged_on rs node rank cand l io1 io2 l' k :
  empty_ledger l0 -> lreach clean l0 staged_on -> lreach clean l0 l ->
  stage_rank_snapshot compute_hash is_utc_timestamp rank rs node staged_on = Ok cand ->
  commit_rank_snapshot io1 io2 rank cand l = (l', Ok tt) ->
  dget k (by_slot l') =
  match dget k (owned rank (by_slot cand)) with
  | Some r => Some r
  | None =>
      match dget k (by_slot l) with
      | Some r => if decide (Receipt.owner_rank r = Some rank) then None else Some r
      | None => None
      end
  end.
Proof.
  intros He Hr1 Hr Hst Hc.
  destruct (lreach_ok _ _ _ He Hr1) as [Hok1 Hc1], (lreach_ok _ _ _ He Hr) as [Hok Hcl].
  destruct (stage_ok _ _ _ _ _ Hok1 Hst) as [Hokc Hcc].
  pose proof (same_context_sym_trans _ _ _ Hcl (same_context_trans _ _ _ Hc1 Hcc)) as Hlc.
  destruct (commit_rank_spec _ _ _ _ _ _ _ Hok Hokc Hlc Hc) as (_ & _ & Hg). rewrite Hg by done.
  destruct (dget k (owned rank (by_slot cand))); [done|].
  pose proof (elem_of_owned k rank (by_slot l) (lo_keys l Hok)) as Ho.
  destruct (decide (k ∈ _)) as [Hin|Hni].
  - apply Ho in Hin as (r & -> & Hr'). by rewrite decide_True.
  - destruct (dget k (by_slot l)) as [r|]; [|done].
    rewrite decide_False; [done|]. intros Hr'. apply Hni, Ho. eauto.
Qed.

(** *** Losing a rank *)

Definition supervisor_slot (rank : Z) : string := "rank" +:+ str_Z rank +:+ "/node_supervisor".

Lemma plan_has_supervisor_slot p rank :
  DeploymentPlan.post_init p = Ok tt -> 0 <= rank < DeploymentPlan.num_nodes p ->
  exists slot, find_requirement p (supervisor_slot rank) = Some slot /\
    ReceiptRequirement.owner_scope slot = "RANK" /\
    ReceiptRequirement.planned_rank slot = Some rank.
Proof.
  intros Hp Hr. unfold DeploymentPlan.post_init, plan_raise_if in Hp. res_inv. bool_prop.
  set (slot := ReceiptRequirement.mk (supervisor_slot rank) "node_supervisor" "node_supervisor" "RANK"
                 (Some rank) ("rank:" +:+ str_Z rank) "SELF").
  assert (slot ∈ DeploymentPlan.receipt_requirements p) as Hin.
  { match goal with H : DeploymentPlan.receipt_requirements p = _ |- _ => rewrite H end.
    unfold build_receipt_requirements. rewrite !elem_of_app. right. right. left.
    apply list_elem_of_bind. exists rank. split; [|by apply elem_of_seqZ; lia].
    unfold rank_requirements. rewrite elem_of_cons. right. apply list_elem_of_singleton. done. }
  match goal with H : no_dups (DeploymentPlan.requirement_ids p) = true |- _ =>
    apply bool_decide_eq_true in H; rename H into Hnd end.
  exists slot. split; [|done]. unfold find_requirement, DeploymentPlan.requirement_ids in *.
  revert Hin Hnd. generalize (DeploymentPlan.receipt_requirements p) as l.
  induction l as [|y l IH]; [by intros ?%not_elem_of_nil|]. cbn [List.find].
  intros Hin [Hni Hnd]%NoDup_cons. apply elem_of_cons in Hin as [<-|Hin].
  - rewrite bool_decide_eq_true_2 by done. done.
  - rewrite bool_decide_eq_false_2; [by apply IH|]. intros Heq. apply Hni.
    apply list_elem_of_fmap. exists slot. by rewrite Heq.
Qed.

(** Without a receipt of one of its ranks, a valid plan is not satisfied. *)
Lemma lost_rank_unsatisfied l rank :
  ledger_ok l -> DeploymentPlan.post_init (plan l) = Ok tt ->
  0 <= rank < DeploymentPlan.num_nodes (plan l) ->
  (forall k r, dget k (by_slot l) = Some r -> Receipt.owner_rank r <> Some rank) ->
  satisfied l = false.
Proof.
  intros Hok Hp Hrank Hno. apply not_true_iff_false. rewrite satisfied_sets. intros Heq.
  destruct (plan_has_supervisor_slot _ _ Hp Hrank) as (slot & Hf & Hsc & Hpr).
  pose proof (find_requirement_Some _ _ _ Hf) as [Hin Hid].
  assert (supervisor_slot rank ∈ accepted_keys l) as Hk.
  { rewrite <- Heq. unfold DeploymentPlan.requirement_keys, DeploymentPlan.requirement_ids.
    apply elem_of_list_to_set, list_elem_of_fmap. eauto. }
  unfold accepted_keys in Hk. apply elem_of_list_to_set, dget_is_Some in Hk as [r Hkr].
  apply (Hno _ _ Hkr).
  destruct (lo_evidence l Hok _ _ Hkr) as [_ _ _ (slot' & Hf' & Hs' & Ho)].
  simplify_eq. unfold check_slot, refuse_if in Hs'. res_inv. bool_prop.
  destruct Ho as [[? _]|(rk & _ & -> & Hrk)]; congruence.
Qed.

(** Losing a rank's session removes its evidence and only its evidence, and the
    ledger of a valid plan is then not satisfied. *)
Theorem losing_rank_revokes_readiness clean l0 l io rank l' :
  empty_ledger l0 -> lreach clean l0 l -> DeploymentPlan.post_init (plan l0) = Ok tt ->
  0 <= rank < DeploymentPlan.num_nodes (plan l0) ->
  drop_rank io rank l = (l', Ok tt) ->
  satisfied l' = false /\
  forall k, dget k (by_slot l') =
    match dget k (by_slot l) with
    | Some r => if decide (Receipt.owner_rank r = Some rank) then None else Some r
    | None => None
    end.
Proof.
  intros He Hr Hp Hrank Hd. destruct (lreach_ok _ _ _ He Hr) as [Hok (Hpl & _)].
  destruct (drop_rank_spec _ _ _ _ _ Hok Hd) as (Hok' & (Hpl' & _) & Hg). split; [|by apply Hg].
  rewrite Hpl in Hpl'. apply (lost_rank_unsatisfied l' rank); [done|by rewrite Hpl'..|].
  intros k r. rewrite Hg by done. destruct (dget k (by_slot l)); [|done]. by destruct (decide _); naive_solver.
Qed.
End Evidence.

(** ** A concrete ledger: one node, one model, the real store *)

Definition demo_hash_of (_ : Receipt.t) : string := demo_digest.
Definition demo_utc (_ : string) : bool := true.

#[local] Instance demo_store_class : BindingStore Store.t :=
  component_binding_store demo_event_hash demo_batch_hash demo_digest_ok.

Definition demo_node_plan : DeploymentPlan.t :=
  let env := ScaleEnvelope.mk 3 "env" "site" "pbs" "intel" "pvc" "vllm" demo_digest (Some HAPROXY)
    PROXIED_INTERNAL "chat" "streaming" 1 4 8 true 8 64 4 "tier" false [] in
  let models :=
    [ModelPlan.mk "m" "m" "m" 1 1 4096 8 (Float.of_Z 1) true true None 4 1
       [ReplicaPlan.mk "m/replica-0" 0 [0] [[0]] 1 1 1 4]] in
  let gateway := Some (GatewayPlan.mk HAPROXY 8000 8001 "PATH:haproxy" 4) in
  DeploymentPlan.mk 3 "dep-1" "site" demo_digest demo_digest demo_digest env 1 1 8 6379 "intel" "vllm"
    "/models" "/local" "serve" 32 false models
    (ExposurePlan.mk PROXIED_INTERNAL "http" "/v1" "trusted_allocation" None (Some 1048576) 8002)
    gateway (build_receipt_requirements 1 models gateway true)
    ControlLimits.default_limits ReadinessLimits.default_limits
    (RuntimePolicy.mk false Float.zero false false true 100 (Float.of_Z 1) 100) false demo_digest.

Example demo_node_plan_valid : DeploymentPlan.post_init demo_node_plan = Ok tt.
Proof. vm_compute. reflexivity. Qed.

Definition demo_node_binding : AllocationBinding.t :=
  AllocationBinding.mk 3 "dep-1" 0 demo_digest demo_digest "job.1" [(0, "node0.site")] demo_digest.

Definition demo_profile : Profile.t := Profile.mk demo_digest "3.12" "2.9" "0.11" "" [] "" "" [] [].

Definition demo_rank_receipt (slot role component instance : string) : Receipt.t :=
  Receipt.mk 2 "dep-1" 0 demo_digest demo_digest demo_digest demo_digest demo_digest slot role
    component instance "RANK" (Some 0) "node0" (Some 17) None demo_digest None demo_digest
    [("python", "3.12"); ("ray", "2.9"); ("vllm", "0.11")] [] [] [] [] "SELF"
    "2026-01-01T00:00:00Z" demo_digest.

Definition demo_io : io_env := Io (Store.barrier_done, Store.barrier_done) (Float.of_Z 10).
Definition demo_empty : t Store.t :=
  mk demo_node_plan demo_node_binding demo_profile [] [] [] (Some demo_fresh).

Example demo_init_agrees :
  init (fun _ => demo_profile) (fun _ => demo_digest) demo_node_plan demo_node_binding
    (Some demo_fresh) = Ok demo_empty.
Proof. vm_compute. reflexivity. Qed.

Definition demo_head : Receipt.t := demo_rank_receipt "rank0/ray_head" "ray_head" "ray" "i1".
Definition demo_supervisor : Receipt.t :=
  demo_rank_receipt "rank0/node_supervisor" "node_supervisor" "node_supervisor" "s1".

Definition demo_accept (r : Receipt.t) (l : t Store.t) :=
  accept demo_hash_of demo_utc demo_io r None (Some 0) (Some "node0") false l.
Definition demo_one : t Store.t := (demo_accept demo_head demo_empty).1.
Definition demo_two : t Store.t := (demo_accept demo_supervisor demo_one).1.

Lemma demo_empty_ok : empty_ledger demo_empty.
Proof. done. Qed.

Lemma demo_two_reach : lreach demo_hash_of demo_utc true demo_empty demo_two.
Proof.
  unfold demo_two, demo_one, demo_accept.
  repeat (apply lr_accept; [|intros _; split; [by split|eexists; vm_compute; reflexivity]]). constructor.
Qed.

Lemma demo_empty_in_step : in_step demo_empty.
Proof.
  unfold in_step, demo_empty. cbn [store by_slot]. split.
  - split; [|apply demo_identity_ok].
    exists true, []. apply (fresh_ok demo_event_hash demo_digest_ok demo_identity 1 1 Written). vm_compute. reflexivity.
  - intros k. vm_compute. reflexivity.
Qed.

Lemma accepted_receipt_was_planned_witness :
  dget "rank0/ray_head" (by_slot demo_two) = Some demo_head /\
  exists slot, slot ∈ DeploymentPlan.receipt_requirements demo_node_plan /\
    ReceiptRequirement.receipt_requirement_id slot = "rank0/ray_head".
Proof.
  assert (dget "rank0/ray_head" (by_slot demo_two) = Some demo_head) as Hg
    by (vm_compute; reflexivity).
  split; [exact Hg|].
  destruct (accepted_receipt_was_planned demo_hash_of demo_utc true demo_empty demo_two _ _
              demo_empty_ok demo_two_reach Hg) as (slot & H1 & H2 & _).
  exists slot. split; [exact H1|exact H2].
Defined.

Lemma satisfied_means_every_slot_attested_witness :
  satisfied demo_two = false /\
  ~ forall req, req ∈ DeploymentPlan.receipt_requirements demo_node_plan ->
    exists r, dget (ReceiptRequirement.receipt_requirement_id req) (by_slot demo_two) = Some r.
Proof.
  split; [vm_compute; reflexivity|].
  intros H. apply (satisfied_means_every_slot_attested demo_hash_of demo_utc true demo_empty demo_two
                     demo_empty_ok demo_two_reach) in H.
  vm_compute in H. discriminate H.
Defined.

Lemma binding_store_in_step_witness :
  exists b, store demo_two = Some b /\ bs_live b !! "rank0/node_supervisor" = Some "s1".
Proof.
  destruct (store demo_two) as [b|] eqn:Hs; [|vm_compute in Hs; discriminate Hs].
  exists b. split; [reflexivity|].
  rewrite (binding_store_in_step demo_hash_of demo_utc demo_empty demo_two b demo_empty_ok
             demo_empty_in_step demo_two_reach Hs).
  vm_compute. reflexivity.
Defined.

Lemma rank_session_confined_witness :
  dget "global/supervisor" (by_slot (demo_accept demo_head demo_one).1)
  = dget "global/supervisor" (by_slot demo_one).
Proof.
  eapply (rank_session_confined demo_hash_of demo_utc demo_io demo_head None 0 (Some "node0") demo_one);
    [vm_compute; reflexivity|discriminate].
Defined.

Lemma duplicate_adds_no_coverage_witness :
  (demo_accept demo_head demo_two).2 = Ok (true, "duplicate").
Proof.
  apply (duplicate_adds_no_coverage demo_hash_of demo_utc demo_io demo_head demo_head None (Some 0)
           (Some "node0") false demo_two); vm_compute; reflexivity.
Defined.

Lemma snapshot_commit_is_rank_local_witness :
  exists cand l',
    stage_rank_snapshot demo_hash_of demo_utc 0 [demo_supervisor] "node0" demo_two = Ok cand /\
    commit_rank_snapshot (fun _ => demo_io) (fun _ => demo_io) 0 cand demo_two = (l', Ok tt) /\
    dget "rank0/ray_head" (by_slot l') = None.
Proof.
  destruct (stage_rank_snapshot demo_hash_of demo_utc 0 [demo_supervisor] "node0" demo_two)
    as [cand|e] eqn:Hst; [|vm_compute in Hst; discriminate Hst].
  destruct (commit_rank_snapshot (fun _ => demo_io) (fun _ => demo_io) 0 cand demo_two)
    as [l' res] eqn:Hc.
  assert (res = Ok tt /\ dget "rank0/ray_head" (owned 0 (by_slot cand)) = None) as [-> Hno].
  { vm_compute in Hst. injection Hst as <-. vm_compute in Hc. injection Hc as <- <-.
    split; vm_compute; reflexivity. }
  exists cand, l'. split; [reflexivity|]. split; [exact Hc|].
  rewrite (snapshot_commit_is_rank_local demo_hash_of demo_utc true demo_empty demo_two
             [demo_supervisor] "node0" 0 cand demo_two (fun _ => demo_io) (fun _ => demo_io) l'
             "rank0/ray_head" demo_empty_ok demo_two_reach demo_two_reach Hst Hc), Hno.
  vm_compute. reflexivity.
Defined.

Lemma losing_rank_revokes_readiness_witness :
  exists l', drop_rank (fun _ => demo_io) 0 demo_two = (l', Ok tt) /\ satisfied l' = false.
Proof.
  destruct (drop_rank (fun _ => demo_io) 0 demo_two) as [l' res] eqn:Hd.
  assert (res = Ok tt) as -> by (vm_compute in Hd; injection Hd as _ <-; reflexivity).
  exists l'. split; [reflexivity|].
  apply (losing_rank_revokes_readiness demo_hash_of demo_utc true demo_empty demo_two
           (fun _ => demo_io) 0 l' demo_empty_ok demo_two_reach demo_node_plan_valid); [|exact Hd].
  cbn. lia.
Defined.
