(* ===== verification/Manifest.v ===== *)
(** The receipt manifest (src/exaserve/state/receipts.py): the immutable file that lists the
    exact receipts behind READY.

    A field of the constructor is any JSON value until its check; the receipts of a manifest
    are decoded but not validated, so their hash is computed on untyped fields
    ([raw_canonical]). A file is written once; what is written is read back as it was (the
    order of the keys, which no hash depends on in the source, is the order of writing). *)

From S2P Require Import Prelude PyValue Atomic Envelopes Contracts Receipts ReceiptCodec Status.

(** ** The hash of a decoded receipt *)

Definition is_comparable (v : value) : bool :=
  match v with VBool _ | VInt _ | VFloat _ => true | _ => false end.
Definition as_text (v : value) : option string := match v with VStr s => Some s | _ => None end.
Definition hashable (v : value) : bool := match v with VList _ | VDict _ => false | _ => true end.

(** [set(l)] of hashable values: the first of equal ones stays. *)
Fixpoint distinct_values (l : list value) : list value :=
  match l with
  | [] => []
  | v :: l' => v :: List.filter (fun w => negb (py_eqb v w)) (distinct_values l')
  end.

Definition num_le (a b : value) : Prop := num_ltb b a = false.
#[global] Instance num_le_dec : RelDecision num_le.
Proof. intros a b. unfold num_le. apply _. Defined.

(** [sorted(set(l))]: text with text, numbers with numbers; one element needs no comparison. *)
Definition sorted_distinct (l : list value) : option (list value) :=
  if negb (forallb hashable l) then None
  else match mapM as_text l with
       | Some texts => Some (VStr <$> sorted_set texts)
       | None =>
           let s := distinct_values l in
           if forallb is_comparable s then Some (merge_sort num_le s)
           else match s with [v] => Some [v] | _ => None end
       end.

Definition sorted_map (v : value) : value :=
  match v with VDict m => VDict (sorted_items m) | _ => v end.

(** [canonical] of the object that [receipt_from_dict] built; sorting capabilities may raise. *)
Definition raw_canonical (raw : RawReceipt) : option dict :=
  capabilities ← match attr "capabilities" (raw_data raw) with
                 | VList l => sorted_distinct l
                 | _ => None
                 end;
  let field name :=
    if bool_decide (name = "patch_results") then VDict (map_values patch_dict (sorted_items (raw_patches raw)))
    else if bool_decide (name = "capabilities") then VList capabilities
    else if bool_decide (name ∈ ["observed_versions"; "observed_package_hashes"; "observed_source_hashes"])
    then sorted_map (attr name (raw_data raw))
    else attr name (raw_data raw) in
  Some ((fun name => (name, field name)) <$>
          List.filter (fun name => negb (bool_decide (name = "receipt_hash"))) RECEIPT_FIELDS).

(** ** The manifest *)

(** [ManifestError] is a [ReceiptManifestError]; [ManifestType] any other exception of the
    constructor, which the loader turns into the former; [ManifestIo] an [OSError]. *)
Inductive manifest_error :=
| ManifestError (message : string)
| ManifestType
| ManifestIo.

Abbreviation manifest_result := (result manifest_error).

Definition manifest_if (b : bool) (message : string) : manifest_result unit :=
  raise_if b (ManifestError message).

Module ReceiptManifest.
Record t := mk {
  schema_version : value;
  deployment_id : string;
  generation : Z;
  deployment_plan_hash : string;
  allocation_binding_hash : string;
  receipt_hashes : list string;
  receipts : list dict;
  manifest_hash : string;
}.

Definition FIELDS : list string :=
  ["schema_version"; "deployment_id"; "generation"; "deployment_plan_hash"; "allocation_binding_hash";
   "receipt_hashes"; "receipts"; "manifest_hash"].

(** [asdict] *)
Definition asdict (m : t) : dict :=
  [("schema_version", schema_version m); ("deployment_id", VStr (deployment_id m));
   ("generation", VInt (generation m)); ("deployment_plan_hash", VStr (deployment_plan_hash m));
   ("allocation_binding_hash", VStr (allocation_binding_hash m));
   ("receipt_hashes", VList (VStr <$> receipt_hashes m)); ("receipts", VList (VDict <$> receipts m));
   ("manifest_hash", VStr (manifest_hash m))].

Definition canonical (m : t) : dict :=
  List.filter (fun kv => negb (bool_decide (kv.1 = "manifest_hash"))) (asdict m).

Definition with_hash (h : string) (m : t) : t :=
  mk (schema_version m) (deployment_id m) (generation m) (deployment_plan_hash m)
    (allocation_binding_hash m) (receipt_hashes m) (receipts m) h.
End ReceiptManifest.

Definition sha_value (message : string) (v : value) : manifest_result string :=
  match v with
  | VStr s => if is_sha256 s then Ok s else Err (ManifestError message)
  | _ => Err (ManifestError message)
  end.

Definition as_dict (v : value) : option dict := match v with VDict d => Some d | _ => None end.

Definition list_of {A} (f : value -> option A) (message : string) (v : value) : manifest_result (list A) :=
  match v with
  | VList l => match mapM f l with Some x => Ok x | None => Err (ManifestError message) end
  | _ => Err (ManifestError message)
  end.

Definition sha_item (v : value) : option string :=
  match v with VStr s => if is_sha256 s then Some s else None | _ => None end.

Section Manifest.
(** [canonical_hash] of an object with finite numbers. *)
Context (canonical_hash : dict -> string).

(** [canonical_hash]: a number that is not finite raises. *)
Definition strict_hash (d : dict) : manifest_result string :=
  if json_writable (VDict d) then Ok (canonical_hash d) else Err ManifestType.

(** One turn of the loop over the receipts. *)
Definition parse_receipt (payload : dict) : manifest_result RawReceipt :=
  raw ← match receipt_from_dict (VDict payload) with
        | Ok raw => Ok raw
        | Err _ => Err (ManifestError "invalid embedded receipt")
        end;
  canonical ← match raw_canonical raw with Some c => Ok c | None => Err ManifestType end;
  hash ← strict_hash canonical;
  _ ← manifest_if (negb (py_eqb (attr "receipt_hash" (raw_data raw)) (VStr hash)))
        "receipt content hash mismatch";
  Ok raw.

Fixpoint parse_receipts (l : list dict) : manifest_result (list RawReceipt) :=
  match l with
  | [] => Ok []
  | payload :: l' => raw ← parse_receipt payload; rest ← parse_receipts l'; Ok (raw :: rest)
  end.

Definition raw_field (name : string) (raw : RawReceipt) : value := attr name (raw_data raw).

(** The hash of a parsed receipt: it equals the computed one, so it is text. *)
Definition raw_hash (raw : RawReceipt) : string :=
  match raw_field "receipt_hash" raw with VStr s => s | _ => "" end.

Definition same_identity (deployment_id : string) (generation : Z) (plan_hash binding_hash : string)
    (raw : RawReceipt) : bool :=
  py_eqb (raw_field "deployment_id" raw) (VStr deployment_id) &&
  py_eqb (raw_field "generation" raw) (VInt generation) &&
  py_eqb (raw_field "deployment_plan_hash" raw) (VStr plan_hash) &&
  py_eqb (raw_field "allocation_binding_hash" raw) (VStr binding_hash).

(** [__post_init__] *)
Definition construct (schema_version deployment generation plan_hash binding_hash receipt_hashes
    receipts manifest_hash : value) : manifest_result ReceiptManifest.t :=
  _ ← manifest_if (match schema_version with VBool _ => true | _ => false end
                   || negb (py_eqb schema_version (VInt 1))) "unsupported receipt manifest schema";
  deployment_id ← match nonempty_str deployment with
                  | Some s => Ok s
                  | None => Err (ManifestError "receipt manifest identity is incomplete")
                  end;
  gen ← match generation with
        | VInt z => _ ← manifest_if (z <? 0) "receipt manifest generation must be non-negative"; Ok z
        | _ => Err (ManifestError "receipt manifest generation must be non-negative")
        end;
  plan ← sha_value "receipt manifest deployment_plan_hash must be SHA-256" plan_hash;
  binding ← sha_value "receipt manifest allocation_binding_hash must be SHA-256" binding_hash;
  own ← match manifest_hash with
        | VStr s => _ ← manifest_if (nonempty s && negb (is_sha256 s)) "manifest_hash must be empty or SHA-256";
                    Ok s
        | _ => Err (ManifestError "manifest_hash must be empty or SHA-256")
        end;
  hashes ← list_of sha_item "receipt_hashes must contain SHA-256 values" receipt_hashes;
  payloads ← list_of as_dict "receipts must contain JSON objects" receipts;
  parsed ← parse_receipts payloads;
  _ ← manifest_if (negb (bool_decide (merge_sort string_le (raw_hash <$> parsed) = hashes)))
        "receipt_hashes are not the exact sorted embedded receipt set";
  let slots := raw_field "receipt_requirement_id" <$> parsed in
  _ ← raise_if (negb (forallb hashable slots)) ManifestType;
  _ ← manifest_if (negb (length (distinct_values slots) =? length slots)%nat)
        "receipt manifest has duplicate planned slots";
  _ ← manifest_if (negb (forallb (same_identity deployment_id gen plan binding) parsed))
        "embedded receipt identity drift";
  Ok (ReceiptManifest.mk schema_version deployment_id gen plan binding hashes payloads own).

(** [compute_hash] *)
Definition manifest_hash_of (m : ReceiptManifest.t) : manifest_result string :=
  strict_hash (ReceiptManifest.canonical m).

(** [finalize]: [replace] runs the checks of the constructor again. *)
Definition finalize_manifest (m : ReceiptManifest.t) : manifest_result ReceiptManifest.t :=
  h ← manifest_hash_of m;
  let d := ReceiptManifest.asdict m in
  construct (attr "schema_version" d) (attr "deployment_id" d) (attr "generation" d)
    (attr "deployment_plan_hash" d) (attr "allocation_binding_hash" d) (attr "receipt_hashes" d)
    (attr "receipts" d) (VStr h).

(** [load_receipt_manifest] *)
Definition load_receipt_manifest (f : file) : manifest_result ReceiptManifest.t :=
  match f with
  | Doc (VDict raw) =>
      _ ← manifest_if (negb (same_keys (dkeys raw) ReceiptManifest.FIELDS)) "receipt manifest shape mismatch";
      m ← match construct (attr "schema_version" raw) (attr "deployment_id" raw) (attr "generation" raw)
                  (attr "deployment_plan_hash" raw) (attr "allocation_binding_hash" raw)
                  (attr "receipt_hashes" raw) (attr "receipts" raw) (attr "manifest_hash" raw) with
          | Ok m => Ok m
          | Err _ => Err (ManifestError "invalid receipt manifest")
          end;
      h ← manifest_hash_of m;
      _ ← manifest_if (negb (bool_decide (ReceiptManifest.manifest_hash m = h)))
            "receipt manifest hash mismatch";
      Ok m
  | Doc _ => Err (ManifestError "receipt manifest shape mismatch")
  | _ => Err (ManifestError "could not read receipt manifest")
  end.

(** [write_receipt_manifest]; [written] is how the creation of the file ends. *)
Definition write_receipt_manifest (written : write_outcome) (m : ReceiptManifest.t) (f : file)
    : file * manifest_result unit :=
  match manifest_hash_of m with
  | Err e => (f, Err e)
  | Ok h =>
      if negb (bool_decide (ReceiptManifest.manifest_hash m = h))
      then (f, Err (ManifestError "refusing unfinalized receipt manifest"))
      else
        match f with
        | Missing => atomic_write ManifestIo written (Doc (VDict (ReceiptManifest.asdict m))) f
        | _ =>
            match load_receipt_manifest f with
            | Err e => (f, Err e)
            | Ok existing =>
                if bool_decide (ReceiptManifest.manifest_hash existing = ReceiptManifest.manifest_hash m)
                then (f, Ok tt)
                else (f, Err (ManifestError "refusing to replace an immutable receipt manifest"))
            end
        end
  end.
End Manifest.
