(* ===== verification/ManifestProps.v ===== *)
(** Theorems on the receipt manifest: validated receipts make a manifest that is read back as
    it was written, and a manifest that was written never changes. *)

From S2P Require Import Prelude PyValue Atomic Envelopes Contracts Receipts ReceiptCodec ReceiptCodecProps Status StatusProps Manifest.

(** ** Receipts inside a manifest *)

Lemma sorted_items_map {A B} (f : A -> B) (m : list (string * A)) :
  NoDup (dkeys m) ->
  sorted_items ((fun kv => (kv.1, f kv.2)) <$> m) = (fun kv => (kv.1, f kv.2)) <$> sorted_items m.
Proof.
  intros Hnd. apply (StronglySorted_unique_strong item_le).
  - intros [k1 v1] [k2 v2] H1 H2 Hle1 Hle2.
    pose proof (String.leb_antisym _ _ Hle1 Hle2) as Hk. cbn in Hk. subst k2. f_equal.
    rewrite sorted_items_perm in H1. rewrite (sorted_items_perm m) in H2.
    apply (nodup_keys_inj ((fun kv => (kv.1, f kv.2)) <$> m) k1); [|done..].
    unfold dkeys in *. by rewrite <- list_fmap_compose.
  - apply (StronglySorted_merge_sort item_le).
  - assert (StronglySorted item_le (sorted_items m)) as Hs by apply (StronglySorted_merge_sort item_le).
    induction Hs as [|x l Hl IH Hx]; cbn; constructor; [done|]. by rewrite Forall_fmap.
  - by rewrite !sorted_items_perm.
Qed.

Lemma mapM_as_text l : mapM as_text (VStr <$> l) = Some l.
Proof. induction l as [|s l IH]; [done|]. cbn. by rewrite IH. Qed.

Lemma sorted_distinct_texts l : sorted_distinct (VStr <$> l) = Some (VStr <$> sorted_set l).
Proof.
  unfold sorted_distinct. rewrite mapM_as_text.
  assert (forallb hashable (VStr <$> l) = true) as -> by (induction l; done). done.
Qed.

Lemma writable_values {A} (f : A -> value) m :
  (forall a, json_writable (f a) = true) -> json_writable (VDict (map_values f m)) = true.
Proof.
  intros Hf. unfold map_values. cbn [json_writable].
  induction m as [|[k a] m IH]; [done|]. cbn [map forallb fst snd]. by rewrite Hf, IH.
Qed.

Lemma writable_texts l : json_writable (VList (VStr <$> l)) = true.
Proof. cbn. induction l; done. Qed.

Lemma writable_receipt r : json_writable (VDict (receipt_dict r)) = true.
Proof.
  assert (forall (A : Type) (g : A -> value) o, (forall a, json_writable (g a) = true) ->
            json_writable (opt_value g o) = true) as Ho by (intros A g [a|] Hg; [apply Hg|done]).
  unfold receipt_dict. cbn [json_writable forallb snd].
  change (forallb (fun kv => json_writable kv.2) (map_values ?f ?m)) with (json_writable (VDict (map_values f m))).
  rewrite !(writable_values VStr), !(Ho _ VInt), !(Ho _ VStr) by done.
  rewrite (writable_values patch_dict).
  - change (map VStr ?l) with (VStr <$> l). change (forallb json_writable ?l) with (json_writable (VList l)).
    by rewrite writable_texts.
  - intros p. unfold patch_dict. cbn [json_writable forallb snd]. by rewrite (Ho _ VStr).
Qed.

Lemma writable_filter p d :
  json_writable (VDict d) = true -> json_writable (VDict (List.filter p d)) = true.
Proof.
  cbn. induction d as [|kv d IH]; [done|]. cbn. intros [Hv Hd]%andb_prop. destruct (p kv); cbn; [|auto].
  by rewrite Hv, IH.
Qed.

Section Receipts.
Context (ch : dict -> string) (ts : string -> bool).

(** A receipt that the ledger may hold. *)
Record sound (r : Receipt.t) : Prop := Sound {
  so_maps : maps_ok r;
  so_valid : exists required not_required,
    validate_receipt (compute_hash ch) ts r required not_required = Ok tt
}.

Definition raw_of (r : Receipt.t) : RawReceipt :=
  Raw (receipt_dict (normal r)) (Receipt.patch_results (normal r)).

Lemma sound_hash r : sound r -> Receipt.receipt_hash r = compute_hash ch r.
Proof.
  intros [_ (req & nreq & Hv)]. unfold validate_receipt in Hv.
  apply bind_Ok in Hv as ([] & _ & Hv). apply bind_Ok in Hv as ([] & _ & Hv).
  apply bind_Ok in Hv as ([] & _ & Hv). apply bind_Ok in Hv as ([] & _ & Hv).
  apply raise_if_Ok, negb_false_iff, bool_decide_eq_true in Hv. exact Hv.
Qed.

Lemma sound_dict r : sound r -> to_dict ch r = receipt_dict (normal r).
Proof. intros [_ (req & nreq & Hv)]. apply to_dict_normal. by eapply receipt_hash_nonempty. Qed.

Lemma sound_decodes r : sound r -> receipt_from_dict (VDict (to_dict ch r)) = Ok (raw_of r).
Proof.
  intros Hs. rewrite (sound_dict r Hs). destruct Hs as [Hm (req & nreq & Hv)].
  destruct (normal_validates _ _ _ _ _ Hm Hv) as [Hnv _]. apply decode_receipt_dict.
  - by eapply (version_of_validated _ _ (normal r)).
  - by eapply (patches_of_validated _ _ (normal r)).
Qed.

(** The hash of the decoded receipt is the hash of the receipt. *)
Lemma raw_canonical_of r : sound r -> raw_canonical (raw_of r) = Some (canonical r).
Proof.
  intros [(H1 & H2 & H3 & H4) (req & nreq & Hv)].
  pose proof (capabilities_of_validated _ _ _ _ _ Hv) as Hc. unfold raw_canonical, raw_of. cbn [raw_data raw_patches].
  change (attr "capabilities" (receipt_dict (normal r))) with (VList (VStr <$> Receipt.capabilities (normal r))).
  cbv beta iota. rewrite sorted_distinct_texts. cbn [mbind option_bind]. f_equal.
  assert (forall m : list (string * string), NoDup (dkeys m) ->
            sorted_map (VDict (map_values VStr (sorted_items m))) = VDict (map_values VStr (sorted_items m))) as Hmap.
  { intros m Hm. unfold sorted_map, map_values. f_equal.
    change (map (fun kv => (kv.1, VStr kv.2)) ?l) with ((fun kv => (kv.1, VStr kv.2)) <$> l).
    rewrite sorted_items_map, sorted_items_idemp; [done|done|]. unfold dkeys in *. by rewrite sorted_items_perm. }
  unfold canonical.
  change (Receipt.patch_results (normal r)) with (sorted_items (Receipt.patch_results r)).
  rewrite (sorted_items_idemp (Receipt.patch_results r)) by done.
  transitivity ((fun name => (name, attr name (receipt_dict (normal r)))) <$>
    List.filter (fun name => negb (bool_decide (name = "receipt_hash"))) RECEIPT_FIELDS); [|reflexivity].
  apply list_fmap_ext. intros _ name _. f_equal.
  case_bool_decide as E1; [by subst|]. case_bool_decide as E2.
  { subst. cbn [normal Receipt.capabilities].
    change (attr "capabilities" (receipt_dict (normal r))) with (VList (VStr <$> Receipt.capabilities (normal r))).
    change (sorted_set (Receipt.capabilities r)) with (Receipt.capabilities (normal r)). rewrite Hc.
    change (sorted_set (Receipt.capabilities r)) with (Receipt.capabilities (normal r)). by rewrite Hc. }
  case_bool_decide as E3; [|done]. rewrite !elem_of_cons, elem_of_nil in E3.
  destruct E3 as [->|[->|[->|[]]]]; by apply Hmap.
Qed.

Lemma writable_canonical r : json_writable (VDict (canonical r)) = true.
Proof. apply writable_filter, writable_receipt. Qed.

Lemma parse_sound r : sound r -> parse_receipt ch (to_dict ch r) = Ok (raw_of r).
Proof.
  intros Hs. unfold parse_receipt, strict_hash. rewrite (sound_decodes r Hs).
  cbn [mbind result_bind]. rewrite (raw_canonical_of r Hs). cbn [mbind result_bind].
  rewrite (writable_canonical r). cbn [mbind result_bind].
  change (attr "receipt_hash" (raw_data (raw_of r))) with (VStr (Receipt.receipt_hash r)).
  rewrite (sound_hash r Hs). unfold compute_hash, manifest_if. cbn [py_eqb]. by rewrite bool_decide_true.
Qed.

Lemma parse_all rs : Forall sound rs -> parse_receipts ch (to_dict ch <$> rs) = Ok (raw_of <$> rs).
Proof.
  induction 1 as [|r rs Hr _ IH]; [done|]. cbn [fmap list_fmap parse_receipts].
  by rewrite (parse_sound r Hr), IH.
Qed.

(** ** The manifest of a list of receipts *)

Context (dep : string) (gen : Z) (ph bh : string).

(** Receipts of one deployment, one per slot. *)
Record listed (rs : list Receipt.t) : Prop := Listed {
  li_deployment : nonempty dep = true;
  li_generation : 0 <= gen;
  li_plan : is_sha256 ph = true;
  li_binding : is_sha256 bh = true;
  li_sound : Forall sound rs;
  li_slots : NoDup (Receipt.receipt_requirement_id <$> rs);
  li_identity : forall r, r ∈ rs -> Receipt.deployment_id r = dep /\ Receipt.generation r = gen /\
    Receipt.deployment_plan_hash r = ph /\ Receipt.allocation_binding_hash r = bh
}.

Definition listed_hashes (rs : list Receipt.t) : list string :=
  merge_sort string_le (Receipt.receipt_hash <$> rs).

Definition manifest_of (h : string) (rs : list Receipt.t) : ReceiptManifest.t :=
  ReceiptManifest.mk (VInt 1) dep gen ph bh (listed_hashes rs) (to_dict ch <$> rs) h.

Definition construct_of (h : string) (rs : list Receipt.t) : manifest_result ReceiptManifest.t :=
  construct ch (VInt 1) (VStr dep) (VInt gen) (VStr ph) (VStr bh) (VList (VStr <$> listed_hashes rs))
    (VList (VDict <$> (to_dict ch <$> rs))) (VStr h).

Lemma distinct_texts l : NoDup l -> distinct_values (VStr <$> l) = VStr <$> l.
Proof.
  induction 1 as [|s l Hs Hl IH]; [done|]. cbn [fmap list_fmap distinct_values]. f_equal.
  change (list_fmap string value VStr l) with (VStr <$> l). rewrite IH. clear IH Hl.
  induction l as [|s' l IH]; [done|]. apply not_elem_of_cons in Hs as [Hne Hs].
  cbn [fmap list_fmap List.filter py_eqb]. rewrite bool_decide_false by done. cbn [negb]. f_equal. by apply IH.
Qed.

Lemma mapM_as_dict l : mapM as_dict (VDict <$> l) = Some l.
Proof. induction l as [|x l IH]; [done|]. cbn. by rewrite IH. Qed.

Lemma mapM_sha_item l : forallb is_sha256 l = true -> mapM sha_item (VStr <$> l) = Some l.
Proof. induction l as [|s l IH]; [done|]. cbn. intros [-> Hl]%andb_prop. by rewrite (IH Hl). Qed.

(** A canonical hash is a SHA-256 digest in lower case hexadecimal. *)
Context (Hsha : forall d, is_sha256 (ch d) = true).

Lemma listed_hashes_sha rs : Forall sound rs -> forallb is_sha256 (listed_hashes rs) = true.
Proof.
  intros Hs. unfold listed_hashes. rewrite (forallb_perm _ _ _ (merge_sort_Permutation _ _)).
  induction Hs as [|r rs Hr _ IH]; [done|]. cbn [fmap list_fmap forallb].
  rewrite (sound_hash r Hr). unfold compute_hash. by rewrite Hsha.
Qed.

Lemma construct_listed h rs :
  listed rs -> nonempty h && negb (is_sha256 h) = false -> construct_of h rs = Ok (manifest_of h rs).
Proof.
  intros [Hd Hg Hp Hb Hs Hn Hi] Hh. unfold construct_of, construct, manifest_if, sha_value, list_of.
  cbn [py_eqb nonempty_str as_number num_compare orb]. rewrite Hd, Hp, Hb, Hh, mapM_as_dict.
  rewrite mapM_sha_item by by apply listed_hashes_sha.
  assert ((gen <? 0) = false) as -> by (apply Z.ltb_ge; lia).
  cbn [mbind result_bind raise_if negb Z.compare]. rewrite (parse_all rs Hs).
  assert (raw_hash <$> (raw_of <$> rs) = Receipt.receipt_hash <$> rs) as Hhash by by rewrite <- list_fmap_compose.
  assert (raw_field "receipt_requirement_id" <$> (raw_of <$> rs)
          = VStr <$> (Receipt.receipt_requirement_id <$> rs)) as Hslot by by rewrite <- !list_fmap_compose.
  cbn [mbind result_bind raise_if negb Z.compare]. rewrite Hhash, Hslot, distinct_texts by done.
  rewrite bool_decide_true, Nat.eqb_refl by done.
  assert (forall l, forallb hashable (VStr <$> l) = true) as -> by (intros l; by induction l).
  assert (forallb (same_identity dep gen ph bh) (raw_of <$> rs) = true) as ->; [|done].
  apply forallb_forall. intros raw (r & -> & Hr)%list_elem_of_In%list_elem_of_fmap.
  destruct (Hi r Hr) as (H1 & H2 & H3 & H4). unfold same_identity.
  change (raw_field "deployment_id" (raw_of r)) with (VStr (Receipt.deployment_id r)).
  change (raw_field "generation" (raw_of r)) with (VInt (Receipt.generation r)).
  change (raw_field "deployment_plan_hash" (raw_of r)) with (VStr (Receipt.deployment_plan_hash r)).
  change (raw_field "allocation_binding_hash" (raw_of r)) with (VStr (Receipt.allocation_binding_hash r)).
  rewrite H1, H2, H3, H4. cbn [py_eqb as_number num_compare]. by rewrite !bool_decide_true, Z.compare_refl.
Qed.

Lemma writable_manifest h rs : json_writable (VDict (ReceiptManifest.asdict (manifest_of h rs))) = true.
Proof.
  unfold ReceiptManifest.asdict, manifest_of. cbn [json_writable forallb snd ReceiptManifest.schema_version
    ReceiptManifest.receipt_hashes ReceiptManifest.receipts andb].
  change (forallb json_writable (VStr <$> ?l)) with (json_writable (VList (VStr <$> l))).
  rewrite writable_texts. cbn [andb]. rewrite andb_true_r.
  induction rs as [|r rs IH]; [done|]. cbn [fmap list_fmap forallb].
  rewrite IH, andb_true_r. by apply writable_dset, writable_canonical.
Qed.

(** The manifest that is published: its own hash completes it. *)
Definition final_hash (rs : list Receipt.t) : string := ch (ReceiptManifest.canonical (manifest_of "" rs)).
Definition final (rs : list Receipt.t) : ReceiptManifest.t := manifest_of (final_hash rs) rs.

Lemma hash_of_manifest h rs : manifest_hash_of ch (manifest_of h rs) = Ok (final_hash rs).
Proof.
  unfold manifest_hash_of, strict_hash, ReceiptManifest.canonical.
  by rewrite (writable_filter (fun kv => negb (bool_decide (kv.1 = "manifest_hash"))) _ (writable_manifest h rs)).
Qed.

Lemma final_hash_sha rs : is_sha256 (final_hash rs) = true.
Proof. apply Hsha. Qed.

Lemma finalize_listed rs : listed rs -> finalize_manifest ch (manifest_of "" rs) = Ok (final rs).
Proof.
  intros Hl. unfold finalize_manifest. rewrite hash_of_manifest. cbn [mbind result_bind].
  apply (construct_listed (final_hash rs) rs Hl). by rewrite final_hash_sha, andb_false_r.
Qed.

Lemma load_final rs : listed rs -> load_receipt_manifest ch (Doc (VDict (ReceiptManifest.asdict (final rs)))) = Ok (final rs).
Proof.
  intros Hl. unfold load_receipt_manifest, manifest_if.
  change (dkeys (ReceiptManifest.asdict (final rs))) with ReceiptManifest.FIELDS.
  assert (same_keys ReceiptManifest.FIELDS ReceiptManifest.FIELDS = true) as -> by (vm_compute; reflexivity).
  cbn [negb raise_if mbind result_bind].
  match goal with |- context [construct ch ?a ?b ?c ?d ?e ?f ?g ?h] =>
    change (construct ch a b c d e f g h) with (construct_of (final_hash rs) rs) end.
  rewrite (construct_listed (final_hash rs) rs Hl) by by rewrite final_hash_sha, andb_false_r.
  cbn [mbind result_bind]. rewrite hash_of_manifest. cbn [mbind result_bind].
  by rewrite bool_decide_true.
Qed.

Lemma write_final rs :
  write_receipt_manifest ch Written (final rs) Missing = (Doc (VDict (ReceiptManifest.asdict (final rs))), Ok tt).
Proof.
  unfold write_receipt_manifest. change (manifest_hash_of ch (final rs)) with (manifest_hash_of ch (manifest_of (final_hash rs) rs)).
  rewrite hash_of_manifest.
  by rewrite bool_decide_true.
Qed.

(** A file that exists is never written. *)
Lemma write_existing written m f : f <> Missing -> (write_receipt_manifest ch written m f).1 = f.
Proof.
  intros Hf. unfold write_receipt_manifest. destruct (manifest_hash_of ch m); [|done].
  destruct (negb _); [done|]. destruct f; [done|..]; (destruct (load_receipt_manifest ch _); [by destruct (bool_decide _)|done]).
Qed.

Lemma write_existing_Ok written m f e :
  f <> Missing -> load_receipt_manifest ch f = Ok e -> (write_receipt_manifest ch written m f).2 = Ok tt ->
  ReceiptManifest.manifest_hash e = ReceiptManifest.manifest_hash m.
Proof.
  intros Hf He. unfold write_receipt_manifest. destruct (manifest_hash_of ch m); [|done].
  destruct (negb _); [done|]. destruct f; [done|..]; rewrite He; by case_bool_decide.
Qed.

(** C29: The manifest of validated receipts, one per slot and all of one deployment, passes its
    constructor and is written; it reads back as the same manifest, with exactly the canonical
    dictionaries of the receipts and their sorted hashes. Later writes at the path, of any
    manifest, leave the file as it is, and report success only for the same manifest hash. *)
Theorem manifest_roundtrip rs (Hl : listed rs) :
  let f := Doc (VDict (ReceiptManifest.asdict (final rs))) in
  (m ← construct_of "" rs; finalize_manifest ch m) = Ok (final rs) /\
  write_receipt_manifest ch Written (final rs) Missing = (f, Ok tt) /\
  load_receipt_manifest ch f = Ok (final rs) /\
  ReceiptManifest.receipts (final rs) = to_dict ch <$> rs /\
  ReceiptManifest.receipt_hashes (final rs) ≡ₚ Receipt.receipt_hash <$> rs /\
  forall written m', (write_receipt_manifest ch written m' f).1 = f /\
    ((write_receipt_manifest ch written m' f).2 = Ok tt ->
     ReceiptManifest.manifest_hash m' = final_hash rs).
Proof.
  cbv zeta. split_and!.
  - rewrite (construct_listed "" rs Hl) by done. cbn [mbind result_bind]. by apply finalize_listed.
  - apply write_final.
  - by apply load_final.
  - done.
  - apply merge_sort_Permutation.
  - intros written m'. split; [by apply write_existing|]. intros Hok.
    symmetry. apply (write_existing_Ok written m' (Doc (VDict (ReceiptManifest.asdict (final rs)))) (final rs));
      [discriminate|by apply load_final|done].
Qed.
End Receipts.
