(* ===== verification/StatusApi.v ===== *)
(** The shared deployment status (src/exaserve/status_api.py): the publisher that owns
    the durable record and the READY lease, and the strict reader of the consumers.

    The run directory is [dir]: the status record, the lease artifact and the receipt
    manifests, each path with its file, whether it resolves inside the run directory and
    whether it is a regular file. The clock is an argument: one [clock] per reading, and so is how each write ends. An
    [OSError] of the boot identity is a [ValueError] here: every caller treats the two
    alike. *)

From S2P Require Import Prelude PyValue Atomic Envelopes Contracts Receipts ReceiptCodec Status Manifest.

Definition DEPLOYMENT_STATUS_SCHEMA_VERSION : Z := 2.
Definition READY_LEASE_SCHEMA_VERSION : Z := 1.

Definition READY_SNAPSHOT_FIELDS : list string :=
  ["ready"; "phase"; "blockers"; "satisfied"; "advertised_endpoint"; "generation";
   "deployment_plan_hash"; "allocation_binding_hash"; "missing_identities";
   "unhealthy_identities"; "receipt_hashes"; "model_map"; "capability_map"; "nodes"; "proxies";
   "observed_at"; "receipt_manifest_path"; "receipt_manifest_hash"; "lease_expires_at";
   "lease_expires_monotonic"; "lease_clock_boot_id"].

(** ** Clocks and leases *)

Record clock := Clock { wall : float; monotonic : float; boot : option string }.

Definition bad_reading (f : float) : bool := negb (Float.is_finite f) || Float.ltb f Float.zero.
Definition bad_boot (s : string) : bool := negb (nonempty s) || (128 <? String.length s)%nat.

(** [_clock_sample] *)
Definition clock_sample (c : clock) : result exn (float * float * string) :=
  let message := "status clock boot identity is unavailable" in
  boot_id ← match boot c with Some b => Ok b | None => Err (ValueError message) end;
  _ ← value_error_if (bad_reading (wall c)) "status clock wall_time is invalid";
  _ ← value_error_if (bad_reading (monotonic c)) "status clock monotonic_time is invalid";
  _ ← value_error_if (bad_boot boot_id) message;
  Ok (wall c, monotonic c, boot_id).

(** [_lease_evidence] *)
Definition lease_evidence (c : clock) (duration_s : float) : result exn dict :=
  '(wall_now, monotonic_now, boot_id) ← clock_sample c;
  Ok [("lease_expires_at", VFloat (Float.add wall_now duration_s));
      ("lease_expires_monotonic", VFloat (Float.add monotonic_now duration_s));
      ("lease_clock_boot_id", VStr boot_id)].

(** [_state_transition_evidence] *)
Definition state_transition_evidence (c : clock) (revision : Z) : result exn dict :=
  '(wall_now, monotonic_now, boot_id) ← clock_sample c;
  Ok [("state_revision", VInt revision); ("state_changed_at", VFloat wall_now);
      ("state_changed_monotonic", VFloat monotonic_now); ("state_clock_boot_id", VStr boot_id)].

(** [_ready_lease_is_current]; [float] of a huge integer raises. *)
Definition ready_lease_is_current (snapshot : dict) (c : clock) : result exn bool :=
  match boot c, attr "lease_expires_monotonic" snapshot with
  | None, _ => Ok false
  | Some current, (VInt _ | VFloat _) as expiry =>
      f ← to_float OverflowError expiry;
      Ok (Float.is_finite f &&
          match attr "lease_clock_boot_id" snapshot with
          | VStr expected => nonempty expected && bool_decide (current = expected)
          | _ => false
          end &&
          Float.is_finite (monotonic c) && Float.ltb (monotonic c) f)
  | _, _ => Ok false
  end.

(** ** Validation of a READY payload *)

(** [isinstance(v, (int, float))], finite, and not [low]; the value as a double. *)
Definition check_number {E} (overflow bad : E) (low : value -> bool) (v : value) : result E float :=
  _ ← raise_if (negb (is_number v)) bad;
  f ← to_float overflow v;
  _ ← raise_if (negb (Float.is_finite f)) bad;
  _ ← raise_if (low v) bad;
  Ok f.
Definition negative (v : value) : bool := num_ltb v (VInt 0).
Definition not_positive (v : value) : bool := negb (num_ltb (VInt 0) v).

(** [_string_sequence] *)
Definition string_sequence (name : string) (sorted_unique : bool) (v : value)
    : result exn (list string) :=
  match v with
  | VList l =>
      match mapM nonempty_str l with
      | None => Err (ValueError (name +:+ " must be a list of non-empty strings"))
      | Some texts =>
          _ ← value_error_if (negb (bool_decide (NoDup texts)))
                (name +:+ " must not contain duplicates");
          _ ← value_error_if (sorted_unique && negb (bool_decide (sorted_set texts = texts)))
                (name +:+ " must be sorted");
          Ok texts
      end
  | _ => Err (ValueError (name +:+ " must be a list of non-empty strings"))
  end.

Definition is_count (v : value) : bool := match v with VInt z => 0 <=? z | _ => false end.
Definition is_text (v : value) : bool := match nonempty_str v with Some _ => true | None => false end.

Definition MODEL_FIELDS : list string :=
  ["route_name"; "expected_replicas"; "observed_replicas"; "observed_target"].

(** [_validate_model_map] *)
Definition validate_model_map (v : value) : result exn dict :=
  match v with
  | VDict d =>
      _ ← for_each (fun kv =>
            _ ← value_error_if (negb (nonempty kv.1)) "model_map keys must be non-empty strings";
            match kv.2 with
            | VDict info =>
                _ ← value_error_if (negb (same_keys (dkeys info) MODEL_FIELDS))
                      "model_map has invalid fields";
                _ ← value_error_if (negb (is_text (attr "route_name" info)))
                      "model_map route_name is invalid";
                for_each (fun field => value_error_if (negb (is_count (attr field info)))
                                         "model_map count is invalid")
                  ["expected_replicas"; "observed_replicas"; "observed_target"]
            | _ => Err (ValueError "model_map has invalid fields")
            end) d;
      Ok d
  | _ => Err (ValueError "model_map must be an object")
  end.

(** [_validate_capability_map] *)
Definition validate_capability_map (v : value) : result exn dict :=
  match v with
  | VDict d =>
      _ ← for_each (fun kv =>
            _ ← value_error_if (negb (nonempty kv.1))
                  "capability_map keys must be non-empty strings";
            _ ← string_sequence "capability_map" true kv.2;
            Ok tt) d;
      Ok d
  | _ => Err (ValueError "capability_map must be an object")
  end.

Definition NODE_FIELDS : list string :=
  ["node_id"; "node_name"; "node_address"; "alive"; "cpu"; "gpu"].

Definition is_true (v : value) : bool := match v with VBool true => true | _ => false end.

Definition validate_node (v : value) : result exn string :=
  match v with
  | VDict node =>
      _ ← value_error_if (negb (same_keys (dkeys node) NODE_FIELDS)) "node has invalid fields";
      _ ← for_each (fun field => value_error_if (negb (is_text (attr field node)))
                                   "node text is invalid")
            ["node_id"; "node_name"; "node_address"];
      _ ← value_error_if (negb (is_true (attr "alive" node))) "node is not alive";
      _ ← for_each (fun field =>
            _ ← check_number OverflowError (ValueError "node amount is invalid") negative
                  (attr field node); Ok tt) ["cpu"; "gpu"];
      Ok (default "" (nonempty_str (attr "node_id" node)))
  | _ => Err (ValueError "node has invalid fields")
  end.

Definition validate_proxy (v : value) : result exn string :=
  let bad := ValueError "proxy is not a typed healthy proxy" in
  match v with
  | VDict proxy =>
      _ ← raise_if (negb (same_keys (dkeys proxy) ["node_id"; "status"])) bad;
      match nonempty_str (attr "node_id" proxy) with
      | None => Err bad
      | Some id => _ ← raise_if (negb (py_eqb (attr "status" proxy) (VStr "HEALTHY"))) bad; Ok id
      end
  | _ => Err bad
  end.

Fixpoint collect {A B E} (f : A -> result E B) (l : list A) : result E (list B) :=
  match l with
  | [] => Ok []
  | x :: l' => y ← f x; ys ← collect f l'; Ok (y :: ys)
  end.

Definition exactly (n : Z) (message : string) (v : value) : result exn (list value) :=
  match v with
  | VList l => _ ← value_error_if (negb (Z.of_nat (length l) =? n)) message; Ok l
  | _ => Err (ValueError message)
  end.

(** [_validate_cluster_projection] *)
Definition validate_cluster_projection (nodes proxies : value) (expected_nodes expected_proxies : Z)
    : result exn unit :=
  l ← exactly expected_nodes "nodes must contain exactly the planned entries" nodes;
  node_ids ← collect validate_node l;
  _ ← value_error_if (negb (bool_decide (NoDup node_ids))) "nodes contain duplicate node_id values";
  l' ← exactly expected_proxies "proxies must contain exactly the planned entries" proxies;
  proxy_ids ← collect validate_proxy l';
  _ ← value_error_if (negb (bool_decide (NoDup proxy_ids))) "proxies contain duplicate node_id values";
  _ ← value_error_if (negb (forallb (fun p => bool_decide (p ∈ node_ids)) proxy_ids))
        "proxy node identities are not planned node identities";
  value_error_if ((expected_proxies =? expected_nodes) && negb (same_keys proxy_ids node_ids))
    "proxy node identities do not exactly match nodes".

(** The comparison of the model map with the plan. *)
Definition model_agrees (model_map : dict) (m : ModelPlan.t) : bool :=
  match attr (ModelPlan.model_id m) model_map with
  | VDict info =>
      py_eqb (attr "route_name" info) (VStr (ModelPlan.route_name m)) &&
      py_eqb (attr "expected_replicas" info) (VInt (ModelPlan.num_replicas m)) &&
      py_eqb (attr "observed_target" info) (VInt (ModelPlan.num_replicas m)) &&
      negb (num_ltb (attr "observed_replicas" info) (VInt (ModelPlan.num_replicas m)))
  | _ => false
  end.

Definition check_plan_models (plan : DeploymentPlan.t) (model_map : dict) : result exn unit :=
  _ ← value_error_if (negb (same_keys (dkeys model_map)
                              (ModelPlan.model_id <$> DeploymentPlan.models plan)))
        "READY model_map does not exactly match the plan";
  value_error_if (negb (forallb (model_agrees model_map) (DeploymentPlan.models plan)))
    "READY model_map disagrees with the plan".

Definition plan_mode (p : DeploymentPlan.t) : string := ExposurePlan.mode (DeploymentPlan.exposure p).

(** [_validate_ready_payload] *)
Definition validate_ready_payload (snapshot model_map capability_map : value) (num_nodes : Z)
    (exposure_mode : string) (plan : option DeploymentPlan.t) : result exn unit :=
  match snapshot with
  | VDict s =>
      _ ← value_error_if (negb (same_keys (dkeys s) READY_SNAPSHOT_FIELDS))
            "READY readiness_snapshot fields do not match schema v1";
      _ ← value_error_if (negb (is_true (attr "ready" s)) ||
                          negb (py_eqb (attr "phase" s) (VStr "READY")))
            "READY snapshot state is inconsistent";
      blockers ← string_sequence "blockers" false (attr "blockers" s);
      _ ← string_sequence "satisfied" false (attr "satisfied" s);
      missing ← string_sequence "missing_identities" true (attr "missing_identities" s);
      unhealthy ← string_sequence "unhealthy_identities" true (attr "unhealthy_identities" s);
      hashes ← string_sequence "receipt_hashes" true (attr "receipt_hashes" s);
      _ ← value_error_if (negb (bool_decide (blockers = [] /\ missing = [] /\ unhealthy = [])))
            "READY snapshot retains blocking identities";
      _ ← value_error_if (negb (forallb is_sha256 hashes))
            "READY snapshot receipt_hashes are invalid";
      _ ← check_number OverflowError (ValueError "READY snapshot observed_at is invalid")
            not_positive (attr "observed_at" s);
      mm ← validate_model_map model_map;
      _ ← validate_capability_map capability_map;
      _ ← value_error_if (negb (py_eqb (attr "model_map" s) model_map))
            "READY snapshot model_map disagrees with status data";
      _ ← value_error_if (negb (py_eqb (attr "capability_map" s) capability_map))
            "READY snapshot capability_map disagrees with status data";
      _ ← value_error_if (match plan with
                          | Some p => negb (bool_decide (exposure_mode = plan_mode p))
                          | None => false
                          end) "READY exposure mode disagrees with the plan";
      _ ← validate_cluster_projection (attr "nodes" s) (attr "proxies" s) num_nodes
            (if bool_decide (exposure_mode = RAY_SERVE_HEAD_ONLY) then 1 else num_nodes);
      match plan with Some p => check_plan_models p mm | None => Ok tt end
  | _ => Err (ValueError "READY readiness_snapshot fields do not match schema v1")
  end.

(** ** The run directory *)

(** A manifest of the run directory: whether its path resolves inside the directory, whether it
    is a regular file, and what it holds. *)
Record manifest_file := ManifestFile {
  mf_inside : bool;
  mf_regular : bool;
  mf_file : file;
}.

Record dir := Dir {
  status_file : file;
  lease_file : file;
  manifests : gmap string manifest_file;
}.

(** [load_receipt_manifest] of state/receipts.py, [None] when it raises; it opens regular files only. *)
Definition mf_manifest (canonical_hash : dict -> string) (f : manifest_file) : option ReceiptManifest.t :=
  if mf_regular f
  then match load_receipt_manifest canonical_hash (mf_file f) with Ok m => Some m | Err _ => None end
  else None.

Definition find_manifest (canonical_hash : dict -> string) (d : dir) (path : string)
    : option ReceiptManifest.t :=
  f ← manifests d !! path; mf_manifest canonical_hash f.

(** [write_receipt_manifest] at a path of the run directory. *)
Definition publish_manifest (canonical_hash : dict -> string) (written : write_outcome) (m : ReceiptManifest.t)
    (path : string) (d : dir) : dir * manifest_result unit :=
  match manifests d !! path with
  | Some f =>
      (d, (write_receipt_manifest canonical_hash written m (if mf_regular f then mf_file f else Unreadable)).2)
  | None =>
      let '(f, x) := write_receipt_manifest canonical_hash written m Missing in
      (match f with
       | Missing => d
       | _ => Dir (status_file d) (lease_file d) (<[path := ManifestFile true true f]> (manifests d))
       end, x)
  end.

(** [_SHA256.fullmatch] of a value that must be text. *)
Definition sha_text (v : value) : option string :=
  match v with VStr s => if is_sha256 s then Some s else None | _ => None end.

(** The manifest is the one that is named, for this identity and these hashes. *)
Definition manifest_agrees (m : ReceiptManifest.t) (hash deployment_id : string) (generation : Z)
    (plan_hash binding_hash : string) (hashes : list string) : bool :=
  bool_decide (ReceiptManifest.manifest_hash m = hash) &&
  bool_decide (ReceiptManifest.deployment_id m = deployment_id) &&
  (ReceiptManifest.generation m =? generation) &&
  bool_decide (ReceiptManifest.deployment_plan_hash m = plan_hash) &&
  bool_decide (ReceiptManifest.allocation_binding_hash m = binding_hash) &&
  bool_decide (ReceiptManifest.receipt_hashes m = hashes).

Definition texts (l : list string) : value := VList (VStr <$> l).

(** ** The publisher *)

Record run_identity := RunIdentity {
  run_id : string;
  run_semantic_hash : string;
  run_provenance_hash : string;
}.

Record config := Config {
  cf_plan : DeploymentPlan.t;
  cf_binding : option AllocationBinding.t;
  cf_generation : Z;
  cf_run : option run_identity;
}.

Record publisher := Publisher {
  pub_state : DeploymentState;
  pub_revision : Z;
  pub_record : option (StatusRecord DeploymentState);
  pub_lease_revision : Z;
}.

Definition new_publisher : publisher := Publisher PLANNED (-1) None 0.

Inductive publication_error :=
| PublicationError (message : string)
| EvidenceChanged (changed : list string)
| Escaped (e : exn).

(** [except (StatusConflict, IllegalTransition, OSError, ValueError)]; the exceptions of the lease
    are [RuntimeError]s that are not named. *)
Definition published {A} (r : result exn A) : result publication_error A :=
  match r with
  | Ok a => Ok a
  | Err (StatusConflict m) | Err (ValueError m) => Err (PublicationError m)
  | Err IllegalTransition => Err (PublicationError "illegal transition")
  | Err OSError => Err (PublicationError "the file could not be written")
  | Err e => Err (Escaped e)
  end.

Section Publisher.
Context (canonical_hash : dict -> string) (cf : config).

Definition binding_hash : string :=
  match cf_binding cf with Some b => AllocationBinding.allocation_binding_hash b | None => "" end.

Definition identity : dict :=
  [("deployment_id", VStr (DeploymentPlan.deployment_id (cf_plan cf)));
   ("generation", VInt (cf_generation cf));
   ("deployment_plan_hash", VStr (DeploymentPlan.deployment_plan_hash (cf_plan cf)));
   ("allocation_binding_hash", VStr binding_hash)].

Definition run_provenance : dict :=
  [("deployment_id", VStr (DeploymentPlan.deployment_id (cf_plan cf)));
   ("generation", VInt (cf_generation cf));
   ("deployment_plan_hash", VStr (DeploymentPlan.deployment_plan_hash (cf_plan cf)));
   ("site_profile_hash", VStr (DeploymentPlan.site_profile_hash (cf_plan cf)));
   ("allocation_binding_hash", VStr binding_hash);
   ("run_id", VStr (from_option run_id "" (cf_run cf)));
   ("run_semantic_hash", match cf_run cf with Some r => VStr (run_semantic_hash r) | None => VNone end);
   ("run_provenance_hash", VStr (from_option run_provenance_hash "" (cf_run cf)))].

(** [initialize]; its handler does not name [IllegalTransition], which is a [ValueError]. *)
Definition initialize (io : store_io) (now : float) (c : clock) (p : publisher) (d : dir)
    : publisher * dir * result publication_error (StatusRecord DeploymentState) :=
  match state_transition_evidence c 0 with
  | Err e => (p, d, published (Err e))
  | Ok evidence =>
      let rid := DeploymentPlan.deployment_id (cf_plan cf) +:+ "/gen" +:+ str_Z (cf_generation cf) in
      let data := dupdate
            [("deployment_status_schema_version", VInt DEPLOYMENT_STATUS_SCHEMA_VERSION);
             ("exposure_mode", VStr (plan_mode (cf_plan cf)));
             ("num_nodes", VInt (DeploymentPlan.num_nodes (cf_plan cf)))] evidence in
      match Status.initialize io now rid PLANNED (Some run_provenance) (Some data)
              (status_file d) with
      | (f, Ok r) =>
          (Publisher PLANNED (revision r) (Some r) (pub_lease_revision p),
           Dir f (lease_file d) (manifests d), Ok r)
      | (f, Err e) => (p, Dir f (lease_file d) (manifests d), published (Err e))
      end
  end.

(** [_ready_lease_evidence] *)
Definition lease_duration : float :=
  let limits := DeploymentPlan.readiness (cf_plan cf) in
  Float.max (ReadinessLimits.observation_freshness_s limits)
    (Float.mul (Float.of_Z 3) (ReadinessLimits.validation_interval_s limits)).
Definition ready_lease_evidence (c : clock) : result exn dict := lease_evidence c lease_duration.

(** The payload of [_publish_ready_lease]. *)
Definition lease_payload (lease_revision : Z) (snapshot : dict) : dict :=
  let payload :=
    [("schema_version", VInt READY_LEASE_SCHEMA_VERSION)] ++ identity ++
    [("lease_revision", VInt lease_revision);
     ("lease_expires_at", attr "lease_expires_at" snapshot);
     ("lease_expires_monotonic", attr "lease_expires_monotonic" snapshot);
     ("lease_clock_boot_id", attr "lease_clock_boot_id" snapshot)] in
  payload ++ [("lease_hash", VStr (canonical_hash payload))].

(** [_publish_ready_lease]; [written] is how the replacement of the file ends. *)
Definition publish_ready_lease (written : write_outcome) (snapshot : dict) (p : publisher) (d : dir)
    : publisher * dir * result exn unit :=
  let n := pub_lease_revision p + 1 in
  let p' := Publisher (pub_state p) (pub_revision p) (pub_record p) n in
  let payload := VDict (lease_payload n snapshot) in
  if negb (json_writable payload) then (p', d, Err (ValueError "lease payload is not canonical JSON"))
  else
    let '(f, x) := atomic_write OSError written (Doc payload) (lease_file d) in
    (p', Dir (status_file d) f (manifests d), x).

(** What READY adds to the snapshot. *)
Definition ready_fields (endpoint : value) (hashes : list string) (lease : dict) : dict :=
  [("ready", VBool true); ("phase", VStr "READY"); ("advertised_endpoint", endpoint);
   ("generation", VInt (cf_generation cf));
   ("deployment_plan_hash", VStr (DeploymentPlan.deployment_plan_hash (cf_plan cf)));
   ("allocation_binding_hash", VStr binding_hash); ("receipt_hashes", texts hashes)] ++ lease.

(** The checks of [advance] before READY; the snapshot to publish. *)
Definition ready_snapshot (c : clock) (data : dict) (d : dir) : result exn dict :=
  binding ← match cf_binding cf with
            | Some b => Ok b
            | None => Err (ValueError "READY requires an AllocationBinding")
            end;
  endpoint ← match nonempty_str (attr "advertised_endpoint" data) with
             | Some s => Ok s
             | None => Err (ValueError "READY requires a non-empty advertised endpoint")
             end;
  hashes ← string_sequence "READY receipt_hashes" true
             (dget_default "receipt_hashes" (VList []) data);
  _ ← value_error_if (negb (forallb is_sha256 hashes))
        "READY receipt_hashes must contain SHA-256 values";
  match attr "readiness_snapshot" data with
  | VDict snapshot =>
      match nonempty_str (attr "receipt_manifest_path" snapshot),
            sha_text (attr "receipt_manifest_hash" snapshot) with
      | Some path, Some hash =>
          match find_manifest canonical_hash d path with
          | None => Err (ValueError "READY receipt manifest is invalid")
          | Some m =>
              _ ← value_error_if
                    (negb (manifest_agrees m hash (DeploymentPlan.deployment_id (cf_plan cf))
                             (cf_generation cf)
                             (DeploymentPlan.deployment_plan_hash (cf_plan cf))
                             (AllocationBinding.allocation_binding_hash binding) hashes))
                    "READY receipt manifest disagrees with current identity";
              lease ← ready_lease_evidence c;
              let s := dupdate snapshot (ready_fields (VStr endpoint) hashes lease) in
              _ ← validate_ready_payload (VDict s) (attr "model_map" data)
                    (attr "capability_map" data) (DeploymentPlan.num_nodes (cf_plan cf))
                    (plan_mode (cf_plan cf)) (Some (cf_plan cf));
              Ok s
          end
      | _, _ => Err (ValueError "READY requires an immutable receipt manifest path/hash")
      end
  | _ => Err (ValueError "READY requires a readiness_snapshot object")
  end.

(** The snapshot of every other state: the caller's, or the one on file. *)
Definition revoked_snapshot (c : clock) (target : DeploymentState) (data : dict) (d : dir)
    : result exn dict :=
  base ← match attr "readiness_snapshot" data with
         | VDict s => Ok s
         | _ =>
             current ← load (S := DeploymentState) (status_file d);
             Ok (match current with
                 | Some r => match dget_default "readiness_snapshot" (VDict []) (Status.data r) with
                             | VDict s => s
                             | _ => []
                             end
                 | None => []
                 end)
         end;
  Ok (dupdate base [("ready", VBool false); ("phase", VStr (deployment_value target));
                    ("observed_at", VFloat (wall c))]).

Record advance_env := AdvanceEnv {
  ae_clock : clock;
  ae_written : write_outcome;
  ae_io : store_io;
  ae_now : float;
  ae_commit_clock : clock;
}.

(** The snapshot of an [advance], with the lease that READY publishes first. *)
Definition prepare (e : advance_env) (new : DeploymentState) (data : dict) (p : publisher) (d : dir)
    : publisher * dir * result exn dict :=
  if bool_decide (new = READY) then
    match ready_snapshot (ae_clock e) data d with
    | Err x => (p, d, Err x)
    | Ok s =>
        match publish_ready_lease (ae_written e) s p d with
        | (p1, d1, Ok _) => (p1, d1, Ok s)
        | (p1, d1, Err x) => (p1, d1, Err x)
        end
    end
  else (p, d, revoked_snapshot (ae_clock e) new data d).

(** [advance] *)
Definition advance (e : advance_env) (new : DeploymentState) (reason detail : string) (data : dict)
    (p : publisher) (d : dir)
    : publisher * dir * result publication_error (StatusRecord DeploymentState) :=
  if pub_revision p <? 0
  then (p, d, Err (PublicationError "authoritative deployment status was not initialized"))
  else
    match prepare e new data p d with
    | (p1, d1, Err x) => (p1, d1, published (Err x))
    | (p1, d1, Ok snapshot) =>
        let data' := dset "readiness_snapshot" (VDict snapshot) data in
        match transition (ae_io e) (ae_now e) (pub_state p1) new reason
                (if nonempty detail then Some detail else None) (Some data') (Some (pub_revision p1))
                (Some (fun rev => Some <$> state_transition_evidence (ae_commit_clock e) rev))
                (status_file d1) with
        | (f, Ok r) =>
            (Publisher new (revision r) (Some r) (pub_lease_revision p1),
             Dir f (lease_file d1) (manifests d1), Ok r)
        | (f, Err x) => (p1, Dir f (lease_file d1) (manifests d1), published (Err x))
        end
    end.

Definition VOLATILE_FIELDS : list string :=
  ["observed_at"; "lease_expires_at"; "lease_expires_monotonic"; "lease_clock_boot_id"].

Definition semantic (s : dict) : dict :=
  List.filter (fun kv => negb (bool_decide (kv.1 ∈ VOLATILE_FIELDS))) s.

(** What a renewal must not change. *)
Definition changed_fields (current : StatusRecord DeploymentState) (previous snapshot : dict)
    (model_map capability_map : value) (hashes : list string) : list string :=
  (if py_eqb (VDict (semantic snapshot)) (VDict (semantic previous)) then [] else ["readiness_snapshot"]) ++
  (if py_eqb model_map (attr "model_map" (Status.data current)) then [] else ["model_map"]) ++
  (if py_eqb capability_map (attr "capability_map" (Status.data current)) then [] else ["capability_map"]) ++
  (if py_eqb (texts hashes) (attr "receipt_hashes" previous) then [] else ["receipt_hashes"]).

Definition escaped {A} (r : result exn A) : result publication_error A :=
  match r with Ok a => Ok a | Err e => Err (Escaped e) end.

(** [except ValueError] of the payload's validation. *)
Definition refused_payload {A} (r : result exn A) : result publication_error A :=
  match r with
  | Ok a => Ok a
  | Err (ValueError m) => Err (PublicationError m)
  | Err e => Err (Escaped e)
  end.

(** [refresh_ready] up to the write: the snapshot of the renewed lease. *)
Definition renewed_snapshot (c : clock) (readiness_snapshot : dict) (model_map capability_map : value)
    (hashes : list string) (p : publisher) (d : dir)
    : result publication_error (StatusRecord DeploymentState * dict) :=
  _ ← raise_if (negb (bool_decide (pub_state p = READY)))
        (PublicationError "cannot refresh READY in another state");
  loaded ← match pub_record p with
           | Some r => Ok (Some r)
           | None => escaped (load (S := DeploymentState) (status_file d))
           end;
  match loaded with
  | None => Err (PublicationError "READY status disappeared before refresh")
  | Some current =>
      previous ← match dget_default "readiness_snapshot" (VDict []) (Status.data current) with
                 | VDict s => Ok s
                 | _ => Err (Escaped (ValueError "readiness_snapshot is no mapping"))
                 end;
      _ ← for_each (fun field => raise_if (negb (truthy (attr field previous)))
                                   (PublicationError "READY status lost its immutable manifest"))
            ["receipt_manifest_path"; "receipt_manifest_hash"];
      lease ← escaped (ready_lease_evidence c);
      let s := dupdate readiness_snapshot
            (ready_fields (dget_default "advertised_endpoint" (VStr "") (Status.data current)) hashes
               ([("receipt_manifest_path", attr "receipt_manifest_path" previous);
                 ("receipt_manifest_hash", attr "receipt_manifest_hash" previous)] ++ lease)) in
      _ ← refused_payload (validate_ready_payload (VDict s) model_map capability_map
            (DeploymentPlan.num_nodes (cf_plan cf)) (plan_mode (cf_plan cf)) (Some (cf_plan cf)));
      let changed := changed_fields current previous s model_map capability_map hashes in
      _ ← raise_if (negb (bool_decide (changed = []))) (EvidenceChanged changed);
      Ok (current, s)
  end.

(** [refresh_ready] *)
Definition refresh_ready (c : clock) (written : write_outcome) (readiness_snapshot : dict)
    (model_map capability_map : value) (hashes : list string) (p : publisher) (d : dir)
    : publisher * dir * result publication_error (StatusRecord DeploymentState) :=
  match renewed_snapshot c readiness_snapshot model_map capability_map hashes p d with
  | Err x => (p, d, Err x)
  | Ok (current, s) =>
      match publish_ready_lease written s p d with
      | (p1, d1, Ok _) => (p1, d1, Ok current)
      | (p1, d1, Err x) => (p1, d1, published (Err x))
      end
  end.

(** [advance] updates the snapshot that it is given in place. *)
Definition shared_data (data : dict) (r : StatusRecord DeploymentState) : dict :=
  match attr "readiness_snapshot" data with
  | VDict _ => dset "readiness_snapshot" (attr "readiness_snapshot" (Status.data r)) data
  | _ => data
  end.

(** [advance_through] *)
Fixpoint advance_through (steps : list (advance_env * DeploymentState)) (reason detail : string)
    (data : dict) (last : option (StatusRecord DeploymentState)) (p : publisher) (d : dir)
    : publisher * dir * result publication_error (StatusRecord DeploymentState) :=
  match steps with
  | [] => (p, d, match last with
                 | Some r => Ok r
                 | None => Err (PublicationError "advance_through requires at least one state")
                 end)
  | (e, new) :: rest =>
      match advance e new reason detail data p d with
      | (p1, d1, Ok r) => advance_through rest reason detail (shared_data data r) (Some r) p1 d1
      | (p1, d1, Err x) => (p1, d1, Err x)
      end
  end.
End Publisher.

(** ** The reader *)

Inductive read_error :=
| InvalidStatus (message : string)
| StoreError (e : exn)
| NotReady (message : string).

Definition invalid_if (b : bool) (message : string) : result read_error unit :=
  raise_if b (InvalidStatus message).

(** [except ValueError] *)
Definition public_schema {A} (r : result exn A) : result read_error A :=
  match r with
  | Ok a => Ok a
  | Err (ValueError m) => Err (InvalidStatus m)
  | Err e => Err (StoreError e)
  end.

Definition public_number (message : string) (low : value -> bool) (v : value) : result read_error float :=
  check_number (StoreError OverflowError) (InvalidStatus message) low v.

Module DeploymentStatus.
Record t := mk {
  schema_version : Z;
  state : DeploymentState;
  revision : Z;
  updated_at : float;
  state_revision : option Z;
  state_changed_at : float;
  state_changed_monotonic : option float;
  state_clock_boot_id : string;
  deployment_id : string;
  generation : Z;
  deployment_plan_hash : string;
  site_profile_hash : string;
  allocation_binding_hash : string;
  num_nodes : Z;
  run_id : string;
  run_semantic_hash : string;
  run_provenance_hash : string;
  advertised_endpoint : string;
  exposure_mode : string;
  reason_code : option string;
  detail : option string;
  readiness_snapshot : dict;
  model_map : dict;
  capability_map : dict;
  receipt_hashes : list string;
  receipt_manifest_path : string;
  receipt_manifest_hash : string;
}.

(** The property [ready] *)
Definition ready (c : clock) (s : t) : result exn bool :=
  if bool_decide (state s = READY) then ready_lease_is_current (readiness_snapshot s) c else Ok false.

Definition terminal (s : t) : bool := bool_decide (state s ∈ [FAILED; STOPPED; CANCELLED]).
End DeploymentStatus.

Definition LEASE_FIELDS : list string :=
  ["schema_version"; "deployment_id"; "generation"; "deployment_plan_hash";
   "allocation_binding_hash"; "lease_revision"; "lease_expires_at"; "lease_expires_monotonic";
   "lease_clock_boot_id"; "lease_hash"].
Definition LEASE_IDENTITY : list string :=
  ["deployment_id"; "generation"; "deployment_plan_hash"; "allocation_binding_hash"].
Definition LEASE_EVIDENCE : list string :=
  ["lease_expires_at"; "lease_expires_monotonic"; "lease_clock_boot_id"].

Section Reader.
Context (canonical_hash : dict -> string).

(** [_load_ready_lease] *)
Definition load_ready_lease (f : file) (prov : dict) : result read_error (option dict) :=
  match f with
  | Missing => Ok None
  | Unreadable => Err (InvalidStatus "READY lease artifact is invalid")
  | Doc (VDict payload) =>
      _ ← invalid_if (negb (same_keys (dkeys payload) LEASE_FIELDS))
            "READY lease artifact has invalid fields";
      _ ← invalid_if (match attr "schema_version" payload with
                      | VInt z => negb (z =? READY_LEASE_SCHEMA_VERSION)
                      | _ => true
                      end) "READY lease artifact schema is unsupported";
      _ ← invalid_if (match attr "lease_hash" payload with
                      | VStr h => negb (bool_decide (h = canonical_hash
                          (List.filter (fun kv => negb (bool_decide (kv.1 = "lease_hash"))) payload)))
                      | _ => true
                      end) "READY lease artifact hash mismatch";
      _ ← invalid_if (existsb (fun k => negb (py_eqb (attr k payload) (attr k prov))) LEASE_IDENTITY)
            "READY lease artifact belongs to another deployment";
      _ ← invalid_if (match attr "lease_revision" payload with VInt z => z <? 1 | _ => true end)
            "READY lease revision is invalid";
      Ok (Some ((fun k => (k, attr k payload)) <$> LEASE_EVIDENCE))
  | Doc _ => Err (InvalidStatus "READY lease artifact has invalid fields")
  end.

(** The typed provenance: identity, hashes, run. *)
Record typed_provenance := TypedProvenance {
  tp_deployment_id : string;
  tp_generation : Z;
  tp_plan_hash : string;
  tp_site_hash : string;
  tp_binding_hash : string;
  tp_run_id : string;
  tp_run_semantic_hash : string;
  tp_run_provenance_hash : string;
}.

Definition need_text (prov : dict) (name : string) : result read_error string :=
  match dget name prov with
  | Some (VStr s) => Ok s
  | _ => Err (InvalidStatus ("deployment status provenance." +:+ name +:+ " has invalid type"))
  end.

Definition bad_optional_hash (s : string) : bool := nonempty s && negb (is_sha256 s).

Definition read_provenance (prov : dict) : result read_error typed_provenance :=
  deployment ← need_text prov "deployment_id";
  generation ← match dget "generation" prov with
               | Some (VInt z) => Ok z
               | _ => Err (InvalidStatus "deployment status provenance.generation is invalid")
               end;
  plan_hash ← need_text prov "deployment_plan_hash";
  site_hash ← need_text prov "site_profile_hash";
  binding ← need_text prov "allocation_binding_hash";
  run ← need_text prov "run_id";
  semantic_hash ← match dget "run_semantic_hash" prov with
                  | Some (VStr s) => Ok s
                  | Some VNone => Ok ""
                  | _ => Err (InvalidStatus "deployment status provenance.run_semantic_hash has invalid type")
                  end;
  run_hash ← need_text prov "run_provenance_hash";
  _ ← invalid_if (generation <? 0) "deployment status generation is invalid";
  _ ← invalid_if (negb (forallb is_sha256 [plan_hash; site_hash; binding]))
        "deployment status provenance hash is not SHA-256";
  _ ← invalid_if (negb (nonempty deployment)) "deployment status provenance.deployment_id is empty";
  _ ← invalid_if (bad_optional_hash semantic_hash || bad_optional_hash run_hash)
        "deployment status provenance run hash is not SHA-256";
  Ok (TypedProvenance deployment generation plan_hash site_hash binding run semantic_hash run_hash).

(** When the state was entered: revision, wall time, monotonic time, boot identity. *)
Definition read_state_clock (r : StatusRecord DeploymentState) (schema : Z)
    : result read_error (option Z * float * option float * string) :=
  let d := Status.data r in
  if schema =? DEPLOYMENT_STATUS_SCHEMA_VERSION then
    rev ← match attr "state_revision" d with
          | VInt z => _ ← invalid_if ((z <? 0) || (revision r <? z))
                            "deployment status state_revision is invalid"; Ok z
          | _ => Err (InvalidStatus "deployment status state_revision is invalid")
          end;
    changed_at ← public_number "deployment status data.state_changed_at is invalid" negative
                   (attr "state_changed_at" d);
    changed_monotonic ← public_number "deployment status data.state_changed_monotonic is invalid"
                          negative (attr "state_changed_monotonic" d);
    match attr "state_clock_boot_id" d with
    | VStr b =>
        _ ← invalid_if (bad_boot b) "deployment status data.state_clock_boot_id is invalid";
        Ok (Some rev, changed_at, Some changed_monotonic, b)
    | _ => Err (InvalidStatus "deployment status data.state_clock_boot_id is invalid")
    end
  else
    changed_at ← match last (history r) with
                 | Some e => to_float (StoreError OverflowError) (ev_at e)
                 | None => Err (StoreError (ValueError "empty history"))
                 end;
    Ok (None, changed_at, None, "").

Definition data_text (d : dict) (name : string) : result read_error string :=
  match dget name d with
  | None => Ok ""
  | Some (VStr s) => Ok s
  | Some _ => Err (InvalidStatus ("deployment status data." +:+ name +:+ " must be string"))
  end.
Definition data_object (d : dict) (name : string) : result read_error dict :=
  match dget name d with
  | None => Ok []
  | Some (VDict x) => Ok x
  | Some _ => Err (InvalidStatus ("deployment status data." +:+ name +:+ " must be object"))
  end.

Definition read_hashes (v : value) : result read_error (list string) :=
  let message := "deployment status receipt_hashes must be sorted unique SHA-256 values" in
  match v with
  | VList l =>
      match mapM sha_text l with
      | Some hs => _ ← invalid_if (negb (bool_decide (hs = sorted_set hs))) message; Ok hs
      | None => Err (InvalidStatus message)
      end
  | _ => Err (InvalidStatus message)
  end.

Definition is_long_boot (v : value) : bool :=
  match v with VStr b => bad_boot b | _ => true end.

(** The branch of a READY record: the snapshot with its lease. *)
Definition read_ready (dr : dir) (d prov : dict) (tp : typed_provenance) (num_nodes : Z)
    (endpoint mode : string) (hashes : list string) (snapshot0 : dict) : result read_error dict :=
  lease ← load_ready_lease (lease_file dr) prov;
  let s := match lease with Some l => dupdate snapshot0 l | None => snapshot0 end in
  _ ← public_schema (validate_ready_payload (VDict s) (attr "model_map" d) (attr "capability_map" d)
                       num_nodes mode None);
  _ ← invalid_if (negb (is_true (attr "ready" s)) || negb (py_eqb (attr "phase" s) (VStr "READY")))
        "READY state lacks a matching true readiness snapshot";
  _ ← invalid_if (negb (nonempty endpoint) ||
                  negb (py_eqb (attr "advertised_endpoint" s) (VStr endpoint)))
        "READY state has no matching advertised endpoint";
  _ ← invalid_if (existsb (fun k => negb (py_eqb (attr k s) (attr k prov)))
                    ["generation"; "deployment_plan_hash"; "allocation_binding_hash"])
        "READY snapshot disagrees with provenance";
  _ ← invalid_if (negb (py_eqb (attr "receipt_hashes" s) (texts hashes)))
        "READY snapshot receipt hashes disagree with status data";
  _ ← public_number "READY snapshot has invalid wall-clock lease evidence" not_positive
        (attr "lease_expires_at" s);
  _ ← public_number "READY snapshot has an invalid monotonic readiness lease" not_positive
        (attr "lease_expires_monotonic" s);
  _ ← invalid_if (is_long_boot (attr "lease_clock_boot_id" s))
        "READY snapshot has an invalid monotonic readiness lease";
  match nonempty_str (attr "receipt_manifest_path" s), sha_text (attr "receipt_manifest_hash" s) with
  | Some path, Some hash =>
      match manifests dr !! path with
      | None => Err (InvalidStatus "READY receipt manifest is unavailable")
      | Some f =>
          _ ← invalid_if (negb (mf_inside f))
                "READY receipt manifest escapes the deployment run directory";
          _ ← invalid_if (negb (mf_regular f))
                "READY receipt manifest must be a regular, non-symlink file";
          match mf_manifest canonical_hash f with
          | None => Err (InvalidStatus "READY receipt manifest is invalid")
          | Some m =>
              _ ← invalid_if (negb (manifest_agrees m hash (tp_deployment_id tp) (tp_generation tp)
                                      (tp_plan_hash tp) (tp_binding_hash tp) hashes))
                    "READY receipt manifest disagrees with status identity";
              Ok s
          end
      end
  | _, _ => Err (InvalidStatus "READY snapshot lacks an immutable receipt manifest identity")
  end.

Definition manifest_text (s : dict) (name : string) : result read_error string :=
  match dget_default name (VStr "") s with
  | VStr x => Ok x
  | _ => Err (InvalidStatus "deployment status receipt manifest identity must be text")
  end.

(** [read_deployment_status] after the record has been loaded. *)
Definition read_record (dr : dir) (r : StatusRecord DeploymentState)
    : result read_error DeploymentStatus.t :=
  let d := Status.data r in
  updated ← public_number "deployment status updated_at must be finite and non-negative" negative
              (updated_at r);
  schema ← match dget_default "deployment_status_schema_version" (VInt 1) d with
           | VInt z => _ ← invalid_if (negb (bool_decide (z ∈ [1; DEPLOYMENT_STATUS_SCHEMA_VERSION])))
                             "unsupported DeploymentStatus schema_version"; Ok z
           | _ => Err (InvalidStatus "unsupported DeploymentStatus schema_version")
           end;
  '(state_rev, changed_at, changed_monotonic, state_boot) ← read_state_clock r schema;
  tp ← read_provenance (provenance r);
  mode ← data_text d "exposure_mode";
  endpoint ← data_text d "advertised_endpoint";
  snapshot0 ← data_object d "readiness_snapshot";
  mm ← data_object d "model_map";
  cm ← data_object d "capability_map";
  num_nodes ← match attr "num_nodes" d with
              | VInt z => _ ← invalid_if (z <=? 0)
                                "deployment status data.num_nodes must be a positive integer"; Ok z
              | _ => Err (InvalidStatus "deployment status data.num_nodes must be a positive integer")
              end;
  hashes ← read_hashes (dget_default "receipt_hashes" (VList []) d);
  snapshot ←
    (if bool_decide (state r = READY)
     then read_ready dr d (provenance r) tp num_nodes endpoint mode hashes snapshot0
     else _ ← invalid_if (is_true (attr "ready" snapshot0))
                "non-READY state retains a true readiness snapshot"; Ok snapshot0);
  path ← manifest_text snapshot "receipt_manifest_path";
  hash ← manifest_text snapshot "receipt_manifest_hash";
  Ok (DeploymentStatus.mk schema (state r) (revision r) updated state_rev changed_at changed_monotonic
        state_boot (tp_deployment_id tp) (tp_generation tp) (tp_plan_hash tp) (tp_site_hash tp)
        (tp_binding_hash tp) num_nodes (tp_run_id tp) (tp_run_semantic_hash tp)
        (tp_run_provenance_hash tp) endpoint mode (reason_code r) (detail r) snapshot mm cm hashes
        path hash).

(** [read_deployment_status] *)
Definition read_deployment_status (dr : dir) : result read_error (option DeploymentStatus.t) :=
  match load (S := DeploymentState) (status_file dr) with
  | Err e => Err (StoreError e)
  | Ok None => Ok None
  | Ok (Some r) => s ← read_record dr r; Ok (Some s)
  end.

(** The allocation binding artifact: whether it resolves inside the run directory, whether it
    is a regular file, and what [load_allocation_binding] returns for it. *)
Record binding_file := BindingFile {
  bf_inside : bool;
  bf_regular : bool;
  bf_binding : option AllocationBinding.t;
}.

(** [load_status_allocation_binding] *)
Definition load_status_allocation_binding (dr : dir) (artifact : option binding_file)
    (given : option DeploymentStatus.t) : result read_error AllocationBinding.t :=
  status ← match given with Some s => Ok (Some s) | None => read_deployment_status dr end;
  match status with
  | None => Err (InvalidStatus "cannot load an allocation binding without deployment status")
  | Some s =>
      match artifact with
      | None => Err (InvalidStatus "allocation binding is unavailable")
      | Some f =>
          _ ← invalid_if (negb (bf_inside f)) "allocation binding escapes the deployment run directory";
          _ ← invalid_if (negb (bf_regular f))
                "allocation binding must be a regular, non-symlink file";
          match bf_binding f with
          | None => Err (InvalidStatus "allocation binding is invalid")
          | Some b =>
              _ ← invalid_if
                    (negb (bool_decide (AllocationBinding.deployment_id b = DeploymentStatus.deployment_id s) &&
                           (AllocationBinding.generation b =? DeploymentStatus.generation s) &&
                           bool_decide (AllocationBinding.deployment_plan_hash b
                                        = DeploymentStatus.deployment_plan_hash s) &&
                           bool_decide (AllocationBinding.site_profile_hash b
                                        = DeploymentStatus.site_profile_hash s) &&
                           bool_decide (AllocationBinding.allocation_binding_hash b
                                        = DeploymentStatus.allocation_binding_hash s) &&
                           (Z.of_nat (length (AllocationBinding.rank_to_node b))
                            =? DeploymentStatus.num_nodes s)))
                    "allocation binding identity disagrees with DeploymentStatus";
              Ok b
          end
      end
  end.

(** [require_ready_status] *)
Definition require_ready_status (expected_generation : option Z) (expected_plan_hash : string)
    (c : clock) (dr : dir) : result read_error DeploymentStatus.t :=
  status ← read_deployment_status dr;
  match status with
  | None => Err (NotReady "no deployment status published")
  | Some s =>
      _ ← raise_if (match expected_generation with
                    | Some g => negb (DeploymentStatus.generation s =? g)
                    | None => false
                    end) (NotReady "status is for another generation");
      _ ← raise_if (nonempty expected_plan_hash &&
                    negb (bool_decide (DeploymentStatus.deployment_plan_hash s = expected_plan_hash)))
            (NotReady "status plan differs from the expected one");
      ready ← match DeploymentStatus.ready c s with Ok b => Ok b | Err e => Err (StoreError e) end;
      _ ← raise_if (negb ready)
            (NotReady (if bool_decide (DeploymentStatus.state s = READY)
                       then "deployment READY evidence lease expired" else "deployment is not READY"));
      _ ← raise_if (negb (nonempty (DeploymentStatus.advertised_endpoint s)))
            (NotReady "deployment is READY but published no endpoint");
      Ok s
  end.

(** [require_ready_endpoint] *)
Definition require_ready_endpoint (expected_generation : option Z) (expected_plan_hash : string)
    (c : clock) (dr : dir) : result read_error string :=
  s ← require_ready_status expected_generation expected_plan_hash c dr;
  Ok (DeploymentStatus.advertised_endpoint s).
End Reader.
