(* ===== verification/StatusApiProps.v ===== *)
(** Theorems on the shared deployment status: what the publisher wrote the strict reader
    accepts, READY is seen only under a current lease, and a renewal changes nothing but
    the lease. *)

From S2P Require Import Prelude PyValue Atomic Envelopes Contracts Receipts ReceiptCodec Status StatusProps Manifest StatusApi.

(** ** Dictionaries *)

(** Decide a statement about literal keys. *)
#[local] Ltac by_key := apply (bool_decide_unpack _); vm_compute; exact I.

Lemma attr_dupdate k d u :
  NoDup (dkeys u) -> attr k (dupdate d u) = match dget k u with Some v => v | None => attr k d end.
Proof. intros Hu. unfold attr, dget_default. rewrite dget_dupdate by done. by destruct (dget k u). Qed.

Lemma dset_same {A} k (v : A) d : dget k d = Some v -> dset k v d = d.
Proof.
  induction d as [|[k' v'] d IH]; cbn; [done|]. destruct (decide (k' = k)).
  - intros [= ->]. by subst.
  - intros Hg. by rewrite IH.
Qed.

Lemma dkeys_dupdate {A} (d u : list (string * A)) :
  Forall (fun k => k ∈ dkeys d) (dkeys u) -> dkeys (dupdate d u) = dkeys d.
Proof.
  unfold dupdate. revert d. induction u as [|[k v] u IH]; intros d Hu; [done|].
  apply Forall_cons in Hu as [Hk Hu]. cbn [fold_left fst snd].
  rewrite IH; rewrite (dkeys_dset k), decide_True by done; done.
Qed.

Lemma same_keys_elem a b k : same_keys a b = true -> k ∈ a <-> k ∈ b.
Proof.
  unfold same_keys. intros [Ha Hb]%andb_prop. rewrite forallb_forall in Ha, Hb.
  split; intros Hk%list_elem_of_In; [apply Ha in Hk|apply Hb in Hk]; by bool_prop.
Qed.

Lemma py_eqb_str_refl s : py_eqb (VStr s) (VStr s) = true.
Proof. cbn. by apply bool_decide_eq_true. Qed.
Lemma py_eqb_int_refl z : py_eqb (VInt z) (VInt z) = true.
Proof. cbn. by rewrite Z.compare_refl. Qed.

(** ** What a transition writes *)

Lemma append_history_data (e : event DeploymentState) h d h' d' k :
  append_history e h d = Ok (h', d') -> k <> HISTORY_DROPPED_KEY -> dget k d' = dget k d.
Proof.
  unfold append_history. destruct (_ <=? _); intros Ha Hk; res_inv; simplify_eq; [|done].
  by rewrite dget_dset_ne by congruence.
Qed.

Lemma transition_writes now expected new reason det du er ev r (r' : StatusRecord DeploymentState) :
  rec_ok r -> good_time now -> NoDup (dkeys du) ->
  (forall n cu, ev n = Ok cu -> NoDup (dkeys cu)) ->
  transition_checks expected new reason (Some du) (Some er) = Ok tt ->
  transition_record now expected new reason det (Some du) (Some er)
    (Some (fun n => Some <$> ev n)) (Doc (asdict r)) = Ok r' ->
  rec_ok r' /\ state r = expected /\ state r' = new /\
  revision r = er /\ revision r' = er + 1 /\ new ∈ DEPLOYMENT_TRANSITIONS expected /\
  provenance r' = provenance r /\
  exists cu, ev (revision r') = Ok cu /\
    forall k, k <> HISTORY_DROPPED_KEY ->
      dget k (Status.data r') = match dget k cu with
                                | Some v => Some v
                                | None => match dget k du with Some v => Some v | None => dget k (Status.data r) end
                                end.
Proof.
  intros Hok Hg Hdu Hev Hc Ht.
  destruct (transition_sim _ _ _ _ _ _ _ _ _ _ _ (holds_record r Hok) Hg Hc Ht)
    as (Hok' & n & [= Hst Hn] & Hnew & Her & [= Hst' Hrev']).
  assert (revision r = er) as <- by (destruct Her; congruence).
  unfold transition_record, value_error_if in Ht.
  res_inv. simplify_eq.
  match goal with H : cas_load _ _ _ = Ok ?r0 |- _ =>
    assert (r0 = r) as -> by (unfold cas_load in H; rewrite load_doc_back in H by done; cbn in H; res_inv; done) end.
  match goal with H : append_history _ _ _ = Ok ?p |- _ => destruct p as [h' d'] end.
  match goal with H : (Some <$> ev _) = Ok _ |- _ =>
    destruct (ev (revision r + 1)) as [cu|] eqn:Hcu; [|done]; cbn in H; injection H as <- end.
  split_and!; try done; try congruence.
  exists cu. split; [done|]. intros k Hk. cbn [Status.data snd].
  match goal with H : append_history _ _ _ = Ok _ |- _ => rewrite (append_history_data _ _ _ _ _ k H Hk) end.
  cbn [apply_update]. rewrite !dget_dupdate by eauto. done.
Qed.

(** ** Clocks *)

Lemma clock_sample_Ok c w m b :
  clock_sample c = Ok (w, m, b) ->
  wall c = w /\ monotonic c = m /\ boot c = Some b /\ good_time w /\ good_time m /\ bad_boot b = false.
Proof.
  unfold clock_sample, value_error_if. intros Hs. res_inv.
  destruct (boot c) as [b'|]; [|done]. res_inv. simplify_eq.
  assert (forall f, bad_reading f = false -> good_time f) as Hgood.
  { intros f [Hfin Hneg]%orb_false_elim. apply negb_false_iff in Hfin. split; [done|].
    apply Float.ltb_false; [by destruct f|done..]. }
  split_and!; auto.
Qed.

Lemma public_number_good {m : string} f : good_time f -> public_number m negative (VFloat f) = Ok f.
Proof.
  intros Hg. unfold public_number, check_number, negative. cbn.
  pose proof (nonneg_float_not_ltb f Hg) as Hn. destruct Hg as [-> _]. cbn in *. by rewrite Hn.
Qed.

(** ** Validation looks at no lease *)

Lemma validate_drop_plan s mm cm n mode plan :
  validate_ready_payload s mm cm n mode plan = Ok tt -> validate_ready_payload s mm cm n mode None = Ok tt.
Proof.
  destruct s; try done. cbn [validate_ready_payload]. intros Hv. unfold value_error_if in *.
  repeat (apply bind_Ok in Hv as (? & Hx & Hv); first [rewrite Hx | cbn [raise_if]]; clear Hx;
          cbn [mbind result_bind]).
  done.
Qed.

Lemma attr_lease_free k s l :
  Forall (fun k => k ∈ LEASE_EVIDENCE) (dkeys l) -> k ∉ LEASE_EVIDENCE -> attr k (dupdate s l) = attr k s.
Proof.
  intros Hl Hk. unfold attr, dget_default. rewrite dget_dupdate_not_in; [done|].
  rewrite Forall_forall in Hl. auto.
Qed.

Lemma validate_lease_irrelevant s l mm cm n mode plan :
  validate_ready_payload (VDict s) mm cm n mode plan = Ok tt ->
  Forall (fun k => k ∈ LEASE_EVIDENCE) (dkeys l) ->
  validate_ready_payload (VDict (dupdate s l)) mm cm n mode plan = Ok tt.
Proof.
  intros Hv Hl. pose proof Hv as Hv'. cbn [validate_ready_payload] in Hv' |- *.
  rewrite !(fun k => attr_lease_free k s l Hl) by by_key.
  apply bind_Ok in Hv' as ([] & Hk & _). unfold value_error_if in Hk. apply raise_if_Ok in Hk.
  apply negb_false_iff in Hk. rewrite dkeys_dupdate; [exact Hv|].
  rewrite Forall_forall in Hl |- *. intros key Hin%Hl. apply (same_keys_elem _ _ key Hk).
  unfold LEASE_EVIDENCE in Hin. rewrite !elem_of_cons, elem_of_nil in Hin.
  destruct Hin as [->|[->|[->|[]]]]; by_key.
Qed.

(** ** The publisher and its directory *)

Section Api.
Context (canonical_hash : dict -> string) (cf : config).
Implicit Types (p : publisher) (d : dir) (r : StatusRecord DeploymentState).

(** The identity that [initialize] publishes is one that the reader accepts. *)
Record identity_ok : Prop := IdentityOk {
  io_deployment : nonempty (DeploymentPlan.deployment_id (cf_plan cf)) = true;
  io_generation : 0 <= cf_generation cf;
  io_hashes : forallb is_sha256 [DeploymentPlan.deployment_plan_hash (cf_plan cf);
                DeploymentPlan.site_profile_hash (cf_plan cf); binding_hash cf] = true;
  io_run : forall i, cf_run cf = Some i ->
    bad_optional_hash (run_semantic_hash i) = false /\ bad_optional_hash (run_provenance_hash i) = false;
  io_nodes : 0 < DeploymentPlan.num_nodes (cf_plan cf)
}.

Definition PUBLIC_KEYS : list string :=
  ["advertised_endpoint"; "readiness_snapshot"; "model_map"; "capability_map"; "receipt_hashes"].

Definition manifest_named (s : dict) : Prop :=
  (exists x, dget_default "receipt_manifest_path" (VStr "") s = VStr x) /\
  (exists x, dget_default "receipt_manifest_hash" (VStr "") s = VStr x).

(** The type of a public field. *)
Definition field_ok (k : string) (v : value) : Prop :=
  (k = "advertised_endpoint" -> exists s, v = VStr s) /\
  (k = "readiness_snapshot" -> exists s, v = VDict s /\ manifest_named s) /\
  (k = "model_map" \/ k = "capability_map" -> exists x, v = VDict x) /\
  (k = "receipt_hashes" -> exists hs, read_hashes v = Ok hs).

(** The data of the status record. *)
Record data_ok (rev : Z) (x : dict) : Prop := DataOk {
  do_schema : dget "deployment_status_schema_version" x = Some (VInt DEPLOYMENT_STATUS_SCHEMA_VERSION);
  do_mode : dget "exposure_mode" x = Some (VStr (plan_mode (cf_plan cf)));
  do_nodes : dget "num_nodes" x = Some (VInt (DeploymentPlan.num_nodes (cf_plan cf)));
  do_clock : exists w m b, dget "state_revision" x = Some (VInt rev) /\
    dget "state_changed_at" x = Some (VFloat w) /\ dget "state_changed_monotonic" x = Some (VFloat m) /\
    dget "state_clock_boot_id" x = Some (VStr b) /\ good_time w /\ good_time m /\ bad_boot b = false;
  do_fields : forall k v, dget k x = Some v -> field_ok k v
}.

(** A clock whose lease ends after time zero. *)
Definition live_clock (c : clock) : Prop :=
  not_positive (VFloat (Float.add (wall c) (lease_duration cf))) = false /\
  not_positive (VFloat (Float.add (monotonic c) (lease_duration cf))) = false.

(** The lease artifact holds the lease taken at [c]. *)
Definition leased (c : clock) (f : file) : Prop :=
  exists n snapshot w m b,
    clock_sample c = Ok (w, m, b) /\ 1 <= n /\
    f = Doc (VDict (lease_payload canonical_hash cf n snapshot)) /\
    attr "lease_expires_at" snapshot = VFloat (Float.add w (lease_duration cf)) /\
    attr "lease_expires_monotonic" snapshot = VFloat (Float.add m (lease_duration cf)) /\
    attr "lease_clock_boot_id" snapshot = VStr b /\
    Float.is_finite (Float.add w (lease_duration cf)) = true /\
    Float.is_finite (Float.add m (lease_duration cf)) = true.

(** A READY record, its manifest and its snapshot. *)
Record ready_record d r : Prop := ReadyRecord {
  rr_evidence : exists s endpoint hashes path hash f m,
    dget "readiness_snapshot" (Status.data r) = Some (VDict s) /\
    dget "advertised_endpoint" (Status.data r) = Some (VStr endpoint) /\ nonempty endpoint = true /\
    read_hashes (dget_default "receipt_hashes" (VList []) (Status.data r)) = Ok hashes /\
    validate_ready_payload (VDict s) (attr "model_map" (Status.data r))
      (attr "capability_map" (Status.data r)) (DeploymentPlan.num_nodes (cf_plan cf))
      (plan_mode (cf_plan cf)) None = Ok tt /\
    attr "ready" s = VBool true /\ attr "phase" s = VStr "READY" /\
    attr "advertised_endpoint" s = VStr endpoint /\
    attr "generation" s = VInt (cf_generation cf) /\
    attr "deployment_plan_hash" s = VStr (DeploymentPlan.deployment_plan_hash (cf_plan cf)) /\
    attr "allocation_binding_hash" s = VStr (binding_hash cf) /\
    attr "receipt_hashes" s = texts hashes /\
    nonempty_str (attr "receipt_manifest_path" s) = Some path /\
    sha_text (attr "receipt_manifest_hash" s) = Some hash /\
    manifests d !! path = Some f /\ mf_manifest canonical_hash f = Some m /\
    manifest_agrees m hash (DeploymentPlan.deployment_id (cf_plan cf)) (cf_generation cf)
      (DeploymentPlan.deployment_plan_hash (cf_plan cf)) (binding_hash cf) hashes = true
}.

(** The status record is this publisher's; [C] are the clocks of its leases. *)
Record owned (C : clock -> Prop) p d r : Prop := Owned {
  ow_file : status_file d = Doc (asdict r);
  ow_record : rec_ok r;
  ow_pub : pub_record p = Some r /\ pub_state p = state r /\ pub_revision p = revision r;
  ow_lease_revision : 0 <= pub_lease_revision p;
  ow_provenance : provenance r = run_provenance cf;
  ow_data : data_ok (revision r) (Status.data r);
  ow_manifests : forall path f, manifests d !! path = Some f -> mf_inside f = true /\ mf_regular f = true;
  ow_ready : state r = READY -> ready_record d r /\ exists c, C c /\ live_clock c /\ leased c (lease_file d);
  ow_revoked : state r <> READY ->
    forall s, dget "readiness_snapshot" (Status.data r) = Some (VDict s) -> is_true (attr "ready" s) = false;
  ow_writable : json_writable (asdict r) = true
}.

(** The publisher that has [r] as its record. *)
Definition in_step r (lease_revision : Z) : publisher :=
  Publisher (state r) (revision r) (Some r) lease_revision.

(** The record on file is one revision ahead of what the publisher knows: the call that wrote
    it has raised. *)
Definition lagging p r : Prop :=
  revision r = pub_revision p + 1 /\
  ((pub_revision p = -1 /\ pub_record p = None /\ pub_state p = PLANNED /\ state r = PLANNED) \/
   exists r0, pub_record p = Some r0 /\ state r ∈ DEPLOYMENT_TRANSITIONS (pub_state p)).

Definition behind (C : clock -> Prop) p d r : Prop :=
  owned C (in_step r (pub_lease_revision p)) d r /\ lagging p r.

Lemma owned_in_step C p d r n : owned C p d r -> 0 <= n -> owned C (in_step r n) d r.
Proof. intros [] Hn. by split. Qed.

Lemma lagging_same p p' r :
  pub_record p' = pub_record p -> pub_state p' = pub_state p -> pub_revision p' = pub_revision p ->
  lagging p r -> lagging p' r.
Proof. intros E1 E2 E3. unfold lagging. by rewrite E1, E2, E3. Qed.

(** ** What the reader makes of it *)

Lemma provenance_readable :
  identity_ok ->
  read_provenance (run_provenance cf) =
  Ok (TypedProvenance (DeploymentPlan.deployment_id (cf_plan cf)) (cf_generation cf)
        (DeploymentPlan.deployment_plan_hash (cf_plan cf)) (DeploymentPlan.site_profile_hash (cf_plan cf))
        (binding_hash cf) (from_option run_id "" (cf_run cf)) (from_option run_semantic_hash "" (cf_run cf))
        (from_option run_provenance_hash "" (cf_run cf))).
Proof.
  intros [Hd Hg Hh Hr Hn]. unfold read_provenance, need_text, invalid_if.
  change (dget "deployment_id" (run_provenance cf))
    with (Some (VStr (DeploymentPlan.deployment_id (cf_plan cf)))).
  change (dget "generation" (run_provenance cf)) with (Some (VInt (cf_generation cf))).
  change (dget "deployment_plan_hash" (run_provenance cf))
    with (Some (VStr (DeploymentPlan.deployment_plan_hash (cf_plan cf)))).
  change (dget "site_profile_hash" (run_provenance cf))
    with (Some (VStr (DeploymentPlan.site_profile_hash (cf_plan cf)))).
  change (dget "allocation_binding_hash" (run_provenance cf)) with (Some (VStr (binding_hash cf))).
  change (dget "run_id" (run_provenance cf)) with (Some (VStr (from_option run_id "" (cf_run cf)))).
  change (dget "run_semantic_hash" (run_provenance cf))
    with (Some (match cf_run cf with Some i => VStr (run_semantic_hash i) | None => VNone end)).
  change (dget "run_provenance_hash" (run_provenance cf))
    with (Some (VStr (from_option run_provenance_hash "" (cf_run cf)))).
  cbn [mbind result_bind].
  assert ((cf_generation cf <? 0) = false) as -> by (apply Z.ltb_ge; lia).
  destruct (cf_run cf) as [i|] eqn:Hi; cbn [mbind result_bind from_option].
  - destruct (Hr i eq_refl) as [-> ->]. rewrite Hh, Hd. done.
  - rewrite Hh, Hd. done.
Qed.

Definition lease_at (w m : float) (b : string) : dict :=
  [("lease_expires_at", VFloat (Float.add w (lease_duration cf)));
   ("lease_expires_monotonic", VFloat (Float.add m (lease_duration cf)));
   ("lease_clock_boot_id", VStr b)].

(** A lease that was published is the lease that is read. *)
Lemma lease_readable c f :
  leased c f ->
  exists w m b, clock_sample c = Ok (w, m, b) /\
    load_ready_lease canonical_hash f (run_provenance cf) = Ok (Some (lease_at w m b)) /\
    Float.is_finite (Float.add w (lease_duration cf)) = true /\
    Float.is_finite (Float.add m (lease_duration cf)) = true.
Proof.
  intros (n & s & w & m & b & Hs & Hn & -> & E1 & E2 & E3 & F1 & F2). exists w, m, b.
  split; [done|]. split; [|done]. unfold load_ready_lease, invalid_if.
  set (payload := lease_payload _ _ _ _).
  change (dkeys payload) with LEASE_FIELDS.
  change (attr "schema_version" payload) with (VInt READY_LEASE_SCHEMA_VERSION).
  change (attr "lease_revision" payload) with (VInt n).
  change (List.filter (fun kv => negb (bool_decide (kv.1 = "lease_hash"))) payload)
    with (removelast payload).
  change (attr "lease_hash" payload) with (VStr (canonical_hash (removelast payload))).
  cbv beta iota. assert ((n <? 1) = false) as -> by (apply Z.ltb_ge; lia).
  rewrite bool_decide_true by done.
  assert (existsb (fun k => negb (py_eqb (attr k payload) (attr k (run_provenance cf)))) LEASE_IDENTITY
          = false) as ->.
  { change (negb (py_eqb (VStr (DeploymentPlan.deployment_id (cf_plan cf)))
              (VStr (DeploymentPlan.deployment_id (cf_plan cf)))) ||
            (negb (py_eqb (VInt (cf_generation cf)) (VInt (cf_generation cf))) ||
            (negb (py_eqb (VStr (DeploymentPlan.deployment_plan_hash (cf_plan cf)))
              (VStr (DeploymentPlan.deployment_plan_hash (cf_plan cf)))) ||
            (negb (py_eqb (VStr (binding_hash cf)) (VStr (binding_hash cf))) || false))) = false).
    by rewrite !py_eqb_str_refl, py_eqb_int_refl. }
  cbn [mbind result_bind negb raise_if]. unfold LEASE_EVIDENCE. cbn [fmap list_fmap].
  change (attr "lease_expires_at" payload) with (attr "lease_expires_at" s).
  change (attr "lease_expires_monotonic" payload) with (attr "lease_expires_monotonic" s).
  change (attr "lease_clock_boot_id" payload) with (attr "lease_clock_boot_id" s).
  by rewrite E1, E2, E3.
Qed.

Lemma lease_at_keys w m b : Forall (fun k => k ∈ LEASE_EVIDENCE) (dkeys (lease_at w m b)).
Proof. repeat constructor; by_key. Qed.

Lemma lease_at_nodup w m b : NoDup (dkeys (lease_at w m b)).
Proof. by_key. Qed.

Lemma public_number_positive msg f :
  Float.is_finite f = true -> not_positive (VFloat f) = false ->
  public_number msg not_positive (VFloat f) = Ok f.
Proof. intros Hf Hp. unfold public_number, check_number. cbn [is_number negb raise_if mbind result_bind to_float]. by rewrite Hf, Hp. Qed.

Lemma py_eqb_texts l : py_eqb (texts l) (texts l) = true.
Proof.
  unfold texts. cbn [py_eqb]. induction l as [|x l IH]; [done|]. cbn [fmap list_fmap]. fold py_eqb.
  rewrite py_eqb_str_refl. exact IH.
Qed.

Abbreviation prov := (TypedProvenance (DeploymentPlan.deployment_id (cf_plan cf)) (cf_generation cf)
        (DeploymentPlan.deployment_plan_hash (cf_plan cf)) (DeploymentPlan.site_profile_hash (cf_plan cf))
        (binding_hash cf) (from_option run_id "" (cf_run cf)) (from_option run_semantic_hash "" (cf_run cf))
        (from_option run_provenance_hash "" (cf_run cf))).

Lemma manifest_named_same s s' :
  dget "receipt_manifest_path" s' = dget "receipt_manifest_path" s ->
  dget "receipt_manifest_hash" s' = dget "receipt_manifest_hash" s -> manifest_named s -> manifest_named s'.
Proof. unfold manifest_named, dget_default. by intros -> ->. Qed.

Lemma manifest_named_intro s path hash :
  nonempty_str (attr "receipt_manifest_path" s) = Some path ->
  sha_text (attr "receipt_manifest_hash" s) = Some hash -> manifest_named s.
Proof.
  unfold attr, manifest_named, dget_default. intros H1 H2. split.
  - destruct (dget "receipt_manifest_path" s) as [[]|]; try done; by eexists.
  - destruct (dget "receipt_manifest_hash" s) as [[]|]; try done; by eexists.
Qed.

(** A READY record reads as READY, with the lease of the artifact. *)
Lemma ready_readable d r c :
  ready_record d r -> live_clock c -> leased c (lease_file d) ->
  (forall path f, manifests d !! path = Some f -> mf_inside f = true /\ mf_regular f = true) ->
  exists w m b s endpoint hashes,
    clock_sample c = Ok (w, m, b) /\
    dget "readiness_snapshot" (Status.data r) = Some (VDict s) /\
    dget "advertised_endpoint" (Status.data r) = Some (VStr endpoint) /\
    read_hashes (dget_default "receipt_hashes" (VList []) (Status.data r)) = Ok hashes /\
    read_ready canonical_hash d (Status.data r) (run_provenance cf) prov
      (DeploymentPlan.num_nodes (cf_plan cf)) endpoint (plan_mode (cf_plan cf)) hashes s
    = Ok (dupdate s (lease_at w m b)) /\
    manifest_named (dupdate s (lease_at w m b)).
Proof.
  intros [(s & endpoint & hashes & path & hash & f & mf & Hs & He & Hne & Hh & Hv & A1 & A2 & A3 & A4 & A5 & A6
    & A7 & Hpath & Hhash & Hf & Hm & Hag)] [L1 L2] Hl Hman.
  destruct (lease_readable _ _ Hl) as (w & m & b & Hc & Hload & F1 & F2).
  exists w, m, b, s, endpoint, hashes. do 4 (split; [done|]).
  apply clock_sample_Ok in Hc as (<- & <- & Hb & _ & _ & Hboot).
  set (l := lease_at (wall c) (monotonic c) b) in *. set (s' := dupdate s l).
  assert (forall k, k ∉ LEASE_EVIDENCE -> attr k s' = attr k s) as Hsame
    by (intros k; by apply attr_lease_free, lease_at_keys).
  assert (forall k v, dget k l = Some v -> attr k s' = v) as Hnew
    by (intros k v Hk; unfold s'; by rewrite attr_dupdate, Hk by apply lease_at_nodup).
  split.
  - unfold read_ready. rewrite Hload. cbn [mbind result_bind]. fold s'.
    pose proof (validate_lease_irrelevant s l _ _ _ _ _ Hv (lease_at_keys _ _ _)) as Hv'.
    fold s' in Hv'. rewrite Hv'.
    cbn [public_schema mbind result_bind].
    rewrite (Hsame "ready"), (Hsame "phase"), (Hsame "advertised_endpoint"), (Hsame "receipt_hashes"),
      (Hsame "receipt_manifest_path"), (Hsame "receipt_manifest_hash")
      by by_key.
    rewrite A1, A2, A3, A7, Hpath, Hhash, Hne, Hf, Hm. unfold invalid_if. cbn [is_true negb orb existsb tp_deployment_id tp_generation tp_plan_hash tp_binding_hash].
    rewrite (Hsame "generation"), (Hsame "deployment_plan_hash"), (Hsame "allocation_binding_hash")
      by by_key.
    rewrite A4, A5, A6, !py_eqb_str_refl, py_eqb_texts.
    change (attr "generation" (run_provenance cf)) with (VInt (cf_generation cf)).
    change (attr "deployment_plan_hash" (run_provenance cf))
      with (VStr (DeploymentPlan.deployment_plan_hash (cf_plan cf))).
    change (attr "allocation_binding_hash" (run_provenance cf)) with (VStr (binding_hash cf)).
    rewrite py_eqb_int_refl, ?py_eqb_str_refl. cbn [negb orb raise_if mbind result_bind].
    rewrite (Hnew "lease_expires_at" _ eq_refl), (Hnew "lease_expires_monotonic" _ eq_refl),
      (Hnew "lease_clock_boot_id" _ eq_refl).
    rewrite !public_number_positive by done. cbn [mbind result_bind is_long_boot]. rewrite Hboot, Hag.
    destruct (Hman _ _ Hf) as [-> ->]. done.
  - assert (forall k, k ∉ LEASE_EVIDENCE -> dget k s' = dget k s) as Hget.
    { intros k Hk. unfold s'. apply dget_dupdate_not_in. intros Hin. apply Hk.
      pose proof (lease_at_keys (wall c) (monotonic c) b) as Hall. rewrite Forall_forall in Hall. by apply Hall. }
    apply (manifest_named_same s); [apply Hget; by_key..|].
    by eapply manifest_named_intro.
Qed.

Lemma data_fields_readable rev x :
  data_ok rev x ->
  (exists e, data_text x "advertised_endpoint" = Ok e) /\
  (exists s, data_object x "readiness_snapshot" = Ok s /\ manifest_named s /\
     (forall s', dget "readiness_snapshot" x = Some (VDict s') -> s' = s) /\
     (dget "readiness_snapshot" x = None -> s = [])) /\
  (exists mm, data_object x "model_map" = Ok mm) /\
  (exists cm, data_object x "capability_map" = Ok cm) /\
  (exists hs, read_hashes (dget_default "receipt_hashes" (VList []) x) = Ok hs).
Proof.
  intros [_ _ _ _ Hf]. unfold data_text, data_object, dget_default.
  split_and!.
  - destruct (dget "advertised_endpoint" x) as [v|] eqn:E; [|by eexists].
    destruct (Hf _ _ E) as (H1 & _). destruct (H1 eq_refl) as [s ->]. by eexists.
  - destruct (dget "readiness_snapshot" x) as [v|] eqn:E.
    + destruct (Hf _ _ E) as (_ & H1 & _). destruct (H1 eq_refl) as (s & -> & Hs). exists s.
      split_and!; [done..|by intros s' [= ->]|done].
    + exists []. split_and!; [done|split; by eexists|done..].
  - destruct (dget "model_map" x) as [v|] eqn:E; [|by eexists].
    destruct (Hf _ _ E) as (_ & _ & H1 & _). destruct (H1 ltac:(by left)) as [s ->]. by eexists.
  - destruct (dget "capability_map" x) as [v|] eqn:E; [|by eexists].
    destruct (Hf _ _ E) as (_ & _ & H1 & _). destruct (H1 ltac:(by right)) as [s ->]. by eexists.
  - destruct (dget "receipt_hashes" x) as [v|] eqn:E; [|by eexists].
    destruct (Hf _ _ E) as (_ & _ & _ & H1). destruct (H1 eq_refl) as [hs Hhs]. by exists hs.
Qed.

Lemma state_clock_readable r :
  data_ok (revision r) (Status.data r) -> 0 <= revision r ->
  exists y, read_state_clock r DEPLOYMENT_STATUS_SCHEMA_VERSION = Ok y.
Proof.
  intros [_ _ _ (w & m & b & E1 & E2 & E3 & E4 & Hw & Hm & Hb) _] Hr.
  unfold read_state_clock, attr, dget_default. rewrite E1, E2, E3, E4. cbn [from_option id].
  unfold invalid_if. rewrite Z.eqb_refl. cbv beta iota.
  rewrite (proj2 (Z.ltb_ge _ _) Hr), Z.ltb_irrefl. cbn [orb raise_if mbind result_bind].
  rewrite !public_number_good by done. cbn [mbind result_bind]. rewrite Hb. by eexists.
Qed.

(** What the consumers see of a READY status: the published snapshot under the lease of
    one of the clocks. *)
Definition sees_lease (C : clock -> Prop) r (s : DeploymentStatus.t) : Prop :=
  exists c w m b s0, C c /\ clock_sample c = Ok (w, m, b) /\
    dget "readiness_snapshot" (Status.data r) = Some (VDict s0) /\
    DeploymentStatus.readiness_snapshot s = dupdate s0 (lease_at w m b) /\
    Float.is_finite (Float.add m (lease_duration cf)) = true.

Lemma owned_readable C p d r :
  identity_ok -> owned C p d r ->
  exists s, read_deployment_status canonical_hash d = Ok (Some s) /\
    DeploymentStatus.state s = pub_state p /\ DeploymentStatus.revision s = pub_revision p /\
    DeploymentStatus.generation s = cf_generation cf /\
    DeploymentStatus.deployment_plan_hash s = DeploymentPlan.deployment_plan_hash (cf_plan cf) /\
    (pub_state p = READY -> sees_lease C r s).
Proof.
  intros Hid [Hfile Hrec (Hpr & Hst & Hrev) Hlr Hprov Hdata Hman Hready Hrevoked _].
  pose proof (rec_ok_revision _ Hrec) as Hr0. pose proof Hrec as (_ & _ & u & Hu & Hgu & _).
  destruct (data_fields_readable _ _ Hdata) as ([ep Hep] & (s0 & Hs0 & Hnamed & Hsame & Hnone) & [mm Hmm] & [cm Hcm] & [hs Hhs]).
  destruct (state_clock_readable _ Hdata Hr0) as [[[[srev cat] cmono] sb] Hclock].
  unfold read_deployment_status. rewrite Hfile, load_doc_back by done.
  unfold read_record. rewrite Hu, public_number_good by done. cbn [mbind result_bind].
  destruct Hdata as [D1 D2 D3 _ _]. 
  assert (dget_default "deployment_status_schema_version" (VInt 1) (Status.data r)
          = VInt DEPLOYMENT_STATUS_SCHEMA_VERSION) as -> by (unfold dget_default; by rewrite D1).
  unfold invalid_if.
  change (bool_decide (DEPLOYMENT_STATUS_SCHEMA_VERSION ∈ [1; DEPLOYMENT_STATUS_SCHEMA_VERSION])) with true.
  cbn [negb raise_if mbind result_bind]. rewrite Hclock. cbn [mbind result_bind].
  rewrite Hprov, (provenance_readable Hid). cbn [mbind result_bind].
  assert (data_text (Status.data r) "exposure_mode" = Ok (plan_mode (cf_plan cf))) as ->
    by (unfold data_text; by rewrite D2).
  cbn [mbind result_bind]. rewrite Hep, Hs0, Hmm, Hcm. cbn [mbind result_bind].
  assert (attr "num_nodes" (Status.data r) = VInt (DeploymentPlan.num_nodes (cf_plan cf))) as ->
    by (unfold attr, dget_default; by rewrite D3).
  rewrite (proj2 (Z.leb_gt _ _) (io_nodes Hid)). cbn [raise_if mbind result_bind].
  rewrite Hhs. cbn [mbind result_bind].
  destruct (decide (state r = READY)) as [Hisready|Hnot].
  - rewrite bool_decide_true by done. destruct (Hready Hisready) as (Hrr & c & HC & Hlive & Hlease).
    destruct (ready_readable d r c Hrr Hlive Hlease Hman) as (w & m & b & s & e & hashes & Hc & E1 & E2 & E3 & Hread & Hn1 & Hn2).
    assert (s = s0) as -> by eauto.
    assert (ep = e) as -> by (unfold data_text in Hep; rewrite E2 in Hep; congruence).
    assert (hs = hashes) as -> by congruence.
    rewrite Hread. cbn [mbind result_bind]. unfold manifest_text.
    destruct Hn1 as [x1 ->], Hn2 as [x2 ->]. cbn [mbind result_bind].
    eexists. split; [reflexivity|]. split_and!; try done. intros _.
    exists c, w, m, b, s0. cbn [DeploymentStatus.readiness_snapshot].
    destruct (lease_readable _ _ Hlease) as (w' & m' & b' & Hc' & _ & _ & F2).
    rewrite Hc in Hc'. injection Hc' as <- <- <-. split_and!; done.
  - rewrite bool_decide_false by done.
    assert (is_true (attr "ready" s0) = false) as ->.
    { destruct (dget "readiness_snapshot" (Status.data r)) as [v|] eqn:E; [|by rewrite Hnone].
      unfold data_object in Hs0. rewrite E in Hs0. destruct v; try done. injection Hs0 as <-. by apply (Hrevoked Hnot). }
    unfold manifest_text. cbn [raise_if mbind result_bind].
    destruct Hnamed as [[x1 ->] [x2 ->]]. cbn [mbind result_bind].
    eexists. split; [reflexivity|]. split_and!; try done. by rewrite Hst.
Qed.

(** ** Publishing *)

Abbreviation lease_fields snapshot w m b :=
  (attr "lease_expires_at" snapshot = VFloat (Float.add w (lease_duration cf)) /\
   attr "lease_expires_monotonic" snapshot = VFloat (Float.add m (lease_duration cf)) /\
   attr "lease_clock_boot_id" snapshot = VStr b).

Lemma writable_field k v x : json_writable (VDict x) = true -> dget k x = Some v -> json_writable v = true.
Proof.
  cbn. rewrite forallb_forall. intros Hx Hk%dget_Some_elem%list_elem_of_In. exact (Hx _ Hk).
Qed.

Lemma publish_lease c w m b written snapshot p d p' d' x :
  clock_sample c = Ok (w, m, b) -> lease_fields snapshot w m b -> 0 <= pub_lease_revision p ->
  publish_ready_lease canonical_hash cf written snapshot p d = (p', d', x) ->
  p' = Publisher (pub_state p) (pub_revision p) (pub_record p) (pub_lease_revision p + 1) /\
  status_file d' = status_file d /\ manifests d' = manifests d /\
  (leased c (lease_file d') \/ lease_file d' = lease_file d /\ exists e, x = Err e).
Proof.
  intros Hc (E1 & E2 & E3) Hn. unfold publish_ready_lease. set (n := pub_lease_revision p + 1).
  set (payload := lease_payload canonical_hash cf n snapshot).
  destruct (json_writable (VDict payload)) eqn:Hw; cbn [negb].
  2: { intros [= <- <- <-]. split_and!; try done. right. eauto. }
  assert (leased c (Doc (VDict payload))) as Hle.
  2: { destruct written; cbn [atomic_write]; intros [= <- <- <-]; split_and!; try done; eauto. }
  exists n, snapshot, w, m, b. split_and!; try done; [lia|..].
  - pose proof (writable_field "lease_expires_at" _ payload Hw eq_refl) as Hf. by rewrite E1 in Hf.
  - pose proof (writable_field "lease_expires_monotonic" _ payload Hw eq_refl) as Hf. by rewrite E2 in Hf.
Qed.

Lemma evidence_Ok c l :
  ready_lease_evidence cf c = Ok l -> exists w m b, clock_sample c = Ok (w, m, b) /\ l = lease_at w m b.
Proof.
  unfold ready_lease_evidence, lease_evidence. destruct (clock_sample c) as [[[w m] b]|]; [|done].
  intros [= <-]. by exists w, m, b.
Qed.

Lemma sha_texts l ts :
  mapM nonempty_str l = Some ts -> forallb is_sha256 ts = true -> mapM sha_text l = Some ts.
Proof.
  rewrite !mapM_Some. intros Hf Hs. induction Hf as [|v x l ts Hv Hf IH]; [done|].
  cbn in Hs. apply andb_prop in Hs as [Hx Hs]. constructor; [|by apply IH].
  destruct v; try done. cbn in Hv |- *. destruct (nonempty s); [|done]. injection Hv as ->. by rewrite Hx.
Qed.

Lemma sequence_hashes msg v hashes :
  string_sequence msg true v = Ok hashes -> forallb is_sha256 hashes = true -> read_hashes v = Ok hashes.
Proof.
  unfold string_sequence, read_hashes, value_error_if, invalid_if. destruct v as [| | | | |l|]; try done.
  destruct (mapM nonempty_str l) as [ts|] eqn:Hm; [|done]. intros Hs Hsha. res_inv. subst.
  cbn in *. rewrite (sha_texts _ _ Hm Hsha).
  match goal with H : negb (bool_decide (sorted_set _ = _)) = false |- _ =>
    apply negb_false_iff, bool_decide_eq_true in H; rewrite bool_decide_true by congruence end. done.
Qed.

(** The keys that READY writes into the snapshot. *)
Lemma ready_fields_nodup e hs w m b : NoDup (dkeys (ready_fields cf e hs (lease_at w m b))).
Proof. by_key. Qed.

(** What [advance] has checked before it publishes READY. *)
Lemma ready_snapshot_Ok c data d s :
  ready_snapshot canonical_hash cf c data d = Ok s ->
  exists endpoint hashes path hash f mf w m b,
    attr "advertised_endpoint" data = VStr endpoint /\ nonempty endpoint = true /\
    read_hashes (dget_default "receipt_hashes" (VList []) data) = Ok hashes /\
    clock_sample c = Ok (w, m, b) /\ lease_fields s w m b /\
    validate_ready_payload (VDict s) (attr "model_map" data) (attr "capability_map" data)
      (DeploymentPlan.num_nodes (cf_plan cf)) (plan_mode (cf_plan cf)) None = Ok tt /\
    attr "ready" s = VBool true /\ attr "phase" s = VStr "READY" /\
    attr "advertised_endpoint" s = VStr endpoint /\ attr "generation" s = VInt (cf_generation cf) /\
    attr "deployment_plan_hash" s = VStr (DeploymentPlan.deployment_plan_hash (cf_plan cf)) /\
    attr "allocation_binding_hash" s = VStr (binding_hash cf) /\ attr "receipt_hashes" s = texts hashes /\
    nonempty_str (attr "receipt_manifest_path" s) = Some path /\
    sha_text (attr "receipt_manifest_hash" s) = Some hash /\
    manifests d !! path = Some f /\ mf_manifest canonical_hash f = Some mf /\
    manifest_agrees mf hash (DeploymentPlan.deployment_id (cf_plan cf)) (cf_generation cf)
      (DeploymentPlan.deployment_plan_hash (cf_plan cf)) (binding_hash cf) hashes = true.
Proof.
  unfold ready_snapshot, value_error_if. intros Hs.
  apply bind_Ok in Hs as (bnd & Hb & Hs). destruct (cf_binding cf) as [b0|] eqn:Hbind; [|done].
  injection Hb as ->. apply bind_Ok in Hs as (endpoint & He & Hs).
  destruct (nonempty_str (attr "advertised_endpoint" data)) as [e|] eqn:Hep; [|done]. injection He as ->.
  apply bind_Ok in Hs as (hashes & Hh & Hs). apply bind_Ok in Hs as ([] & Hsha & Hs).
  apply raise_if_Ok, negb_false_iff in Hsha.
  destruct (attr "readiness_snapshot" data) as [| | | | | |snap]; try done.
  destruct (nonempty_str (attr "receipt_manifest_path" snap)) as [path|] eqn:Hpath; [|done].
  destruct (sha_text (attr "receipt_manifest_hash" snap)) as [hash|] eqn:Hhash; [|done].
  destruct (find_manifest canonical_hash d path) as [mf|] eqn:Hm; [|done].
  apply bind_Ok in Hs as ([] & Hag & Hs). apply raise_if_Ok, negb_false_iff in Hag.
  apply bind_Ok in Hs as (l & Hl & Hs). apply evidence_Ok in Hl as (w & m & b & Hc & ->).
  apply bind_Ok in Hs as ([] & Hv & Hs).
  assert (s = dupdate snap (ready_fields cf (VStr endpoint) hashes (lease_at w m b))) as -> by congruence.
  clear Hs. unfold find_manifest in Hm. destruct (manifests d !! path) as [f|] eqn:Hf; [|done]. cbn in Hm.
  assert (binding_hash cf = AllocationBinding.allocation_binding_hash bnd) as Hbh by (unfold binding_hash; by rewrite Hbind).
  assert (nonempty endpoint = true /\ attr "advertised_endpoint" data = VStr endpoint) as [Hne Hatt].
  { destruct (attr "advertised_endpoint" data); try done. cbn in Hep. destruct (nonempty s) eqn:?; [|done].
    injection Hep as ->. done. }
  exists endpoint, hashes, path, hash, f, mf, w, m, b.
  rewrite !attr_dupdate by apply ready_fields_nodup.
  split_and!; try done.
  - by eapply sequence_hashes.
  - eapply validate_drop_plan. exact Hv.
  - by rewrite Hbh.
Qed.

(** ** The invariant is kept *)

Lemma field_ok_other k v : k ∉ PUBLIC_KEYS -> field_ok k v.
Proof.
  intros Hk. split_and!; [intros ->..|intros [->| ->]|intros ->];
    destruct Hk; by_key.
Qed.

Lemma state_evidence_Ok c rev cu :
  state_transition_evidence c rev = Ok cu ->
  exists w m b, good_time w /\ good_time m /\ bad_boot b = false /\
    cu = [("state_revision", VInt rev); ("state_changed_at", VFloat w);
          ("state_changed_monotonic", VFloat m); ("state_clock_boot_id", VStr b)].
Proof.
  unfold state_transition_evidence. destruct (clock_sample c) as [[[w m] b]|] eqn:Hc; [|done].
  apply clock_sample_Ok in Hc as (_ & _ & _ & ? & ? & ?). intros [= <-]. by exists w, m, b.
Qed.

Definition public_data (data : dict) : Prop :=
  NoDup (dkeys data) /\ forall k v, dget k data = Some v -> k ∈ PUBLIC_KEYS /\ field_ok k v.

Lemma data_ok_write c rev rev' x x' du cu :
  data_ok rev x -> public_data du -> state_transition_evidence c rev' = Ok cu ->
  (forall k, k <> HISTORY_DROPPED_KEY ->
     dget k x' = match dget k cu with
                 | Some v => Some v
                 | None => match dget k du with Some v => Some v | None => dget k x end
                 end) ->
  data_ok rev' x'.
Proof.
  intros [D1 D2 D3 _ D5] [_ Hdu] (w & m & b & Hw & Hm & Hb & ->)%state_evidence_Ok Hx.
  assert (forall k, k ∉ PUBLIC_KEYS -> dget k du = None) as Hout.
  { intros k Hk. destruct (dget k du) as [v|] eqn:E; [|done]. by destruct (Hdu _ _ E). }
  assert (forall k, k <> HISTORY_DROPPED_KEY -> k ∉ PUBLIC_KEYS ->
    dget k x' = match dget k [("state_revision", VInt rev'); ("state_changed_at", VFloat w);
          ("state_changed_monotonic", VFloat m); ("state_clock_boot_id", VStr b)] with
                | Some v => Some v | None => dget k x end) as Hpriv.
  { intros k Hd Hk. rewrite Hx, (Hout k Hk) by done. done. }
  split.
  - rewrite Hpriv by by_key. exact D1.
  - rewrite Hpriv by by_key. exact D2.
  - rewrite Hpriv by by_key. exact D3.
  - exists w, m, b. rewrite !Hpriv by by_key. done.
  - intros k v Hk. destruct (decide (k ∈ PUBLIC_KEYS)) as [Hin|]; [|by apply field_ok_other].
    assert (k <> HISTORY_DROPPED_KEY) as Hne.
    { intros ->. revert Hin. by_key. }
    rewrite (Hx k Hne) in Hk.
    assert (dget k [("state_revision", VInt rev'); ("state_changed_at", VFloat w);
          ("state_changed_monotonic", VFloat m); ("state_clock_boot_id", VStr b)] = None) as E.
    { unfold PUBLIC_KEYS in Hin. rewrite !elem_of_cons, elem_of_nil in Hin.
      by destruct Hin as [->|[->|[->|[->|[->|[]]]]]]. }
    rewrite E in Hk. destruct (dget k du) as [v'|] eqn:E'; [|by apply D5].
    injection Hk as ->. by apply Hdu.
Qed.

Lemma ready_record_same d d' r : manifests d' = manifests d -> ready_record d r -> ready_record d' r.
Proof. intros Hm [H]. split. by rewrite Hm. Qed.

(** A change of the lease artifact or of the lease revision alone. *)
Lemma owned_lease (C C' : clock -> Prop) p d r p' d' :
  owned C p d r -> (forall c, C c -> C' c) ->
  pub_record p' = pub_record p -> pub_state p' = pub_state p -> pub_revision p' = pub_revision p ->
  0 <= pub_lease_revision p' -> status_file d' = status_file d -> manifests d' = manifests d ->
  (lease_file d' = lease_file d \/ exists c, C' c /\ live_clock c /\ leased c (lease_file d')) ->
  owned C' p' d' r.
Proof.
  intros [Hf Hr (H1 & H2 & H3) _ Hp Hd Hm Hready Hrev Hwr] HC E1 E2 E3 Hl E4 E5 Hlease.
  split; rewrite ?E1, ?E2, ?E3, ?E4, ?E5; try done. intros Hst. destruct (Hready Hst) as (Hrr & c & Hc & Hlive & Hle).
  split; [by eapply ready_record_same|]. destruct Hlease as [->|?]; eauto.
Qed.

(** A new lease. *)
Lemma owned_relet (C C' : clock -> Prop) p d r p' d' :
  owned C p d r ->
  pub_record p' = pub_record p -> pub_state p' = pub_state p -> pub_revision p' = pub_revision p ->
  0 <= pub_lease_revision p' -> status_file d' = status_file d -> manifests d' = manifests d ->
  (exists c, C' c /\ live_clock c /\ leased c (lease_file d')) -> owned C' p' d' r.
Proof.
  intros [Hf Hr (H1 & H2 & H3) _ Hp Hd Hm Hready Hrev Hwr] E1 E2 E3 Hl E4 E5 Hlease.
  split; rewrite ?E1, ?E2, ?E3, ?E4, ?E5; try done. intros Hst. destruct (Hready Hst) as (Hrr & _).
  split; [by eapply ready_record_same|done].
Qed.

Lemma revoked_snapshot_Ok C c new data p d r s :
  owned C p d r -> public_data data -> revoked_snapshot c new data d = Ok s ->
  manifest_named s /\ is_true (attr "ready" s) = false.
Proof.
  intros Ho [_ Hdata] Hs. unfold revoked_snapshot in Hs. apply bind_Ok in Hs as (base & Hb & Hs).
  assert (s = dupdate base [("ready", VBool false); ("phase", VStr (deployment_value new));
                            ("observed_at", VFloat (wall c))]) as -> by congruence.
  assert (NoDup (dkeys [("ready", VBool false); ("phase", VStr (deployment_value new));
                        ("observed_at", VFloat (wall c))])) as Hnd
    by by_key.
  assert (manifest_named base) as Hbase.
  { destruct (data_fields_readable _ _ (ow_data _ _ _ _ Ho)) as (_ & (s0 & Hs0 & Hnamed & _) & _).
    assert (exists y, load (S := DeploymentState) (status_file d) = Ok (Some y) /\ Status.data y = Status.data r) as (y & Hy & Hyd).
    { exists r. rewrite (ow_file _ _ _ _ Ho), load_doc_back by apply Ho. done. }
    unfold attr, dget_default in Hb. destruct (dget "readiness_snapshot" data) as [v|] eqn:E.
    - destruct (Hdata _ _ E) as [_ (_ & Hf & _)]. destruct (Hf eq_refl) as (x & -> & Hx).
      cbn in Hb. congruence.
    - cbn [from_option id] in Hb. rewrite Hy in Hb. cbn [mbind result_bind] in Hb. rewrite Hyd in Hb.
      unfold data_object in Hs0. destruct (dget "readiness_snapshot" (Status.data r)) as [[]|]; cbn in Hb; try done; congruence. }
  split.
  - apply (manifest_named_same base); [by rewrite dget_dupdate by done..|done].
  - rewrite attr_dupdate by done. done.
Qed.

Definition advance_ok (e : advance_env) (new : DeploymentState) (data : dict) : Prop :=
  good_time (ae_now e) /\ public_data data /\
  (new = READY -> is_Some (dget "receipt_hashes" data) /\ live_clock (ae_clock e)).

(** The clocks after an advance. *)
Abbreviation with_clock C new c0 := (fun c => C c \/ (new = READY /\ c = c0)).

(** What is prepared before the record is written changes the lease alone. *)
Lemma prepare_spec C q e new data p d r p1 d1 x :
  owned C q d r -> advance_ok e new data -> 0 <= pub_lease_revision p ->
  prepare canonical_hash cf e new data p d = (p1, d1, x) ->
  pub_record p1 = pub_record p /\ pub_state p1 = pub_state p /\ pub_revision p1 = pub_revision p /\
  0 <= pub_lease_revision p1 /\ status_file d1 = status_file d /\ manifests d1 = manifests d /\
  (lease_file d1 = lease_file d \/ new = READY /\ leased (ae_clock e) (lease_file d1)) /\
  forall s, x = Ok s ->
    manifest_named s /\ (new <> READY -> is_true (attr "ready" s) = false) /\
    (new = READY -> ready_snapshot canonical_hash cf (ae_clock e) data d1 = Ok s /\ leased (ae_clock e) (lease_file d1)).
Proof.
  intros Ho (_ & Hdata & Hlive) Hl0. unfold prepare. destruct (decide (new = READY)) as [->|Hne].
  - rewrite bool_decide_true by done.
    destruct (ready_snapshot _ _ _ _) as [s|e'] eqn:Hs; [|intros [= <- <- <-]; split_and!; auto; done].
    pose proof Hs as Hs'. apply ready_snapshot_Ok in Hs' as (ep & hs & path & hash & f & mf & w & m & b & _ & _ & _ & Hc & Hl
      & _ & _ & _ & _ & _ & _ & _ & _ & Hp & Hh & _).
    destruct (publish_ready_lease _ _ _ _ _ _) as [[p2 d2] y] eqn:Hpub.
    apply (publish_lease _ _ _ _ _ _ _ _ _ _ _ Hc Hl Hl0) in Hpub as (-> & E1 & E2 & Hy).
    assert (forall z : result exn dict, z = match y with Ok _ => Ok s | Err x => Err x end -> forall s', z = Ok s' ->
      manifest_named s' /\ (READY <> READY -> is_true (attr "ready" s') = false) /\
      (READY = READY -> ready_snapshot canonical_hash cf (ae_clock e) data d2 = Ok s' /\ leased (ae_clock e) (lease_file d2))) as Hz.
    { intros z -> s'. destruct y as [u|e']; [|done]. intros [= <-]. split; [by eapply manifest_named_intro|].
      split; [done|]. intros _. destruct Hy as [Hy|[_ [? ?]]]; [|done]. split; [|done].
      unfold ready_snapshot, find_manifest in Hs |- *. by rewrite E2. }
    destruct y as [u|e']; intros [= <- <- <-]; cbn [pub_record pub_state pub_revision pub_lease_revision];
      (split_and!; [done|done|done|lia|done|done|destruct Hy as [?|[? _]]; auto|apply Hz; done]).
  - rewrite bool_decide_false by done. intros [= <- <- <-]. split_and!; auto. intros s Hs.
    destruct (revoked_snapshot_Ok _ _ _ _ _ _ _ _ Ho Hdata Hs). done.
Qed.

Lemma prepare_owned C q C' e new data p d r p1 d1 x :
  owned C q d r -> advance_ok e new data -> 0 <= pub_lease_revision p ->
  (lease_file d1 = lease_file d -> forall c, C c -> C' c) -> (new = READY -> C' (ae_clock e)) ->
  prepare canonical_hash cf e new data p d = (p1, d1, x) ->
  owned C' (in_step r (pub_lease_revision p1)) d1 r.
Proof.
  intros Ho Hok Hl0 HC HR Hp. pose proof Hok as (_ & _ & Hlive).
  destruct (prepare_spec _ _ _ _ _ _ _ _ _ _ _ Ho Hok Hl0 Hp) as (_ & _ & _ & Hl1 & E1 & E2 & Hlease & _).
  destruct Hlease as [Hsame|[-> Hle]].
  - apply (owned_lease C _ q d r _ _ Ho); cbn; try done; try apply Ho; auto;
      destruct (ow_pub _ _ _ _ Ho) as (? & ? & ?); congruence.
  - apply (owned_relet C _ q d r _ _ Ho); cbn; try done;
      try (destruct (ow_pub _ _ _ _ Ho) as (? & ? & ?); congruence).
    exists (ae_clock e). destruct Hlive; auto.
Qed.

Lemma state_evidence_nodup c n cu : state_transition_evidence c n = Ok cu -> NoDup (dkeys cu).
Proof.
  intros (w & m & b & _ & _ & _ & ->)%state_evidence_Ok. by_key.
Qed.

Lemma public_data_snapshot data s :
  public_data data -> manifest_named s -> public_data (dset "readiness_snapshot" (VDict s) data).
Proof.
  intros [Hnd Hd] Hs. split; [by apply NoDup_dset|]. intros k v. rewrite dget_dset.
  destruct (decide ("readiness_snapshot" = k)) as [<-|]; [|apply Hd]. intros [= <-].
  split; [by_key|]. split_and!; try done; [eauto|by intros []].
Qed.

(** The keys of a caller's data are looked up in the record that is written. *)
Lemma attr_written (cu du x x' : dict) k :
  (forall k, k <> HISTORY_DROPPED_KEY ->
     dget k x' = match dget k cu with
                 | Some v => Some v
                 | None => match dget k du with Some v => Some v | None => dget k x end
                 end) ->
  k <> HISTORY_DROPPED_KEY -> dget k cu = None -> is_Some (dget k du) -> dget k x' = dget k du.
Proof. intros Hx Hk Hc [v Hv]. by rewrite Hx, Hc, Hv. Qed.

Lemma validated_maps s mm cm n mode plan :
  validate_ready_payload s mm cm n mode plan = Ok tt -> (exists x, mm = VDict x) /\ (exists x, cm = VDict x).
Proof.
  destruct s; try done. cbn [validate_ready_payload]. intros Hv.
  do 10 (apply bind_Ok in Hv as (? & _ & Hv)).
  apply bind_Ok in Hv as (? & Hmm & Hv). apply bind_Ok in Hv as (? & Hcm & _).
  split; [destruct mm|destruct cm]; try done; by eexists.
Qed.

Lemma attr_is_Some k x v : attr k x = v -> v <> VNone -> dget k x = Some v.
Proof. unfold attr, dget_default. destruct (dget k x); cbn; congruence. Qed.

(** The record that an [advance] writes, whether the call returns or raises afterwards. *)
Lemma advance_writes (C C' : clock -> Prop) e new reason detail data p d r p1 d1 s r' :
  owned C p d r -> advance_ok e new data -> prepare canonical_hash cf e new data p d = (p1, d1, Ok s) ->
  (lease_file d1 = lease_file d -> forall c, C c -> C' c) -> (new = READY -> C' (ae_clock e)) ->
  let data' := Some (dset "readiness_snapshot" (VDict s) data) in
  transition_checks (pub_state p1) new reason data' (Some (pub_revision p1)) = Ok tt ->
  transition_record (ae_now e) (pub_state p1) new reason detail data' (Some (pub_revision p1))
    (Some (fun rev => Some <$> state_transition_evidence (ae_commit_clock e) rev)) (status_file d1) = Ok r' ->
  json_writable (asdict r') = true ->
  state r' = new /\ revision r' = pub_revision p + 1 /\ new ∈ DEPLOYMENT_TRANSITIONS (pub_state p) /\
  owned C' (in_step r' (pub_lease_revision p1)) (Dir (Doc (asdict r')) (lease_file d1) (manifests d1)) r'.
Proof.
  intros Ho Hok Hp HC HR. cbv zeta. pose proof Hok as (Hnow & Hdata & Hlive).
  pose proof (prepare_owned _ _ _ _ _ _ _ _ _ _ _ _ Ho Hok (ow_lease_revision _ _ _ _ Ho) HC HR Hp) as Ho1.
  destruct (prepare_spec _ _ _ _ _ _ _ _ _ _ _ Ho Hok (ow_lease_revision _ _ _ _ Ho) Hp)
    as (F1 & F2 & F3 & Hl & _ & _ & _ & Hs).
  destruct (Hs s eq_refl) as (Hnamed & Hrevoked & Hready). clear Hs Hp.
  destruct Ho1 as [Hfile Hrec _ _ Hprov Hd Hman _ _ _]. destruct (ow_pub _ _ _ _ Ho) as (H1 & H2 & H3).
  rewrite Hfile, F2, F3. intros Hch Ht Hwr. pose proof (public_data_snapshot data s Hdata Hnamed) as Hdu.
  apply transition_writes in Ht as (Hrec' & Hst & Hst' & Hrev & Hrev' & Hin' & Hprov' & cu & Hcu & Hx);
    [|done..|apply Hdu|intros ? ?; apply state_evidence_nodup|done].
  split; [done|]. split; [done|]. split; [done|].
  pose proof (data_ok_write _ _ _ _ _ _ _ Hd Hdu Hcu Hx) as Hd'.
  assert (forall k, k ∈ PUBLIC_KEYS -> k <> HISTORY_DROPPED_KEY /\ dget k cu = None) as Hpub.
  { intros k Hin. apply state_evidence_Ok in Hcu as (w & m & b & _ & _ & _ & ->).
    unfold PUBLIC_KEYS in Hin. rewrite !elem_of_cons, elem_of_nil in Hin.
    by destruct Hin as [->|[->|[->|[->|[->|[]]]]]]. }
  assert (forall k v, k ∈ PUBLIC_KEYS -> dget k (dset "readiness_snapshot" (VDict s) data) = Some v ->
            dget k (Status.data r') = Some v) as Hget.
  { intros k v Hin Hv. destruct (Hpub k Hin) as [Hk Hc]. rewrite (attr_written _ _ _ _ _ Hx Hk Hc); eauto. }
  assert (dget "readiness_snapshot" (Status.data r') = Some (VDict s)) as Hsnap.
  { apply Hget; [by_key|]. apply dget_dset_eq. }
  split; cbn [in_step pub_record pub_state pub_revision status_file manifests lease_file pub_lease_revision]; try done; try congruence.
  - intros Hr. destruct (Hready ltac:(congruence)) as [Hrs Hleased]. destruct Hlive as [Hhs Hlv]; [congruence|].
    split; [|exists (ae_clock e); split; [apply HR; congruence|done]].
    apply ready_snapshot_Ok in Hrs as (ep & hs & path & hash & fl & mf & w & m & b & E1 & E2 & E3 & _ & _ & Hv
      & A1 & A2 & A3 & A4 & A5 & A6 & A7 & A8 & A9 & A10 & A11 & A12).
    pose proof (validated_maps _ _ _ _ _ _ Hv) as [[mm Hmm] [cm Hcm]].
    assert (forall k v, k ∈ PUBLIC_KEYS -> k <> "readiness_snapshot" -> dget k data = Some v ->
              dget k (Status.data r') = Some v) as Hget'
      by (intros k v Hin Hne Hk; apply Hget; [done|by rewrite dget_dset_ne by congruence]).
    split. exists s, ep, hs, path, hash, fl, mf. split_and!; try done.
    + apply Hget'; [by_key|done|]. by apply attr_is_Some.
    + destruct Hhs as [v Hvh]. unfold dget_default in E3 |- *. rewrite Hvh in E3.
      rewrite (Hget' "receipt_hashes" v ltac:(by_key) ltac:(done) Hvh). exact E3.
    + assert (attr "model_map" (Status.data r') = attr "model_map" data) as ->.
      { unfold attr at 1, dget_default. rewrite (Hget' "model_map" (VDict mm)
          ltac:(by_key) ltac:(done)); [done|]. by apply attr_is_Some. }
      assert (attr "capability_map" (Status.data r') = attr "capability_map" data) as ->.
      { unfold attr at 1, dget_default. rewrite (Hget' "capability_map" (VDict cm)
          ltac:(by_key) ltac:(done)); [done|]. by apply attr_is_Some. }
      exact Hv.
  - intros Hne s'. rewrite Hsnap. intros [= <-]. apply Hrevoked. congruence.
Qed.

Lemma published_Err {A} (x : exn) : exists y, published (A := A) (Err x) = Err y.
Proof. destruct x; by eexists. Qed.

(** An [advance] of a publisher that is in step: it returns with the new record, or raises and
    leaves the record as it was, or raises with the new record on file. *)
Lemma advance_owned (C C' : clock -> Prop) e new reason detail data p d r p' d' x :
  owned C p d r -> advance_ok e new data ->
  advance canonical_hash cf e new reason detail data p d = (p', d', x) ->
  (lease_file d' = lease_file d -> forall c, C c -> C' c) -> (new = READY -> C' (ae_clock e)) ->
  match x with
  | Ok y => owned C' p' d' y /\ state y = new /\ ae_io e = io_done
  | Err _ => owned C' p' d' r \/
      exists r', behind C' p' d' r' /\ state r' = new /\ ambiguous (ae_io e)
  end.
Proof.
  intros Ho Hok Ha HC HR. unfold advance in Ha. destruct (ow_pub _ _ _ _ Ho) as (H1 & H2 & H3).
  destruct (pub_revision p <? 0).
  { injection Ha as <- <- <-. left. apply (owned_lease C _ p d r p d Ho); auto. apply Ho. }
  destruct (prepare _ _ _ _ _ _ _) as [[p1 d1] y] eqn:Hp.
  destruct (prepare_spec _ _ _ _ _ _ _ _ _ _ _ Ho Hok (ow_lease_revision _ _ _ _ Ho) Hp)
    as (F1 & F2 & F3 & Hl & _ & _ & _ & _).
  assert (lease_file d1 = lease_file d' -> owned C' p1 d1 r) as Ho1.
  { intros E. rewrite <- E in HC. pose proof (prepare_owned _ _ _ _ _ _ _ _ _ _ _ _ Ho Hok (ow_lease_revision _ _ _ _ Ho) HC HR Hp) as Hi.
    apply (owned_lease C' _ _ _ _ _ _ Hi); cbn; auto; congruence. }
  destruct y as [s|e'].
  2: { destruct (published_Err (A := StatusRecord DeploymentState) e') as [y Hy]. rewrite Hy in Ha.
       injection Ha as <- <- <-. left. by apply Ho1. }
  destruct (transition _ _ _ _ _ _ _ _ _ _) as [f z] eqn:Ht. unfold transition in Ht.
  apply commit_cases in Ht as [(r' & Hch & Hb & Hw & -> & Hz)|(-> & e' & ->)].
  2: { destruct (published_Err (A := StatusRecord DeploymentState) e') as [y Hy]. rewrite Hy in Ha.
       injection Ha as <- <- <-. left. apply (owned_lease C' _ p1 d1 r _ _ (Ho1 eq_refl)); auto. }
  assert (lease_file d' = lease_file d1) as Hle
    by (destruct Hz as [[-> _]|[[e' ->] _]]; injection Ha as _ <- _; done).
  rewrite Hle in HC.
  destruct (advance_writes _ _ _ _ _ _ _ _ _ _ _ _ _ _ Ho Hok Hp HC HR Hch Hb Hw) as (Hst & Hrev & Hin & Hown).
  destruct Hz as [[-> Hio]|[[e' ->] Hamb]].
  - injection Ha as <- <- <-. split; [|done]. unfold in_step in Hown. by rewrite Hst in Hown.
  - destruct (published_Err (A := StatusRecord DeploymentState) e') as [y Hy]. rewrite Hy in Ha.
    injection Ha as <- <- <-. right. exists r'. split; [|done]. split; [done|].
    split; [congruence|]. right. exists r. rewrite F1, F2, Hst. done.
Qed.

(** Once behind, the publisher stays behind: its compare-and-set names a stale revision. *)
Lemma advance_behind (C C' : clock -> Prop) e new reason detail data p d r p' d' x :
  behind C p d r -> advance_ok e new data ->
  advance canonical_hash cf e new reason detail data p d = (p', d', x) ->
  (lease_file d' = lease_file d -> forall c, C c -> C' c) -> (new = READY -> C' (ae_clock e)) ->
  behind C' p' d' r /\ status_file d' = status_file d /\ exists y, x = Err y.
Proof.
  intros [Ho Hlag] Hok Ha HC HR. unfold advance in Ha. pose proof (ow_lease_revision _ _ _ _ Ho) as Hl0. cbn in Hl0.
  destruct (pub_revision p <? 0).
  { injection Ha as <- <- <-. split; [|eauto]. split; [|done]. apply (owned_lease C _ _ d r _ d Ho); auto. }
  destruct (prepare _ _ _ _ _ _ _) as [[p1 d1] y] eqn:Hp.
  destruct (prepare_spec _ _ _ _ _ _ _ _ _ _ _ Ho Hok Hl0 Hp) as (F1 & F2 & F3 & Hl & E1 & _ & _ & _).
  assert (forall d2, status_file d2 = status_file d1 -> lease_file d2 = lease_file d1 -> manifests d2 = manifests d1 ->
    lease_file d1 = lease_file d' -> behind C' p1 d2 r) as Hb.
  { intros d2 G1 G2 G3 E. rewrite <- E in HC. split; [|by apply (lagging_same p)].
    pose proof (prepare_owned _ _ _ _ _ _ _ _ _ _ _ _ Ho Hok Hl0 HC HR Hp) as Hi.
    apply (owned_lease C' _ _ _ _ _ _ Hi); cbn; auto. }
  destruct y as [s|e'].
  2: { destruct (published_Err (A := StatusRecord DeploymentState) e') as [y Hy]. rewrite Hy in Ha.
       injection Ha as <- <- <-. split; [by apply Hb|eauto]. }
  destruct (transition _ _ _ _ _ _ _ _ _ _) as [f z] eqn:Ht. rewrite E1, (ow_file _ _ _ _ Ho) in Ht.
  match type of Ht with transition ?io ?now ?a ?b ?rs ?dt ?du ?er ?fac _ = _ =>
    destruct (stale_exec (OpTransition io now a b rs dt du er fac) r (pub_revision p1)) as [e' He'] end.
  { apply Ho. } { apply Hok. } { done. } { destruct Hlag. lia. }
  cbn [exec] in He'. rewrite He' in Ht. injection Ht as <- <-.
  destruct (published_Err (A := StatusRecord DeploymentState) e') as [y Hy]. rewrite Hy in Ha.
  injection Ha as <- <- <-. cbn [status_file]. rewrite (ow_file _ _ _ _ Ho). split; [|eauto].
  apply Hb; cbn; try done. by rewrite E1, (ow_file _ _ _ _ Ho).
Qed.

(** ** Renewals *)

Lemma renewed_snapshot_Ok c rs mm cm hashes p d r s :
  pub_record p = Some r -> renewed_snapshot cf c rs mm cm hashes p d = Ok (r, s) ->
  pub_state p = READY /\ exists w m b previous,
    clock_sample c = Ok (w, m, b) /\ lease_fields s w m b /\
    dget_default "readiness_snapshot" (VDict []) (Status.data r) = VDict previous /\
    changed_fields r previous s mm cm hashes = [].
Proof.
  intros Hr. unfold renewed_snapshot. rewrite Hr. intros Hs.
  apply bind_Ok in Hs as ([] & Hst & Hs). apply raise_if_Ok, negb_false_iff, bool_decide_eq_true in Hst.
  cbn [mbind result_bind] in Hs. apply bind_Ok in Hs as (previous & Hp & Hs).
  destruct (dget_default "readiness_snapshot" (VDict []) (Status.data r)) as [| | | | | |x] eqn:Hx; try done.
  injection Hp as ->. apply bind_Ok in Hs as (_ & _ & Hs). apply bind_Ok in Hs as (l & Hl & Hs).
  destruct (ready_lease_evidence cf c) as [l'|] eqn:He; [|done]. injection Hl as ->.
  apply evidence_Ok in He as (w & m & b & Hc & ->).
  apply bind_Ok in Hs as ([] & _ & Hs). apply bind_Ok in Hs as ([] & Hch & Hs).
  apply raise_if_Ok, negb_false_iff, bool_decide_eq_true in Hch.
  split; [done|]. exists w, m, b, previous.
  match type of Hch with changed_fields _ _ ?x _ _ _ = _ => assert (s = x) as -> by congruence end.
  split; [done|]. split; [|done]. rewrite !attr_dupdate by by_key. done.
Qed.

(** A publisher that is not at READY, or has no record, renews nothing. *)
Lemma renewed_ready c rs mm cm hashes p d y s :
  renewed_snapshot cf c rs mm cm hashes p d = Ok (y, s) -> (pub_state p = READY -> is_Some (pub_record p)) ->
  is_Some (pub_record p).
Proof.
  unfold renewed_snapshot. intros Hs Hr. apply bind_Ok in Hs as ([] & Hst & _).
  apply raise_if_Ok, negb_false_iff, bool_decide_eq_true in Hst. auto.
Qed.

Lemma renewed_current c rs mm cm hashes p d r y s :
  pub_record p = Some r -> renewed_snapshot cf c rs mm cm hashes p d = Ok (y, s) -> y = r.
Proof.
  intros Hr. unfold renewed_snapshot. rewrite Hr. intros Hs.
  apply bind_Ok in Hs as (_ & _ & Hs). cbn [mbind result_bind] in Hs.
  do 5 (apply bind_Ok in Hs as (? & _ & Hs)). congruence.
Qed.

Lemma refresh_spec (C C' : clock -> Prop) q c written rs mm cm hashes p d r p' d' x :
  owned C q d r -> live_clock c -> 0 <= pub_lease_revision p ->
  (pub_state p = READY -> is_Some (pub_record p)) ->
  refresh_ready canonical_hash cf c written rs mm cm hashes p d = (p', d', x) ->
  (lease_file d' = lease_file d -> forall c, C c -> C' c) -> C' c ->
  owned C' (in_step r (pub_lease_revision p')) d' r /\
  pub_record p' = pub_record p /\ pub_state p' = pub_state p /\ pub_revision p' = pub_revision p /\
  status_file d' = status_file d /\
  forall y, x = Ok y ->
    pub_record p = Some y /\ pub_state p = READY /\ leased c (lease_file d') /\
    exists s previous, dget_default "readiness_snapshot" (VDict []) (Status.data y) = VDict previous /\
      changed_fields y previous s mm cm hashes = [].
Proof.
  intros Ho Hlive Hl0 Hr0 Href HC Hc. unfold refresh_ready in Href. destruct (ow_pub _ _ _ _ Ho) as (H1 & H2 & H3).
  destruct (renewed_snapshot _ _ _ _ _ _ _ _) as [[y s]|e'] eqn:Hs.
  2: { injection Href as <- <- <-. split_and!; try done. apply (owned_lease C _ q d r _ _ Ho); auto. }
  destruct (renewed_ready _ _ _ _ _ _ _ _ _ Hs) as [r0 Hr]; [done|].
  pose proof (renewed_current _ _ _ _ _ _ _ _ _ _ Hr Hs) as ->.
  destruct (renewed_snapshot_Ok _ _ _ _ _ _ _ _ _ Hr Hs) as (Hst & w & m & b & previous & Hsample & Hl & Hprev & Hch).
  destruct (publish_ready_lease _ _ _ _ _ _) as [[p2 d2] z] eqn:Hpub.
  apply (publish_lease _ _ _ _ _ _ _ _ _ _ _ Hsample Hl Hl0) in Hpub as (-> & E1 & E2 & Hz).
  assert (p' = Publisher (pub_state p) (pub_revision p) (pub_record p) (pub_lease_revision p + 1) /\ d' = d2 /\
          x = match z with Ok _ => Ok r0 | Err x => published (Err x) end) as (-> & -> & ->)
    by (destruct z; by injection Href as <- <- <-).
  split_and!; try done.
  - destruct Hz as [Hle|[Hsame _]].
    + apply (owned_relet C _ q d r _ _ Ho); cbn; auto; [lia|]. exists c. auto.
    + apply (owned_lease C _ q d r _ _ Ho); cbn; auto. lia.
  - intros y. destruct z as [u|e']; [|by destruct e']. intros [= <-]. destruct Hz as [Hle|[_ [? ?]]]; [|done].
    split_and!; try done. by exists s, previous.
Qed.

Lemma refresh_owned (C C' : clock -> Prop) c written rs mm cm hashes p d r p' d' x :
  owned C p d r -> live_clock c ->
  refresh_ready canonical_hash cf c written rs mm cm hashes p d = (p', d', x) ->
  (lease_file d' = lease_file d -> forall c, C c -> C' c) -> C' c ->
  owned C' p' d' r /\ status_file d' = status_file d /\ pub_state p' = pub_state p /\
  forall y, x = Ok y ->
    y = r /\ state r = READY /\ leased c (lease_file d') /\
    exists s previous, dget_default "readiness_snapshot" (VDict []) (Status.data r) = VDict previous /\
      changed_fields r previous s mm cm hashes = [].
Proof.
  intros Ho Hlive Href HC Hc. destruct (ow_pub _ _ _ _ Ho) as (H1 & H2 & H3).
  destruct (refresh_spec C C' p c written rs mm cm hashes p d r p' d' x Ho Hlive (ow_lease_revision _ _ _ _ Ho)
              ltac:(eauto) Href HC Hc) as (Ho' & E1 & E2 & E3 & Hf & Hy).
  split_and!; try done.
  - pose proof (ow_lease_revision _ _ _ _ Ho') as Hl. apply (owned_lease C' _ _ _ _ _ _ Ho'); cbn; auto; congruence.
  - intros y Hx. destruct (Hy y Hx) as (E & Hst & Hle & Hrest). assert (y = r) as -> by congruence.
    split_and!; try done. congruence.
Qed.

(** ** Initialization *)

(** The first record is written and returned, or written although the call raises, or there is none. *)
Lemma initialize_owned C io now c p d p' d' x :
  status_file d = Missing -> good_time now -> p = new_publisher ->
  (forall path f, manifests d !! path = Some f -> mf_inside f = true /\ mf_regular f = true) ->
  initialize cf io now c p d = (p', d', x) ->
  manifests d' = manifests d /\ lease_file d' = lease_file d /\
  match x with
  | Ok r => owned C p' d' r
  | Err _ => p' = p /\
      (status_file d' = Missing \/ exists r, behind C p' d' r /\ state r = PLANNED /\ ambiguous io)
  end.
Proof.
  intros Hf Hnow Hp0 Hman. unfold initialize.
  destruct (state_transition_evidence c 0) as [ev|e'] eqn:He; [|intros [= <- <- <-]; destruct e'; auto].
  destruct (Status.initialize _ _ _ _ _ _ _) as [f y] eqn:Hi. rewrite Hf in Hi. unfold Status.initialize in Hi.
  apply commit_cases in Hi as [(r & Hch & Hb & Hw & -> & Hx)|(-> & e' & ->)].
  2: { intros [= <- <- <-]. by destruct e'; auto. }
  destruct (initialize_sim _ _ _ _ _ _ _ None eq_refl Hnow Hch Hb) as (Hrec & _ & _ & [= Hst Hrev]).
  unfold initialize_record, conflict_if in Hb. res_inv. simplify_eq.
  apply state_evidence_Ok in He as (w & m & b & Hw' & Hm & Hbt & ->).
  match type of Hrec with rec_ok ?r0 => set (r := r0) in * end.
  assert (owned C (in_step r 0) (Dir (Doc (asdict r)) (lease_file d) (manifests d)) r) as Hown.
  { split; cbn [in_step pub_record pub_state pub_revision status_file manifests lease_file pub_lease_revision]; try done.
    split; try reflexivity.
    + exists w, m, b. done.
    + intros k v Hk. apply field_ok_other. intros Hin. unfold PUBLIC_KEYS in Hin.
      rewrite !elem_of_cons, elem_of_nil in Hin. by destruct Hin as [->|[->|[->|[->|[->|[]]]]]]. }
  destruct Hx as [[-> Hio]|[[e' ->] Hamb]].
  - intros [= <- <- <-]. cbn [manifests lease_file pub_lease_revision new_publisher]. split_and!; [done..|exact Hown].
  - destruct (published_Err (A := StatusRecord DeploymentState) e') as [z ->]. intros [= <- <- <-].
    split_and!; try done. right. exists r. split; [|done]. split; [exact Hown|]. split; [done|]. by left.
Qed.

Lemma initialize_again io now c q p d r p' d' x C :
  owned C q d r -> initialize cf io now c p d = (p', d', x) ->
  p' = p /\ status_file d' = status_file d /\ lease_file d' = lease_file d /\ manifests d' = manifests d.
Proof.
  intros Ho. unfold initialize. destruct (state_transition_evidence c 0) as [ev|e']; [|by intros [= <- <- <-]].
  destruct (Status.initialize _ _ _ _ _ _ _) as [f y] eqn:Hi. unfold Status.initialize in Hi.
  apply commit_cases in Hi as [(r' & _ & Hb & _)|(-> & e' & ->)]; [|by intros [= <- <- <-]].
  exfalso. unfold initialize_record, conflict_if in Hb. rewrite (ow_file _ _ _ _ Ho), load_doc_back in Hb by apply Ho.
  cbn [mbind result_bind] in Hb. apply bind_Ok in Hb as (? & Hc & _). by apply raise_if_Ok in Hc.
Qed.

(** ** Runs *)

(** A call of the publisher's owner; [PManifest] writes a receipt manifest. *)
Inductive api_op :=
| PInitialize (io : store_io) (now : float) (c : clock)
| PAdvance (e : advance_env) (new : DeploymentState) (reason detail : string) (data : dict)
| PRefresh (c : clock) (written : write_outcome) (snapshot : dict) (model_map capability_map : value)
    (hashes : list string)
| PManifest (path : string) (written : write_outcome) (m : ReceiptManifest.t).

Definition exec_op (o : api_op) (x : publisher * dir) : publisher * dir :=
  let '(p, d) := x in
  match o with
  | PInitialize lf now c => (initialize cf lf now c p d).1
  | PAdvance e new reason detail data => (advance canonical_hash cf e new reason detail data p d).1
  | PRefresh c written s mm cm hashes => (refresh_ready canonical_hash cf c written s mm cm hashes p d).1
  | PManifest path written m => (p, (publish_manifest canonical_hash written m path d).1)
  end.

Definition op_ok (o : api_op) : Prop :=
  match o with
  | PInitialize _ now _ => good_time now
  | PAdvance e new _ _ data => advance_ok e new data
  | PRefresh c _ _ _ _ _ => live_clock c
  | PManifest _ _ _ => True
  end.

(** The clock of a lease that the call may take. *)
Definition op_clock (o : api_op) : option clock :=
  match o with
  | PAdvance e new _ _ _ => if decide (new = READY) then Some (ae_clock e) else None
  | PRefresh c _ _ _ _ _ => Some c
  | _ => None
  end.

Definition run_ops (ops : list api_op) (x : publisher * dir) : publisher * dir :=
  fold_left (fun x o => exec_op o x) ops x.

(** [c] is the clock of the last call of [ops] that wrote the lease: a publication or renewal of
    READY after which no call has changed the lease file. *)
Definition last_lease (x : publisher * dir) (ops : list api_op) (c : clock) : Prop :=
  exists before o after, ops = before ++ o :: after /\ op_clock o = Some c /\
    forall k, lease_file (run_ops (before ++ o :: take k after) x).2 = lease_file (run_ops ops x).2.

(** The call wrote [st] and raised afterwards: the directory or the lease of the store failed. *)
Definition op_ambiguous (st : DeploymentState) (o : api_op) : Prop :=
  match o with
  | PInitialize io _ _ => ambiguous io /\ st = PLANNED
  | PAdvance e new _ _ _ => ambiguous (ae_io e) /\ st = new
  | _ => False
  end.

(** No status was published yet. *)
Definition fresh p d : Prop :=
  p = new_publisher /\ status_file d = Missing /\
  forall path f, manifests d !! path = Some f -> mf_inside f = true /\ mf_regular f = true.

(** A manifest is added or nothing changes. *)
Lemma publish_manifest_spec written m path d :
  let d' := (publish_manifest canonical_hash written m path d).1 in
  d' = d \/ manifests d !! path = None /\
    exists f, d' = Dir (status_file d) (lease_file d) (<[path := ManifestFile true true f]> (manifests d)).
Proof.
  cbv zeta. unfold publish_manifest. destruct (manifests d !! path) eqn:Hp; [by left|].
  destruct (write_receipt_manifest _ _ _ _) as [[| |v] x]; [by left|right; eauto..].
Qed.

Lemma manifest_grows d path f path' f' :
  manifests d !! path = None -> manifests d !! path' = Some f' ->
  <[path := f]> (manifests d) !! path' = Some f'.
Proof. intros Hp Hf. rewrite lookup_insert_ne; [done|]. intros ->. congruence. Qed.

Lemma manifest_checked d path f :
  (forall path f, manifests d !! path = Some f -> mf_inside f = true /\ mf_regular f = true) ->
  forall path' f', <[path := ManifestFile true true f]> (manifests d) !! path' = Some f' ->
    mf_inside f' = true /\ mf_regular f' = true.
Proof.
  intros Hm path' f'. rewrite lookup_insert. destruct (decide (path = path')); [by intros [= <-]|apply Hm].
Qed.

Lemma manifest_owned C p d r path written m :
  owned C p d r -> owned C p (publish_manifest canonical_hash written m path d).1 r.
Proof.
  intros Ho. destruct (publish_manifest_spec written m path d) as [->|(Hpath & f & ->)]; [done|].
  destruct Ho as [Hf Hr Hp Hl Hprov Hd Hm Hready Hrev Hwr].
  split; cbn [status_file lease_file manifests]; try done; [by apply manifest_checked|].
  intros Hst. destruct (Hready Hst) as [[(s & ep & hs & pa & ha & fl & mf & Hrest)] Hc]. split; [|done]. split.
  exists s, ep, hs, pa, ha, fl, mf. destruct_and! Hrest. split_and!; try done. by apply manifest_grows.
Qed.

Lemma owned_more (C C' : clock -> Prop) p d r : owned C p d r -> (forall c, C c -> C' c) -> owned C' p d r.
Proof. intros Ho HC. apply (owned_lease C _ p d r _ _ Ho); auto. apply Ho. Qed.

Lemma run_snoc ops o x : run_ops (ops ++ [o]) x = exec_op o (run_ops ops x).
Proof. unfold run_ops. by rewrite fold_left_app. Qed.

Lemma last_lease_keep x ops o c :
  lease_file (run_ops (ops ++ [o]) x).2 = lease_file (run_ops ops x).2 ->
  last_lease x ops c -> last_lease x (ops ++ [o]) c.
Proof.
  intros Hsame (before & o' & after & -> & Hc & Hk). exists before, o', (after ++ [o]).
  rewrite <- app_assoc in *. split_and!; try done. intros k. rewrite Hsame.
  destruct (decide (k <= length after)%nat) as [Hle|Hgt].
  - rewrite take_app_le by done. apply Hk.
  - rewrite take_ge by (rewrite length_app; cbn; lia). exact Hsame.
Qed.

Lemma last_lease_new x ops o c : op_clock o = Some c -> last_lease x (ops ++ [o]) c.
Proof. intros Hc. exists ops, o, []. split_and!; try done. intros [|k]; done. Qed.

Lemma manifest_in_step C q d r path written m :
  owned C q d r -> lease_file (publish_manifest canonical_hash written m path d).1 = lease_file d.
Proof. intros _. by destruct (publish_manifest_spec written m path d) as [->|(_ & f & ->)]. Qed.

Definition wedged (x : publisher * dir) (ops : list api_op) p d : Prop :=
  exists r, behind (last_lease x ops) p d r /\ exists o, o ∈ ops /\ op_ambiguous (state r) o.

(** The lease clauses for one more call. *)
Lemma last_lease_step x ops o d p' d' :
  (run_ops ops x).2 = d -> exec_op o (run_ops ops x) = (p', d') ->
  (lease_file d' = lease_file d -> forall c, last_lease x ops c -> last_lease x (ops ++ [o]) c) /\
  (forall c, op_clock o = Some c -> last_lease x (ops ++ [o]) c).
Proof.
  intros <- He. split.
  - intros Hsame c. apply last_lease_keep. by rewrite run_snoc, He.
  - intros c. apply last_lease_new.
Qed.

(** A further call of a publisher that is behind. *)
Lemma behind_step (C C' : clock -> Prop) o p d r p' d' :
  behind C p d r -> op_ok o -> exec_op o (p, d) = (p', d') ->
  (lease_file d' = lease_file d -> forall c, C c -> C' c) -> (forall c, op_clock o = Some c -> C' c) ->
  behind C' p' d' r /\ status_file d' = status_file d.
Proof.
  intros Hb Hok He HC HR. pose proof Hb as [Ho Hlag]. pose proof (ow_lease_revision _ _ _ _ Ho) as Hl. cbn in Hl.
  destruct o as [io now c|e new reason detail data|c written s mm cm hs|path wr m]; cbn [exec_op op_ok op_clock] in *.
  - destruct (initialize cf io now c p d) as [[p2 d2] x] eqn:Hi. injection He as -> ->.
    apply (initialize_again _ _ _ _ _ _ _ _ _ _ _ Ho) in Hi as (-> & E1 & E2 & E3). split; [|done]. split; [|done].
    apply (owned_lease C _ _ d r _ _ Ho); auto.
  - destruct (advance _ _ _ _ _ _ _ _ _) as [[p2 d2] x] eqn:Ha. injection He as -> ->.
    destruct (advance_behind _ C' _ _ _ _ _ _ _ _ _ _ _ Hb Hok Ha HC) as (Hb' & Hf & _); [|done].
    intros ->. apply HR. by rewrite decide_True.
  - destruct (refresh_ready _ _ _ _ _ _ _ _ _ _) as [[p2 d2] x] eqn:Ha. injection He as -> ->.
    destruct (refresh_spec C C' _ c written s mm cm hs p d r p' d' x Ho Hok Hl) as (Ho' & E1 & E2 & E3 & Hf & _);
      [|done|done|by apply HR|].
    { destruct Hlag as (_ & [(_ & _ & -> & _)|(r0 & -> & _)]); [done|]. eauto. }
    split; [|done]. split; [done|]. by apply (lagging_same p).
  - injection He as <- <-. pose proof (manifest_in_step _ _ _ _ path wr m Ho) as E. specialize (HC E).
    split; [|by destruct (publish_manifest_spec wr m path d) as [->|(_ & f & ->)]].
    split; [|done]. apply (owned_more C); [by apply manifest_owned|done].
Qed.

Lemma run_owned ops p0 d0 :
  fresh p0 d0 -> Forall op_ok ops ->
  let '(p, d) := run_ops ops (p0, d0) in
  fresh p d \/ (exists r, owned (last_lease (p0, d0) ops) p d r) \/ wedged (p0, d0) ops p d.
Proof.
  intros Hfresh. induction ops as [|o ops IH] using rev_ind; intros Hok.
  { cbn. by left. }
  apply Forall_app in Hok as [Hok Ho]. apply Forall_cons in Ho as [Ho _]. specialize (IH Hok).
  rewrite run_snoc. pose proof (last_lease_step (p0, d0) ops o) as Hll.
  destruct (run_ops ops (p0, d0)) as [p d]. cbn [snd] in Hll.
  destruct (exec_op o (p, d)) as [p' d'] eqn:He.
  destruct (Hll _ _ _ eq_refl eq_refl) as [HC HR]. clear Hll.
  destruct IH as [(-> & Hf & Hm)|[[r Hr]|(r & Hb & o' & Hin & Hamb)]].
  3: { right. right. exists r. destruct (behind_step _ _ _ _ _ _ _ _ Hb Ho He HC HR) as [Hb' _]. split; [done|].
       exists o'. split; [|done]. apply elem_of_app. by left. }
  - destruct o as [io now c|e new reason detail data|c written s mm cm hs|path wr m]; cbn [exec_op] in He.
    + destruct (initialize cf io now c new_publisher d) as [[p2 d2] x] eqn:Hi. injection He as -> ->.
      destruct (initialize_owned (last_lease (p0, d0) (ops ++ [PInitialize io now c])) io now c new_publisher d p' d' x Hf Ho eq_refl Hm Hi)
        as (Hmm & _ & Hx). destruct x as [r|e'].
      * right. left. by exists r.
      * destruct Hx as [-> [Hx|(r & Hb & Hst & Hamb)]]; [left; split_and!; try done; by rewrite Hmm|].
        right. right. exists r. split; [done|]. eexists. split; [apply elem_of_app; right; by left|]. by split.
    + injection He as <- <-. left. by split_and!.
    + injection He as <- <-. left. by split_and!.
    + injection He as <- <-.
      left. destruct (publish_manifest_spec wr m path d) as [->|(_ & f & ->)]; split_and!; try done.
      cbn. by apply manifest_checked.
  - right. destruct o as [io now c|e new reason detail data|c written s mm cm hs|path wr m]; cbn [exec_op] in He.
    + destruct (initialize cf io now c p d) as [[p2 d2] x] eqn:Hi. injection He as -> ->. left.
      apply (initialize_again _ _ _ _ _ _ _ _ _ _ _ Hr) in Hi as (-> & E1 & E2 & E3). exists r.
      apply (owned_lease (last_lease (p0, d0) ops) _ p d r _ _ Hr); auto. apply Hr.
    + destruct (advance _ _ _ _ _ _ _ _ _) as [[p2 d2] x] eqn:Ha. injection He as -> ->.
      assert (new = READY -> last_lease (p0, d0) (ops ++ [PAdvance e new reason detail data]) (ae_clock e)) as HR'
        by (intros ->; apply HR; cbn; by rewrite decide_True).
      pose proof (advance_owned _ _ _ _ _ _ _ _ _ _ _ _ _ Hr Ho Ha HC HR') as Hx. destruct x as [y|e'].
      * left. exists y. apply Hx.
      * destruct Hx as [Hx|(r' & Hb & Hst & Hamb)]; [left; by exists r|]. right. exists r'. split; [done|].
        eexists. split; [apply elem_of_app; right; by left|]. by split.
    + destruct (refresh_ready _ _ _ _ _ _ _ _ _ _) as [[p2 d2] x] eqn:Ha. injection He as -> ->. left. exists r.
      by apply (refresh_owned _ _ _ _ _ _ _ _ _ _ _ _ _ _ Hr Ho Ha HC (HR c eq_refl)).
    + injection He as <- <-. left. exists r. pose proof (manifest_in_step _ _ _ _ path wr m Hr) as E.
      apply (owned_more (last_lease (p0, d0) ops)); [by apply manifest_owned|exact (HC E)].
Qed.

(** A publisher that is behind never recovers: whatever it is asked for, the record stays as the
    raising call left it. *)
Theorem wedged_publisher_stays (C : clock -> Prop) p d r ops :
  behind C p d r -> Forall op_ok ops ->
  let '(p', d') := run_ops ops (p, d) in status_file d' = status_file d /\ lagging p' r.
Proof.
  intros Hb Hok. assert (behind (fun _ => True) p d r) as Hb0.
  { destruct Hb as [Ho Hlag]. split; [|done]. by apply (owned_more C). }
  clear Hb. revert p d Hb0. induction Hok as [|o ops Ho _ IH]; intros p d Hb.
  { cbn. split; [done|apply Hb]. }
  change (run_ops (o :: ops) (p, d)) with (run_ops ops (exec_op o (p, d))).
  destruct (exec_op o (p, d)) as [p' d'] eqn:He.
  destruct (behind_step _ (fun _ => True) _ _ _ _ _ _ Hb Ho He) as [Hb' <-]; [done..|]. by apply IH.
Qed.

(** ** The promises *)

(** [ready] under a lease taken at [c0]. *)
Definition lease_current (c0 c : clock) : bool :=
  bool_decide (boot c = boot c0) && Float.is_finite (monotonic c) &&
  Float.ltb (monotonic c) (Float.add (monotonic c0) (lease_duration cf)).

Lemma sees_lease_ready C r s :
  sees_lease C r s -> DeploymentStatus.state s = READY ->
  exists c0, C c0 /\ is_Some (boot c0) /\ forall c, DeploymentStatus.ready c s = Ok (lease_current c0 c).
Proof.
  intros (c0 & w & m & b & s0 & HC & Hc & _ & Hs & Hfin) Hst.
  apply clock_sample_Ok in Hc as (<- & <- & Hb & _ & _ & Hboot). exists c0. split; [done|]. split; [by rewrite Hb|].
  intros c. unfold DeploymentStatus.ready, ready_lease_is_current, lease_current. rewrite bool_decide_true, Hs by done.
  rewrite !attr_dupdate by apply lease_at_nodup.
  change (dget "lease_expires_monotonic" (lease_at (wall c0) (monotonic c0) b))
    with (Some (VFloat (Float.add (monotonic c0) (lease_duration cf)))).
  change (dget "lease_clock_boot_id" (lease_at (wall c0) (monotonic c0) b)) with (Some (VStr b)).
  cbv beta iota. cbn [to_float mbind result_bind]. rewrite Hb. destruct (boot c) as [b'|].
  - cbn [to_float mbind result_bind]. rewrite Hfin. unfold bad_boot in Hboot. apply orb_false_elim in Hboot as [Hne%negb_false_iff _]. rewrite Hne.
    f_equal. cbn [andb]. f_equal. f_equal. apply bool_decide_ext. naive_solver.
  - done.
Qed.

(** What a consumer reads after a run: nothing, because nothing was written; the record of a
    publisher that is in step; or the record of the call that raised after its write. *)
Lemma run_readable d0 ops :
  identity_ok -> fresh new_publisher d0 -> Forall op_ok ops ->
  let '(p, d) := run_ops ops (new_publisher, d0) in
  (read_deployment_status canonical_hash d = Ok None /\ p = new_publisher) \/
  exists r s, read_deployment_status canonical_hash d = Ok (Some s) /\
    DeploymentStatus.state s = state r /\ DeploymentStatus.revision s = revision r /\
    DeploymentStatus.generation s = cf_generation cf /\
    DeploymentStatus.deployment_plan_hash s = DeploymentPlan.deployment_plan_hash (cf_plan cf) /\
    (state r = READY -> sees_lease (last_lease (new_publisher, d0) ops) r s) /\
    (owned (last_lease (new_publisher, d0) ops) p d r \/
     lagging p r /\ exists o, o ∈ ops /\ op_ambiguous (state r) o).
Proof.
  intros Hid Hfresh Hok. pose proof (run_owned ops _ _ Hfresh Hok) as Hrun.
  destruct (run_ops ops _) as [p d]. destruct Hrun as [(-> & Hf & _)|[[r Hr]|(r & [Ho Hlag] & Hamb)]].
  - left. split; [|done]. unfold read_deployment_status. by rewrite Hf.
  - right. destruct (owned_readable _ _ _ _ Hid Hr) as (s & Hs & Hst & Hrev & Hg & Hp & Hl).
    destruct (ow_pub _ _ _ _ Hr) as (_ & E1 & E2). exists r, s. split_and!; try done; try congruence.
    + intros. apply Hl. congruence.
    + by left.
  - right. destruct (owned_readable _ _ _ _ Hid Ho) as (s & Hs & Hst & Hrev & Hg & Hp & Hl).
    exists r, s. split_and!; try done. by right.
Qed.


Lemma require_ready_Ok g h c d s :
  require_ready_status canonical_hash g h c d = Ok s ->
  read_deployment_status canonical_hash d = Ok (Some s) /\ DeploymentStatus.ready c s = Ok true /\
  nonempty (DeploymentStatus.advertised_endpoint s) = true /\
  (forall n, g = Some n -> DeploymentStatus.generation s = n).
Proof.
  unfold require_ready_status. intros H. apply bind_Ok in H as ([s'|] & Hr & H); [|done].
  apply bind_Ok in H as ([] & Hg & H). apply bind_Ok in H as ([] & _ & H). apply bind_Ok in H as (b & Hb & H).
  apply bind_Ok in H as ([] & Hready & H). apply bind_Ok in H as ([] & He & H).
  apply raise_if_Ok in Hg, Hready, He. apply negb_false_iff in Hready, He. subst b.
  assert (s' = s) as -> by congruence. destruct (DeploymentStatus.ready c s) as [b|]; [|done].
  split_and!; try done; [congruence|]. intros n ->. apply negb_false_iff in Hg. by apply Z.eqb_eq.
Qed.


Lemma owned_exact C c p d r : owned C p d r -> live_clock c -> leased c (lease_file d) -> owned (eq c) p d r.
Proof.
  intros [Hf Hr Hp Hl Hprov Hd Hm Hready Hrev] Hlive Hle. split; try done.
  intros Hst. destruct (Hready Hst) as [Hrr _]. split; [done|]. by exists c.
Qed.

Lemma read_record_fields dr r s :
  read_record canonical_hash dr r = Ok s ->
  data_text (Status.data r) "advertised_endpoint" = Ok (DeploymentStatus.advertised_endpoint s) /\
  data_object (Status.data r) "model_map" = Ok (DeploymentStatus.model_map s) /\
  data_object (Status.data r) "capability_map" = Ok (DeploymentStatus.capability_map s) /\
  read_hashes (dget_default "receipt_hashes" (VList []) (Status.data r))
  = Ok (DeploymentStatus.receipt_hashes s).
Proof.
  unfold read_record. intros H. do 2 (apply bind_Ok in H as (? & _ & H)).
  apply bind_Ok in H as ([[[srev cat] cmono] sb] & _ & H). do 2 (apply bind_Ok in H as (? & _ & H)).
  apply bind_Ok in H as (ep & He & H). apply bind_Ok in H as (? & _ & H).
  apply bind_Ok in H as (mm & Hmm & H). apply bind_Ok in H as (cm & Hcm & H).
  apply bind_Ok in H as (? & _ & H). apply bind_Ok in H as (hs & Hhs & H).
  do 3 (apply bind_Ok in H as (? & _ & H)). injection H as <-. done.
Qed.

Lemma read_owned C p d r s :
  owned C p d r -> read_deployment_status canonical_hash d = Ok (Some s) -> read_record canonical_hash d r = Ok s.
Proof.
  intros Ho. unfold read_deployment_status. rewrite (ow_file _ _ _ _ Ho), load_doc_back by apply Ho.
  intros H. apply bind_Ok in H as (s' & Hs & [= ->]). done.
Qed.

Lemma unchanged r previous s mm cm hashes :
  changed_fields r previous s mm cm hashes = [] ->
  py_eqb (VDict (semantic s)) (VDict (semantic previous)) = true /\
  py_eqb mm (attr "model_map" (Status.data r)) = true /\
  py_eqb cm (attr "capability_map" (Status.data r)) = true /\
  py_eqb (texts hashes) (attr "receipt_hashes" previous) = true.
Proof. unfold changed_fields. repeat case_match; try done. Qed.

Lemma data_object_attr x k v : attr k x = VDict v -> data_object x k = Ok v.
Proof. intros H%attr_is_Some; [|done]. unfold data_object. by rewrite H. Qed.

(** A renewal changes nothing but the lease: while no call has raised after its write, when [refresh_ready] succeeds the record on
    disk is untouched; a consumer reads the same endpoint, hashes, maps and, except for
    the lease, the same snapshot before and after; what the caller offered as the
    current models, capabilities and receipts is what is published; and the status is
    ready exactly for the duration of the new lease. *)
Theorem renewal_changes_only_lease d0 ops c written rs mm cm hashes p' d' y :
  identity_ok -> fresh new_publisher d0 -> Forall op_ok ops -> live_clock c ->
  Forall (fun o => forall st, ~ op_ambiguous st o) ops ->
  let '(p, d) := run_ops ops (new_publisher, d0) in
  refresh_ready canonical_hash cf c written rs mm cm hashes p d = (p', d', Ok y) ->
  status_file d' = status_file d /\
  exists s s', read_deployment_status canonical_hash d = Ok (Some s) /\
    read_deployment_status canonical_hash d' = Ok (Some s') /\
    DeploymentStatus.state s = READY /\ DeploymentStatus.state s' = READY /\
    DeploymentStatus.revision s' = DeploymentStatus.revision s /\
    DeploymentStatus.advertised_endpoint s' = DeploymentStatus.advertised_endpoint s /\
    DeploymentStatus.model_map s' = DeploymentStatus.model_map s /\
    DeploymentStatus.capability_map s' = DeploymentStatus.capability_map s /\
    DeploymentStatus.receipt_hashes s' = DeploymentStatus.receipt_hashes s /\
    (forall k, k ∉ LEASE_EVIDENCE -> attr k (DeploymentStatus.readiness_snapshot s')
                                     = attr k (DeploymentStatus.readiness_snapshot s)) /\
    py_eqb mm (VDict (DeploymentStatus.model_map s)) = true /\
    py_eqb cm (VDict (DeploymentStatus.capability_map s)) = true /\
    py_eqb (texts hashes) (attr "receipt_hashes" (DeploymentStatus.readiness_snapshot s)) = true /\
    forall c', DeploymentStatus.ready c' s' = Ok (lease_current c c').
Proof.
  intros Hid Hfresh Hok Hlive Hclear. pose proof (run_owned ops _ _ Hfresh Hok) as Hrun.
  destruct (run_ops ops _) as [p d]. intros Href.
  destruct Hrun as [(-> & _)|[[r Hr]|(r & _ & H)]]; [done| |].
  2: { destruct H as (o & Hin & Hamb). rewrite Forall_forall in Hclear. by destruct (Hclear o Hin (state r)). }
  destruct (refresh_owned _ (fun _ => True) _ _ _ _ _ _ _ _ _ _ _ _ Hr Hlive Href) as (Hr' & Hfile & Hps & Hy); [done..|].
  destruct (Hy y eq_refl) as (-> & Hst & Hleased & snap & previous & Hprev & Hch). split; [done|].
  apply unchanged in Hch as (_ & Hmm & Hcm & Hhs).
  pose proof (owned_exact _ c _ _ _ Hr' Hlive Hleased) as Hre.
  destruct (owned_readable _ _ _ _ Hid Hr) as (s & Hs & Hss & Hrev & _ & _ & Hl).
  destruct (owned_readable _ _ _ _ Hid Hre) as (s' & Hs' & Hss' & Hrev' & _ & _ & Hl').
  destruct (ow_pub _ _ _ _ Hr) as (_ & Hpst & Hprev0), (ow_pub _ _ _ _ Hre) as (_ & Hpst' & Hprev').
  destruct (Hl ltac:(congruence)) as (c1 & w & m & b & s0 & _ & _ & E0 & E1 & _).
  pose proof (Hl' ltac:(congruence)) as Hl2. destruct Hl2 as (c2 & w' & m' & b' & s0' & _ & _ & E0' & E1' & _).
  assert (s0' = s0) as -> by congruence.
  assert (previous = s0) as -> by (unfold dget_default in Hprev; rewrite E0 in Hprev; cbn in Hprev; congruence).
  destruct (read_record_fields _ _ _ (read_owned _ _ _ _ _ Hr Hs)) as (F1 & F2 & F3 & F4).
  destruct (read_record_fields _ _ _ (read_owned _ _ _ _ _ Hre Hs')) as (G1 & G2 & G3 & G4).
  destruct (ow_ready _ _ _ _ Hr Hst) as ([(? & ? & ? & ? & ? & ? & ? & _ & _ & _ & _ & Hv & _)] & _).
  pose proof (validated_maps _ _ _ _ _ _ Hv) as [[mm0 Hmm0] [cm0 Hcm0]].
  pose proof (data_object_attr _ _ _ Hmm0) as K1. pose proof (data_object_attr _ _ _ Hcm0) as K2.
  rewrite Hmm0 in Hmm. rewrite Hcm0 in Hcm.
  assert (DeploymentStatus.model_map s = mm0) as Em by congruence.
  assert (DeploymentStatus.capability_map s = cm0) as Ec by congruence.
  exists s, s'. split_and!; try congruence.
  - intros k Hk. rewrite E1, E1', !attr_lease_free by (done || apply lease_at_keys). done.
  - rewrite E1, attr_lease_free by (by_key || apply lease_at_keys). exact Hhs.
  - intros c'. destruct (sees_lease_ready _ _ _ (Hl' ltac:(congruence)) ltac:(congruence)) as (c3 & <- & _ & H). apply H.
Qed.
End Api.
