(* ===== verification/PublishProps.v ===== *)
(** The publisher moves: to READY, with a payload that passes the checks, and to any other legal
    state, when the locks are free, the files can be written and the clocks are good. *)

From S2P Require Import Prelude PyValue Atomic Envelopes Contracts Receipts ReceiptCodec Status StatusProps Manifest StatusApi StatusApiProps.

Section Publish.
Context (canonical_hash : dict -> string) (cf : config).
Implicit Types (p : publisher) (d : dir) (r : StatusRecord DeploymentState).

(** A good environment of [advance] to READY. *)
Record good_env (e : advance_env) : Prop := GoodEnv {
  ge_now : good_time (ae_now e);
  ge_written : ae_written e = Written;
  ge_io : ae_io e = io_done;
  ge_clock : exists w m b, clock_sample (ae_clock e) = Ok (w, m, b) /\
    Float.is_finite (Float.add w (lease_duration cf)) = true /\
    Float.is_finite (Float.add m (lease_duration cf)) = true;
  ge_live : live_clock cf (ae_clock e);
  ge_commit : exists x, clock_sample (ae_commit_clock e) = Ok x
}.

Lemma writable_lease n s w m b :
  attr "lease_expires_at" s = VFloat (Float.add w (lease_duration cf)) ->
  attr "lease_expires_monotonic" s = VFloat (Float.add m (lease_duration cf)) ->
  attr "lease_clock_boot_id" s = VStr b ->
  Float.is_finite (Float.add w (lease_duration cf)) = true ->
  Float.is_finite (Float.add m (lease_duration cf)) = true ->
  json_writable (VDict (lease_payload canonical_hash cf n s)) = true.
Proof.
  intros E1 E2 E3 F1 F2. unfold lease_payload, identity. rewrite E1, E2, E3. cbn. by rewrite F1, F2.
Qed.

Lemma lease_goes e s p d w m b :
  good_env e -> clock_sample (ae_clock e) = Ok (w, m, b) ->
  attr "lease_expires_at" s = VFloat (Float.add w (lease_duration cf)) ->
  attr "lease_expires_monotonic" s = VFloat (Float.add m (lease_duration cf)) ->
  attr "lease_clock_boot_id" s = VStr b ->
  exists p' d', publish_ready_lease canonical_hash cf (ae_written e) s p d = (p', d', Ok tt) /\
    pub_state p' = pub_state p /\ pub_revision p' = pub_revision p /\
    status_file d' = status_file d /\ manifests d' = manifests d.
Proof.
  intros [_ -> _ (w' & m' & b' & Hc & F1 & F2) _ _] Hc' E1 E2 E3. rewrite Hc in Hc'. injection Hc' as -> -> ->.
  unfold publish_ready_lease. rewrite (writable_lease _ _ _ _ _ E1 E2 E3 F1 F2). cbn [negb].
  eexists _, _. by split_and!.
Qed.

Lemma public_update data : public_data data -> validate_data_update (Some data) = Ok tt.
Proof.
  intros [_ Hd]. unfold validate_data_update, value_error_if.
  assert (existsb (fun k => bool_decide (k ∈ dkeys data)) INTERNAL_DATA_KEYS = false) as ->; [|done].
  apply not_true_is_false. intros (k & Hk & Hin)%existsb_exists. apply bool_decide_eq_true in Hin.
  apply dget_is_Some in Hin as [v Hv]. destruct (Hd _ _ Hv) as [Hp _].
  apply list_elem_of_In in Hk. unfold INTERNAL_DATA_KEYS in Hk. rewrite !elem_of_cons, elem_of_nil in Hk.
  unfold PUBLIC_KEYS in Hp. rewrite !elem_of_cons, elem_of_nil in Hp. naive_solver.
Qed.

Lemma evidence_goes c rev x :
  clock_sample c = Ok x ->
  exists cu, state_transition_evidence c rev = Ok cu /\ validate_data_update (Some cu) = Ok tt /\
    json_writable (VDict cu) = true /\ forall data, public_data data -> overlaps (Some cu) (Some data) = false.
Proof.
  intros Hc. destruct x as [[w m] b]. pose proof Hc as (_ & _ & _ & [Hw _] & [Hm _] & _)%clock_sample_Ok.
  exists [("state_revision", VInt rev); ("state_changed_at", VFloat w);
          ("state_changed_monotonic", VFloat m); ("state_clock_boot_id", VStr b)].
  split; [by unfold state_transition_evidence; rewrite Hc|]. split; [done|].
  split; [cbn; by rewrite Hw, Hm|]. intros data [_ Hd]. cbn [overlaps].
  apply not_true_is_false. intros (k & Hk & Hin)%existsb_exists. apply bool_decide_eq_true, dget_is_Some in Hin as [v Hv].
  destruct (Hd _ _ Hv) as [Hp _]. apply list_elem_of_In in Hk. cbn in Hk. rewrite !elem_of_cons, elem_of_nil in Hk.
  unfold PUBLIC_KEYS in Hp. rewrite !elem_of_cons, elem_of_nil in Hp. naive_solver.
Qed.

(** READY is published from VALIDATING, and the snapshot of the record is the one that was
    checked. *)
Lemma advance_ready_goes C e reason detail data s p d r :
  owned canonical_hash cf C p d r -> pub_state p = VALIDATING -> good_env e ->
  nonempty reason = true -> public_data data -> is_Some (dget "receipt_hashes" data) ->
  json_writable (VDict (dset "readiness_snapshot" (VDict s) data)) = true ->
  ready_snapshot canonical_hash cf (ae_clock e) data d = Ok s ->
  exists p' d' r', advance canonical_hash cf e READY reason detail data p d = (p', d', Ok r') /\
    pub_state p' = READY /\ manifests d' = manifests d /\
    owned canonical_hash cf (eq (ae_clock e)) p' d' r' /\
    (forall k v, k ∈ PUBLIC_KEYS -> dget k (dset "readiness_snapshot" (VDict s) data) = Some v ->
       dget k (Status.data r') = Some v).
Proof.
  intros Ho Hst He Hreason Hdata Hhashes Hw Hs. pose proof He as [Hnow _ Hfree _ Hlive [x Hcommit]].
  assert (advance_ok cf e READY data) as Hok by (split_and!; auto).
  pose proof (ready_snapshot_Ok _ _ _ _ _ _ Hs) as (ep & hs & path & hash & f & mf & w & m & b & _ & _ & _ & Hc
    & (E1 & E2 & E3) & _).
  destruct (lease_goes e s p d w m b He Hc E1 E2 E3) as (p1 & d1 & Hpub & Hp1 & Hp2 & Hd1 & Hd2).
  assert (prepare canonical_hash cf e READY data p d = (p1, d1, Ok s)) as Hprep.
  { unfold prepare. by rewrite bool_decide_true, Hs, Hpub by done. }
  destruct (prepare_spec _ _ _ _ _ _ _ _ _ _ _ _ _ Ho Hok (ow_lease_revision _ _ _ _ _ _ Ho) Hprep)
    as (_ & _ & _ & _ & _ & _ & _ & Hps).
  destruct (Hps s eq_refl) as (Hnamed & _ & Hlease). destruct (Hlease eq_refl) as [_ Hleased].
  pose proof (public_data_snapshot data s Hdata Hnamed) as Hdu.
  destruct (ow_pub _ _ _ _ _ _ Ho) as (Hr1 & Hr2 & Hr3).
  destruct (evidence_goes (ae_commit_clock e) (revision r + 1) x Hcommit) as (cu & Hcu & Hcv & Hcw & Hov).
  destruct (transition_goes r (ae_now e) READY reason (if nonempty detail then Some detail else None)
      (Some (dset "readiness_snapshot" (VDict s) data)) (Some (revision r))
      (Some (fun rev => Some <$> state_transition_evidence (ae_commit_clock e) rev)) (Some cu))
    as (r' & Ht & _); try done; try apply Ho; try (by apply public_update); auto.
  { rewrite <- Hr2, Hst. apply (bool_decide_unpack _). vm_compute. exact I. }
  { by rewrite Hcu. }
  assert (advance canonical_hash cf e READY reason detail data p d
          = (Publisher READY (revision r') (Some r') (pub_lease_revision p1),
             Dir (Doc (asdict r')) (lease_file d1) (manifests d1), Ok r')) as Ha.
  { unfold advance. rewrite (proj2 (Z.ltb_ge _ _)).
    2: { rewrite Hr3. apply rec_ok_revision, Ho. }
    rewrite Hprep, Hp1, Hr2, Hp2, Hr3, Hfree, Hd1, (ow_file _ _ _ _ _ _ Ho), Ht. done. }
  eexists _, _, r'. split; [exact Ha|]. split; [done|]. split; [done|]. split.
  - destruct (advance_owned _ _ _ (fun _ => True) _ _ _ _ _ _ _ _ _ _ _ Ho Hok Ha) as [Hr'' _]; [done..|].
    by apply (owned_exact _ _ _ _ _ _ _ Hr'').
  - intros k v Hk Hv. rewrite <- Hr2 in Ht. apply commit_Ok in Ht as (Hch & Hb & _).
    destruct (transition_writes _ _ _ _ _ _ _ _ _ _ (ow_record _ _ _ _ _ _ Ho) Hnow (proj1 Hdu)
      (fun n cu => state_evidence_nodup _ n cu) Hch Hb) as (_ & _ & _ & _ & _ & _ & _ & cu' & Hcu' & Hx).
    apply state_evidence_Ok in Hcu' as (w' & m' & b' & _ & _ & _ & ->).
    rewrite Hx; unfold PUBLIC_KEYS in Hk; rewrite !elem_of_cons, elem_of_nil in Hk;
      by destruct Hk as [->|[->|[->|[->|[->|[]]]]]]; cbn [dget decide]; rewrite ?Hv.
Qed.
(** A good environment of [advance] to any other state. *)
Record quiet_env (e : advance_env) : Prop := QuietEnv {
  qe_now : good_time (ae_now e);
  qe_io : ae_io e = io_done;
  qe_wall : Float.is_finite (wall (ae_clock e)) = true;
  qe_commit : exists x, clock_sample (ae_commit_clock e) = Ok x
}.

Lemma writable_dupdate x u :
  json_writable (VDict x) = true -> json_writable (VDict u) = true -> json_writable (VDict (dupdate x u)) = true.
Proof.
  intros Hx Hu. unfold dupdate. revert x Hx. induction u as [|[k v] u IH]; intros x Hx; [done|].
  apply andb_true_iff in Hu as [Hv Hu]. cbn [foldl]. by apply IH, writable_dset.
Qed.

Lemma revoked_snapshot_goes C c new p d r :
  owned canonical_hash cf C p d r -> Float.is_finite (wall c) = true ->
  exists s, revoked_snapshot c new [] d = Ok s /\ json_writable (VDict s) = true.
Proof.
  intros Ho Hw. unfold revoked_snapshot. change (attr "readiness_snapshot" []) with VNone.
  rewrite (ow_file _ _ _ _ _ _ Ho), load_doc_back by apply Ho. cbn [mbind result_bind].
  eexists. split; [reflexivity|]. apply writable_dupdate; [|by cbn; rewrite Hw].
  pose proof (proj2 (writable_parts r (ow_writable _ _ _ _ _ _ Ho))) as Hd.
  unfold dget_default. destruct (dget "readiness_snapshot" (Status.data r)) as [v|] eqn:E; [|done].
  pose proof (writable_field _ _ _ Hd E). cbn [from_option id]. by destruct v.
Qed.

(** Any legal move to another state than READY is published, with no new data. *)
Lemma advance_goes C e new reason detail p d r :
  owned canonical_hash cf C p d r -> new <> READY -> new ∈ DEPLOYMENT_TRANSITIONS (pub_state p) ->
  quiet_env e -> nonempty reason = true ->
  exists p' d' r', advance canonical_hash cf e new reason detail [] p d = (p', d', Ok r') /\
    pub_state p' = new /\ owned canonical_hash cf C p' d' r'.
Proof.
  intros Ho Hne Hnew [Hnow Hfree Hwall [x Hcommit]] Hreason.
  destruct (revoked_snapshot_goes C (ae_clock e) new p d r Ho Hwall) as (s & Hs & Hws).
  assert (public_data []) as Hdata by (split; [constructor|done]).
  assert (advance_ok cf e new []) as Hok by (split_and!; auto; done).
  destruct (revoked_snapshot_Ok _ _ _ _ _ _ _ _ _ _ Ho Hdata Hs) as [Hnamed _].
  destruct (ow_pub _ _ _ _ _ _ Ho) as (Hr1 & Hr2 & Hr3).
  destruct (evidence_goes (ae_commit_clock e) (revision r + 1) x Hcommit) as (cu & Hcu & Hcv & Hcw & Hov).
  pose proof (public_data_snapshot [] s Hdata Hnamed) as Hdu.
  destruct (transition_goes r (ae_now e) new reason (if nonempty detail then Some detail else None)
      (Some (dset "readiness_snapshot" (VDict s) [])) (Some (revision r))
      (Some (fun rev => Some <$> state_transition_evidence (ae_commit_clock e) rev)) (Some cu))
    as (r' & Ht & _); try done; try apply Ho; try (by apply public_update); auto.
  { by rewrite <- Hr2. }
  { by apply writable_dset. }
  { by rewrite Hcu. }
  assert (advance canonical_hash cf e new reason detail [] p d
          = (Publisher new (revision r') (Some r') (pub_lease_revision p),
             Dir (Doc (asdict r')) (lease_file d) (manifests d), Ok r')) as Ha.
  { unfold advance. rewrite (proj2 (Z.ltb_ge _ _)).
    2: { rewrite Hr3. apply rec_ok_revision, Ho. }
    unfold prepare. rewrite bool_decide_false, Hs, Hr2, Hr3, Hfree, (ow_file _ _ _ _ _ _ Ho), Ht by done. done. }
  eexists _, _, r'. split; [exact Ha|]. split; [done|].
  by destruct (advance_owned _ _ _ C _ _ _ _ _ _ _ _ _ _ _ Ho Hok Ha) as [Hr'' _].
Qed.

Lemma checks_published (cur new : DeploymentState) reason du er y :
  transition_checks cur new reason du er = Err y ->
  exists m, published (A := StatusRecord DeploymentState) (Err y) = Err (PublicationError m).
Proof.
  unfold transition_checks, validate_reason_detail, validate_expected_revision, validate_data_update, value_error_if, raise_if.
  destruct (negb (nonempty reason)); cbn [mbind result_bind]; [intros [= <-]; by eexists|].
  destruct (from_option _ _ er); cbn [mbind result_bind]; [intros [= <-]; by eexists|].
  destruct du as [du|]; [destruct (existsb _ _)|]; cbn [mbind result_bind]; [intros [= <-]; by eexists|..];
    (destruct (negb _); [intros [= <-]; by eexists|done]).
Qed.

(** A publisher whose last write raised after the rename cannot move: the record on file is
    ahead of it. The reader finds that record as before. *)
Lemma advance_refused C e new reason detail p d r :
  behind canonical_hash cf C p d r -> new <> READY -> quiet_env e ->
  exists p' d' m, advance canonical_hash cf e new reason detail [] p d = (p', d', Err (PublicationError m)) /\
    pub_state p' = pub_state p /\ behind canonical_hash cf C p' d' r.
Proof.
  intros Hb Hne He. pose proof Hb as [Ho [Hrev _]]. destruct He as [Hnow Hio Hwall _].
  assert (advance_ok cf e new []) as Hok by (split_and!; [done|by split; [constructor|]|done]).
  destruct (advance canonical_hash cf e new reason detail [] p d) as [[p' d'] x] eqn:Ha.
  assert (behind canonical_hash cf C p' d' r) as Hb'.
  { destruct (advance_behind _ _ _ C _ _ _ _ _ _ _ _ _ _ _ Hb Hok Ha) as [Hb' _]; [auto|by intros ->|done]. }
  destruct (revoked_snapshot_goes C (ae_clock e) new (in_step r (pub_lease_revision p)) d r Ho Hwall) as (s & Hs & _).
  assert (exists m, x = Err (PublicationError m) /\ pub_state p' = pub_state p) as (m & -> & Hst); [|by eauto 8].
  unfold advance in Ha. destruct (_ <? 0); [injection Ha as <- _ <-; eauto|]. unfold prepare in Ha.
  rewrite bool_decide_false, Hs, Hio, (ow_file _ _ _ _ _ _ Ho) in Ha by done. unfold transition, commit in Ha.
  assert (exists m, transition_record (S := DeploymentState) (ae_now e) (pub_state p) new reason (if nonempty detail then Some detail else None)
    (Some (dset "readiness_snapshot" (VDict s) [])) (Some (pub_revision p))
    (Some (fun rev => Some <$> state_transition_evidence (ae_commit_clock e) rev)) (Doc (asdict r)) =
    Err (StatusConflict m)) as [m Hstale].
  { unfold transition_record, cas_load. rewrite load_doc_back by apply Ho. cbn [mbind result_bind].
    case_bool_decide; cbn [negb conflict_if raise_if mbind result_bind]; [|by eexists].
    rewrite (proj2 (Z.eqb_neq _ _)) by lia. by eexists. }
  rewrite Hstale in Ha. destruct (transition_checks _ _ _ _ _) as [u|y] eqn:Hch.
  - injection Ha as <- _ <-. eauto.
  - apply checks_published in Hch as [m' Hm']. cbv beta iota zeta in Ha. rewrite Hm' in Ha. injection Ha as <- _ <-. eauto.
Qed.
End Publish.
