(* ===== verification/StatusApiDemo.v ===== *)
(** A concrete publisher -- the plan and the binding of the ledger's example, a constant
    hash -- that goes from PLANNED to READY, renews its lease and is read. *)

From S2P Require Import Prelude PyValue Atomic Envelopes Contracts Receipts ReceiptCodec Bindings BindingsProps Ledger LedgerProps Status StatusProps Manifest StatusApi StatusApiProps.

Definition api_hash (_ : dict) : string := demo_digest.
Definition api_config : config := Config demo_node_plan (Some demo_node_binding) 0 None.

Definition api_clock (n : Z) : clock := Clock (Float.of_Z (1000 + n)) (Float.of_Z n) (Some "boot-1").
Definition api_env (n : Z) : advance_env :=
  AdvanceEnv (api_clock n) Written io_done (Float.of_Z (1000 + n)) (api_clock n).

Definition api_models : dict :=
  [("m", VDict [("route_name", VStr "m"); ("expected_replicas", VInt 1); ("observed_replicas", VInt 1);
                ("observed_target", VInt 1)])].
Definition api_snapshot : dict :=
  [("ready", VBool true); ("phase", VStr "READY"); ("blockers", VList []); ("satisfied", VList []);
   ("advertised_endpoint", VStr "http://head:8000/v1"); ("generation", VInt 0);
   ("deployment_plan_hash", VStr demo_digest); ("allocation_binding_hash", VStr demo_digest);
   ("missing_identities", VList []); ("unhealthy_identities", VList []);
   ("receipt_hashes", texts [demo_digest]); ("model_map", VDict api_models); ("capability_map", VDict []);
   ("nodes", VList [VDict [("node_id", VStr "n0"); ("node_name", VStr "node0"); ("node_address", VStr "10.0.0.1");
                           ("alive", VBool true); ("cpu", VInt 8); ("gpu", VInt 1)]]);
   ("proxies", VList [VDict [("node_id", VStr "n0"); ("status", VStr "HEALTHY")]]);
   ("observed_at", VFloat (Float.of_Z 1005)); ("receipt_manifest_path", VStr "/run/receipts/a.json");
   ("receipt_manifest_hash", VStr demo_digest)].
Definition api_data : dict :=
  [("advertised_endpoint", VStr "http://head:8000/v1"); ("readiness_snapshot", VDict api_snapshot);
   ("model_map", VDict api_models); ("capability_map", VDict []); ("receipt_hashes", texts [demo_digest])].
(** The manifest of the one accepted receipt. *)
Definition api_manifest : ReceiptManifest.t :=
  ReceiptManifest.mk (VInt 1) "dep-1" 0 demo_digest demo_digest [demo_digest]
    [to_dict api_hash demo_head] demo_digest.

Definition api_start : list api_op :=
  [PInitialize io_done (Float.of_Z 1001) (api_clock 1); PAdvance (api_env 2) STAGING "STAGE" "" [];
   PAdvance (api_env 3) CLUSTER_STARTING "CLUSTER" "" []; PAdvance (api_env 4) DEPLOYING "DEPLOY" "" [];
   PAdvance (api_env 5) VALIDATING "VALIDATE" "" []; PManifest "/run/receipts/a.json" Written api_manifest].
(** READY is published at monotonic time 6; its lease lasts for 30 seconds. *)
Definition api_ready : list api_op := api_start ++ [PAdvance (api_env 6) READY "READY" "" api_data].

Definition api_dir : dir := Dir Missing Missing ∅.

Lemma api_identity : identity_ok api_config.
Proof.
  split; [vm_compute; reflexivity|vm_compute; discriminate|vm_compute; reflexivity|discriminate|vm_compute; reflexivity].
Qed.

Lemma api_fresh : fresh new_publisher api_dir.
Proof. split_and!; [reflexivity..|]. intros path f. cbn. rewrite lookup_empty. discriminate. Qed.

Lemma public_data_list data :
  NoDup (dkeys data) -> Forall (fun kv => kv.1 ∈ PUBLIC_KEYS /\ field_ok kv.1 kv.2) data -> public_data data.
Proof.
  intros Hn Hf. split; [done|]. intros k v Hk%dget_Some_elem. rewrite Forall_forall in Hf. exact (Hf _ Hk).
Qed.

Lemma api_data_ok : public_data api_data.
Proof.
  apply public_data_list; [apply (bool_decide_unpack _); vm_compute; exact I|].
  repeat (apply Forall_cons; split); [..|by apply Forall_nil];
    (split; [apply (bool_decide_unpack _); vm_compute; exact I|]); cbn [fst snd];
    (split_and!; intros Hk; try discriminate Hk; try (destruct Hk as [Hk|Hk]; discriminate Hk)).
  - eauto.
  - exists api_snapshot. split; [reflexivity|]. split; eexists; reflexivity.
  - eauto.
  - eauto.
  - exists [demo_digest]. vm_compute. reflexivity.
Qed.

Lemma api_ready_ok : Forall (op_ok api_config) api_ready.
Proof.
  assert (public_data []) as Hnil by (apply public_data_list; [apply NoDup_nil_2|apply Forall_nil_2]).
  repeat (apply Forall_cons; split); [..|by apply Forall_nil]; cbn [op_ok].
  - split; vm_compute; reflexivity.
  - split_and!; [split; vm_compute; reflexivity|exact Hnil|discriminate].
  - split_and!; [split; vm_compute; reflexivity|exact Hnil|discriminate].
  - split_and!; [split; vm_compute; reflexivity|exact Hnil|discriminate].
  - split_and!; [split; vm_compute; reflexivity|exact Hnil|discriminate].
  - exact I.
  - split_and!; [split; vm_compute; reflexivity|exact api_data_ok|]. intros _.
    split; [eexists; reflexivity|]. split; vm_compute; reflexivity.
Qed.

Abbreviation api_run := (run_ops api_hash api_config api_ready (new_publisher, api_dir)).

(** A consumer gets the endpoint at time 10 and not at time 36. *)
Example api_endpoint :
  require_ready_endpoint api_hash (Some 0) demo_digest (api_clock 10) api_run.2 = Ok "http://head:8000/v1" /\
  require_ready_endpoint api_hash (Some 0) demo_digest (api_clock 36) api_run.2
  = Err (NotReady "deployment READY evidence lease expired").
Proof. vm_compute. split; reflexivity. Qed.

(** The drain is written, but its directory cannot be synced. *)
Definition api_drained : list api_op :=
  api_ready ++ [PAdvance (AdvanceEnv (api_clock 7) Written (StoreIO LeaseAcquired Undurable Released)
                            (Float.of_Z 1007) (api_clock 7)) DRAINING "DRAIN" "" []].

Lemma api_drained_ok : Forall (op_ok api_config) api_drained.
Proof.
  apply Forall_app. split; [exact api_ready_ok|]. apply Forall_singleton.
  split_and!; [split; vm_compute; reflexivity| |discriminate].
  apply public_data_list; [apply NoDup_nil_2|apply Forall_nil_2].
Qed.

Abbreviation api_drained_run := (run_ops api_hash api_config api_drained (new_publisher, api_dir)).


Definition is_ok {E A} (r : result E A) : bool := match r with Ok _ => true | Err _ => false end.

Lemma api_ready_clear : Forall (fun o => forall st, ~ op_ambiguous st o) api_ready.
Proof.
  assert (~ ambiguous io_done) as Hd by (intros [_ [H|[_ H]]]; [discriminate H|by apply H]).
  repeat (apply Forall_cons; split); [..|by apply Forall_nil]; intros st H; cbn in H; try (destruct H as [H _]; exact (Hd H)).
  exact H.
Qed.


(** The renewal at time 20: the verdict has no manifest yet. *)
Definition api_verdict : dict :=
  List.filter (fun kv => negb (bool_decide (kv.1 ∈ ["receipt_manifest_path"; "receipt_manifest_hash"]))) api_snapshot.

Lemma renewal_changes_only_lease_witness :
  exists p' d' y s', refresh_ready api_hash api_config (api_clock 20) Written api_verdict (VDict api_models) (VDict [])
                       [demo_digest] api_run.1 api_run.2 = (p', d', Ok y) /\
    status_file d' = status_file api_run.2 /\ read_deployment_status api_hash d' = Ok (Some s') /\
    DeploymentStatus.ready (api_clock 40) s' = Ok true.
Proof.
  assert (is_ok (refresh_ready api_hash api_config (api_clock 20) Written api_verdict (VDict api_models) (VDict [])
                   [demo_digest] api_run.1 api_run.2).2 = true) as Hok by (vm_compute; reflexivity).
  destruct (refresh_ready api_hash api_config (api_clock 20) Written api_verdict (VDict api_models) (VDict [])
              [demo_digest] api_run.1 api_run.2) as [[p' d'] [y|e]] eqn:Hr; [|discriminate Hok].
  assert (live_clock api_config (api_clock 20)) as Hlive by (split; vm_compute; reflexivity).
  pose proof (renewal_changes_only_lease api_hash api_config api_dir api_ready (api_clock 20) Written api_verdict
                (VDict api_models) (VDict []) [demo_digest] p' d' y api_identity api_fresh api_ready_ok Hlive api_ready_clear) as H.
  destruct api_run as [p d]. cbn [fst snd] in *.
  destruct (H Hr) as (Hf & s & s' & _ & Hs' & _ & _ & _ & _ & _ & _ & _ & _ & _ & _ & _ & Hready).
  exists p', d', y, s'. split; [reflexivity|]. split; [exact Hf|]. split; [exact Hs'|].
  rewrite Hready. vm_compute. reflexivity.
Defined.
