(* ===== verification/HeadChannel.v ===== *)
(** The head side of the channel runtime (class HeadChannel of
    control/channel_runtime.py): the sinks that the control listener calls, the one
    ordered writer of durable evidence, polling, the start phases and shutdown.

    The listener's callbacks run on the event loop, durable mutations on one worker
    thread. A callback is one definition; a queued mutation is a [job], and [work]
    runs the oldest one. The coroutine [_on_snapshot] waits twice for the worker: it
    is split where it waits ([on_snapshot], [resume_staged], [resume_committed]), and
    what it has in hand meanwhile is in [inflight]. Failure texts are the constructors
    of [failure]. The session coordinator is Session.v, the receipt ledger Ledger.v
    over any [BindingStore]. *)

From S2P Require Import Prelude PyValue Atomic Json Envelopes Contracts Snapshots NodeChannel Session Receipts ReceiptCodec Bindings Ledger.

Definition MAX_HEAD_DIAGNOSTIC_RECORDS : nat := N.to_nat 4096.

(** ** Bounded diagnostic lists (class _BoundedDiagnosticList) *)

Module DiagnosticList.
Record t (A : Type) := mk { items : list A; preserve_first : bool; dropped : Z }.
Arguments mk {A}.
Arguments items {A}.
Arguments preserve_first {A}.
Arguments dropped {A}.

Definition empty {A} (preserve : bool) : t A := mk [] preserve 0.

(** [del self[1]] or [del self[0]] *)
Definition make_room {A} (preserve : bool) (l : list A) : list A :=
  if preserve then match l with x :: _ :: rest => x :: rest | _ => l end else tail l.

Definition append {A} (l : t A) (item : A) : t A :=
  if (length (items l) <? MAX_HEAD_DIAGNOSTIC_RECORDS)%nat
  then mk (items l ++ [item]) (preserve_first l) (dropped l)
  else mk (make_room (preserve_first l) (items l) ++ [item]) (preserve_first l) (dropped l + 1).

Definition extend {A} (l : t A) (new : list A) : t A := fold_left append new l.
End DiagnosticList.

(** ** Exceptions, failures and queued work *)

(** What a queued mutation may raise. *)
Inductive durable_error :=
| StoreFailed (e : store_error)
| ReceiptTypeError
| NoCoordinator
| Cancelled.

(** What the sinks themselves raise. *)
Inductive head_exc :=
| QueueFull
| WriterClosed
| OutsidePlan (reason : string)
| Invalid (e : exc)
| BadTimeout.

(** The entries of [failures]. *)
Inductive failure :=
| DurableMutationFailed (e : durable_error)
| ComponentFailed (rank : Z) (component detail : string)
| ProtocolViolation (rank : Z) (what : string)
| ControlLeaseLost (rank : Z)
| TransportFailed (what : string)
| GenerationFailed (why : reason)
| BarrierFailed
| BarrierOpen (operation : string)
| StartRefused (operation : string) (why : reply)
| DeadlineExhausted (operation : string)
| DeliveryTimedOut (operation : string) (rank : Z)
| Unreachable (operation : string) (rank : Z)
| AcknowledgmentTimedOut (operation : string) (rank : Z)
| InvalidResult (operation : string) (rank : Z)
| TransitionRefused (why : reply)
| OperationFailed (operation : string)
| PartlyAcknowledged (operation : string) (acknowledged sent : Z)
| GoodbyesMissing (received expected : Z)
| CleanupFailed (what : string).

#[global] Instance reason_eq_dec : EqDecision reason.
Proof. solve_decision. Defined.

(** [transport_failure in self.failures], [reason in self.failures] *)
Definition is_transport (what : string) (f : failure) : bool :=
  match f with TransportFailed w => bool_decide (w = what) | _ => false end.
Definition is_reason (why : reason) (f : failure) : bool :=
  match f with GenerationFailed r => bool_decide (r = why) | _ => false end.

(** The text of a [(bool, str)] decision. *)
Inductive detail :=
| Text (s : string)
| Coordinator (r : reply)
| DurableFailure (e : durable_error).

(** An entry of [receipt_rejections]. *)
Record rejection := Rejection { rj_rank : Z; rj_requirement : option string; rj_detail : string }.

Inductive job (B : Type) :=
| JAccept (rank : Z) (requirement_id : string) (raw : RawReceipt) (node : option string)
| JDrop (rank : Z)
| JStage (rank : Z) (payloads : list value)
| JCommit (rank : Z) (candidate : Ledger.t B)
| JFlush.
Arguments JAccept {B}.
Arguments JDrop {B}.
Arguments JStage {B}.
Arguments JCommit {B}.
Arguments JFlush {B}.

(** The result of staging: [(ok, detail, candidate)]. *)
Definition staging (B : Type) : Type := result string (option (Ledger.t B)).

(** Where a waiting [_on_snapshot] is. *)
Inductive phase (B : Type) :=
| Staging
| StagedWith (r : result durable_error (staging B))
| Committing
| CommittedWith (r : result durable_error unit).
Arguments Staging {B}.
Arguments StagedWith {B}.
Arguments Committing {B}.
Arguments CommittedWith {B}.

Definition obs_key (o : ComponentObservation.t) : string * string :=
  (ComponentObservation.component_id o, ComponentObservation.instance_id o).

Abbreviation projection := (gmap (string * string) ComponentObservation.t).

Record inflight (B : Type) := InFlight {
  if_snapshot_id : string;
  if_hash : string;
  if_items : list value;
  if_observations : projection;
  if_receipts : list value;
  if_phase : phase B
}.
Arguments InFlight {B}.
Arguments if_snapshot_id {B}.
Arguments if_hash {B}.
Arguments if_items {B}.
Arguments if_observations {B}.
Arguments if_receipts {B}.
Arguments if_phase {B}.

Definition at_phase {B} (p : phase B) (f : inflight B) : inflight B :=
  InFlight (if_snapshot_id f) (if_hash f) (if_items f) (if_observations f) (if_receipts f) p.

(** What the environment decides while a job runs. *)
Record job_io := JobIo {
  jio : io_env; jio_revoke : string -> io_env; jio_bind : string -> io_env
}.

(** ** The ledger on untyped receipts *)

Section RawLedger.
Context {B : Type} `{!BindingStore B}.
Context (canonical_hash : dict -> string) (is_utc_timestamp : string -> bool).

(** [ledger.accept(receipt, session_rank=rank, session_node=node)] on what
    [receipt_from_dict] returned. A requirement id that is no text is recorded as
    ["<invalid>"]: it is only ever recorded in a candidate that is then dropped. *)
Definition accept_raw (io : io_env) (raw : RawReceipt) (rank : Z) (node : option string)
    (l : Ledger.t B) : Ledger.t B * result durable_error (bool * string) :=
  match attr "receipt_requirement_id" (raw_data raw) with
  | VStr id =>
      match patch_requirements_for_plan (Ledger.plan l) id (Ledger.profile l) with
      | Err (ReceiptError m) => (Ledger.note_rejection l id m, Ok (false, m))
      | Ok req =>
          match validate_raw canonical_hash is_utc_timestamp raw req.1 req.2 with
          | Err (Refused (ReceiptError m)) => (Ledger.note_rejection l id m, Ok (false, m))
          | Err Unhashable => (l, Err ReceiptTypeError)
          | Ok r =>
              let '(l', res) :=
                Ledger.accept (compute_hash canonical_hash) is_utc_timestamp io r None (Some rank)
                  node false l in
              (l', match res with Ok x => Ok x | Err e => Err (StoreFailed e) end)
          end
      end
  | _ => (Ledger.note_rejection l "<invalid>" "no planned receipt requirement",
          Ok (false, "no planned receipt requirement"))
  end.

Fixpoint accept_all_raw (rank : Z) (node : string) (raws : list RawReceipt) (l : Ledger.t B)
    : result durable_error (result string (Ledger.t B)) :=
  match raws with
  | [] => Ok (Ok l)
  | raw :: rest =>
      match accept_raw (Io (Store.barrier_done, Store.barrier_done) Float.zero) raw rank (Some node) l with
      | (l1, Ok (true, _)) => accept_all_raw rank node rest l1
      | (_, Ok (false, m)) => Ok (Err m)
      | (_, Err e) => Err e
      end
  end.

(** [ledger.stage_rank_snapshot] on decoded receipts. *)
Definition stage_raw (rank : Z) (raws : list RawReceipt) (node : string) (l : Ledger.t B)
    : result durable_error (result string (Ledger.t B)) :=
  accept_all_raw rank node raws
    (Ledger.drop_rank (fun _ => Io (Store.barrier_done, Store.barrier_done) Float.zero) rank (Ledger.set_store None l)).1.
End RawLedger.

(** The decoding loop of [_decode_snapshot_receipts]. *)
Definition body_attr (name : string) (v : value) : value :=
  match v with VDict d => attr name d | _ => VNone end.

Fixpoint decode_receipts (payloads : list value) : result string (list RawReceipt) :=
  match payloads with
  | [] => Ok []
  | p :: rest =>
      match receipt_from_dict p with
      | Err (ReceiptError m) =>
          Err (match body_attr "receipt_requirement_id" p with
               | VStr id => id | _ => "<invalid>" end +:+ ": " +:+ m)
      | Ok raw => raws ← decode_receipts rest; Ok (raw :: raws)
      end
  end.

(** ** The head channel *)

Module HeadChannel.
Section Head.
Context {B : Type} `{!BindingStore B}.
Context (canonical_hash : dict -> string) (snapshot_hash : list value -> string).
Context (is_utc_timestamp : string -> bool).

Record t := mk {
  expected_ranks : Z;
  coordinator : option SessionCoordinator.t;
  ledger : option (Ledger.t B);
  receipt_payloads : DiagnosticList.t (Z * value);
  receipt_rejections : DiagnosticList.t rejection;
  observations_by_rank : gmap Z projection;
  observation_arrivals : gmap (Z * string * string) float;
  failures : DiagnosticList.t failure;
  disconnected : DiagnosticList.t Z;
  unexpected_disconnects : list Z;
  shutdown_acknowledged_ranks : gset Z;
  started : bool;
  durable_pending : list (job B);
  durable_closed : bool;
  durable_tail_ok : bool;
  snapshots : gmap Z (inflight B);
  stopped : option bool
}.

Definition init (ranks : Z) (c : option SessionCoordinator.t) (l : option (Ledger.t B)) : t :=
  mk ranks c l (DiagnosticList.empty false) (DiagnosticList.empty true) ∅ ∅
     (DiagnosticList.empty true) (DiagnosticList.empty false) [] ∅ false [] false true ∅ None.

Definition set_coordinator (x : option SessionCoordinator.t) (h : t) : t :=
  mk (expected_ranks h) x (ledger h) (receipt_payloads h) (receipt_rejections h)
     (observations_by_rank h) (observation_arrivals h) (failures h) (disconnected h)
     (unexpected_disconnects h) (shutdown_acknowledged_ranks h) (started h) (durable_pending h)
     (durable_closed h) (durable_tail_ok h) (snapshots h) (stopped h).
Definition set_ledger (x : option (Ledger.t B)) (h : t) : t :=
  mk (expected_ranks h) (coordinator h) x (receipt_payloads h) (receipt_rejections h)
     (observations_by_rank h) (observation_arrivals h) (failures h) (disconnected h)
     (unexpected_disconnects h) (shutdown_acknowledged_ranks h) (started h) (durable_pending h)
     (durable_closed h) (durable_tail_ok h) (snapshots h) (stopped h).
Definition set_payloads (x : DiagnosticList.t (Z * value)) (h : t) : t :=
  mk (expected_ranks h) (coordinator h) (ledger h) x (receipt_rejections h)
     (observations_by_rank h) (observation_arrivals h) (failures h) (disconnected h)
     (unexpected_disconnects h) (shutdown_acknowledged_ranks h) (started h) (durable_pending h)
     (durable_closed h) (durable_tail_ok h) (snapshots h) (stopped h).
Definition set_rejections (x : DiagnosticList.t rejection) (h : t) : t :=
  mk (expected_ranks h) (coordinator h) (ledger h) (receipt_payloads h) x
     (observations_by_rank h) (observation_arrivals h) (failures h) (disconnected h)
     (unexpected_disconnects h) (shutdown_acknowledged_ranks h) (started h) (durable_pending h)
     (durable_closed h) (durable_tail_ok h) (snapshots h) (stopped h).
Definition set_observations (x : gmap Z projection) (y : gmap (Z * string * string) float) (h : t)
    : t :=
  mk (expected_ranks h) (coordinator h) (ledger h) (receipt_payloads h) (receipt_rejections h)
     x y (failures h) (disconnected h)
     (unexpected_disconnects h) (shutdown_acknowledged_ranks h) (started h) (durable_pending h)
     (durable_closed h) (durable_tail_ok h) (snapshots h) (stopped h).
Definition set_failures (x : DiagnosticList.t failure) (h : t) : t :=
  mk (expected_ranks h) (coordinator h) (ledger h) (receipt_payloads h) (receipt_rejections h)
     (observations_by_rank h) (observation_arrivals h) x (disconnected h)
     (unexpected_disconnects h) (shutdown_acknowledged_ranks h) (started h) (durable_pending h)
     (durable_closed h) (durable_tail_ok h) (snapshots h) (stopped h).
Definition set_disconnects (x : DiagnosticList.t Z) (y : list Z) (h : t) : t :=
  mk (expected_ranks h) (coordinator h) (ledger h) (receipt_payloads h) (receipt_rejections h)
     (observations_by_rank h) (observation_arrivals h) (failures h) x
     y (shutdown_acknowledged_ranks h) (started h) (durable_pending h)
     (durable_closed h) (durable_tail_ok h) (snapshots h) (stopped h).
Definition set_acknowledged (x : gset Z) (h : t) : t :=
  mk (expected_ranks h) (coordinator h) (ledger h) (receipt_payloads h) (receipt_rejections h)
     (observations_by_rank h) (observation_arrivals h) (failures h) (disconnected h)
     (unexpected_disconnects h) x (started h) (durable_pending h)
     (durable_closed h) (durable_tail_ok h) (snapshots h) (stopped h).
Definition set_started (x : bool) (h : t) : t :=
  mk (expected_ranks h) (coordinator h) (ledger h) (receipt_payloads h) (receipt_rejections h)
     (observations_by_rank h) (observation_arrivals h) (failures h) (disconnected h)
     (unexpected_disconnects h) (shutdown_acknowledged_ranks h) x (durable_pending h)
     (durable_closed h) (durable_tail_ok h) (snapshots h) (stopped h).
Definition set_durable (x : list (job B)) (y : bool) (h : t) : t :=
  mk (expected_ranks h) (coordinator h) (ledger h) (receipt_payloads h) (receipt_rejections h)
     (observations_by_rank h) (observation_arrivals h) (failures h) (disconnected h)
     (unexpected_disconnects h) (shutdown_acknowledged_ranks h) (started h) x
     y (durable_tail_ok h) (snapshots h) (stopped h).
Definition set_tail_ok (x : bool) (h : t) : t :=
  mk (expected_ranks h) (coordinator h) (ledger h) (receipt_payloads h) (receipt_rejections h)
     (observations_by_rank h) (observation_arrivals h) (failures h) (disconnected h)
     (unexpected_disconnects h) (shutdown_acknowledged_ranks h) (started h) (durable_pending h)
     (durable_closed h) x (snapshots h) (stopped h).
Definition set_snapshots (x : gmap Z (inflight B)) (h : t) : t :=
  mk (expected_ranks h) (coordinator h) (ledger h) (receipt_payloads h) (receipt_rejections h)
     (observations_by_rank h) (observation_arrivals h) (failures h) (disconnected h)
     (unexpected_disconnects h) (shutdown_acknowledged_ranks h) (started h) (durable_pending h)
     (durable_closed h) (durable_tail_ok h) x (stopped h).
Definition set_stopped (x : option bool) (h : t) : t :=
  mk (expected_ranks h) (coordinator h) (ledger h) (receipt_payloads h) (receipt_rejections h)
     (observations_by_rank h) (observation_arrivals h) (failures h) (disconnected h)
     (unexpected_disconnects h) (shutdown_acknowledged_ranks h) (started h) (durable_pending h)
     (durable_closed h) (durable_tail_ok h) (snapshots h) x.

Definition fail (f : failure) (h : t) : t :=
  set_failures (DiagnosticList.append (failures h) f) h.
Definition reject_receipt (r : rejection) (h : t) : t :=
  set_rejections (DiagnosticList.append (receipt_rejections h) r) h.

(** *** The ordered writer *)

(** [_planned_receipt_ids], fixed by the plan. *)
Definition planned_receipt_ids (h : t) : gset string :=
  match ledger h with
  | None => ∅
  | Some l => list_to_set (map ReceiptRequirement.receipt_requirement_id
                             (DeploymentPlan.receipt_requirements (Ledger.plan l)))
  end.

Definition durable_limit (h : t) : Z :=
  Z.max 256 (Z.of_nat (size (planned_receipt_ids h)) * 2 + expected_ranks h * 4).

Definition submit_durable (j : job B) (h : t) : t * result head_exc unit :=
  if durable_closed h then (h, Err WriterClosed)
  else if durable_limit h <=? Z.of_nat (length (durable_pending h)) then (h, Err QueueFull)
  else (set_durable (durable_pending h ++ [j]) (durable_closed h) h, Ok tt).

(** The node of a rank's session, as the coordinator knows it. *)
Definition session_node (h : t) (rank : Z) : option string :=
  c ← coordinator h; s ← SessionCoordinator.sessions c !! rank; Some (RankSession.node_id s).

(** *** Receipts *)

Definition requirement_id_of (payload : value) : string :=
  match body_attr "receipt_requirement_id" payload with VStr id => id | _ => "<invalid>" end.

Definition on_receipt (rank : Z) (payload : value) (h : t) : t * result head_exc unit :=
  let h1 := set_payloads (DiagnosticList.append (receipt_payloads h) (rank, payload)) h in
  match ledger h1 with
  | None => (h1, Ok tt)
  | Some _ =>
      let id := requirement_id_of payload in
      if negb (bool_decide (id ∈ planned_receipt_ids h1))
      then (reject_receipt (Rejection rank (Some id) "no such planned requirement") h1, Ok tt)
      else
        match receipt_from_dict payload with
        | Err (ReceiptError m) => (reject_receipt (Rejection rank (Some id) m) h1, Ok tt)
        | Ok raw => submit_durable (JAccept rank id raw (session_node h1 rank)) h1
        end
  end.

(** *** Observations *)

(** [allowed.get(component_id)] of [_observation_contract_reason] *)
Definition allowed_role (rank : Z) (component : string) : option string :=
  if bool_decide (component = "rank" +:+ str_Z rank) then Some "rank"
  else if bool_decide (component = "ray") then Some "ray"
  else if bool_decide (component = "serve_proxy") then Some "serve_proxy"
  else if bool_decide (component = "node_diagnostics") then Some "diagnostics"
  else if (rank =? 0) && bool_decide (component = "ray_head_endpoint")
  then Some "ray_head_endpoint"
  else None.

Definition observation_contract_reason (h : t) (rank : Z) (o : ComponentObservation.t)
    : option string :=
  match coordinator h with
  | None => None
  | Some _ =>
      match allowed_role rank (ComponentObservation.component_id o) with
      | None => Some "published unplanned component"
      | Some role =>
          if bool_decide (ComponentObservation.role o = role) then None
          else Some "component has another role"
      end
  end.

(** [obs.detail or obs.reason_code or "no detail"] *)
Definition failure_detail (o : ComponentObservation.t) : string :=
  match ComponentObservation.detail o, ComponentObservation.reason_code o with
  | Some d, c => if nonempty d then d
                 else match c with Some c => if nonempty c then c else "no detail"
                                 | None => "no detail" end
  | None, Some c => if nonempty c then c else "no detail"
  | None, None => "no detail"
  end.

Definition record_observation_failure (rank : Z) (h : t) (o : ComponentObservation.t) : t :=
  if bool_decide (ComponentObservation.state o = "FAILED")
  then fail (ComponentFailed rank (ComponentObservation.component_id o) (failure_detail o)) h
  else h.

Definition arrival_key (rank : Z) (k : string * string) : Z * string * string := (rank, k.1, k.2).

Definition on_observation (now : float) (rank : Z) (o : ComponentObservation.t) (h : t)
    : t * result head_exc unit :=
  match observation_contract_reason h rank o with
  | Some reason => (h, Err (OutsidePlan reason))
  | None =>
      let current := default ∅ (observations_by_rank h !! rank) in
      let h1 := set_observations
        (<[rank := <[obs_key o := o]> current]> (observations_by_rank h))
        (<[arrival_key rank (obs_key o) := now]> (observation_arrivals h)) h in
      (record_observation_failure rank h1 o, Ok tt)
  end.

(** [for key in [...]: if key[0] == rank: self._observation_arrivals.pop(key)] *)
Definition without_rank (rank : Z) (m : gmap (Z * string * string) float)
    : gmap (Z * string * string) float :=
  filter (fun kv => kv.1.1.1 <> rank) m.

(** *** Registration and snapshots *)

Definition on_register (clk : float) (rank : Z) (node_id instance_id : string) (h : t)
    : t * (bool * detail) :=
  match coordinator h with
  | None => (h, (true, Text "standalone transport registration"))
  | Some c =>
      let '(c', (ok, r)) := HeadDriver.on_register clk rank node_id instance_id c in
      (set_coordinator (Some c') h, (ok, Coordinator r))
  end.

(** [_decode_snapshot_receipts], on the worker *)
Definition decode_snapshot_receipts (rank : Z) (payloads : list value) (h : t)
    : result durable_error (staging B) :=
  match ledger h with
  | None => Ok (Ok None)
  | Some l =>
      match decode_receipts payloads with
      | Err m => Ok (Err m)
      | Ok raws =>
          match coordinator h with
          | None => Err NoCoordinator
          | Some _ =>
              match stage_raw canonical_hash is_utc_timestamp rank raws
                      (default "" (session_node h rank)) l with
              | Err e => Err e
              | Ok (Err m) => Ok (Err m)
              | Ok (Ok candidate) => Ok (Ok (Some candidate))
              end
          end
      end
  end.

Definition supervisor_requirement (rank : Z) : string :=
  "rank" +:+ str_Z rank +:+ "/node_supervisor".

Definition stage_observation (m : projection) (payload : value) : result exc projection :=
  o ← validate_observation payload; Ok (<[obs_key o := o]> m).

(** The first reason for which a staged observation is outside the plan. Only the
    choice of the reported one depends on the order. *)
Definition staged_reason (h : t) (rank : Z) (m : projection) : option string :=
  head (omap (fun kv => observation_contract_reason h rank kv.2) (map_to_list m)).

(** A decision, or [None] while the coroutine waits for the writer. *)
Definition decision : Type := result head_exc (option (bool * detail)).

(** [_on_snapshot] up to its first wait. *)
Definition on_snapshot (rank : Z) (snapshot_id complete_hash : string) (items : list value) (h : t)
    : t * decision :=
  let receipts := NodeChannel.bodies "receipt" items in
  if negb (existsb (fun p => is_str (supervisor_requirement rank)
                               (body_attr "receipt_requirement_id" p)) receipts)
  then (h, Ok (Some (false, Text "required supervisor receipt is missing")))
  else
    match fold_res stage_observation ∅ (NodeChannel.bodies "observation" items) with
    | Err e => (h, Err (Invalid e))
    | Ok staged =>
        match staged_reason h rank staged with
        | Some reason => (h, Ok (Some (false, Text reason)))
        | None =>
            match submit_durable (JStage rank receipts) h with
            | (h1, Err e) => (h1, Err e)
            | (h1, Ok _) =>
                (set_snapshots (<[rank := InFlight snapshot_id complete_hash items staged receipts
                                            Staging]> (snapshots h1)) h1, Ok None)
            end
        end
    end.

Definition forget_snapshot (rank : Z) (h : t) : t := set_snapshots (delete rank (snapshots h)) h.

(** The end of [_on_snapshot]: the rank's projection is replaced as a whole. *)
Definition install_snapshot (now : float) (rank : Z) (f : inflight B) (h : t) : t :=
  let arrivals :=
    map_fold (fun k _ m => <[arrival_key rank k := now]> m)
      (without_rank rank (observation_arrivals h)) (if_observations f) in
  let h1 := set_observations (<[rank := if_observations f]> (observations_by_rank h)) arrivals h in
  let h2 := set_payloads (DiagnosticList.extend (receipt_payloads h1)
                            (map (fun p => (rank, p)) (if_receipts f))) h1 in
  fold_left (record_observation_failure rank) (map_to_list (if_observations f)).*2 h2.

Definition accepted_snapshot : detail := Text "complete rank snapshot atomically accepted".

(** [_on_snapshot] from the staged receipts to the commit or to a decision. *)
Definition resume_staged (clk now : float) (rank : Z) (f : inflight B)
    (r : result durable_error (staging B)) (h : t) : t * decision :=
  match r with
  | Err e => (forget_snapshot rank h, Ok (Some (false, DurableFailure e)))
  | Ok (Err m) =>
      (forget_snapshot rank (reject_receipt (Rejection rank None m) h), Ok (Some (false, Text m)))
  | Ok (Ok candidate) =>
      let '(h1, (ok, why)) :=
        match coordinator h with
        | None => (h, (true, Text ""))
        | Some c =>
            let '(c', (ok, why)) :=
              HeadDriver.on_snapshot snapshot_hash clk rank (if_snapshot_id f) (if_hash f)
                (if_items f) c in
            (set_coordinator (Some c') h, (ok, Coordinator why))
        end in
      if negb ok then (forget_snapshot rank h1, Ok (Some (false, why)))
      else
        match candidate with
        | None =>
            (forget_snapshot rank (install_snapshot now rank f h1),
             Ok (Some (true, accepted_snapshot)))
        | Some l =>
            match submit_durable (JCommit rank l) h1 with
            | (h2, Err e) => (forget_snapshot rank h2, Err e)
            | (h2, Ok _) =>
                (set_snapshots (<[rank := at_phase Committing f]> (snapshots h2)) h2, Ok None)
            end
        end
  end.

Definition resume_committed (now : float) (rank : Z) (f : inflight B)
    (r : result durable_error unit) (h : t) : t * decision :=
  match r with
  | Err e => (forget_snapshot rank h, Ok (Some (false, DurableFailure e)))
  | Ok _ => (forget_snapshot rank (install_snapshot now rank f h), Ok (Some (true, accepted_snapshot)))
  end.

(** The waiting coroutine of [rank] runs on when its future is done. *)
Definition resume (clk now : float) (rank : Z) (h : t) : t * decision :=
  match snapshots h !! rank with
  | None => (h, Ok None)
  | Some f =>
      match if_phase f with
      | StagedWith r => resume_staged clk now rank f r h
      | CommittedWith r => resume_committed now rank f r h
      | Staging | Committing => (h, Ok None)
      end
  end.

(** [_required_payload_text] *)
Definition required_payload_text (payload : dict) (key : string) : option string :=
  nonempty_str (attr key payload).

Definition on_snapshot_ack (clk : float) (rank : Z) (payload : dict) (h : t)
    : t * (bool * detail) :=
  match coordinator h with
  | None => (h, (true, Text "standalone snapshot acknowledgment"))
  | Some c =>
      match required_payload_text payload "command_id",
            required_payload_text payload "snapshot_id",
            required_payload_text payload "complete_set_hash" with
      | Some command_id, Some snapshot_id, Some complete_set_hash =>
          let '(c', (ok, r)) :=
            SessionCoordinator.acknowledge_snapshot clk rank command_id snapshot_id
              complete_set_hash
              (is_str "SUCCEEDED" (attr "status" payload)
               && match attr "ok" payload with VBool b => b | _ => false end) c in
          (set_coordinator (Some c') h, (ok, Coordinator r))
      | _, _, _ => (h, (false, Text "must be a nonempty string"))
      end
  end.

(** *** Violations, heartbeats and lost sessions *)

Definition on_protocol_violation (rank : Z) (what : string) (h : t) : t :=
  fail (ProtocolViolation rank what)
    (match coordinator h with
     | None => h
     | Some c => set_coordinator (Some (SessionCoordinator.protocol_violation rank what c)) h
     end).

Definition on_heartbeat (clk : float) (rank : Z) (h : t) : t :=
  match coordinator h with
  | None => h
  | Some c => set_coordinator (Some (SessionCoordinator.on_heartbeat clk rank None c)) h
  end.

(** The last part of [_on_session_change]. *)
Definition note_session (rank : Z) (connected goodbye : bool) (h : t) : t :=
  if connected
  then set_disconnects (disconnected h) (filter (fun r => r <> rank) (unexpected_disconnects h)) h
  else
    let unexpected :=
      if negb goodbye && negb (bool_decide (rank ∈ unexpected_disconnects h))
      then unexpected_disconnects h ++ [rank] else unexpected_disconnects h in
    let h1 := set_disconnects (DiagnosticList.append (disconnected h) rank) unexpected h in
    match coordinator h with None => fail (ControlLeaseLost rank) h1 | Some _ => h1 end.

Definition drop_observations (rank : Z) (h : t) : t :=
  set_observations (delete rank (observations_by_rank h))
    (without_rank rank (observation_arrivals h)) h.

(** [goodbye] is what the listener answers to [received_goodbye(rank)]. *)
Definition on_session_change (clk : float) (rank : Z) (connected goodbye : bool) (h : t)
    : t * result head_exc unit :=
  match coordinator h with
  | Some c =>
      if connected then (note_session rank true false h, Ok tt)
      else
        let h1 := set_coordinator
          (Some (SessionCoordinator.on_disconnect clk rank goodbye None c).1) h in
        let '(h2, submitted) :=
          match ledger h1 with
          | Some _ => if negb goodbye then submit_durable (JDrop rank) h1 else (h1, Ok tt)
          | None => (h1, Ok tt)
          end in
        match submitted with
        | Err e => (h2, Err e)
        | Ok _ => (note_session rank false goodbye (drop_observations rank h2), Ok tt)
        end
  | None => (note_session rank connected (negb connected && goodbye) h, Ok tt)
  end.

(** *** The worker *)

(** A future is done; the callback records the exception of one that raised. *)
Definition completed {A} (r : result durable_error A) (h : t) : t :=
  set_tail_ok (is_ok r)
    (match r with Ok _ => h | Err e => fail (DurableMutationFailed e) h end).

Definition set_phase (rank : Z) (p : phase B) (h : t) : t :=
  set_snapshots (alter (at_phase p) rank (snapshots h)) h.

Definition store_result {A} (r : result store_error A) : result durable_error A :=
  match r with Ok a => Ok a | Err e => Err (StoreFailed e) end.

(** One mutation of the ledger by the worker. *)
Definition run_job (io : job_io) (j : job B) (h : t) : t :=
  match ledger h, j with
  | Some l, JAccept rank id raw node =>
      let '(l', r) := accept_raw canonical_hash is_utc_timestamp (jio io) raw rank node l in
      let h1 := set_ledger (Some l') h in
      completed r (match r with
                   | Ok (false, m) => reject_receipt (Rejection rank (Some id) m) h1
                   | _ => h1
                   end)
  | Some l, JDrop rank =>
      let '(l', r) := Ledger.drop_rank (jio_revoke io) rank l in
      completed (store_result r) (set_ledger (Some l') h)
  | Some l, JCommit rank candidate =>
      let '(l', r) := Ledger.commit_rank_snapshot (jio_revoke io) (jio_bind io) rank candidate l in
      completed (store_result r)
        (set_phase rank (CommittedWith (store_result r)) (set_ledger (Some l') h))
  | Some l, JFlush =>
      let '(l', r) := Ledger.flush_store (jio io) l in
      completed (store_result r) (set_ledger (Some l') h)
  | _, JStage rank payloads =>
      let r := decode_snapshot_receipts rank payloads h in
      completed r (set_phase rank (StagedWith r) h)
  | None, _ => h
  end.

Definition work (io : job_io) (h : t) : t :=
  match durable_pending h with
  | [] => h
  | j :: rest => run_job io j (set_durable rest (durable_closed h) h)
  end.

(** *** What the owner of the channel reads *)

(** [failures[0] if failures else None] *)
Definition first_failure (h : t) : option failure := head (DiagnosticList.items (failures h)).

Definition poll (clk : float) (transport_failure : option string) (h : t) : t * option failure :=
  let h1 :=
    match transport_failure with
    | Some what =>
        if nonempty what && negb (existsb (is_transport what) (DiagnosticList.items (failures h)))
        then fail (TransportFailed what) h else h
    | None => h
    end in
  match coordinator h1 with
  | None => (h1, first_failure h1)
  | Some c =>
      let '(c', terminal) := HeadDriver.poll clk c in
      let h2 := set_coordinator (Some c') h1 in
      match terminal with
      | Some why =>
          (if existsb (is_reason why) (DiagnosticList.items (failures h2)) then h2
           else fail (GenerationFailed why) h2, Some (GenerationFailed why))
      | None => (h2, first_failure h2)
      end
  end.

Definition rank_failure (clk : float) (transport_failure : option string) (h : t)
    : t * option failure :=
  let h1 := (poll clk transport_failure h).1 in (h1, first_failure h1).

(** The order of [sorted(projection.items())]: by component and instance. *)
Definition obs_le (a b : (string * string) * ComponentObservation.t) : Prop :=
  snap_key_le [a.1.1; a.1.2] [b.1.1; b.1.2].
#[local] Instance obs_le_dec : RelDecision obs_le.
Proof. intros a b. unfold obs_le. apply _. Defined.

Definition sorted_projection (m : projection) : list ComponentObservation.t :=
  (merge_sort obs_le (map_to_list m)).*2.

(** The property [observations]. *)
Definition observations (h : t) : list ComponentObservation.t :=
  sortedZ (elements (dom (observations_by_rank h))) ≫= fun rank =>
    sorted_projection (default ∅ (observations_by_rank h !! rank)).

Definition fresh (now max_age : float) (arrived : option float) : bool :=
  match arrived with
  | None => false
  | Some a => negb (Float.gtb (Float.sub now a) max_age)
  end.

(** [_require_positive_timeout] on a float. *)
Definition positive_timeout (x : float) : bool := Float.is_finite x && Float.gtb x Float.zero.

Definition current_observations (now : float) (rank : option Z) (role : option string)
    (max_age : option float) (h : t) : result head_exc (list ComponentObservation.t) :=
  _ ← raise_if (from_option (fun x => negb (positive_timeout x)) false max_age) BadTimeout;
  Ok ((match rank with
       | Some r => [r]
       | None => sortedZ (elements (dom (observations_by_rank h)))
       end) ≫= fun owner =>
        List.filter (fun o =>
            match role with
            | Some x => bool_decide (ComponentObservation.role o = x)
            | None => true
            end &&
            match max_age with
            | Some x => fresh now x (observation_arrivals h !! arrival_key owner (obs_key o))
            | None => true
            end)
          (sorted_projection (default ∅ (observations_by_rank h !! owner)))).

(** *** Start phases *)

(** What happens to one command: the shared deadline has passed, the call raises, or
    the listener answers. *)
Inductive call (A : Type) :=
| DeadlinePassed
| CallRaised
| Returned (a : A).
#[global] Arguments DeadlinePassed {A}.
#[global] Arguments CallRaised {A}.
#[global] Arguments Returned {A}.

(** How a loop over ranks ends: through all of them, or by [return n] or an exception. *)
Inductive loop_end :=
| Through
| Return (n : Z)
| Raise.

Definition START_OPERATIONS : list string := ["START"; "START_HEAD"; "START_WORKER"].

Fixpoint deliver_each (operation : string) (deliver : Z -> call bool) (sent : Z) (ranks : list Z)
    (h : t) : t * loop_end :=
  match ranks with
  | [] => (h, Through)
  | rank :: rest =>
      match deliver rank with
      | DeadlinePassed => (fail (DeliveryTimedOut operation rank) h, Return sent)
      | CallRaised => (h, Raise)
      | Returned false => (fail (Unreachable operation rank) h, Return sent)
      | Returned true => deliver_each operation deliver (sent + 1) rest h
      end
  end.

(** [result and result.get(...) == ...] for a start command. *)
Definition valid_start_result (operation : string) (r : option dict) : bool :=
  match r with
  | None => false
  | Some d =>
      py_eqb (attr "payload_version" d) (VInt 1) && is_str operation (attr "operation" d)
      && is_str "SUCCEEDED" (attr "status" d)
      && match attr "ok" d with VBool b => b | _ => false end
  end.

Fixpoint await_each (operation : string) (answer : Z -> call (option dict)) (ranks : list Z) (h : t)
    : t * loop_end :=
  match ranks with
  | [] => (h, Through)
  | rank :: rest =>
      match answer rank with
      | DeadlinePassed => (fail (AcknowledgmentTimedOut operation rank) h, Return 0)
      | CallRaised => (h, Raise)
      | Returned r =>
          if valid_start_result operation r then await_each operation answer rest h
          else (fail (InvalidResult operation rank) h, Return 0)
      end
  end.

(** [sessions_coordinator.start()] and [self._started = True]; a refusal returns [n]. *)
Definition close_barrier (finalize : bool) (refused sent : Z) (h : t) : t * option Z :=
  if negb finalize then (h, Some sent)
  else
    match coordinator h with
    | None => (set_started true h, Some sent)
    | Some c =>
        let '(c', (ok, why)) := SessionCoordinator.start c in
        let h1 := set_coordinator (Some c') h in
        if ok then (set_started true h1, Some sent)
        else (fail (TransitionRefused why) h1, Some refused)
    end.

(** [None] is an exception, which the callers record. *)
Definition send_start_phase (operation : string) (ranks : list Z) (deliver : Z -> call bool)
    (answer : Z -> call (option dict)) (finalize : bool) (h : t) : t * option Z :=
  if negb (bool_decide (operation ∈ START_OPERATIONS)) then (h, None)
  else
    match ranks with
    | [] => close_barrier finalize (-1) 0 h
    | _ =>
        match deliver_each operation deliver 0 ranks h with
        | (h1, Return n) => (h1, Some n)
        | (h1, Raise) => (h1, None)
        | (h1, Through) =>
            match await_each operation answer ranks h1 with
            | (h2, Return n) => (h2, Some n)
            | (h2, Raise) => (h2, None)
            | (h2, Through) => close_barrier finalize 0 (Z.of_nat (length ranks)) h2
            end
        end
    end.

(** [wait_all_registered]: its exceptions are recorded and read as [False]. *)
Definition wait_all_registered (barrier : call bool) (h : t) : t * bool :=
  match barrier with
  | Returned b => (h, b)
  | DeadlinePassed | CallRaised => (fail BarrierFailed h, false)
  end.

(** The gates in front of a start command: the listener's barrier, the coordinator's
    [may_start], and the deadline. *)
Definition start_gate (operation : string) (barrier : call bool) (late : bool) (h : t) : t * bool :=
  let '(h1, closed) := wait_all_registered barrier h in
  if negb closed then (fail (BarrierOpen operation) h1, false)
  else
    match (match coordinator h1 with
           | Some c => SessionCoordinator.may_start c
           | None => (true, AllRanksEstablished)
           end) with
    | (false, why) => (fail (StartRefused operation why) h1, false)
    | (true, _) => if late then (fail (DeadlineExhausted operation) h1, false) else (h1, true)
    end.

Definition start_head (barrier : call bool) (late : bool) (deliver : Z -> call bool)
    (answer : Z -> call (option dict)) (h : t) : t * bool :=
  let '(h1, open) := start_gate "START_HEAD" barrier late h in
  if negb open then (h1, false)
  else
    match send_start_phase "START_HEAD" [0] deliver answer false h1 with
    | (h2, Some n) => (h2, n =? 1)
    | (h2, None) => (fail (OperationFailed "START_HEAD") h2, false)
    end.

Definition start_workers (deliver : Z -> call bool) (answer : Z -> call (option dict)) (h : t)
    : t * Z :=
  match send_start_phase "START_WORKER" (seqZ 1 (expected_ranks h - 1)) deliver answer true h with
  | (h1, Some n) => (h1, n)
  | (h1, None) => (fail (OperationFailed "START_WORKER") h1, -1)
  end.

Definition broadcast_start (barrier : call bool) (late : bool) (deliver : Z -> call bool)
    (answer : Z -> call (option dict)) (h : t) : t * Z :=
  let '(h1, open) := start_gate "START" barrier late h in
  if negb open then (h1, 0)
  else
    match send_start_phase "START" (seqZ 0 (expected_ranks h1)) deliver answer true h1 with
    | (h2, Some n) => (h2, n)
    | (h2, None) => (fail (OperationFailed "START") h2, 0)
    end.

(** *** Shutdown *)

Definition valid_shutdown_result (operation : string) (r : option dict) : bool :=
  match r with
  | None => false
  | Some d =>
      is_str operation (attr "operation" d) && is_str "SUCCEEDED" (attr "status" d)
      && match attr "ok" d with VBool b => b | _ => false end
  end.

(** The loop over the ranks that took the command; [expected r] is whether the
    listener could mark the session for a GOODBYE, which raises otherwise. *)
Fixpoint acknowledge_each (operation : string) (results : Z -> option dict) (expected : Z -> bool)
    (ranks : list Z) (acked : list Z) (h : t) : t * option (list Z) :=
  match ranks with
  | [] => (h, Some acked)
  | rank :: rest =>
      if negb (valid_shutdown_result operation (results rank))
      then acknowledge_each operation results expected rest acked
             (fail (InvalidResult operation rank) h)
      else
        let h1 :=
          match coordinator h with
          | None => h
          | Some c => set_coordinator (Some (SessionCoordinator.request_drain rank c)) h
          end in
        if expected rank
        then acknowledge_each operation results expected rest (acked ++ [rank]) h1
        else (h1, None)
  end.

(** [targets]: the ranks that took the command. [None] is the [ValueError] of an
    unknown operation. *)
Definition broadcast_shutdown (operation : string) (targets : call (list Z))
    (results : call (Z -> option dict)) (expected : Z -> bool) (h : t) : t * option Z :=
  if negb (bool_decide (operation ∈ ["DRAIN"; "STOP"])) then (h, None)
  else
    match targets with
    | DeadlinePassed => (fail (DeadlineExhausted operation) h, Some 0)
    | CallRaised => (fail (OperationFailed operation) h, Some 0)
    | Returned sent =>
        let answers :=
          match results, sent with
          | Returned f, _ :: _ => Some f
          | DeadlinePassed, _ | Returned _, [] => Some (fun _ => None)
          | CallRaised, [] => Some (fun _ => None)
          | CallRaised, _ => None
          end in
        match answers with
        | None => (fail (OperationFailed operation) h, Some 0)
        | Some f =>
            match acknowledge_each operation f expected sent [] h with
            | (h1, None) => (fail (OperationFailed operation) h1, Some 0)
            | (h1, Some acked) =>
                let h2 := set_acknowledged (list_to_set acked) h1 in
                (if bool_decide (length acked = length sent) then h2
                 else fail (PartlyAcknowledged operation (Z.of_nat (length acked))
                              (Z.of_nat (length sent))) h2,
                 Some (Z.of_nat (length acked)))
            end
        end
    end.

(** [received] are the ranks whose GOODBYE has come when the wait ends, which is when
    all of them have or at the deadline. *)
Definition wait_shutdown_goodbyes (received : gset Z) (h : t) : t * Z :=
  let expected := shutdown_acknowledged_ranks h in
  let n := Z.of_nat (size (expected ∩ received)) in
  (if n =? Z.of_nat (size expected) then h
   else fail (GoodbyesMissing n (Z.of_nat (size expected))) h, n).

Definition has_store (h : t) : bool :=
  match ledger h with Some l => bool_decide (is_Some (Ledger.store l)) | None => false end.

(** [flush_durable_evidence] up to the wait for its future. *)
Definition flush_durable_evidence (h : t) : t * result head_exc unit :=
  if has_store h then submit_durable JFlush h else (h, Ok tt).

(** The worker runs everything that is queued. *)
Fixpoint drain (fuel : nat) (io : job_io) (h : t) : t :=
  match fuel with O => h | S n => drain n io (work io h) end.

(** The coroutine of [rank] waits for this job. *)
Definition awaits (rank : Z) (j : job B) : bool :=
  match j with JStage r _ | JCommit r _ => r =? rank | _ => false end.

(** [executor.shutdown(cancel_futures=True)]: the queued mutations that have not
    started are cancelled, and whoever waits for one of them is told so. *)
Definition cancel_futures (running : bool) (h : t) : t :=
  let kept := if running then take 1 (durable_pending h) else [] in
  let cancelled (rank : Z) (f : inflight B) : inflight B :=
    if existsb (awaits rank) kept then f
    else match if_phase f with
         | Staging => at_phase (StagedWith (Err Cancelled)) f
         | Committing => at_phase (CommittedWith (Err Cancelled)) f
         | _ => f
         end in
  set_snapshots (map_imap (fun rank f => Some (cancelled rank f)) (snapshots h))
    (set_durable kept true h).

Definition cancelled_phase (p : phase B) : phase B :=
  match p with
  | Staging | StagedWith _ => StagedWith (Err Cancelled)
  | Committing | CommittedWith _ => CommittedWith (Err Cancelled)
  end.

(** The listener's [stop] cancels the task of a connection. A waiting [_on_snapshot]
    is told so, and its queued mutation is cancelled with it, unless the worker is
    already running it: [Some io], and then it runs to its end. *)
Definition cancel_task (rank : Z) (running : option job_io) (h : t) : t :=
  if bool_decide (is_Some (snapshots h !! rank)) then
    let h1 :=
      match running, durable_pending h with
      | Some io, j :: _ => if awaits rank j then work io h else h
      | _, _ => h
      end in
    let h2 := set_durable (List.filter (fun j => negb (awaits rank j)) (durable_pending h1))
                (durable_closed h1) h1 in
    set_snapshots (alter (fun f => at_phase (cancelled_phase (if_phase f)) f) rank (snapshots h2)) h2
  else h.

(** [stop], once the listener has cancelled its tasks. The last future is waited for: [Some io] when everything queued runs in
    time, [None] at the deadline, when [running] is whether a mutation had started and
    the others are cancelled. A writer that was shut down takes no more work. *)
Definition stop (listener_ok : bool) (drained : option job_io) (running loop_ok : bool) (h : t)
    : t * bool :=
  match stopped h with
  | Some clean => (h, clean)
  | None =>
      let h1 := if listener_ok then h else fail (CleanupFailed "control listener") h in
      let '(h2, submitted) := if has_store h1 then submit_durable JFlush h1 else (h1, Ok tt) in
      let closed := set_durable (durable_pending h2) true h2 in
      let '(h3, writer_ok) :=
        match submitted, drained with
        | Ok _, Some io =>
            let h' := drain (length (durable_pending closed)) io closed in (h', durable_tail_ok h')
        | _, _ => (cancel_futures running h2, false)
        end in
      let h4 := if writer_ok then h3 else fail (CleanupFailed "durable receipt writer") h3 in
      let h5 := if loop_ok then h4 else fail (CleanupFailed "control loop") h4 in
      let clean := listener_ok && writer_ok && loop_ok in
      (set_stopped (Some clean) h5, clean)
  end.

(** *** Evidence for a launcher exit *)

Inductive evidence :=
| TypedFailure (f : failure) (exit_code : option Z)
| SessionDisappeared (rank : Z) (exit_code : option Z)
| NoTypedEvidence (exit_code : option Z).

(** [launcher_exit_evidence]: one element of [samples] per turn of the loop, the clock
    and the listener's failure; the wait ends with the last one. *)
Fixpoint launcher_exit_evidence (exit_code : option Z) (samples : list (float * option string))
    (h : t) : t * evidence :=
  match samples with
  | [] => (h, NoTypedEvidence exit_code)
  | (clk, transport_failure) :: rest =>
      let h1 := (poll clk transport_failure h).1 in
      match first_failure h1, head (unexpected_disconnects h1) with
      | Some f, _ => (h1, TypedFailure f exit_code)
      | None, Some rank => (h1, SessionDisappeared rank exit_code)
      | None, None => launcher_exit_evidence exit_code rest h1
      end
  end.

(** *** Runs *)

(** One callback, one turn of the worker, or one call of the owner. A rank whose
    coroutine waits for the writer has no other callback of its connection. *)
Inductive event :=
| EReceipt (rank : Z) (payload : value)
| EObservation (now : float) (rank : Z) (o : ComponentObservation.t)
| ERegister (clk : float) (rank : Z) (node instance : string)
| ESnapshot (rank : Z) (snapshot_id complete_hash : string) (items : list value)
| EResume (clk now : float) (rank : Z)
| EAck (clk : float) (rank : Z) (payload : dict)
| EViolation (rank : Z) (what : string)
| EHeartbeat (clk : float) (rank : Z)
| ESession (clk : float) (rank : Z) (connected goodbye : bool)
| EWork (io : job_io)
| EPoll (clk : float) (transport_failure : option string)
| EStartHead (barrier : call bool) (late : bool) (deliver : Z -> call bool)
    (answer : Z -> call (option dict))
| EStartWorkers (deliver : Z -> call bool) (answer : Z -> call (option dict))
| EStart (barrier : call bool) (late : bool) (deliver : Z -> call bool)
    (answer : Z -> call (option dict))
| EShutdown (operation : string) (targets : call (list Z)) (results : call (Z -> option dict))
    (expected : Z -> bool)
| EGoodbyes (received : gset Z)
| EFlush
| ECancel (rank : Z) (running : option job_io)
| EStop (listener_ok : bool) (drained : option job_io) (running loop_ok : bool).

Definition waiting (rank : Z) (h : t) : bool := bool_decide (is_Some (snapshots h !! rank)).

Definition step (ev : event) (h : t) : t :=
  match ev with
  | EReceipt rank payload => if waiting rank h then h else (on_receipt rank payload h).1
  | EObservation now rank o => if waiting rank h then h else (on_observation now rank o h).1
  | ERegister clk rank node instance =>
      if waiting rank h then h else (on_register clk rank node instance h).1
  | ESnapshot rank sid hash items =>
      if waiting rank h then h else (on_snapshot rank sid hash items h).1
  | EResume clk now rank => (resume clk now rank h).1
  | EAck clk rank payload => if waiting rank h then h else (on_snapshot_ack clk rank payload h).1
  | EViolation rank what => if waiting rank h then h else on_protocol_violation rank what h
  | EHeartbeat clk rank => if waiting rank h then h else on_heartbeat clk rank h
  | ESession clk rank connected goodbye =>
      if waiting rank h then h else (on_session_change clk rank connected goodbye h).1
  | EWork io => work io h
  | EPoll clk failure => (poll clk failure h).1
  | EStartHead barrier late deliver answer => (start_head barrier late deliver answer h).1
  | EStartWorkers deliver answer => (start_workers deliver answer h).1
  | EStart barrier late deliver answer => (broadcast_start barrier late deliver answer h).1
  | EShutdown operation targets results expected =>
      (broadcast_shutdown operation targets results expected h).1
  | EGoodbyes received => (wait_shutdown_goodbyes received h).1
  | EFlush => (flush_durable_evidence h).1
  | ECancel rank running => cancel_task rank running h
  | EStop a b c d => (stop a b c d h).1
  end.

Definition run (evs : list event) (h : t) : t := fold_left (fun h ev => step ev h) evs h.
End Head.
End HeadChannel.
