(* ===== verification/HeadLedgerProps.v ===== *)
(** The receipt ledger as the head channel uses it: untyped receipts are accepted as
    the typed receipts they validate to, a mutation for one rank leaves the evidence
    of the others alone, and a staged snapshot holds exactly the receipts of its
    payloads. *)

From S2P Require Import Prelude PyValue Atomic Envelopes Contracts Receipts ReceiptCodec ReceiptCodecProps Bindings BindingsProps Ledger LedgerProps Json NodeChannel Session HeadChannel.

Import Ledger.

Section RawLedger.
Context {B : Type} `{!BindingStore B}.
Context (canonical_hash : dict -> string) (ts : string -> bool).
Abbreviation ch := (compute_hash canonical_hash).
Abbreviation ledger_ok := (LedgerProps.ledger_ok ch ts).
Abbreviation evidence := (LedgerProps.evidence ch ts).
Abbreviation lreach := (LedgerProps.lreach ch ts).

(** ** Accepting an untyped receipt *)

(** Either a rejection is noted, or a [TypeError] leaves everything, or the typed
    receipt is accepted or refused by the ledger. *)
Lemma accept_raw_spec io raw rank node l l' res :
  accept_raw canonical_hash ts io raw rank node l = (l', res) ->
  (exists id why, l' = note_rejection l id why /\ res = Ok (false, why)) \/
  (l' = l /\ res = Err ReceiptTypeError) \/
  (exists r res', same_fields raw r /\
     accept ch ts io r None (Some rank) node false l = (l', res') /\
     res = match res' with Ok x => Ok x | Err e => Err (StoreFailed e) end).
Proof.
  unfold accept_raw. destruct (attr _ _) as [| | | |id| |]; try (intros [= <- <-]; left; eauto; fail).
  destruct (patch_requirements_for_plan _ _ _) as [req|[m]]; [|intros [= <- <-]; left; eauto].
  destruct (validate_raw _ _ _ _ _) as [r|[[m]|]] eqn:Hv;
    [|intros [= <- <-]; left; eauto|intros [= <- <-]; right; left; eauto].
  destruct (accept _ _ _ _ _ _ _ _ _) as [l1 res1] eqn:Ha. intros [= <- <-]. right. right.
  apply validate_raw_sound in Hv as [Hf _]. eauto.
Qed.

(** A slot that a rank session may fill. *)
Definition rank_slot (l : t B) (rank : Z) (k : string) : Prop :=
  exists slot, find_requirement (plan l) k = Some slot /\
    ReceiptRequirement.planned_rank slot = Some rank /\
    ReceiptRequirement.owner_scope slot <> "GLOBAL".

Lemma refusals_rank l r rank node :
  refusals l r (Some rank) node false = Ok tt ->
  Receipt.owner_rank r = Some rank /\ rank_slot l rank (Receipt.receipt_requirement_id r).
Proof.
  unfold refusals. intros H. apply bind_Ok in H as ([] & _ & H).
  destruct (find_requirement _ _) as [slot|] eqn:Hf; [|done].
  apply bind_Ok in H as ([] & Hs & H). unfold check_authority, refuse_if in H.
  unfold check_slot, refuse_if in Hs. res_inv. bool_prop.
  destruct (bool_decide (Receipt.owner_scope r = "GLOBAL")) eqn:Hg; [res_inv; done|].
  res_inv. bool_prop. split; [done|]. exists slot. split_and!; congruence.
Qed.

(** Whatever is held in such a slot belongs to the rank. *)
Lemma evidence_rank l rank k r :
  evidence l k r -> rank_slot l rank k -> Receipt.owner_rank r = Some rank.
Proof.
  intros [_ _ _ (slot & Hf & Hs & Ho)] (slot' & Hf' & Hp & Hg). simplify_eq.
  unfold check_slot, refuse_if in Hs. res_inv. bool_prop.
  destruct Ho as [[Hgl _]|(rk & _ & -> & Hrk)]; congruence.
Qed.

Lemma rank_slot_context l l' rank k : same_context l l' -> rank_slot l rank k -> rank_slot l' rank k.
Proof. unfold same_context, rank_slot. intros (-> & _ & _). done. Qed.

Lemma evidence_owner_slot l rank k r :
  evidence l k r -> Receipt.owner_rank r = Some rank -> rank_slot l rank k.
Proof.
  intros [_ _ _ (slot & Hf & Hs & Ho)] Hr. exists slot.
  unfold check_slot, refuse_if in Hs. res_inv. bool_prop.
  destruct Ho as [[_ Hn]|(rk & Hsc & Ho & Hrk)]; [congruence|].
  split_and!; congruence.
Qed.

(** What an accepted receipt leaves in the ledger. *)
Lemma accept_true io r rank node l l' m :
  ledger_ok l ->
  accept ch ts io r None (Some rank) node false l = (l', Ok (true, m)) ->
  rank_slot l rank (Receipt.receipt_requirement_id r) /\
  exists r', dget (Receipt.receipt_requirement_id r) (by_slot l') = Some r' /\
    Receipt.owner_rank r' = Some rank /\ Receipt.instance_id r' = Receipt.instance_id r /\
    (r' = r \/ dget (Receipt.receipt_requirement_id r) (by_slot l) = Some r').
Proof.
  intros Hok Ha. unfold accept in Ha.
  destruct (validated _ _ _ _ _) as [[]|[msg]]; [|discriminate].
  destruct (refusals _ _ _ _ _) as [[]|msg] eqn:Hr; [|discriminate].
  apply refusals_rank in Hr as [Hown Hslot]. split; [done|].
  assert (forall l0, install io r l0 = (l', Ok (true, m)) ->
            dget (Receipt.receipt_requirement_id r) (by_slot l') = Some r) as Hins.
  { intros l0. unfold install. destruct (with_store _ l0) as [l1 [u|e]]; [|done].
    intros [= <- <-]. apply dget_dset_eq. }
  unfold Receipt.slot_key in Ha.
  destruct (dget _ (by_slot l)) as [existing|] eqn:Hg; [|by eauto 8].
  destruct (bool_decide_reflect (Receipt.instance_id existing = Receipt.instance_id r)); [|by eauto 8].
  destruct (bool_decide _); [|discriminate]. injection Ha as <- <-.
  exists existing. split_and!; [done| |done|by right].
  eapply evidence_rank; [by apply Hok|done].
Qed.

(** ** Mutations for one rank *)

(** The evidence of [rank] is the same in both ledgers. *)
Definition same_owned (rank : Z) (l l' : t B) : Prop :=
  forall k, dget k (owned rank (by_slot l')) = dget k (owned rank (by_slot l)).

Lemma same_owned_slots rank l l' : by_slot l' = by_slot l -> same_owned rank l l'.
Proof. intros H k. by rewrite H. Qed.

Lemma accept_owned io r patches rank rank' node l l' res :
  ledger_ok l -> rank' <> rank ->
  accept ch ts io r patches (Some rank') node false l = (l', res) -> same_owned rank l l'.
Proof.
  intros Hok Hne Ha. pose proof Ha as Ha'.
  apply accept_frame in Ha as [_ [Hs|(Hs & _ & _ & Hr)]]; [by apply same_owned_slots|].
  apply accept_ok in Ha' as [Hok' _]; [|done]. apply refusals_rank in Hr as [Hown Hslot].
  intros k. rewrite !dget_owned, Hs, dget_dset by (apply Hok || apply Hok').
  destruct (decide _) as [<-|]; [|done]. rewrite decide_False by congruence.
  destruct (dget _ (by_slot l)) as [old|] eqn:Hg; [|done]. rewrite decide_False; [done|].
  rewrite (evidence_rank l rank' (Receipt.receipt_requirement_id r) old); [congruence|by apply Hok|done].
Qed.

Lemma drop_slots_other io items l l' res k :
  drop_slots io items l = (l', res) -> k ∉ dkeys items ->
  dget k (by_slot l') = dget k (by_slot l).
Proof.
  revert l. induction items as [|[k0 r0] items IH]; intros l; cbn [drop_slots].
  { by intros [= <- <-]. }
  destruct (with_store _ l) as [l1 r1] eqn:Hw. apply with_store_frame in Hw as [_ Hs].
  cbn [dkeys fmap list_fmap fst]. rewrite not_elem_of_cons. intros Hd [Hne Hni].
  destruct r1; [|injection Hd as <- <-; by rewrite Hs].
  rewrite (IH _ Hd Hni). cbn. rewrite dget_ddel, decide_False, Hs by congruence. done.
Qed.

Lemma drop_owned io rank rank' l l' res :
  ledger_ok l -> rank' <> rank -> drop_rank io rank' l = (l', res) -> same_owned rank l l'.
Proof.
  intros Hok Hne Hd. pose proof Hd as Hd'. apply (drop_rank_spec ch ts) in Hd' as (Hok' & _ & _); [|done].
  intros k. rewrite !dget_owned by (apply Hok || apply Hok').
  destruct (decide (k ∈ dkeys (owned rank' (by_slot l)))) as [Hin|Hni].
  - apply elem_of_owned in Hin as (r & Hg & Ho); [|apply Hok]. rewrite Hg.
    rewrite (decide_False (P := Receipt.owner_rank r = Some rank)) by congruence.
    destruct (dget k (by_slot l')) as [r'|] eqn:Hg'; [|done]. rewrite decide_False; [done|].
    apply (drop_slots_spec ch ts) in Hd as (Hc & _ & _).
    rewrite (evidence_rank l' rank' k r'); [congruence|by apply Hok'|].
    eapply rank_slot_context; [exact Hc|]. by eapply evidence_owner_slot; [apply Hok|].
  - by rewrite (drop_slots_other _ _ _ _ _ _ Hd Hni).
Qed.

Lemma commit_owned io1 io2 rank rank' cand l l' res :
  ledger_ok l -> ledger_ok cand -> same_context l cand -> rank' <> rank ->
  commit_rank_snapshot io1 io2 rank' cand l = (l', res) -> same_owned rank l l'.
Proof.
  intros Hok Hokc Hcc Hne Hc. pose proof Hc as Hc'.
  apply (commit_rank_spec ch ts) in Hc as (Hok' & _ & Hg); [|done..].
  destruct res as [[]|e].
  - intros k. rewrite !dget_owned, Hg by (done || apply Hok || apply Hok').
    rewrite dget_owned by apply Hokc.
    destruct (dget k (by_slot cand)) as [rc|] eqn:Ec; [destruct (decide _) as [Ho|]|].
    + rewrite decide_False by congruence.
      destruct (dget k (by_slot l)) as [old|] eqn:Hold; [|done]. rewrite decide_False; [done|].
      rewrite (evidence_rank l rank' k old); [congruence|by apply Hok|].
      eapply (rank_slot_context cand); [unfold same_context in *; intuition congruence|].
      by eapply evidence_owner_slot; [apply Hokc|].
    + destruct (decide _) as [Hin|]; [|done].
      apply elem_of_owned in Hin as (r & -> & Ho); [|apply Hok]. by rewrite decide_False by congruence.
    + destruct (decide _) as [Hin|]; [|done].
      apply elem_of_owned in Hin as (r & -> & Ho); [|apply Hok]. by rewrite decide_False by congruence.
  - apply same_owned_slots. unfold commit_rank_snapshot in Hc'.
    destruct (revoke_missing _ _ _ _) as [l1 r1] eqn:H1. apply revoke_missing_frame in H1 as [_ Hs1].
    destruct r1; [|injection Hc' as <- _; done].
    destruct (bind_changed _ _ _ _) as [l2 r2] eqn:H2. apply bind_changed_frame in H2 as [_ Hs2].
    destruct r2; [discriminate|]. injection Hc' as <- _. congruence.
Qed.

Lemma commit_rank_context io1 io2 rank cand (l l' : t B) res :
  commit_rank_snapshot io1 io2 rank cand l = (l', res) -> same_context l l'.
Proof.
  unfold commit_rank_snapshot. destruct (revoke_missing _ _ _ _) as [l1 r1] eqn:H1.
  apply revoke_missing_frame in H1 as [Hc1 _]. destruct r1; [|by intros [= <- _]].
  destruct (bind_changed _ _ _ _) as [l2 r2] eqn:H2. apply bind_changed_frame in H2 as [Hc2 _].
  destruct r2; intros [= <- _]; exact (same_context_trans _ _ _ Hc1 Hc2).
Qed.

Lemma drop_rank_context io rank (l l' : t B) res :
  drop_rank io rank l = (l', res) -> same_context l l'.
Proof. intros H. by apply (drop_slots_spec ch ts) in H as (Hc & _). Qed.

(** A commit of a rank's snapshot that returned makes its evidence the candidate's. *)
Lemma commit_own io1 io2 rank cand l l' :
  ledger_ok l -> ledger_ok cand -> same_context l cand ->
  commit_rank_snapshot io1 io2 rank cand l = (l', Ok tt) -> same_owned rank cand l'.
Proof.
  intros Hok Hokc Hcc Hc. apply (commit_rank_spec ch ts) in Hc as (Hok' & _ & Hg); [|done..].
  intros k. rewrite (dget_owned k rank (by_slot l')), Hg by (done || apply Hok').
  destruct (dget k (owned rank (by_slot cand))) as [r|] eqn:Hown.
  - rewrite dget_owned in Hown by apply Hokc. destruct (dget k (by_slot cand)); [|done].
    destruct (decide _); [|done]. simplify_eq. by rewrite decide_True.
  - destruct (decide _) as [|Hni]; [done|].
    destruct (dget k (by_slot l)) as [r|] eqn:Hgl; [|done]. rewrite decide_False; [done|].
    intros Ho. apply Hni, elem_of_owned; [apply Hok|eauto].
Qed.

(** ** Staging *)

Lemma accept_all_raw_typed rank node raws l cand :
  accept_all_raw canonical_hash ts rank node raws l = Ok (Ok cand) ->
  exists rs, Forall2 same_fields raws rs /\ accept_all ch ts rank node rs l = Ok cand.
Proof.
  revert l. induction raws as [|raw raws IH]; intros l; cbn [accept_all_raw].
  { intros [= <-]. by exists []. }
  destruct (accept_raw _ _ _ _ _ _ _) as [l1 res] eqn:Ha.
  apply accept_raw_spec in Ha as [(id & why & -> & ->)|[[-> ->]|(r & res' & Hf & Ha & ->)]]; try done.
  destruct res' as [[[] m]|e]; try done. intros (rs & Hall & Hrest)%IH.
  exists (r :: rs). split; [by constructor|]. cbn [accept_all]. by rewrite Ha.
Qed.

Lemma stage_raw_typed rank raws node l cand :
  stage_raw canonical_hash ts rank raws node l = Ok (Ok cand) ->
  exists rs, Forall2 same_fields raws rs /\ stage_rank_snapshot ch ts rank rs node l = Ok cand.
Proof. apply accept_all_raw_typed. Qed.

Lemma owned_lookup (l : t B) rank k r :
  ledger_ok l ->
  dget k (owned rank (by_slot l)) = Some r <->
  dget k (by_slot l) = Some r /\ Receipt.owner_rank r = Some rank.
Proof.
  intros Hok. rewrite dget_owned by apply Hok.
  destruct (dget k (by_slot l)) as [r'|]; [|naive_solver].
  destruct (decide _); naive_solver.
Qed.

Lemma accept_all_owned rank node rs (l l' : t B) :
  ledger_ok l -> accept_all ch ts rank node rs l = Ok l' ->
  (forall k r, dget k (owned rank (by_slot l')) = Some r ->
     r ∈ rs \/ dget k (owned rank (by_slot l)) = Some r) /\
  (forall k, is_Some (dget k (owned rank (by_slot l))) -> is_Some (dget k (owned rank (by_slot l')))) /\
  (forall r, r ∈ rs -> is_Some (dget (Receipt.receipt_requirement_id r) (owned rank (by_slot l')))).
Proof.
  revert l. induction rs as [|x rs IH]; intros l Hok; cbn [accept_all].
  { intros [= <-]. split_and!; [by right|done|by intros ? ?%not_elem_of_nil]. }
  destruct (accept _ _ _ _ _ _ _ _ _) as [l1 [[[] m]|e]] eqn:Ha; try done. intros Hrest.
  destruct (accept_ok _ _ _ _ _ _ _ _ _ _ _ Hok Ha) as [Hok1 _].
  destruct (accept_true _ _ _ _ _ _ _ Hok Ha) as (_ & r' & Hg1 & Ho1 & _ & Hsrc).
  apply accept_frame in Ha as [_ Hframe].
  destruct (IH l1 Hok1 Hrest) as (H1 & H2 & H3).
  assert (forall k r, dget k (owned rank (by_slot l1)) = Some r ->
            r = x \/ dget k (owned rank (by_slot l)) = Some r) as Hone.
  { intros k r [Hg Ho]%owned_lookup; [|done]. destruct Hframe as [Hs|(Hs & _)].
    - right. apply owned_lookup; [done|]. by rewrite <- Hs.
    - rewrite Hs, dget_dset in Hg. destruct (decide _); [naive_solver|]. right.
      by apply owned_lookup. }
  assert (forall k, is_Some (dget k (owned rank (by_slot l))) ->
            is_Some (dget k (owned rank (by_slot l1)))) as Hkeep.
  { intros k [r [Hg Ho]%owned_lookup]; [|done]. destruct Hframe as [Hs|(Hs & _)].
    - exists r. apply owned_lookup; [done|]. by rewrite Hs.
    - destruct (decide (Receipt.receipt_requirement_id x = k)) as [<-|Hne].
      + exists r'. by apply owned_lookup.
      + exists r. apply owned_lookup; [done|]. by rewrite Hs, dget_dset_ne. }
  split_and!.
  - intros k r [Hin|[->|Hl]%Hone]%H1; [left; by right|left; by left|by right].
  - intros k Hk. by apply H2, Hkeep.
  - intros r [->|Hin]%elem_of_cons; [|by apply H3]. apply H2. exists r'. by apply owned_lookup.
Qed.

(** A receipt for another slot leaves this one alone. *)
Lemma accept_all_other rank node rs (l l' : t B) k :
  accept_all ch ts rank node rs l = Ok l' ->
  Forall (fun r => Receipt.receipt_requirement_id r <> k) rs ->
  dget k (by_slot l') = dget k (by_slot l).
Proof.
  revert l. induction rs as [|x rs IH]; intros l; cbn [accept_all]; [by intros [= <-]|].
  destruct (accept _ _ _ _ _ _ _ _ _) as [l1 [[[] m]|e]] eqn:Ha; try done.
  intros Hrest [Hx Hrs]%Forall_cons. rewrite (IH l1 Hrest Hrs).
  apply accept_frame in Ha as [_ [->|(-> & _)]]; [done|]. by rewrite dget_dset_ne.
Qed.

(** The last receipt listed for a slot decides which instance fills it. *)
Lemma accept_all_last rank node pre r post (l l' : t B) :
  ledger_ok l -> accept_all ch ts rank node (pre ++ r :: post) l = Ok l' ->
  Forall (fun x => Receipt.receipt_requirement_id x <> Receipt.receipt_requirement_id r) post ->
  exists r', dget (Receipt.receipt_requirement_id r) (by_slot l') = Some r' /\
    Receipt.instance_id r' = Receipt.instance_id r.
Proof.
  revert l. induction pre as [|x pre IH]; intros l Hok; cbn [app accept_all];
    destruct (accept _ _ _ _ _ _ _ _ _) as [l1 [[[] m]|e]] eqn:Ha; try done; intros Hrest Hpost.
  - rewrite (accept_all_other _ _ _ _ _ _ Hrest Hpost).
    destruct (accept_true _ _ _ _ _ _ _ Hok Ha) as (_ & r' & Hg & _ & Hi & _). eauto.
  - apply (IH l1); [|done..]. by eapply accept_ok in Ha as [? _].
Qed.

Lemma drop_slots_no_store io items (l : t B) :
  store l = None -> (drop_slots io items l).2 = Ok tt.
Proof.
  revert l. induction items as [|[k r] items IH]; intros l Hs; cbn [drop_slots]; [done|].
  unfold with_store. rewrite Hs. by apply IH.
Qed.

(** A staged snapshot holds exactly the receipts it was staged from. *)
Lemma stage_owned rank rs node (l cand : t B) :
  ledger_ok l -> stage_rank_snapshot ch ts rank rs node l = Ok cand ->
  (forall k r, dget k (owned rank (by_slot cand)) = Some r -> r ∈ rs) /\
  (forall r, r ∈ rs -> is_Some (dget (Receipt.receipt_requirement_id r) (owned rank (by_slot cand)))).
Proof.
  intros Hok. unfold stage_rank_snapshot.
  pose proof (drop_slots_no_store (fun _ => Io (Store.barrier_done, Store.barrier_done) Float.zero)
                (owned rank (by_slot (set_store None l))) (set_store None l) eq_refl) as Hres.
  destruct (drop_rank _ _ _) as [l1 res] eqn:Hd. cbn [fst]. intros Ha.
  assert (res = Ok tt) as -> by (unfold drop_rank in Hd; by rewrite Hd in Hres).
  apply (drop_rank_spec ch ts) in Hd as (Hok1 & _ & Hg); [|by eapply (ledger_ok_same _ _ l)].
  destruct (accept_all_owned _ _ _ _ _ Hok1 Ha) as (H1 & _ & H3). split; [|done].
  intros k r [?|[Hgl Ho]%owned_lookup]%H1; [done| |done]. exfalso.
  rewrite Hg in Hgl by done. destruct (dget k _) as [r'|]; [|done].
  destruct (decide _); [done|]. congruence.
Qed.

(** The candidate was staged by this generation from these payloads. *)
Definition staged_from (l0 : t B) (rank : Z) (payloads : list value) (cand : t B) : Prop :=
  exists staged_on raws rs node,
    lreach false l0 staged_on /\ decode_receipts payloads = Ok raws /\
    Forall2 same_fields raws rs /\
    stage_rank_snapshot ch ts rank rs node staged_on = Ok cand.

Lemma staged_from_ok l0 rank payloads cand :
  empty_ledger l0 -> staged_from l0 rank payloads cand -> ledger_ok cand /\ same_context l0 cand.
Proof.
  intros He (l & raws & rs & node & Hr & _ & _ & Hst).
  destruct (lreach_ok _ _ _ _ _ He Hr) as [Hok Hc].
  destruct (stage_ok _ _ _ _ _ _ _ Hok Hst) as [Hokc Hcc].
  split; [done|exact (same_context_trans _ _ _ Hc Hcc)].
Qed.

Lemma decode_receipts_spec payloads raws :
  decode_receipts payloads = Ok raws ->
  Forall2 (fun p raw => receipt_from_dict p = Ok raw) payloads raws.
Proof.
  revert raws. induction payloads as [|p ps IH]; intros raws; cbn [decode_receipts].
  { intros [= <-]. constructor. }
  destruct (receipt_from_dict p) as [raw|[m]] eqn:Hd; [|done].
  intros H. apply bind_Ok in H as (rest & Hr & [= <-]). constructor; auto.
Qed.

(** The rank's evidence is exactly what these payloads say: every receipt held was
    decoded from one of them, and every one of them fills its slot. *)
Definition evidence_of (rank : Z) (payloads : list value) (l : t B) : Prop :=
  (forall k r, dget k (by_slot l) = Some r -> Receipt.owner_rank r = Some rank ->
     exists p raw, p ∈ payloads /\ receipt_from_dict p = Ok raw /\ same_fields raw r) /\
  (forall p, p ∈ payloads -> exists raw k r, receipt_from_dict p = Ok raw /\
     attr "receipt_requirement_id" (raw_data raw) = VStr k /\
     dget k (by_slot l) = Some r /\ Receipt.owner_rank r = Some rank).

Lemma staged_evidence l0 rank payloads cand l :
  empty_ledger l0 -> staged_from l0 rank payloads cand -> ledger_ok l ->
  same_owned rank cand l -> evidence_of rank payloads l.
Proof.
  intros He Hst Hok Hown. destruct (staged_from_ok _ _ _ _ He Hst) as [Hokc _].
  destruct Hst as (l1 & raws & rs & node & Hr & Hd & Hf & Hst).
  destruct (lreach_ok _ _ _ _ _ He Hr) as [Hok1 _].
  destruct (stage_owned _ _ _ _ _ Hok1 Hst) as [Hfrom Hto].
  apply decode_receipts_spec in Hd. split.
  - intros k r Hg Ho.
    assert (dget k (owned rank (by_slot cand)) = Some r) as Hc
      by (rewrite <- Hown; by apply owned_lookup).
    apply Hfrom in Hc. apply list_elem_of_lookup in Hc as [i Hi].
    destruct (Forall2_lookup_r _ _ _ _ _ Hf Hi) as (raw & Hraw & Hsame).
    destruct (Forall2_lookup_r _ _ _ _ _ Hd Hraw) as (p & Hp & Hdec).
    exists p, raw. split; [by eapply list_elem_of_lookup_2|done].
  - intros p Hp. apply list_elem_of_lookup in Hp as [i Hi].
    destruct (Forall2_lookup_l _ _ _ _ _ Hd Hi) as (raw & Hraw & Hdec).
    destruct (Forall2_lookup_l _ _ _ _ _ Hf Hraw) as (r & Hr' & Hsame).
    destruct (Hto r) as [r' Hr2]; [by eapply list_elem_of_lookup_2|].
    rewrite <- Hown in Hr2. apply owned_lookup in Hr2 as [Hg Ho]; [|done].
    exists raw, (Receipt.receipt_requirement_id r), r'. split_and!; try done.
    destruct Hsame as [_ Hsame]. rewrite Hsame; [done|by field_in|done..].
Qed.
End RawLedger.
