(* ===== verification/HeadChannelProps.v ===== *)
(** The diagnostics of the head channel: its bounded lists keep their bound and, where
    they are told to, their first element, and what it means that an operation only
    adds to them ([grows]). *)

From S2P Require Import Prelude PyValue Contracts Ledger HeadChannel.

(** ** Diagnostic lists *)

Module DiagnosticProps.
Import DiagnosticList.
Section Lists.
Context {A : Type}.
Implicit Types l : t A.

Lemma append_length l x :
  (length (items l) <= MAX_HEAD_DIAGNOSTIC_RECORDS)%nat ->
  (length (items (append l x)) <= MAX_HEAD_DIAGNOSTIC_RECORDS)%nat.
Proof.
  unfold append. destruct (Nat.ltb_spec (length (items l)) MAX_HEAD_DIAGNOSTIC_RECORDS) as [Hlt|Hge];
    cbn [items]; rewrite length_app; cbn [length]; [lia|].
  assert (1 < MAX_HEAD_DIAGNOSTIC_RECORDS)%nat by (unfold MAX_HEAD_DIAGNOSTIC_RECORDS; lia).
  unfold make_room. destruct (preserve_first l).
  - destruct (items l) as [|a [|b r]]; cbn in *; lia.
  - destruct (items l) as [|a r]; cbn in *; lia.
Qed.

Lemma append_head l x f :
  preserve_first l = true -> head (items l) = Some f -> head (items (append l x)) = Some f.
Proof.
  unfold append, make_room. intros -> Hh.
  destruct (_ <? _)%nat; cbn [items]; destruct (items l) as [|a [|b r]]; cbn in *; done.
Qed.

Lemma append_preserve l x : preserve_first (append l x) = preserve_first l.
Proof. unfold append. by destruct (_ <? _)%nat. Qed.

Lemma append_some l x : is_Some (head (items (append l x))).
Proof.
  unfold append. destruct (_ <? _)%nat; cbn [items]; [|destruct (make_room _ _); cbn; eauto].
  destruct (items l); cbn; eauto.
Qed.

Lemma extend_length l xs :
  (length (items l) <= MAX_HEAD_DIAGNOSTIC_RECORDS)%nat ->
  (length (items (extend l xs)) <= MAX_HEAD_DIAGNOSTIC_RECORDS)%nat.
Proof.
  revert l. induction xs as [|x xs IH]; intros l Hl; [done|]. by apply (IH (append l x)), append_length.
Qed.

Lemma extend_preserve l xs : preserve_first (extend l xs) = preserve_first l.
Proof.
  revert l. induction xs as [|x xs IH]; intros l; [done|].
  etransitivity; [apply (IH (append l x))|apply append_preserve].
Qed.

Lemma extend_head l xs f :
  preserve_first l = true -> head (items l) = Some f -> head (items (extend l xs)) = Some f.
Proof.
  revert l. induction xs as [|x xs IH]; intros l Hp Hh; [done|].
  apply (IH (append l x)); [by rewrite append_preserve|by apply append_head].
Qed.

Lemma extend_some l xs : is_Some (head (items l)) -> is_Some (head (items (extend l xs))).
Proof.
  revert l. induction xs as [|x xs IH]; intros l Hl; [done|]. apply (IH (append l x)), append_some.
Qed.

Lemma extend_app l xs ys : extend l (xs ++ ys) = extend (extend l xs) ys.
Proof. apply fold_left_app. Qed.
End Lists.
End DiagnosticProps.

Import HeadChannel.
Create HintDb head.

Section Frames.
Context {B : Type} `{!BindingStore B}.
Implicit Types h : HeadChannel.t (B := B).

(** ** What every operation does to the diagnostics *)

Definition extends {A} (l l' : DiagnosticList.t A) : Prop :=
  exists xs, l' = DiagnosticList.extend l xs.

#[global] Instance extends_preorder {A} : PreOrder (@extends A).
Proof.
  split; [by exists []|]. intros l1 l2 l3 [xs ->] [ys ->]. exists (xs ++ ys).
  by rewrite DiagnosticProps.extend_app.
Qed.

Lemma extends_append {A} (l : DiagnosticList.t A) x : extends l (DiagnosticList.append l x).
Proof. by exists [x]. Qed.

Record grows h h' : Prop := Grows {
  gr_failures : extends (failures h) (failures h');
  gr_payloads : extends (receipt_payloads h) (receipt_payloads h');
  gr_rejections : extends (receipt_rejections h) (receipt_rejections h');
  gr_disconnected : extends (disconnected h) (disconnected h');
}.

#[global] Instance grows_preorder : PreOrder grows.
Proof.
  split; [by intros h; split|].
  intros h1 h2 h3 [] []; split; by etransitivity.
Qed.

(** [grows] through the setters. *)
Lemma grows_same h h1 h2 :
  grows h h1 -> failures h2 = failures h1 -> receipt_payloads h2 = receipt_payloads h1 ->
  receipt_rejections h2 = receipt_rejections h1 -> disconnected h2 = disconnected h1 -> grows h h2.
Proof. intros [????] Hf Hp Hr Hd; split; congruence. Qed.

Lemma grows_fail h h1 f : grows h h1 -> grows h (fail f h1).
Proof. intros []; split; [|done..]. etransitivity; [done|apply extends_append]. Qed.
Lemma grows_reject h h1 r : grows h h1 -> grows h (reject_receipt r h1).
Proof. intros []; split; [done..| |done]. etransitivity; [done|apply extends_append]. Qed.
Lemma grows_payloads h h1 ps :
  grows h h1 -> extends (receipt_payloads h1) ps -> grows h (set_payloads ps h1).
Proof. intros [] He; split; [done| |done..]. etransitivity; [done|exact He]. Qed.
Lemma grows_disconnect h h1 r u :
  grows h h1 -> grows h (set_disconnects (DiagnosticList.append (disconnected h1) r) u h1).
Proof. intros []; split; [done..|]. etransitivity; [done|apply extends_append]. Qed.
Lemma grows_coordinator h h1 x : grows h h1 -> grows h (set_coordinator x h1).
Proof. intros; by eapply grows_same. Qed.
Lemma grows_ledger h h1 x : grows h h1 -> grows h (set_ledger x h1).
Proof. intros; by eapply grows_same. Qed.
Lemma grows_observations h h1 x y : grows h h1 -> grows h (set_observations x y h1).
Proof. intros; by eapply grows_same. Qed.
Lemma grows_acknowledged h h1 x : grows h h1 -> grows h (set_acknowledged x h1).
Proof. intros; by eapply grows_same. Qed.
Lemma grows_started h h1 x : grows h h1 -> grows h (set_started x h1).
Proof. intros; by eapply grows_same. Qed.
Lemma grows_durable h h1 x y : grows h h1 -> grows h (set_durable x y h1).
Proof. intros; by eapply grows_same. Qed.
Lemma grows_tail h h1 x : grows h h1 -> grows h (set_tail_ok x h1).
Proof. intros; by eapply grows_same. Qed.
Lemma grows_snapshots h h1 x : grows h h1 -> grows h (set_snapshots x h1).
Proof. intros; by eapply grows_same. Qed.
Lemma grows_stopped h h1 x : grows h h1 -> grows h (set_stopped x h1).
Proof. intros; by eapply grows_same. Qed.
Lemma grows_undisconnect h h1 u : grows h h1 -> grows h (set_disconnects (disconnected h1) u h1).
Proof. intros; by eapply grows_same. Qed.
Lemma head_grows_refl h : grows h h.
Proof. reflexivity. Qed.
End Frames.

#[export] Hint Resolve grows_fail grows_reject grows_payloads grows_disconnect
  grows_coordinator grows_ledger grows_observations grows_acknowledged grows_started grows_durable
  grows_tail grows_snapshots grows_stopped grows_undisconnect head_grows_refl : head.

(** Split every case of a goal on the head and let the setters' lemmas close it. *)
Ltac head_cases :=
  repeat (first
    [ progress cbn [fst snd negb]
    | match goal with
      | |- context [match ?x with _ => _ end] =>
          lazymatch x with context [match _ with _ => _ end] => fail | _ => destruct x eqn:? end
      end ]);
  simplify_eq; eauto 8 with head.
