(* ===== verification/HeadMoves.v ===== *)
(** Every event of the head channel as a sequence of atomic moves, so that an invariant
    of the writer's queue, of the waiting snapshots or of the projection is proved once
    per move. [quiet] steps touch the diagnostics, the coordinator and the flags only. *)

From S2P Require Import Prelude PyValue Atomic Json Envelopes Contracts Snapshots NodeChannel Session Receipts ReceiptCodec Bindings Ledger LedgerProps HeadChannel HeadLedgerProps HeadChannelProps.

Import HeadChannel.

(** The rank for which a queued mutation changes evidence. *)
Definition job_rank {B} (j : job B) : option Z :=
  match j with
  | JAccept rank _ _ _ | JDrop rank | JStage rank _ | JCommit rank _ => Some rank
  | JFlush => None
  end.

(** The rank whose connection causes an event. *)
Definition actor (ev : event) : option Z :=
  match ev with
  | EReceipt rank _ | EObservation _ rank _ | ERegister _ rank _ _ | ESnapshot rank _ _ _
  | EResume _ _ rank | EAck _ rank _ | EViolation rank _ | EHeartbeat _ rank | ESession _ rank _ _
  | ECancel rank _ => Some rank
  | _ => None
  end.

(** The future the coroutine waits for is done. *)
Definition settled {B} (p : phase B) : bool :=
  match p with StagedWith _ | CommittedWith _ => true | Staging | Committing => false end.

Section Quiet.
Context {B : Type} `{!BindingStore B}.
Implicit Types h : HeadChannel.t (B := B).

Record quiet h h' : Prop := Quiet {
  q_ranks : expected_ranks h' = expected_ranks h;
  q_coordinator : is_Some (coordinator h') <-> is_Some (coordinator h);
  q_ledger : ledger h' = ledger h;
  q_pending : durable_pending h' = durable_pending h;
  q_closed : durable_closed h' = durable_closed h;
  q_snapshots : snapshots h' = snapshots h;
  q_observations : observations_by_rank h' = observations_by_rank h;
  q_arrivals : observation_arrivals h' = observation_arrivals h;
  q_unexpected : NoDup (unexpected_disconnects h) -> NoDup (unexpected_disconnects h');
  q_grows : grows h h'
}.

#[global] Instance quiet_preorder : PreOrder quiet.
Proof.
  split; [by intros h; split|]. intros h1 h2 h3 [] []; split; try congruence; [|by auto|];
    etransitivity; eassumption.
Qed.

Lemma quiet_refl h : quiet h h.
Proof. reflexivity. Qed.
Lemma quiet_fail h h1 f : quiet h h1 -> quiet h (fail f h1).
Proof. intros []; split; auto with head. Qed.
Lemma quiet_reject h h1 r : quiet h h1 -> quiet h (reject_receipt r h1).
Proof. intros []; split; auto with head. Qed.
Lemma quiet_payload h h1 p :
  quiet h h1 -> quiet h (set_payloads (DiagnosticList.append (receipt_payloads h1) p) h1).
Proof. intros []; split; auto using extends_append with head. Qed.
Lemma quiet_payloads h h1 ps :
  quiet h h1 -> quiet h (set_payloads (DiagnosticList.extend (receipt_payloads h1) ps) h1).
Proof. intros []; split; auto with head. apply grows_payloads; [done|by eexists]. Qed.
Lemma quiet_coordinator h h1 c c' :
  coordinator h1 = Some c -> quiet h h1 -> quiet h (set_coordinator (Some c') h1).
Proof.
  intros Hc []; split; auto with head. rewrite <- q_coordinator0, Hc. cbn. split; eauto.
Qed.
Lemma quiet_acknowledged h h1 x : quiet h h1 -> quiet h (set_acknowledged x h1).
Proof. intros []; split; auto with head. Qed.
Lemma quiet_started h h1 x : quiet h h1 -> quiet h (set_started x h1).
Proof. intros []; split; auto with head. Qed.
Lemma quiet_tail h h1 x : quiet h h1 -> quiet h (set_tail_ok x h1).
Proof. intros []; split; auto with head. Qed.
Lemma quiet_stopped h h1 x : quiet h h1 -> quiet h (set_stopped x h1).
Proof. intros []; split; auto with head. Qed.
Lemma quiet_snapshots x h h1 : quiet h h1 -> quiet (set_snapshots x h) (set_snapshots x h1).
Proof. intros [????????? []]; by split. Qed.

Lemma quiet_note rank c g h h1 : quiet h h1 -> quiet h (note_session rank c g h1).
Proof.
  intros Hq. etransitivity; [exact Hq|]. clear Hq. unfold note_session. destruct c.
  { split; auto with head. cbn. intros. by apply NoDup_filter. }
  set (h2 := set_disconnects _ _ h1).
  assert (quiet h1 h2) as Hq.
  { split; try (unfold h2; auto with head; fail). cbn. intros Hn. destruct g; cbn; [done|].
    destruct (bool_decide_reflect (rank ∈ unexpected_disconnects h1)) as [|Hni]; [done|].
    cbn. apply NoDup_app. split_and!; [done| |by apply NoDup_singleton].
    intros x Hx ->%list_elem_of_singleton. done. }
  destruct (coordinator h1); [done|by apply quiet_fail].
Qed.
End Quiet.

#[export] Hint Resolve quiet_refl quiet_fail quiet_reject quiet_payload quiet_payloads quiet_coordinator
  quiet_acknowledged quiet_started quiet_tail quiet_stopped quiet_note : head.

Section QuietOps.
Context {B : Type} `{!BindingStore B}.
Implicit Types h : HeadChannel.t (B := B).

Lemma record_quiet rank os h h1 :
  quiet h h1 -> quiet h (fold_left (record_observation_failure rank) os h1).
Proof.
  revert h1. induction os as [|o os IH]; intros h1 Hq; [done|]. apply IH.
  unfold record_observation_failure. destruct (bool_decide _); auto with head.
Qed.

Lemma deliver_quiet op deliver n ranks h h1 :
  quiet h h1 -> quiet h (deliver_each op deliver n ranks h1).1.
Proof. revert n. induction ranks; intros; cbn [deliver_each]; head_cases. Qed.

Lemma await_quiet op answer ranks h h1 : quiet h h1 -> quiet h (await_each op answer ranks h1).1.
Proof. induction ranks; intros; cbn [await_each]; head_cases. Qed.

Lemma acknowledge_quiet op results expected ranks acked h h1 :
  quiet h h1 -> quiet h (acknowledge_each op results expected ranks acked h1).1.
Proof. revert acked h1. induction ranks; intros; cbn [acknowledge_each]; head_cases. Qed.

Lemma close_quiet fin n m h h1 : quiet h h1 -> quiet h (close_barrier fin n m h1).1.
Proof. intros. unfold close_barrier. head_cases. Qed.

Lemma send_quiet op ranks deliver answer fin h h1 :
  quiet h h1 -> quiet h (send_start_phase op ranks deliver answer fin h1).1.
Proof.
  intros Hg. unfold send_start_phase. destruct (negb _); [done|].
  destruct ranks as [|r ranks]; [by apply close_quiet|].
  apply (deliver_quiet op deliver 0 (r :: ranks)) in Hg.
  destruct (deliver_each _ _ _ _ _) as [h2 []]; [|done..].
  apply (await_quiet op answer (r :: ranks)) in Hg.
  destruct (await_each _ _ _ _) as [h3 []]; [|done..]. by apply close_quiet.
Qed.

Lemma gate_quiet op barrier late h h1 : quiet h h1 -> quiet h (start_gate op barrier late h1).1.
Proof. intros. unfold start_gate, wait_all_registered. head_cases. Qed.

Lemma poll_quiet clk f h h1 : quiet h h1 -> quiet h (poll clk f h1).1.
Proof.
  intros. unfold poll.
  set (h2 := match f with Some _ => _ | None => _ end).
  assert (quiet h h2) by (unfold h2; head_cases). head_cases.
Qed.

Lemma start_head_quiet barrier late deliver answer h :
  quiet h (start_head barrier late deliver answer h).1.
Proof.
  unfold start_head. pose proof (gate_quiet "START_HEAD" barrier late h h (quiet_refl h)) as Hg.
  destruct (start_gate _ _ _ _) as [h1 []]; cbn [negb fst] in *; [|done].
  apply (send_quiet "START_HEAD" [0] deliver answer false) in Hg.
  destruct (send_start_phase _ _ _ _ _ _) as [h2 []]; cbn [fst] in *; auto with head.
Qed.

Lemma start_workers_quiet deliver answer h : quiet h (start_workers deliver answer h).1.
Proof.
  unfold start_workers.
  pose proof (send_quiet "START_WORKER" (seqZ 1 (expected_ranks h - 1)) deliver answer true h h
                (quiet_refl h)) as Hg.
  destruct (send_start_phase _ _ _ _ _ _) as [h2 []]; cbn [fst] in *; auto with head.
Qed.

Lemma broadcast_start_quiet barrier late deliver answer h :
  quiet h (broadcast_start barrier late deliver answer h).1.
Proof.
  unfold broadcast_start. pose proof (gate_quiet "START" barrier late h h (quiet_refl h)) as Hg.
  destruct (start_gate _ _ _ _) as [h1 []]; cbn [negb fst] in *; [|done].
  apply (send_quiet "START" (seqZ 0 (expected_ranks h1)) deliver answer true) in Hg.
  destruct (send_start_phase _ _ _ _ _ _) as [h2 []]; cbn [fst] in *; auto with head.
Qed.

Lemma shutdown_quiet operation targets results expected h :
  quiet h (broadcast_shutdown operation targets results expected h).1.
Proof.
  unfold broadcast_shutdown. destruct (negb _); [apply quiet_refl|].
  destruct targets as [| |sent]; cbn [fst]; [auto with head..|].
  destruct (match results with Returned _ => _ | _ => _ end) as [f|]; [|cbn; auto with head].
  pose proof (acknowledge_quiet operation f expected sent [] h h (quiet_refl h)) as Hg.
  destruct (acknowledge_each _ _ _ _ _ _) as [h1 []]; cbn [fst] in *; [|auto with head].
  destruct (bool_decide _); auto with head.
Qed.
End QuietOps.

(** ** Moves *)

Section Moves.
Context {B : Type} `{!BindingStore B}.
Context (canonical_hash : dict -> string) (snapshot_hash : list value -> string).
Context (ts : string -> bool).
Implicit Types h : HeadChannel.t (B := B).
Abbreviation step := (HeadChannel.step canonical_hash snapshot_hash ts).
Abbreviation run := (HeadChannel.run canonical_hash snapshot_hash ts).
Abbreviation work := (HeadChannel.work canonical_hash ts).

(** What the coroutine of a rank has in hand comes from its snapshot's items. *)
Record snapshot_of h (rank : Z) (f : inflight B) : Prop := SnapshotOf {
  so_receipts : if_receipts f = NodeChannel.bodies "receipt" (if_items f);
  so_supervisor : existsb (fun p => is_str (supervisor_requirement rank)
                             (body_attr "receipt_requirement_id" p)) (if_receipts f) = true;
  so_observations :
    fold_res stage_observation ∅ (NodeChannel.bodies "observation" (if_items f))
    = Ok (if_observations f);
  so_contract : forall k o, if_observations f !! k = Some o -> observation_contract_reason h rank o = None
}.

Definition has_room h : Prop :=
  durable_closed h = false /\ Z.of_nat (length (durable_pending h)) < durable_limit h.

Definition enqueue (j : job B) h : HeadChannel.t := set_durable (durable_pending h ++ [j]) false h.

Definition snapshot_arrivals (now : float) (rank : Z) (f : inflight B) h
    : gmap (Z * string * string) float :=
  map_fold (fun k _ m => <[arrival_key rank k := now]> m)
    (without_rank rank (observation_arrivals h)) (if_observations f).

Inductive move (who : option Z) : HeadChannel.t (B := B) -> HeadChannel.t (B := B) -> Prop :=
| MQuiet h h' : quiet h h' -> move who h h'
| MSubmit j h :
    has_room h -> (forall r, awaits r j = false) -> (job_rank j = None \/ job_rank j = who) ->
    (forall r, who = Some r -> snapshots h !! r = None) -> move who h (enqueue j h)
| MClose h : move who h (set_durable (durable_pending h) true h)
| MObserve rank o now h :
    who = Some rank -> observation_contract_reason h rank o = None ->
    move who h (set_observations
      (<[rank := <[obs_key o := o]> (default ∅ (observations_by_rank h !! rank))]>
         (observations_by_rank h))
      (<[arrival_key rank (obs_key o) := now]> (observation_arrivals h)) h)
| MForgetObservations rank h : who = Some rank -> move who h (drop_observations rank h)
| MStage rank f h :
    who = Some rank -> has_room h -> snapshots h !! rank = None -> snapshot_of h rank f ->
    if_phase f = Staging ->
    move who h (set_snapshots (<[rank := f]> (snapshots h)) (enqueue (JStage rank (if_receipts f)) h))
| MCommit rank f cand h :
    who = Some rank -> has_room h -> snapshots h !! rank = Some f ->
    if_phase f = StagedWith (Ok (Ok (Some cand))) ->
    move who h (set_snapshots (<[rank := at_phase Committing f]> (snapshots h))
                  (enqueue (JCommit rank cand) h))
| MForget rank f h :
    who = Some rank -> snapshots h !! rank = Some f -> settled (if_phase f) = true ->
    move who h (forget_snapshot rank h)
| MInstall now rank f h :
    who = Some rank -> snapshots h !! rank = Some f ->
    (if_phase f = StagedWith (Ok (Ok None)) \/ if_phase f = CommittedWith (Ok tt)) ->
    move who h (forget_snapshot rank
      (set_observations (<[rank := if_observations f]> (observations_by_rank h))
         (snapshot_arrivals now rank f h) h))
| MWork io h : move who h (work io h)
| MCancel rank h :
    who = Some rank -> is_Some (snapshots h !! rank) ->
    move who h
      (set_snapshots (alter (fun f => at_phase (cancelled_phase (if_phase f)) f) rank (snapshots h))
         (set_durable (List.filter (fun j => negb (awaits rank j)) (durable_pending h))
            (durable_closed h) h))
| MCancelAll running what h : move who h (fail (CleanupFailed what) (cancel_futures running h)).

Abbreviation moves who := (rtc (move who)).

Lemma moves_quiet who h h' : quiet h h' -> moves who h h'.
Proof. intros. by apply rtc_once, MQuiet. Qed.

Lemma moves_then who h h1 h2 : moves who h h1 -> quiet h1 h2 -> moves who h h2.
Proof. intros H1 H2. etransitivity; [exact H1|by apply moves_quiet]. Qed.

Lemma submit_room j h h' : submit_durable j h = (h', Ok tt) -> has_room h /\ h' = enqueue j h.
Proof.
  unfold submit_durable, has_room, enqueue. destruct (durable_closed h); [done|].
  destruct (Z.leb_spec (durable_limit h) (Z.of_nat (length (durable_pending h)))); [done|].
  by intros [= <-].
Qed.

Lemma submit_error j h h' e : submit_durable j h = (h', Err e) -> h' = h.
Proof. unfold submit_durable. by repeat case_match; intros [= <- _]. Qed.

(** A mutation that nobody waits for. *)
Lemma submit_moves who j h :
  (forall r, awaits r j = false) -> (job_rank j = None \/ job_rank j = who) ->
  (forall r, who = Some r -> snapshots h !! r = None) -> moves who h (submit_durable j h).1.
Proof.
  intros Ha Hj Hw. destruct (submit_durable j h) as [h' [[]|e]] eqn:Hs; cbn.
  - apply submit_room in Hs as [Hr ->]. apply rtc_once. by apply MSubmit.
  - apply submit_error in Hs as ->. done.
Qed.

Lemma drain_moves who n io h : moves who h (drain canonical_hash ts n io h).
Proof.
  revert h. induction n as [|n IH]; intros h; [done|].
  eapply rtc_l; [apply (MWork who io)|]. apply IH.
Qed.

Lemma not_waiting rank h : waiting rank h = false -> forall r, Some rank = Some r -> snapshots h !! r = None.
Proof.
  unfold waiting. intros Hw r [= <-]. apply bool_decide_eq_false in Hw.
  by destruct (snapshots h !! rank); [destruct Hw; eauto|].
Qed.

Lemma head_omap_None {A C} (f : A -> option C) l : head (omap f l) = None -> forall x, x ∈ l -> f x = None.
Proof.
  induction l as [|y l IH]; [by intros _ ? ?%not_elem_of_nil|]. cbn.
  destruct (f y) eqn:Hy; [done|]. intros Hn x [->|Hin]%elem_of_cons; auto.
Qed.

Lemma staged_reason_None h rank m :
  staged_reason h rank m = None ->
  forall k o, m !! k = Some o -> observation_contract_reason h rank o = None.
Proof.
  unfold staged_reason. intros Hn k o Hk.
  exact (head_omap_None _ _ Hn (k, o) (proj2 (elem_of_map_to_list m k o) Hk)).
Qed.

Lemma on_receipt_moves rank payload h :
  waiting rank h = false -> moves (Some rank) h (on_receipt rank payload h).1.
Proof.
  intros Hw. unfold on_receipt.
  set (h1 := set_payloads _ h). assert (quiet h h1) as Hq by (unfold h1; auto with head).
  destruct (ledger h1); [|by apply moves_quiet].
  destruct (negb _); [apply moves_quiet; cbn [fst]; auto with head|].
  destruct (receipt_from_dict payload) as [raw|[m]]; [|apply moves_quiet; cbn [fst]; auto with head].
  etransitivity; [by apply moves_quiet|]. apply submit_moves; [done|by right|by apply not_waiting].
Qed.

Lemma on_snapshot_moves rank sid hash items h :
  waiting rank h = false -> moves (Some rank) h (on_snapshot rank sid hash items h).1.
Proof.
  intros Hw. unfold on_snapshot. destruct (existsb _ _) eqn:He; cbn [negb]; [|done].
  destruct (fold_res _ _ _) as [staged|e] eqn:Hf; [|done].
  destruct (staged_reason h rank staged) eqn:Hr; [done|].
  destruct (submit_durable _ _) as [h' [[]|e]] eqn:Hs; cbn [fst].
  - apply submit_room in Hs as [Hroom ->]. apply rtc_once.
    set (f := InFlight sid hash items staged _ _).
    refine (MStage (Some rank) rank f h eq_refl Hroom (not_waiting _ _ Hw rank eq_refl) _ eq_refl).
    split; cbn; [done|exact He|exact Hf|by apply staged_reason_None].
  - by apply submit_error in Hs as ->.
Qed.

(** The projection is installed, its payloads and failures are recorded. *)
Lemma install_moves now rank f h :
  snapshots h !! rank = Some f ->
  (if_phase f = StagedWith (Ok (Ok None)) \/ if_phase f = CommittedWith (Ok tt)) ->
  moves (Some rank) h (forget_snapshot rank (install_snapshot now rank f h)).
Proof.
  intros Hf Hp. eapply moves_then; [by eapply rtc_once, (MInstall _ now)|].
  unfold install_snapshot, forget_snapshot.
  set (h1 := set_observations _ _ h).
  set (h2 := fold_left _ _ _). assert (quiet h1 h2) as Hq.
  { apply record_quiet. apply quiet_payloads, quiet_refl. }
  rewrite (q_snapshots _ _ Hq). by apply quiet_snapshots.
Qed.

Lemma resume_moves clk now rank h : moves (Some rank) h (resume snapshot_hash clk now rank h).1.
Proof.
  unfold resume. destruct (snapshots h !! rank) as [f|] eqn:Hf; [|done].
  assert (forall h1, quiet h h1 -> settled (if_phase f) = true ->
            moves (Some rank) h (forget_snapshot rank h1)) as Hforget.
  { intros h1 Hq Hs. etransitivity; [by apply moves_quiet|]. apply rtc_once.
    eapply MForget; [done|by rewrite (q_snapshots _ _ Hq)|done]. }
  destruct (if_phase f) as [|r| |r] eqn:Hp; try done.
  - unfold resume_staged. destruct r as [[cand|m]|e]; cbn [fst]; try (apply Hforget; auto with head).
    set (x := match coordinator h with None => _ | _ => _ end).
    assert (quiet h x.1) as Hq by (unfold x; head_cases).
    destruct x as [h1 [[] why]]; cbn [fst snd negb] in *; [|by apply Hforget].
    destruct cand as [l|]; cbn [fst].
    + destruct (submit_durable _ _) as [h2 [[]|e]] eqn:Hs; cbn [fst].
      * apply submit_room in Hs as [Hroom ->]. etransitivity; [by apply moves_quiet|].
        apply rtc_once. cbn. apply (MCommit _ rank f l h1); try done. by rewrite (q_snapshots _ _ Hq).
      * apply submit_error in Hs as ->. by apply Hforget.
    + etransitivity; [by apply moves_quiet|].
      apply install_moves; [by rewrite (q_snapshots _ _ Hq)|by left].
  - unfold resume_committed. destruct r as [[]|e]; cbn [fst]; [|by apply Hforget].
    apply install_moves; [done|by right].
Qed.

Lemma on_session_moves clk rank connected goodbye h :
  waiting rank h = false ->
  moves (Some rank) h (on_session_change clk rank connected goodbye h).1.
Proof.
  intros Hw. unfold on_session_change.
  destruct (coordinator h) as [c|] eqn:Hc; [|apply moves_quiet; cbn [fst]; auto with head].
  destruct connected; [apply moves_quiet; cbn [fst]; auto with head|].
  set (h1 := set_coordinator _ h). assert (quiet h h1) as Hq by (unfold h1; eauto with head).
  set (x := match ledger h1 with None => _ | _ => _ end).
  assert (moves (Some rank) h1 x.1) as Hx.
  { unfold x. destruct (ledger h1), goodbye; cbn [negb fst]; try done.
    apply submit_moves; [done|by right|by apply (not_waiting rank h)]. }
  destruct x as [h2 [[]|e]]; cbn [fst] in *; (etransitivity; [by apply moves_quiet|]); [|done].
  etransitivity; [exact Hx|]. eapply moves_then; [by apply rtc_once, MForgetObservations|].
  auto with head.
Qed.

Lemma work_waits io h r : is_Some (snapshots h !! r) -> is_Some (snapshots (work io h) !! r).
Proof.
  intros [f Hf]. unfold HeadChannel.work. destruct (durable_pending h) as [|j q]; [eauto|].
  unfold run_job, completed, set_phase. cbn [ledger set_durable].
  assert (forall p rank, is_Some (alter (at_phase p) rank (snapshots h) !! r)) as Halter.
  { intros p rank. destruct (decide (rank = r)) as [->|Hne];
      rewrite ?lookup_alter_eq, ?lookup_alter_ne, Hf by done; cbn; eauto. }
  destruct (ledger h), j; repeat case_match; cbn; eauto.
Qed.

Lemma cancel_task_moves rank running h :
  moves (Some rank) h (cancel_task canonical_hash ts rank running h).
Proof.
  unfold cancel_task. case_bool_decide as Hs; [|done].
  set (h1 := match running with Some _ => _ | None => _ end). cbn zeta.
  assert (moves (Some rank) h h1 /\ is_Some (snapshots h1 !! rank)) as [H1 H2].
  { unfold h1. destruct running as [io|]; [|done]. destruct (durable_pending h) as [|j q]; [done|].
    destruct (awaits rank j); [|done]. split; [apply rtc_once, MWork|by apply work_waits]. }
  etransitivity; [exact H1|]. by apply rtc_once, (MCancel _ rank h1).
Qed.

Lemma stop_moves a b c d h : moves None h (stop canonical_hash ts a b c d h).1.
Proof.
  unfold stop. destruct (stopped h); [done|].
  set (h1 := if a then h else _). assert (quiet h h1) as H1 by (unfold h1; head_cases).
  etransitivity; [by apply moves_quiet|]. clear H1.
  set (x := if has_store h1 then _ else _).
  assert (moves None h1 x.1) as Hx.
  { unfold x. destruct (has_store h1); [|done]. apply submit_moves; [done|by left|done]. }
  destruct x as [h2 s]. cbn [fst] in Hx. etransitivity; [exact Hx|]. clear Hx.
  set (y := match s with Ok _ => _ | Err _ => _ end).
  assert (exists h3, moves None h2 h3 /\
            quiet h3 (if y.2 then y.1 else fail (CleanupFailed "durable receipt writer") y.1))
    as (h3 & H3 & Hq).
  { assert (forall running, exists h3, moves None h2 h3 /\
      quiet h3 (fail (CleanupFailed "durable receipt writer") (cancel_futures running h2))) as Hcan.
    { intros running. eexists. split; [apply rtc_once, MCancelAll|apply quiet_refl]. }
    unfold y. destruct s as [[]|], b as [io|]; cbn [fst snd]; try apply Hcan.
    eexists. split; [eapply rtc_l; [apply MClose|apply drain_moves]|].
    destruct (durable_tail_ok _); auto with head. }
  eapply moves_then; [exact H3|]. destruct y as [h4 w]. cbn [fst snd] in *.
  destruct d; auto with head.
Qed.

Lemma step_moves ev h : moves (actor ev) h (step ev h).
Proof.
  destruct ev; cbn [HeadChannel.step actor]; try (destruct (waiting rank h) eqn:Hw; [done|]).
  - by apply on_receipt_moves.
  - unfold on_observation. destruct (observation_contract_reason h rank o) eqn:Ho; [done|].
    eapply moves_then; [by apply rtc_once, MObserve|].
    exact (record_quiet rank [o] _ _ (quiet_refl _)).
  - apply moves_quiet. unfold on_register. head_cases.
  - by apply on_snapshot_moves.
  - apply resume_moves.
  - apply moves_quiet. unfold on_snapshot_ack. head_cases.
  - apply moves_quiet. unfold on_protocol_violation. head_cases.
  - apply moves_quiet. unfold on_heartbeat. head_cases.
  - by apply on_session_moves.
  - apply rtc_once, MWork.
  - apply moves_quiet, poll_quiet, quiet_refl.
  - apply moves_quiet, start_head_quiet.
  - apply moves_quiet, start_workers_quiet.
  - apply moves_quiet, broadcast_start_quiet.
  - apply moves_quiet, shutdown_quiet.
  - apply moves_quiet. unfold wait_shutdown_goodbyes. head_cases.
  - unfold flush_durable_evidence. destruct (has_store h); [|done].
    apply submit_moves; [done|by left|done].
  - apply cancel_task_moves.
  - apply stop_moves.
Qed.

Lemma run_job_grows io j h h1 :
  grows h h1 -> grows h (run_job canonical_hash ts io j h1).
Proof. intros. unfold run_job, completed, set_phase. head_cases. Qed.

Lemma move_grows who h h' : move who h h' -> grows h h'.
Proof.
  destruct 1; auto using q_grows with head; unfold enqueue, forget_snapshot, drop_observations, cancel_futures;
    auto 6 with head.
  unfold HeadChannel.work. destruct (durable_pending h); auto using run_job_grows with head.
Qed.

(** An invariant of the moves is an invariant of every run. *)
Lemma run_invariant (P : HeadChannel.t (B := B) -> Prop) (acts : option Z -> Prop) evs h :
  (forall who h1 h2, acts who -> move who h1 h2 -> P h1 -> P h2) ->
  Forall (fun ev => acts (actor ev)) evs -> P h -> P (run evs h).
Proof.
  intros Hm. revert h. induction evs as [|ev evs IH]; intros h Ha Hh; [done|].
  apply Forall_cons in Ha as [Ha Has]. apply IH; [done|].
  pose proof (step_moves ev h) as Hs. revert Hh. induction Hs; eauto.
Qed.

Lemma run_grows evs h : grows h (run evs h).
Proof.
  apply (run_invariant (grows h) (fun _ => True)); [|by apply Forall_true|apply head_grows_refl].
  intros who h1 h2 _ Hm Hg. etransitivity; [exact Hg|]. by eapply move_grows.
Qed.
End Moves.
