(* ===== verification/HeadProps.v ===== *)
(** Theorems on the head channel, by induction on the moves of a run: its memory is
    bounded, its first failure is kept, the projection of observations stays within the
    plan, the evidence of a rank is what its accepted snapshot says, and the evidence of
    a lost rank is revoked in order. *)

From S2P Require Import Prelude PyValue Atomic Json Envelopes Contracts Snapshots NodeChannel Session Receipts ReceiptCodec ReceiptCodecProps Bindings BindingsProps Ledger LedgerProps HeadChannel HeadLedgerProps HeadChannelProps HeadMoves.

Import HeadChannel.

Section Head.
Context {B : Type} `{!BindingStore B}.
Context (canonical_hash : dict -> string) (snapshot_hash : list value -> string).
Context (ts : string -> bool).
Implicit Types h : HeadChannel.t (B := B).
Abbreviation run := (HeadChannel.run canonical_hash snapshot_hash ts).
Abbreviation work := (HeadChannel.work canonical_hash ts).
Abbreviation move := (HeadMoves.move canonical_hash ts).
Abbreviation ch := (compute_hash canonical_hash).
Abbreviation lreach := (LedgerProps.lreach ch ts).
Abbreviation ledger_ok := (LedgerProps.ledger_ok ch ts).
Abbreviation staged_from := (HeadLedgerProps.staged_from canonical_hash ts).

(** ** What the worker leaves alone *)

Record unworked h h' : Prop := Unworked {
  uw_ranks : expected_ranks h' = expected_ranks h;
  uw_coordinator : coordinator h' = coordinator h;
  uw_pending : durable_pending h' = durable_pending h;
  uw_closed : durable_closed h' = durable_closed h;
  uw_observations : observations_by_rank h' = observations_by_rank h;
  uw_arrivals : observation_arrivals h' = observation_arrivals h;
  uw_unexpected : unexpected_disconnects h' = unexpected_disconnects h;
  uw_planned : planned_receipt_ids h' = planned_receipt_ids h
}.

Lemma unworked_completed {A} (r : result durable_error A) h h1 : unworked h h1 -> unworked h (completed r h1).
Proof. intros []. by destruct r; split. Qed.
Lemma unworked_phase rank p h h1 : unworked h h1 -> unworked h (set_phase rank p h1).
Proof. intros []. by split. Qed.
Lemma unworked_reject r h h1 : unworked h h1 -> unworked h (reject_receipt r h1).
Proof. intros []. by split. Qed.
Lemma unworked_ledger l l' h :
  ledger h = Some l -> same_context l l' -> unworked h (set_ledger (Some l') h).
Proof.
  intros Hl (Hp & _). split; try done. unfold planned_receipt_ids. cbn [ledger set_ledger].
  by rewrite Hl, Hp.
Qed.

Lemma accept_raw_context io raw rank node (l l' : Ledger.t B) res :
  accept_raw canonical_hash ts io raw rank node l = (l', res) -> same_context l l'.
Proof.
  intros H. apply accept_raw_spec in H as [(id & why & -> & _)|[[-> _]|(r & res' & _ & H & _)]];
    [done..|]. by apply accept_frame in H as [? _].
Qed.

Lemma run_job_unworked io j h : unworked h (run_job canonical_hash ts io j h).
Proof.
  assert (unworked h h) as Hr by done.
  unfold run_job. destruct (ledger h) as [l|] eqn:Hl, j; auto using unworked_completed, unworked_phase.
  - destruct (accept_raw _ _ _ _ _ _ _) as [l' r] eqn:Ha. apply accept_raw_context in Ha.
    apply unworked_completed. destruct r as [[[] m]|e]; [|apply unworked_reject|];
      by eapply unworked_ledger.
  - destruct (Ledger.drop_rank _ _ _) as [l' r] eqn:Ha. apply (drop_rank_context canonical_hash ts) in Ha.
    by eapply unworked_completed, unworked_ledger.
  - destruct (Ledger.commit_rank_snapshot _ _ _ _ _) as [l' r] eqn:Ha.
    apply commit_rank_context in Ha. by eapply unworked_completed, unworked_phase, unworked_ledger.
  - destruct (Ledger.flush_store _ _) as [l' r] eqn:Ha. apply with_store_frame in Ha as [Ha _].
    by eapply unworked_completed, unworked_ledger.
Qed.

Lemma work_unworked io h :
  unworked (set_durable (tail (durable_pending h)) (durable_closed h) h) (work io h).
Proof.
  unfold HeadChannel.work. destruct (durable_pending h) eqn:Hp; [|apply run_job_unworked].
  by split; rewrite ?Hp.
Qed.

(** ** Bounded memory *)

Definition bounded h0 h : Prop :=
  expected_ranks h = expected_ranks h0 /\ planned_receipt_ids h = planned_receipt_ids h0 /\
  Z.of_nat (length (durable_pending h)) <= durable_limit h0 /\ NoDup (unexpected_disconnects h).

Lemma bounded_limit h0 h : bounded h0 h -> durable_limit h = durable_limit h0.
Proof. unfold durable_limit. by intros (-> & -> & _). Qed.

Lemma bounded_shrink h0 h h' :
  bounded h0 h -> expected_ranks h' = expected_ranks h -> planned_receipt_ids h' = planned_receipt_ids h ->
  (length (durable_pending h') <= length (durable_pending h))%nat ->
  unexpected_disconnects h' = unexpected_disconnects h -> bounded h0 h'.
Proof. intros (Hr & Hp & Hl & Hn) Hr' Hp' Hl' Hu. split_and!; [congruence..|lia|congruence]. Qed.

Lemma bounded_enqueue h0 h j : bounded h0 h -> has_room h -> bounded h0 (enqueue j h).
Proof.
  intros Hb [_ Hlt]. rewrite (bounded_limit _ _ Hb) in Hlt. destruct Hb as (? & ? & ? & ?).
  split_and!; try done. cbn. rewrite length_app. cbn. lia.
Qed.

Lemma bounded_move h0 who h h' : move who h h' -> bounded h0 h -> bounded h0 h'.
Proof.
  intros Hm Hb. destruct Hm as [h h' Hq|j h Hr|h| | |rank f h _ Hr|rank f cand h _ Hr| | |io h|rank h|running what h];
    try (by apply (bounded_shrink h0 h)); try by apply bounded_enqueue.
  - destruct Hb as (? & ? & ? & ?), Hq. split_and!; [congruence| |congruence|auto].
    unfold planned_receipt_ids in *. by rewrite q_ledger.
  - pose proof (work_unworked io h) as []. apply (bounded_shrink h0 h); try done.
    rewrite uw_pending0. cbn. destruct (durable_pending h); cbn; lia.
  - apply (bounded_shrink h0 h); try done. cbn. rewrite <- (length_map id), map_id.
    apply List.filter_length_le.
  - apply (bounded_shrink h0 h); try done. cbn. destruct running; [|cbn; lia]. rewrite length_take. lia.
Qed.

(** C40: The head channel's memory is bounded whatever the ranks send: each of its four
    diagnostic lists holds at most MAX_HEAD_DIAGNOSTIC_RECORDS entries, the queue of the
    durable writer never exceeds the limit computed from the plan, and no rank is listed
    twice among the unexpected disconnects. *)
Theorem head_memory_bounded ranks c l evs :
  let h0 := init ranks c l in
  let h := run evs h0 in
  (length (DiagnosticList.items (failures h)) <= MAX_HEAD_DIAGNOSTIC_RECORDS)%nat /\
  (length (DiagnosticList.items (receipt_payloads h)) <= MAX_HEAD_DIAGNOSTIC_RECORDS)%nat /\
  (length (DiagnosticList.items (receipt_rejections h)) <= MAX_HEAD_DIAGNOSTIC_RECORDS)%nat /\
  (length (DiagnosticList.items (disconnected h)) <= MAX_HEAD_DIAGNOSTIC_RECORDS)%nat /\
  Z.of_nat (length (durable_pending h)) <= durable_limit h0 /\
  NoDup (unexpected_disconnects h).
Proof.
  intros h0 h. destruct (run_grows canonical_hash snapshot_hash ts evs h0) as [[? Hf] [? Hp] [? Hr] [? Hd]].
  unfold h. rewrite Hf, Hp, Hr, Hd.
  assert (bounded h0 h) as (_ & _ & Hl & Hn).
  { apply (run_invariant _ _ _ (bounded h0) (fun _ => True)); [|by apply Forall_true|].
    - intros who h1 h2 _. apply bounded_move.
    - split_and!; [done..| |constructor]. unfold durable_limit. cbn. lia. }
  split_and!; [by apply DiagnosticProps.extend_length; cbn; lia..|done|done].
Qed.

(** The first failure is never lost: a failure that is the first of the list stays so,
    however many follow it and although the list is bounded. *)
Theorem first_failure_kept ranks c l evs1 evs2 f :
  first_failure (run evs1 (init ranks c l)) = Some f ->
  first_failure (run (evs1 ++ evs2) (init ranks c l)) = Some f.
Proof.
  unfold first_failure, HeadChannel.run. rewrite fold_left_app.
  set (h := fold_left _ evs1 _). intros Hf.
  destruct (run_grows canonical_hash snapshot_hash ts evs2 h) as [[xs Hx] _ _ _].
  unfold HeadChannel.run in Hx. rewrite Hx. apply DiagnosticProps.extend_head; [|done].
  destruct (run_grows canonical_hash snapshot_hash ts evs1 (init ranks c l)) as [[ys Hy] _ _ _].
  unfold HeadChannel.run in Hy. unfold h. rewrite Hy. apply DiagnosticProps.extend_preserve.
Qed.

(** ** The projection of observations *)

Definition observed h (rank : Z) (k : string * string) : option ComponentObservation.t :=
  m ← observations_by_rank h !! rank; m !! k.

Definition in_plan h (rank : Z) (o : ComponentObservation.t) : Prop :=
  is_Some (coordinator h) ->
  allowed_role rank (ComponentObservation.component_id o) = Some (ComponentObservation.role o).

Record projected h : Prop := Projected {
  pr_arrivals : forall rank k, is_Some (observation_arrivals h !! arrival_key rank k) <->
                               is_Some (observed h rank k);
  pr_plan : forall rank k o, observed h rank k = Some o -> k = obs_key o /\ in_plan h rank o;
  pr_snapshots : forall rank f, snapshots h !! rank = Some f -> snapshot_of h rank f
}.

Lemma contract_in_plan h rank o : observation_contract_reason h rank o = None <-> in_plan h rank o.
Proof.
  unfold observation_contract_reason, in_plan. destruct (coordinator h) as [c|].
  2: { split; [by intros _ []%is_Some_None|done]. }
  destruct (allowed_role _ _) as [role|]; [|split; [done|intros H; by specialize (H ltac:(eauto))]].
  case_bool_decide as Hr.
  - split; [by rewrite Hr|done].
  - split; [done|]. intros H. specialize (H ltac:(eauto)). congruence.
Qed.

(** Only whether there is a coordinator matters. *)
Lemma in_plan_same h h' rank o :
  (is_Some (coordinator h') <-> is_Some (coordinator h)) -> in_plan h rank o -> in_plan h' rank o.
Proof. unfold in_plan. intros ->. done. Qed.

Lemma snapshot_of_same h h' rank f f' :
  (is_Some (coordinator h') <-> is_Some (coordinator h)) ->
  if_items f' = if_items f -> if_observations f' = if_observations f -> if_receipts f' = if_receipts f ->
  snapshot_of h rank f -> snapshot_of h' rank f'.
Proof.
  intros Hc Hi Ho Hr [H1 H2 H3 H4]. split; rewrite ?Hi, ?Ho, ?Hr; try done.
  intros k o Hk. apply contract_in_plan, (in_plan_same h); [done|]. by eapply contract_in_plan, H4.
Qed.

Lemma staged_keys (bodies : list value) (m0 m : projection) :
  (forall k o, m0 !! k = Some o -> k = obs_key o) ->
  fold_res stage_observation m0 bodies = Ok m -> forall k o, m !! k = Some o -> k = obs_key o.
Proof.
  revert m0. induction bodies as [|b bodies IH]; intros m0 H0; cbn [fold_res].
  { by intros [= <-]. }
  intros (m1 & H1 & H2)%bind_Ok. apply (IH m1); [|done].
  unfold stage_observation in H1. apply bind_Ok in H1 as (o1 & _ & [= <-]).
  intros k o. rewrite lookup_insert. case_decide; [by intros [= <-]|apply H0].
Qed.

Lemma arrival_key_inj rank k rank' k' :
  arrival_key rank k = arrival_key rank' k' <-> rank = rank' /\ k = k'.
Proof. destruct k, k'. unfold arrival_key. cbn. naive_solver. Qed.

Lemma lookup_without rank m rank' k :
  without_rank rank m !! arrival_key rank' k =
  if decide (rank' = rank) then None else m !! arrival_key rank' k.
Proof.
  unfold without_rank. rewrite map_lookup_filter. cbn.
  destruct (m !! arrival_key rank' k); cbn; case_decide as H1; repeat case_decide; naive_solver.
Qed.

Lemma lookup_arrivals now rank f h rank' k :
  snapshot_arrivals now rank f h !! arrival_key rank' k =
  if decide (rank' = rank) then (fun _ => now) <$> if_observations f !! k
  else observation_arrivals h !! arrival_key rank' k.
Proof.
  unfold snapshot_arrivals. generalize (if_observations f) as obs. intros obs.
  apply (map_fold_weak_ind (fun m obs => m !! arrival_key rank' k =
    if decide (rank' = rank) then (fun _ => now) <$> obs !! k
    else observation_arrivals h !! arrival_key rank' k)).
  - rewrite lookup_without. by case_decide.
  - intros k0 o obs' r _ IH. rewrite !lookup_insert, IH.
    destruct (decide (arrival_key rank k0 = arrival_key rank' k)) as [[-> ->]%arrival_key_inj|Hne].
    + by rewrite !decide_True.
    + case_decide as Hr; [|done]. subst. rewrite decide_False; [done|]. intros ->. by apply Hne.
Qed.

Lemma projected_quiet h h' : quiet h h' -> projected h -> projected h'.
Proof.
  intros [] [Ha Hp Hs]. unfold observed in *. split.
  - intros rank k. unfold observed. rewrite q_arrivals, q_observations. apply Ha.
  - intros rank k o. unfold observed. rewrite q_observations. intros [? ?]%Hp.
    split; [done|by eapply in_plan_same].
  - intros rank f. rewrite q_snapshots. intros ?%Hs. by eapply snapshot_of_same.
Qed.

(** A change of the waiting snapshots' phases alone. *)
Lemma projected_phases h h' :
  coordinator h' = coordinator h -> observations_by_rank h' = observations_by_rank h ->
  observation_arrivals h' = observation_arrivals h ->
  (forall rank f', snapshots h' !! rank = Some f' -> exists f, snapshots h !! rank = Some f /\
     if_items f' = if_items f /\ if_observations f' = if_observations f /\
     if_receipts f' = if_receipts f) ->
  projected h -> projected h'.
Proof.
  intros Hc Ho Har Hf [Ha Hp Hs]. unfold observed in *. split.
  - intros rank k. unfold observed. rewrite Har, Ho. apply Ha.
  - intros rank k o. unfold observed. rewrite Ho. unfold in_plan. rewrite Hc. apply Hp.
  - intros rank f' (f & Hk & Hi & Hob & Hr)%Hf. eapply snapshot_of_same; [..|by apply Hs]; try done.
    by rewrite Hc.
Qed.

Definition same_data (f' f : inflight B) : Prop :=
  if_items f' = if_items f /\ if_observations f' = if_observations f /\ if_receipts f' = if_receipts f.

Lemma lookup_alter_inv (g : inflight B -> inflight B) (m : gmap Z (inflight B)) (i j : Z) f' :
  alter g i m !! j = Some f' -> exists f, m !! j = Some f /\ f' = if decide (i = j) then g f else f.
Proof.
  rewrite lookup_alter. case_decide as Hij; [|by eauto]. subst i.
  destruct (m !! j) as [f|]; cbn; [|done]. intros [= <-]. eauto.
Qed.

Lemma work_data io h rank f' :
  snapshots (work io h) !! rank = Some f' -> exists f, snapshots h !! rank = Some f /\ same_data f' f.
Proof.
  assert (forall p r, alter (at_phase p) r (snapshots h) !! rank = Some f' ->
            exists f, snapshots h !! rank = Some f /\ same_data f' f) as Halter.
  { intros p r (f & Hf & ->)%lookup_alter_inv. exists f. split; [done|]. by case_decide. }
  assert (snapshots h !! rank = Some f' -> exists f, snapshots h !! rank = Some f /\ same_data f' f)
    as Hsame by (intros; eexists; done).
  unfold HeadChannel.work. destruct (durable_pending h) as [|j q]; [done|].
  unfold run_job, completed, set_phase. cbn [ledger set_durable].
  destruct (ledger h), j; repeat case_match; cbn; eauto.
Qed.

Lemma snapshots_kept h h' (s : gmap Z (inflight B)) :
  coordinator h' = coordinator h ->
  (forall rank f, s !! rank = Some f -> snapshot_of h rank f) ->
  forall rank f, s !! rank = Some f -> snapshot_of h' rank f.
Proof. intros Hc Hs rank f Hf. apply (snapshot_of_same h h' rank f); auto. by rewrite Hc. Qed.

Lemma projected_move who h h' : move who h h' -> projected h -> projected h'.
Proof.
  intros Hm Hpr. destruct Hm as [h h' Hq|j h|h|rank o now h _ Ho|rank h|rank f h _ _ _ Hf|
    rank f cand h _ _ Hf|rank f h|now rank f h _ Hf|io h|rank h|running what h].
  - by eapply projected_quiet.
  - apply (projected_phases h); try done. eauto.
  - apply (projected_phases h); try done. eauto.
  - destruct Hpr as [Ha Hp Hs]. unfold observed in *. split; [| |by apply (snapshots_kept h)].
    + intros r k. unfold observed. cbn. rewrite !lookup_insert.
      destruct (decide (rank = r)) as [->|Hne].
      * cbn. rewrite lookup_insert. destruct (decide (obs_key o = k)) as [<-|Hk].
        -- rewrite decide_True by done. split; eauto.
        -- rewrite decide_False by (rewrite arrival_key_inj; naive_solver). rewrite Ha.
           by destruct (observations_by_rank h !! r); cbn; rewrite ?lookup_empty.
      * rewrite decide_False by (rewrite arrival_key_inj; naive_solver). apply Ha.
    + intros r k o'. unfold observed. cbn. rewrite lookup_insert.
      destruct (decide (rank = r)) as [->|Hne]; [|apply Hp]. cbn. rewrite lookup_insert.
      case_decide as Hk; [intros [= <-]; split; [done|by apply contract_in_plan]|].
      intros H. apply (Hp r). destruct (observations_by_rank h !! r); cbn in *; [done|].
      by rewrite lookup_empty in H.
  - destruct Hpr as [Ha Hp Hs]. unfold observed in *. split; [| |by apply (snapshots_kept h)].
    + intros r k. unfold observed. cbn. rewrite lookup_without, lookup_delete.
      destruct (decide (r = rank)) as [->|Hne].
      * rewrite decide_True by done. split; by intros [? ?].
      * rewrite decide_False by done. apply Ha.
    + intros r k o. unfold observed. cbn. rewrite lookup_delete. case_decide; [done|apply Hp].
  - destruct Hpr as [Ha Hp Hs]. split; [exact Ha|exact Hp|]. intros r f'. cbn. rewrite lookup_insert.
    case_decide as Hr; [intros [= <-]; subst|intros ?%Hs]; by eapply (snapshot_of_same h).
  - apply (projected_phases h); try done. intros r f'. cbn. rewrite lookup_insert.
    case_decide as Hr; [intros [= <-]; subst; eauto|eauto].
  - apply (projected_phases h); try done. intros r f'. cbn. rewrite lookup_delete.
    case_decide; [done|eauto].
  - destruct Hpr as [Ha Hp Hs]. pose proof (Hs _ _ Hf) as Hsnap. unfold observed in *. split.
    + intros r k. unfold observed. cbn [observation_arrivals set_observations forget_snapshot set_snapshots observations_by_rank].
      rewrite lookup_arrivals, lookup_insert. destruct (decide (r = rank)) as [->|Hne].
      * rewrite decide_True by done. cbn. by rewrite fmap_is_Some.
      * rewrite decide_False by done. apply Ha.
    + intros r k o. unfold observed. cbn. rewrite lookup_insert.
      case_decide as Hr; [subst|apply Hp]. cbn. intros Hk. split.
      * eapply staged_keys; [|by eapply so_observations|done]. by intros ? ? ?%lookup_empty_Some.
      * apply (in_plan_same h); [done|]. apply contract_in_plan. by apply (so_contract _ _ _ Hsnap k).
    + intros r f'. cbn. rewrite lookup_delete. case_decide; [done|]. intros ?%Hs.
      by eapply (snapshot_of_same h).
  - destruct (work_unworked io h). apply (projected_phases h); try done.
    intros r f' (f & Hf & Hd)%work_data. eauto.
  - apply (projected_phases h); try done. intros r f' (f & Hf & ->)%lookup_alter_inv. exists f.
    split; [done|]. by case_decide.
  - apply (projected_phases h); try done. intros r f'. cbn. rewrite map_lookup_imap. intros H.
    destruct (snapshots h !! r) as [f|]; [|done]. exists f. split; [done|]. cbn in H.
    injection H as <-. destruct (existsb _ _); [done|]. by destruct (if_phase f).
Qed.

Lemma projected_init ranks c l : projected (init ranks c l).
Proof.
  split; unfold observed; cbn.
  - intros r k'. rewrite !lookup_empty. split; by intros [? ?].
  - intros r k' o. by rewrite lookup_empty.
  - intros r f. by rewrite lookup_empty.
Qed.

Lemma coordinator_run ranks c l evs :
  is_Some (coordinator (run evs (init ranks c l))) <-> is_Some c.
Proof.
  apply (run_invariant _ _ _ (fun h => is_Some (coordinator h) <-> is_Some c) (fun _ => True));
    [|by apply Forall_true|done].
  intros who h1 h2 _ Hm <-. destruct Hm as [h h' []| | | | | | | | |io h| |]; try done.
  by destruct (work_unworked io h) as [_ -> _ _ _ _ _ _].
Qed.

Lemma projected_run ranks c l evs : projected (run evs (init ranks c l)).
Proof.
  apply (run_invariant _ _ _ projected (fun _ => True)); [|by apply Forall_true|].
  - intros who h1 h2 _. apply projected_move.
  - apply projected_init.
Qed.

(** What the head projects of a rank is within the plan: in every reachable state each
    observation is stored under its own component and instance, the head's receive clock
    holds an arrival for it and for nothing else, and with a session coordinator only
    the components planned for the rank are there, under their planned role. *)
Theorem projection_within_plan ranks c l evs rank k :
  let h := run evs (init ranks c l) in
  (is_Some (observation_arrivals h !! arrival_key rank k) <-> is_Some (observed h rank k)) /\
  forall o, observed h rank k = Some o ->
    k = obs_key o /\
    (is_Some c -> allowed_role rank (ComponentObservation.component_id o)
                  = Some (ComponentObservation.role o)).
Proof.
  intros h. destruct (projected_run ranks c l evs) as [Ha Hp _].
  split; [apply Ha|]. intros o Ho. apply Hp in Ho as [Hk Hin]. split; [done|]. intros Hc. by apply Hin, coordinator_run.
Qed.
End Head.
