(* ===== verification/HeadEvidence.v ===== *)
(** The evidence of the ranks under the head channel's ordered writer: the queue
    discipline that a waiting snapshot relies on, what an accepted snapshot defines, and
    the revocation of a lost rank's evidence. *)

From S2P Require Import Prelude PyValue Atomic Json Envelopes Contracts Snapshots NodeChannel Session Receipts ReceiptCodec ReceiptCodecProps Bindings BindingsProps Ledger LedgerProps HeadChannel HeadLedgerProps HeadChannelProps HeadMoves HeadProps.

Import HeadChannel.

Section Queue.
Context {B : Type}.
Implicit Types (q : list (job B)) (j : job B).

(** The queued mutations of one rank's evidence. *)
Definition rank_jobs (rank : Z) q : list (job B) := filter (fun j => job_rank j = Some rank) q.

Definition no_wait (rank : Z) q : Prop := Forall (fun j => awaits rank j = false) q.

Lemma awaits_rank rank j : awaits rank j = true -> job_rank j = Some rank.
Proof. destruct j; cbn; try done; intros ->%Z.eqb_eq; done. Qed.

Lemma rank_jobs_snoc rank q j :
  rank_jobs rank (q ++ [j]) = rank_jobs rank q ++ if decide (job_rank j = Some rank) then [j] else [].
Proof. unfold rank_jobs. rewrite filter_app, filter_cons. by case_decide. Qed.

Lemma rank_jobs_cons rank q j :
  rank_jobs rank (j :: q) = if decide (job_rank j = Some rank) then j :: rank_jobs rank q
                            else rank_jobs rank q.
Proof. unfold rank_jobs. rewrite filter_cons. by case_decide. Qed.

Lemma rank_jobs_prefix rank q q' : q' `prefix_of` q -> rank_jobs rank q' `prefix_of` rank_jobs rank q.
Proof. intros [q2 ->]. unfold rank_jobs. rewrite filter_app. by eexists. Qed.

Lemma no_wait_prefix rank q q' : q' `prefix_of` q -> no_wait rank q -> no_wait rank q'.
Proof. intros [q2 ->]. unfold no_wait. rewrite Forall_app. by intros []. Qed.

(** Cancelling what one rank waits for. *)
Lemma rank_jobs_unawaited rank r q :
  r <> rank -> rank_jobs r (List.filter (fun j => negb (awaits rank j)) q) = rank_jobs r q.
Proof.
  intros Hne. induction q as [|j q IH]; [done|]. cbn [List.filter]. rewrite rank_jobs_cons.
  destruct (awaits rank j) eqn:Ha; cbn [negb].
  - apply awaits_rank in Ha. rewrite IH, decide_False by congruence. done.
  - by rewrite rank_jobs_cons, IH.
Qed.

Lemma no_wait_unawaited rank q :
  no_wait rank (rank_jobs rank (List.filter (fun j => negb (awaits rank j)) q)).
Proof.
  unfold no_wait, rank_jobs. apply Forall_forall. intros j [_ Hin]%list_elem_of_filter.
  apply list_elem_of_In, List.filter_In in Hin as [_ Hn]. by destruct (awaits rank j).
Qed.

Lemma no_wait_kept rank q :
  existsb (awaits rank) q = false -> no_wait rank (rank_jobs rank q).
Proof.
  intros He. unfold no_wait, rank_jobs. apply Forall_forall. intros j [_ Hin]%list_elem_of_filter.
  apply list_elem_of_In in Hin. destruct (awaits rank j) eqn:Ha; [|done].
  exfalso. apply not_true_iff_false in He. apply He, existsb_exists. eauto.
Qed.
End Queue.

Section Evidence.
Context {B : Type} `{!BindingStore B}.
Context (canonical_hash : dict -> string) (snapshot_hash : list value -> string).
Context (ts : string -> bool).
Implicit Types h : HeadChannel.t (B := B).
Implicit Types l : Ledger.t B.
Abbreviation run := (HeadChannel.run canonical_hash snapshot_hash ts).
Abbreviation work := (HeadChannel.work canonical_hash ts).
Abbreviation move := (HeadMoves.move canonical_hash ts).
Abbreviation ch := (compute_hash canonical_hash).
Abbreviation lreach := (LedgerProps.lreach ch ts).
Abbreviation ledger_ok := (LedgerProps.ledger_ok ch ts).
Abbreviation staged_from := (HeadLedgerProps.staged_from canonical_hash ts).

Context (l0 : Ledger.t B) (He : empty_ledger l0).

(** ** The discipline of the queue *)

(** What the queue holds for a rank, by what its coroutine waits for; [js] are the
    mutations of the rank's evidence that are still queued. *)
Definition waits_ok (l : Ledger.t B) (js : list (job B)) (rank : Z) (w : option (inflight B)) : Prop :=
  match w with
  | None => no_wait rank js
  | Some f =>
      match if_phase f with
      | Staging => exists js1, js = js1 ++ [JStage rank (if_receipts f)] /\ no_wait rank js1
      | StagedWith r =>
          no_wait rank js /\
          forall c, r = Ok (Ok c) ->
            js = [] /\ exists cand, c = Some cand /\ staged_from l0 rank (if_receipts f) cand
      | Committing =>
          exists cand, js = [JCommit rank cand] /\ staged_from l0 rank (if_receipts f) cand
      | CommittedWith r =>
          no_wait rank js /\
          (r = Ok tt ->
           js = [] /\ exists cand, staged_from l0 rank (if_receipts f) cand /\ same_owned rank cand l)
      end
  end.

Definition disciplined h : Prop :=
  exists l, ledger h = Some l /\ lreach false l0 l /\
    forall rank, waits_ok l (rank_jobs rank (durable_pending h)) rank (snapshots h !! rank).

Lemma same_owned_trans rank l1 l2 l3 :
  same_owned rank l1 l2 -> same_owned rank l2 l3 -> same_owned rank l1 l3.
Proof. intros H1 H2 k. by rewrite H2, H1. Qed.

Lemma waits_same_owned l l' js rank w :
  same_owned rank l l' -> waits_ok l js rank w -> waits_ok l' js rank w.
Proof.
  intros Hs. destruct w as [f|]; [|done]. cbn. destruct (if_phase f); try done.
  intros [Hn Hr]. split; [done|]. intros (Hj & cand & Hst & Hc)%Hr. split; [done|].
  exists cand. split; [done|]. by eapply same_owned_trans.
Qed.

(** A rank that waits for nothing may queue more. *)
Lemma waits_none l js rank j : awaits rank j = false -> waits_ok l js rank None -> waits_ok l (js ++ [j]) rank None.
Proof. cbn. unfold no_wait. rewrite Forall_app, Forall_singleton. done. Qed.

Lemma waits_settled l js rank f :
  settled (if_phase f) = true -> waits_ok l js rank (Some f) -> no_wait rank js.
Proof. cbn. by destruct (if_phase f); try done; intros _ []. Qed.

Lemma waits_cancelled l js rank f : no_wait rank js -> waits_ok l js rank (Some (at_phase (cancelled_phase (if_phase f)) f)).
Proof. intros Hn. cbn. by destruct (if_phase f). Qed.

(** Shutting the executor down keeps at most the running mutation. *)
Lemma waits_shutdown l q (running : bool) rank w :
  let kept := if running then take 1 q else [] in
  waits_ok l (rank_jobs rank q) rank w ->
  waits_ok l (rank_jobs rank kept) rank
    ((fun f : inflight B => if existsb (awaits rank) kept then f
               else match if_phase f with
                    | Staging => at_phase (StagedWith (Err Cancelled)) f
                    | Committing => at_phase (CommittedWith (Err Cancelled)) f
                    | _ => f
                    end) <$> w).
Proof.
  intros kept. assert (kept `prefix_of` q) as Hp.
  { unfold kept. destruct running; [apply prefix_take|apply prefix_nil]. }
  pose proof (rank_jobs_prefix rank _ _ Hp) as Hj.
  destruct w as [f|]; cbn [fmap option_fmap option_map]; [|by apply no_wait_prefix].
  destruct (existsb (awaits rank) kept) eqn:Hk.
  - (* the running mutation is the one waited for *)
    apply existsb_exists in Hk as (j & Hin & Ha).
    assert (exists rest, q = j :: rest /\ kept = [j]) as (rest & -> & ->).
    { unfold kept in *. destruct running; [|done]. destruct q as [|j' rest]; [done|].
      destruct Hin as [->|[]]. eauto. }
    rewrite !rank_jobs_cons, !decide_True by (by apply awaits_rank). cbn.
    destruct (if_phase f).
    + intros (js1 & Hjs & Hn). exists []. destruct js1 as [|j1 js1]; cbn in Hjs.
      * injection Hjs as -> _. done.
      * injection Hjs as <- _. apply Forall_cons in Hn as [Hn _]. congruence.
    + intros [Hn _]. apply Forall_cons in Hn as [Hn _]. congruence.
    + intros (cand & [= -> _] & Hst). eauto.
    + intros [Hn _]. apply Forall_cons in Hn as [Hn _]. congruence.
  - pose proof (no_wait_kept _ _ Hk) as Hn. cbn. destruct (if_phase f) as [|r| |r] eqn:Hph; cbn.
    + done.
    + rewrite Hph. intros [_ Hr]. split; [done|]. intros c (Hjs & Hc)%Hr. split; [|done].
      rewrite Hjs in Hj. by apply prefix_nil_inv in Hj.
    + done.
    + rewrite Hph. intros [_ Hr]. split; [done|]. intros (Hjs & Hc)%Hr. split; [|done].
      rewrite Hjs in Hj. by apply prefix_nil_inv in Hj.
Qed.

(** ** The worker *)

Lemma lreach_context l : lreach false l0 l -> ledger_ok l /\ same_context l0 l.
Proof. apply lreach_ok, He. Qed.

(** Only commits of staged candidates are queued. *)
Definition commits_staged (j : job B) : Prop :=
  match j with JCommit rank cand => exists ps, staged_from l0 rank ps cand | _ => True end.

Lemma accept_raw_reach io raw rank node l l' res :
  lreach false l0 l -> accept_raw canonical_hash ts io raw rank node l = (l', res) ->
  lreach false l0 l' /\ forall r, r <> rank -> same_owned r l l'.
Proof.
  intros Hr Ha. destruct (lreach_context l Hr) as [Hok _].
  apply accept_raw_spec in Ha as [(id & why & -> & _)|[[-> _]|(rc & res' & _ & Ha & _)]].
  - split; [by apply lr_reject|]. intros. by apply same_owned_slots.
  - split; [done|]. intros. by apply same_owned_slots.
  - split; [|by intros; eapply accept_owned; [..|exact Ha]].
    replace l' with (Ledger.accept ch ts io rc None (Some rank) node false l).1 by (by rewrite Ha).
    by apply lr_accept.
Qed.

(** A mutation keeps the ledger reachable and touches no other rank's evidence. *)
Lemma run_job_ledger io j h l :
  ledger h = Some l -> lreach false l0 l -> commits_staged j ->
  exists l', ledger (run_job canonical_hash ts io j h) = Some l' /\ lreach false l0 l' /\
    forall r, job_rank j <> Some r -> same_owned r l l'.
Proof.
  intros Hl Hr Hc. destruct (lreach_context l Hr) as [Hok Hctx]. unfold run_job. rewrite Hl.
  destruct j as [rank id raw node|rank|rank ps|rank cand|].
  - destruct (accept_raw _ _ _ _ _ _ _) as [l' r] eqn:Ha. apply accept_raw_reach in Ha as [Hr' Ho]; [|done].
    exists l'. split; [|split; [done|]].
    + unfold completed. by destruct r as [[[] m]|e].
    + intros x Hx. apply Ho. cbn in Hx. congruence.
  - destruct (Ledger.drop_rank _ _ _) as [l' r] eqn:Ha. exists l'. split; [|split].
    + unfold completed. by destruct r.
    + replace l' with (Ledger.drop_rank (jio_revoke io) rank l).1 by (by rewrite Ha). by apply lr_drop.
    + intros x Hx. eapply drop_owned; [exact Hok| |exact Ha]. cbn in Hx. congruence.
  - exists l. split; [|split; [done|]].
    + unfold completed. by destruct (decode_snapshot_receipts _ _ _ _ _).
    + intros x _. by apply same_owned_slots.
  - destruct (Ledger.commit_rank_snapshot _ _ _ _ _) as [l' r] eqn:Ha. exists l'. split; [|split].
    + unfold completed. by destruct r.
    + destruct Hc as (ps & lst & raws & rs & node & Hst & _ & _ & Hstage).
      replace l' with (Ledger.commit_rank_snapshot (jio_revoke io) (jio_bind io) rank cand l).1
        by (by rewrite Ha). by eapply lr_commit_rank.
    + destruct Hc as [ps Hst]. destruct (staged_from_ok _ _ _ _ _ _ He Hst) as [Hokc Hcc].
      intros x Hx. eapply commit_owned; [exact Hok|exact Hokc| | |exact Ha]; [|cbn in Hx; congruence].
      unfold same_context in *. intuition congruence.
  - destruct (Ledger.flush_store _ _) as [l' r] eqn:Ha. exists l'. split; [|split].
    + unfold completed. by destruct r.
    + replace l' with (Ledger.flush_store (jio io) l).1 by (by rewrite Ha). by apply lr_flush.
    + intros x _. apply with_store_frame in Ha as [_ Hs]. by apply same_owned_slots.
Qed.

(** The waiting coroutine a mutation wakes up. *)
Lemma run_job_snapshots io j h r :
  (job_rank j <> Some r \/ awaits r j = false) ->
  snapshots (run_job canonical_hash ts io j h) !! r = snapshots h !! r.
Proof.
  intros Hj. unfold run_job, completed, set_phase.
  destruct (ledger h), j as [rank id raw node|rank|rank ps|rank cand|]; repeat case_match; try done;
    cbn; rewrite lookup_alter_ne; try done; intros ->; cbn in Hj; destruct Hj as [?|?%Z.eqb_neq]; done.
Qed.

Lemma staged_result rank ps h l c :
  ledger h = Some l -> lreach false l0 l ->
  decode_snapshot_receipts canonical_hash ts rank ps h = Ok (Ok c) ->
  exists cand, c = Some cand /\ staged_from l0 rank ps cand.
Proof.
  intros Hl Hr. unfold decode_snapshot_receipts. rewrite Hl.
  destruct (decode_receipts ps) as [raws|] eqn:Hd; [|done]. destruct (coordinator h); [|done].
  destruct (stage_raw _ _ _ _ _ _) as [[cand|]|] eqn:Hs; [|done..]. intros [= <-].
  exists cand. split; [done|]. apply stage_raw_typed in Hs as (rs & Hf & Hst).
  exists l, raws, rs, (default "" (session_node h rank)). done.
Qed.

Lemma waits_commits l q rank w cand :
  waits_ok l (rank_jobs rank q) rank w -> JCommit rank cand ∈ q -> exists ps, staged_from l0 rank ps cand.
Proof.
  intros Hw Hin. assert (JCommit rank cand ∈ rank_jobs rank q) as Hj
    by (by apply list_elem_of_filter).
  assert (forall js, no_wait rank js -> JCommit rank cand ∈ js -> False) as Hno.
  { intros js Hn Hi. apply (proj1 (Forall_forall _ _) Hn) in Hi. cbn in Hi.
    by apply Z.eqb_neq in Hi. }
  destruct w as [f|]; cbn in Hw; [|exfalso; eauto]. destruct (if_phase f) as [|r| |r].
  - destruct Hw as (js1 & Hjs & Hn). rewrite Hjs in Hj.
    apply elem_of_app in Hj as [Hj|?%list_elem_of_singleton]; [exfalso; eauto|done].
  - destruct Hw as [Hn _]. exfalso; eauto.
  - destruct Hw as (cand' & Hjs & Hst). rewrite Hjs in Hj.
    apply list_elem_of_singleton in Hj as [= ->]. eauto.
  - destruct Hw as [Hn _]. exfalso; eauto.
Qed.

Lemma disciplined_commits h j : disciplined h -> j ∈ durable_pending h -> commits_staged j.
Proof.
  intros (l & _ & _ & Hw) Hin. destruct j; try done. eapply waits_commits; [apply Hw|done].
Qed.

(** The awaited mutation is the last of its rank. *)
Lemma waits_awaited l j js r w :
  awaits r j = true -> waits_ok l (j :: js) r w ->
  exists f, w = Some f /\ js = [] /\
    ((if_phase f = Staging /\ j = JStage r (if_receipts f)) \/
     (exists cand, if_phase f = Committing /\ j = JCommit r cand /\ staged_from l0 r (if_receipts f) cand)).
Proof.
  intros Ha. assert (forall js', no_wait r (j :: js') -> False) as Hno.
  { intros js' Hn. apply Forall_cons in Hn as [Hn _]. congruence. }
  destruct w as [f|]; cbn; [|by intros ?%Hno]. destruct (if_phase f) as [|res| |res] eqn:Hp.
  - intros (js1 & Hjs & Hn). destruct js1 as [|j1 js1]; cbn in Hjs.
    + injection Hjs as -> ->. exists f. eauto.
    + injection Hjs as <- _. by apply Hno in Hn.
  - by intros [?%Hno _].
  - intros (cand & [= -> ->] & Hst). exists f. split_and!; [done..|]. right. eauto.
  - by intros [?%Hno _].
Qed.

Lemma set_completed {A} (r : result durable_error A) h :
  ledger (completed r h) = ledger h /\ snapshots (completed r h) = snapshots h.
Proof. by destruct r. Qed.

Lemma disciplined_work io h : disciplined h -> disciplined (work io h).
Proof.
  intros Hd. pose proof (disciplined_commits h) as Hcs. pose proof Hd as (l & Hl & Hr & Hw).
  unfold HeadChannel.work. destruct (durable_pending h) as [|j q] eqn:Hq; [done|].
  set (h1 := set_durable q _ h).
  destruct (run_job_ledger io j h1 l Hl Hr) as (l' & Hl' & Hr' & Ho).
  { apply Hcs; [done|by left]. }
  exists l'. split; [done|]. split; [done|]. intros r.
  destruct (run_job_unworked canonical_hash ts io j h1) as [_ _ -> _ _ _ _ _]. cbn [durable_pending h1 set_durable].
  specialize (Hw r). rewrite rank_jobs_cons in Hw.
  destruct (decide (job_rank j = Some r)) as [Hj|Hj].
  2: { rewrite run_job_snapshots by (by left). apply (waits_same_owned l); [by apply Ho|done]. }
  destruct (awaits r j) eqn:Ha.
  - apply waits_awaited in Hw as (f & Hf & Hjs & [[Hp ->]|(cand & Hp & -> & Hst)]); [| |done]; rewrite Hjs;
      unfold run_job in Hl' |- *; change (ledger h1) with (ledger h) in *; rewrite Hl in Hl' |- *.
    + rewrite (proj2 (set_completed _ _)). cbn. rewrite lookup_alter_eq, Hf. cbn. split; [constructor|].
      intros c Hc. split; [done|]. by eapply (staged_result _ _ h1).
    + destruct (Ledger.commit_rank_snapshot _ _ _ _ _) as [l2 res] eqn:Hcm.
      rewrite (proj1 (set_completed _ _)) in Hl'. rewrite (proj2 (set_completed _ _)). cbn in Hl' |- *. injection Hl' as ->.
      rewrite lookup_alter_eq, Hf. cbn. split; [constructor|]. intros Hres. split; [done|].
      exists cand. split; [done|]. destruct (staged_from_ok _ _ _ _ _ _ He Hst) as [Hokc Hcc].
      destruct (lreach_context l Hr) as [Hok Hctx].
      destruct res as [[]|]; [|done]. eapply (commit_own canonical_hash ts); [exact Hok|exact Hokc| |exact Hcm].
      unfold same_context in *. intuition congruence.
  - rewrite run_job_snapshots by (by right). cbn. destruct (snapshots h !! r) as [f|]; cbn in *.
    2: by apply Forall_cons in Hw as [_ Hw].
    destruct (if_phase f) as [|res| |res].
    + destruct Hw as (js1 & Hjs & Hn). destruct js1 as [|j1 js1]; cbn in Hjs.
      * injection Hjs as -> _. cbn in Ha. by apply Z.eqb_neq in Ha.
      * injection Hjs as -> ->. apply Forall_cons in Hn as [_ Hn]. eauto.
    + destruct Hw as [Hn Hw]. apply Forall_cons in Hn as [_ Hn]. split; [done|]. by intros c [? _]%Hw.
    + destruct Hw as (cand & [= -> _] & _). cbn in Ha. by apply Z.eqb_neq in Ha.
    + destruct Hw as [Hn Hw]. apply Forall_cons in Hn as [_ Hn]. split; [done|]. by intros [? _]%Hw.
Qed.

#[local] Ltac head_fields :=
  cbn [durable_pending snapshots set_durable set_snapshots set_observations enqueue forget_snapshot
       drop_observations fail set_failures cancel_futures] in *.

(** Appending a mutation concerns its own rank only. *)
Lemma waits_enqueue l q j r w :
  job_rank j <> Some r -> waits_ok l (rank_jobs r q) r w -> waits_ok l (rank_jobs r (q ++ [j])) r w.
Proof. intros Hj. by rewrite rank_jobs_snoc, decide_False, app_nil_r. Qed.

Lemma disciplined_move who h h' : move who h h' -> disciplined h -> disciplined h'.
Proof.
  intros Hm Hd. pose proof Hd as (l & Hl & Hr & Hw). destruct Hm as [h h' Hq|j h _ Ha Hj Hn|h|rank o now h|
    rank h|rank f h _ _ Hn _ Hp|rank f cand h _ _ Hf Hp|rank f h _ Hf Hp|now rank f h _ Hf Hp|io h|
    rank h _ Hs|running what h]; try (by exists l); try (exists l; split; [done|]; split; [done|]).
  - destruct Hq. exists l. rewrite q_ledger, q_pending, q_snapshots. done.
  - intros r. head_fields. destruct (decide (job_rank j = Some r)) as [Hjr|]; [|by apply waits_enqueue].
    rewrite rank_jobs_snoc, decide_True by done. destruct Hj as [|Hj]; [congruence|].
    specialize (Hw r). rewrite (Hn r) in Hw |- * by congruence. by apply waits_none.
  - intros r. head_fields. rewrite lookup_insert. destruct (decide (rank = r)) as [->|Hne].
    2: { apply waits_enqueue; [cbn; congruence|done]. }
    rewrite rank_jobs_snoc, decide_True by done. cbn [waits_ok]. rewrite Hp. eexists. split; [done|].
    specialize (Hw r). by rewrite Hn in Hw.
  - intros r. head_fields. rewrite lookup_insert. destruct (decide (rank = r)) as [->|Hne].
    2: { apply waits_enqueue; [cbn; congruence|done]. }
    specialize (Hw r). rewrite Hf in Hw. cbn in Hw. rewrite Hp in Hw. destruct Hw as [_ Hw].
    destruct (Hw _ eq_refl) as (Hjs & cand' & [= <-] & Hst).
    rewrite rank_jobs_snoc, Hjs, decide_True by done. cbn [waits_ok]. cbn. eauto.
  - intros r. head_fields. rewrite lookup_delete. destruct (decide (rank = r)) as [->|Hne]; [|apply Hw].
    specialize (Hw r). rewrite Hf in Hw. by apply waits_settled in Hw.
  - intros r. head_fields. rewrite lookup_delete. destruct (decide (rank = r)) as [->|Hne]; [|apply Hw].
    specialize (Hw r). rewrite Hf in Hw. apply waits_settled in Hw; [done|].
    by destruct Hp as [-> | ->].
  - by apply disciplined_work.
  - intros r. head_fields. destruct (decide (rank = r)) as [->|Hne].
    + rewrite lookup_alter_eq. destruct Hs as [f ->]. cbn [fmap option_fmap option_map].
      apply waits_cancelled, no_wait_unawaited.
    + rewrite lookup_alter_ne, rank_jobs_unawaited by done. apply Hw.
  - intros r. specialize (Hw r). apply (waits_shutdown _ _ running) in Hw. head_fields.
    rewrite map_lookup_imap. by destruct (snapshots h !! r).
Qed.

Lemma disciplined_run ranks c evs : disciplined (run evs (init ranks c (Some l0))).
Proof.
  apply (run_invariant _ _ _ disciplined (fun _ => True)); [|by apply Forall_true|].
  - intros who h1 h2 _. apply disciplined_move.
  - exists l0. split; [done|]. split; [apply lr_empty|]. intros rank. cbn. constructor.
Qed.

(** ** What an accepted snapshot defines *)

(** The only way in which a coroutine ends with acceptance. *)
Lemma accepted_resume clk now rank h h' d :
  resume snapshot_hash clk now rank h = (h', Ok (Some (true, d))) ->
  exists f h1, snapshots h !! rank = Some f /\ ledger h1 = ledger h /\
    observations_by_rank h1 = observations_by_rank h /\
    observation_arrivals h1 = observation_arrivals h /\
    h' = forget_snapshot rank (install_snapshot now rank f h1) /\
    (if_phase f = StagedWith (Ok (Ok None)) \/ if_phase f = CommittedWith (Ok tt)).
Proof.
  unfold resume. destruct (snapshots h !! rank) as [f|]; [|done].
  destruct (if_phase f) as [|r| |r] eqn:Hp; try done.
  - unfold resume_staged. destruct r as [[cand|m]|e]; try done.
    set (x := match coordinator h with None => _ | _ => _ end).
    assert (ledger x.1 = ledger h /\ observations_by_rank x.1 = observations_by_rank h /\
            observation_arrivals x.1 = observation_arrivals h) as (H1 & H2 & H3).
    { unfold x. destruct (coordinator h) as [c|]; [|done].
      by destruct (HeadDriver.on_snapshot _ _ _ _ _ _ _) as [? []]. }
    destruct x as [h1 [[] why]]; cbn [fst negb] in *; [|done]. destruct cand as [l|].
    + by destruct (submit_durable _ _) as [? [[]|]].
    + intros [= <- <-]. exists f, h1. eauto 8.
  - unfold resume_committed. destruct r as [[]|]; [|done]. intros [= <- <-]. exists f, h. eauto 8.
Qed.

Lemma record_fields rank os h :
  let h' := fold_left (record_observation_failure rank) os h in
  ledger h' = ledger h /\ observations_by_rank h' = observations_by_rank h /\
  observation_arrivals h' = observation_arrivals h.
Proof. intros h'. destruct (record_quiet rank os h h (quiet_refl h)). done. Qed.

Lemma install_fields now rank f h :
  let h' := install_snapshot now rank f h in
  ledger h' = ledger h /\
  observations_by_rank h' = <[rank := if_observations f]> (observations_by_rank h) /\
  observation_arrivals h' = snapshot_arrivals now rank f h.
Proof.
  unfold install_snapshot. set (h1 := set_payloads _ _).
  destruct (record_fields rank (map_to_list (if_observations f)).*2 h1) as (-> & -> & ->). done.
Qed.

Lemma from_dict_attr p raw name :
  receipt_from_dict p = Ok raw -> name <> "schema_version" ->
  body_attr name p = attr name (raw_data raw).
Proof.
  unfold receipt_from_dict. destruct p as [| | | | | |d]; try done. intros H Hn. res_inv.
  destruct (attr "capabilities" d); try done. res_inv. cbn [raw_data body_attr]. unfold attr, dget_default.
  by rewrite dget_dset_ne.
Qed.

(** A snapshot that was accepted was staged from its receipts, and the rank's evidence is
    that of the staged candidate. *)
Lemma accepted_staged ranks c evs clk now rank h' d :
  let h := run evs (init ranks c (Some l0)) in
  resume snapshot_hash clk now rank h = (h', Ok (Some (true, d))) ->
  exists f h1 l cand,
    snapshots h !! rank = Some f /\ ledger h1 = Some l /\
    observations_by_rank h1 = observations_by_rank h /\
    h' = forget_snapshot rank (install_snapshot now rank f h1) /\
    snapshot_of h rank f /\ lreach false l0 l /\
    staged_from l0 rank (if_receipts f) cand /\ same_owned rank cand l.
Proof.
  intros h Hres. apply accepted_resume in Hres as (f & h1 & Hf & Hl1 & Ho1 & Ha1 & -> & Hp).
  destruct (disciplined_run ranks c evs) as (l & Hl & Hr & Hw). fold h in Hl, Hw.
  destruct (projected_run canonical_hash snapshot_hash ts ranks c (Some l0) evs) as [_ _ Hs]. fold h in Hs.
  specialize (Hw rank). rewrite Hf in Hw. cbn in Hw.
  assert (exists cand, staged_from l0 rank (if_receipts f) cand /\ same_owned rank cand l)
    as (cand & Hst & Hown).
  { destruct Hp as [Hp|Hp]; rewrite Hp in Hw; destruct Hw as [_ Hw].
    - by destruct (Hw _ eq_refl) as (_ & cand & ? & _).
    - destruct (Hw eq_refl) as (_ & ?). done. }
  exists f, h1, l, cand. split_and!; try done; [by rewrite Hl1|by apply Hs].
Qed.

(** C18: An accepted snapshot defines the rank's evidence: when the coroutine that handles a
    snapshot of [rank] ends with acceptance, in any run of the head channel and however
    the other ranks' mutations were interleaved with it, the receipts held for the rank
    are exactly those of the snapshot's receipt items, its supervisor's receipt is among
    them, its projection is exactly the snapshot's observations, all of them received
    now, and no other rank's projection has changed. *)
Theorem snapshot_defines_rank_evidence ranks c evs clk now rank h' d :
  let h := run evs (init ranks c (Some l0)) in
  resume snapshot_hash clk now rank h = (h', Ok (Some (true, d))) ->
  exists f l',
    snapshots h !! rank = Some f /\ ledger h' = Some l' /\ lreach false l0 l' /\
    evidence_of rank (NodeChannel.bodies "receipt" (if_items f)) l' /\
    is_Some (dget (supervisor_requirement rank) (Ledger.by_slot l')) /\
    fold_res stage_observation ∅ (NodeChannel.bodies "observation" (if_items f))
    = Ok (if_observations f) /\
    observations_by_rank h' = <[rank := if_observations f]> (observations_by_rank h) /\
    (forall k, observation_arrivals h' !! arrival_key rank k = (fun _ => now) <$> if_observations f !! k).
Proof.
  intros h (f & h1 & l & cand & Hf & Hl & Ho1 & -> & [Hrec Hsup Hobs _] & Hr & Hst & Hown)%accepted_staged.
  destruct (install_fields now rank f h1) as (Hil & Hio & Hia). destruct (lreach_context l Hr) as [Hok _].
  pose proof (staged_evidence _ _ _ _ _ _ _ He Hst Hok Hown) as Hev.
  exists f, l. rewrite <- Hrec. split; [done|]. split; [|split; [done|split; [done|split; [|split; [done|split]]]]].
  - cbn. rewrite Hil. exact Hl.
  - apply existsb_exists in Hsup as (p & Hin & Hid). apply list_elem_of_In in Hin.
    destruct Hev as [_ Hev]. destruct (Hev p Hin) as (raw & k & r & Hd & Hk & Hg & _).
    rewrite (from_dict_attr _ _ _ Hd), Hk in Hid by done. cbn in Hid. bool_prop. subst k. eauto.
  - cbn. by rewrite Hio, Ho1.
  - intros k. cbn. rewrite Hia, lookup_arrivals, decide_True by done. done.
Qed.

(** ** A lost rank *)

Definition unheld (rank : Z) (l : Ledger.t B) : Prop :=
  forall k r, dget k (Ledger.by_slot l) = Some r -> Receipt.owner_rank r <> Some rank.

Lemma unheld_owned rank l :
  ledger_ok l -> unheld rank l <-> forall k, dget k (Ledger.owned rank (Ledger.by_slot l)) = None.
Proof.
  intros Hok. split.
  - intros Hu k. destruct (dget k _) as [r|] eqn:Hg; [|done].
    apply (owned_lookup canonical_hash ts) in Hg as [Hg Ho]; [|done]. by apply Hu in Hg.
  - intros Hn k r Hg Ho. assert (dget k (Ledger.owned rank (Ledger.by_slot l)) = Some r) as Hs
      by (by apply (owned_lookup canonical_hash ts)). by rewrite Hn in Hs.
Qed.

(** A failure is recorded, or the revocation is queued with fewer than [n] mutations
    before it and none of the rank after it, or the rank has no evidence left. *)
Definition revoking (rank : Z) (n : nat) h : Prop :=
  is_Some (first_failure h) \/
  (exists q1 q2, durable_pending h = q1 ++ JDrop rank :: q2 /\ rank_jobs rank q2 = [] /\
     (length q1 < n)%nat) \/
  (rank_jobs rank (durable_pending h) = [] /\ exists l, ledger h = Some l /\ unheld rank l).

Lemma grows_failure h h' : grows h h' -> is_Some (first_failure h) -> is_Some (first_failure h').
Proof. unfold first_failure. intros [[xs ->] _ _ _]. apply DiagnosticProps.extend_some. Qed.

Lemma fail_failure f h : is_Some (first_failure (fail f h)).
Proof. apply DiagnosticProps.append_some. Qed.

Lemma revoking_same rank n h h' :
  grows h h' -> ledger h' = ledger h -> durable_pending h' = durable_pending h ->
  revoking rank n h -> revoking rank n h'.
Proof.
  intros Hg Hl Hq [?|[?|?]]; [left; by eapply grows_failure|right; left|right; right]; by rewrite ?Hl, Hq.
Qed.

Lemma revoking_enqueue rank n j h h' :
  grows h h' -> ledger h' = ledger h -> durable_pending h' = durable_pending h ++ [j] ->
  job_rank j <> Some rank -> revoking rank n h -> revoking rank n h'.
Proof.
  intros Hg Hl Hq Hj [?|[(q1 & q2 & Hp & Hn & Hlen)|[Hn Hu]]]; [left; by eapply grows_failure|..].
  - right. left. exists q1, (q2 ++ [j]). rewrite Hq, Hp, rank_jobs_snoc, Hn, decide_False by done.
    by rewrite <- app_assoc.
  - right. right. by rewrite Hl, Hq, rank_jobs_snoc, Hn, decide_False.
Qed.

Lemma revoking_cancel rank rank' n h h' :
  grows h h' -> ledger h' = ledger h ->
  durable_pending h' = List.filter (fun j => negb (awaits rank' j)) (durable_pending h) ->
  rank <> rank' -> revoking rank n h -> revoking rank n h'.
Proof.
  intros Hg Hl Hq Hne [?|[(q1 & q2 & Hp & Hn & Hlen)|[Hn Hu]]]; [left; by eapply grows_failure|..].
  - right. left. rewrite Hq, Hp, List.filter_app. cbn [List.filter awaits negb].
    do 2 eexists. split; [done|]. rewrite rank_jobs_unawaited by done. split; [done|].
    eapply Nat.le_lt_trans; [apply List.filter_length_le|done].
  - right. right. rewrite Hl, Hq, rank_jobs_unawaited by done. done.
Qed.

Lemma drop_job io rank h l :
  ledger h = Some l -> lreach false l0 l ->
  let h' := run_job canonical_hash ts io (JDrop rank) h in
  is_Some (first_failure h') \/ exists l', ledger h' = Some l' /\ unheld rank l'.
Proof.
  intros Hl Hr. destruct (lreach_context l Hr) as [Hok _]. unfold run_job. rewrite Hl.
  destruct (Ledger.drop_rank _ _ _) as [l' [[]|e]] eqn:Hd; cbn [store_result completed].
  - right. exists l'. split; [done|]. apply (drop_rank_spec ch ts) in Hd as (_ & _ & Hg); [|done].
    intros k r. rewrite Hg by done. destruct (dget k _) as [r'|]; [|done].
    case_decide; [done|]. by intros [= ->].
  - left. apply (fail_failure _ (set_ledger (Some l') h)).
Qed.

(** One turn of the worker brings the revocation forward. *)
Lemma revoking_work io rank n h :
  disciplined h -> revoking rank (S n) h -> revoking rank n (work io h).
Proof.
  intros Hd Hrev. pose proof (move_grows canonical_hash ts None _ _ (MWork canonical_hash ts None io h)) as Hg.
  destruct Hrev as [Hf|Hrev]; [left; by eapply grows_failure|].
  pose proof Hd as (l & Hl & Hr & _). pose proof (disciplined_commits h) as Hcs.
  destruct (work_unworked canonical_hash ts io h) as [_ _ Hpend _ _ _ _ _].
  unfold HeadChannel.work in *. destruct (durable_pending h) as [|j q] eqn:Hq.
  { right. destruct Hrev as [(q1 & q2 & Hp & _)|Hu]; [by destruct q1|]. right. by rewrite Hq. }
  set (h1 := set_durable q _ h) in *. cbn [durable_pending set_durable tail] in Hpend.
  destruct Hrev as [(q1 & q2 & Hp & Hn & Hlen)|[Hn (l1 & Hl1 & Hu)]].
  - destruct q1 as [|j1 q1]; injection Hp as -> ->.
    + destruct (drop_job io rank h1 l Hl Hr) as [?|?]; [by left|]. right. right.
      by rewrite Hpend.
    + right. left. exists q1, q2. cbn in Hlen. split_and!; [done|done|lia].
  - rewrite rank_jobs_cons in Hn. destruct (decide (job_rank j = Some rank)) as [|Hj]; [done|].
    right. right. rewrite Hpend. split; [done|].
    destruct (run_job_ledger io j h1 l Hl Hr) as (l' & Hl' & Hr' & Ho); [by apply Hcs; [|left]|].
    exists l'. split; [done|]. assert (l1 = l) as -> by congruence.
    destruct (lreach_context l Hr) as [Hok _], (lreach_context l' Hr') as [Hok' _].
    apply unheld_owned; [done|]. intros k. rewrite (Ho rank Hj). by apply unheld_owned.
Qed.

Lemma revoking_weaken rank n m h : (n <= m)%nat -> revoking rank n h -> revoking rank m h.
Proof. intros Hle [?|[(q1 & q2 & ? & ? & ?)|?]]; [by left| |by right; right]. right. left. exists q1, q2. split_and!; [done|done|lia]. Qed.

Lemma revoking_move who rank n h h' :
  move who h h' -> who <> Some rank -> disciplined h -> revoking rank n h -> revoking rank n h'.
Proof.
  intros Hm Hwho Hd Hrev. pose proof (move_grows canonical_hash ts _ _ _ Hm) as Hg.
  destruct Hm as [h h' Hq|j h _ Ha Hj Hn|h|rank' o now h|rank' h|rank' f h Hw|rank' f cand h Hw|rank' f h|
    now rank' f h|io h|rank' h Hw|running what h];
    try (by eapply revoking_same).
  - destruct Hq. by eapply revoking_same.
  - eapply revoking_enqueue; try done. destruct Hj; congruence.
  - eapply revoking_enqueue; try done. cbn. congruence.
  - eapply revoking_enqueue; try done. cbn. congruence.
  - apply revoking_work; [done|]. by eapply revoking_weaken; [|exact Hrev]; lia.
  - eapply revoking_cancel; try done. congruence.
  - left. apply fail_failure.
Qed.

Definition is_work (ev : event) : bool := match ev with EWork _ => true | _ => false end.
Definition turns (evs : list event) : nat := length (List.filter is_work evs).

Lemma step_disciplined ev h : disciplined h -> disciplined (HeadChannel.step canonical_hash snapshot_hash ts ev h).
Proof.
  intros Hd. apply (run_invariant canonical_hash snapshot_hash ts disciplined (fun _ => True) [ev]);
    [|by apply Forall_true|done]. intros who h1 h2 _. apply disciplined_move.
Qed.

Lemma revoking_step rank n ev h :
  actor ev <> Some rank -> disciplined h ->
  revoking rank (n + if is_work ev then 1 else 0) h ->
  revoking rank n (HeadChannel.step canonical_hash snapshot_hash ts ev h).
Proof.
  intros Ha Hd Hrev. destruct (is_work ev) eqn:Hw.
  - destruct ev; try done. rewrite Nat.add_1_r in Hrev. by apply revoking_work.
  - rewrite Nat.add_0_r in Hrev. pose proof (step_moves canonical_hash snapshot_hash ts ev h) as Hm.
    clear Hw. revert Hd Hrev. induction Hm as [h|h h1 h2 Hm _ IH]; [done|]. intros Hd Hrev.
    apply IH; [by eapply disciplined_move|]. by eapply revoking_move.
Qed.

Lemma revoking_run rank n evs h :
  Forall (fun ev => actor ev <> Some rank) evs -> disciplined h ->
  revoking rank (n + turns evs) h -> revoking rank n (run evs h) /\ disciplined (run evs h).
Proof.
  revert h. induction evs as [|ev evs IH]; intros h Ha Hd Hrev.
  { cbn in Hrev. by rewrite Nat.add_0_r in Hrev. }
  apply Forall_cons in Ha as [Ha Has]. apply IH; [done|by apply step_disciplined|].
  apply revoking_step; [done..|]. eapply revoking_weaken; [|exact Hrev].
  unfold turns. cbn [List.filter]. destruct (is_work ev); cbn; lia.
Qed.

(** C19: Losing a rank without a GOODBYE: when the sink has returned without raising (the queue of
    the durable writer was neither full nor closed, and no snapshot of the rank was being
    handled), the rank's projection is gone and it is listed as unexpectedly disconnected;
    and after as many turns of the worker as there were mutations queued, in any interleaving
    with whatever the other ranks and the owner do, but without further events of this rank,
    either a failure is on record or no receipt of the rank is held, so that the ledger of a
    valid plan is not satisfied. *)
Theorem lost_rank_evidence_revoked ranks c evs clk rank h1 evs' :
  let h := run evs (init ranks (Some c) (Some l0)) in
  waiting rank h = false ->
  on_session_change clk rank false false h = (h1, Ok tt) ->
  Forall (fun ev => actor ev <> Some rank) evs' ->
  (length (durable_pending h1) <= turns evs')%nat ->
  observations_by_rank h1 !! rank = None /\
  (forall k, observation_arrivals h1 !! arrival_key rank k = None) /\
  rank ∈ unexpected_disconnects h1 /\
  (is_Some (first_failure (run evs' h1)) \/
   exists l, ledger (run evs' h1) = Some l /\ unheld rank l /\
     (DeploymentPlan.post_init (Ledger.plan l0) = Ok tt ->
      0 <= rank < DeploymentPlan.num_nodes (Ledger.plan l0) -> Ledger.satisfied l = false)).
Proof.
  intros h Hw Hs Hact Hturns. pose proof (disciplined_run ranks (Some c) evs) as Hd. fold h in Hd.
  assert (disciplined h1) as Hd1.
  { pose proof (step_disciplined (ESession clk rank false false) h Hd) as Hd1. cbn in Hd1.
    by rewrite Hw, Hs in Hd1. }
  pose proof (coordinator_run canonical_hash snapshot_hash ts ranks (Some c) (Some l0) evs) as Hc. fold h in Hc.
  destruct Hd as (l & Hl & Hr & _). unfold on_session_change in Hs.
  destruct (coordinator h) as [c'|]; [|by destruct (proj2 Hc ltac:(eauto))].
  cbn [ledger set_coordinator negb] in Hs. rewrite Hl in Hs.
  destruct (submit_durable _ _) as [h2 [[]|e]] eqn:Hsub; [|done].
  apply submit_room in Hsub as [_ ->]. injection Hs as <-.
  set (h2 := set_disconnects _ _ _) in *. split_and!.
  - unfold h2. cbn. by rewrite lookup_delete_eq.
  - intros k. unfold h2. cbn [coordinator set_disconnects drop_observations
      enqueue set_durable set_observations set_coordinator observation_arrivals].
    by rewrite lookup_without, decide_True.
  - unfold h2. cbn. case_bool_decide; cbn; [done|]. apply elem_of_app. right. by left.
  - destruct (revoking_run rank 0 evs' h2 Hact Hd1) as [Hrev (l' & Hl' & Hr' & _)].
    { right. left. exists (durable_pending h), []. split; [done|]. split; [done|].
      unfold h2 in Hturns. cbn in Hturns. rewrite length_app in Hturns. cbn in *. lia. }
    destruct Hrev as [?|[(q1 & q2 & _ & _ & ?)|[_ (l2 & Hl2 & Hu)]]]; [by left|lia|]. right.
    exists l2. split; [done|]. split; [done|]. intros Hp Hrank. assert (l' = l2) as -> by congruence.
    destruct (lreach_context l2 Hr') as [Hok (Hpl & _)].
    apply (lost_rank_unsatisfied ch ts l2 rank); [done|by rewrite Hpl..|done].
Qed.

(** A revocation that finds the queue full is refused: the sink raises, and neither the
    ledger nor the queue nor the rank's projection nor the list of unexpected
    disconnects nor the failures change -- the rank's evidence stays. *)
Theorem full_queue_loses_revocation c clk rank h :
  coordinator h = Some c -> is_Some (ledger h) -> durable_closed h = false ->
  durable_limit h <= Z.of_nat (length (durable_pending h)) ->
  exists h1, on_session_change clk rank false false h = (h1, Err QueueFull) /\
    ledger h1 = ledger h /\ durable_pending h1 = durable_pending h /\
    observations_by_rank h1 = observations_by_rank h /\
    unexpected_disconnects h1 = unexpected_disconnects h /\ failures h1 = failures h.
Proof.
  intros Hc [l Hl] Hcl Hfull. unfold on_session_change. rewrite Hc.
  set (h1 := set_coordinator _ h). exists h1. cbn [ledger h1 set_coordinator]. rewrite Hl. cbn [negb].
  unfold submit_durable. change (durable_closed h1) with (durable_closed h).
  change (durable_limit h1) with (durable_limit h). change (durable_pending h1) with (durable_pending h).
  rewrite Hcl. by apply Z.leb_le in Hfull as ->.
Qed.
End Evidence.
