(* ===== verification/HeadStart.v ===== *)
(** The start phases of the head channel: START is final only once every rank has
    taken its command and answered it, and whatever else happens is on record. *)

From S2P Require Import Prelude PyValue Atomic Json Envelopes Contracts Snapshots NodeChannel Session SessionProps Receipts Bindings Ledger HeadChannel HeadChannelProps.

Import HeadChannel.

Section Start.
Context {B : Type}.
Implicit Types h : HeadChannel.t (B := B).

(** The rank took the command and answered that it succeeded. *)
Definition answered (operation : string) (deliver : Z -> call bool) (answer : Z -> call (option dict))
    (rank : Z) : Prop :=
  deliver rank = Returned true /\ exists r, answer rank = Returned r /\ valid_start_result operation r = true.

(** The coordinator would start the generation. *)
Definition may_start h : Prop := forall c, coordinator h = Some c -> (SessionCoordinator.may_start c).1 = true.

(** What a failed phase leaves: START is not recorded, a failure is, unless the loop
    itself raised, which the callers record. *)
Definition unstarted h h' : Prop := started h' = started h /\ is_Some (first_failure h').

Lemma unstarted_fail f h : unstarted h (fail f h).
Proof. split; [done|]. apply DiagnosticProps.append_some. Qed.

Lemma deliver_spec op deliver n ranks h :
  match deliver_each op deliver n ranks h with
  | (h', Through) => h' = h /\ Forall (fun r => deliver r = Returned true) ranks
  | (h', Return m) => unstarted h h' /\ m < n + Z.of_nat (length ranks) /\
      ~ Forall (fun r => deliver r = Returned true) ranks
  | (h', Raise) => h' = h /\ ~ Forall (fun r => deliver r = Returned true) ranks
  end.
Proof.
  revert n. induction ranks as [|r ranks IH]; intros n; cbn [deliver_each]; [done|].
  destruct (deliver r) as [| |[]] eqn:Hr.
  - split_and!; [apply unstarted_fail|cbn; lia|]. by intros [? ?]%Forall_cons; congruence || auto.
  - split; [done|]. by intros [? ?]%Forall_cons; congruence || auto.
  - specialize (IH (n + 1)). destruct (deliver_each _ _ _ _ _) as [h' []].
    + destruct IH. split; [done|]. by constructor.
    + destruct IH as (? & ? & ?). split_and!; [done|cbn; lia|]. by intros [? ?]%Forall_cons; congruence || auto.
    + destruct IH. split; [done|]. by intros [? ?]%Forall_cons; congruence || auto.
  - split_and!; [apply unstarted_fail|cbn; lia|]. by intros [? ?]%Forall_cons; congruence || auto.
Qed.

Lemma await_spec op answer ranks h :
  let ok r := exists d, answer r = Returned d /\ valid_start_result op d = true in
  match await_each op answer ranks h with
  | (h', Through) => h' = h /\ Forall ok ranks
  | (h', Return m) => unstarted h h' /\ m = 0 /\ ~ Forall ok ranks
  | (h', Raise) => h' = h /\ ~ Forall ok ranks
  end.
Proof.
  intros ok. induction ranks as [|r ranks IH]; cbn [await_each]; [done|].
  destruct (answer r) as [| |d] eqn:Hr.
  - split_and!; [apply unstarted_fail|done|]. by intros [(? & ? & ?) _]%Forall_cons; congruence.
  - split; [done|]. by intros [(? & ? & ?) _]%Forall_cons; congruence.
  - destruct (valid_start_result op d) eqn:Hd.
    2: { split_and!; [apply unstarted_fail|done|]. by intros [(? & ? & ?) _]%Forall_cons; congruence. }
    destruct (await_each _ _ _ _) as [h' []].
    + destruct IH. split; [done|]. constructor; [unfold ok; eauto|done].
    + destruct IH as (? & ? & ?). split_and!; [done..|]. by intros [? ?]%Forall_cons; congruence || auto.
    + destruct IH. split; [done|]. by intros [? ?]%Forall_cons; congruence || auto.
Qed.

Lemma close_spec refused sent h h' res :
  close_barrier true refused sent h = (h', res) ->
  (may_start h /\ started h' = true /\ res = Some sent) \/
  (~ may_start h /\ unstarted h h' /\ res = Some refused).
Proof.
  unfold close_barrier, may_start. cbn [negb]. destruct (coordinator h) as [c|]; [|naive_solver].
  unfold SessionCoordinator.start. destruct (SessionCoordinator.may_start c) as [[] why] eqn:Hm.
  - intros [= <- <-]. left. split; [|done]. intros c' [= <-]. by rewrite Hm.
  - intros [= <- <-]. right. split; [|split; [|done]].
    + intros H. specialize (H _ eq_refl). by rewrite Hm in H.
    + apply (unstarted_fail _ (set_coordinator (Some c) h)).
Qed.

(** A start phase over [ranks] that finalizes. *)
Lemma send_spec op ranks deliver answer h h' res :
  op ∈ START_OPERATIONS -> ranks <> [] ->
  send_start_phase op ranks deliver answer true h = (h', res) ->
  (Forall (answered op deliver answer) ranks /\ may_start h /\ started h' = true /\
   res = Some (Z.of_nat (length ranks))) \/
  (~ (Forall (answered op deliver answer) ranks /\ may_start h) /\ started h' = started h /\
   match res with
   | Some n => is_Some (first_failure h') /\ n < Z.of_nat (length ranks)
   | None => True
   end).
Proof.
  intros Hop Hne. unfold send_start_phase. rewrite bool_decide_eq_true_2 by done. cbn [negb].
  destruct ranks as [|r0 rest]; [done|]. set (ranks := r0 :: rest) in *.
  assert (0 < Z.of_nat (length ranks)) as Hlen by (cbn; lia).
  clearbody ranks. unfold answered. rewrite Forall_and. pose proof (deliver_spec op deliver 0 ranks h) as Hd.
  destruct (deliver_each _ _ _ _ _) as [h1 []].
  2: { intros [= <- <-]. destruct Hd as ([? ?] & ? & ?). right. split_and!; [naive_solver|done|done|lia]. }
  2: { intros [= <- <-]. destruct Hd as (-> & ?). right. split_and!; naive_solver. }
  destruct Hd as [-> Hd]. pose proof (await_spec op answer ranks h) as Ha. cbv zeta in Ha.
  destruct (await_each _ _ _ _) as [h2 []].
  2: { intros [= <- <-]. destruct Ha as ([? ?] & -> & ?). right. split_and!; [naive_solver|done..]. }
  2: { intros [= <- <-]. destruct Ha as (-> & ?). right. split_and!; naive_solver. }
  destruct Ha as [-> Ha]. intros [(Hm & Hs & ->)|(Hm & [Hs Hf] & ->)]%close_spec; [left|right].
  - done.
  - split_and!; [naive_solver|done..].
Qed.

Lemma gate_spec op barrier late h :
  match start_gate op barrier late h with
  | (h', true) => h' = h /\ barrier = Returned true /\ late = false /\ may_start h
  | (h', false) => unstarted h h' /\ ~ (barrier = Returned true /\ late = false /\ may_start h)
  end.
Proof.
  unfold start_gate, wait_all_registered.
  destruct barrier as [| |[]]; cbn [negb].
  1,2: split; [apply (unstarted_fail _ (fail BarrierFailed h))|naive_solver].
  2: split; [apply unstarted_fail|naive_solver].
  destruct (match coordinator h with Some _ => _ | None => _ end) as [[] why] eqn:Hm.
  - assert (may_start h) as Hms.
    { intros c Hc. rewrite Hc in Hm. by rewrite Hm. }
    destruct late; [split; [apply unstarted_fail|naive_solver]|done].
  - split; [apply unstarted_fail|]. intros (_ & _ & Hms). unfold may_start in Hms.
    destruct (coordinator h) as [c|]; [|done]. specialize (Hms c eq_refl). by rewrite Hm in Hms.
Qed.

(** START is all or nothing. [broadcast_start] marks the generation started exactly when
    the listener's barrier closed in time, the coordinator holds every rank registered,
    and every single rank took the command and answered it with success; it then returns
    the number of ranks. Otherwise the generation is not started, fewer are reported,
    and a failure is on record. *)
Theorem start_is_all_or_nothing barrier late deliver answer h h' n :
  started h = false -> 1 <= expected_ranks h ->
  broadcast_start barrier late deliver answer h = (h', n) ->
  (started h' = true <->
   barrier = Returned true /\ late = false /\ may_start h /\
   forall rank, 0 <= rank < expected_ranks h -> answered "START" deliver answer rank) /\
  (started h' = true -> n = expected_ranks h) /\
  (started h' = false -> n < expected_ranks h /\ is_Some (first_failure h')).
Proof.
  intros Hs Hn. unfold broadcast_start. pose proof (gate_spec "START" barrier late h) as Hg.
  destruct (start_gate _ _ _ _) as [h1 []]; cbn [negb].
  2: { intros [= <- <-]. destruct Hg as [[Hst Hf] Hno]. rewrite Hst, Hs.
       split_and!; [|done|intros; split; [lia|done]]. split; [done|]. intros (? & ? & ? & _). by destruct Hno. }
  destruct Hg as (-> & Hb & Hl & Hm).
  assert (Z.of_nat (length (seqZ 0 (expected_ranks h))) = expected_ranks h) as Hlen
    by (rewrite length_seqZ; lia).
  assert (Forall (answered "START" deliver answer) (seqZ 0 (expected_ranks h)) <->
    forall rank, 0 <= rank < expected_ranks h -> answered "START" deliver answer rank) as Hall.
  { rewrite Forall_forall. setoid_rewrite elem_of_seqZ. split; intros H r Hr; apply H; lia. }
  destruct (send_start_phase _ _ _ _ _ _) as [h2 res] eqn:Hsend.
  apply send_spec in Hsend as [(Ha & _ & Hst & ->)|(Hno & Hst & Hres)];
    [| |by left|intros Heq; rewrite Heq in Hlen; cbn in Hlen; lia].
  - intros [= <- <-]. rewrite Hst. split_and!; [|done|done]. split; [|done]. intros _. by rewrite <- Hall.
  - assert (~ (barrier = Returned true /\ late = false /\ may_start h /\
      forall rank, 0 <= rank < expected_ranks h -> answered "START" deliver answer rank)) as Hno'.
    { intros (_ & _ & Hms & Hans). apply Hno. by rewrite Hall. }
    destruct res as [m|]; intros [= <- <-].
    + rewrite Hst, Hs. destruct Hres as [Hf Hm']. rewrite Hlen in Hm'.
      split_and!; [split; [done|by intros ?%Hno']|done|done].
    + cbn [started fail set_failures]. rewrite Hst, Hs. split_and!; [split; [done|by intros ?%Hno']|done|].
      intros _. split; [lia|]. apply DiagnosticProps.append_some.
Qed.

(** One command to rank 0 that does not finalize. *)
Lemma send_head_spec deliver answer h h' res :
  send_start_phase "START_HEAD" [0] deliver answer false h = (h', res) ->
  (answered "START_HEAD" deliver answer 0 /\ h' = h /\ res = Some 1) \/
  (~ answered "START_HEAD" deliver answer 0 /\ started h' = started h /\
   match res with Some n => is_Some (first_failure h') /\ n < 1 | None => True end).
Proof.
  unfold send_start_phase. rewrite bool_decide_eq_true_2 by (right; by left). cbn [negb].
  pose proof (deliver_spec "START_HEAD" deliver 0 [0] h) as Hd.
  unfold answered. destruct (deliver_each _ _ _ _ _) as [h1 []].
  2: { intros [= <- <-]. destruct Hd as ([? ?] & ? & ?). right. rewrite Forall_singleton in *. split_and!; [naive_solver|done|done|done]. }
  2: { intros [= <- <-]. destruct Hd as (-> & ?). right. rewrite Forall_singleton in *. split_and!; naive_solver. }
  destruct Hd as [-> Hd]. rewrite Forall_singleton in Hd. pose proof (await_spec "START_HEAD" answer [0] h) as Ha. cbv zeta in Ha.
  destruct (await_each _ _ _ _) as [h2 []].
  2: { intros [= <- <-]. destruct Ha as ([? ?] & -> & ?). right. rewrite Forall_singleton in *. split_and!; [naive_solver|done..]. }
  2: { intros [= <- <-]. destruct Ha as (-> & ?). right. rewrite Forall_singleton in *. split_and!; naive_solver. }
  destruct Ha as [-> Ha]. rewrite Forall_singleton in Ha. intros [= <- <-]. by left.
Qed.


Lemma start_head_spec barrier late deliver answer h h' ok :
  start_head barrier late deliver answer h = (h', ok) ->
  (ok = true <-> barrier = Returned true /\ late = false /\ may_start h /\
                 answered "START_HEAD" deliver answer 0) /\
  started h' = started h /\ (ok = false -> is_Some (first_failure h')).
Proof.
  unfold start_head. pose proof (gate_spec "START_HEAD" barrier late h) as Hg.
  destruct (start_gate _ _ _ _) as [hg []]; cbn [negb].
  2: { intros [= <- <-]. destruct Hg as [[Hst Hf] Hno]. split_and!; [split; [done|]|done..].
       intros (? & ? & ? & _). by destruct Hno. }
  destruct Hg as (-> & Hb & Hl & Hm). destruct (send_start_phase _ _ _ _ _ _) as [hs res] eqn:Hsend.
  apply send_head_spec in Hsend as [(Ha & -> & ->)|(Ha & Hst & Hres)]; [by intros [= <- <-]|].
  destruct res as [m|]; intros [= <- <-].
  - destruct Hres as [Hf Hm']. assert ((m =? 1) = false) as -> by (apply Z.eqb_neq; lia).
    split_and!; [split; [done|by intros (_ & _ & _ & ?)]|done..].
  - split_and!; [split; [done|by intros (_ & _ & _ & ?)]|done|].
    intros _. apply DiagnosticProps.append_some.
Qed.

Lemma start_workers_spec deliver answer h h' n :
  started h = false -> 1 <= expected_ranks h -> start_workers deliver answer h = (h', n) ->
  (started h' = true <-> may_start h /\ forall rank, 1 <= rank < expected_ranks h ->
                           answered "START_WORKER" deliver answer rank) /\
  (n = expected_ranks h - 1 <-> started h' = true) /\
  (started h' = false -> is_Some (first_failure h')).
Proof.
  intros Hs Hn. unfold start_workers.
  assert (Z.of_nat (length (seqZ 1 (expected_ranks h - 1))) = expected_ranks h - 1) as Hlen
    by (rewrite length_seqZ; lia).
  assert (Forall (answered "START_WORKER" deliver answer) (seqZ 1 (expected_ranks h - 1)) <->
    forall rank, 1 <= rank < expected_ranks h -> answered "START_WORKER" deliver answer rank) as Hall.
  { rewrite Forall_forall. setoid_rewrite elem_of_seqZ. split; intros H r Hr; apply H; lia. }
  destruct (send_start_phase _ _ _ _ _ _) as [h2 res] eqn:Hsend.
  destruct (seqZ 1 (expected_ranks h - 1)) as [|r0 rs] eqn:Hranks.
  - cbn in Hsend, Hlen. apply close_spec in Hsend as [(Hm & Hst & ->)|(Hm & [Hst Hf] & ->)];
      intros [= <- <-]; rewrite Hst.
    + split_and!; [|split; [done|lia]|done]. split; [intros _|done]. split; [done|]. intros; lia.
    + rewrite Hs. split_and!; [split; [done|by intros [? _]]|split; [lia|done]|done].
  - apply send_spec in Hsend as [(Ha & Hm & Hst & ->)|(Hno & Hst & Hres)]; [..|by do 2 right; left|done].
    + intros [= <- <-]. rewrite Hst, <- Hall. split_and!; [done|split; [done|cbn in *; lia]|done].
    + destruct res as [m|]; intros [= <- <-]; cbn [started fail set_failures]; rewrite Hst, Hs, <- Hall.
      * destruct Hres as [Hf Hm]. split_and!; [naive_solver|split; [lia|done]|done].
      * split_and!; [naive_solver|split; [lia|done]|]. intros _. apply DiagnosticProps.append_some.
Qed.

(** C20: The start that a deployment performs, in two phases with anything in between. The
    head phase succeeds exactly when the barrier closed in time, every rank is registered
    and rank 0 took START_HEAD and answered it with success; it never marks the
    generation started. The worker phase marks it started exactly when every rank is
    (still) registered and every other rank took START_WORKER and answered it with
    success, and reports exactly then the number of workers. A phase that does not succeed
    leaves a failure on record. *)
Theorem two_phase_start barrier late deliver answer h h1 ok deliver' answer' h2 h3 n :
  start_head barrier late deliver answer h = (h1, ok) ->
  started h2 = false -> 1 <= expected_ranks h2 ->
  start_workers deliver' answer' h2 = (h3, n) ->
  (ok = true <-> barrier = Returned true /\ late = false /\ may_start h /\
                 answered "START_HEAD" deliver answer 0) /\
  started h1 = started h /\ (ok = false -> is_Some (first_failure h1)) /\
  (started h3 = true <-> may_start h2 /\ forall rank, 1 <= rank < expected_ranks h2 ->
                           answered "START_WORKER" deliver' answer' rank) /\
  (n = expected_ranks h2 - 1 <-> started h3 = true) /\
  (started h3 = false -> is_Some (first_failure h3)).
Proof.
  intros Hh Hs Hn Hw. apply start_head_spec in Hh as (? & ? & ?).
  apply start_workers_spec in Hw as (? & ? & ?); [|done..]. done.
Qed.
End Start.
