(* ===== verification/HeadReconnect.v ===== *)
(** What a rank's snapshot restores on the head when it lists several instances for one
    slot: the client caches every receipt it ever sent by requirement, component and
    instance, the canonical order of the snapshot is that of the keys, and the ledger lets
    the later receipt supersede the earlier one. *)

From S2P Require Import Prelude PyValue Atomic Json JsonProps Envelopes EnvelopesProps Contracts Snapshots SnapshotsProps NodeChannel Session Receipts ReceiptCodec ReceiptCodecProps Bindings BindingsProps Ledger LedgerProps HeadChannel HeadLedgerProps HeadChannelProps HeadMoves HeadProps HeadEvidence.

(** ** Sorted lists *)

(** The last element with a property. *)
Lemma split_last {A} (P : A -> Prop) `{!forall x, Decision (P x)} (l : list A) :
  Exists P l -> exists pre y post, l = pre ++ y :: post /\ P y /\ Forall (fun z => ~ P z) post.
Proof.
  induction l as [|x l IH] using rev_ind; [by intros ?%Exists_nil|].
  destruct (decide (P x)) as [Hx|Hx].
  - intros _. exists l, x, []. by split_and!.
  - intros [(pre & y & post & -> & Hy & Hp)%IH|[?|?%Exists_nil]%Exists_cons]%Exists_app; [|done..].
    exists pre, y, (post ++ [x]). rewrite <- app_assoc. split_and!; [done..|].
    apply Forall_app. by split; [|constructor].
Qed.

Lemma sorted_Forall2 {A B} (R : A -> A -> Prop) (R' : B -> B -> Prop) (P : A -> B -> Prop) l l' :
  (forall x y x' y', P x y -> P x' y' -> R x x' -> R' y y') ->
  Forall2 P l l' -> StronglySorted R l -> StronglySorted R' l'.
Proof.
  intros HR Hf Hs. induction Hf as [|x y l l' Hxy Hf IH]; [constructor|]. inv Hs as [|? ? Hl Hx].
  constructor; [by apply IH|]. clear IH Hl. induction Hf; [done|]. apply Forall_cons in Hx as [? ?].
  constructor; [by eapply HR|auto].
Qed.

Lemma sorted_filter {A} (R : A -> A -> Prop) (f : A -> bool) l :
  StronglySorted R l -> StronglySorted R (List.filter f l).
Proof.
  induction 1 as [|x l Hl IH Hx]; cbn; [constructor|]. destruct (f x); [|done].
  constructor; [done|]. apply Forall_forall. intros y Hy%list_elem_of_In.
  apply List.filter_In in Hy as [Hy%list_elem_of_In _]. by eapply Forall_forall in Hx.
Qed.

Lemma sorted_before {A} (R : A -> A -> Prop) pre y post x :
  StronglySorted R (pre ++ y :: post) -> x ∈ pre -> R x y.
Proof.
  induction pre as [|z pre IH]; [by intros _ ?%not_elem_of_nil|]. cbn. intros Hs.
  inv Hs as [|? ? Hl Hz]. intros [->|Hx]%elem_of_cons; [|by apply IH].
  eapply Forall_forall in Hz; [done|]. apply elem_of_app. right. by left.
Qed.

(** ** The order of a snapshot's receipts *)

Section Order.
Context `{FloatText}.

(** Two receipt payloads of one requirement and one component, in the order of their
    instances. *)
Definition payload_le (p q : value) : Prop :=
  forall k component i j,
    body_attr "receipt_requirement_id" p = VStr k -> body_attr "receipt_requirement_id" q = VStr k ->
    body_attr "component_id" p = VStr component -> body_attr "component_id" q = VStr component ->
    body_attr "instance_id" p = VStr i -> body_attr "instance_id" q = VStr j ->
    key_leb [i] [j] = true.

Definition item_le (x y : value) : Prop :=
  is_str "receipt" (NodeChannel.item_kind x) = true -> is_str "receipt" (NodeChannel.item_kind y) = true ->
  payload_le (NodeChannel.item_body x) (NodeChannel.item_body y).

Lemma nonempty_str_eq v s : nonempty_str v = Some s -> v = VStr s.
Proof. destruct v; cbn; try done. destruct (nonempty s0); [|done]. by intros [= ->]. Qed.

(** The key of a receipt item in normal form. *)
Lemma receipt_item_key item k t :
  snapshot_entry item = Ok (k, (t, item)) -> is_str "receipt" (NodeChannel.item_kind item) = true ->
  exists id component i,
    k = ["receipt"; id; component; i] /\
    body_attr "receipt_requirement_id" (NodeChannel.item_body item) = VStr id /\
    body_attr "component_id" (NodeChannel.item_body item) = VStr component /\
    body_attr "instance_id" (NodeChannel.item_body item) = VStr i.
Proof.
  unfold snapshot_entry. intros He Hk. destruct item as [| | | | | |d]; try done.
  apply bind_Ok in He as (_ & _ & He). apply bind_Ok in He as (known & _ & He).
  destruct known; [|done]. destruct (attr "kind" d) as [| | | |kind| |] eqn:Hkind; try done.
  destruct (attr "body" d) as [| | | | | |body] eqn:Hbody; try done.
  apply bind_Ok in He as (parts & Hp & He).
  destruct (dumps _); [|done]. injection He as <- _ <-.
  unfold NodeChannel.item_kind, NodeChannel.item_body, snapshot_item in *. cbn in Hk |- *.
  apply bool_decide_eq_true in Hk as ->. rewrite bool_decide_false in Hp by done. unfold need in Hp.
  destruct (key_parts _ body) as [ps|] eqn:Hps; [|done]. injection Hp as <-.
  unfold key_parts in Hps. cbn in Hps.
  destruct (nonempty_str (attr "receipt_requirement_id" body)) as [id|] eqn:H1; [|done].
  destruct (nonempty_str (attr "component_id" body)) as [component|] eqn:H2; [|done].
  destruct (nonempty_str (attr "instance_id" body)) as [i|] eqn:H3; [|done].
  cbn in Hps. injection Hps as <-. exists id, component, i. by split_and!; [|apply nonempty_str_eq..].
Qed.

Lemma normal_items_sorted items keys : SnapshotsProps.normal items keys -> StronglySorted item_le items.
Proof.
  intros (Hf & Hs & _). eapply (sorted_Forall2 snap_key_le item_le); [|by apply Forall2_flip|exact Hs].
  intros k x k' y [t Hx] [t' Hy] Hle Hkx Hky id component i j Hid Hid' Hc Hc' Hi Hj.
  destruct (receipt_item_key _ _ _ Hx Hkx) as (? & ? & ? & -> & E1 & E2 & E3).
  destruct (receipt_item_key _ _ _ Hy Hky) as (? & ? & ? & -> & E4 & E5 & E6).
  rewrite Hid in E1. rewrite Hid' in E4. rewrite Hc in E2. rewrite Hc' in E5.
  rewrite Hi in E3. rewrite Hj in E6. simplify_eq. unfold snap_key_le in Hle. cbn in Hle.
  by rewrite !bool_decide_true in Hle by done.
Qed.

Lemma bodies_sorted items keys :
  SnapshotsProps.normal items keys -> StronglySorted payload_le (NodeChannel.bodies "receipt" items).
Proof.
  intros Hs%normal_items_sorted%(sorted_filter _ (fun i => is_str "receipt" (NodeChannel.item_kind i))).
  unfold NodeChannel.bodies.
  assert (Forall (fun i => is_str "receipt" (NodeChannel.item_kind i) = true)
            (List.filter (fun i => is_str "receipt" (NodeChannel.item_kind i)) items)) as Hall.
  { apply Forall_forall. intros x Hx%list_elem_of_In. by apply List.filter_In in Hx as []. }
  induction Hs as [|x l Hl IH Hx]; [constructor|]. apply Forall_cons in Hall as [Hkx Hall].
  cbn. constructor; [by apply IH|]. clear IH Hl. induction Hx as [|y l Hy Hx IH]; [done|].
  apply Forall_cons in Hall as [? ?]. constructor; [by apply Hy|auto].
Qed.
End Order.

(** ** What the ledger keeps *)

Section Restore.
Context {B : Type} `{!BindingStore B} `{FloatText}.
Context (canonical_hash : dict -> string) (snapshot_hash : list value -> string).
Context (ts : string -> bool).
Abbreviation ch := (compute_hash canonical_hash).
Abbreviation ledger_ok := (LedgerProps.ledger_ok ch ts).
Abbreviation run := (HeadChannel.run canonical_hash snapshot_hash ts).

(** A receipt that was accepted has the component of its planned slot. *)
Lemma accept_component io r p s n g (l l' : Ledger.t B) m :
  Ledger.accept ch ts io r p s n g l = (l', Ok (true, m)) ->
  exists slot, find_requirement (Ledger.plan l) (Receipt.receipt_requirement_id r) = Some slot /\
    ReceiptRequirement.component_slot slot = Receipt.component_id r.
Proof.
  unfold Ledger.accept. destruct (Ledger.validated _ _ _ _ _) as [[]|[w]]; [|done].
  destruct (Ledger.refusals _ _ _ _ _) as [[]|w] eqn:Hr; [|done]. intros _.
  unfold Ledger.refusals in Hr. apply bind_Ok in Hr as ([] & _ & Hr).
  destruct (find_requirement _ _) as [slot|]; [|done].
  apply bind_Ok in Hr as ([] & Hs & _). exists slot. split; [done|].
  unfold Ledger.check_slot, Ledger.refuse_if in Hs. res_inv. by bool_prop.
Qed.

Lemma accept_all_components rank node rs (l l' : Ledger.t B) :
  Ledger.accept_all ch ts rank node rs l = Ok l' ->
  Forall (fun r => exists slot,
    find_requirement (Ledger.plan l) (Receipt.receipt_requirement_id r) = Some slot /\
    ReceiptRequirement.component_slot slot = Receipt.component_id r) rs.
Proof.
  revert l. induction rs as [|x rs IH]; intros l; cbn [Ledger.accept_all]; [constructor|].
  destruct (Ledger.accept _ _ _ _ _ _ _ _ _) as [l1 [[[] m]|e]] eqn:Ha; try done. intros Hrest.
  constructor; [by eapply accept_component|]. apply accept_frame in Ha as [(Hp & _) _].
  specialize (IH _ Hrest). by rewrite Hp in IH.
Qed.

Definition receipt_le (r s : Receipt.t) : Prop :=
  Receipt.receipt_requirement_id r = Receipt.receipt_requirement_id s ->
  Receipt.component_id r = Receipt.component_id s ->
  key_leb [Receipt.instance_id r] [Receipt.instance_id s] = true.

Lemma key_leb_refl a : key_leb a a = true.
Proof. induction a; cbn; [done|]. by rewrite bool_decide_true. Qed.

(** Of receipts in order, the greatest instance fills the slot. *)
Lemma accept_all_greatest rank node rs (l l' : Ledger.t B) r :
  ledger_ok l -> Ledger.accept_all ch ts rank node rs l = Ok l' ->
  StronglySorted receipt_le rs -> r ∈ rs ->
  exists r', dget (Receipt.receipt_requirement_id r) (Ledger.by_slot l') = Some r' /\
    key_leb [Receipt.instance_id r] [Receipt.instance_id r'] = true.
Proof.
  intros Hok Ha Hs Hin. pose proof (accept_all_components _ _ _ _ _ Ha) as Hc.
  destruct (split_last (fun x => Receipt.receipt_requirement_id x = Receipt.receipt_requirement_id r) rs)
    as (pre & y & post & -> & Hy & Hpost).
  { apply Exists_exists. eauto. }
  assert (Forall (fun x => Receipt.receipt_requirement_id x <> Receipt.receipt_requirement_id y) post)
    as Hpost' by (by rewrite Hy).
  destruct (accept_all_last _ _ _ _ _ _ _ _ _ Hok Ha Hpost') as (r' & Hg & Hi).
  rewrite Hy in Hg. exists r'. split; [done|]. rewrite Hi.
  apply elem_of_app in Hin as Hin'. destruct Hin' as [Hpre|[->|Hp]%elem_of_cons].
  - apply (sorted_before _ _ _ _ _ Hs Hpre); [done|]. rewrite Forall_forall in Hc.
    destruct (Hc r Hin) as (s1 & E1 & <-), (Hc y) as (s2 & E2 & <-).
    { apply elem_of_app. right. by left. }
    rewrite Hy in E2. congruence.
  - apply key_leb_refl.
  - eapply Forall_forall in Hpost; [|done]. done.
Qed.

(** A receipt has the requirement, component and instance of its payload. *)
Lemma payload_fields p raw r :
  receipt_from_dict p = Ok raw -> same_fields raw r ->
  body_attr "receipt_requirement_id" p = VStr (Receipt.receipt_requirement_id r) /\
  body_attr "component_id" p = VStr (Receipt.component_id r) /\
  body_attr "instance_id" p = VStr (Receipt.instance_id r).
Proof.
  intros Hd [_ Hs]. rewrite !(from_dict_attr _ _ _ Hd) by done.
  rewrite !Hs by first [done | field_in]. done.
Qed.

(** The candidate of a canonical snapshot holds the greatest instance of each slot. *)
Lemma staged_greatest l0 rank items keys (cand : Ledger.t B) p k i :
  empty_ledger l0 -> SnapshotsProps.normal items keys ->
  staged_from canonical_hash ts l0 rank (NodeChannel.bodies "receipt" items) cand ->
  p ∈ NodeChannel.bodies "receipt" items ->
  body_attr "receipt_requirement_id" p = VStr k -> body_attr "instance_id" p = VStr i ->
  exists r, dget k (Ledger.owned rank (Ledger.by_slot cand)) = Some r /\
    key_leb [i] [Receipt.instance_id r] = true.
Proof.
  intros He Hn Hst Hp Hk Hi. destruct (staged_from_ok _ _ _ _ _ _ He Hst) as [Hokc _].
  destruct Hst as (l & raws & rs & node & Hr & Hd%decode_receipts_spec & Hf & Hst).
  destruct (lreach_ok _ _ _ _ _ He Hr) as [Hok _].
  destruct (stage_owned _ _ _ _ _ _ _ Hok Hst) as [_ Hto].
  apply list_elem_of_lookup in Hp as [n Hp].
  destruct (Forall2_lookup_l _ _ _ _ _ Hd Hp) as (raw & Hraw & Hdec).
  destruct (Forall2_lookup_l _ _ _ _ _ Hf Hraw) as (r & Hr' & Hsame).
  destruct (payload_fields _ _ _ Hdec Hsame) as (E1 & _ & E3).
  rewrite Hk in E1. rewrite Hi in E3. injection E1 as ->. injection E3 as ->.
  apply list_elem_of_lookup_2 in Hr'. destruct (Hto r Hr') as [r1 Hr1]. exists r1. split; [done|].
  apply owned_lookup with (ts := ts) (canonical_hash := canonical_hash) in Hr1 as [Hg _]; [|done].
  unfold Ledger.stage_rank_snapshot in Hst.
  destruct (Ledger.drop_rank _ _ _) as [l1 res] eqn:Hdr. cbn [fst] in Hst.
  apply (drop_rank_spec ch ts) in Hdr as (Hok1 & _ & _); [|by eapply (ledger_ok_same _ _ l)].
  destruct (accept_all_greatest _ _ _ _ _ r Hok1 Hst) as (r2 & Hg2 & Hle); [|done|congruence].
  eapply (sorted_Forall2 payload_le receipt_le (fun p r => exists raw,
    receipt_from_dict p = Ok raw /\ same_fields raw r)); [..|by eapply bodies_sorted].
  - intros q s q' s' (raw1 & D1 & S1) (raw2 & D2 & S2) Hle Hid Hc.
    destruct (payload_fields _ _ _ D1 S1) as (? & ? & ?), (payload_fields _ _ _ D2 S2) as (? & ? & ?).
    eapply Hle; try done; congruence.
  - clear -Hd Hf. revert rs Hf. induction Hd; intros rs Hf; inv Hf; constructor; eauto.
Qed.

(** C22: A reconnecting rank can bring back an instance that was superseded: after a snapshot
    in canonical order has been accepted, each slot of the rank holds, of all the
    instances that the snapshot lists for it, the one whose identifier is greatest in the
    order of text -- not the one whose receipt was sent last. *)
Theorem snapshot_restores_greatest_instance l0 (He : empty_ledger l0) ranks c evs clk now rank h' d f :
  let h := run evs (HeadChannel.init ranks c (Some l0)) in
  HeadChannel.resume snapshot_hash clk now rank h = (h', Ok (Some (true, d))) ->
  HeadChannel.snapshots h !! rank = Some f ->
  canonical_snapshot_items (HeadChannel.if_items f) = Ok (HeadChannel.if_items f) ->
  exists l, HeadChannel.ledger h' = Some l /\
  forall p k i, p ∈ NodeChannel.bodies "receipt" (HeadChannel.if_items f) ->
    body_attr "receipt_requirement_id" p = VStr k -> body_attr "instance_id" p = VStr i ->
    exists r, dget k (Ledger.by_slot l) = Some r /\ Receipt.owner_rank r = Some rank /\
      (i = Receipt.instance_id r \/ string_leb i (Receipt.instance_id r) = true).
Proof.
  intros h Hres Hf0 [keys Hn]%canonical_normal.
  apply accepted_staged in Hres as (f' & h1 & l & cand & Hf & Hl & _ & -> & [Hrec _ _ _] & Hr & Hst & Hown); [|done].
  fold h in Hf. rewrite Hf0 in Hf. injection Hf as <-. rewrite Hrec in Hst.
  destruct (install_fields now rank f h1) as (Hil & _). exists l. split; [by cbn; rewrite Hil|].
  intros p k i Hp Hk Hi. destruct (staged_greatest _ _ _ _ _ _ _ _ He Hn Hst Hp Hk Hi) as (r & Hg & Hle).
  rewrite <- Hown in Hg. destruct (lreach_ok _ _ _ _ _ He Hr) as [Hok _].
  apply (owned_lookup canonical_hash ts) in Hg as [Hg Ho]; [|done]. exists r. split_and!; [done..|].
  cbn in Hle. case_bool_decide; [by left|by right].
Qed.
End Restore.
