(* ===== verification/HeadDemo.v ===== *)
(** A concrete head channel -- one rank, the plan and the binding store of the ledger's
    example, a constant digest -- on which the theorems' hypotheses are met: a snapshot
    accepted end to end, a lost rank, a full queue, a start in two phases, and
    a reconnection that brings back a superseded instance. *)

From S2P Require Import Prelude PyValue Atomic Json Envelopes Contracts Snapshots NodeChannel Session SessionProps Receipts ReceiptCodec ReceiptCodecProps Bindings BindingsProps Ledger LedgerProps HeadChannel HeadLedgerProps HeadChannelProps HeadMoves HeadProps HeadEvidence HeadStart HeadReconnect.

Import HeadChannel.
#[local] Existing Instance demo_store_class.

Definition demo_head_hash (_ : dict) : string := demo_digest.
Definition demo_coordinator : SessionCoordinator.t :=
  (SessionCoordinator.begin_registration (at_s 0)
     (SessionCoordinator.init demo_node_binding ControlLimits.default_limits)).1.
Abbreviation demo_run evs :=
  (run demo_head_hash demo_hash demo_utc evs (init 1 (Some demo_coordinator) (Some demo_empty))).

Definition demo_observation : value :=
  VDict [("schema_version", VInt Envelopes.SCHEMA_VERSION); ("deployment_id", VStr "dep-1");
    ("plan_hash", VStr demo_digest); ("generation", VInt 0); ("component_id", VStr "ray");
    ("instance_id", VStr "i1"); ("role", VStr "ray"); ("owner_scope", VStr "RANK");
    ("owner_rank", VInt 0); ("node_id", VStr "node0"); ("state", VStr "READY");
    ("sequence", VInt 1); ("observed_at", VFloat (at_s 5))].
Definition demo_payload : value := VDict (to_dict demo_head_hash demo_supervisor).
Definition demo_items : list value :=
  [VDict [("kind", VStr "receipt"); ("body", demo_payload)];
   VDict [("kind", VStr "observation"); ("body", demo_observation)]].
Definition demo_job_io : job_io := JobIo demo_io (fun _ => demo_io) (fun _ => demo_io).

(** Registration, a snapshot, its staging, its commit; the coroutine is about to end. *)
Definition demo_snapshot : list event :=
  [ERegister (at_s 1) 0 "node0" "inst"; ESnapshot 0 "snap" "hash" demo_items; EWork demo_job_io;
   EResume (at_s 2) (at_s 2) 0; EWork demo_job_io].
Definition demo_accepted : list event := demo_snapshot ++ [EResume (at_s 3) (at_s 3) 0].

Lemma receipt_roundtrip_witness :
  exists raw, receipt_from_dict demo_payload = Ok raw /\
    validate_raw demo_head_hash demo_utc raw [] [] = Ok (normal demo_supervisor).
Proof.
  apply (receipt_roundtrip demo_head_hash demo_utc demo_supervisor [] []).
  - unfold maps_ok, demo_supervisor, demo_rank_receipt. cbn. split_and!; try apply NoDup_nil_2. repeat constructor; set_solver.
  - vm_compute. reflexivity.
Defined.

Lemma first_failure_kept_witness :
  first_failure (demo_run ([EViolation 0 "bad frame"] ++ demo_snapshot))
  = Some (ProtocolViolation 0 "bad frame").
Proof.
  apply (first_failure_kept demo_head_hash demo_hash demo_utc 1 (Some demo_coordinator) (Some demo_empty)).
  vm_compute. reflexivity.
Defined.

Lemma projection_within_plan_witness :
  exists o, observed (demo_run demo_accepted) 0 ("ray", "i1") = Some o /\
    allowed_role 0 (ComponentObservation.component_id o) = Some (ComponentObservation.role o).
Proof.
  destruct (observed (demo_run demo_accepted) 0 ("ray", "i1")) as [o|] eqn:Ho; [|vm_compute in Ho; discriminate].
  exists o. split; [reflexivity|].
  destruct (projection_within_plan demo_head_hash demo_hash demo_utc 1 (Some demo_coordinator)
              (Some demo_empty) demo_accepted 0 ("ray", "i1")) as [_ H].
  apply (H o Ho). eauto.
Defined.

Lemma demo_resume :
  (resume demo_hash (at_s 3) (at_s 3) 0 (demo_run demo_snapshot)).2 = Ok (Some (true, accepted_snapshot)).
Proof. vm_compute. reflexivity. Qed.

Lemma snapshot_defines_rank_evidence_witness :
  exists h' l, resume demo_hash (at_s 3) (at_s 3) 0 (demo_run demo_snapshot)
               = (h', Ok (Some (true, accepted_snapshot))) /\
    ledger h' = Some l /\ is_Some (dget "rank0/node_supervisor" (Ledger.by_slot l)).
Proof.
  pose proof demo_resume as Hd.
  destruct (resume demo_hash (at_s 3) (at_s 3) 0 (demo_run demo_snapshot)) as [h' r] eqn:Hr.
  cbn [snd] in Hd. subst r.
  destruct (snapshot_defines_rank_evidence demo_head_hash demo_hash demo_utc demo_empty demo_empty_ok
              1 (Some demo_coordinator) demo_snapshot _ _ _ _ _ Hr) as (f & l & _ & Hl & _ & _ & Hs & _).
  exists h', l. split; [reflexivity|]. split; [exact Hl|exact Hs].
Defined.

(** The session of the rank is lost. *)
Lemma demo_loss :
  waiting 0 (demo_run demo_accepted) = false /\
  exists h, on_session_change (at_s 4) 0 false false (demo_run demo_accepted) = (h, Ok tt) /\
    (length (durable_pending h) <= 1)%nat.
Proof.
  split; [vm_compute; reflexivity|].
  assert ((on_session_change (at_s 4) 0 false false (demo_run demo_accepted)).2 = Ok tt /\
          length (durable_pending (on_session_change (at_s 4) 0 false false (demo_run demo_accepted)).1)
          = 1%nat) as [H1 H2] by (vm_compute; split; reflexivity).
  destruct (on_session_change _ _ _ _ _) as [h r]. cbn [fst snd] in H1, H2. subst r.
  exists h. split; [reflexivity|]. rewrite H2. apply le_n.
Qed.

Lemma lost_rank_evidence_revoked_witness :
  exists h, on_session_change (at_s 4) 0 false false (demo_run demo_accepted) = (h, Ok tt) /\
    let h' := run demo_head_hash demo_hash demo_utc [EWork demo_job_io] h in
    (is_Some (first_failure h') \/ exists l, ledger h' = Some l /\ unheld 0 l).
Proof.
  destruct demo_loss as (Hw & h & Hs & Hlen). exists h. split; [exact Hs|].
  destruct (lost_rank_evidence_revoked demo_head_hash demo_hash demo_utc demo_empty demo_empty_ok
    1 demo_coordinator demo_accepted (at_s 4) 0 h [EWork demo_job_io] Hw Hs) as (_ & _ & _ & H).
  - constructor; [discriminate|constructor].
  - exact Hlen.
  - destruct H as [Hf|(l & Hl & Hu & _)]; [left; exact Hf|right; exists l; split; [exact Hl|exact Hu]].
Defined.

(** 256 receipts fill the queue of this plan. *)
Definition demo_full : HeadChannel.t := demo_run (replicate 256 (EReceipt 0 demo_payload)).

Definition present {A} (o : option A) : bool := match o with Some _ => true | None => false end.

Lemma present_Some {A} (o : option A) : present o = true -> is_Some o.
Proof. destruct o; [eauto|discriminate]. Qed.

Lemma demo_full_state :
  present (coordinator demo_full) && present (ledger demo_full) && negb (durable_closed demo_full) &&
  (durable_limit demo_full <=? Z.of_nat (length (durable_pending demo_full))) = true.
Proof. vm_compute. reflexivity. Qed.

Lemma full_queue_loses_revocation_witness :
  (on_session_change (at_s 4) 0 false false demo_full).2 = Err QueueFull.
Proof.
  pose proof demo_full_state as [[[[c Hc]%present_Some Hl%present_Some]%andb_true_iff
    Hcl%negb_true_iff]%andb_true_iff Hfull%Z.leb_le]%andb_true_iff.
  destruct (full_queue_loses_revocation c (at_s 4) 0 demo_full Hc Hl Hcl Hfull) as (h1 & Hs & _).
  rewrite Hs. reflexivity.
Defined.

Definition demo_answer (operation : string) (_ : Z) : call (option dict) :=
  Returned (Some [("payload_version", VInt 1); ("operation", VStr operation);
                  ("status", VStr "SUCCEEDED"); ("ok", VBool true)]).
Definition demo_registered : HeadChannel.t :=
  demo_run (demo_accepted ++ [EAck (at_s 4) 0
    [("command_id", VStr "SNAPSHOT_ACCEPTED:0:snap"); ("snapshot_id", VStr "snap");
     ("complete_set_hash", VStr "hash"); ("status", VStr "SUCCEEDED"); ("ok", VBool true)]]).

Definition demo_head_phase : HeadChannel.t * bool :=
  start_head (Returned true) false (fun _ => Returned true) (demo_answer "START_HEAD") demo_registered.

Lemma demo_started_head :
  demo_head_phase.2 = true /\ started demo_head_phase.1 = false /\ expected_ranks demo_head_phase.1 = 1 /\
  (start_workers (fun _ => Returned true) (demo_answer "START_WORKER") demo_head_phase.1).2 = 0.
Proof. vm_compute. split_and!; reflexivity. Qed.

Lemma two_phase_start_witness :
  answered "START_HEAD" (fun _ => Returned true) (demo_answer "START_HEAD") 0 /\
  started (start_workers (fun _ => Returned true) (demo_answer "START_WORKER") demo_head_phase.1).1 = true.
Proof.
  destruct demo_started_head as (Hok & Hs & Hn & Hst).
  destruct demo_head_phase as [h1 ok] eqn:Hh. cbn [fst snd] in *. subst ok.
  destruct (start_workers (fun _ => Returned true) (demo_answer "START_WORKER") h1) as [h3 n] eqn:Hw.
  assert (1 <= expected_ranks h1) as Hn' by lia.
  destruct (two_phase_start (Returned true) false (fun _ => Returned true) (demo_answer "START_HEAD")
              demo_registered h1 true _ _ h1 h3 n Hh Hs Hn' Hw) as ([Hhead _] & _ & _ & _ & [Hstart _] & _).
  destruct (Hhead eq_refl) as (_ & _ & _ & Ha). split; [exact Ha|]. apply Hstart.
  cbn [snd] in Hst. lia.
Defined.

(** *** A superseded instance comes back *)

Definition demo_ray (instance : string) : value :=
  VDict (to_dict demo_head_hash (demo_rank_receipt "rank0/ray_head" "ray_head" "ray" instance)).

(** The rank's cache after a replacement of [node0:99] by [node0:100], in canonical order. *)
Definition demo_cache : list value :=
  [snapshot_item "observation" demo_observation;
   snapshot_item "receipt" demo_payload;
   snapshot_item "receipt" (demo_ray "node0:100"); snapshot_item "receipt" (demo_ray "node0:99")].
Definition demo_first : list value :=
  [snapshot_item "receipt" demo_payload; snapshot_item "receipt" (demo_ray "node0:99")].

Definition demo_ray_instance (h : HeadChannel.t (B := Store.t)) : option string :=
  l ← ledger h; r ← dget "rank0/ray_head" (Ledger.by_slot l); Some (Receipt.instance_id r).

(** The first snapshot, then the receipt of the replacement. *)
Definition demo_replaced : list event :=
  [ERegister (at_s 1) 0 "node0" "inst"; ESnapshot 0 "snap" "hash" demo_first; EWork demo_job_io;
   EResume (at_s 2) (at_s 2) 0; EWork demo_job_io; EResume (at_s 3) (at_s 3) 0;
   EReceipt 0 (demo_ray "node0:100"); EWork demo_job_io].
(** The connection is lost; the rank registers again and sends its cache. *)
Definition demo_returned : list event :=
  demo_replaced ++
  [ESession (at_s 4) 0 false false; EWork demo_job_io; ERegister (at_s 5) 0 "node0" "inst";
   ESnapshot 0 "snap-2" "hash" demo_cache; EWork demo_job_io; EResume (at_s 6) (at_s 6) 0;
   EWork demo_job_io].

Lemma demo_returns :
  demo_ray_instance (demo_run demo_replaced) = Some "node0:100" /\
  (resume demo_hash (at_s 7) (at_s 7) 0 (demo_run demo_returned)).2 = Ok (Some (true, accepted_snapshot)) /\
  demo_ray_instance (resume demo_hash (at_s 7) (at_s 7) 0 (demo_run demo_returned)).1 = Some "node0:99" /\
  (if_items <$> snapshots (demo_run demo_returned) !! 0) = Some demo_cache /\
  canonical_snapshot_items (H := DecimalFloat.ops) demo_cache = Ok demo_cache.
Proof. vm_compute. split_and!; reflexivity. Qed.

Lemma snapshot_restores_greatest_instance_witness :
  demo_ray_instance (demo_run demo_replaced) = Some "node0:100" /\
  exists h' l r, resume demo_hash (at_s 7) (at_s 7) 0 (demo_run demo_returned)
                 = (h', Ok (Some (true, accepted_snapshot))) /\
    ledger h' = Some l /\ dget "rank0/ray_head" (Ledger.by_slot l) = Some r /\
    Receipt.instance_id r = "node0:99".
Proof.
  destruct demo_returns as (Hbefore & Hd & Hafter & Hitems & Hcanon). split; [exact Hbefore|].
  destruct (resume demo_hash (at_s 7) (at_s 7) 0 (demo_run demo_returned)) as [h' r] eqn:Hr.
  cbn [fst snd] in Hd, Hafter. subst r.
  destruct (snapshots (demo_run demo_returned) !! 0) as [f|] eqn:Hf; [|discriminate Hitems].
  assert (if_items f = demo_cache) as Hi by (injection Hitems as Hi; exact Hi). rewrite <- Hi in Hcanon.
  destruct (snapshot_restores_greatest_instance demo_head_hash demo_hash demo_utc demo_empty demo_empty_ok
    1 (Some demo_coordinator) demo_returned _ _ _ _ _ f Hr Hf Hcanon) as (l & Hl & H).
  destruct (H (demo_ray "node0:99") "rank0/ray_head" "node0:99") as (r & Hg & _).
  - rewrite Hi. apply list_elem_of_In. vm_compute. tauto.
  - reflexivity.
  - reflexivity.
  - exists h', l, r. split; [reflexivity|]. split; [exact Hl|]. split; [exact Hg|].
    unfold demo_ray_instance in Hafter. rewrite Hl in Hafter. cbn [mbind option_bind] in Hafter.
    rewrite Hg in Hafter. injection Hafter as Hx. exact Hx.
Defined.
