(* ===== verification/RankClient.v ===== *)
(** The rank side of the channel runtime (class RankClient of
    control/channel_runtime.py): connecting, the initial snapshot, observations and
    receipts, the start phases, the maintenance of the control lease with its bounded
    reconnection, and closing.

    The channel is NodeChannel.v. Clocks, the frames that arrive and whether a write gets
    through are arguments of the operations. A synchronous call into the event loop may be
    cut short by its deadline: the [Some c] of a [cut] is the channel that such a call
    leaves behind; the frames that it may have written are not listed. The checks that
    refuse a timeout which is no positive number are left out. The caches of the last
    snapshot are maps: [send_snapshot] orders the items, so the insertion order of the
    dicts does not matter. *)

From S2P Require Import Prelude PyValue Json JsonProps Envelopes EnvelopesProps Frames Contracts Snapshots NodeChannel Session HeadChannel.

(** ** Receipt keys *)

(** [_receipt_key] *)
Definition receipt_key (payload : dict) : result exc (string * string * string) :=
  match nonempty_str (attr "receipt_requirement_id" payload) with
  | None => Err (ContractError "receipt_requirement_id must be a nonempty string")
  | Some id =>
      match dget_default "component_id" (VStr "") payload, dget_default "instance_id" (VStr "") payload with
      | VStr component, VStr instance => Ok (id, component, instance)
      | _, _ => Err (ContractError "receipt component_id/instance_id must be strings when present")
      end
  end.

(** ** The client *)

Inductive client_failure :=
| ObservationFailed
| ReceiptFailed
| ReceiveFailed (operation : string)
| HeartbeatFailed
| UnexpectedOperation (expected : string)
| InvalidLimits
| NoEventLoop
| ProtocolFailed
| LeaseLost
| UnexpectedCommand
| AcknowledgmentFailed (operation : string)
| MaintenanceFailed
| CloseFailed.

Module RankClient.
Section Client.
Context `{FloatText} (mac : text -> text -> text) (sha256 : text -> string).

Record t := mk {
  rank : Z;
  node_id : string;
  pid : Z;
  enabled : bool;
  channel : option NodeChannel.t;
  seq : Z;
  connected : bool;
  established : bool;
  start_flag : bool;
  snapshot_observations : gmap (string * string) ComponentObservation.t;
  snapshot_receipts : gmap (string * string * string) dict;
  maintained : bool;
  maintenance_stop : bool;
  control_failure : option client_failure;
  shutdown_operation : option string;
  last_control_ack : option float
}.

Definition init (rank : Z) (node_id : string) (pid : Z) (enabled : bool) : t :=
  mk rank node_id pid enabled None 0 false false false ∅ ∅ false false None None None.

Definition set_channel (x : option NodeChannel.t) (c : t) : t :=
  mk (rank c) (node_id c) (pid c) (enabled c) x (seq c) (connected c) (established c) (start_flag c)
     (snapshot_observations c) (snapshot_receipts c) (maintained c) (maintenance_stop c)
     (control_failure c) (shutdown_operation c) (last_control_ack c).
Definition set_seq (x : Z) (c : t) : t :=
  mk (rank c) (node_id c) (pid c) (enabled c) (channel c) x (connected c) (established c)
     (start_flag c) (snapshot_observations c) (snapshot_receipts c) (maintained c)
     (maintenance_stop c) (control_failure c) (shutdown_operation c) (last_control_ack c).
Definition set_session (x y : bool) (c : t) : t :=
  mk (rank c) (node_id c) (pid c) (enabled c) (channel c) (seq c) x y (start_flag c)
     (snapshot_observations c) (snapshot_receipts c) (maintained c) (maintenance_stop c)
     (control_failure c) (shutdown_operation c) (last_control_ack c).
Definition set_start (x : bool) (c : t) : t :=
  mk (rank c) (node_id c) (pid c) (enabled c) (channel c) (seq c) (connected c) (established c) x
     (snapshot_observations c) (snapshot_receipts c) (maintained c) (maintenance_stop c)
     (control_failure c) (shutdown_operation c) (last_control_ack c).
Definition set_observations (x : gmap (string * string) ComponentObservation.t) (c : t) : t :=
  mk (rank c) (node_id c) (pid c) (enabled c) (channel c) (seq c) (connected c) (established c)
     (start_flag c) x (snapshot_receipts c) (maintained c) (maintenance_stop c)
     (control_failure c) (shutdown_operation c) (last_control_ack c).
Definition set_receipts (x : gmap (string * string * string) dict) (c : t) : t :=
  mk (rank c) (node_id c) (pid c) (enabled c) (channel c) (seq c) (connected c) (established c)
     (start_flag c) (snapshot_observations c) x (maintained c) (maintenance_stop c)
     (control_failure c) (shutdown_operation c) (last_control_ack c).
Definition set_maintenance (x y : bool) (c : t) : t :=
  mk (rank c) (node_id c) (pid c) (enabled c) (channel c) (seq c) (connected c) (established c)
     (start_flag c) (snapshot_observations c) (snapshot_receipts c) x y
     (control_failure c) (shutdown_operation c) (last_control_ack c).
Definition set_failure (x : option client_failure) (c : t) : t :=
  mk (rank c) (node_id c) (pid c) (enabled c) (channel c) (seq c) (connected c) (established c)
     (start_flag c) (snapshot_observations c) (snapshot_receipts c) (maintained c)
     (maintenance_stop c) x (shutdown_operation c) (last_control_ack c).
Definition set_shutdown (x : option string) (c : t) : t :=
  mk (rank c) (node_id c) (pid c) (enabled c) (channel c) (seq c) (connected c) (established c)
     (start_flag c) (snapshot_observations c) (snapshot_receipts c) (maintained c)
     (maintenance_stop c) (control_failure c) x (last_control_ack c).
Definition set_ack (x : option float) (c : t) : t :=
  mk (rank c) (node_id c) (pid c) (enabled c) (channel c) (seq c) (connected c) (established c)
     (start_flag c) (snapshot_observations c) (snapshot_receipts c) (maintained c)
     (maintenance_stop c) (control_failure c) (shutdown_operation c) x.

Definition fail (f : client_failure) (c : t) : t := set_failure (Some f) c.
(** [self.connected = False; self.established = False] *)
Definition lose_session (c : t) : t := set_session false false c.

(** *** Running the channel *)

(** The result of an operation: the state, the frames written, what it returns. *)
Definition outcome (A : Type) : Type := t * list Envelope.t * A.

(** A coroutine of the channel run by the maintenance task itself. *)
Definition run_channel {A} (m : NodeChannel.M A) (ch : NodeChannel.t) (c : t)
    : outcome (result chan_error A) :=
  let '(ch', out, r) := m ch in (set_channel (Some ch') c, out, r).

(** [self._loop.call(coro, timeout=...)] *)
Definition call {A} (cut : option NodeChannel.t) (m : NodeChannel.M A) (ch : NodeChannel.t) (c : t)
    : outcome (result chan_error A) :=
  match cut with
  | Some ch' => (set_channel (Some ch') c, [], Err TimeoutError)
  | None => run_channel m ch c
  end.

Definition instance (c : t) : string := node_id c +:+ ":" +:+ str_Z (pid c).

(** [self.control_limits.get(name, 0)] as a float; [None] when [float] raises. *)
Definition limit (c : t) (name : string) : option float :=
  match channel c with
  | None => Some Float.zero
  | Some ch =>
      match to_float OverflowError (dget_default name (VInt 0) (NodeChannel.control_limits ch)) with
      | Ok f => Some f
      | Err _ => None
      end
  end.

Definition positive (x : float) : bool := Float.is_finite x && Float.gtb x Float.zero.

(** *** Connecting *)

Record connect_env := ConnectEnv {
  ce_new : option NodeChannel.t;
  ce_cut : option NodeChannel.t;
  ce_cleaned : bool;
  ce_opened : bool;
  ce_sent : bool;
  ce_input : incoming
}.

(** [connect]. [ce_new] is the channel built from the environment variables, [None] when
    one of them does not parse. *)
Definition connect (e : connect_env) (c : t) : outcome bool :=
  if negb (enabled c) then (c, [], false)
  else
    match ce_new e with
    | None => (set_session false (established c) (set_channel None c), [], false)
    | Some ch =>
        match call (ce_cut e)
                (NodeChannel.connect_and_register mac (instance c) (ce_cleaned e)
                   (ce_opened e) (ce_sent e) (ce_input e)) ch c with
        | (c1, out, Ok _) => (set_session true (established c1) c1, out, true)
        | (c1, out, Err _) => (set_session false (established c1) (set_channel None c1), out, false)
        end
    end.

(** *** Observations *)

Record observation_args := ObservationArgs {
  oa_component : string;
  oa_state : string;
  oa_role : string;
  oa_reason : option string;
  oa_detail : option string;
  oa_instance : option string;
  oa_model : option string;
  oa_replica : option string
}.

(** [make_observation]; [None] before authentication, which raises. *)
Definition make_observation (a : observation_args) (wall : float) (c : t)
    : t * option ComponentObservation.t :=
  match channel c with
  | None => (c, None)
  | Some ch =>
      let c1 := set_seq (seq c + 1) c in
      (c1, Some (ComponentObservation.mk (NodeChannel.deployment_id ch) (NodeChannel.plan_hash ch)
             (NodeChannel.generation ch) (oa_component a)
             (match oa_instance a with
              | Some i => if nonempty i then i else instance c
              | None => instance c
              end)
             (seq c1) RANK (oa_role a) (node_id c) (oa_state a) (VFloat wall) (Some (rank c))
             (oa_model a) (oa_replica a) (oa_reason a) (oa_detail a) None))
  end.

(** [observe] *)
Definition observe (a : observation_args) (wall : float) (cut : option NodeChannel.t) (sent : bool)
    (c : t) : outcome bool :=
  if negb (connected c) || negb (established c) then (c, [], false)
  else
    match make_observation a wall c, channel c with
    | (c1, Some o), Some ch =>
        match call cut (NodeChannel.send_observation mac sent o None) ch c1 with
        | (c2, out, Ok _) =>
            (set_observations (<[obs_key o := o]> (snapshot_observations c2)) c2, out, true)
        | (c2, out, Err _) =>
            (fail ObservationFailed (set_session false (established c2) c2), out, false)
        end
    | (c1, _), _ => (c1, [], false)
    end.

(** *** The initial snapshot *)

Record establish_env := EstablishEnv {
  ee_cut_send : option NodeChannel.t;
  ee_sent : nat;
  ee_late : bool;
  ee_cut_wait : option NodeChannel.t;
  ee_answered : bool;
  ee_input : incoming;
  ee_clock : float
}.

Definition observation_map (os : list ComponentObservation.t)
    : gmap (string * string) ComponentObservation.t :=
  fold_left (fun m o => <[obs_key o := o]> m) os ∅.

(** [send_snapshot] of the whole cache with the default arguments. *)
Definition send_whole (sent : nat) (observations : list ComponentObservation.t) (receipts : list dict)
    : NodeChannel.M string :=
  NodeChannel.send_snapshot mac sha256 sent observations receipts "" 256.

(** [establish] *)
Definition establish (payload : dict) (observations : list ComponentObservation.t)
    (e : establish_env) (c : t) : outcome bool :=
  match connected c, channel c with
  | true, Some ch =>
      match receipt_key payload with
      | Err _ => (lose_session c, [], false)
      | Ok key =>
          match call (ee_cut_send e) (send_whole (ee_sent e) observations [payload]) ch c with
          | (c1, out, Err _) => (lose_session c1, out, false)
          | (c1, out, Ok sid) =>
              match ee_late e, channel c1 with
              | false, Some ch1 =>
                  match call (ee_cut_wait e)
                          (NodeChannel.await_snapshot_accepted mac (ee_answered e) sid (ee_input e))
                          ch1 c1 with
                  | (c2, out2, Err _) => (lose_session c2, out ++ out2, false)
                  | (c2, out2, Ok false) => (set_session (connected c2) false c2, out ++ out2, false)
                  | (c2, out2, Ok true) =>
                      (set_receipts (<[key := payload]> (snapshot_receipts c2))
                         (set_observations (observation_map observations)
                            (set_ack (Some (ee_clock e)) (set_session (connected c2) true c2))),
                       out ++ out2, true)
                  end
              | _, _ => (lose_session c1, out, false)
              end
          end
      end
  | _, _ => (c, [], false)
  end.

(** *** Receipts *)

Definition submit_receipt (payload : dict) (cut : option NodeChannel.t) (sent : bool) (c : t)
    : outcome bool :=
  match connected c, established c, channel c with
  | true, true, Some ch =>
      match receipt_key payload with
      | Err _ => (fail ReceiptFailed c, [], false)
      | Ok key =>
          match call cut (NodeChannel.send_receipt mac sent payload) ch c with
          | (c1, out, Ok _) => (set_receipts (<[key := payload]> (snapshot_receipts c1)) c1, out, true)
          | (c1, out, Err _) => (fail ReceiptFailed c1, out, false)
          end
      end
  | _, _, _ => (c, [], false)
  end.

(** *** The start phases *)

(** [_start_maintenance]; the future of the maintenance task is [maintained]. *)
Definition start_maintenance (c : t) : t :=
  if maintained c then c
  else
    match limit c "heartbeat_interval_s", limit c "lease_timeout_s", limit c "reconnect_grace_s" with
    | Some interval, Some lease, Some grace =>
        if positive interval && positive lease && positive grace
        then match channel c with
             | None => fail NoEventLoop c
             | Some _ => set_maintenance true (maintenance_stop c) c
             end
        else fail InvalidLimits c
    | _, _, _ => fail InvalidLimits c
    end.

Record poll_env := PollEnv {
  pe_no_budget : bool;
  pe_cut_receive : option NodeChannel.t;
  pe_input : incoming;
  pe_clock : float;
  pe_cut_beat : option NodeChannel.t;
  pe_beat_sent : bool;
  pe_beat_inputs : list incoming;
  pe_beat_clock : float;
  pe_late : bool;
  pe_cut_answer : option NodeChannel.t;
  pe_answered : bool
}.

(** The heartbeat of an idle poll, against the lease of the last acknowledgment. *)
Definition idle_heartbeat (e : poll_env) (c : t) : outcome bool :=
  let failed (r : t * list Envelope.t) : outcome bool :=
    (fail HeartbeatFailed (lose_session r.1), r.2, false) in
  match limit c "lease_timeout_s", last_control_ack c, channel c with
  | Some lease, Some last_ack, Some ch =>
      if negb (positive lease) then failed (c, [])
      else
        let remaining := Float.sub (Float.add last_ack lease) (pe_clock e) in
        if Float.leb remaining Float.zero then failed (c, [])
        else
          match call (pe_cut_beat e)
                  (NodeChannel.heartbeat_round_trip mac (pe_beat_sent e) (pe_beat_inputs e)) ch c with
          | (c1, out, Ok (Some true)) => (set_ack (Some (pe_beat_clock e)) c1, out, false)
          | (c1, out, _) => failed (c1, out)
          end
  | _, _, _ => failed (c, [])
  end.

(** [poll_start]; [None] is the [ValueError] of an unknown operation. *)
Definition poll_start (expected : string) (e : poll_env) (c : t) : outcome (option bool) :=
  if negb (bool_decide (expected ∈ HeadChannel.START_OPERATIONS)) then (c, [], None)
  else if start_flag c then (c, [], Some true)
  else
    match connected c, channel c with
    | true, Some ch =>
        if pe_no_budget e then (c, [], Some false)
        else
          match call (pe_cut_receive e) (NodeChannel.receive_command (pe_input e)) ch c with
          | (c1, out, Err _) => (fail (ReceiveFailed expected) (lose_session c1), out, Some false)
          | (c1, out, Ok None) =>
              let '(c2, out2, r) := idle_heartbeat e c1 in (c2, out ++ out2, Some r)
          | (c1, out, Ok (Some payload)) =>
              if negb (is_str expected (attr "operation" payload))
              then (fail (UnexpectedOperation expected) (lose_session c1), out, Some false)
              else
                match pe_late e, nonempty_str (attr "command_id" payload), channel c1 with
                | false, Some command_id, Some ch1 =>
                    match call (pe_cut_answer e)
                            (NodeChannel.send_command_result mac (pe_answered e) command_id true ""
                               expected (Some "SUCCEEDED") []) ch1 c1 with
                    | (c2, out2, Ok _) => (start_maintenance (set_start true c2), out ++ out2, Some true)
                    | (c2, out2, Err _) => (lose_session c2, out ++ out2, Some false)
                    end
                | _, _, _ => (lose_session c1, out, Some false)
                end
          end
    | _, _ => (c, [], Some false)
    end.

(** [start_received] *)
Definition start_received (c : t) : bool := connected c && established c && start_flag c.
(** [note_start] *)
Definition note_start (c : t) : t := set_start true c.
(** [start_gate_available] *)
Definition start_gate_available (c : t) : bool := connected c && established c.

(** *** Commands at run time *)

(** [_handle_runtime_command]: an exception of the replay is its [Err]. *)
Definition handle_runtime_command (payload : dict) (replayed answered : bool)
    (cut : option NodeChannel.t) (ch : NodeChannel.t) (c : t) : outcome (result chan_error bool) :=
  match run_channel (NodeChannel.replay_command_result mac replayed payload) ch c with
  | (c1, out, Err e) => (c1, out, Err e)
  | (c1, out, Ok true) => (c1, out, Ok false)
  | (c1, out, Ok false) =>
      match attr "operation" payload, nonempty_str (attr "command_id" payload), channel c1 with
      | VStr operation, Some command_id, Some ch1 =>
          if negb (bool_decide (operation ∈ ["DRAIN"; "STOP"]))
          then (fail UnexpectedCommand c1, out, Ok true)
          else
            match call cut (NodeChannel.send_command_result mac answered command_id true "" operation
                              (Some "SUCCEEDED") []) ch1 c1 with
            | (c2, out2, Ok _) => (set_shutdown (Some operation) c2, out ++ out2, Ok true)
            | (c2, out2, Err _) => (fail (AcknowledgmentFailed operation) c2, out ++ out2, Ok true)
            end
      | _, _, _ => (fail UnexpectedCommand c1, out, Ok true)
      end
  end.

(** *** Maintenance of the lease *)

(** One heartbeat and the look for a command that follows it. *)
Record beat_env := BeatEnv {
  be_sent : bool;
  be_inputs : list incoming;
  be_clock : float;
  be_command : incoming;
  be_replayed : bool;
  be_answered : bool;
  be_cut : option NodeChannel.t
}.

(** How the body of the [try] ends: [Finish] returns, [Beat] goes round. *)
Inductive beat_end := Finish | Beat (last_ack : float).

Definition beat (e : beat_env) (ch : NodeChannel.t) (c : t) : outcome (result chan_error beat_end) :=
  match run_channel (NodeChannel.heartbeat_round_trip mac (be_sent e) (be_inputs e)) ch c with
  | (c1, out, Err x) => (c1, out, Err x)
  | (c1, out, Ok (Some true)) =>
      let c2 := set_ack (Some (be_clock e)) c1 in
      match channel c2 with
      | None => (c2, out, Err TimeoutError)
      | Some ch2 =>
          match run_channel (NodeChannel.receive_command (be_command e)) ch2 c2 with
          | (c3, out3, Err x) => (c3, out ++ out3, Err x)
          | (c3, out3, Ok None) => (c3, out ++ out3, Ok (Beat (be_clock e)))
          | (c3, out3, Ok (Some command)) =>
              match channel c3 with
              | None => (c3, out ++ out3, Err TimeoutError)
              | Some ch3 =>
                  match handle_runtime_command command (be_replayed e) (be_answered e) (be_cut e) ch3 c3 with
                  | (c4, out4, Err x) => (c4, (out ++ out3) ++ out4, Err x)
                  | (c4, out4, Ok true) => (c4, (out ++ out3) ++ out4, Ok Finish)
                  | (c4, out4, Ok false) => (c4, (out ++ out3) ++ out4, Ok (Beat (be_clock e)))
                  end
              end
          end
      end
  | (c1, out, Ok _) => (c1, out, Err TimeoutError)
  end.

(** One turn of the reconnection loop: the clock at its condition, before connecting,
    before the snapshot, before the wait and at the end, and what happens to the connection. *)
Record attempt_env := AttemptEnv {
  ae_clock : float;
  ae_clock_connect : float;
  ae_cleaned : bool;
  ae_opened : bool;
  ae_register_sent : bool;
  ae_register_input : incoming;
  ae_clock_send : float;
  ae_sent : nat;
  ae_clock_wait : float;
  ae_answered : bool;
  ae_input : incoming;
  ae_clock_end : float
}.

(** How a turn ends: the session is established again, the loop is left by [break], or
    it goes on. *)
Inductive attempt_end := Reestablished (last_ack : float) | Broken | Again.

Definition expired (deadline clk : float) : bool :=
  Float.leb (Float.sub deadline clk) Float.zero.

Definition attempt (deadline : float) (e : attempt_env) (c : t) : outcome attempt_end :=
  match channel c with
  | None => (c, [], Again)
  | Some ch =>
      if expired deadline (ae_clock_connect e) then (c, [], Broken)
      else
        match run_channel (NodeChannel.connect_and_register mac (instance c) (ae_cleaned e)
                (ae_opened e) (ae_register_sent e) (ae_register_input e)) ch c with
        | (c1, out, Err _) => (c1, out, Again)
        | (c1, out, Ok _) =>
            match channel c1 with
            | None => (c1, out, Again)
            | Some ch1 =>
                if expired deadline (ae_clock_send e) then (c1, out, Broken)
                else
                  match run_channel (send_whole (ae_sent e)
                          (map_to_list (snapshot_observations c1)).*2
                          (map_to_list (snapshot_receipts c1)).*2) ch1 c1 with
                  | (c2, out2, Err _) => (c2, out ++ out2, Again)
                  | (c2, out2, Ok sid) =>
                      match channel c2 with
                      | None => (c2, out ++ out2, Again)
                      | Some ch2 =>
                          if expired deadline (ae_clock_wait e) then (c2, out ++ out2, Broken)
                          else
                            match run_channel (NodeChannel.await_snapshot_accepted mac (ae_answered e)
                                    sid (ae_input e)) ch2 c2 with
                            | (c3, out3, Ok true) =>
                                (set_session true true c3, (out ++ out2) ++ out3,
                                 Reestablished (ae_clock_end e))
                            | (c3, out3, _) => (c3, (out ++ out2) ++ out3, Again)
                            end
                      end
                  end
            end
        end
  end.

(** The loop [while not stop and time.monotonic() <= loss_time + grace]; [attempts] are
    the turns that the clock leaves time for. *)
Fixpoint reconnect (deadline : float) (attempts : list attempt_env) (c : t) : outcome (option float) :=
  match attempts with
  | [] => (c, [], None)
  | e :: rest =>
      if maintenance_stop c || negb (Float.leb (ae_clock e) deadline) then (c, [], None)
      else
        match attempt deadline e c with
        | (c1, out, Reestablished last_ack) => (c1, out, Some last_ack)
        | (c1, out, Broken) => (c1, out, None)
        | (c1, out, Again) =>
            let '(c2, out2, r) := reconnect deadline rest c1 in (c2, out ++ out2, r)
        end
  end.

Definition is_contract (e : chan_error) : bool :=
  match e with Raised x => is_contract_error x | _ => false end.
Definition is_reset (e : chan_error) : bool :=
  match e with ConnectionError _ => true | _ => false end.

Record round_env := RoundEnv {
  re_beat : beat_env;
  re_clock : float;
  re_attempts : list attempt_env
}.

(** The loss is dated now after a reset, and not before the end of the lease otherwise. *)
Definition loss_time (reset : bool) (clk last_ack lease : float) : float :=
  if reset then clk else Float.max clk (Float.add last_ack lease).

(** One turn of the loop of [_maintain_control_lease] after its sleep: [None] returns. *)
Definition maintain_round (lease grace : float) (e : round_env) (last_ack : float) (c : t)
    : outcome (option float) :=
  if maintenance_stop c then (c, [], None)
  else
    let '(c1, out, r) :=
      match channel c with
      | None => (c, [], Err TimeoutError)
      | Some ch => beat (re_beat e) ch c
      end in
    match r with
    | Ok Finish => (c1, out, None)
    | Ok (Beat ack) => (c1, out, Some ack)
    | Err x =>
        if is_contract x then (fail ProtocolFailed c1, out, None)
        else
          let deadline := Float.add (loss_time (is_reset x) (re_clock e) last_ack lease) grace in
          let '(c2, out2, again) := reconnect deadline (re_attempts e) (lose_session c1) in
          if negb (established c2) then (fail LeaseLost c2, out ++ out2, None)
          else (c2, out ++ out2, Some (default last_ack again))
    end.

(** [_maintain_control_lease]: one element of [rounds] per turn of the loop. *)
Fixpoint maintain (lease grace : float) (rounds : list round_env) (last_ack : float) (c : t)
    : outcome unit :=
  match rounds with
  | [] => (c, [], tt)
  | e :: rest =>
      match maintain_round lease grace e last_ack c with
      | (c1, out, None) => (c1, out, tt)
      | (c1, out, Some ack) =>
          let '(c2, out2, _) := maintain lease grace rest ack c1 in (c2, out ++ out2, tt)
      end
  end.

(** [min(x, y, z)] *)
Definition least (x y z : float) : float :=
  let m := if Float.ltb y x then y else x in if Float.ltb z m then z else m.

Definition maintain_control_lease (rounds : list round_env) (clk : float) (c : t) : outcome unit :=
  match limit c "heartbeat_interval_s", limit c "lease_timeout_s", limit c "reconnect_grace_s" with
  | Some interval, Some lease, Some grace =>
      if Float.leb (least interval lease grace) Float.zero then (fail InvalidLimits c, [], tt)
      else
        let last_ack := match last_control_ack c with
                        | Some a => if Float.eqb a Float.zero then clk else a
                        | None => clk
                        end in
        maintain lease grace rounds last_ack c
  | _, _, _ =>
      (match control_failure c with None => fail MaintenanceFailed c | Some _ => c end, [], tt)
  end.

(** *** Closing *)

Definition shutdown_requested (c : t) : bool :=
  match shutdown_operation c with Some o => bool_decide (o ∈ ["DRAIN"; "STOP"]) | None => false end.

(** [close]; the result is whether it raises. [loop_ok] is whether the event loop stops in
    time and [task_ok] whether the maintenance task does. *)
Definition close (expected sent closed late : bool) (cut : option NodeChannel.t)
    (task_ok loop_ok : bool) (c : t) : outcome bool :=
  let c0 := set_maintenance (maintained c) true c in
  let '(c1, out, channel_ok) :=
    match channel c0 with
    | None => (c0, [], true)
    | Some ch =>
        if late then
          (match control_failure c0 with None => fail CloseFailed c0 | Some _ => c0 end, [], false)
        else
          match call cut (NodeChannel.close mac expected sent closed) ch c0 with
          | (c', o, Ok _) => (c', o, true)
          | (c', o, Err _) =>
              (match control_failure c' with None => fail CloseFailed c' | Some _ => c' end, o, false)
          end
    end in
  let loop_ok := match channel c0 with None => true | Some _ => loop_ok end in
  let task_ok := negb (maintained c) || task_ok in
  (set_session false false (set_maintenance false true (set_channel None c1)), out,
   channel_ok && loop_ok && task_ok).

(** *** Runs *)

(** One call of the rank's process, or one turn of the maintenance task. *)
Inductive event :=
| EConnect (e : connect_env)
| EEstablish (payload : dict) (observations : list ComponentObservation.t) (e : establish_env)
| EObserve (a : observation_args) (wall : float) (cut : option NodeChannel.t) (sent : bool)
| EReceipt (payload : dict) (cut : option NodeChannel.t) (sent : bool)
| EPollStart (expected : string) (e : poll_env)
| ENoteStart
| ERound (lease grace : float) (e : round_env) (last_ack : float)
| EClose (expected sent closed late : bool) (cut : option NodeChannel.t) (task_ok loop_ok : bool).

Definition step (ev : event) (c : t) : t * list Envelope.t :=
  match ev with
  | EConnect e => (connect e c).1
  | EEstablish payload observations e => (establish payload observations e c).1
  | EObserve a wall cut sent => (observe a wall cut sent c).1
  | EReceipt payload cut sent => (submit_receipt payload cut sent c).1
  | EPollStart expected e => (poll_start expected e c).1
  | ENoteStart => (note_start c, [])
  | ERound lease grace e last_ack =>
      if maintained c then (maintain_round lease grace e last_ack c).1 else (c, [])
  | EClose expected sent closed late cut task_ok loop_ok =>
      (close expected sent closed late cut task_ok loop_ok c).1
  end.

Definition run (evs : list event) (c : t) : t := fold_left (fun c ev => (step ev c).1) evs c.
End Client.
End RankClient.
