(* ===== verification/RankClientProps.v ===== *)
(** Theorems on the rank client: the maintenance of the lease never ends silently, a
    failure of the channel is never withdrawn, the start gate opens only by a command
    that was answered, and what a reconnection sends. *)

From S2P Require Import Prelude PyValue Json JsonProps Envelopes EnvelopesProps Frames Contracts Snapshots SnapshotsProps NodeChannel Listener DeliveryProps CommandProps HeadChannel RankClient.

Import RankClient.

Section Client.
Context `{FloatText} (mac : text -> text -> text) (sha256 : text -> string).
Implicit Types c : RankClient.t.

Abbreviation step := (RankClient.step mac sha256).
Abbreviation run := (RankClient.run mac sha256).

(** ** What a call of the channel leaves alone *)

(** Everything but the channel. *)
Definition same_client c c' : Prop :=
  exists ch, c' = set_channel ch c.

Lemma call_same {A} cut (m : NodeChannel.M A) ch c c' out r :
  call cut m ch c = (c', out, r) -> exists ch', c' = set_channel (Some ch') c.
Proof.
  unfold call, run_channel. destruct cut as [ch'|].
  - intros [= <- _ _]. eauto.
  - destruct (m ch) as [[ch' o] r']. intros [= <- _ _]. eauto.
Qed.

Lemma run_channel_same {A} (m : NodeChannel.M A) ch c c' out r :
  run_channel m ch c = (c', out, r) -> exists ch' , c' = set_channel (Some ch') c.
Proof. apply (call_same None). Qed.

(** ** Failures are sticky *)

Definition failed c : Prop := is_Some (control_failure c).

Lemma failed_fail f c : failed (fail f c).
Proof. unfold failed. cbn. eauto. Qed.

#[local] Hint Resolve failed_fail : core.

(** Destruct the calls of an operation one after the other. *)
#[local] Ltac client_cases :=
  repeat match goal with
  | |- context [call ?cut ?m ?ch ?c] =>
      let E := fresh "E" in
      destruct (call cut m ch c) as [[? ?] ?] eqn:E; apply call_same in E as [? ->]
  | |- context [run_channel ?m ?ch ?c] =>
      let E := fresh "E" in
      destruct (run_channel m ch c) as [[? ?] ?] eqn:E; apply run_channel_same in E as [? ->]
  | |- context [match ?x with _ => _ end] =>
      lazymatch x with
      | context [match _ with _ => _ end] => fail
      | context [call _ _ _ _] => fail
      | context [run_channel _ _ _] => fail
      | _ => destruct x eqn:?
      end
  end.

(** Each case leaves the failure alone or records one. *)
#[local] Ltac keep_failed := client_cases; simplify_eq; first [assumption | apply failed_fail | eauto; fail].

Lemma observe_failed a wall cut sent c : failed c -> failed (observe mac a wall cut sent c).1.1.
Proof. intros Hf. unfold observe, make_observation. keep_failed. Qed.

Lemma connect_failed e c : failed c -> failed (connect mac e c).1.1.
Proof. intros Hf. unfold connect. keep_failed. Qed.

Lemma establish_failed p os e c : failed c -> failed (establish mac sha256 p os e c).1.1.
Proof. intros Hf. unfold establish. keep_failed. Qed.

Lemma receipt_failed p cut sent c : failed c -> failed (submit_receipt mac p cut sent c).1.1.
Proof. intros Hf. unfold submit_receipt. keep_failed. Qed.

Lemma idle_failed e c : failed c -> failed (idle_heartbeat mac e c).1.1.
Proof. intros Hf. unfold idle_heartbeat. keep_failed. Qed.

Lemma start_maintenance_failed c : failed c -> failed (start_maintenance c).
Proof. intros Hf. unfold start_maintenance. keep_failed. Qed.

Lemma poll_start_failed expected e c : failed c -> failed (poll_start mac expected e c).1.1.
Proof.
  intros Hf. unfold poll_start. destruct (negb _); [done|]. destruct (start_flag c); [done|].
  destruct (connected c), (channel c) as [ch|]; try done. destruct (pe_no_budget e); [done|].
  destruct (call _ _ _ _) as [[c1 out] r] eqn:E. apply call_same in E as [ch' ->].
  destruct r as [[payload|]|x]; [|pose proof (idle_failed e (set_channel (Some ch') c) Hf)|apply failed_fail].
  - destruct (negb _); [apply failed_fail|].
    destruct (pe_late e); [done|]. destruct (nonempty_str _) as [id|]; [|done]. cbn [channel set_channel].
    destruct (call _ _ _ _) as [[c2 out2] r2] eqn:E2. apply call_same in E2 as [ch2 ->].
    destruct r2; [|done]. by apply start_maintenance_failed.
  - by destruct (idle_heartbeat _ _ _) as [[? ?] ?].
Qed.

Lemma handle_failed p a b cut ch c : failed c -> failed (handle_runtime_command mac p a b cut ch c).1.1.
Proof. intros Hf. unfold handle_runtime_command. keep_failed. Qed.

Lemma beat_failed e ch c : failed c -> failed (beat mac e ch c).1.1.
Proof.
  intros Hf. unfold beat. destruct (run_channel _ _ _) as [[c1 out] r] eqn:E.
  apply run_channel_same in E as [ch1 ->]. destruct r as [[[]|]|]; try done. cbn [channel set_ack set_channel].
  destruct (run_channel _ _ _) as [[c2 out2] r2] eqn:E2. apply run_channel_same in E2 as [ch2 ->].
  destruct r2 as [[command|]|]; try done. cbn [channel set_channel].
  pose proof (handle_failed command (be_replayed e) (be_answered e) (be_cut e) ch2
    (set_channel (Some ch2) (set_ack (Some (be_clock e)) (set_channel (Some ch1) c))) Hf) as Hh.
  by destruct (handle_runtime_command _ _ _ _ _ _ _) as [[c3 out3] [[]|]].
Qed.

Lemma attempt_failed d e c : failed c -> failed (attempt mac sha256 d e c).1.1.
Proof. intros Hf. unfold attempt. keep_failed. Qed.

Lemma reconnect_failed d es c : failed c -> failed (reconnect mac sha256 d es c).1.1.
Proof.
  revert c. induction es as [|e es IH]; intros c Hf; cbn [reconnect]; [done|].
  destruct (maintenance_stop c || _); [done|]. pose proof (attempt_failed d e c Hf) as Ha.
  destruct (attempt _ _ _ _ _) as [[c1 out] []]; [done..|]. specialize (IH c1 Ha).
  by destruct (reconnect _ _ _ _ _) as [[c2 out2] r].
Qed.

Lemma round_failed lease grace e ack c : failed c -> failed (maintain_round mac sha256 lease grace e ack c).1.1.
Proof.
  intros Hf. unfold maintain_round. destruct (maintenance_stop c); [done|].
  set (x := match channel c with None => _ | _ => _ end).
  assert (failed x.1.1) as Hx by (unfold x; destruct (channel c); [by apply beat_failed|done]).
  destruct x as [[c1 out] [[|a]|x]]; cbn [fst] in Hx; try done.
  destruct (is_contract x); [apply failed_fail|].
  set (d := Float.add _ grace). pose proof (reconnect_failed d (re_attempts e) (lose_session c1) Hx) as Hr.
  destruct (reconnect _ _ _ _ _) as [[c2 out2] r]. destruct (negb (established c2)); [apply failed_fail|done].
Qed.

Lemma close_failed a b d l cut t1 t2 c : failed c -> failed (close mac a b d l cut t1 t2 c).1.1.
Proof.
  intros Hf. unfold close. cbn [channel set_maintenance control_failure].
  assert (forall x, failed x -> failed (match control_failure x with None => fail CloseFailed x | Some _ => x end))
    as Hk by (intros x Hx; by destruct (control_failure x)).
  destruct (channel c) as [ch|]; [|done]. destruct l.
  - exact (Hk (set_maintenance (maintained c) true c) Hf).
  - destruct (call _ _ _ _) as [[c1 out] r] eqn:E. apply call_same in E as [ch1 ->].
    destruct r; [done|]. exact (Hk (set_channel (Some ch1) (set_maintenance (maintained c) true c)) Hf).
Qed.

Lemma step_failed ev c : failed c -> failed (step ev c).1.
Proof.
  destruct ev; cbn [RankClient.step]; intros Hf;
    eauto using connect_failed, establish_failed, observe_failed, receipt_failed, poll_start_failed, close_failed.
  destruct (maintained c); [by apply round_failed|done].
Qed.

Lemma run_failed evs c : failed c -> failed (run evs c).
Proof. revert c. induction evs as [|ev evs IH]; intros c Hf; [done|]. by apply IH, step_failed. Qed.

(** A delivery failure is final: when sending an observation or a receipt fails, the
    client records a control failure, and nothing it does afterwards withdraws it --
    neither a heartbeat that is acknowledged nor a reconnection that re-establishes the
    session. After a failed observation the client also counts as disconnected. *)
Theorem delivery_failure_is_final evs c a wall cut sent c1 out payload c2 out' :
  connected c = true -> established c = true -> is_Some (channel c) ->
  (observe mac a wall cut sent c = (c1, out, false) ->
   connected c1 = false /\ is_Some (control_failure (run evs c1))) /\
  (submit_receipt mac payload cut sent c = (c2, out', false) ->
   is_Some (control_failure (run evs c2))).
Proof.
  intros Hc He [ch Hch]. split.
  - unfold observe, make_observation. rewrite Hc, He, Hch. cbn [negb orb].
    destruct (call _ _ _ _) as [[c' o] r] eqn:E. apply call_same in E as [ch' ->]. destruct r; [done|].
    intros [= <- _]. split; [done|]. apply run_failed, failed_fail.
  - unfold submit_receipt. rewrite Hc, He, Hch. destruct (receipt_key payload) as [key|].
    + destruct (call _ _ _ _) as [[c' o] r] eqn:E. apply call_same in E as [ch' ->]. destruct r; [done|].
      intros [= <- _]. apply run_failed, failed_fail.
    + intros [= <- _]. apply run_failed, failed_fail.
Qed.

(** ** The maintenance task *)

Lemma handle_session p a b cut ch c c' out r :
  handle_runtime_command mac p a b cut ch c = (c', out, r) ->
  connected c' = connected c /\ established c' = established c /\
  (r = Ok true -> failed c' \/ (exists op, shutdown_operation c' = Some op /\ op ∈ ["DRAIN"; "STOP"])).
Proof.
  unfold handle_runtime_command. destruct (run_channel _ _ _) as [[c1 o] r1] eqn:E.
  apply run_channel_same in E as [ch1 ->]. destruct r1 as [[]|x]; [by intros [= <- _ <-]| |by intros [= <- _ <-]].
  assert (forall r' : result chan_error bool, (fail UnexpectedCommand (set_channel (Some ch1) c), o, Ok true) = (c', out, r') ->
    connected c' = connected c /\ established c' = established c /\
    (r' = Ok true -> failed c' \/ (exists op, shutdown_operation c' = Some op /\ op ∈ ["DRAIN"; "STOP"])))
    as Hun by (intros r' [= <- _ <-]; split_and!; [done..|left; apply failed_fail]).
  destruct (attr "operation" p); try apply Hun. destruct (nonempty_str _) as [id|]; [|apply Hun].
  cbn [channel set_channel]. destruct (bool_decide_reflect (s ∈ ["DRAIN"; "STOP"])) as [Hin|]; cbn [negb];
    [|apply Hun].
  destruct (call _ _ _ _) as [[c2 o2] r2] eqn:E2. apply call_same in E2 as [ch2 ->].
  destruct r2; intros [= <- _ <-]; split_and!; try done; intros _; [right; eauto|left; apply failed_fail].
Qed.

Lemma handle_ack p a b cut ch c c' out r :
  handle_runtime_command mac p a b cut ch c = (c', out, r) -> last_control_ack c' = last_control_ack c.
Proof. unfold handle_runtime_command. client_cases; intros; simplify_eq; done. Qed.

Lemma write_Ok sent kind payload ch ch' out :
  NodeChannel.write mac sent kind payload ch = (ch', out, Ok tt) ->
  NodeChannel.received_commands ch' = NodeChannel.received_commands ch /\
  NodeChannel.snapshot_hashes ch' = NodeChannel.snapshot_hashes ch /\
  exists e, out = [e] /\ Envelope.kind e = kind /\ Envelope.payload e = payload.
Proof.
  unfold NodeChannel.write. intros (c1 & o1 & a1 & o2 & [= <- <- <-] & Hw & ->)%chan_bind_Ok.
  apply chan_bind_Ok in Hw as (c2 & o3 & [] & o4 & (_ & -> & ->)%chan_refuse & Hw & ->).
  apply chan_bind_Ok in Hw as (c3 & o5 & e & o6 & He & Hw & ->).
  unfold NodeChannel.put_frame in Hw. apply chan_bind_Ok in Hw as (c4 & o7 & a & o8 & [= <- <- <-] & Hw & ->).
  apply chan_bind_Ok in Hw as (c5 & o9 & a & o10 & (_ & -> & ->)%chan_lift & Hw & ->).
  apply chan_bind_Ok in Hw as (c6 & o11 & [] & o12 & [= <- <-] & (_ & -> & ->)%chan_refuse & ->).
  injection He as <- <- <-.
  do 2 (split; [done|]). eexists. split; [reflexivity|]. done.
Qed.

(** The heartbeat this channel sends next was written and the head acknowledged it. *)
Definition acknowledged (ch : NodeChannel.t) (inputs : list incoming) (out : list Envelope.t) : Prop :=
  let id := str_Z (NodeChannel.rank ch) +:+ ":" +:+ str_Z (NodeChannel.heartbeat_counter ch + 1) in
  exists hb ack, hb ∈ out /\ InEnvelope ack ∈ inputs /\
    Envelope.kind hb = HEARTBEAT /\ Envelope.payload hb = NodeChannel.heartbeat_payload id /\
    Envelope.kind ack = HEARTBEAT /\ attr "heartbeat_id" (Envelope.payload ack) = VStr id /\
    Envelope.sender_rank ack = SUPERVISOR_RANK.

Lemma read_head_Ok input ch ch' out e :
  NodeChannel.read_head_envelope input ch = (ch', out, Ok e) ->
  input = InEnvelope e /\ Envelope.sender_rank e = SUPERVISOR_RANK /\ out = [].
Proof.
  unfold NodeChannel.read_head_envelope, NodeChannel.validate_head_envelope.
  intros (? & ? & ? & ? & [= <- <- <-] & Hr & ->)%chan_bind_Ok.
  apply chan_bind_Ok in Hr as (? & ? & [] & ? & (_ & -> & ->)%chan_refuse & Hr & ->).
  destruct input as [e'| | | |]; try done.
  apply chan_bind_Ok in Hr as (? & ? & [] & ? & Hv & [= <- <- ->] & ->).
  apply chan_bind_Ok in Hv as (? & ? & ? & ? & [= <- <- <-] & Hv & ->).
  apply chan_bind_Ok in Hv as (? & ? & [] & ? & (Hid & -> & ->)%chan_refuse & Hv & ->).
  apply chan_bind_Ok in Hv as (? & ? & [] & ? & (_ & -> & ->)%chan_refuse & [= <- <-] & ->).
  bool_prop. done.
Qed.

Lemma await_heartbeat_Ok id inputs ch ch' out :
  NodeChannel.await_heartbeat id inputs ch = (ch', out, Ok (Some true)) ->
  exists ack, InEnvelope ack ∈ inputs /\ Envelope.kind ack = HEARTBEAT /\
    attr "heartbeat_id" (Envelope.payload ack) = VStr id /\ Envelope.sender_rank ack = SUPERVISOR_RANK.
Proof.
  revert ch out. induction inputs as [|input inputs IH]; intros ch out; cbn [NodeChannel.await_heartbeat]; [done|].
  intros Hr. assert (exists ch1 out1 e out2, NodeChannel.read_head_envelope input ch = (ch1, out1, Ok e) /\
    (match Envelope.kind e with
     | COMMAND => _ ← NodeChannel.queue_head_command (VDict (Envelope.payload e)); NodeChannel.await_heartbeat id inputs
     | HEARTBEAT =>
         if fields_are ["payload_version"; "heartbeat_id"] (Envelope.payload e) &&
            is_payload_version_one (Envelope.payload e) &&
            is_str id (attr "heartbeat_id" (Envelope.payload e))
         then mret (Some true)
         else NodeChannel.contract "unexpected HEARTBEAT during heartbeat"
     | k => NodeChannel.contract ("unexpected " +:+ kind_value k +:+ " during heartbeat")
     end) ch1 = (ch', out2, Ok (Some true))) as (ch1 & out1 & e & out2 & Hread & Hk).
  { destruct input; [apply chan_bind_Ok in Hr as (? & ? & ? & ? & ? & ? & _); eauto 8..|done]. }
  apply read_head_Ok in Hread as (-> & Hsup & _). clear Hr. destruct (Envelope.kind e) eqn:Ek; try done.
  - apply chan_bind_Ok in Hk as (? & ? & [] & ? & _ & Hk & _). apply IH in Hk as (ack & Hin & ?).
    exists ack. split; [by right|done].
  - destruct (_ && _) eqn:Hb; [|done]. bool_prop. exists e. split_and!; [by left|done| |done].
    by destruct (attr "heartbeat_id" _) as [| | | |s| |]; cbn in *; bool_prop; subst.
Qed.

Lemma heartbeat_acknowledged sent inputs ch ch' out :
  NodeChannel.heartbeat_round_trip mac sent inputs ch = (ch', out, Ok (Some true)) ->
  acknowledged ch inputs out.
Proof.
  unfold NodeChannel.heartbeat_round_trip, acknowledged.
  intros (ch1 & o1 & id & o2 & Hid & Hr & ->)%chan_bind_Ok. injection Hid as <- <- <-.
  apply chan_bind_Ok in Hr as (ch2 & o3 & [] & o4 & (_ & _ & hb & -> & Hk & Hp)%write_Ok & Hr & ->).
  apply await_heartbeat_Ok in Hr as (ack & ?). exists hb, ack. naive_solver set_solver.
Qed.

Lemma beat_session e ch c c' out r :
  beat mac e ch c = (c', out, r) ->
  connected c' = connected c /\ established c' = established c /\
  (r = Ok Finish -> failed c' \/ (exists op, shutdown_operation c' = Some op /\ op ∈ ["DRAIN"; "STOP"])) /\
  (forall a, r = Ok (Beat a) -> a = be_clock e /\ last_control_ack c' = Some a).
Proof.
  unfold beat. destruct (run_channel _ _ _) as [[c1 o] r1] eqn:E. apply run_channel_same in E as [ch1 ->].
  destruct r1 as [[[]|]|x]; try by intros [= <- _ <-]. cbn [channel set_ack set_channel].
  destruct (run_channel _ _ _) as [[c2 o2] r2] eqn:E2. apply run_channel_same in E2 as [ch2 ->].
  destruct r2 as [[command|]|x]; [|intros [= <- _ <-]; split_and!; try done; by intros a [= <-]|by intros [= <- _ <-]].
  cbn [channel set_channel].
  destruct (handle_runtime_command _ _ _ _ _ _ _) as [[c3 o3] r3] eqn:E3. pose proof (handle_ack _ _ _ _ _ _ _ _ _ E3) as Hack.
  apply handle_session in E3 as (H1 & H2 & H3).
  destruct r3 as [[]|x]; intros [= <- _ <-]; split_and!; try done; [by intros _; apply H3|intros a [= <-]; by rewrite Hack].
Qed.

(** A turn that goes on or finishes has had its heartbeat acknowledged. *)
Lemma beat_acknowledged e ch c c' out b :
  beat mac e ch c = (c', out, Ok b) -> acknowledged ch (be_inputs e) out.
Proof.
  assert (forall o1 o2, acknowledged ch (be_inputs e) o1 -> acknowledged ch (be_inputs e) (o1 ++ o2)) as Hmore.
  { intros o1 o2 (hb & ack & Hin & ?). exists hb, ack. split; [set_solver|done]. }
  unfold beat, run_channel at 1.
  destruct (NodeChannel.heartbeat_round_trip _ _ _ _) as [[ch1 o] [[[]|]|x]] eqn:E; try done.
  apply heartbeat_acknowledged in E. client_cases; intros; simplify_eq; rewrite <- ?app_assoc; auto.
Qed.

Lemma attempt_session d e c c' out r :
  attempt mac sha256 d e c = (c', out, r) ->
  maintenance_stop c' = maintenance_stop c /\
  match r with
  | Reestablished a => connected c' = true /\ established c' = true /\ a = ae_clock_end e /\
      expired d (ae_clock_connect e) = false /\ expired d (ae_clock_wait e) = false
  | _ => connected c' = connected c /\ established c' = established c
  end.
Proof. unfold attempt. client_cases; intros; simplify_eq; done. Qed.

Lemma reconnect_session d es c c' out r :
  reconnect mac sha256 d es c = (c', out, r) ->
  match r with
  | Some a => connected c' = true /\ established c' = true /\
      exists e, e ∈ es /\ a = ae_clock_end e /\ Float.leb (ae_clock e) d = true /\
        expired d (ae_clock_wait e) = false
  | None => connected c' = connected c /\ established c' = established c
  end.
Proof.
  revert c c' out r. induction es as [|e es IH]; intros c c' out r; cbn [reconnect]; [by intros [= <- _ <-]|].
  destruct (maintenance_stop c) eqn:Hstop; cbn [orb]; [by intros [= <- _ <-]|].
  destruct (Float.leb (ae_clock e) d) eqn:Hle; cbn [negb]; [|by intros [= <- _ <-]].
  destruct (attempt _ _ _ _ _) as [[c1 o] r1] eqn:E. apply attempt_session in E as [_ E]. destruct r1.
  - intros [= <- _ <-]. destruct E as (? & ? & ? & ? & ?). split_and!; [done..|]. exists e. split; [by left|done].
  - by intros [= <- _ <-].
  - destruct E as [E1 E2]. destruct (reconnect _ _ _ _ _) as [[c2 o2] r2] eqn:E3. apply IH in E3.
    intros [= <- _ <-]. destruct r2 as [a|].
    + destruct E3 as (? & ? & e' & ? & ?). split_and!; [done..|]. exists e'. split; [by right|done].
    + by rewrite <- E1, <- E2.
Qed.

(** The exception that ended the heartbeat of this turn; without a channel, the assertion. *)
Definition lost (e : round_env) (c : t) (x : chan_error) : Prop :=
  match channel c with
  | None => x = TimeoutError
  | Some ch => exists c1 out, beat mac (re_beat e) ch c = (c1, out, Err x)
  end.

(** C21: The maintenance of the lease never ends silently. A turn of its loop that returns does
    so because the client is closing, because it took DRAIN or STOP, or with a control
    failure on record. A turn that goes on either wrote a heartbeat under a fresh id and
    read the head's acknowledgment of that id, with the session as it was; or lost the
    session to an exception other than a contract violation and re-established it by an
    attempt begun within the reconnect grace after the loss, which is dated at a reset
    or not before the end of the lease, and whose snapshot was sent before that deadline. *)
Theorem maintenance_never_ends_silently lease grace e ack c c' out r :
  maintain_round mac sha256 lease grace e ack c = (c', out, r) ->
  match r with
  | None =>
      maintenance_stop c = true \/ is_Some (control_failure c') \/
      (exists op, shutdown_operation c' = Some op /\ op ∈ ["DRAIN"; "STOP"])
  | Some a =>
      (connected c' = connected c /\ established c' = established c /\ a = be_clock (re_beat e) /\
       last_control_ack c' = Some a /\
       exists ch, channel c = Some ch /\ acknowledged ch (be_inputs (re_beat e)) out) \/
      (connected c' = true /\ established c' = true /\
       exists x at_, lost e c x /\ is_contract x = false /\ at_ ∈ re_attempts e /\ a = ae_clock_end at_ /\
         let deadline := Float.add (loss_time (is_reset x) (re_clock e) ack lease) grace in
         Float.leb (ae_clock at_) deadline = true /\ expired deadline (ae_clock_wait at_) = false)
  end.
Proof.
  unfold maintain_round. destruct (maintenance_stop c); [intros [= <- _ <-]; by left|].
  destruct (match channel c with None => _ | _ => _ end) as [[c1 o] r1] eqn:Hx.
  assert (connected c1 = connected c /\ established c1 = established c /\
    (r1 = Ok Finish -> failed c1 \/ (exists op, shutdown_operation c1 = Some op /\ op ∈ ["DRAIN"; "STOP"])) /\
    (forall a, r1 = Ok (Beat a) -> a = be_clock (re_beat e) /\ last_control_ack c1 = Some a))
    as (H1 & H2 & H3 & H4).
  { destruct (channel c); [by eapply beat_session|]. injection Hx as <- _ <-. done. }
  assert (forall x, r1 = Err x -> lost e c x) as Hlost.
  { intros x ->. unfold lost. destruct (channel c); [eauto|]. by injection Hx as <- _ <-. }
  destruct r1 as [[|a]|x].
  - intros [= <- _ <-]. right. by apply H3.
  - intros [= <- <- <-]. left. destruct (H4 _ eq_refl). split_and!; [done..|].
    destruct (channel c) as [ch|]; [|done]. exists ch. split; [done|]. by eapply beat_acknowledged.
  - destruct (is_contract x) eqn:Hct; [intros [= <- _ <-]; right; left; apply failed_fail|].
    set (d := Float.add _ grace). destruct (reconnect _ _ _ _ _) as [[c2 o2] again] eqn:Hr.
    apply reconnect_session in Hr. destruct again as [a|].
    + destruct Hr as (Hc & He & at_ & Hin & Ha & Hle & Hexp). rewrite He. cbn [negb default].
      intros [= <- _ <-]. right. split_and!; [done..|]. exists x, at_. split; [by apply Hlost|done].
    + destruct Hr as [_ He]. rewrite He. cbn. intros [= <- _ <-]. right. left. apply failed_fail.
Qed.

(** ** The start gate *)

(** An answer that was sent is the answer to a command received under its id. *)
Lemma answer_Ok sent id op ch ch' out :
  NodeChannel.send_command_result mac sent id true "" op (Some "SUCCEEDED") [] ch = (ch', out, Ok tt) ->
  exists request e, NodeChannel.received_commands ch' !! id = Some request /\
    py_eqb (attr "operation" request) (VStr op) = true /\
    out = [e] /\ Envelope.kind e = COMMAND_RESULT /\
    attr "command_id" (Envelope.payload e) = VStr id /\
    attr "operation" (Envelope.payload e) = VStr op /\
    attr "status" (Envelope.payload e) = VStr "SUCCEEDED" /\
    attr "ok" (Envelope.payload e) = VBool true.
Proof.
  unfold NodeChannel.send_command_result. intros Hs.
  do 4 (apply chan_bind_Ok in Hs as (? & ? & [] & ? & (_ & -> & ->)%chan_refuse & Hs & ->)).
  apply chan_bind_Ok in Hs as (c1 & o1 & a & o2 & [= <- <- <-] & Hs & ->).
  destruct (NodeChannel.received_commands ch !! id) as [request|] eqn:Hreq; [|done].
  apply chan_bind_Ok in Hs as (c1 & o1 & [] & o3 & (Hop%negb_false_iff & -> & ->)%chan_refuse & Hs & ->).
  apply chan_bind_Ok in Hs as (c1 & o1 & [] & o4 & (_ & -> & ->)%chan_refuse & Hs & ->).
  apply chan_bind_Ok in Hs as (c1 & o1 & validated & o5 & (Hv & -> & ->)%chan_lift & Hs & ->).
  apply chan_bind_Ok in Hs as (c1 & o1 & [] & o6 & Hprev & Hs & ->).
  assert (c1 = ch /\ o1 = []) as [-> ->].
  { destruct (NodeChannel.command_results ch !! id); by apply chan_refuse in Hprev as (_ & -> & ->). }
  apply chan_bind_Ok in Hs as (c2 & o1 & [] & o7 & (Hrec & _ & e & -> & Hk & Hp)%write_Ok & Hm & ->).
  injection Hm as <- <-. apply validate_command_result_same in Hv as ([= <-] & _ & _).
  exists request, e. cbn [NodeChannel.received_commands NodeChannel.set_results]. rewrite Hrec, Hp. done.
Qed.

Lemma idle_closed e c c' out r :
  idle_heartbeat mac e c = (c', out, r) -> start_flag c' = start_flag c /\ r = false.
Proof. unfold idle_heartbeat. client_cases; intros; simplify_eq; done. Qed.

Lemma maintenance_opens c :
  start_flag (start_maintenance c) = start_flag c /\ channel (start_maintenance c) = channel c.
Proof. unfold start_maintenance. by repeat case_match. Qed.

(** The gate opens only by a command: when a poll that was not open before returns true,
    the client was connected, it has received a command of exactly the expected start
    operation, and the last frame it wrote is the answer to that command, with success.
    Any other outcome leaves the gate closed. *)
Theorem start_gate_opened_by_command expected e c c' out r :
  start_flag c = false -> poll_start mac expected e c = (c', out, r) ->
  (r = Some true <-> start_flag c' = true) /\
  (r = Some true ->
   connected c = true /\ exists id request ch frame out1,
     channel c' = Some ch /\ NodeChannel.received_commands ch !! id = Some request /\
     py_eqb (attr "operation" request) (VStr expected) = true /\
     out = out1 ++ [frame] /\ Envelope.kind frame = COMMAND_RESULT /\
     attr "command_id" (Envelope.payload frame) = VStr id /\
     attr "operation" (Envelope.payload frame) = VStr expected /\
     attr "status" (Envelope.payload frame) = VStr "SUCCEEDED" /\
     attr "ok" (Envelope.payload frame) = VBool true).
Proof.
  intros Hs. unfold poll_start. destruct (negb _); [intros [= <- _ <-]; rewrite Hs; by split|].
  rewrite Hs. assert (forall c1 (o : list Envelope.t), start_flag c1 = false ->
    (c1, o, Some false) = (c', out, r) -> (r = Some true <-> start_flag c' = true) /\ r <> Some true) as Hclosed.
  { intros c1 o Hf [= <- _ <-]. by rewrite Hf. }
  destruct (connected c) eqn:Hc; [|by intros [? ?]%Hclosed].
  destruct (channel c) as [ch|]; [|by intros [? ?]%Hclosed].
  destruct (pe_no_budget e); [by intros [? ?]%Hclosed|].
  destruct (call (pe_cut_receive e) _ _ _) as [[c1 o1] r1] eqn:E. apply call_same in E as [ch1 ->].
  destruct r1 as [[payload|]|x]; [| |by intros [? ?]%Hclosed].
  2: { destruct (idle_heartbeat _ _ _) as [[c2 o2] r2] eqn:Hi. apply idle_closed in Hi as [Hf ->].
       intros [? ?]%Hclosed; [done|]. by rewrite Hf. }
  destruct (negb _); [by intros [? ?]%Hclosed|]. destruct (pe_late e); [by intros [? ?]%Hclosed|].
  destruct (nonempty_str _) as [id|]; [|by intros [? ?]%Hclosed]. cbn [channel set_channel].
  unfold call. destruct (pe_cut_answer e); [by intros [? ?]%Hclosed|]. unfold run_channel.
  destruct (NodeChannel.send_command_result _ _ _ _ _ _ _ _ _) as [[ch2 o2] [[]|x]] eqn:Ha;
    [|by intros [? ?]%Hclosed].
  intros [= <- <- <-]. set (c2 := set_start true _).
  destruct (maintenance_opens c2) as [-> ->]. split; [done|]. intros _. split; [done|].
  apply answer_Ok in Ha as (request & frame & Hreq & Hop & -> & Hrest).
  exists id, request, ch2, frame, o1. done.
Qed.

(** ** Commands that were queued when the connection was lost *)

(** The operation neither takes a queued command nor answers one. *)
Definition keeps_commands {A} (m : NodeChannel.M A) : Prop :=
  forall ch ch' out r, m ch = (ch', out, r) ->
    NodeChannel.pending_head_commands ch' = NodeChannel.pending_head_commands ch /\
    NodeChannel.command_results ch' = NodeChannel.command_results ch /\
    Forall (fun e => Envelope.kind e <> COMMAND_RESULT) out.

Lemma keeps_bind {A B} (m : NodeChannel.M A) (f : A -> NodeChannel.M B) :
  keeps_commands m -> (forall a, keeps_commands (f a)) -> keeps_commands (m ≫= f).
Proof.
  intros Hm Hf ch ch' out r. unfold mbind, NodeChannel.M_bind.
  destruct (m ch) as [[ch1 o1] [a|x]] eqn:E1; apply Hm in E1 as (Hp & Hr & Ho); [|by intros [= <- <- _]].
  destruct (f a ch1) as [[ch2 o2] r2] eqn:E2; apply Hf in E2 as (Hp2 & Hr2 & Ho2).
  intros [= <- <- _]. split_and!; [congruence..|]. by apply Forall_app.
Qed.
Lemma keeps_ret {A} (a : A) : keeps_commands (mret a).
Proof. by intros ch ch' out r [= <- <- _]. Qed.
Lemma keeps_get : keeps_commands NodeChannel.get.
Proof. by intros ch ch' out r [= <- <- _]. Qed.
Lemma keeps_raise {A} x : keeps_commands (NodeChannel.raise (A := A) x).
Proof. by intros ch ch' out r [= <- <- _]. Qed.
Lemma keeps_lift {A} (x : result exc A) : keeps_commands (NodeChannel.lift x).
Proof. by intros ch ch' out r [= <- <- _]. Qed.
Lemma keeps_emit e : Envelope.kind e <> COMMAND_RESULT -> keeps_commands (NodeChannel.emit e).
Proof. intros He ch ch' out r [= <- <- _]. split_and!; [done..|]. by constructor. Qed.
Lemma keeps_when b m : keeps_commands m -> keeps_commands (NodeChannel.when b m).
Proof. intros Hm. destruct b; [done|apply keeps_ret]. Qed.
Lemma keeps_modify f :
  (forall ch, NodeChannel.pending_head_commands (f ch) = NodeChannel.pending_head_commands ch /\
              NodeChannel.command_results (f ch) = NodeChannel.command_results ch) ->
  keeps_commands (NodeChannel.modify f).
Proof. intros Hf ch ch' out r [= <- <- _]. destruct (Hf ch). done. Qed.

#[local] Ltac keeps :=
  repeat first
    [ apply keeps_ret | apply keeps_get | apply keeps_raise | apply keeps_lift
    | apply keeps_modify; by intros | apply keeps_when | apply keeps_bind; [|intros ?]
    | progress unfold NodeChannel.contract | case_match ].

Lemma keeps_put_frame sent e : Envelope.kind e <> COMMAND_RESULT -> keeps_commands (NodeChannel.put_frame mac sent e).
Proof. intros He. unfold NodeChannel.put_frame. keeps. by apply keeps_emit. Qed.

Lemma keeps_env_bind {A} kind payload (f : Envelope.t -> NodeChannel.M A) :
  (forall e, Envelope.kind e = kind -> keeps_commands (f e)) ->
  keeps_commands (NodeChannel.env kind payload ≫= f).
Proof.
  intros Hf ch ch' out r. unfold mbind, NodeChannel.M_bind.
  destruct (NodeChannel.env kind payload ch) as [[ch1 o1] r1] eqn:E. injection E as <- <- <-.
  destruct (f _ _) as [[ch2 o2] r2] eqn:E2. apply Hf in E2 as (? & ? & ?); [|done]. by intros [= <- <- _].
Qed.

Lemma keeps_write sent kind payload : kind <> COMMAND_RESULT -> keeps_commands (NodeChannel.write mac sent kind payload).
Proof.
  intros Hk. unfold NodeChannel.write. apply keeps_bind; [apply keeps_get|intros c].
  apply keeps_bind; [apply keeps_when, keeps_raise|intros _].
  apply keeps_env_bind. intros e He. apply keeps_put_frame. congruence.
Qed.

Lemma keeps_registration ack : keeps_commands (NodeChannel.accept_registration ack).
Proof.
  unfold NodeChannel.accept_registration, NodeChannel.validate_head_envelope, NodeChannel.accept_limits. keeps.
Qed.

Lemma keeps_connect i a b d input : keeps_commands (NodeChannel.connect_and_register mac i a b d input).
Proof.
  unfold NodeChannel.connect_and_register. apply keeps_bind; [apply keeps_get|intros c].
  apply keeps_bind; [keeps|intros _]. apply keeps_bind; [keeps|intros _].
  apply keeps_bind; [keeps|intros _]. apply keeps_env_bind. intros e He.
  apply keeps_bind; [apply keeps_put_frame; congruence|intros _].
  destruct input; first [apply keeps_registration|apply keeps_raise].
Qed.

Lemma keeps_chunks sent ps : keeps_commands (NodeChannel.write_chunks mac sent ps).
Proof.
  revert sent. induction ps as [|p ps IH]; intros sent; cbn [NodeChannel.write_chunks]; [apply keeps_ret|].
  apply keeps_bind; [by apply keeps_write|intros _]. apply IH.
Qed.

Lemma keeps_snapshot sent os rs : keeps_commands (send_whole mac sha256 sent os rs).
Proof.
  unfold send_whole, NodeChannel.send_snapshot. repeat first [apply keeps_chunks | progress keeps].
Qed.

(** What comes off the queue equals the command that was queued. *)
Lemma receive_queued input ch cmd rest ch' out r :
  NodeChannel.pending_head_commands ch = cmd :: rest ->
  NodeChannel.receive_command input ch = (ch', out, r) ->
  out = [] /\ NodeChannel.command_results ch' = NodeChannel.command_results ch /\
  NodeChannel.pending_head_commands ch' = rest /\
  (forall o, r = Ok o -> exists command, o = Some command /\
     (command = cmd \/ NodeChannel.dict_eqb command cmd = true)).
Proof.
  intros Hp. unfold NodeChannel.receive_command, mbind, NodeChannel.M_bind. cbn [NodeChannel.get].
  rewrite Hp. cbn [NodeChannel.modify NodeChannel.lift].
  destruct (validate_command_payload (VDict cmd)) as [d|x] eqn:Hv; [|intros [= <- <- <-]; done].
  assert (d = cmd) as ->.
  { unfold validate_command_payload in Hv. res_inv. destruct (bool_decide _); res_inv; done. }
  unfold NodeChannel.remember_received_command, mbind, NodeChannel.M_bind. cbn [NodeChannel.get NodeChannel.received_commands NodeChannel.set_pending].
  destruct (attr "command_id" cmd); try (intros [= <- <- <-]; done).
  destruct (NodeChannel.received_commands ch !! s) as [previous|].
  - destruct (NodeChannel.dict_eqb previous cmd) eqn:He; cbn; intros [= <- <- <-]; [|done].
    split_and!; [done..|]. intros o [= <-]. eauto.
  - destruct (_ <=? _)%nat; cbn; intros [= <- <- <-]; [done|].
    split_and!; [done..|]. intros o [= <-]. eauto.
Qed.

Lemma is_str_eq x v : is_str x v = true -> v = VStr x.
Proof. destruct v; cbn; try done. by intros ->%bool_decide_eq_true. Qed.

Lemma existsb_mismatch command sid hash :
  is_str "SNAPSHOT_ACCEPTED" (attr "operation" command) = false ->
  existsb (fun kv => negb (py_eqb (attr kv.1 command) kv.2))
    [("payload_version", VInt 1); ("operation", VStr "SNAPSHOT_ACCEPTED");
     ("snapshot_id", VStr sid); ("complete_set_hash", VStr hash)] = true.
Proof.
  intros Hop. apply existsb_exists. exists ("operation", VStr "SNAPSHOT_ACCEPTED"). split; [right; by left|].
  cbn [fst snd]. destruct (py_eqb _ _) eqn:He; [|done]. apply py_eqb_str in He. by rewrite He in Hop.
Qed.

(** A queued command that is no snapshot acceptance is taken off the queue by the wait,
    and not answered. *)
Lemma await_drops sent sid input ch cmd rest ch' out r :
  NodeChannel.pending_head_commands ch = cmd :: rest ->
  is_str "SNAPSHOT_ACCEPTED" (attr "operation" cmd) = false ->
  NodeChannel.await_snapshot_accepted mac sent sid input ch = (ch', out, r) ->
  (exists x, r = Err x) /\ out = [] /\ NodeChannel.command_results ch' = NodeChannel.command_results ch /\
  (is_Some (NodeChannel.snapshot_hashes ch !! sid) -> NodeChannel.pending_head_commands ch' = rest).
Proof.
  intros Hp Hop Hrun. unfold NodeChannel.await_snapshot_accepted in Hrun.
  unfold mbind, NodeChannel.M_bind in Hrun. cbn [NodeChannel.get] in Hrun.
  destruct (NodeChannel.snapshot_hashes ch !! sid) as [hash|].
  2: { injection Hrun as <- <- <-. split_and!; [eauto|done..|]. by intros []%is_Some_None. }
  destruct (NodeChannel.receive_command input ch) as [[ch1 o1] r1] eqn:Hrec.
  destruct (receive_queued _ _ _ _ _ _ _ Hp Hrec) as (-> & Hres & Hpend & Hcmd).
  destruct r1 as [o|x]; [|injection Hrun as <- <- <-; split_and!; eauto].
  destruct (Hcmd o eq_refl) as (command & -> & Hsame). clear Hrec Hcmd.
  destruct (nonempty_str (attr "command_id" command)) as [id|];
    [|injection Hrun as <- <- <-; split_and!; eauto].
  rewrite (existsb_mismatch command) in Hrun.
  - injection Hrun as <- <- <-. split_and!; eauto.
  - destruct (is_str "SNAPSHOT_ACCEPTED" (attr "operation" command)) eqn:Hs; [|done].
    exfalso. apply is_str_eq in Hs. destruct Hsame as [->|Heq].
    + by rewrite Hs in Hop.
    + unfold attr, dget_default in Hs, Hop.
      destruct (dget "operation" command) as [u|] eqn:Hu; cbn in Hs; [|done]. subst u.
      destruct (py_eqb_dict_get _ _ _ _ Heq Hu) as (v & Hv & Huv). rewrite Hv in Hop. cbn in Hop.
      destruct v; cbn in Huv; try done; try (by destruct (num_compare _ _)).
      apply bool_decide_eq_true in Huv as <-. done.
Qed.

Lemma chunks_Ok sent ps ch ch' out :
  NodeChannel.write_chunks mac sent ps ch = (ch', out, Ok tt) ->
  NodeChannel.snapshot_hashes ch' = NodeChannel.snapshot_hashes ch.
Proof.
  revert sent ch out. induction ps as [|p ps IH]; intros sent ch out; cbn [NodeChannel.write_chunks].
  { by intros [= <- _]. }
  intros (c1 & o1 & [] & o2 & (_ & Hs & _)%write_Ok & Hrest%IH & _)%chan_bind_Ok. congruence.
Qed.

(** A snapshot that was sent is in flight. *)
Lemma snapshot_in_flight sent os rs ch ch' out sid :
  send_whole mac sha256 sent os rs ch = (ch', out, Ok sid) -> is_Some (NodeChannel.snapshot_hashes ch' !! sid).
Proof.
  unfold send_whole, NodeChannel.send_snapshot. intros Hs.
  apply chan_bind_Ok in Hs as (? & ? & items & ? & (_ & -> & ->)%chan_lift & Hs & _).
  apply chan_bind_Ok in Hs as (? & ? & hash & ? & (_ & -> & ->)%chan_lift & Hs & _).
  apply chan_bind_Ok in Hs as (? & ? & c0 & ? & [= <- _ <-] & Hs & _).
  set (id := if nonempty "" then _ else _) in Hs.
  do 2 (apply chan_bind_Ok in Hs as (? & ? & [] & ? & (_ & -> & ->)%chan_refuse & Hs & _)).
  apply chan_bind_Ok in Hs as (? & ? & enc & ? & (_ & -> & ->)%chan_lift & Hs & _).
  do 2 (apply chan_bind_Ok in Hs as (? & ? & [] & ? & (_ & -> & ->)%chan_refuse & Hs & _)).
  apply chan_bind_Ok in Hs as (c1 & ? & [] & ? & Hflight & Hs & _).
  apply chan_bind_Ok in Hs as (c2 & ? & [] & ? & Hw%chunks_Ok & [= <- _ <-] & _). rewrite Hw.
  destruct (NodeChannel.snapshot_hashes ch !! id) as [prev|] eqn:Hid.
  - apply chan_refuse in Hflight as (_ & -> & _). rewrite Hid. eauto.
  - apply chan_bind_Ok in Hflight as (? & ? & [] & ? & (_ & -> & ->)%chan_refuse & [= <- _] & _).
    cbn. rewrite lookup_insert_eq. eauto.
Qed.

(** A command that was queued when the connection was lost is dropped by the
    reconnection. While such a command (for instance DRAIN or STOP) is at the head of the
    queue no attempt re-establishes the session; the first attempt that waits for the
    acceptance of its snapshot takes the command off the queue instead, answers nothing
    and records no shutdown. *)
Theorem reconnect_drops_queued_command d e c ch cmd rest c' out r :
  channel c = Some ch -> NodeChannel.pending_head_commands ch = cmd :: rest ->
  is_str "SNAPSHOT_ACCEPTED" (attr "operation" cmd) = false ->
  attempt mac sha256 d e c = (c', out, r) ->
  (r = Again \/ r = Broken) /\ shutdown_operation c' = shutdown_operation c /\
  control_failure c' = control_failure c /\
  Forall (fun f => Envelope.kind f <> COMMAND_RESULT) out /\
  exists ch', channel c' = Some ch' /\ NodeChannel.command_results ch' = NodeChannel.command_results ch /\
    (NodeChannel.pending_head_commands ch' = cmd :: rest \/
     (NodeChannel.pending_head_commands ch' = rest /\ r = Again)).
Proof.
  intros Hch Hp Hop. unfold attempt, run_channel. rewrite Hch.
  destruct (expired d (ae_clock_connect e)).
  { intros [= <- <- <-]. split_and!; [by right|done..|]. exists ch. eauto. }
  destruct (NodeChannel.connect_and_register _ _ _ _ _ _ _) as [[ch1 o1] r1] eqn:E1.
  apply keeps_connect in E1 as (Hp1 & Hr1 & Ho1). rewrite Hp in Hp1.
  destruct r1; [|intros [= <- <- <-]; split_and!; [by left|done..|]; exists ch1; eauto].
  cbn [channel set_channel]. destruct (expired d (ae_clock_send e)).
  { intros [= <- <- <-]. split_and!; [by right|done..|]. exists ch1. eauto. }
  destruct (send_whole _ _ _ _ _ _) as [[ch2 o2] r2] eqn:E2. pose proof E2 as E2'.
  apply keeps_snapshot in E2 as (Hp2 & Hr2 & Ho2). rewrite Hp1 in Hp2.
  assert (Forall (fun f => Envelope.kind f <> COMMAND_RESULT) (o1 ++ o2)) as Ho by (by apply Forall_app).
  destruct r2 as [sid|]; [|intros [= <- <- <-]; split_and!; [by left|done..|]; exists ch2; split_and!; [done|congruence|eauto]].
  apply snapshot_in_flight in E2'.
  cbn [channel set_channel]. destruct (expired d (ae_clock_wait e)).
  { intros [= <- <- <-]. split_and!; [by right|done..|]. exists ch2. split_and!; [done|congruence|eauto]. }
  destruct (NodeChannel.await_snapshot_accepted _ _ _ _ _) as [[ch3 o3] r3] eqn:E3.
  apply (await_drops _ _ _ _ _ _ _ _ _ Hp2 Hop) in E3 as ([x ->] & -> & Hr3 & Hp3).
  intros [= <- <- <-]. split_and!; [by left|done..|by rewrite app_nil_r|]. exists ch3.
  split_and!; [done|congruence|right]. split; [by apply Hp3|done].
Qed.
End Client.
