(* ===== verification/RankDemo.v ===== *)
(** A concrete rank client on which the theorems' hypotheses are met: a session that is
    lost with a DRAIN already queued, and its reconnection; a start gate; a delivery that
    fails. *)

From S2P Require Import Prelude PyValue Json JsonProps Envelopes EnvelopesProps Frames Contracts Snapshots NodeChannel Listener DeliveryProps CommandProps HeadChannel RankClient RankClientProps.

Import RankClient.
#[local] Existing Instance DecimalFloat.ops.

Definition demo_limits : dict :=
  [("registration_deadline_s", VInt 300); ("heartbeat_interval_s", VInt 5); ("lease_timeout_s", VInt 30);
   ("reconnect_grace_s", VInt 60); ("snapshot_assembly_deadline_s", VInt 60);
   ("watchdog_cleanup_deadline_s", VInt 300); ("max_frame_bytes", VInt MAX_MESSAGE_BYTES);
   ("max_snapshot_chunks", VInt 256); ("max_snapshot_bytes", VInt 65536); ("max_snapshot_items", VInt 4096)].

Definition demo_node : NodeChannel.t :=
  NodeChannel.mk (replicate 32 "k"%char) "dep" "hash" 0 1 "node1" true true 0 0 MAX_MESSAGE_BYTES 256 65536
    4096 demo_limits ∅ [] ∅ ∅ 0.

(** An established client whose maintenance task runs. *)
Definition demo_client : RankClient.t :=
  set_ack (Some (Float.of_Z 10)) (set_maintenance true false (set_start true (set_session true true
    (set_channel (Some demo_node) (init 1 "node1" 17 true))))).

Definition from_head (kind : EnvelopeKind) (seq : Z) (payload : dict) : incoming :=
  InEnvelope (Envelope.mk kind "dep" "hash" 0 SUPERVISOR_RANK "head" seq payload).

Definition demo_drain : dict :=
  [("payload_version", VInt 1); ("command_id", VStr "drain:1"); ("operation", VStr "DRAIN")].
Definition demo_start : dict :=
  [("payload_version", VInt 1); ("command_id", VStr "start:1"); ("operation", VStr "START_WORKER")].
Definition demo_ack : dict :=
  [("payload_version", VInt 1); ("command_id", VStr "register"); ("operation", VStr "REGISTER");
   ("ok", VBool true); ("control_limits", VDict demo_limits)].
Definition demo_sid : string := "snap-1-aaaaaaaaaaaa".
Definition demo_acceptance : dict :=
  [("payload_version", VInt 1); ("command_id", VStr "SNAPSHOT_ACCEPTED:1"); ("operation", VStr "SNAPSHOT_ACCEPTED");
   ("snapshot_id", VStr demo_sid); ("complete_set_hash", VStr (ExampleRun.sha []))].

(** An attempt at time [n]: the head registers the rank and answers its snapshot. *)
Definition demo_attempt (n seq : Z) : attempt_env :=
  AttemptEnv (Float.of_Z n) (Float.of_Z n) true true true (from_head COMMAND_RESULT seq demo_ack)
    (Float.of_Z n) 2 (Float.of_Z n) true (from_head COMMAND (seq + 1) demo_acceptance) (Float.of_Z (n + 1)).

(** DRAIN arrives before the acknowledgment of a heartbeat and the connection closes;
    two attempts follow. *)
Definition demo_round : round_env :=
  RoundEnv (BeatEnv true [from_head COMMAND 1 demo_drain; InClosed] (Float.of_Z 15) InTimeout true true None)
    (Float.of_Z 15) [demo_attempt 16 2; demo_attempt 18 4].

Abbreviation demo_maintain c :=
  (maintain_round example_mac ExampleRun.sha (Float.of_Z 30) (Float.of_Z 60) demo_round (Float.of_Z 10) c).

(** The DRAIN is lost: the session is established again, nothing is queued, nothing was
    answered and no shutdown is recorded. *)
Example drain_is_lost :
  let '(c, out, r) := demo_maintain demo_client in
  r = Some (Float.of_Z 19) /\ connected c = true /\ established c = true /\
  shutdown_operation c = None /\ control_failure c = None /\
  (NodeChannel.pending_head_commands <$> channel c) = Some [] /\
  List.filter (fun f => is_str "drain:1" (attr "command_id" (Envelope.payload f))) out = [].
Proof. vm_compute. split_and!; reflexivity. Qed.

Definition demo_queued : NodeChannel.t := NodeChannel.set_pending [demo_drain] demo_node.
Definition demo_waiting : RankClient.t := lose_session (set_channel (Some demo_queued) demo_client).
Definition demo_deadline : float := Float.of_Z 75.

Lemma reconnect_drops_queued_command_witness :
  exists c out, attempt example_mac ExampleRun.sha demo_deadline (demo_attempt 16 1) demo_waiting
                = (c, out, Again) /\
    shutdown_operation c = None /\ Forall (fun f => Envelope.kind f <> COMMAND_RESULT) out.
Proof.
  assert ((attempt example_mac ExampleRun.sha demo_deadline (demo_attempt 16 1) demo_waiting).2 = Again)
    as Hr by (vm_compute; reflexivity).
  destruct (attempt example_mac ExampleRun.sha demo_deadline (demo_attempt 16 1) demo_waiting)
    as [[c out] r] eqn:He. cbn [snd] in Hr. subst r. exists c, out. split; [reflexivity|].
  destruct (reconnect_drops_queued_command example_mac ExampleRun.sha demo_deadline (demo_attempt 16 1)
    demo_waiting demo_queued demo_drain [] c out Again eq_refl eq_refl eq_refl He)
    as (_ & Hs & _ & Ho & _).
  split; [exact Hs|exact Ho].
Defined.

Lemma maintenance_never_ends_silently_witness :
  exists c out, demo_maintain demo_client = (c, out, Some (Float.of_Z 19)) /\
    connected c = true /\ established c = true.
Proof.
  assert ((demo_maintain demo_client).2 = Some (Float.of_Z 19)) as Hr by (vm_compute; reflexivity).
  destruct (demo_maintain demo_client) as [[c out] r] eqn:He. cbn [snd] in Hr. subst r.
  exists c, out. split; [reflexivity|].
  pose proof (maintenance_never_ends_silently example_mac ExampleRun.sha _ _ _ _ _ _ _ _ He) as H.
  cbv iota in H. destruct H as [(H1 & H2 & _)|(H1 & H2 & _)]; (split; [exact H1|exact H2]).
Defined.

(** The gate is polled: START_WORKER is there. *)
Definition demo_poll : poll_env :=
  PollEnv false None (from_head COMMAND 1 demo_start) (Float.of_Z 12) None true [] (Float.of_Z 12) false None true.
Definition demo_gated : RankClient.t := set_maintenance false false (set_start false demo_client).

Lemma start_gate_opened_by_command_witness :
  exists c out, poll_start example_mac "START_WORKER" demo_poll demo_gated = (c, out, Some true) /\
    start_flag c = true /\ maintained c = true.
Proof.
  assert ((poll_start example_mac "START_WORKER" demo_poll demo_gated).2 = Some true /\
          maintained (poll_start example_mac "START_WORKER" demo_poll demo_gated).1.1 = true) as [Hr Hm]
    by (vm_compute; split; reflexivity).
  destruct (poll_start example_mac "START_WORKER" demo_poll demo_gated) as [[c out] r] eqn:He.
  cbn [fst snd] in Hr, Hm. subst r. exists c, out. split; [reflexivity|].
  destruct (start_gate_opened_by_command example_mac "START_WORKER" demo_poll demo_gated c out (Some true)
              eq_refl He) as [[Hs _] _].
  split; [apply Hs; reflexivity|exact Hm].
Defined.

(** The observation cannot be written; the session is then re-established. *)
Definition demo_args : observation_args := ObservationArgs "ray" "READY" "ray" None None None None None.
Definition demo_undelivered : RankClient.t * list Envelope.t * bool :=
  observe example_mac demo_args (Float.of_Z 12) None false demo_client.
Definition demo_repair : list event :=
  [ERound (Float.of_Z 30) (Float.of_Z 60) demo_round (Float.of_Z 10)].

Lemma demo_repaired :
  demo_undelivered.2 = false /\
  start_received (run example_mac ExampleRun.sha demo_repair demo_undelivered.1.1) = true.
Proof. vm_compute. split; reflexivity. Qed.

Lemma delivery_failure_is_final_witness :
  start_received (run example_mac ExampleRun.sha demo_repair demo_undelivered.1.1) = true /\
  is_Some (control_failure (run example_mac ExampleRun.sha demo_repair demo_undelivered.1.1)).
Proof.
  destruct demo_repaired as [Hr Hs]. split; [exact Hs|].
  destruct demo_undelivered as [[c out] r] eqn:He. cbn [snd] in Hr. subst r. cbn [fst].
  destruct (delivery_failure_is_final example_mac ExampleRun.sha demo_repair demo_client demo_args
    (Float.of_Z 12) None false c out [] c out eq_refl eq_refl (ex_intro _ _ eq_refl)) as [H _].
  apply (H He).
Defined.
