(* ===== verification/Readiness.v ===== *)
(** Readiness derived from the compiled plan
    (src/exaserve/control/plan_readiness.py).

    [ReadinessCoordinator.t] is the coordinator; the receipt ledger and the
    session coordinator it holds references to are shared objects, so [evaluate]
    takes them as they are at the time of the call. The messages of blockers and
    satisfied conditions are constructors that carry what the text prints.
    [_log] prints and is left out. Evidence arrives as untyped values and is
    validated by the setters; a setter that raises after it has assigned a field
    keeps that assignment. *)

From S2P Require Import Prelude.
From S2P Require Import PyValue.
From S2P Require Import Contracts.
From S2P Require Import Session.
From S2P Require Import Receipts.
From S2P Require Import Bindings.
From S2P Require Import Ledger.

Module DeploymentPhase.
Inductive t : Set := DEPLOYING | VALIDATING | READY | FAILED.

#[global] Instance eq_dec : EqDecision t.
Proof. solve_decision. Defined.
End DeploymentPhase.

Definition PROXY_ANCHOR_APP_PREFIX : string := "_exaserve_proxy_anchor_r".
Definition UNPLANNED_EVIDENCE_MARGIN : Z := 64.

(** The exceptions of this module: [ValueError] with the label of the refused
    input, [OverflowError] of [float()], and the plan's [PlanError]. *)
Inductive readiness_error : Type :=
| ReadinessValueError (label : string)
| ReadinessOverflow
| ReadinessPlanError (e : plan_error).

Abbreviation readiness_result := (result readiness_error).

Definition readiness_raise_if (b : bool) (label : string) : readiness_result unit :=
  raise_if b (ReadinessValueError label).

(** ** Validation of untyped evidence *)

Definition required_text (v : value) (label : string) : readiness_result string :=
  match v with
  | VStr s => if nonempty s then Ok s else Err (ReadinessValueError label)
  | _ => Err (ReadinessValueError label)
  end.

Definition required_bool (v : value) (label : string) : readiness_result bool :=
  match v with VBool b => Ok b | _ => Err (ReadinessValueError label) end.

Definition optional_bool (v : value) (label : string) : readiness_result (option bool) :=
  match v with
  | VNone => Ok None
  | VBool b => Ok (Some b)
  | _ => Err (ReadinessValueError label)
  end.

Definition nonnegative_int (v : value) (label : string) : readiness_result Z :=
  match v with
  | VInt z => if z <? 0 then Err (ReadinessValueError label) else Ok z
  | _ => Err (ReadinessValueError label)
  end.

Definition finite_resource (v : value) (label : string) : readiness_result float :=
  if is_number v then
    f ← to_float ReadinessOverflow v;
    if negb (Float.is_finite f) || num_ltb v (VInt 0) then Err (ReadinessValueError label)
    else Ok f
  else Err (ReadinessValueError label).

(** ** Planned applications *)

Definition proxy_anchor (rank : Z) : string := PROXY_ANCHOR_APP_PREFIX +:+ str_Z rank.

Definition planned_proxy_anchor_names (p : DeploymentPlan.t) : gset string :=
  if DeploymentPlan.uses_head_only_serve_proxy p then ∅
  else list_to_set (proxy_anchor <$> seqZ 0 (DeploymentPlan.num_nodes p)).

(** The application names of one model. *)
Definition model_application_names (p : DeploymentPlan.t) (m : ModelPlan.t)
    : plan_result (list string) :=
  let route := ModelPlan.route_name m in
  if DeploymentPlan.uses_head_only_serve_proxy p then Ok [route]
  else
    groups ← DeploymentPlan.node_grouped_null_application_groups p m;
    match groups with
    | _ :: _ =>
        Ok ((fun i => route +:+ "_g" +:+ str_Z i) <$> seqZ 0 (Z.of_nat (length groups)))
    | [] =>
        if 1 <? ModelPlan.num_replicas m
        then Ok ((fun i => route +:+ "_r" +:+ str_Z i) <$> seqZ 0 (ModelPlan.num_replicas m))
        else Ok [route]
    end.

Definition planned_application_names (p : DeploymentPlan.t) : plan_result (gset string) :=
  fold_res (fun names m => more ← model_application_names p m; Ok (names ∪ list_to_set more))
    (planned_proxy_anchor_names p) (DeploymentPlan.models p).

(** ** The verdict *)

(** One constructor per blocker message. *)
Inductive blocker : Type :=
| RanksNotEstablished (ranks : list Z)
| GenerationTerminal (why : option reason)
| RayMembership (rank : Z) (node : string) (matches : nat)
| RayResources (rank : Z) (cpu wanted_cpu gpu wanted_gpu : float)
| RayExcess (rank : Z) (cpu gpu : float)
| RayUnplanned (ids : list string)
| RankComponent (rank : Z)
| OwnedComponent (component_id : string)
| ApplicationsMissing (names : list string)
| ApplicationsUnplanned (names : list string)
| ProxyStatus (node_id status : string)
| ProxiesUnplanned (ids : list string)
| ReceiptsMissing (slots : list string)
| ReceiptsUnexpected (slots : list string)
| ModelTarget (model_id : string) (observed planned : Z)
| ModelReplicas (model_id : string) (running planned : Z)
| NoEndpoint
| GatewayNotRunning
| GatewayUnknown
| GatewayUnhealthy
| RouteUnhealthy (route : string)
| CanaryMissing (model_id : string).

(** One constructor per message of a satisfied condition. *)
Inductive condition : Type :=
| SessionsEstablished (planned : nat)
| RayExact (matched : nat)
| ApplicationsExact (planned : nat)
| ProxiesHealthy (expected : nat)
| ReceiptsExact (accepted planned : nat)
| ModelRunning (model_id : string) (running planned : Z)
| GatewayHealthy (kind : option string)
| CanariesAnswered (models : nat).

(** [blocker.startswith(("ray membership", "ray resources"))] *)
Definition is_ray (b : blocker) : bool :=
  match b with
  | RayMembership _ _ _ | RayResources _ _ _ _ _ | RayExcess _ _ _ | RayUnplanned _ => true
  | _ => false
  end.

(** [blocker.startswith("serve prox")] *)
Definition is_proxy (b : blocker) : bool :=
  match b with ProxyStatus _ _ | ProxiesUnplanned _ => true | _ => false end.

(** [blocker.startswith("canary ")] *)
Definition is_canary (b : blocker) : bool :=
  match b with CanaryMissing _ => true | _ => false end.

(** The four accumulators of [evaluate]. *)
Record report := Report {
  blockers : list blocker;
  conditions : list condition;
  missing_ids : gset string;
  unhealthy_ids : gset string;
}.

Definition clear : report := Report [] [] ∅ ∅.
Definition join (a b : report) : report :=
  Report (blockers a ++ blockers b) (conditions a ++ conditions b)
         (missing_ids a ∪ missing_ids b) (unhealthy_ids a ∪ unhealthy_ids b).
Definition joins (l : list report) : report := foldr join clear l.

Declare Scope readiness_scope.
Delimit Scope readiness_scope with readiness.
Infix "⊕" := join (at level 50, left associativity) : readiness_scope.
Open Scope readiness_scope.

Definition block_missing (b : blocker) (ids : gset string) : report := Report [b] [] ids ∅.
Definition block_unhealthy (b : blocker) (ids : gset string) : report := Report [b] [] ∅ ids.
Definition note (n : condition) : report := Report [] [n] ∅ ∅.

(** [sorted(set)] on text. *)
Definition sorted_text (x : gset string) : list string := merge_sort string_le (elements x).

(** Upper case of ASCII letters. *)
Definition upper_char (c : Ascii.ascii) : Ascii.ascii :=
  let n := Ascii.nat_of_ascii c in
  if ((97 <=? n) && (n <=? 122))%nat then Ascii.ascii_of_nat (n - 32) else c.
Definition upper (s : string) : string :=
  String.string_of_list_ascii (upper_char <$> String.list_ascii_of_string s).

(** A live-or-dead Ray node of the cluster projection. *)
Module Node.
Record t := mk {
  node_id : string;
  node_name : string;
  node_address : string;
  alive : bool;
  cpu : value;
  gpu : value;
}.
End Node.

Module Proxy.
Record t := mk { node_id : string; status : string }.
End Proxy.

Module ReadinessVerdict.
Record t := mk {
  ready : bool;
  phase : DeploymentPhase.t;
  blockers : list blocker;
  satisfied : list condition;
  advertised_endpoint : string;
  generation : Z;
  deployment_plan_hash : string;
  allocation_binding_hash : string;
  missing_identities : list string;
  unhealthy_identities : list string;
  receipt_hashes : list string;
  model_map : list (string * (string * Z * Z * Z));
  capability_map : list (string * list string);
  nodes : list Node.t;
  proxies : list Proxy.t;
  observed_at : float;
}.
End ReadinessVerdict.

Module ReadinessCoordinator.
Record t := mk {
  plan : DeploymentPlan.t;
  binding : AllocationBinding.t;
  planned_ranks : gset Z;
  planned_model_ids : gset string;
  planned_routes : gset string;
  planned_applications : gset string;
  phase : DeploymentPhase.t;
  advertised_endpoint : string;
  gateway_alive : option bool;
  gateway_healthy : option bool;
  routes_ok : gmap string bool;
  canary_ok : gmap string bool;
  replicas_running : gmap string (Z * Z);
  nodes : list Node.t;
  proxies : list Proxy.t;
  rank_components : gmap Z bool;
  owned_components : gmap string bool;
  application_names : gset string;
  first_failure : option string;
}.

Definition with_phase (v0 : DeploymentPhase.t) (v1 : option string) (c : t) : t :=
  mk (plan c) (binding c) (planned_ranks c) (planned_model_ids c) (planned_routes c)
     (planned_applications c) v0 (advertised_endpoint c) (gateway_alive c) (gateway_healthy c)
     (routes_ok c) (canary_ok c) (replicas_running c) (nodes c) (proxies c) (rank_components
     c) (owned_components c) (application_names c) v1.
Definition with_endpoint (v0 : string) (c : t) : t :=
  mk (plan c) (binding c) (planned_ranks c) (planned_model_ids c) (planned_routes c)
     (planned_applications c) (phase c) v0 (gateway_alive c) (gateway_healthy c) (routes_ok c)
     (canary_ok c) (replicas_running c) (nodes c) (proxies c) (rank_components c)
     (owned_components c) (application_names c) (first_failure c).
Definition with_alive (v0 : option bool) (c : t) : t :=
  mk (plan c) (binding c) (planned_ranks c) (planned_model_ids c) (planned_routes c)
     (planned_applications c) (phase c) (advertised_endpoint c) v0 (gateway_healthy c)
     (routes_ok c) (canary_ok c) (replicas_running c) (nodes c) (proxies c) (rank_components
     c) (owned_components c) (application_names c) (first_failure c).
Definition with_healthy (v0 : option bool) (c : t) : t :=
  mk (plan c) (binding c) (planned_ranks c) (planned_model_ids c) (planned_routes c)
     (planned_applications c) (phase c) (advertised_endpoint c) (gateway_alive c) v0
     (routes_ok c) (canary_ok c) (replicas_running c) (nodes c) (proxies c) (rank_components
     c) (owned_components c) (application_names c) (first_failure c).
Definition with_routes (v0 : gmap string bool) (c : t) : t :=
  mk (plan c) (binding c) (planned_ranks c) (planned_model_ids c) (planned_routes c)
     (planned_applications c) (phase c) (advertised_endpoint c) (gateway_alive c)
     (gateway_healthy c) v0 (canary_ok c) (replicas_running c) (nodes c) (proxies c)
     (rank_components c) (owned_components c) (application_names c) (first_failure c).
Definition with_canaries (v0 : gmap string bool) (c : t) : t :=
  mk (plan c) (binding c) (planned_ranks c) (planned_model_ids c) (planned_routes c)
     (planned_applications c) (phase c) (advertised_endpoint c) (gateway_alive c)
     (gateway_healthy c) (routes_ok c) v0 (replicas_running c) (nodes c) (proxies c)
     (rank_components c) (owned_components c) (application_names c) (first_failure c).
Definition with_replicas (v0 : gmap string (Z * Z)) (c : t) : t :=
  mk (plan c) (binding c) (planned_ranks c) (planned_model_ids c) (planned_routes c)
     (planned_applications c) (phase c) (advertised_endpoint c) (gateway_alive c)
     (gateway_healthy c) (routes_ok c) (canary_ok c) v0 (nodes c) (proxies c) (rank_components
     c) (owned_components c) (application_names c) (first_failure c).
Definition with_cluster (v0 : list Node.t) (v1 : list Proxy.t) (c : t) : t :=
  mk (plan c) (binding c) (planned_ranks c) (planned_model_ids c) (planned_routes c)
     (planned_applications c) (phase c) (advertised_endpoint c) (gateway_alive c)
     (gateway_healthy c) (routes_ok c) (canary_ok c) (replicas_running c) v0 v1
     (rank_components c) (owned_components c) (application_names c) (first_failure c).
Definition with_rank_components (v0 : gmap Z bool) (c : t) : t :=
  mk (plan c) (binding c) (planned_ranks c) (planned_model_ids c) (planned_routes c)
     (planned_applications c) (phase c) (advertised_endpoint c) (gateway_alive c)
     (gateway_healthy c) (routes_ok c) (canary_ok c) (replicas_running c) (nodes c) (proxies
     c) v0 (owned_components c) (application_names c) (first_failure c).
Definition with_owned_components (v0 : gmap string bool) (c : t) : t :=
  mk (plan c) (binding c) (planned_ranks c) (planned_model_ids c) (planned_routes c)
     (planned_applications c) (phase c) (advertised_endpoint c) (gateway_alive c)
     (gateway_healthy c) (routes_ok c) (canary_ok c) (replicas_running c) (nodes c) (proxies
     c) (rank_components c) v0 (application_names c) (first_failure c).
Definition with_applications (v0 : gset string) (c : t) : t :=
  mk (plan c) (binding c) (planned_ranks c) (planned_model_ids c) (planned_routes c)
     (planned_applications c) (phase c) (advertised_endpoint c) (gateway_alive c)
     (gateway_healthy c) (routes_ok c) (canary_ok c) (replicas_running c) (nodes c) (proxies
     c) (rank_components c) (owned_components c) v0 (first_failure c).

(** [ReadinessCoordinator(plan=p, binding=b, ...)] *)
Definition init (p : DeploymentPlan.t) (b : AllocationBinding.t) : plan_result t :=
  apps ← planned_application_names p;
  Ok (mk p b (list_to_set (AllocationBinding.ranks b))
        (list_to_set (ModelPlan.model_id <$> DeploymentPlan.models p))
        (list_to_set (ModelPlan.route_name <$> DeploymentPlan.models p))
        apps DeploymentPhase.DEPLOYING EmptyString None None ∅ ∅ ∅ [] [] ∅ ∅ ∅ None).

(** A call that computes its new state before it assigns anything. *)
Definition assign (r : readiness_result t) (c : t) : t * readiness_result unit :=
  match r with Ok c' => (c', Ok tt) | Err e => (c, Err e) end.

(** *** Inputs *)

Definition set_advertised_endpoint (endpoint : value) (c : t) : t * readiness_result unit :=
  assign (e ← required_text endpoint "advertised endpoint"; Ok (with_endpoint e c)) c.

(** The liveness is assigned before the health is validated. *)
Definition set_gateway (alive healthy : value) (c : t) : t * readiness_result unit :=
  match optional_bool alive "gateway alive state" with
  | Err e => (c, Err e)
  | Ok a =>
      let c1 := with_alive a c in
      assign (h ← optional_bool healthy "gateway health state"; Ok (with_healthy h c1)) c1
  end.

Definition set_route (route healthy : value) (c : t) : t * readiness_result unit :=
  assign (r ← required_text route "route";
          _ ← readiness_raise_if (negb (bool_decide (r ∈ planned_routes c))) "route is not planned";
          h ← required_bool healthy "route health";
          Ok (with_routes (<[r := h]> (routes_ok c)) c)) c.

Definition set_canary (model_id ok : value) (c : t) : t * readiness_result unit :=
  assign (m ← required_text model_id "canary model_id";
          _ ← readiness_raise_if (negb (bool_decide (m ∈ planned_model_ids c)))
                "canary model is not planned";
          o ← required_bool ok "canary result";
          Ok (with_canaries (<[m := o]> (canary_ok c)) c)) c.

Definition set_replicas (model_id running target : value) (c : t) : t * readiness_result unit :=
  assign (m ← required_text model_id "replica model_id";
          _ ← readiness_raise_if (negb (bool_decide (m ∈ planned_model_ids c)))
                "replica model is not planned";
          r ← nonnegative_int running "running replicas";
          g ← nonnegative_int target "target replicas";
          Ok (with_replicas (<[m := (r, g)]> (replicas_running c)) c)) c.

Definition node_fields : list string :=
  ["node_id"; "node_name"; "node_address"; "alive"; "cpu"; "gpu"].

(** [node[field]], on a dict whose key set was checked. *)
Definition field_of (d : dict) (name : string) : value := dget_default name VNone d.

Definition add_node (acc : list Node.t * gset string) (item : value)
    : readiness_result (list Node.t * gset string) :=
  match item with
  | VDict d =>
      _ ← readiness_raise_if (negb (same_keys (dkeys d) node_fields)) "node has invalid fields";
      id ← required_text (field_of d "node_id") "node_id";
      name ← required_text (field_of d "node_name") "node_name";
      address ← required_text (field_of d "node_address") "node_address";
      _ ← readiness_raise_if (bool_decide (id ∈ acc.2)) "node_id is duplicated";
      alive ← required_bool (field_of d "alive") "alive state";
      _ ← finite_resource (field_of d "cpu") "CPU";
      _ ← finite_resource (field_of d "gpu") "GPU";
      Ok (acc.1 ++ [Node.mk id name address alive (field_of d "cpu") (field_of d "gpu")],
          acc.2 ∪ {[ id ]})
  | _ => Err (ReadinessValueError "node has invalid fields")
  end.

Definition add_proxy (acc : list Proxy.t * gset string) (item : value)
    : readiness_result (list Proxy.t * gset string) :=
  match item with
  | VDict d =>
      _ ← readiness_raise_if (negb (same_keys (dkeys d) ["node_id"; "status"]))
            "proxy has invalid fields";
      id ← required_text (field_of d "node_id") "proxy node_id";
      status ← required_text (field_of d "status") "proxy status";
      _ ← readiness_raise_if (bool_decide (id ∈ acc.2)) "proxy node_id is duplicated";
      Ok (acc.1 ++ [Proxy.mk id status], acc.2 ∪ {[ id ]})
  | _ => Err (ReadinessValueError "proxy has invalid fields")
  end.

Definition cluster_limit (c : t) : Z := DeploymentPlan.num_nodes (plan c) + UNPLANNED_EVIDENCE_MARGIN.

Definition set_cluster (nodes proxies : value) (c : t) : t * readiness_result unit :=
  assign
    (match nodes, proxies with
     | VList ns, VList ps =>
         _ ← readiness_raise_if
               ((cluster_limit c <? Z.of_nat (length ns))
                || (cluster_limit c <? Z.of_nat (length ps)))
               "cluster projection exceeds its plan-relative bound";
         nodes' ← fold_res add_node ([], ∅) ns;
         proxies' ← fold_res add_proxy ([], ∅) ps;
         Ok (with_cluster nodes'.1 proxies'.1 c)
     | VList _, _ => Err (ReadinessValueError "proxies must be a sequence")
     | _, _ => Err (ReadinessValueError "nodes must be a sequence")
     end) c.

Definition set_rank_component (rank healthy : value) (c : t) : t * readiness_result unit :=
  assign (r ← nonnegative_int rank "rank component owner";
          _ ← readiness_raise_if (negb (bool_decide (r ∈ planned_ranks c))) "rank is not planned";
          h ← required_bool healthy "rank component health";
          Ok (with_rank_components (<[r := h]> (rank_components c)) c)) c.

Definition OWNED_COMPONENTS : list string := ["rank_launcher"; "deployment"].

Definition set_owned_component (component_id healthy : value) (c : t)
    : t * readiness_result unit :=
  assign (i ← required_text component_id "owned component_id";
          _ ← readiness_raise_if (negb (bool_decide (i ∈ OWNED_COMPONENTS)))
                "global component is not planned";
          h ← required_bool healthy "component health";
          Ok (with_owned_components (<[i := h]> (owned_components c)) c)) c.

(** The loop of [set_applications]: [index] counts from 0 against the limit. *)
Fixpoint application_texts (limit index : Z) (names : list value)
    : readiness_result (list string) :=
  match names with
  | [] => Ok []
  | v :: names' =>
      _ ← readiness_raise_if (limit <=? index)
            "application projection exceeds its plan-relative bound";
      name ← required_text v "application name";
      rest ← application_texts limit (index + 1) names';
      Ok (name :: rest)
  end.

Definition application_limit (c : t) : Z :=
  Z.of_nat (size (planned_applications c)) + UNPLANNED_EVIDENCE_MARGIN.

(** An iterable is a list, or a dict iterated over its keys. *)
Definition set_applications (names : value) (c : t) : t * readiness_result unit :=
  assign
    (items ← match names with
             | VList l => Ok l
             | VDict d => Ok (VStr <$> dkeys d)
             | _ => Err (ReadinessValueError "applications must be an iterable of names")
             end;
     texts ← application_texts (application_limit c) 0 items;
     _ ← readiness_raise_if (negb (no_dups texts)) "application projection contains duplicate names";
     Ok (with_applications (list_to_set texts) c)) c.

(** *** The predicate *)

(** 1. Every planned rank session is established, in a live generation. *)
Definition sessions_report (s : option SessionCoordinator.t) (c : t) : report :=
  match s with
  | None => clear
  | Some s =>
      let revoked : gset Z := list_to_set (SessionCoordinator.readiness_revoked_ranks s) in
      (if decide (revoked = ∅) then note (SessionsEstablished (size (planned_ranks c)))
       else block_missing (RanksNotEstablished (take 8 (sortedZ (elements revoked))))
              (set_map (fun rank => "session/rank/" +:+ str_Z rank) revoked)) ⊕
      (if bool_decide (SessionCoordinator.generation_state s = GEN_TERMINAL)
       then block_unhealthy (GenerationTerminal (SessionCoordinator.terminal_reason s))
              {[ "generation" ]}
       else clear)
  end.

(** 1b. Exact live membership and resources. *)

Definition alive_nodes (c : t) : list Node.t := filter (fun n => Node.alive n = true) (nodes c).

(** [nodes_by_name.setdefault(canonical_node_id(name), []).append(node)] *)
Definition nodes_by_name (l : list Node.t) : gmap string (list Node.t) :=
  fold_left (fun m n => let k := canonical_node_id (Node.node_name n) in
                        <[k := default [] (m !! k) ++ [n]]> m) l ∅.

Record matching := Matching {
  ray_report : report;
  matched_ids : gset string;
  matched_ids_by_rank : gmap Z string;
}.

Definition ray_missing (rank : Z) : string := "ray-node/rank/" +:+ str_Z rank.
Definition ray_resources (rank : Z) : string := "ray-node/rank/" +:+ str_Z rank +:+ "/resources".

(** The resources of the node matched with [rank]. *)
Definition resources_report (c : t) (rank : Z) (node : Node.t) : readiness_result report :=
  cpu ← to_float ReadinessOverflow (Node.cpu node);
  gpu ← to_float ReadinessOverflow (Node.gpu node);
  wanted_cpu ← to_float ReadinessOverflow (VInt (DeploymentPlan.node_cpus (plan c)));
  wanted_gpu ← to_float ReadinessOverflow (VInt (DeploymentPlan.num_gpus_per_node (plan c)));
  if Float.ltb cpu wanted_cpu || Float.ltb gpu wanted_gpu then
    Ok (block_unhealthy (RayResources rank cpu wanted_cpu gpu wanted_gpu) {[ ray_resources rank ]})
  else if negb (ReadinessLimits.allow_excess_resources (DeploymentPlan.readiness (plan c)))
          && (negb (Float.eqb cpu wanted_cpu) || negb (Float.eqb gpu wanted_gpu)) then
    Ok (block_unhealthy (RayExcess rank cpu gpu) {[ ray_resources rank ]})
  else Ok clear.

Definition match_rank (c : t) (by_name : gmap string (list Node.t)) (m : matching)
    (entry : Z * string) : readiness_result matching :=
  let '(rank, expected_name) := entry in
  let matches := default [] (by_name !! canonical_node_id expected_name) in
  match matches with
  | [node] =>
      r ← resources_report c rank node;
      Ok (Matching (ray_report m ⊕ r) (matched_ids m ∪ {[ Node.node_id node ]})
            (<[rank := Node.node_id node]> (matched_ids_by_rank m)))
  | _ =>
      Ok (Matching
            (ray_report m ⊕ block_missing (RayMembership rank expected_name (length matches))
                              {[ ray_missing rank ]})
            (matched_ids m) (matched_ids_by_rank m))
  end.

Definition match_ranks (c : t) (r : report) : readiness_result matching :=
  fold_res (match_rank c (nodes_by_name (alive_nodes c))) (Matching r ∅ ∅)
    (AllocationBinding.rank_to_node (binding c)).

Definition extra_report (c : t) (matched : gset string) : report :=
  let extra_ids := merge_sort string_le
    (filter (fun id => id ∉ matched) (Node.node_id <$> alive_nodes c)) in
  match extra_ids with
  | [] => clear
  | _ => block_unhealthy (RayUnplanned (take 6 extra_ids))
           (list_to_set ((fun id => "ray-node/unplanned/" +:+ id) <$> extra_ids))
  end.

Definition rank_component_report (c : t) (rank : Z) : report :=
  if default false (rank_components c !! rank) then clear
  else block_unhealthy (RankComponent rank) {[ "component/rank/" +:+ str_Z rank +:+ "/ray" ]}.

Definition owned_component_report (c : t) (component_id : string) : report :=
  if default false (owned_components c !! component_id) then clear
  else block_unhealthy (OwnedComponent component_id) {[ "component/global/" +:+ component_id ]}.

(** The exact application set. *)
Definition applications_report (expected : gset string) (c : t) : report :=
  let missing := sorted_text (expected ∖ application_names c) in
  let unexpected := sorted_text (application_names c ∖ expected) in
  (match missing with
   | [] => clear
   | _ => block_missing (ApplicationsMissing (take 6 missing))
            (list_to_set ((fun n => "serve-application/" +:+ n) <$> missing))
   end) ⊕
  (match unexpected with
   | [] => clear
   | _ => block_unhealthy (ApplicationsUnplanned (take 6 unexpected))
            (list_to_set ((fun n => "serve-application/unplanned/" +:+ n) <$> unexpected))
   end) ⊕
  (match missing, unexpected with
   | [], [] => note (ApplicationsExact (size expected))
   | _, _ => clear
   end).

(** Per-node proxies: on every matched node, or on rank 0's node only. *)
Definition proxy_statuses (c : t) : gmap string string :=
  fold_left (fun m p => <[Proxy.node_id p := upper (Proxy.status p)]> m) (proxies c) ∅.

Definition expected_proxy_ids (c : t) (m : matching) : gset string :=
  match DeploymentPlan.uses_head_only_serve_proxy (plan c), matched_ids_by_rank m !! 0 with
  | true, Some id => {[ id ]}
  | _, _ => matched_ids m
  end.

Definition proxy_healthy (status : string) : bool :=
  contains "HEALTHY" status && negb (contains "UNHEALTHY" status).

Definition proxy_report (c : t) (id : string) : report :=
  let status := default "MISSING" (proxy_statuses c !! id) in
  if proxy_healthy status then clear
  else if bool_decide (status = "MISSING")
  then block_missing (ProxyStatus id status) {[ "serve-proxy/" +:+ id ]}
  else block_unhealthy (ProxyStatus id status) {[ "serve-proxy/" +:+ id ]}.

Definition unplanned_proxies_report (c : t) (expected : gset string) : report :=
  match sorted_text (dom (proxy_statuses c) ∖ expected) with
  | [] => clear
  | unplanned => block_unhealthy (ProxiesUnplanned (take 6 unplanned))
                   (list_to_set ((fun n => "serve-proxy/unplanned/" +:+ n) <$> unplanned))
  end.

(** 2. Exact receipts. *)
Definition receipts_report {B} (l : Ledger.t B) : report :=
  if Ledger.satisfied l
  then note (ReceiptsExact (size (Ledger.accepted_keys l))
               (size (DeploymentPlan.requirement_keys (Ledger.plan l))))
  else
    (match Ledger.missing l with
     | [] => clear
     | slots => block_missing (ReceiptsMissing (take 6 slots))
                  (list_to_set ((fun n => "receipt/" +:+ n) <$> slots))
     end) ⊕
    (match Ledger.unexpected l with
     | [] => clear
     | slots => block_unhealthy (ReceiptsUnexpected (take 6 slots))
                  (list_to_set ((fun n => "receipt/unplanned/" +:+ n) <$> slots))
     end).

(** 3. Replicas against the plan's target. *)
Definition replicas_of (c : t) (m : ModelPlan.t) : Z * Z :=
  default (0, 0) (replicas_running c !! ModelPlan.model_id m).

Definition model_report (c : t) (m : ModelPlan.t) : report :=
  let '(running, observed_target) := replicas_of c m in
  let id := ModelPlan.model_id m in
  let planned_target := ModelPlan.num_replicas m in
  (if observed_target =? planned_target then clear
   else block_unhealthy (ModelTarget id observed_target planned_target)
          {[ "model/" +:+ id +:+ "/replica-target" ]}) ⊕
  (if running =? planned_target then note (ModelRunning id running planned_target)
   else if running <? planned_target
   then block_missing (ModelReplicas id running planned_target) {[ "model/" +:+ id +:+ "/replicas" ]}
   else block_unhealthy (ModelReplicas id running planned_target)
          {[ "model/" +:+ id +:+ "/replicas" ]}).

(** 4. The advertised endpoint and, for production, its gateway. *)
Definition endpoint_report (c : t) : report :=
  if negb (nonempty (advertised_endpoint c))
  then block_missing NoEndpoint {[ "advertised-endpoint" ]}
  else if DeploymentPlan.is_production_exposure (plan c) then
    match gateway_alive c with
    | Some false => block_unhealthy GatewayNotRunning {[ "gateway/process" ]}
    | None => block_missing GatewayUnknown {[ "gateway/process-observation" ]}
    | Some true =>
        if default false (gateway_healthy c)
        then note (GatewayHealthy (GatewayPlan.kind <$> DeploymentPlan.gateway (plan c)))
        else block_unhealthy GatewayUnhealthy {[ "gateway/health" ]}
    end
  else clear.

(** 5. Routes and canaries through the advertised endpoint. *)
Definition route_report (c : t) (m : ModelPlan.t) : report :=
  (if default false (routes_ok c !! ModelPlan.route_name m) then clear
   else block_unhealthy (RouteUnhealthy (ModelPlan.route_name m))
          {[ "route/" +:+ ModelPlan.route_name m ]}) ⊕
  (if default false (canary_ok c !! ModelPlan.model_id m) then clear
   else block_missing (CanaryMissing (ModelPlan.model_id m))
          {[ "canary/" +:+ ModelPlan.model_id m ]}).

(** A note is added when no blocker so far has the given prefix. *)
Definition note_unless (p : blocker -> bool) (n : condition) (r : report) : report :=
  if existsb p (blockers r) then r else r ⊕ note n.

(** Everything [evaluate] accumulates, in the order of the source. *)
Definition full_report {B} (l : Ledger.t B) (s : option SessionCoordinator.t) (c : t)
    : readiness_result report :=
  let models := DeploymentPlan.models (plan c) in
  m ← match_ranks c (sessions_report s c);
  let r := note_unless is_ray (RayExact (size (matched_ids m)))
             (ray_report m ⊕ extra_report c (matched_ids m)) in
  let r := r ⊕ joins (rank_component_report c <$> AllocationBinding.ranks (binding c))
             ⊕ joins (owned_component_report c <$> OWNED_COMPONENTS) in
  expected ← match planned_application_names (plan c) with
             | Ok e => Ok e
             | Err e => Err (ReadinessPlanError e)
             end;
  let r := r ⊕ applications_report expected c in
  let ids := expected_proxy_ids c m in
  let r := r ⊕ joins (proxy_report c <$> sorted_text ids) ⊕ unplanned_proxies_report c ids in
  let r := if decide (ids = ∅) then r else note_unless is_proxy (ProxiesHealthy (size ids)) r in
  let r := r ⊕ receipts_report l ⊕ joins (model_report c <$> models) ⊕ endpoint_report c
             ⊕ joins (route_report c <$> models) in
  Ok (match models with
      | [] => r
      | _ => note_unless is_canary (CanariesAnswered (length models)) r
      end).

Definition capability_map_of {B} (l : Ledger.t B) : list (string * list string) :=
  fold_left (fun d r => dset (Receipt.component_id r) (Receipt.capabilities r) d)
    (Ledger.accepted_receipts l) [].

Definition model_map_of (c : t) : list (string * (string * Z * Z * Z)) :=
  fold_left (fun d m => let '(running, observed_target) := replicas_of c m in
      dset (ModelPlan.model_id m)
        (ModelPlan.route_name m, ModelPlan.num_replicas m, running, observed_target) d)
    (DeploymentPlan.models (plan c)) [].

Definition evaluate {B} (now : float) (l : Ledger.t B) (s : option SessionCoordinator.t) (c : t)
    : readiness_result ReadinessVerdict.t :=
  r ← full_report l s c;
  Ok (ReadinessVerdict.mk
        (match blockers r with [] => true | _ => false end) (phase c) (blockers r) (conditions r)
        (advertised_endpoint c) (AllocationBinding.generation (binding c))
        (DeploymentPlan.deployment_plan_hash (plan c))
        (AllocationBinding.allocation_binding_hash (binding c))
        (sorted_text (missing_ids r)) (sorted_text (unhealthy_ids r))
        (merge_sort string_le (Receipt.receipt_hash <$> Ledger.accepted_receipts l))
        (model_map_of c) (capability_map_of l) (nodes c) (proxies c) now).

(** *** Transitions *)

Definition enter_validating (c : t) : t :=
  if bool_decide (phase c = DeploymentPhase.FAILED) then c
  else with_phase DeploymentPhase.VALIDATING (first_failure c) c.

(** [dataclasses.replace(verdict, phase=..., blockers=(), ...)] *)
Definition committed_verdict (v : ReadinessVerdict.t) : ReadinessVerdict.t :=
  ReadinessVerdict.mk (ReadinessVerdict.ready v) DeploymentPhase.READY []
    (ReadinessVerdict.satisfied v) (ReadinessVerdict.advertised_endpoint v)
    (ReadinessVerdict.generation v) (ReadinessVerdict.deployment_plan_hash v)
    (ReadinessVerdict.allocation_binding_hash v) [] [] (ReadinessVerdict.receipt_hashes v)
    (ReadinessVerdict.model_map v) (ReadinessVerdict.capability_map v) (ReadinessVerdict.nodes v)
    (ReadinessVerdict.proxies v) (ReadinessVerdict.observed_at v).

Definition commit_ready {B} (now : float) (l : Ledger.t B) (s : option SessionCoordinator.t) (c : t)
    : t * readiness_result ReadinessVerdict.t :=
  match evaluate now l s c with
  | Err e => (c, Err e)
  | Ok v =>
      if ReadinessVerdict.ready v
      then (with_phase DeploymentPhase.READY (first_failure c) c, Ok (committed_verdict v))
      else (c, Ok v)
  end.

(** [self.first_failure or reason] *)
Definition first_or (reason : string) (f : option string) : option string :=
  match f with
  | Some s => if nonempty s then Some s else Some reason
  | None => Some reason
  end.

Definition fail (reason : string) (c : t) : t :=
  with_phase DeploymentPhase.FAILED (first_or reason (first_failure c)) c.

Definition revoke (reason : string) (gateway_dead : bool) (c : t) : t * DeploymentPhase.t :=
  if gateway_dead then (fail reason c, DeploymentPhase.FAILED)
  else
    let c' := if bool_decide (phase c = DeploymentPhase.READY)
              then with_phase DeploymentPhase.VALIDATING (first_failure c) c else c in
    (c', phase c').
End ReadinessCoordinator.
