(* ===== verification/ReadinessProps.v ===== *)
(** Theorems on readiness (Readiness.v): the verdict is ready exactly when the
    plan is met by the evidence, every blocker is explained by an identity and
    conversely, evidence stays within the plan, and what the phase transitions
    allow. *)

From S2P Require Import Prelude.
From S2P Require Import PyValue.
From S2P Require Import Contracts.
From S2P Require Import Session.
From S2P Require Import SessionProps.
From S2P Require Import Receipts.
From S2P Require Import Bindings.
From S2P Require Import BindingsProps.
From S2P Require Import Ledger.
From S2P Require Import LedgerProps.
From S2P Require Import PlacementProps.
From S2P Require Import Readiness.
Import ReadinessCoordinator.

(** ** Reports *)

(** A report without blockers. *)
Definition quiet (r : report) : Prop := Readiness.blockers r = [].

(** A blocker comes with an identity, and an identity with a blocker. *)
Definition explained (r : report) : Prop :=
  quiet r <-> missing_ids r = ∅ /\ unhealthy_ids r = ∅.

Lemma quiet_join a b : quiet (a ⊕ b) <-> quiet a /\ quiet b.
Proof. unfold quiet; cbn. split; [apply app_nil|by intros [-> ->]]. Qed.

Lemma explained_join a b : explained a -> explained b -> explained (a ⊕ b).
Proof.
  unfold explained. rewrite quiet_join. cbn. intros -> ->.
  split; [intros [[-> ->] [-> ->]]; set_solver|]. intros [? ?]. set_solver.
Qed.

Lemma quiet_joins l : quiet (joins l) <-> Forall quiet l.
Proof.
  induction l as [|r l IH]; cbn [joins foldr]; [by split|].
  fold (joins l). by rewrite quiet_join, Forall_cons, IH.
Qed.

Lemma explained_clear : explained clear.
Proof. by split. Qed.

Lemma explained_note n : explained (note n).
Proof. by split. Qed.

Lemma explained_joins l : Forall explained l -> explained (joins l).
Proof.
  induction 1 as [|r l Hr Hl IH]; [apply explained_clear|]. by apply explained_join.
Qed.

Lemma explained_missing b ids : ids <> ∅ -> explained (block_missing b ids).
Proof. intros Hne. unfold explained, quiet; cbn. naive_solver. Qed.

Lemma explained_unhealthy b ids : ids <> ∅ -> explained (block_unhealthy b ids).
Proof. intros Hne. unfold explained, quiet; cbn. naive_solver. Qed.

Lemma quiet_note_unless p n r : quiet (note_unless p n r) <-> quiet r.
Proof. unfold note_unless. case_match; [done|]. rewrite quiet_join. by intuition. Qed.

Lemma explained_note_unless p n r : explained r -> explained (note_unless p n r).
Proof. unfold note_unless. case_match; [done|]. intros. by apply explained_join; [|apply explained_note]. Qed.

Lemma missing_note_unless p n r : missing_ids (note_unless p n r) = missing_ids r.
Proof. unfold note_unless. case_match; cbn; set_solver. Qed.

Lemma singleton_non_empty (x : string) : ({[ x ]} : gset string) <> ∅.
Proof. set_solver. Qed.

Lemma cons_set_non_empty (f : string -> string) x l :
  (list_to_set (f <$> x :: l) : gset string) <> ∅.
Proof. cbn. set_solver. Qed.

Create HintDb readiness.
#[export] Hint Resolve explained_clear explained_note explained_join explained_joins
  explained_missing explained_unhealthy explained_note_unless singleton_non_empty
  cons_set_non_empty : readiness.

(** Case analysis on the conditions of a report, then the report algebra. *)
Ltac explain := repeat case_match; auto with readiness.

Lemma sorted_text_nil (x : gset string) : sorted_text x = [] <-> x = ∅.
Proof. apply elements_nil_iff. Qed.

Lemma elem_of_sorted_text (x : gset string) id : id ∈ sorted_text x <-> id ∈ x.
Proof. unfold sorted_text. by rewrite merge_sort_Permutation, elem_of_elements. Qed.

(** ** Matching nodes with ranks *)

Lemma nodes_by_name_app l n :
  nodes_by_name (l ++ [n]) =
  <[canonical_node_id (Node.node_name n)
    := default [] (nodes_by_name l !! canonical_node_id (Node.node_name n)) ++ [n]]> (nodes_by_name l).
Proof. unfold nodes_by_name. by rewrite fold_left_app. Qed.

(** The dictionary of [evaluate] answers what a scan of the nodes answers. *)
Lemma nodes_by_name_lookup l k :
  default [] (nodes_by_name l !! k)
  = filter (fun n => canonical_node_id (Node.node_name n) = k) l.
Proof.
  induction l as [|n l IH] using rev_ind; [done|].
  rewrite nodes_by_name_app, filter_app, <- IH. cbn.
  destruct (decide (canonical_node_id (Node.node_name n) = k)) as [<-|Hne].
  - by rewrite lookup_insert_eq.
  - by rewrite lookup_insert_ne, app_nil_r.
Qed.

(** [float(v)] of a validated resource. *)
Definition resource (v : value) : float :=
  match v with VInt z => Float.of_Z z | VFloat f => f | _ => Float.zero end.

Definition resource_ok (v : value) : Prop :=
  Float.is_finite (resource v) = true /\
  (forall E (e : E), to_float e v = Ok (resource v)) /\
  is_number v = true /\ num_ltb v (VInt 0) = false.

Lemma finite_resource_ok v lbl f : finite_resource v lbl = Ok f -> resource_ok v.
Proof.
  unfold finite_resource, resource_ok. destruct v as [| |z|f0| | |]; cbn [is_number resource]; try done.
  - destruct (num_ltb (VInt z) (VInt 0)); cbn [to_float]; destruct (Float.of_Z z); by try discriminate.
  - destruct (num_ltb (VFloat f0) (VInt 0)); cbn [to_float mbind result_bind]; by destruct (Float.is_finite f0).
Qed.

(** What the plan asks of one node. *)
Definition enough (p : DeploymentPlan.t) (n : Node.t) : Prop :=
  let wanted_cpu := Float.of_Z (DeploymentPlan.node_cpus p) in
  let wanted_gpu := Float.of_Z (DeploymentPlan.num_gpus_per_node p) in
  Float.leb wanted_cpu (resource (Node.cpu n)) = true /\
  Float.leb wanted_gpu (resource (Node.gpu n)) = true /\
  (ReadinessLimits.allow_excess_resources (DeploymentPlan.readiness p) = false ->
     Float.eqb (resource (Node.cpu n)) wanted_cpu = true /\
     Float.eqb (resource (Node.gpu n)) wanted_gpu = true).

(** The plan's resource counts are representable as doubles. *)
Definition representable (p : DeploymentPlan.t) : Prop :=
  Float.is_finite (Float.of_Z (DeploymentPlan.node_cpus p)) = true /\
  Float.is_finite (Float.of_Z (DeploymentPlan.num_gpus_per_node p)) = true.

Definition node_ok (n : Node.t) : Prop := resource_ok (Node.cpu n) /\ resource_ok (Node.gpu n).

Lemma to_float_int z : Float.is_finite (Float.of_Z z) = true ->
  to_float ReadinessOverflow (VInt z) = Ok (Float.of_Z z).
Proof. cbn. by destruct (Float.of_Z z). Qed.

Lemma ltb_false_iff x y :
  Float.is_finite x = true -> Float.is_finite y = true ->
  Float.ltb x y = false <-> Float.leb y x = true.
Proof.
  intros Hx Hy. apply Float.is_finite_not_nan in Hx, Hy.
  split; [by apply Float.ltb_false|by apply Float.leb_not_ltb].
Qed.

Lemma resources_report_spec c rank n :
  representable (plan c) -> node_ok n ->
  exists r, resources_report c rank n = Ok r /\ explained r /\ (quiet r <-> enough (plan c) n).
Proof.
  intros [Hc Hg] [(Hcf & Hct & _) (Hgf & Hgt & _)]. unfold resources_report. rewrite Hct, Hgt. cbn [mbind result_bind].
  rewrite !to_float_int by done. cbn [mbind result_bind]. unfold enough.
  cbv zeta. pose proof (ltb_false_iff _ _ Hcf Hc) as H1. pose proof (ltb_false_iff _ _ Hgf Hg) as H2.
  destruct (Float.ltb (resource (Node.cpu n)) _), (Float.ltb (resource (Node.gpu n)) _),
    (ReadinessLimits.allow_excess_resources _), (Float.eqb (resource (Node.cpu n)) _),
    (Float.eqb (resource (Node.gpu n)) _);
    cbn [orb negb andb]; eexists; (split; [reflexivity|]); (split; [auto with readiness|]);
    unfold quiet; cbn; naive_solver.
Qed.

(** The live nodes that carry the name bound to an entry's rank. *)
Definition matches (c : t) (e : Z * string) : list Node.t :=
  filter (fun n => canonical_node_id (Node.node_name n) = canonical_node_id e.2) (alive_nodes c).

Definition sole_id (c : t) (e : Z * string) : option string :=
  match matches c e with [n] => Some (Node.node_id n) | _ => None end.

(** What the matching loop has computed after some entries. *)
Record matched_to (c : t) (r0 : report) (entries : list (Z * string)) (m : matching) : Prop := {
  mt_explained : explained (ray_report m);
  mt_mono : missing_ids r0 ⊆ missing_ids (ray_report m);
  mt_quiet : quiet (ray_report m) <->
    quiet r0 /\ Forall (fun e => exists n, matches c e = [n] /\ enough (plan c) n) entries;
  mt_ids : forall id, id ∈ matched_ids m <-> exists e, e ∈ entries /\ sole_id c e = Some id;
  mt_rank_none : forall rank, rank ∉ entries.*1 -> matched_ids_by_rank m !! rank = None;
  mt_rank : NoDup entries.*1 -> forall e, e ∈ entries -> matched_ids_by_rank m !! e.1 = sole_id c e;
}.

Lemma node_ok_matched c e n :
  Forall node_ok (nodes c) -> n ∈ matches c e -> node_ok n.
Proof.
  intros Hall. unfold matches, alive_nodes. rewrite !list_elem_of_filter. intros (_ & _ & Hin).
  by eapply Forall_forall in Hall.
Qed.

Lemma match_rank_spec c r0 entries m e :
  representable (plan c) -> Forall node_ok (nodes c) -> matched_to c r0 entries m ->
  exists m', match_rank c (nodes_by_name (alive_nodes c)) m e = Ok m' /\
    matched_to c r0 (entries ++ [e]) m'.
Proof.
  intros Hrep Hok [He Hmono Hq Hi Hn Hr]. destruct e as [rank name]. unfold match_rank.
  assert (default [] (nodes_by_name (alive_nodes c) !! canonical_node_id name) = matches c (rank, name))
    as -> by apply nodes_by_name_lookup.
  assert (forall rank', rank' ∉ (entries ++ [(rank, name)]).*1 -> rank' <> rank /\ rank' ∉ entries.*1)
    as Hsplit by (intros ?; rewrite fmap_app, elem_of_app; cbn; rewrite list_elem_of_singleton; tauto).
  destruct (matches c (rank, name)) as [|n [|n' l]] eqn:Hm; cbv beta iota zeta.
  2: { destruct (resources_report_spec c rank n Hrep) as (r & -> & Hre & Hrq).
    { eapply (node_ok_matched c (rank, name)); [done|]. rewrite Hm. by left. }
    eexists. split; [reflexivity|].
    assert (sole_id c (rank, name) = Some (Node.node_id n)) as Hs by (unfold sole_id; by rewrite Hm).
    constructor; cbn [ray_report matched_ids matched_ids_by_rank].
    - auto with readiness.
    - cbn. set_solver.
    - rewrite quiet_join, Hq, Forall_app, Forall_singleton, Hrq, Hm. naive_solver.
    - intros id. rewrite elem_of_union, elem_of_singleton, Hi. setoid_rewrite elem_of_app.
      setoid_rewrite list_elem_of_singleton. naive_solver.
    - intros rank' [Hne Hni]%Hsplit. rewrite lookup_insert_ne by done. by apply Hn.
    - rewrite fmap_app, NoDup_app. intros (Hnd & Hd & _) e [Hin| ->%list_elem_of_singleton]%elem_of_app.
      + rewrite lookup_insert_ne; [by apply Hr|]. intros ->. eapply Hd; [apply list_elem_of_fmap|]; [eauto|].
        by left.
      + cbn. by rewrite lookup_insert_eq. }
  all: eexists; (split; [reflexivity|]);
    (assert (sole_id c (rank, name) = None) as Hs by (unfold sole_id; by rewrite Hm));
    constructor; cbn [ray_report matched_ids matched_ids_by_rank];
    [ auto with readiness
    | cbn; set_solver
    | rewrite quiet_join, Hq, Forall_app, Forall_singleton, Hm; unfold quiet at 2; cbn; naive_solver
    | intros id; rewrite Hi; setoid_rewrite elem_of_app; setoid_rewrite list_elem_of_singleton; naive_solver
    | intros rank' [_ Hni]%Hsplit; by apply Hn
    | rewrite fmap_app, NoDup_app; intros (Hnd & Hd & _) e [Hin| ->%list_elem_of_singleton]%elem_of_app;
      [by apply Hr|]; cbn; rewrite Hs; apply Hn; intros Hin; eapply Hd; [exact Hin|by left] ].
Qed.

Lemma match_ranks_spec c r0 :
  representable (plan c) -> Forall node_ok (nodes c) -> explained r0 ->
  exists m, match_ranks c r0 = Ok m /\
    matched_to c r0 (AllocationBinding.rank_to_node (binding c)) m.
Proof.
  intros Hrep Hok He. unfold match_ranks.
  induction (AllocationBinding.rank_to_node (binding c)) as [|e l IH] using rev_ind.
  { eexists. split; [reflexivity|]. constructor; cbn; try done.
    - rewrite Forall_nil. naive_solver.
    - intros id. split; [set_solver|]. by intros (e & ?%not_elem_of_nil & _).
    - intros _ e. by intros ?%not_elem_of_nil. }
  destruct IH as (m & Hm & Hmt). rewrite fold_res_app, Hm. cbn [mbind result_bind fold_res].
  destruct (match_rank_spec c r0 l m e Hrep Hok Hmt) as (m' & -> & ?). cbn. eauto.
Qed.

(** *** Exact membership *)

Lemma filter_unique {A} (f : A -> string) l x :
  NoDup (f <$> l) -> x ∈ l -> filter (fun y => f y = f x) l = [x].
Proof.
  induction l as [|y l IH]; [by intros _ ?%not_elem_of_nil|].
  rewrite fmap_cons, NoDup_cons, elem_of_cons. intros [Hni Hnd] [->|Hin].
  - rewrite filter_cons_True by done. f_equal. apply elem_of_nil_inv. intros z [Heq Hz]%list_elem_of_filter.
    apply Hni. rewrite <- Heq. apply list_elem_of_fmap. eauto.
  - rewrite filter_cons_False; [by apply IH|]. intros Heq. apply Hni. rewrite Heq.
    apply list_elem_of_fmap. eauto.
Qed.

Lemma fmap_inj_on {A} (f : A -> string) l x y :
  NoDup (f <$> l) -> x ∈ l -> y ∈ l -> f x = f y -> x = y.
Proof.
  intros Hnd Hx Hy Heq. pose proof (filter_unique f l y Hnd Hy) as Hf.
  assert (x ∈ filter (fun z => f z = f y) l) as Hin by by apply list_elem_of_filter.
  rewrite Hf in Hin. by apply list_elem_of_singleton in Hin.
Qed.

Definition node_key (n : Node.t) : string := canonical_node_id (Node.node_name n).

Lemma elem_of_matches c e n :
  n ∈ matches c e <-> n ∈ alive_nodes c /\ node_key n = canonical_node_id e.2.
Proof. unfold matches. rewrite list_elem_of_filter. tauto. Qed.

Section Membership.
Context (c : t) (entries : list (Z * string)) (ids : gset string) (P : Node.t -> Prop).
Hypothesis ids_distinct : NoDup (Node.node_id <$> nodes c).
Hypothesis names_distinct : NoDup (canonical_node_id <$> entries.*2).
Hypothesis ids_spec : forall id, id ∈ ids <-> exists e, e ∈ entries /\ sole_id c e = Some id.

Lemma alive_sub n : n ∈ alive_nodes c -> n ∈ nodes c.
Proof. unfold alive_nodes. rewrite list_elem_of_filter. tauto. Qed.

Lemma alive_nodup : NoDup (alive_nodes c).
Proof. apply NoDup_filter, (NoDup_fmap_1 Node.node_id), ids_distinct. Qed.

Lemma sole_matches :
  Forall (fun e => exists n, matches c e = [n] /\ P n) entries ->
  exists ns, Forall2 (fun e n => matches c e = [n] /\ P n) entries ns /\
    node_key <$> ns = canonical_node_id <$> entries.*2.
Proof.
  clear. induction 1 as [|e l (n & Hm & HP) Hl (ns & Hns & Hk)]; [by exists []|].
  exists (n :: ns). split; [by constructor|]. cbn. rewrite Hk. f_equal.
  assert (n ∈ matches c e) as Hin by (rewrite Hm; by left). by apply elem_of_matches in Hin as [_ ?].
Qed.

Lemma members_exact :
  Forall (fun e => exists n, matches c e = [n] /\ P n) entries /\
  (forall n, n ∈ alive_nodes c -> Node.node_id n ∈ ids) ->
  node_key <$> alive_nodes c ≡ₚ canonical_node_id <$> entries.*2 /\
  forall n, n ∈ alive_nodes c -> P n.
Proof.
  intros [Hall Hids]. destruct (sole_matches Hall) as (ns & Hns & Hk).
  assert (alive_nodes c ≡ₚ ns) as Hp.
  { apply NoDup_Permutation; [apply alive_nodup| |].
    { apply (NoDup_fmap_1 node_key). by rewrite Hk. }
    intros n. split.
    - intros Hn. destruct (proj1 (ids_spec _) (Hids n Hn)) as (e & He & Hs).
      apply list_elem_of_lookup in He as [i Hi].
      destruct (Forall2_lookup_l _ _ _ _ _ Hns Hi) as (n' & Hl & Hm & _).
      unfold sole_id in Hs. rewrite Hm in Hs. injection Hs as Hs.
      assert (n' ∈ matches c e) as [Hn' _]%elem_of_matches by (rewrite Hm; by left).
      rewrite <- (fmap_inj_on Node.node_id (nodes c) n' n);
        [by eapply list_elem_of_lookup_2|done|by apply alive_sub..|done].
    - intros [i Hi]%list_elem_of_lookup.
      destruct (Forall2_lookup_r _ _ _ _ _ Hns Hi) as (e & _ & Hm & _).
      assert (n ∈ matches c e) as Hin by (rewrite Hm; by left). by apply elem_of_matches in Hin as [? _]. }
  split; [by rewrite Hp, Hk|]. intros n. rewrite Hp. intros [i Hi]%list_elem_of_lookup.
  by destruct (Forall2_lookup_r _ _ _ _ _ Hns Hi) as (e & _ & _ & ?).
Qed.

Lemma exact_members :
  (node_key <$> alive_nodes c) ≡ₚ (canonical_node_id <$> entries.*2) ->
  (forall e n, e ∈ entries -> n ∈ alive_nodes c -> node_key n = canonical_node_id e.2 ->
     matches c e = [n]) /\
  (forall e, e ∈ entries -> exists n, n ∈ alive_nodes c /\ matches c e = [n]) /\
  (forall n, n ∈ alive_nodes c -> Node.node_id n ∈ ids).
Proof.
  intros Hp. assert (NoDup (node_key <$> alive_nodes c)) as Hnd by by rewrite Hp.
  assert (forall e n, e ∈ entries -> n ∈ alive_nodes c -> node_key n = canonical_node_id e.2 ->
     matches c e = [n]) as Hm.
  { intros e n _ Hn Hk. unfold matches. rewrite <- Hk. by apply (filter_unique node_key). }
  split; [done|]. split.
  - intros e He. assert (canonical_node_id e.2 ∈ node_key <$> alive_nodes c) as Hin.
    { rewrite Hp. apply list_elem_of_fmap. exists e.2. split; [done|]. apply list_elem_of_fmap. eauto. }
    apply list_elem_of_fmap in Hin as (n & Hk & Hn). exists n. split; [done|]. by apply Hm.
  - intros n Hn. assert (node_key n ∈ canonical_node_id <$> entries.*2) as Hin.
    { rewrite <- Hp. apply list_elem_of_fmap. eauto. }
    apply list_elem_of_fmap in Hin as (name & Hk & Hin).
    apply list_elem_of_fmap in Hin as (e & -> & He). apply ids_spec. exists e. split; [done|].
    unfold sole_id. by rewrite (Hm e n).
Qed.
End Membership.

(** ** Reachable evidence *)

Section Reach.
Context {B : Type}.

Inductive rop :=
| RSetEndpoint (endpoint : value)
| RSetGateway (alive healthy : value)
| RSetRoute (route healthy : value)
| RSetCanary (model_id ok : value)
| RSetReplicas (model_id running target : value)
| RSetCluster (nodes proxies : value)
| RSetRank (rank healthy : value)
| RSetOwned (component_id healthy : value)
| RSetApplications (names : value)
| REnterValidating
| RCommitReady (now : float) (l : Ledger.t B) (s : option SessionCoordinator.t)
| RRevoke (reason : string) (gateway_dead : bool)
| RFail (reason : string).

Definition rexec (o : rop) (c : t) : t :=
  match o with
  | RSetEndpoint e => (set_advertised_endpoint e c).1
  | RSetGateway a h => (set_gateway a h c).1
  | RSetRoute r h => (set_route r h c).1
  | RSetCanary m k => (set_canary m k c).1
  | RSetReplicas m r g => (set_replicas m r g c).1
  | RSetCluster n x => (set_cluster n x c).1
  | RSetRank r h => (set_rank_component r h c).1
  | RSetOwned i h => (set_owned_component i h c).1
  | RSetApplications n => (set_applications n c).1
  | REnterValidating => enter_validating c
  | RCommitReady now l s => (commit_ready now l s c).1
  | RRevoke r d => (revoke r d c).1
  | RFail r => fail r c
  end.

Definition rrun (ops : list rop) (c : t) : t := fold_left (fun c o => rexec o c) ops c.

Definition rreachable (p : DeploymentPlan.t) (b : AllocationBinding.t) (c : t) : Prop :=
  exists c0 ops, init p b = Ok c0 /\ c = rrun ops c0.

(** The texts of a node are not empty. *)
Definition node_text (n : Node.t) : Prop :=
  nonempty (Node.node_id n) = true /\ nonempty (Node.node_name n) = true /\
  nonempty (Node.node_address n) = true.

(** What validated evidence is worth, relative to the plan and the binding. *)
Record evidence_ok (p : DeploymentPlan.t) (b : AllocationBinding.t) (c : t) : Prop := {
  ev_plan : plan c = p;
  ev_binding : binding c = b;
  ev_ranks : planned_ranks c = list_to_set (AllocationBinding.ranks b);
  ev_models : planned_model_ids c = list_to_set (ModelPlan.model_id <$> DeploymentPlan.models p);
  ev_routes : planned_routes c = list_to_set (ModelPlan.route_name <$> DeploymentPlan.models p);
  ev_apps : planned_application_names p = Ok (planned_applications c);
  ev_nodes : Forall node_ok (nodes c);
  ev_node_texts : Forall node_text (nodes c);
  ev_proxy_texts : Forall (fun x => nonempty (Proxy.node_id x) = true) (proxies c);
  ev_node_ids : NoDup (Node.node_id <$> nodes c);
  ev_proxy_ids : NoDup (Proxy.node_id <$> proxies c);
  ev_node_bound : nodes c = [] \/ Z.of_nat (length (nodes c)) <= cluster_limit c;
  ev_proxy_bound : proxies c = [] \/ Z.of_nat (length (proxies c)) <= cluster_limit c;
  ev_app_bound : Z.of_nat (size (application_names c)) <= application_limit c;
  ev_route_keys : dom (routes_ok c) ⊆ planned_routes c;
  ev_canary_keys : dom (canary_ok c) ⊆ planned_model_ids c;
  ev_replica_keys : dom (replicas_running c) ⊆ planned_model_ids c;
  ev_rank_keys : dom (rank_components c) ⊆ planned_ranks c;
  ev_owned_keys : dom (owned_components c) ⊆ list_to_set OWNED_COMPONENTS;
}.

Lemma init_evidence p b c : init p b = Ok c -> evidence_ok p b c.
Proof.
  unfold init. intros (apps & Ha & [= <-])%bind_Ok.
  constructor; cbn; rewrite ?dom_empty_L; try done; try (by left); try constructor.
  unfold application_limit, UNPLANNED_EVIDENCE_MARGIN. cbn. rewrite size_empty. lia.
Qed.

Lemma assign_evidence p b r c :
  evidence_ok p b c -> (forall c', r = Ok c' -> evidence_ok p b c') ->
  evidence_ok p b (assign r c).1.
Proof. unfold assign. destruct r; cbn; eauto. Qed.

Lemma required_text_Ok v label s : required_text v label = Ok s -> nonempty s = true.
Proof. unfold required_text. destruct v; try done. destruct (nonempty _) eqn:E; [|done]. by intros [= <-]. Qed.

Lemma add_node_spec (acc : list Node.t * gset string) item acc' :
  add_node acc item = Ok acc' ->
  exists n, acc' = (acc.1 ++ [n], acc.2 ∪ {[ Node.node_id n ]}) /\ (node_ok n /\ node_text n) /\
    Node.node_id n ∉ acc.2.
Proof.
  unfold add_node. destruct item; try done. intros H. unfold readiness_raise_if in H. res_inv. bool_prop.
  eexists (Node.mk _ _ _ _ _ _). split; [cbn; reflexivity|]. split; [|done].
  split; [split; cbn; by eapply finite_resource_ok|]. split_and!; cbn; by eapply required_text_Ok.
Qed.

Lemma add_proxy_spec (acc : list Proxy.t * gset string) item acc' :
  add_proxy acc item = Ok acc' ->
  exists x, acc' = (acc.1 ++ [x], acc.2 ∪ {[ Proxy.node_id x ]}) /\ nonempty (Proxy.node_id x) = true /\
    Proxy.node_id x ∉ acc.2.
Proof.
  unfold add_proxy. destruct item; try done. intros H. unfold readiness_raise_if in H. res_inv. bool_prop.
  eexists (Proxy.mk _ _). split; [cbn; reflexivity|]. split; [by eapply required_text_Ok|done].
Qed.

(** The projection loops keep identifiers distinct and one entry per item. *)
Lemma projection_spec {A} (key : A -> string) (Q : A -> Prop)
    (f : list A * gset string -> value -> readiness_result (list A * gset string)) :
  (forall acc item acc', f acc item = Ok acc' ->
     exists x, acc' = (acc.1 ++ [x], acc.2 ∪ {[ key x ]}) /\ Q x /\ key x ∉ acc.2) ->
  forall items acc, fold_res f ([], ∅) items = Ok acc ->
    NoDup (key <$> acc.1) /\ Forall Q acc.1 /\ length acc.1 = length items /\
    acc.2 = list_to_set (key <$> acc.1).
Proof.
  intros Hf items. induction items as [|item items IH] using rev_ind.
  { intros acc [= <-]. cbn. by repeat constructor. }
  intros acc. rewrite fold_res_app. intros (acc1 & Ha & Hb)%bind_Ok. cbn in Hb.
  apply bind_Ok in Hb as (acc2 & Hb & [= <-]).
  apply Hf in Hb as (x & -> & HQ & Hni). destruct (IH _ Ha) as (Hnd & Hall & Hlen & Hset).
  cbn [fst snd]. rewrite fmap_app, !length_app, Hlen. split_and!.
  - apply NoDup_app. split; [done|]. split; [|apply NoDup_singleton].
    intros k Hk. cbn. rewrite list_elem_of_singleton. intros ->. apply Hni. rewrite Hset.
    by apply elem_of_list_to_set.
  - apply Forall_app. by repeat constructor.
  - done.
  - rewrite Hset, list_to_set_app_L. cbn. by rewrite union_empty_r_L.
Qed.

Lemma application_texts_length limit index names l :
  application_texts limit index names = Ok l -> 0 <= index <= limit ->
  Z.of_nat (length l) <= limit - index.
Proof.
  revert index l. induction names as [|v names IH]; intros index l; cbn [application_texts].
  { intros [= <-]. cbn. lia. }
  intros H Hi. unfold readiness_raise_if in H. res_inv. bool_prop.
  match goal with H : application_texts _ _ _ = Ok _ |- _ => apply IH in H; [|lia] end.
  cbn [length]. lia.
Qed.

Lemma dom_insert_planned {K A} `{Countable K} (m : gmap K A) (X : gset K) k v :
  dom m ⊆ X -> k ∈ X -> dom (<[k := v]> m) ⊆ X.
Proof. rewrite dom_insert_L. set_solver. Qed.

(** A setter that assigns one field: only that field's condition is new. *)
Ltac setter_evidence :=
  apply assign_evidence; [done|]; intros c' H; unfold readiness_raise_if in H; res_inv; bool_prop;
  match goal with Hev : evidence_ok _ _ _ |- _ =>
    destruct Hev; constructor; cbn; try done; by apply dom_insert_planned end.

Lemma set_cluster_evidence p b ns xs c :
  evidence_ok p b c -> evidence_ok p b (set_cluster ns xs c).1.
Proof.
  intros Hev. apply assign_evidence; [done|]. intros c' H. destruct ns, xs; try done.
  unfold readiness_raise_if in H. res_inv. bool_prop.
  match goal with
  | H1 : fold_res add_node _ _ = Ok _, H2 : fold_res add_proxy _ _ = Ok _ |- _ =>
      destruct (projection_spec Node.node_id _ add_node add_node_spec _ _ H1)
        as (Hn1 & [Hn2 Hn4]%Forall_and & Hn3 & _);
      destruct (projection_spec Proxy.node_id _ add_proxy add_proxy_spec _ _ H2)
        as (Hx1 & Hx2 & Hx3 & _)
  end.
  destruct Hev; constructor; cbn; try done; right; [rewrite Hn3|rewrite Hx3]; done.
Qed.

Lemma set_applications_evidence p b names c :
  evidence_ok p b c -> evidence_ok p b (set_applications names c).1.
Proof.
  intros Hev. apply assign_evidence; [done|]. intros c' H. unfold readiness_raise_if in H.
  res_inv. unfold no_dups in *. bool_prop.
  match goal with H : application_texts _ _ _ = Ok _ |- _ => apply application_texts_length in H as Hlen end.
  2: { unfold application_limit, UNPLANNED_EVIDENCE_MARGIN. lia. }
  destruct Hev; constructor; cbn; try done.
  rewrite size_list_to_set by done. unfold application_limit in *. cbn. lia.
Qed.

Lemma set_gateway_evidence p b a h c :
  evidence_ok p b c -> evidence_ok p b (set_gateway a h c).1.
Proof.
  intros Hev. unfold set_gateway. destruct (optional_bool a _) as [x|e]; [|done].
  assert (evidence_ok p b (with_alive x c)) by by destruct Hev.
  apply assign_evidence; [done|]. intros c' H'. res_inv. by destruct Hev.
Qed.

Lemma rexec_evidence p b (o : rop) c : evidence_ok p b c -> evidence_ok p b (rexec o c).
Proof.
  intros Hev. destruct o; cbn [rexec].
  - apply assign_evidence; [done|]. intros c' H. res_inv. by destruct Hev.
  - by apply set_gateway_evidence.
  - setter_evidence.
  - setter_evidence.
  - setter_evidence.
  - by apply set_cluster_evidence.
  - setter_evidence.
  - apply assign_evidence; [done|]. intros c' H. unfold readiness_raise_if in H. res_inv. bool_prop.
    destruct Hev; constructor; cbn -[OWNED_COMPONENTS]; try done.
    apply dom_insert_planned; [done|]. by apply elem_of_list_to_set.
  - by apply set_applications_evidence.
  - unfold enter_validating. case_match; [done|]. by destruct Hev.
  - unfold commit_ready. destruct (evaluate _ _ _ _) as [v|]; [|done]. case_match; [|done]. by destruct Hev.
  - unfold revoke, fail. destruct gateway_dead; cbn; [by destruct Hev|]. case_match; [|done]. by destruct Hev.
  - by destruct Hev.
Qed.

Lemma rreachable_evidence p b c : rreachable p b c -> evidence_ok p b c.
Proof.
  intros (c0 & ops & Hi & ->). apply init_evidence in Hi. unfold rrun. revert c0 Hi.
  induction ops as [|o ops IH]; intros c0 Hc; cbn; [done|]. by apply IH, rexec_evidence.
Qed.
End Reach.

(** ** What each section of the verdict blocks on *)

Section Sections.
Context {B : Type}.

Lemma quiet_sessions s c :
  quiet (sessions_report s c) <->
  forall sc, s = Some sc -> SessionCoordinator.readiness_revoked_ranks sc = [] /\
    SessionCoordinator.generation_state sc <> GEN_TERMINAL.
Proof.
  destruct s as [sc|]; cbn; [|by split].
  rewrite quiet_join.
  assert ((list_to_set (SessionCoordinator.readiness_revoked_ranks sc) : gset Z) = ∅
          <-> SessionCoordinator.readiness_revoked_ranks sc = []) as Hnil.
  { destruct (SessionCoordinator.readiness_revoked_ranks sc); cbn; [done|]. split; [set_solver|done]. }
  unfold quiet. repeat case_match; bool_prop; cbn; naive_solver.
Qed.

Lemma explained_sessions s c : explained (sessions_report s c).
Proof.
  unfold sessions_report. destruct s as [sc|]; [|auto with readiness].
  apply explained_join; [|explain].
  destruct (decide _) as [|Hne]; [auto with readiness|].
  apply explained_missing. apply set_choose_L in Hne as [x Hx]. intros Hm.
  assert (("session/rank/" +:+ str_Z x) ∈@{gset string} ∅) as Hin; [|set_solver].
  rewrite <- Hm. apply elem_of_map. eauto.
Qed.

Lemma quiet_extra c ids :
  quiet (extra_report c ids) <-> forall n, n ∈ alive_nodes c -> Node.node_id n ∈ ids.
Proof.
  unfold extra_report.
  assert (forall l, merge_sort string_le (filter (fun id => id ∉ ids) l) = [] <->
                    forall id, id ∈ l -> id ∈ ids) as Hnil.
  { intros l. split.
    - intros Hs id Hin. destruct (decide (id ∈ ids)) as [|Hni]; [done|].
      assert (id ∈ merge_sort string_le (filter (fun id => id ∉ ids) l)) as H.
      { rewrite merge_sort_Permutation. by apply list_elem_of_filter. }
      rewrite Hs in H. by apply not_elem_of_nil in H.
    - intros Hall. apply elem_of_nil_inv. intros id. rewrite merge_sort_Permutation, list_elem_of_filter.
      naive_solver. }
  specialize (Hnil (Node.node_id <$> alive_nodes c)). setoid_rewrite list_elem_of_fmap in Hnil.
  destruct (merge_sort _ _) as [|x l] eqn:Hs; unfold quiet; cbn; naive_solver.
Qed.

Lemma quiet_components c ranks :
  quiet (joins (rank_component_report c <$> ranks)) <->
  forall rank, rank ∈ ranks -> rank_components c !! rank = Some true.
Proof.
  rewrite quiet_joins, Forall_fmap, Forall_forall. unfold rank_component_report, quiet, compose.
  split; intros H rank Hin; specialize (H rank Hin).
  - destruct (rank_components c !! rank) as [[]|]; done.
  - by rewrite H.
Qed.

Lemma quiet_owned c ids :
  quiet (joins (owned_component_report c <$> ids)) <->
  forall i, i ∈ ids -> owned_components c !! i = Some true.
Proof.
  rewrite quiet_joins, Forall_fmap, Forall_forall. unfold owned_component_report, quiet, compose.
  split; intros H i Hin; specialize (H i Hin).
  - destruct (owned_components c !! i) as [[]|]; done.
  - by rewrite H.
Qed.

Lemma quiet_applications expected c :
  quiet (applications_report expected c) <-> application_names c = expected.
Proof.
  unfold applications_report. rewrite !quiet_join.
  pose proof (sorted_text_nil (expected ∖ application_names c)) as H1.
  pose proof (sorted_text_nil (application_names c ∖ expected)) as H2.
  transitivity (expected ∖ application_names c = ∅ /\ application_names c ∖ expected = ∅).
  - destruct (sorted_text _), (sorted_text _); unfold quiet; cbn; naive_solver.
  - split; [|intros ->; by rewrite difference_diag_L].
    intros [E1 E2]. apply set_eq. intros x.
    destruct (decide (x ∈ expected)), (decide (x ∈ application_names c)); set_solver.
Qed.

Lemma proxy_statuses_lookup c id st :
  NoDup (Proxy.node_id <$> proxies c) ->
  proxy_statuses c !! id = Some st <->
  exists x, x ∈ proxies c /\ Proxy.node_id x = id /\ upper (Proxy.status x) = st.
Proof.
  unfold proxy_statuses. induction (proxies c) as [|x l IH] using rev_ind; cbn.
  { intros _. rewrite lookup_empty. setoid_rewrite elem_of_nil. naive_solver. }
  rewrite fmap_app, NoDup_app. intros (Hnd & Hd & _). rewrite fold_left_app. cbn.
  setoid_rewrite elem_of_app. setoid_rewrite list_elem_of_singleton.
  destruct (decide (Proxy.node_id x = id)) as [<-|Hne].
  - rewrite lookup_insert_eq. split; [intros [= <-]; eauto|].
    intros (y & [Hin| ->] & Hid & <-); [|done]. exfalso. eapply Hd; [apply list_elem_of_fmap; eauto|].
    rewrite Hid. by left.
  - rewrite lookup_insert_ne, IH by done. naive_solver.
Qed.

Lemma quiet_proxies c ids :
  NoDup (Proxy.node_id <$> proxies c) ->
  quiet (joins (proxy_report c <$> sorted_text ids)) /\ quiet (unplanned_proxies_report c ids) <->
  (forall id, id ∈ Proxy.node_id <$> proxies c <-> id ∈ ids) /\
  (forall x, x ∈ proxies c -> proxy_healthy (upper (Proxy.status x)) = true).
Proof.
  intros Hnd.
  assert (forall id, id ∈ dom (proxy_statuses c) <-> id ∈ Proxy.node_id <$> proxies c) as Hdom.
  { intros id. rewrite elem_of_dom, list_elem_of_fmap. unfold is_Some.
    setoid_rewrite proxy_statuses_lookup; [|done]. naive_solver. }
  assert (quiet (unplanned_proxies_report c ids)
          <-> forall id, id ∈ Proxy.node_id <$> proxies c -> id ∈ ids) as ->.
  { setoid_rewrite <- Hdom. unfold unplanned_proxies_report.
    pose proof (sorted_text_nil (dom (proxy_statuses c) ∖ ids)) as Hn.
    transitivity (dom (proxy_statuses c) ∖ ids = ∅).
    - destruct (sorted_text _); unfold quiet; cbn; naive_solver.
    - set_unfold. split; [|naive_solver]. intros H id Hin. destruct (decide (id ∈ ids)); naive_solver. }
  assert (quiet (joins (proxy_report c <$> sorted_text ids)) <->
          forall id, id ∈ ids -> exists st, proxy_statuses c !! id = Some st /\ proxy_healthy st = true) as ->.
  { rewrite quiet_joins, Forall_fmap, Forall_forall. setoid_rewrite elem_of_sorted_text.
    unfold compose, proxy_report. apply forall_proper. intros id.
    destruct (proxy_statuses c !! id) as [st|] eqn:Hs; cbn [from_option]; cbv beta delta [Datatypes.id].
    - destruct (proxy_healthy st) eqn:Hh; [split; [eauto|done]|].
      split; intros H Hin; specialize (H Hin); [by destruct (bool_decide (st = _))|]. destruct H as (? & [= <-] & ?). congruence.
    - split; intros H Hin; specialize (H Hin); [done|by destruct H as (? & ? & ?)]. }
  setoid_rewrite proxy_statuses_lookup; [|done]. setoid_rewrite list_elem_of_fmap. split.
  - intros [H1 H2]. split; [naive_solver|]. intros x Hx.
    destruct (H1 (Proxy.node_id x)) as (st & (y & Hy & Hid & <-) & Hh); [apply H2; eauto|].
    by rewrite <- (fmap_inj_on Proxy.node_id (proxies c) y x).
  - intros [H1 H2]. split; [|naive_solver]. intros id (x & -> & Hx)%H1. exists (upper (Proxy.status x)). eauto 6.
Qed.

Lemma quiet_receipts (l : Ledger.t B) : quiet (receipts_report l) <-> Ledger.satisfied l = true.
Proof.
  unfold receipts_report. destruct (Ledger.satisfied l) eqn:Hs; [by split|].
  rewrite quiet_join. unfold Ledger.satisfied in Hs.
  destruct (Ledger.missing l), (Ledger.unexpected l); unfold quiet; cbn in *; naive_solver.
Qed.

Lemma quiet_models c ms :
  quiet (joins (model_report c <$> ms)) <->
  forall m, m ∈ ms -> replicas_of c m = (ModelPlan.num_replicas m, ModelPlan.num_replicas m).
Proof.
  rewrite quiet_joins, Forall_fmap, Forall_forall. apply forall_proper. intros m.
  unfold compose, model_report. destruct (replicas_of c m) as [running target]. rewrite quiet_join.
  unfold quiet. repeat case_match; bool_prop; subst; cbn; naive_solver.
Qed.

Lemma quiet_endpoint c :
  quiet (endpoint_report c) <->
  advertised_endpoint c <> EmptyString /\
  (DeploymentPlan.is_production_exposure (plan c) = true ->
     gateway_alive c = Some true /\ gateway_healthy c = Some true).
Proof.
  unfold endpoint_report, nonempty, quiet. rewrite negb_involutive.
  destruct (bool_decide _) eqn:He; bool_prop; cbn; [naive_solver|].
  destruct (DeploymentPlan.is_production_exposure _); cbn; [|naive_solver].
  destruct (gateway_alive c) as [[]|], (gateway_healthy c) as [[]|]; cbn; naive_solver.
Qed.

Lemma quiet_routes c ms :
  quiet (joins (route_report c <$> ms)) <->
  forall m, m ∈ ms -> routes_ok c !! ModelPlan.route_name m = Some true /\
    canary_ok c !! ModelPlan.model_id m = Some true.
Proof.
  rewrite quiet_joins, Forall_fmap, Forall_forall. apply forall_proper. intros m.
  unfold compose, route_report. rewrite quiet_join. unfold quiet.
  destruct (routes_ok c !! _) as [[]|], (canary_ok c !! _) as [[]|]; cbn; naive_solver.
Qed.

(** Every section of the report explains its blockers. *)
Lemma explained_map {A} (f : A -> report) l :
  (forall x, explained (f x)) -> explained (joins (f <$> l)).
Proof. intros Hf. apply explained_joins, Forall_fmap, Forall_forall. intros x _. apply Hf. Qed.

Lemma explained_sections (l : Ledger.t B) c expected ids :
  let ms := DeploymentPlan.models (plan c) in
  explained (extra_report c ids) /\
  explained (joins (rank_component_report c <$> AllocationBinding.ranks (binding c))) /\
  explained (joins (owned_component_report c <$> OWNED_COMPONENTS)) /\
  explained (applications_report expected c) /\
  (forall ids', explained (joins (proxy_report c <$> sorted_text ids')) /\
     explained (unplanned_proxies_report c ids')) /\
  explained (receipts_report l) /\ explained (joins (model_report c <$> ms)) /\
  explained (endpoint_report c) /\ explained (joins (route_report c <$> ms)).
Proof.
  split_and!.
  - unfold extra_report. explain.
  - apply explained_map. intros x. unfold rank_component_report. explain.
  - apply explained_map. intros x. unfold owned_component_report. explain.
  - unfold applications_report. explain.
  - split; [apply explained_map; intros x; unfold proxy_report|unfold unplanned_proxies_report]; explain.
  - unfold receipts_report. explain.
  - apply explained_map. intros x. unfold model_report. explain.
  - unfold endpoint_report. explain.
  - apply explained_map. intros x. unfold route_report. explain.
Qed.

(** The report as a whole, section by section. *)
Lemma full_report_spec p b (l : Ledger.t B) s c :
  evidence_ok p b c -> representable p ->
  exists m r, matched_to c (sessions_report s c) (AllocationBinding.rank_to_node b) m /\
    full_report l s c = Ok r /\ explained r /\
    missing_ids (sessions_report s c) ⊆ missing_ids r /\
    (quiet r <->
       quiet (ray_report m) /\ quiet (extra_report c (matched_ids m)) /\
       quiet (joins (rank_component_report c <$> AllocationBinding.ranks b)) /\
       quiet (joins (owned_component_report c <$> OWNED_COMPONENTS)) /\
       quiet (applications_report (planned_applications c) c) /\
       (quiet (joins (proxy_report c <$> sorted_text (expected_proxy_ids c m))) /\
        quiet (unplanned_proxies_report c (expected_proxy_ids c m))) /\
       quiet (receipts_report l) /\ quiet (joins (model_report c <$> DeploymentPlan.models p)) /\
       quiet (endpoint_report c) /\ quiet (joins (route_report c <$> DeploymentPlan.models p))).
Proof.
  intros Hev Hrep.
  assert (representable (plan c)) as Hrep' by by rewrite (ev_plan p b c Hev).
  destruct (match_ranks_spec c (sessions_report s c) Hrep' (ev_nodes p b c Hev) (explained_sessions s c))
    as (m & Hm & Hmt).
  destruct (explained_sections l c (planned_applications c) (matched_ids m))
    as (E1 & E2 & E3 & E4 & E5 & E6 & E7 & E8 & E9).
  destruct (E5 (expected_proxy_ids c m)) as [E5a E5b]. pose proof (mt_explained _ _ _ _ Hmt) as E0.
  pose proof (ev_plan p b c Hev) as Hp. pose proof (ev_binding p b c Hev) as Hb. subst p b.
  unfold full_report. rewrite Hm, (ev_apps _ _ c Hev). cbn [mbind result_bind].
  exists m. eexists. split; [exact Hmt|]. split; [reflexivity|]. split.
  { repeat case_match; auto 20 with readiness. }
  split.
  - pose proof (mt_mono _ _ _ _ Hmt).
    repeat (case_match || rewrite missing_note_unless || cbn [missing_ids join]); set_solver.
  - destruct (DeploymentPlan.models (plan c)), (decide _);
      repeat (rewrite quiet_join || rewrite quiet_note_unless); tauto.
Qed.
End Sections.

(** ** Ready exactly when the plan is met *)

Lemma node_for_in_Some l rank node :
  AllocationBinding.node_for_in l rank = Some node -> (rank, node) ∈ l.
Proof.
  induction l as [|[r n] l IH]; cbn; [done|]. case_match; bool_prop; subst.
  - intros [= ->]. by left.
  - intros ?. right. auto.
Qed.

Lemma node_for_in_None l rank : AllocationBinding.node_for_in l rank = None -> rank ∉ l.*1.
Proof.
  induction l as [|[r n] l IH]; cbn; [intros _; apply not_elem_of_nil|]. case_match; bool_prop; [done|].
  intros ?. rewrite not_elem_of_cons. auto.
Qed.

Lemma binding_names b :
  AllocationBinding.post_init b = Ok tt ->
  NoDup (AllocationBinding.rank_to_node b).*1 /\
  NoDup (canonical_node_id <$> (AllocationBinding.rank_to_node b).*2) /\
  Forall (fun e => nonempty (canonical_node_id e.2) = true) (AllocationBinding.rank_to_node b) /\
  (forall e, e ∈ AllocationBinding.rank_to_node b -> 0 ∈ (AllocationBinding.rank_to_node b).*1).
Proof.
  unfold AllocationBinding.post_init, plan_raise_if. intros H. res_inv. unfold no_dups in *. bool_prop.
  match goal with H : _.*1 = seqZ _ _ |- _ => rename H into Hr end.
  split; [rewrite Hr; apply NoDup_seqZ|]. split; [done|]. split.
  2: { intros e He%list_elem_of_In. rewrite Hr. apply elem_of_seqZ. rewrite length_fmap.
       destruct (AllocationBinding.rank_to_node b); [done|]. cbn. lia. }
  apply Forall_forall. intros e He. apply not_false_is_true. intros Hf.
  match goal with H : existsb _ (_ <$> _) = false |- _ =>
    apply not_true_iff_false in H; apply H, existsb_exists; exists (canonical_node_id e.2) end.
  split; [|by rewrite Hf]. apply list_elem_of_In. apply list_elem_of_fmap. exists e.2. split; [done|].
  apply list_elem_of_fmap. eauto.
Qed.

(** The nodes that must run a Serve proxy: every live node, or rank 0's node when
    the plan exposes the head only. *)
Definition proxied (p : DeploymentPlan.t) (b : AllocationBinding.t) (n : Node.t) : Prop :=
  DeploymentPlan.uses_head_only_serve_proxy p = true ->
  AllocationBinding.is_bound_node b 0 (Node.node_name n) = true.

Lemma expected_proxy_ids_spec p b c r0 m :
  evidence_ok p b c -> AllocationBinding.post_init b = Ok tt ->
  matched_to c r0 (AllocationBinding.rank_to_node b) m ->
  (node_key <$> alive_nodes c) ≡ₚ (canonical_node_id <$> (AllocationBinding.rank_to_node b).*2) ->
  forall id, id ∈ expected_proxy_ids c m <->
    exists n, n ∈ alive_nodes c /\ Node.node_id n = id /\ proxied p b n.
Proof.
  intros Hev Hb Hmt Hp id. destruct (binding_names b Hb) as (Hr & Hn & Hne & H0).
  destruct (exact_members c _ (matched_ids m) Hn (mt_ids _ _ _ _ Hmt) Hp) as (Hm & Hex & Hids).
  assert (id ∈ matched_ids m <-> exists n, n ∈ alive_nodes c /\ Node.node_id n = id) as Hall.
  { split; [|naive_solver]. rewrite (mt_ids _ _ _ _ Hmt). intros (e & He & Hs).
    destruct (Hex e He) as (n & Hin & Heq). unfold sole_id in Hs. rewrite Heq in Hs. naive_solver. }
  unfold expected_proxy_ids, proxied. rewrite (ev_plan p b c Hev).
  destruct (DeploymentPlan.uses_head_only_serve_proxy p); [|rewrite Hall; naive_solver].
  unfold AllocationBinding.is_bound_node, AllocationBinding.node_for.
  destruct (AllocationBinding.node_for_in _ 0) as [bound|] eqn:Hf.
  - apply node_for_in_Some in Hf. destruct (Hex _ Hf) as (n & Hin & Heq).
    rewrite (mt_rank _ _ _ _ Hmt Hr _ Hf : matched_ids_by_rank m !! 0 = _). unfold sole_id at 1. rewrite Heq.
    assert (forall n', n' ∈ alive_nodes c -> same_node bound (Node.node_name n') = true <-> n' = n) as Hsame.
    { intros n' Hin'. unfold same_node. rewrite (proj1 (Forall_forall _ _) Hne _ Hf : nonempty (canonical_node_id bound) = true).
      cbn [andb]. rewrite bool_decide_eq_true. split.
      - intros Hk. pose proof (Hm _ n' Hf Hin' (eq_sym Hk)) as Heq'. congruence.
      - intros ->. assert (n ∈ matches c (0, bound)) as [_ ?]%elem_of_matches by (rewrite Heq; by left). done. }
    rewrite elem_of_singleton. split; [intros ->; exists n; split_and!; naive_solver|].
    intros (n' & Hin' & <- & Hs). specialize (Hs eq_refl). apply Hsame in Hs; [by subst|done].
  - apply node_for_in_None in Hf. rewrite (mt_rank_none _ _ _ _ Hmt 0 Hf), Hall.
    split; [|naive_solver]. intros (n & Hin & Hid). exfalso.
    assert (node_key n ∈ canonical_node_id <$> (AllocationBinding.rank_to_node b).*2) as Hk.
    { rewrite <- Hp. apply list_elem_of_fmap. eauto. }
    apply list_elem_of_fmap in Hk as (name & _ & Hk). apply list_elem_of_fmap in Hk as (e & _ & He).
    exact (Hf (H0 e He)).
Qed.

Section Verdict.
Context {B : Type} `{!BindingStore B} (canonical_hash : list value -> string).

(** The plan is met by what is there, whatever was observed on the way. *)
Record plan_met (p : DeploymentPlan.t) (b : AllocationBinding.t) (l : Ledger.t B)
    (s : option SessionCoordinator.t) (c : t) : Prop := {
  (** every planned rank's session is established, in a live generation *)
  pm_sessions : forall sc, s = Some sc ->
    SessionCoordinator.generation_state sc <> GEN_TERMINAL /\
    forall rank, rank ∈ AllocationBinding.ranks b -> exists x,
      SessionCoordinator.sessions sc !! rank = Some x /\ RankSession.state x = ESTABLISHED;
  (** the live nodes are the bound nodes, one for one, each as large as planned *)
  pm_membership : (node_key <$> alive_nodes c)
    ≡ₚ (canonical_node_id <$> (AllocationBinding.rank_to_node b).*2);
  pm_resources : forall n, n ∈ alive_nodes c -> enough p n;
  (** every rank's and the head's own components run *)
  pm_ranks : forall rank, rank ∈ AllocationBinding.ranks b -> rank_components c !! rank = Some true;
  pm_owned : forall i, i ∈ OWNED_COMPONENTS -> owned_components c !! i = Some true;
  (** the applications are the planned ones *)
  pm_applications : planned_application_names p = Ok (application_names c);
  (** the proxies are on the planned nodes and healthy *)
  pm_proxies : forall id, id ∈ Proxy.node_id <$> proxies c <->
    exists n, n ∈ alive_nodes c /\ Node.node_id n = id /\ proxied p b n;
  pm_proxy_health : forall x, x ∈ proxies c -> proxy_healthy (upper (Proxy.status x)) = true;
  (** the accepted receipts are for exactly the planned slots *)
  pm_receipts : forall k, is_Some (dget k (Ledger.by_slot l)) <-> k ∈ DeploymentPlan.requirement_ids p;
  (** every model runs and targets its planned replicas *)
  pm_replicas : forall m, m ∈ DeploymentPlan.models p ->
    replicas_of c m = (ModelPlan.num_replicas m, ModelPlan.num_replicas m);
  (** there is an endpoint and, in production, a live and healthy gateway *)
  pm_endpoint : advertised_endpoint c <> EmptyString;
  pm_gateway : DeploymentPlan.is_production_exposure p = true ->
    gateway_alive c = Some true /\ gateway_healthy c = Some true;
  (** every model is routed and answered its canary *)
  pm_models : forall m, m ∈ DeploymentPlan.models p ->
    routes_ok c !! ModelPlan.route_name m = Some true /\
    canary_ok c !! ModelPlan.model_id m = Some true;
}.

Lemma sessions_established b lim sc :
  SessionProps.reachable canonical_hash b lim sc ->
  SessionCoordinator.readiness_revoked_ranks sc = [] <->
  forall rank, rank ∈ AllocationBinding.ranks b -> exists x,
    SessionCoordinator.sessions sc !! rank = Some x /\ RankSession.state x = ESTABLISHED.
Proof.
  intros Hr. pose proof (reachable_inv _ _ _ _ Hr) as Hi.
  destruct (reachable_binding _ _ _ _ Hr) as [Hb _].
  assert (forall rank, rank ∈ AllocationBinding.ranks b <-> is_Some (SessionCoordinator.sessions sc !! rank))
    as Hd. { intros rank. rewrite <- (elem_of_session_order sc rank Hi). unfold SessionCoordinator.session_order.
    by rewrite Hb. }
  split.
  - intros Hnil rank [x Hx]%Hd. exists x. split; [done|].
    destruct (decide (RankSession.state x = ESTABLISHED)) as [|Hne]; [done|].
    assert (rank ∈ SessionCoordinator.readiness_revoked_ranks sc) as Hin by (apply elem_of_revoked; eauto).
    rewrite Hnil in Hin. by apply not_elem_of_nil in Hin.
  - intros Hall. apply elem_of_nil_inv. intros rank (x & Hx & Hne)%elem_of_revoked; [|done].
    destruct (Hall rank) as (y & Hy & ?); [apply Hd; eauto|]. congruence.
Qed.

Lemma receipts_exact (l : Ledger.t B) p :
  Ledger.plan l = p ->
  Ledger.satisfied l = true <->
  forall k, is_Some (dget k (Ledger.by_slot l)) <-> k ∈ DeploymentPlan.requirement_ids p.
Proof.
  intros <-. rewrite satisfied_sets, set_eq.
  unfold DeploymentPlan.requirement_keys, Ledger.accepted_keys.
  setoid_rewrite elem_of_list_to_set. setoid_rewrite dget_is_Some. naive_solver.
Qed.

Lemma ray_exact p b c s m :
  evidence_ok p b c -> AllocationBinding.post_init b = Ok tt ->
  matched_to c (sessions_report s c) (AllocationBinding.rank_to_node b) m ->
  quiet (ray_report m) /\ quiet (extra_report c (matched_ids m)) <->
  quiet (sessions_report s c) /\
  (node_key <$> alive_nodes c) ≡ₚ (canonical_node_id <$> (AllocationBinding.rank_to_node b).*2) /\
  forall n, n ∈ alive_nodes c -> enough p n.
Proof.
  intros Hev Hb Hmt. destruct (binding_names b Hb) as (_ & Hn & _).
  rewrite (mt_quiet _ _ _ _ Hmt), quiet_extra, (ev_plan p b c Hev).
  pose proof (mt_ids _ _ _ _ Hmt) as Hids. split.
  - intros [[Hs Hall] Hx]. split; [done|].
    exact (members_exact c _ _ _ (ev_node_ids p b c Hev) Hn Hids (conj Hall Hx)).
  - intros (Hs & Hp & Hen). destruct (exact_members c _ _ Hn Hids Hp) as (_ & Hex & Hi).
    split; [|done]. split; [done|]. apply Forall_forall. intros e He.
    destruct (Hex e He) as (n & Hin & Heq). eauto.
Qed.

Lemma quiet_plan_met p b lim (l : Ledger.t B) s c m :
  evidence_ok p b c -> AllocationBinding.post_init b = Ok tt -> Ledger.plan l = p ->
  (forall sc, s = Some sc -> SessionProps.reachable canonical_hash b lim sc) ->
  matched_to c (sessions_report s c) (AllocationBinding.rank_to_node b) m ->
  (quiet (ray_report m) /\ quiet (extra_report c (matched_ids m)) /\
       quiet (joins (rank_component_report c <$> AllocationBinding.ranks b)) /\
       quiet (joins (owned_component_report c <$> OWNED_COMPONENTS)) /\
       quiet (applications_report (planned_applications c) c) /\
       (quiet (joins (proxy_report c <$> sorted_text (expected_proxy_ids c m))) /\
        quiet (unplanned_proxies_report c (expected_proxy_ids c m))) /\
       quiet (receipts_report l) /\ quiet (joins (model_report c <$> DeploymentPlan.models p)) /\
       quiet (endpoint_report c) /\ quiet (joins (route_report c <$> DeploymentPlan.models p)))
  <-> plan_met p b l s c.
Proof.
  intros Hev Hb Hl Hsr Hmt. rewrite <- (Logic.and_assoc (quiet (ray_report m))), (ray_exact p b c s m Hev Hb Hmt).
  rewrite quiet_components, quiet_owned, quiet_applications, quiet_proxies by apply Hev.
  rewrite quiet_receipts, (receipts_exact l p Hl), quiet_models, quiet_endpoint, quiet_routes, quiet_sessions.
  rewrite (ev_plan p b c Hev). pose proof (ev_apps p b c Hev) as Ha.
  pose proof (expected_proxy_ids_spec p b c _ m Hev Hb Hmt) as Hx. split.
  - intros ((Hs & Hm & Hr) & H1 & H2 & H3 & (H4 & H5) & H6 & H7 & (H8 & H9) & H10).
    constructor; try done.
    + intros sc Hsc. destruct (Hs sc Hsc) as [Hn Hg]. split; [done|].
      by eapply sessions_established; [apply Hsr|].
    + by rewrite H3.
    + intros id. by rewrite H4, Hx.
  - intros []. split_and!; try done.
    + intros sc Hsc. destruct (pm_sessions0 sc Hsc) as [Hg Hn]. split; [|done].
      by eapply sessions_established; [apply Hsr|].
    + congruence.
    + intros id. by rewrite pm_proxies0, Hx.
Qed.

Lemma evaluate_spec p b lim (l : Ledger.t B) s c now :
  evidence_ok p b c -> AllocationBinding.post_init b = Ok tt -> representable p ->
  Ledger.plan l = p ->
  (forall sc, s = Some sc -> SessionProps.reachable canonical_hash b lim sc) ->
  exists v, evaluate now l s c = Ok v /\
    (ReadinessVerdict.ready v = true <-> plan_met p b l s c).
Proof.
  intros Hev Hb Hrep Hl Hs.
  destruct (full_report_spec p b l s c Hev Hrep) as (m & r & Hmt & Hf & _ & _ & Hq).
  unfold evaluate. rewrite Hf. eexists. split; [reflexivity|]. cbn [ReadinessVerdict.ready].
  rewrite <- (quiet_plan_met p b lim l s c m Hev Hb Hl Hs Hmt), <- Hq.
  unfold quiet. by destruct (Readiness.blockers r).
Qed.

(** C5: Readiness is a predicate over the plan: on every reachable evidence the
    evaluation returns a verdict, and the verdict is ready exactly when every
    planned session, node, component, application, proxy, receipt, replica,
    gateway, route and canary is there -- nothing observed shrinks or enlarges
    the expectation. *)
Theorem ready_iff_plan_met p b lim (l : Ledger.t B) s c now :
  rreachable (B := B) p b c -> AllocationBinding.post_init b = Ok tt -> representable p ->
  Ledger.plan l = p ->
  (forall sc, s = Some sc -> SessionProps.reachable canonical_hash b lim sc) ->
  exists v, evaluate now l s c = Ok v /\
    (ReadinessVerdict.ready v = true <-> plan_met p b l s c).
Proof.
  intros Hr. by apply evaluate_spec, (rreachable_evidence (B := B)).
Qed.

(** A verdict that is not ready names a missing or an unhealthy identity, and a
    ready verdict names none: blockers and identities never disagree. *)
Theorem identities_explain_blockers p b (l : Ledger.t B) s c now :
  rreachable (B := B) p b c -> representable p ->
  exists v, evaluate now l s c = Ok v /\
    (ReadinessVerdict.ready v = true <->
     ReadinessVerdict.missing_identities v = [] /\ ReadinessVerdict.unhealthy_identities v = []) /\
    (ReadinessVerdict.ready v = true <-> ReadinessVerdict.blockers v = []).
Proof.
  intros Hr Hrep. apply rreachable_evidence in Hr as Hev.
  destruct (full_report_spec p b l s c Hev Hrep) as (m & r & Hmt & Hf & He & _ & _).
  unfold evaluate. rewrite Hf. eexists. split; [reflexivity|]. cbn.
  rewrite !sorted_text_nil. unfold explained, quiet in He. destruct (Readiness.blockers r); naive_solver.
Qed.

(** Evidence never outgrows the plan: whatever is fed in, node and proxy
    projections hold distinct identifiers within 64 of the planned nodes,
    applications within 64 of the planned ones, and the per-rank, per-model and
    per-route tables only planned keys. *)
Theorem evidence_within_plan p b c :
  rreachable (B := B) p b c -> DeploymentPlan.post_init p = Ok tt ->
  exists apps, planned_application_names p = Ok apps /\
    NoDup (Node.node_id <$> nodes c) /\ NoDup (Proxy.node_id <$> proxies c) /\
    Z.of_nat (length (nodes c)) <= DeploymentPlan.num_nodes p + 64 /\
    Z.of_nat (length (proxies c)) <= DeploymentPlan.num_nodes p + 64 /\
    Z.of_nat (size (application_names c)) <= Z.of_nat (size apps) + 64 /\
    (forall rank, is_Some (rank_components c !! rank) -> rank ∈ AllocationBinding.ranks b) /\
    (forall i, is_Some (owned_components c !! i) -> i ∈ OWNED_COMPONENTS) /\
    (forall k, is_Some (routes_ok c !! k) -> k ∈ ModelPlan.route_name <$> DeploymentPlan.models p) /\
    (forall k, is_Some (canary_ok c !! k) \/ is_Some (replicas_running c !! k) ->
       k ∈ ModelPlan.model_id <$> DeploymentPlan.models p).
Proof.
  intros Hr Hp. apply rreachable_evidence in Hr as []. exists (planned_applications c).
  assert (1 <= DeploymentPlan.num_nodes p) as Hn.
  { unfold DeploymentPlan.post_init in Hp. res_inv.
    match goal with H : Forall _ [DeploymentPlan.num_nodes _; _; _; _] |- _ =>
      apply Forall_cons in H as [H _]; unfold plan_raise_if in H; res_inv; bool_prop; done end. }
  unfold cluster_limit, application_limit, UNPLANNED_EVIDENCE_MARGIN in *. rewrite ev_plan0 in *.
  split; [done|]. split; [done|]. split; [done|].
  split; [destruct ev_node_bound0 as [->|]; cbn; lia|].
  split; [destruct ev_proxy_bound0 as [->|]; cbn; lia|]. split; [done|].
  setoid_rewrite <- elem_of_dom. split_and!; intros k; set_solver.
Qed.

(** Losing a session takes readiness away: after a lease poll that reports a rank
    lost, the verdict is not ready and names that rank's session as missing,
    whatever the rest of the evidence says. *)
Theorem lost_session_unreadies p b lim (l : Ledger.t B) sc c clk at_ rank now :
  rreachable (B := B) p b c -> representable p ->
  SessionProps.reachable canonical_hash b lim sc ->
  let '(sc', lost) := SessionCoordinator.poll_leases clk at_ sc in
  rank ∈ lost ->
  exists v, evaluate now l (Some sc') c = Ok v /\ ReadinessVerdict.ready v = false /\
    ("session/rank/" +:+ str_Z rank) ∈ ReadinessVerdict.missing_identities v.
Proof.
  intros Hr Hrep Hsr. destruct (SessionCoordinator.poll_leases clk at_ sc) as [sc' lost] eqn:Hpl.
  intros Hlost. apply rreachable_evidence in Hr as Hev.
  pose proof (reachable_inv _ _ _ _ Hsr) as Hi.
  assert (rank ∈ SessionCoordinator.readiness_revoked_ranks sc') as Hrev.
  { pose proof (poll_leases_inv clk at_ sc Hi) as Hi'. rewrite Hpl in Hi'. cbn in Hi'.
    apply elem_of_revoked; [done|]. injection Hpl as Hsc' <-.
    apply elem_of_ranks_where in Hlost as (x & Hx & He); [|done].
    pose proof (poll_leases_lookup clk at_ sc rank x Hx) as Hx'.
    rewrite He in Hx'. subst sc'. eexists. split; [exact Hx'|]. done. }
  destruct (full_report_spec p b l (Some sc') c Hev Hrep) as (m & r & _ & Hf & He & Hsub & _).
  assert (("session/rank/" +:+ str_Z rank) ∈ missing_ids r) as Hin.
  { apply Hsub. unfold sessions_report. rewrite decide_False.
    - cbn. apply elem_of_union_l, elem_of_map. exists rank. split; [done|].
      by apply elem_of_list_to_set.
    - intros Hnil. apply (not_elem_of_empty (C := gset Z) rank). rewrite <- Hnil.
      by apply elem_of_list_to_set. }
  unfold evaluate. rewrite Hf. eexists. split; [reflexivity|]. cbn.
  split; [|by apply elem_of_sorted_text].
  destruct (Readiness.blockers r) eqn:Hb; [|done]. apply He in Hb as [Hnil _]. set_solver.
Qed.

(** The steps that can enter READY. *)
Lemma enters_ready (o : rop (B := B)) c :
  phase c <> DeploymentPhase.READY -> phase (rexec o c) = DeploymentPhase.READY ->
  exists now l s v, o = RCommitReady now l s /\ evaluate now l s c = Ok v /\
    ReadinessVerdict.ready v = true.
Proof.
  intros Hne.
  assert (forall r, (forall c', r = Ok c' -> phase c' = phase c) ->
            phase (assign r c).1 = phase c) as Ha.
  { intros r Hr. unfold assign. destruct r; cbn; auto. }
  assert (forall X, X = phase c -> X = DeploymentPhase.READY -> False) as Hk by congruence.
  destruct o; cbn [rexec]; try (intros H; exfalso; eapply Hk; [|exact H]; apply Ha; intros c' H';
    unfold readiness_raise_if in H'; res_inv; done).
  - intros H; exfalso. revert H. unfold set_gateway, assign.
    destruct (optional_bool alive _); cbn; [|done]. by destruct (optional_bool healthy _).
  - intros H; exfalso. revert H. unfold set_cluster, assign. repeat case_match; try done.
    all: res_inv; cbn; done.
  - unfold enter_validating. by case_match.
  - unfold commit_ready. destruct (evaluate now l s c) as [v|] eqn:He; [|done].
    destruct (ReadinessVerdict.ready v) eqn:Hv; [|done]. intros _. eexists now, l, s, v. done.
  - unfold revoke, fail. destruct gateway_dead; cbn; [done|]. case_match; cbn; done.
  - done.
Qed.

(** READY is never entered on less than the plan: a step that takes the phase to
    READY is a commit, and at that moment the plan was met by the ledger and the
    sessions it was evaluated against. Afterwards a revocation goes back to
    VALIDATING, a dead gateway and a failure to FAILED. *)
Theorem ready_phase_justified p b lim (o : rop (B := B)) c :
  rreachable (B := B) p b c -> AllocationBinding.post_init b = Ok tt -> representable p ->
  phase c <> DeploymentPhase.READY -> phase (rexec o c) = DeploymentPhase.READY ->
  exists now l s, o = RCommitReady now l s /\
    (Ledger.plan l = p ->
     (forall sc, s = Some sc -> SessionProps.reachable canonical_hash b lim sc) ->
     plan_met p b l s c) /\
    forall reason,
      phase (revoke reason false (rexec o c)).1 = DeploymentPhase.VALIDATING /\
      phase (revoke reason true (rexec o c)).1 = DeploymentPhase.FAILED /\
      phase (fail reason (rexec o c)) = DeploymentPhase.FAILED.
Proof.
  intros Hr Hb Hrep Hne He. destruct (enters_ready o c Hne He) as (now & l & s & v & -> & Hv & Hrd).
  exists now, l, s. split; [done|]. split.
  - intros Hl Hs. destruct (evaluate_spec p b lim l s c now) as (v' & Hv' & Hm); try done.
    { by apply (rreachable_evidence (B := B)). }
    apply Hm. congruence.
  - intros reason. unfold revoke. rewrite He. done.
Qed.

(** FAILED is not terminal for [commit_ready]: after a gateway death has failed
    the coordinator, entering validation is refused, but a commit while the
    evidence still reads ready puts the phase back to READY. *)
Theorem commit_ready_revives_failed p b lim (l : Ledger.t B) s c now reason :
  rreachable (B := B) p b c -> AllocationBinding.post_init b = Ok tt -> representable p ->
  Ledger.plan l = p ->
  (forall sc, s = Some sc -> SessionProps.reachable canonical_hash b lim sc) ->
  plan_met p b l s c ->
  let dead := (revoke reason true c).1 in
  phase dead = DeploymentPhase.FAILED /\ phase (enter_validating dead) = DeploymentPhase.FAILED /\
  phase (commit_ready now l s dead).1 = DeploymentPhase.READY /\
  is_Some (first_failure (commit_ready now l s dead).1).
Proof.
  intros Hr Hb Hrep Hl Hs Hm dead. split; [done|]. split; [done|].
  assert (evidence_ok p b dead) as Hev.
  { apply (rreachable_evidence (B := B)) in Hr. exact (rexec_evidence (B := B) p b (RRevoke reason true) c Hr). }
  destruct (evaluate_spec p b lim l s dead now) as (v & Hv & Hrd); try done.
  unfold commit_ready. rewrite Hv. rewrite (proj2 Hrd).
  - split; [done|]. cbn. unfold first_or. repeat case_match; eauto.
  - destruct Hm. by constructor.
Qed.
End Verdict.

(** ** Witnesses *)

Definition demo_node (id name : string) (cpu gpu : Z) : value :=
  VDict [("node_id", VStr id); ("node_name", VStr name); ("node_address", VStr "10.0.0.1");
         ("alive", VBool true); ("cpu", VInt cpu); ("gpu", VInt gpu)].

(** Evidence that meets the one-node plan, including the proxy anchor. *)
Definition demo_evidence : list (rop (B := Store.t)) :=
  [REnterValidating; RSetEndpoint (VStr "http://head:8000");
   RSetGateway (VBool true) (VBool true); RSetRoute (VStr "m") (VBool true);
   RSetCanary (VStr "m") (VBool true); RSetReplicas (VStr "m") (VInt 1) (VInt 1);
   RSetCluster (VList [demo_node "n0" "NODE0" 8 1])
     (VList [VDict [("node_id", VStr "n0"); ("status", VStr "healthy")]]);
   RSetRank (VInt 0) (VBool true); RSetOwned (VStr "rank_launcher") (VBool true);
   RSetOwned (VStr "deployment") (VBool true);
   RSetApplications (VList [VStr "m"; VStr "_exaserve_proxy_anchor_r0"])].

Definition demo_initial : t :=
  match init demo_node_plan demo_node_binding with
  | Ok c => c
  | Err _ => mk demo_node_plan demo_node_binding ∅ ∅ ∅ ∅ DeploymentPhase.FAILED "" None None
               ∅ ∅ ∅ [] [] ∅ ∅ ∅ None
  end.
Definition demo_readiness : t := rrun demo_evidence demo_initial.

Lemma demo_readiness_reachable :
  rreachable (B := Store.t) demo_node_plan demo_node_binding demo_readiness.
Proof. exists demo_initial, demo_evidence. by split; [vm_compute|]. Qed.

(** A ledger that holds a receipt for every slot. *)
Definition demo_full_ledger : Ledger.t Store.t :=
  Ledger.mk demo_node_plan demo_node_binding demo_profile
    ((fun id => (id, demo_rank_receipt id "role" "component" "i"))
       <$> DeploymentPlan.requirement_ids demo_node_plan) [] [] None.

Definition demo_sessions (tr : list SessionProps.event) : SessionCoordinator.t :=
  SessionProps.run demo_hash tr (SessionCoordinator.init demo_node_binding demo_limits).

Lemma demo_sessions_reachable tr :
  SessionProps.reachable demo_hash demo_node_binding demo_limits (demo_sessions tr).
Proof. by exists tr. Qed.

Lemma demo_sessions_all tr sc : Some (demo_sessions tr) = Some sc ->
  SessionProps.reachable demo_hash demo_node_binding demo_limits sc.
Proof. intros [= <-]. apply demo_sessions_reachable. Qed.

Lemma demo_representable : representable demo_node_plan.
Proof. by split; vm_compute. Qed.

Lemma demo_node_binding_valid : AllocationBinding.post_init demo_node_binding = Ok tt.
Proof. vm_compute. reflexivity. Qed.

Definition demo_now : float := Float.of_Z 50.
Definition demo_verdict : readiness_result ReadinessVerdict.t :=
  evaluate demo_now demo_full_ledger (Some (demo_sessions demo_started)) demo_readiness.

Example demo_verdict_ready : ReadinessVerdict.ready <$> demo_verdict = Ok true.
Proof. vm_compute. reflexivity. Qed.

Lemma demo_verdict_of v : demo_verdict = Ok v -> ReadinessVerdict.ready v = true.
Proof. intros Hv. pose proof demo_verdict_ready as H. rewrite Hv in H. cbn in H. congruence. Qed.

Lemma demo_plan_met :
  plan_met demo_node_plan demo_node_binding demo_full_ledger (Some (demo_sessions demo_started))
    demo_readiness.
Proof.
  destruct (evaluate_spec demo_hash demo_node_plan demo_node_binding demo_limits demo_full_ledger
              (Some (demo_sessions demo_started)) demo_readiness demo_now) as (v & Hv & Hm).
  - apply (rreachable_evidence (B := Store.t)), demo_readiness_reachable.
  - apply demo_node_binding_valid.
  - apply demo_representable.
  - done.
  - apply demo_sessions_all.
  - exact (proj1 Hm (demo_verdict_of v Hv)).
Qed.

Lemma ready_iff_plan_met_witness :
  exists v, demo_verdict = Ok v /\ ReadinessVerdict.ready v = true /\
    plan_met demo_node_plan demo_node_binding demo_full_ledger (Some (demo_sessions demo_started))
      demo_readiness.
Proof.
  destruct (ready_iff_plan_met demo_hash demo_node_plan demo_node_binding demo_limits demo_full_ledger
              (Some (demo_sessions demo_started)) demo_readiness demo_now
              demo_readiness_reachable demo_node_binding_valid demo_representable eq_refl
              (demo_sessions_all _)) as (v & Hv & Hm).
  pose proof (demo_verdict_of v Hv) as Hr. exists v. split; [exact Hv|]. split; [exact Hr|]. exact (proj1 Hm Hr).
Defined.

Lemma identities_explain_blockers_witness :
  exists v, evaluate demo_now demo_empty None demo_readiness = Ok v /\
    ReadinessVerdict.ready v = false /\ ReadinessVerdict.blockers v <> [].
Proof.
  destruct (identities_explain_blockers demo_node_plan demo_node_binding demo_empty None demo_readiness
              demo_now demo_readiness_reachable demo_representable) as (v & Hv & _ & Hb).
  exists v. split; [exact Hv|].
  assert (ReadinessVerdict.ready v = false) as Hr.
  { assert (ReadinessVerdict.ready <$> evaluate demo_now demo_empty None demo_readiness = Ok false) as H
      by (vm_compute; reflexivity). rewrite Hv in H. by injection H. }
  split; [exact Hr|]. intros Hn. apply Hb in Hn. congruence.
Defined.

Lemma evidence_within_plan_witness :
  Z.of_nat (length (nodes demo_readiness)) <= 65 /\ 0 ∈ AllocationBinding.ranks demo_node_binding.
Proof.
  destruct (evidence_within_plan demo_node_plan demo_node_binding demo_readiness
              demo_readiness_reachable demo_node_plan_valid)
    as (apps & _ & _ & _ & Hn & _ & _ & Hr & _).
  split; [exact Hn|]. apply Hr. eexists. vm_compute. reflexivity.
Defined.

Lemma lost_session_unreadies_witness :
  exists v, evaluate demo_now demo_full_ledger
      (Some (SessionCoordinator.poll_leases (at_s 40) None (demo_sessions demo_started)).1) demo_readiness
    = Ok v /\ ReadinessVerdict.ready v = false.
Proof.
  pose proof (lost_session_unreadies demo_hash demo_node_plan demo_node_binding demo_limits
    demo_full_ledger (demo_sessions demo_started) demo_readiness (at_s 40) None 0 demo_now
    demo_readiness_reachable demo_representable (demo_sessions_reachable _)) as H.
  destruct (SessionCoordinator.poll_leases _ _ _) as [sc' lost] eqn:Hp.
  destruct H as (v & Hv & Hr & _).
  { change lost with (sc', lost).2. rewrite <- Hp. vm_compute. left. }
  exists v. split; [exact Hv|exact Hr].
Defined.

Lemma ready_phase_justified_witness :
  let o := RCommitReady demo_now demo_full_ledger (Some (demo_sessions demo_started)) in
  phase (rexec o demo_readiness) = DeploymentPhase.READY /\
  phase (revoke "canary lost" false (rexec o demo_readiness)).1 = DeploymentPhase.VALIDATING.
Proof.
  intros o. assert (phase (rexec o demo_readiness) = DeploymentPhase.READY) as He
    by (vm_compute; reflexivity).
  split; [exact He|].
  destruct (ready_phase_justified demo_hash demo_node_plan demo_node_binding demo_limits o demo_readiness
              demo_readiness_reachable demo_node_binding_valid demo_representable) as (? & ? & ? & _ & _ & H);
    [vm_compute; discriminate|exact He|]. exact (proj1 (H "canary lost")).
Defined.

Lemma commit_ready_revives_failed_witness :
  phase (commit_ready demo_now demo_full_ledger (Some (demo_sessions demo_started))
           (revoke "gateway process exited" true demo_readiness).1).1 = DeploymentPhase.READY.
Proof.
  destruct (commit_ready_revives_failed demo_hash demo_node_plan demo_node_binding demo_limits
              demo_full_ledger (Some (demo_sessions demo_started)) demo_readiness demo_now
              "gateway process exited" demo_readiness_reachable demo_node_binding_valid
              demo_representable eq_refl (demo_sessions_all _) demo_plan_met) as (_ & _ & H & _).
  exact H.
Defined.
