(* ===== verification/Supervisor.v ===== *)
(** Managed components and the runtime supervisor
    (src/exaserve/control/supervisor.py).

    The operating system is an argument: what [Popen], [poll], [killpg] and the
    callbacks do in one call is an environment record. The waiting loops of
    [stop] are represented by what is left when they end (whether the process
    group still has members at the deadline). [dict] of components keeps its
    insertion order, and a component object shared between the dict and the list
    of started components is one entry addressed by its id. Exceptions that are
    not [Exception] (keyboard interrupts) and the timestamp of a cause are left
    out; the output capture enters through its failure and its join only. The
    texts of the supervisor's own messages are abbreviated. *)

From S2P Require Import Prelude.
From S2P Require Import PyValue.
From S2P Require Import Contracts.

Module ComponentState.
Inductive t : Set := NEW | STARTING | RUNNING | READY | STOPPING | STOPPED | FAILED | UNKNOWN.

#[global] Instance eq_dec : EqDecision t.
Proof. solve_decision. Defined.
End ComponentState.

(** [SupervisorError], [ValueError], or an exception of a callback or of the
    operating system; [text] is [str(exc)]. *)
Inductive sup_error : Type :=
| SupervisorError (text : string)
| SupValueError (text : string)
| OtherError (kind text : string).

Definition exc_kind (e : sup_error) : string :=
  match e with
  | SupervisorError _ => "SupervisorError"
  | SupValueError _ => "ValueError"
  | OtherError kind _ => kind
  end.

Definition exc_text (e : sup_error) : string :=
  match e with SupervisorError s | SupValueError s | OtherError _ s => s end.

Abbreviation sup_result := (result sup_error).

Definition sup_raise_if (b : bool) (text : string) : sup_result unit := raise_if b (SupValueError text).

(** ** One supervised child *)

Module ManagedComponent.
Record t := mk {
  component_id : string;
  argv : list string;
  owner_scope : string;
  owner_rank : option Z;
  long_lived : bool;
  env : option (list (string * string));
  cwd : option string;
  has_stdout : bool;
  has_result_check : bool;
  has_on_unexpected_exit : bool;
  pass_fds : list Z;
  has_output_capture : bool;
  process : option Z;
  state : ComponentState.t;
  stopping : bool;
  pgid : option Z;
}.

Definition with_run (p : option Z) (g : option Z) (m : t) : t :=
  mk (component_id m) (argv m) (owner_scope m) (owner_rank m) (long_lived m) (env m) (cwd m)
     (has_stdout m) (has_result_check m) (has_on_unexpected_exit m) (pass_fds m)
     (has_output_capture m) p (state m) (stopping m) g.
Definition with_state (s : ComponentState.t) (m : t) : t :=
  mk (component_id m) (argv m) (owner_scope m) (owner_rank m) (long_lived m) (env m) (cwd m)
     (has_stdout m) (has_result_check m) (has_on_unexpected_exit m) (pass_fds m)
     (has_output_capture m) (process m) s (stopping m) (pgid m).
Definition with_stopping (b : bool) (m : t) : t :=
  mk (component_id m) (argv m) (owner_scope m) (owner_rank m) (long_lived m) (env m) (cwd m)
     (has_stdout m) (has_result_check m) (has_on_unexpected_exit m) (pass_fds m)
     (has_output_capture m) (process m) (state m) b (pgid m).

Definition has_nul (s : string) : bool := contains (String (Ascii.ascii_of_nat 0) EmptyString) s.

(** [_validate_contract] on fields that have their declared types. *)
Definition validate_contract (m : t) : sup_result unit :=
  _ ← sup_raise_if (negb (nonempty (component_id m))) "managed component_id must be non-empty text";
  _ ← sup_raise_if
        (bool_decide (argv m = []) || existsb (fun a => negb (nonempty a) || has_nul a) (argv m))
        "managed component argv must contain non-empty string arguments";
  _ ← sup_raise_if (negb (bool_decide (owner_scope m ∈ ["GLOBAL"; "RANK"])))
        "managed component owner_scope must be GLOBAL or RANK";
  _ ← (if bool_decide (owner_scope m = "GLOBAL")
       then sup_raise_if (negb (bool_decide (owner_rank m = None)))
              "GLOBAL managed component owner_rank must be null"
       else sup_raise_if (from_option (fun r => r <? 0) true (owner_rank m))
              "RANK managed component owner_rank must be non-negative");
  _ ← sup_raise_if
        (existsb (fun kv => negb (nonempty kv.1) || has_nul kv.1 || has_nul kv.2)
           (default [] (env m)))
        "managed component env must be a string mapping without NUL";
  _ ← sup_raise_if (from_option (fun d => negb (nonempty d) || has_nul d) false (cwd m))
        "managed component cwd must be a non-empty path";
  _ ← sup_raise_if (existsb (fun fd => fd <? 0) (pass_fds m))
        "managed component pass_fds must contain non-negative integers";
  sup_raise_if (negb (no_dups (pass_fds m))) "managed component pass_fds must be unique".

(** What [observe] sees of the child. *)
Record sighting := Sighting {
  exit_code : option Z;
  group_has_members : bool;
  capture_failed : bool;
}.

Definition observe (o : sighting) (m : t) : t * (ComponentState.t * option Z) :=
  match process m with
  | None => (m, (state m, None))
  | Some _ =>
      if has_output_capture m && capture_failed o
      then (with_state ComponentState.FAILED m, (ComponentState.FAILED, exit_code o))
      else
        match exit_code o with
        | None => (m, (state m, None))
        | Some code =>
            if negb (stopping m) && group_has_members o
            then (with_state ComponentState.FAILED m, (ComponentState.FAILED, Some code))
            else
              let s := if stopping m then ComponentState.STOPPED
                       else if negb (long_lived m) && (code =? 0) then ComponentState.STOPPED
                       else ComponentState.FAILED in
              (with_state s m, (s, Some code))
        end
  end.

(** What one call of [stop] meets: whether the direct child is still alive,
    whether the group keeps members past the deadline, how the output drain
    ends, and the exception of [on_stopped]. *)
Record stop_env := StopEnv {
  child_alive : bool;
  retained : bool;
  drain_stuck : bool;
  drain_failure : option string;
  on_stopped : option sup_error;
}.

Definition stop (deadline : option float) (e : stop_env) (m0 : t) : t * sup_result unit :=
  let m := with_stopping true m0 in
  if from_option (fun d => negb (Float.is_finite d)) false deadline
  then (m, Err (SupValueError "component cleanup deadline must be finite"))
  else
    match process m with
    | None => (with_state ComponentState.STOPPED m, Ok tt)
    | Some _ =>
        let m := if child_alive e then with_state ComponentState.STOPPING m else m in
        if retained e
        then (with_state ComponentState.FAILED m,
              Err (SupervisorError "component retained process-group members after cleanup deadline"))
        else
          let m := with_state ComponentState.STOPPED m in
          if has_output_capture m && drain_stuck e
          then (with_state ComponentState.FAILED m,
                Err (SupervisorError "component output drain did not stop by cleanup deadline"))
          else if has_output_capture m && bool_decide (is_Some (drain_failure e))
          then (with_state ComponentState.FAILED m,
                Err (SupervisorError "component output drain failed"))
          else (m, match on_stopped e with Some x => Err x | None => Ok tt end)
    end.

(** What one call of [start] meets: the exception of [on_starting], the child of
    [Popen] or its [OSError] or [ValueError], the group the kernel reports, the
    exception of the capture or of [on_started], and the rollback's stop. *)
Record spawn_env := SpawnEnv {
  on_starting : option sup_error;
  popen : sup_result Z;
  getpgid : option Z;
  post_spawn : option sup_error;
  rollback : stop_env;
}.

Definition bad_deadline (d : float) : bool := negb (Float.is_finite d) || Float.ltb d Float.zero.

Definition start (rollback_deadline : option float) (e : spawn_env) (m : t)
    : t * sup_result (Z * Z) :=
  match validate_contract m with
  | Err x => (m, Err x)
  | Ok _ =>
      match process m with
      | Some _ => (m, Err (SupervisorError "component has already been started"))
      | None =>
          if from_option bad_deadline false rollback_deadline
          then (m, Err (SupValueError "component rollback deadline must be finite and nonnegative"))
          else
            let m := with_state ComponentState.STARTING m in
            if has_output_capture m && has_stdout m
            then (with_state ComponentState.FAILED m,
                  Err (SupValueError "stdout and output_capture are mutually exclusive"))
            else
              match on_starting e with
              | Some x => (with_state ComponentState.FAILED m, Err x)
              | None =>
                  match popen e with
                  | Err x => (with_state ComponentState.FAILED m, Err x)
                  | Ok pid =>
                      let group := default pid (getpgid e) in
                      let m := with_run (Some pid) (Some group) m in
                      match post_spawn e with
                      | Some x =>
                          (with_state ComponentState.FAILED (stop rollback_deadline (rollback e) m).1, Err x)
                      | None => (with_state ComponentState.RUNNING m, Ok (pid, group))
                      end
                  end
              end
      end
  end.
End ManagedComponent.

(** ** The supervisor *)

Module FirstCause.
Record t := mk {
  component_id : string;
  reason_code : string;
  detail : string;
  exit_code : option Z;
}.

Definition post_init (c : t) : sup_result unit :=
  for_each (fun s => sup_raise_if (negb (nonempty s)) "failure cause must be non-empty text")
    [component_id c; reason_code c; detail c].
End FirstCause.

Module RuntimeSupervisor.
Import ManagedComponent.
Record t := mk {
  components : list (string * ManagedComponent.t);
  first_cause : option FirstCause.t;
  secondary_causes : list FirstCause.t;
  shutdown_requested : bool;
}.

(** [RuntimeSupervisor(poll_interval_s=s)] *)
Definition init (poll_interval_s : float) : sup_result t :=
  _ ← sup_raise_if (negb (Float.is_finite poll_interval_s) || Float.leb poll_interval_s Float.zero)
        "supervisor poll interval must be finite and positive";
  Ok (mk [] None [] false).

(** The entry of the dict is the component object: it is updated in place. *)
Definition put (m : ManagedComponent.t) (k : string) (s : t) : t :=
  mk (dset k m (components s)) (first_cause s) (secondary_causes s) (shutdown_requested s).

Definition register (m : ManagedComponent.t) (s : t) : t * sup_result unit :=
  match validate_contract m with
  | Err x => (s, Err x)
  | Ok _ =>
      match dget (ManagedComponent.component_id m) (components s) with
      | Some _ => (s, Err (SupervisorError "duplicate component"))
      | None => (put m (ManagedComponent.component_id m) s, Ok tt)
      end
  end.

Definition record_cause (component_id reason_code detail : string) (exit_code : option Z) (s : t)
    : t * sup_result unit :=
  let cause := FirstCause.mk component_id reason_code detail exit_code in
  match FirstCause.post_init cause with
  | Err x => (s, Err x)
  | Ok _ =>
      (match first_cause s with
       | None => mk (components s) (Some cause) (secondary_causes s) (shutdown_requested s)
       | Some _ => mk (components s) (first_cause s) (secondary_causes s ++ [cause])
                      (shutdown_requested s)
       end, Ok tt)
  end.

Definition request_shutdown (reason : string) (s : t) : t * sup_result unit :=
  record_cause "supervisor" "SHUTDOWN_REQUESTED" reason None
    (mk (components s) (first_cause s) (secondary_causes s) true).

(** *** Cleanup loops *)

(** [for item in items: try: item.stop(...) except Exception as exc: record_cause],
    with the detail recorded for an exception; the flag says that every stop
    returned. An exception of [record_cause] leaves the loop. *)
Fixpoint stop_each (reason_code : string) (detail_of : sup_error -> string) (deadline : option float)
    (world : string -> stop_env) (ids : list string) (clean : bool) (s : t)
    : t * sup_result bool :=
  match ids with
  | [] => (s, Ok clean)
  | k :: ids' =>
      match dget k (components s) with
      | None => stop_each reason_code detail_of deadline world ids' clean s
      | Some m =>
          let '(m', r) := stop deadline (world k) m in
          let s := put m' k s in
          match r with
          | Ok _ => stop_each reason_code detail_of deadline world ids' clean s
          | Err x =>
              match record_cause (ManagedComponent.component_id m') reason_code (detail_of x) None s with
              | (s, Err y) => (s, Err y)
              | (s, Ok _) => stop_each reason_code detail_of deadline world ids' false s
              end
          end
      end
  end.

Definition typed_text (x : sup_error) : string := exc_kind x +:+ ": " +:+ exc_text x.

(** *** Startup *)

(** The [for] loop of [start_all]: it ends with the ids on which [start] was
    called, the last deadline armed, and the exception that stopped it. *)
Fixpoint start_each (rollback_s : float) (clock : string -> float) (world : string -> spawn_env)
    (ids started : list string) (deadline : option float) (s : t)
    : t * (list string * option float * option sup_error) :=
  match ids with
  | [] => (s, (started, deadline, None))
  | k :: ids' =>
      match dget k (components s) with
      | None => start_each rollback_s clock world ids' started deadline s
      | Some m =>
          let deadline := Some (Float.add (clock k) rollback_s) in
          let started := started ++ [k] in
          let '(m', r) := start deadline (world k) m in
          let s := put m' k s in
          match r with
          | Ok _ => start_each rollback_s clock world ids' started deadline s
          | Err x => (s, (started, deadline, Some x))
          end
      end
  end.

(** The component blamed for a failed startup. *)
Definition failed_component (s : t) : string :=
  match filter (fun kv => ManagedComponent.state kv.2 = ComponentState.FAILED) (components s) with
  | kv :: _ => ManagedComponent.component_id kv.2
  | [] => "startup"
  end.

Definition start_all (handlers_ok : bool) (rollback_s : float) (clock : string -> float)
    (spawns : string -> spawn_env) (stops : string -> stop_env) (s : t) : t * sup_result unit :=
  if bad_deadline rollback_s
  then (s, Err (SupValueError "startup rollback budget must be finite and nonnegative"))
  else if negb handlers_ok
  then (s, Err (SupervisorError "signal handlers must be installed from the main thread before launch"))
  else
    match start_each rollback_s clock spawns (dkeys (components s)) [] None s with
    | (s, (_, _, None)) => (s, Ok tt)
    | (s, (started, deadline, Some x)) =>
        match record_cause (failed_component s) "START_FAILED" (exc_text x) None s with
        | (s, Err y) => (s, Err y)
        | (s, Ok _) =>
            match stop_each "START_ROLLBACK_FAILED" typed_text deadline stops (rev started) true s with
            | (s, Err y) => (s, Err y)
            | (s, Ok _) => (s, Err (SupervisorError "component startup transaction failed"))
            end
        end
    end.

(** *** Polling *)

(** What one poll meets: what each child shows, the result of [result_check] and
    of [on_unexpected_exit]. *)
Record poll_env := PollEnv {
  sees : string -> sighting;
  checks : string -> bool * string;
  captures : string -> sup_result string;
}.

Definition exit_detail (e : poll_env) (k : string) (m : ManagedComponent.t) : string :=
  let plain := ManagedComponent.component_id m +:+ " exited unexpectedly" in
  if has_on_unexpected_exit m then
    match captures e k with
    | Ok captured => if nonempty captured then captured else plain
    | Err x => plain +:+ "; failure-evidence capture failed: " +:+ exc_text x
    end
  else plain.

Definition recorded (p : t * sup_result unit) : t * sup_result (option FirstCause.t) :=
  match p with
  | (s, Err x) => (s, Err x)
  | (s, Ok _) => (s, Ok (first_cause s))
  end.

Fixpoint poll_each (e : poll_env) (ids : list string) (s : t) : t * sup_result (option FirstCause.t) :=
  match ids with
  | [] => (s, Ok None)
  | k :: ids' =>
      match dget k (components s) with
      | None => poll_each e ids' s
      | Some m =>
          let '(m', (st, code)) := observe (sees e k) m in
          let s := put m' k s in
          if bool_decide (st = ComponentState.FAILED)
          then recorded (record_cause (ManagedComponent.component_id m') "UNEXPECTED_EXIT"
                           (exit_detail e k m') code s)
          else if bool_decide (st = ComponentState.STOPPED) && negb (long_lived m')
                  && has_result_check m' && negb (checks e k).1
          then recorded (record_cause (ManagedComponent.component_id m') "INVALID_RESULT"
                           (checks e k).2 code s)
          else poll_each e ids' s
      end
  end.

Definition poll_once (e : poll_env) (s : t) : t * sup_result (option FirstCause.t) :=
  poll_each e (dkeys (components s)) s.

(** *** Shutdown and exit code *)

(** [deadline] is the resolved absolute deadline: the one given, or the clock plus
    [max(0, drain_s)]. *)
Definition shutdown (deadline : float) (world : string -> stop_env) (s : t) : t * sup_result bool :=
  if negb (Float.is_finite deadline)
  then (s, Err (SupValueError "supervisor cleanup deadline must be finite numeric"))
  else
    match stop_each "CLEANUP_ERROR" exc_text (Some deadline) world (rev (dkeys (components s))) true s with
    | (s, Err x) => (s, Err x)
    | (s, Ok clean) =>
        (s, Ok (clean && forallb (fun kv => bool_decide
                  (ManagedComponent.state kv.2 = ComponentState.STOPPED)) (components s)))
    end.

Definition exit_code (s : t) : Z :=
  match first_cause s with
  | None => 0
  | Some c =>
      if bool_decide (FirstCause.reason_code c = "SHUTDOWN_REQUESTED") then 143
      else
        match FirstCause.exit_code c with
        | None => 1
        | Some native =>
            if native =? 0 then 1 else if native <? 0 then 128 + Z.abs native else native
        end
  end.
End RuntimeSupervisor.
