(* ===== verification/SupervisorProps.v ===== *)
(** Theorems on the supervisor (Supervisor.v): startup is a transaction, shutdown
    reaches every component, an unexpected exit is always detected, the first
    cause survives -- and how an exception without a message breaks the cleanup
    loops. *)

From S2P Require Import Prelude.
From S2P Require Import PyValue.
From S2P Require Import Contracts.
From S2P Require Import Receipts.
From S2P Require Import Bindings.
From S2P Require Import BindingsProps.
From S2P Require Import Ledger.
From S2P Require Import LedgerProps.
From S2P Require Import Supervisor.
Import RuntimeSupervisor.
Import ManagedComponent.

(** ** Components *)

Lemma observe_id o m : ManagedComponent.component_id (observe o m).1 = ManagedComponent.component_id m.
Proof. unfold observe. repeat case_match; done. Qed.

Lemma stop_id d e m : ManagedComponent.component_id (stop d e m).1 = ManagedComponent.component_id m.
Proof. unfold stop. repeat case_match; done. Qed.

Lemma stop_stopping d e m : stopping (stop d e m).1 = true.
Proof. unfold stop. repeat case_match; done. Qed.

Lemma stop_Ok d e m : (stop d e m).2 = Ok tt -> state (stop d e m).1 = ComponentState.STOPPED.
Proof. unfold stop. repeat case_match; done. Qed.

Lemma start_id d e m : ManagedComponent.component_id (start d e m).1 = ManagedComponent.component_id m.
Proof. unfold start. repeat case_match; try done. cbn. by rewrite stop_id. Qed.

Lemma start_Ok d e m x : (start d e m).2 = Ok x ->
  state (start d e m).1 = ComponentState.RUNNING /\ is_Some (process (start d e m).1).
Proof. unfold start. repeat case_match; cbn; by eauto. Qed.

(** Every exception of a spawn carries a message. *)
Definition spawn_speaks (e : spawn_env) : Prop :=
  (forall x, on_starting e = Some x -> nonempty (exc_text x) = true) /\
  (forall x, popen e = Err x -> nonempty (exc_text x) = true) /\
  (forall x, post_spawn e = Some x -> nonempty (exc_text x) = true).

Definition stop_speaks (e : stop_env) : Prop :=
  forall x, on_stopped e = Some x -> nonempty (exc_text x) = true.

Lemma validate_speaks m x : validate_contract m = Err x -> nonempty (exc_text x) = true.
Proof.
  unfold validate_contract, sup_raise_if. intros H.
  repeat match goal with
  | H : (_ ≫= _) = Err _ |- _ => apply bind_Err in H as [H|(? & _ & H)]
  | H : raise_if _ _ = Err _ |- _ => apply raise_if_Err in H as [_ <-]; reflexivity
  | H : (if ?b then _ else _) = Err _ |- _ => destruct b
  end.
Qed.

Lemma start_speaks d e m x :
  spawn_speaks e -> (start d e m).2 = Err x -> nonempty (exc_text x) = true.
Proof.
  intros (H1 & H2 & H3). unfold start.
  destruct (validate_contract m) as [|y] eqn:Hv; cbn; [|intros [= <-]; by eapply validate_speaks].
  repeat case_match; cbn; try done; intros [= <-]; eauto.
Qed.

Lemma stop_Err_speaks d e m x :
  stop_speaks e -> (stop d e m).2 = Err x -> nonempty (exc_text x) = true.
Proof. intros H. unfold stop. repeat case_match; cbn; try done; intros [= <-]; eauto. Qed.

Lemma typed_text_nonempty x : nonempty (typed_text x) = true.
Proof.
  unfold typed_text, nonempty. apply negb_true_iff, bool_decide_eq_false.
  destruct (exc_kind x); cbn; done.
Qed.

(** ** The registry *)

(** Keys are distinct and are the non-empty ids of their components. *)
Record registry_ok (s : RuntimeSupervisor.t) : Prop := {
  reg_keys : NoDup (dkeys (components s));
  reg_ids : forall k m, dget k (components s) = Some m ->
    ManagedComponent.component_id m = k /\ nonempty k = true;
}.

Definition causes (s : RuntimeSupervisor.t) : list FirstCause.t :=
  option_list (first_cause s) ++ secondary_causes s.

(** Later states: the keys stay, the causes only grow and the first one stays. *)
Record grows (s s' : RuntimeSupervisor.t) : Prop := {
  gr_keys : dkeys (components s') = dkeys (components s);
  gr_first : forall c, first_cause s = Some c -> first_cause s' = Some c;
  gr_causes : forall c, c ∈ causes s -> c ∈ causes s';
}.

Lemma grows_refl s : grows s s.
Proof. by split. Qed.

Lemma grows_trans s1 s2 s3 : grows s1 s2 -> grows s2 s3 -> grows s1 s3.
Proof. intros [] []. split; [congruence|auto|auto]. Qed.

Lemma dkeys_dset_in {A} k (v : A) d : k ∈ dkeys d -> dkeys (dset k v d) = dkeys d.
Proof.
  unfold dkeys. induction d as [|[k' v'] d IH]; cbn; [by intros ?%not_elem_of_nil|].
  destruct (decide (k' = k)); cbn; [done|]. rewrite elem_of_cons. intros [->|Hin]; [done|]. by rewrite IH.
Qed.

Lemma dget_in {A} k (m : A) d : dget k d = Some m -> k ∈ dkeys d.
Proof. intros H. apply dget_is_Some. eauto. Qed.

Lemma put_ok s k m m' :
  registry_ok s -> dget k (components s) = Some m ->
  ManagedComponent.component_id m' = ManagedComponent.component_id m ->
  registry_ok (put m' k s) /\ grows s (put m' k s).
Proof.
  intros [Hk Hi] Hm Hid. apply dget_in in Hm as Hin.
  assert (dkeys (components (put m' k s)) = dkeys (components s)) as Hd by by apply dkeys_dset_in.
  split; split; try done.
  - by rewrite Hd.
  - intros k' m''. cbn. rewrite dget_dset. case_match; [|by apply Hi].
    intros [= <-]. subst. rewrite Hid. by apply Hi.
Qed.

Lemma record_cause_ok k rc detail code s :
  registry_ok s -> nonempty k = true -> nonempty rc = true -> nonempty detail = true ->
  exists s', record_cause k rc detail code s = (s', Ok tt) /\ registry_ok s' /\ grows s s' /\
    components s' = components s /\ is_Some (first_cause s') /\
    FirstCause.mk k rc detail code ∈ causes s'.
Proof.
  intros Hok Hk Hrc Hd. unfold record_cause, FirstCause.post_init, sup_raise_if. cbn.
  rewrite Hk, Hrc, Hd. cbn. eexists. split; [reflexivity|]. destruct Hok as [Hnd Hi].
  destruct (first_cause s) as [c|] eqn:Hf.
  - split; [by split|]. split; [split; cbn; [done|intros; congruence|]|].
    + intros c'. unfold causes. cbn. rewrite Hf; cbn; rewrite !elem_of_cons, elem_of_app; tauto.
    + split; [done|]. split; [cbn; eauto|]. unfold causes. cbn. rewrite elem_of_cons, elem_of_app, list_elem_of_singleton; tauto.
  - split; [by split|]. split; [split; cbn; [done|intros; congruence|]|].
    + intros c'. unfold causes. cbn. rewrite Hf. cbn. rewrite !elem_of_cons. tauto.
    + split; [done|]. split; [cbn; eauto|]. unfold causes. cbn. rewrite !elem_of_cons. tauto.
Qed.

(** ** Cleanup loops *)

(** The outcome of stopping [ids]: every one of them was stopped, or its failure
    is on record; the others were not touched. *)
Record stopped (rc : string) (d : option float) (world : string -> stop_env) (ids : list string)
    (s s' : RuntimeSupervisor.t) : Prop := {
  st_ok : registry_ok s';
  st_grows : grows s s';
  st_others : forall k, k ∉ ids -> dget k (components s') = dget k (components s);
  st_each : forall k m, k ∈ ids -> dget k (components s) = Some m ->
    dget k (components s') = Some (stop d (world k) m).1 /\
    ((stop d (world k) m).2 = Ok tt \/
     exists c, c ∈ causes s' /\ FirstCause.component_id c = k /\ FirstCause.reason_code c = rc);
}.

Lemma stopped_step rc d world k ids s s1 s' m :
  k ∉ ids -> dget k (components s) = Some m ->
  components s1 = components (put (stop d (world k) m).1 k s) -> grows s s1 ->
  ((stop d (world k) m).2 = Ok tt \/
     exists c, c ∈ causes s1 /\ FirstCause.component_id c = k /\ FirstCause.reason_code c = rc) ->
  stopped rc d world ids s1 s' -> stopped rc d world (k :: ids) s s'.
Proof.
  intros Hni Hm Hc Hg Hs [H1 H2 H3 H4]. split; [done|by eapply grows_trans| |].
  - intros k' [Hne Hni']%not_elem_of_cons. rewrite H3 by done. rewrite Hc. cbn.
    by rewrite dget_dset_ne.
  - intros k' m' Hin Hm'. apply elem_of_cons in Hin. destruct (decide (k' = k)) as [->|Hne].
    + assert (m' = m) as -> by congruence. rewrite H3, Hc by done. cbn. rewrite dget_dset_eq.
      split; [done|]. destruct Hs as [|(c & ? & ? & ?)]; [by left|]. right. exists c. split; [|done].
      by apply H2.
    + apply H4; [naive_solver|]. rewrite Hc. cbn. by rewrite dget_dset_ne.
Qed.

Lemma stop_each_spec rc detail d world ids clean s :
  registry_ok s -> nonempty rc = true -> NoDup ids ->
  (forall k m x, k ∈ ids -> dget k (components s) = Some m ->
     (stop d (world k) m).2 = Err x -> nonempty (detail x) = true) ->
  (forall k, k ∈ ids -> k ∈ dkeys (components s)) ->
  exists s' clean', stop_each rc detail d world ids clean s = (s', Ok clean') /\
    stopped rc d world ids s s' /\
    (clean' = true <-> clean = true /\ forall k m, k ∈ ids -> dget k (components s) = Some m ->
       (stop d (world k) m).2 = Ok tt).
Proof.
  intros Hok Hrc. revert clean s Hok.
  induction ids as [|k ids IH]; intros clean s Hok Hnd Htext Hin; cbn [stop_each].
  { exists s, clean. split; [done|]. split; [split; [done|apply grows_refl|done|]|].
    - by intros k m ?%not_elem_of_nil.
    - split; [|tauto]. intros ->. split; [done|]. by intros k m ?%not_elem_of_nil. }
  apply NoDup_cons in Hnd as [Hni Hnd].
  destruct (proj2 (dget_is_Some k (components s))) as [m Hm]; [apply Hin; by left|]. rewrite Hm.
  destruct (stop d (world k) m) as [m' r] eqn:Hst.
  assert (m' = (stop d (world k) m).1 /\ r = (stop d (world k) m).2) as [Hm' Hr] by by rewrite Hst.
  destruct (put_ok s k m m' Hok Hm) as [Hok1 Hg1]; [by rewrite Hm', stop_id|].
  assert (forall s1, components s1 = components (put m' k s) -> registry_ok s1 -> forall clean',
    (exists s' c', stop_each rc detail d world ids clean' s1 = (s', Ok c') /\
       stopped rc d world ids s1 s' /\
       (c' = true <-> clean' = true /\ forall k m, k ∈ ids -> dget k (components s) = Some m ->
          (stop d (world k) m).2 = Ok tt))) as Hrec.
  { intros s1 Hc Hok' clean'.
    assert (forall k', k' ∈ ids -> dget k' (components s1) = dget k' (components s)) as Hsame.
    { intros k' Hk'. rewrite Hc. cbn. rewrite dget_dset_ne; [done|]. by intros ->. }
    destruct (IH clean' s1 Hok' Hnd) as (s' & c' & H1 & H2 & H3).
    - intros k' m'' x Hk'. rewrite Hsame by done. apply Htext. by right.
    - intros k' Hk'. apply dget_is_Some. rewrite Hsame by done. apply dget_is_Some, Hin. by right.
    - exists s', c'. split; [done|]. split; [done|]. rewrite H3. apply and_iff_compat_l.
      split; intros Hall k' m'' Hk' Hd; (apply Hall; [done|]); by rewrite <- Hd, Hsame || rewrite Hsame. }
  destruct r as [[]|x].
  - destruct (Hrec _ eq_refl Hok1 clean) as (s' & c' & H1 & H2 & H3). exists s', c'. split; [done|]. split.
    + eapply stopped_step; [exact Hni|exact Hm|by rewrite <- Hm'|exact Hg1|by left|exact H2].
    + rewrite H3. apply and_iff_compat_l. setoid_rewrite elem_of_cons. naive_solver.
  - destruct (record_cause_ok k rc (detail x) None (put m' k s) Hok1) as (s1 & Hrc1 & Hok2 & Hg2 & Hc2 & _ & Hin2).
    { by apply (reg_ids s Hok k m). } { done. } { eapply Htext; [by left|exact Hm|by rewrite <- Hr]. }
    assert (ManagedComponent.component_id m' = k) as ->.
    { rewrite Hm', stop_id. by apply (reg_ids s Hok k m). }
    rewrite Hrc1. destruct (Hrec s1 Hc2 Hok2 false) as (s' & c' & H1 & H2 & H3). exists s', c'.
    split; [done|]. split.
    + eapply stopped_step; [exact Hni|exact Hm|by rewrite <- Hm'|by eapply grows_trans| |exact H2].
      right. eexists. split; [exact Hin2|done].
    + rewrite H3. split; [by intros [? _]|]. intros [_ Hall]. exfalso.
      specialize (Hall k m ltac:(by left) Hm). congruence.
Qed.

(** ** Startup *)

Definition running (s : RuntimeSupervisor.t) (k : string) : Prop :=
  exists m, dget k (components s) = Some m /\ state m = ComponentState.RUNNING /\ is_Some (process m).

(** The outcome of the startup loop: the components it called [start] on, and
    the exception that ended it. *)
Record launched (world : string -> spawn_env) (ids pre : list string) (x : option sup_error)
    (s s' : RuntimeSupervisor.t) : Prop := {
  la_ok : registry_ok s';
  la_grows : grows s s';
  la_prefix : pre `prefix_of` ids;
  la_others : forall k, k ∉ pre -> dget k (components s') = dget k (components s);
  la_outcome : match x with
    | None => pre = ids /\ forall k, k ∈ ids -> running s' k
    | Some e => exists pre' k m d, pre = pre' ++ [k] /\ (forall k', k' ∈ pre' -> running s' k') /\
        dget k (components s) = Some m /\ (start d (world k) m).2 = Err e
    end;
}.

Lemma start_each_spec rb clock world ids started dl s :
  registry_ok s -> NoDup ids -> (forall k, k ∈ ids -> k ∈ dkeys (components s)) ->
  exists s' pre dl' x, start_each rb clock world ids started dl s = (s', (started ++ pre, dl', x)) /\
    launched world ids pre x s s'.
Proof.
  revert started dl s. induction ids as [|k ids IH]; intros started dl s Hok Hnd Hin; cbn [start_each].
  { exists s, [], dl, None. rewrite app_nil_r. split; [done|].
    split; [done|apply grows_refl|done|done|]. split; [done|]. by intros k ?%not_elem_of_nil. }
  apply NoDup_cons in Hnd as [Hni Hnd].
  destruct (proj2 (dget_is_Some k (components s))) as [m Hm]; [apply Hin; by left|]. rewrite Hm.
  set (d := Some (Float.add (clock k) rb)).
  destruct (start d (world k) m) as [m' r] eqn:Hst.
  assert (m' = (start d (world k) m).1 /\ r = (start d (world k) m).2) as [Hm' Hr] by by rewrite Hst.
  destruct (put_ok s k m m' Hok Hm) as [Hok1 Hg1]; [by rewrite Hm', start_id|].
  assert (forall k', k' <> k -> dget k' (components (put m' k s)) = dget k' (components s)) as Hsame.
  { intros k' Hne. cbn. by rewrite dget_dset_ne. }
  destruct r as [y|e].
  - destruct (IH (started ++ [k]) d (put m' k s) Hok1 Hnd) as (s' & pre & dl' & x & H1 & H2).
    { intros k' Hk'. rewrite (gr_keys _ _ Hg1). apply Hin. by right. }
    exists s', (k :: pre), dl', x. rewrite H1, <- app_assoc. split; [done|].
    destruct H2 as [A1 A2 A3 A4 A5].
    assert (k ∉ pre) as Hkp by (intros Hk; apply Hni; by eapply elem_of_prefix).
    assert (running s' k) as Hrun.
    { exists m'. rewrite A4 by done. cbn. rewrite dget_dset_eq. split; [done|].
      rewrite Hm'. by eapply start_Ok. }
    split; [done|by eapply grows_trans|by apply prefix_cons| |].
    + intros k' [Hne Hk']%not_elem_of_cons. by rewrite A4, Hsame.
    + destruct x as [e|].
      * destruct A5 as (pre' & k' & m'' & d' & -> & B2 & B3 & B4). exists (k :: pre'), k', m'', d'.
        assert (k' <> k) as Hne by (intros ->; apply Hkp; set_solver).
        split_and!; [done| |by rewrite <- Hsame|done].
        intros j [->|Hj]%elem_of_cons; auto.
      * destruct A5 as [-> A5]. split; [done|]. intros j [->|Hj]%elem_of_cons; auto.
  - exists (put m' k s), [k], d, (Some e). split; [done|].
    split; [done|done|apply prefix_cons, prefix_nil| |].
    + intros k' Hk'. apply Hsame. by apply not_elem_of_cons in Hk' as [? _].
    + exists [], k, m, d. split_and!; [done| |done|done]. by intros j ?%not_elem_of_nil.
Qed.

Lemma elem_of_rev (k : string) l : k ∈ rev l <-> k ∈ l.
Proof. by rewrite <- Permutation_rev. Qed.

Lemma NoDup_rev_list (l : list string) : NoDup l -> NoDup (rev l).
Proof. by rewrite <- Permutation_rev. Qed.

Lemma failed_component_nonempty s : registry_ok s -> nonempty (failed_component s) = true.
Proof.
  intros [Hk Hi]. unfold failed_component. destruct (filter _ _) as [|[k m] l] eqn:Hf; [done|].
  assert ((k, m) ∈ components s) as Hin.
  { eapply list_elem_of_filter. rewrite Hf. by left. }
  destruct (Hi k m) as [Heq ?]; [by apply elem_of_dget|]. cbn. by rewrite Heq.
Qed.

(** C37: Startup is a transaction, for a supervisor whose components are registered under their
    ids and whose start exceptions have a message. It returns with every component running;
    or it raises and touches nothing, because the budget is bad or the signal handlers are
    not installed; or it raises with START_FAILED on record and no component left as
    started: each one it had called [start] on was told to stop and is STOPPED, or its failed
    rollback is on record as START_ROLLBACK_FAILED, and the others were never touched. *)
Theorem startup_all_or_nothing handlers_ok rb clock spawns stops s :
  registry_ok s -> (forall k, spawn_speaks (spawns k)) ->
  match start_all handlers_ok rb clock spawns stops s with
  | (s', Ok _) => forall k, k ∈ dkeys (components s) -> running s' k
  | (s', Err _) =>
      (s' = s /\ (bad_deadline rb = true \/ handlers_ok = false)) \/
      (is_Some (first_cause s') /\
       (exists c, c ∈ causes s' /\ FirstCause.reason_code c = "START_FAILED") /\
       exists started, started `prefix_of` dkeys (components s) /\ started <> [] /\
         (forall k, k ∈ started -> exists m, dget k (components s') = Some m /\ stopping m = true /\
            (state m = ComponentState.STOPPED \/
             exists c, c ∈ causes s' /\ FirstCause.component_id c = k /\
               FirstCause.reason_code c = "START_ROLLBACK_FAILED")) /\
         (forall k, k ∉ started -> dget k (components s') = dget k (components s)))
  end.
Proof.
  intros Hok Hsp. unfold start_all. destruct (bad_deadline rb) eqn:Hrb; [by left; auto|].
  destruct handlers_ok; cbn [negb]; [|by left; auto].
  destruct (start_each_spec rb clock spawns (dkeys (components s)) [] None s Hok (reg_keys s Hok))
    as (s1 & pre & dl & x & -> & [H1 H2 H3 H4 H5]); [done|]. cbn [app].
  destruct x as [e|]; [|by destruct H5 as [_ ?]].
  destruct H5 as (pre' & k0 & m0 & d0 & Hpre & _ & _ & He).
  destruct (record_cause_ok (failed_component s1) "START_FAILED" (exc_text e) None s1 H1)
    as (s2 & -> & Hok2 & Hg2 & Hc2 & Hf2 & Hin2);
    [by apply failed_component_nonempty|done|by eapply start_speaks|].
  assert (NoDup pre) as Hnd.
  { destruct H3 as [l Hl]. pose proof (reg_keys s Hok) as Hk. rewrite Hl in Hk. by apply NoDup_app in Hk as [? _]. }
  assert (forall k, k ∈ pre -> k ∈ dkeys (components s2)) as Hin.
  { intros k Hk. rewrite Hc2, (gr_keys _ _ H2). by eapply elem_of_prefix. }
  destruct (stop_each_spec "START_ROLLBACK_FAILED" typed_text dl stops (rev pre) true s2 Hok2)
    as (s3 & clean & -> & [A1 A2 A3 A4] & _).
  { done. } { by apply NoDup_rev_list. } { intros; apply typed_text_nonempty. }
  { intros k Hk. apply Hin. by rewrite elem_of_rev in Hk. }
  right. split. { destruct Hf2 as [c Hc]. exists c. by apply (gr_first _ _ A2). }
  split. { eexists. split; [by apply (gr_causes _ _ A2)|done]. }
  exists pre. split; [done|]. split; [by rewrite Hpre; destruct pre'|]. split.
  - intros k Hk. destruct (proj2 (dget_is_Some k (components s2)) (Hin k Hk)) as [m Hm].
    destruct (A4 k m) as [B1 B2]; [by apply elem_of_rev|done|].
    eexists. split; [exact B1|]. split; [apply stop_stopping|].
    destruct B2 as [B2|(c & ? & ? & ?)]; [left; by apply stop_Ok|right; eauto].
  - intros k Hk. rewrite A3, Hc2; [by apply H4|]. intros Hk'. by rewrite elem_of_rev in Hk'.
Qed.

(** Shutdown reaches every component, whatever fails on the way: it returns,
    every component was told to stop and is STOPPED or has its failure on record,
    it reports clean exactly when every stop returned, and the first cause known
    before it is kept. *)
Theorem shutdown_reaches_every_component deadline world s :
  registry_ok s -> Float.is_finite deadline = true -> (forall k, stop_speaks (world k)) ->
  exists s' clean, shutdown deadline world s = (s', Ok clean) /\
    (forall k, k ∈ dkeys (components s) -> exists m, dget k (components s') = Some m /\
       stopping m = true /\
       (state m = ComponentState.STOPPED \/ exists c, c ∈ causes s' /\ FirstCause.component_id c = k)) /\
    (clean = true <-> forall k m, dget k (components s) = Some m ->
       (stop (Some deadline) (world k) m).2 = Ok tt) /\
    (forall c, first_cause s = Some c -> first_cause s' = Some c).
Proof.
  intros Hok Hd Hsp. unfold shutdown. rewrite Hd. cbn [negb].
  destruct (stop_each_spec "CLEANUP_ERROR" exc_text (Some deadline) world (rev (dkeys (components s))) true s Hok)
    as (s' & clean & -> & [A1 A2 A3 A4] & Hclean).
  { done. } { apply NoDup_rev_list, Hok. }
  { intros k m x _ _. by apply stop_Err_speaks. }
  { intros k Hk. by rewrite elem_of_rev in Hk. }
  assert (forall k m, dget k (components s) = Some m -> k ∈ rev (dkeys (components s))) as Hin.
  { intros k m Hm. apply elem_of_rev. by eapply dget_in. }
  eexists s', _. split; [reflexivity|]. split_and!.
  - intros k Hk. destruct (proj2 (dget_is_Some k (components s)) Hk) as [m Hm].
    destruct (A4 k m (Hin k m Hm) Hm) as [B1 B2]. eexists. split; [exact B1|].
    split; [apply stop_stopping|]. destruct B2 as [B2|(c & ? & ? & ?)]; [left; by apply stop_Ok|right; eauto].
  - rewrite andb_true_iff, Hclean. split.
    + intros [[_ Hall] _] k m Hm. by eapply Hall; [eapply Hin|].
    + intros Hall. split; [naive_solver|]. apply forallb_forall. intros [k m'] Hkm%list_elem_of_In.
      apply bool_decide_eq_true.
      apply (elem_of_dget (A := ManagedComponent.t)) in Hkm; [|apply A1].
      apply dget_in in Hkm as Hk. rewrite (gr_keys _ _ A2) in Hk. apply dget_is_Some in Hk as [m Hm].
      destruct (A4 k m (Hin k m Hm) Hm) as [B1 _]. assert (m' = (stop (Some deadline) (world k) m).1) as ->
        by congruence. apply stop_Ok. by apply Hall.
  - apply A2.
Qed.

(** ** Polling *)

(** A component the poll must report. *)
Definition fatal (e : poll_env) (k : string) (m : ManagedComponent.t) : Prop :=
  let st := (observe (sees e k) m).2.1 in
  st = ComponentState.FAILED \/
  (st = ComponentState.STOPPED /\ long_lived m = false /\ has_result_check m = true /\
   (checks e k).1 = false).

Definition checks_speak (e : poll_env) : Prop :=
  forall k, (checks e k).1 = false -> nonempty ((checks e k).2) = true.

Lemma nonempty_app s t : nonempty t = true -> nonempty (s +:+ t) = true.
Proof. destruct s; [done|]. done. Qed.

Lemma exit_detail_nonempty e k m : nonempty (exit_detail e k m) = true.
Proof.
  unfold exit_detail. repeat case_match; try done; try by apply nonempty_app.
Qed.

Lemma observe_flags o m :
  long_lived (observe o m).1 = long_lived m /\ has_result_check (observe o m).1 = has_result_check m.
Proof. unfold observe. repeat case_match; done. Qed.

Lemma recorded_ok k rc detail code s :
  registry_ok s -> nonempty k = true -> nonempty rc = true -> nonempty detail = true ->
  exists s' c, recorded (record_cause k rc detail code s) = (s', Ok (Some c)) /\
    grows s s' /\ first_cause s' = Some c.
Proof.
  intros Hok H1 H2 H3. destruct (record_cause_ok k rc detail code s Hok H1 H2 H3)
    as (s' & Hrc & _ & Hg & _ & [c Hc] & _).
  exists s', c. rewrite Hrc. cbn. by rewrite Hc.
Qed.

Lemma poll_each_spec e ids s :
  registry_ok s -> checks_speak e -> NoDup ids -> (forall k, k ∈ ids -> k ∈ dkeys (components s)) ->
  exists s' r, poll_each e ids s = (s', Ok r) /\ grows s s' /\
    (r = None <-> forall k m, k ∈ ids -> dget k (components s) = Some m -> ~ fatal e k m) /\
    (forall c, r = Some c -> first_cause s' = Some c).
Proof.
  intros Hok Hch. revert s Hok. induction ids as [|k ids IH]; intros s Hok Hnd Hin; cbn [poll_each].
  { exists s, None. split; [done|]. split; [apply grows_refl|]. split; [|done].
    split; [|done]. by intros _ k m ?%not_elem_of_nil. }
  apply NoDup_cons in Hnd as [Hni Hnd].
  destruct (proj2 (dget_is_Some k (components s))) as [m Hm]; [apply Hin; by left|]. rewrite Hm.
  destruct (observe_flags (sees e k) m) as [Hl Hrc]. pose proof (observe_id (sees e k) m) as Hid.
  assert (fatal e k m <-> fatal e k m) as Hfat by done. unfold fatal in Hfat at 1.
  destruct (observe (sees e k) m) as [m' [st code]]. cbn [fst snd] in *.
  destruct (put_ok s k m m' Hok Hm Hid) as [Hok1 Hg1].
  destruct (reg_ids s Hok k m Hm) as [Hk Hne]. rewrite Hid, Hk.
  assert (fatal e k m -> forall c : FirstCause.t,
    Some c = None <-> forall k' m', k' ∈ k :: ids -> dget k' (components s) = Some m' -> ~ fatal e k' m')
    as Hsome.
  { intros Hf c. split; [done|]. intros Hall. exfalso. by eapply (Hall k m); [left|..]. }
  destruct (bool_decide (st = ComponentState.FAILED)) eqn:Hst; bool_prop.
  { destruct (recorded_ok k "UNEXPECTED_EXIT" (exit_detail e k m') code (put m' k s) Hok1)
      as (s' & c & -> & Hg & Hc); [done|done|apply exit_detail_nonempty|].
    exists s', (Some c). split; [done|]. split; [by eapply grows_trans|].
    split; [apply Hsome, Hfat; by left|naive_solver]. }
  rewrite Hl, Hrc.
  destruct (bool_decide (st = ComponentState.STOPPED) && negb (long_lived m) && has_result_check m
            && negb (checks e k).1) eqn:Hchk; bool_prop.
  { destruct (recorded_ok k "INVALID_RESULT" (checks e k).2 code (put m' k s) Hok1)
      as (s' & c & -> & Hg & Hc); [done|done|by apply Hch|].
    exists s', (Some c). split; [done|]. split; [by eapply grows_trans|].
    split; [apply Hsome, Hfat; right; naive_solver|naive_solver]. }
  destruct (IH (put m' k s) Hok1 Hnd) as (s' & r & H1 & H2 & H3 & H4).
  { intros k' Hk'. rewrite (gr_keys _ _ Hg1). apply Hin. by right. }
  exists s', r. split; [done|]. split; [by eapply grows_trans|]. split; [|done]. rewrite H3. split.
  - intros Hall k' m'' [->|Hk']%elem_of_cons Hm''.
    + assert (m'' = m) as -> by congruence. rewrite <- Hfat. intros [?|(-> & E1 & E2 & E3)]; [done|].
      rewrite E1, E2, E3 in Hchk. done.
    + apply Hall; [done|]. cbn. rewrite dget_dset_ne; [done|]. by intros ->.
  - intros Hall k' m'' Hk'. cbn. rewrite dget_dset_ne; [|by intros ->]. apply Hall. by right.
Qed.

Lemma exit_code_nonzero s c : first_cause s = Some c -> RuntimeSupervisor.exit_code s <> 0.
Proof.
  intros Hc. unfold RuntimeSupervisor.exit_code. rewrite Hc. repeat case_match; bool_prop; lia.
Qed.

(** C38: No exit goes unnoticed: a poll returns a cause exactly when some component is
    fatal, and that includes every unexpected exit -- of a long-lived component
    with any code, 0 included, and of any component that leaves members in its
    process group. The cause returned is the first one ever recorded and makes
    the exit code of the supervisor non-zero. *)
Theorem unexpected_exit_detected e s :
  registry_ok s -> checks_speak e ->
  exists s' r, poll_once e s = (s', Ok r) /\
    (r = None <-> forall k m, dget k (components s) = Some m -> ~ fatal e k m) /\
    (forall k m pid code, dget k (components s) = Some m -> process m = Some pid ->
       stopping m = false -> ManagedComponent.exit_code (sees e k) = Some code ->
       long_lived m = true \/ code <> 0 \/ group_has_members (sees e k) = true -> r <> None) /\
    (forall c, first_cause s = Some c -> first_cause s' = Some c) /\
    (forall c, r = Some c -> first_cause s' = Some c /\ RuntimeSupervisor.exit_code s' <> 0).
Proof.
  intros Hok Hch.
  destruct (poll_each_spec e (dkeys (components s)) s Hok Hch (reg_keys s Hok)) as (s' & r & H1 & H2 & H3 & H4);
    [done|].
  assert (r = None <-> forall k m, dget k (components s) = Some m -> ~ fatal e k m) as Hr.
  { rewrite H3. split; intros Hall k m Hm; [by apply Hall; [eapply dget_in|]|]. intros. by apply Hall. }
  exists s', r. split; [done|]. split; [done|]. split; [|split; [apply H2|]].
  - intros k m pid code Hm Hp Hs Hc Hwhy Hn. eapply (proj1 Hr Hn k m Hm). left.
    unfold observe. rewrite Hp, Hs, Hc. cbn [negb andb].
    repeat case_match; try done; bool_prop; destruct Hwhy as [?|[?|?]]; congruence.
  - intros c Hc. split; [by apply H4|]. eapply exit_code_nonzero. by apply H4.
Qed.

(** ** Exceptions without a message *)

Lemma record_cause_silent k rc code s :
  record_cause k rc EmptyString code s
  = (s, Err (SupValueError "failure cause must be non-empty text")).
Proof.
  unfold record_cause, FirstCause.post_init. cbn. unfold sup_raise_if.
  destruct (nonempty k), (nonempty rc); reflexivity.
Qed.

(** The cleanup loops do not survive an exception whose text is empty (such as
    [AssertionError()]): recording it raises in its turn. When the component
    registered last fails to stop this way, [shutdown] raises and no other
    component is told to stop; when a component fails to start this way,
    [start_all] raises without any rollback, and what was started before it
    keeps running. *)
Theorem empty_message_aborts_cleanup s :
  registry_ok s ->
  (forall deadline world l k m x,
     Float.is_finite deadline = true -> components s = l ++ [(k, m)] ->
     (stop (Some deadline) (world k) m).2 = Err x -> exc_text x = EmptyString ->
     (exists y, (shutdown deadline world s).2 = Err y) /\
     forall k', k' <> k ->
       dget k' (components (shutdown deadline world s).1) = dget k' (components s)) /\
  (forall rb clock spawns stops s1 started dl x,
     bad_deadline rb = false ->
     start_each rb clock spawns (dkeys (components s)) [] None s = (s1, (started, dl, Some x)) ->
     exc_text x = EmptyString ->
     (exists y, (start_all true rb clock spawns stops s).2 = Err y) /\
     exists before k, started = before ++ [k] /\
       forall k', k' ∈ before -> running (start_all true rb clock spawns stops s).1 k').
Proof.
  intros Hok. split.
  - intros d world l k m x Hd Hc Hst Hx. unfold shutdown. rewrite Hd. cbn [negb].
    assert (dget k (components s) = Some m) as Hm.
    { apply elem_of_dget; [apply Hok|]. rewrite Hc. set_solver. }
    assert (rev (dkeys (components s)) = k :: rev (dkeys l)) as ->.
    { unfold dkeys. rewrite Hc, fmap_app, rev_app_distr. done. }
    cbn [stop_each]. rewrite Hm. destruct (stop _ _ _) as [m' r]. cbn in Hst. subst r. rewrite Hx.
    rewrite record_cause_silent. cbn. split; [eauto|]. intros k' Hne. by rewrite dget_dset_ne.
  - intros rb clock spawns stops s1 started dl x Hrb Hse Hx. unfold start_all. rewrite Hrb. cbn [negb].
    destruct (start_each_spec rb clock spawns (dkeys (components s)) [] None s Hok (reg_keys s Hok))
      as (s1' & pre & dl' & x' & Hse' & [_ _ _ _ H5]); [done|]. rewrite Hse in Hse'. cbn [app] in Hse'.
    injection Hse' as <- <- <- <-. rewrite Hse, Hx, record_cause_silent. cbn. split; [eauto|].
    destruct H5 as (pre' & k & _ & _ & -> & Hrun & _). eauto.
Qed.

(** ** Witnesses *)

Definition demo_component (id : string) : ManagedComponent.t :=
  ManagedComponent.mk id ["/bin/srv"] "GLOBAL" None true None None false false false [] false
    None ComponentState.NEW false None.

Definition demo_supervised : RuntimeSupervisor.t :=
  (register (demo_component "gateway")
     (register (demo_component "ray") (RuntimeSupervisor.mk [] None [] false)).1).1.

(** A decision procedure for [registry_ok]. *)
Definition registry_okb (s : RuntimeSupervisor.t) : bool :=
  no_dups (dkeys (components s)) &&
  forallb (fun kv => bool_decide (ManagedComponent.component_id kv.2 = kv.1) && nonempty kv.1)
    (components s).

Lemma registry_okb_sound s : registry_okb s = true -> registry_ok s.
Proof.
  unfold registry_okb, no_dups. intros H. bool_prop. split; [done|].
  intros k m Hm%dget_Some_elem%list_elem_of_In.
  match goal with H : forallb _ _ = true |- _ => apply (proj1 (forallb_forall _ _) H) in Hm end.
  cbn in Hm. by bool_prop.
Qed.

Lemma demo_supervised_ok : registry_ok demo_supervised.
Proof. apply registry_okb_sound. vm_compute. reflexivity. Qed.

Definition demo_stop : stop_env := StopEnv true false false None None.
Definition demo_spawn (pid : Z) : spawn_env := SpawnEnv None (Ok pid) (Some pid) None demo_stop.
Definition demo_spawns (k : string) : spawn_env :=
  if decide (k = "gateway")
  then SpawnEnv None (Err (OtherError "OSError" "no such file")) None None demo_stop
  else demo_spawn 7.
Definition demo_clock (_ : string) : float := Float.of_Z 100.

Lemma startup_all_or_nothing_witness :
  match start_all true (Float.of_Z 30) demo_clock demo_spawns (fun _ => demo_stop) demo_supervised with
  | (_, Ok _) => False
  | (s', Err _) => is_Some (first_cause s')
  end.
Proof.
  pose proof (startup_all_or_nothing true (Float.of_Z 30) demo_clock demo_spawns (fun _ => demo_stop)
                demo_supervised demo_supervised_ok) as H.
  destruct (start_all _ _ _ _ _ _) as [s' []] eqn:Hs; [vm_compute in Hs; discriminate Hs|].
  destruct H as [[_ [H|H]]|[H _]]; [|vm_compute in H; discriminate H|discriminate H|exact H].
  intros k. unfold demo_spawns. destruct (decide _); repeat split; cbn; try discriminate.
  intros x Hx. injection Hx as <-. reflexivity.
Defined.

Definition demo_started_all : RuntimeSupervisor.t :=
  (start_all true (Float.of_Z 30) demo_clock (fun _ => demo_spawn 7) (fun _ => demo_stop)
     demo_supervised).1.

Lemma demo_started_all_ok : registry_ok demo_started_all.
Proof. apply registry_okb_sound. vm_compute. reflexivity. Qed.

Lemma shutdown_reaches_every_component_witness :
  exists s', shutdown (Float.of_Z 200) (fun _ => demo_stop) demo_started_all = (s', Ok true).
Proof.
  destruct (shutdown_reaches_every_component (Float.of_Z 200) (fun _ => demo_stop) demo_started_all
              demo_started_all_ok eq_refl) as (s' & clean & Hs & _ & Hc & _).
  { intros k x Hx. discriminate Hx. }
  exists s'. rewrite Hs. rewrite (proj2 Hc); [reflexivity|].
  intros k m Hm%dget_Some_elem. vm_compute in Hm.
  apply elem_of_cons in Hm as [Hm|Hm]; [injection Hm as -> ->; reflexivity|].
  apply elem_of_cons in Hm as [Hm|Hm]; [injection Hm as -> ->; reflexivity|].
  apply not_elem_of_nil in Hm. destruct Hm.
Defined.

(** The gateway exits with code 0. *)
Definition demo_poll : poll_env :=
  PollEnv (fun k => if decide (k = "gateway") then Sighting (Some 0) false false else Sighting None true false)
    (fun _ => (true, EmptyString)) (fun _ => Ok EmptyString).

Lemma unexpected_exit_detected_witness :
  exists s' c, poll_once demo_poll demo_started_all = (s', Ok (Some c)) /\
    RuntimeSupervisor.exit_code s' <> 0.
Proof.
  destruct (unexpected_exit_detected demo_poll demo_started_all demo_started_all_ok)
    as (s' & r & Hp & _ & Hd & _ & Hc).
  { intros k Hk. discriminate Hk. }
  destruct r as [c|].
  - exists s', c. split; [exact Hp|]. exact (proj2 (Hc c eq_refl)).
  - exfalso. eapply (Hd "gateway"); [vm_compute; reflexivity|reflexivity|reflexivity|
      vm_compute; reflexivity|left; reflexivity|reflexivity].
Defined.

(** The gateway's [on_stopped] raises an exception without a message. *)
Definition demo_silent (k : string) : stop_env :=
  if decide (k = "gateway")
  then StopEnv true false false None (Some (OtherError "AssertionError" EmptyString)) else demo_stop.

Lemma empty_message_aborts_cleanup_witness :
  exists y, (shutdown (Float.of_Z 200) demo_silent demo_started_all).2 = Err y.
Proof.
  destruct (empty_message_aborts_cleanup demo_started_all demo_started_all_ok) as [H _].
  destruct (components demo_started_all) as [|a [|[k m] [|]]] eqn:Hc; try (vm_compute in Hc; discriminate Hc).
  assert (k = "gateway" /\ process m = Some 7 /\ has_output_capture m = false) as (-> & Hp & Ho).
  { vm_compute in Hc. injection Hc as <- <- <-. repeat split. }
  destruct (H (Float.of_Z 200) demo_silent [a] "gateway" m (OtherError "AssertionError" EmptyString))
    as [Hy _]; [reflexivity|reflexivity| |reflexivity|exact Hy].
  destruct m. cbn in Hp, Ho. subst. reflexivity.
Defined.
