(* ===== verification/Composition.v ===== *)
(** READY in the composition root (src/exaserve/composition.py): the evidence of one turn,
    the publication of a verdict, the live monitor and the initial wait.

    The composition root owns the readiness coordinator, the receipt ledger with its binding
    store, the session coordinator and the publisher of the deployment status; [composition]
    keeps them together, with the run directory. What probes, clocks and the file system answer
    during a call is a record of arguments per call; the readings of the wall clock within
    one turn are one argument, and the ledger and the sessions, which other threads change, are
    those at the call. A blocker's text and
    the text of a number of seconds, which only end in messages, are section variables. *)

From S2P Require Import Prelude PyValue Atomic Envelopes Contracts Session Receipts ReceiptCodec Bindings Ledger Readiness Supervisor Status Manifest StatusApi.

(** ** The verdict as JSON *)

Definition show_nat (n : nat) : string := str_Z (Z.of_nat n).

(** The texts of the satisfied conditions (plan_readiness.py). *)
Definition show_condition (c : condition) : string :=
  match c with
  | SessionsEstablished n => "sessions: " +:+ show_nat n +:+ " planned ranks established"
  | RayExact n => "ray membership/resources: " +:+ show_nat n +:+ " exact nodes"
  | ApplicationsExact n => "serve applications: " +:+ show_nat n +:+ " exact"
  | ProxiesHealthy n => "serve proxies: " +:+ show_nat n +:+ " healthy"
  | ReceiptsExact a p => "receipts: " +:+ show_nat a +:+ "/" +:+ show_nat p +:+ " exact slots"
  | ModelRunning id r p => "model " +:+ id +:+ ": " +:+ str_Z r +:+ "/" +:+ str_Z p
  | GatewayHealthy kind => "gateway " +:+ default "" kind +:+ " healthy"
  | CanariesAnswered n => "canaries: " +:+ show_nat n +:+ " model(s) answered"
  end.

Definition phase_value (p : DeploymentPhase.t) : string :=
  match p with
  | DeploymentPhase.DEPLOYING => "DEPLOYING"
  | DeploymentPhase.VALIDATING => "VALIDATING"
  | DeploymentPhase.READY => "READY"
  | DeploymentPhase.FAILED => "FAILED"
  end.

Definition model_value (x : string * Z * Z * Z) : value :=
  let '(route, planned, running, target) := x in
  VDict [("route_name", VStr route); ("expected_replicas", VInt planned);
         ("observed_replicas", VInt running); ("observed_target", VInt target)].

Definition node_value (n : Node.t) : value :=
  VDict [("node_id", VStr (Node.node_id n)); ("node_name", VStr (Node.node_name n));
         ("node_address", VStr (Node.node_address n)); ("alive", VBool (Node.alive n));
         ("cpu", Node.cpu n); ("gpu", Node.gpu n)].

Definition proxy_value (p : Proxy.t) : value :=
  VDict [("node_id", VStr (Proxy.node_id p)); ("status", VStr (Proxy.status p))].

Definition model_map_value (v : ReadinessVerdict.t) : value :=
  VDict (map_values model_value (ReadinessVerdict.model_map v)).
Definition capability_map_value (v : ReadinessVerdict.t) : value :=
  VDict (map_values texts (ReadinessVerdict.capability_map v)).

(** ** The composition root *)

Inductive composition_error :=
| CompositionError (message : string)
| StatusFailure (e : publication_error)
| ManifestFailure (e : manifest_error)
| StoreFailure (e : store_error)
| EvidenceFailure (e : readiness_error)
| GatewayEvidenceIo.

Record composition (B : Type) := Composition {
  co_config : config;
  co_run_dir : string;
  co_readiness : option ReadinessCoordinator.t;
  co_ledger : Ledger.t B;
  co_sessions : option SessionCoordinator.t;
  co_status : option publisher;
  co_dir : dir;
  co_loss : option float;
  co_last : float;
}.
Arguments Composition {B}.
Arguments co_config {B}.
Arguments co_run_dir {B}.
Arguments co_readiness {B}.
Arguments co_ledger {B}.
Arguments co_sessions {B}.
Arguments co_status {B}.
Arguments co_dir {B}.
Arguments co_loss {B}.
Arguments co_last {B}.

Definition co_plan {B} (c : composition B) : DeploymentPlan.t := cf_plan (co_config c).

Section Updates.
Context {B : Type}.
Implicit Type c : composition B.
Definition set_readiness (x : option ReadinessCoordinator.t) c : composition B :=
  Composition (co_config c) (co_run_dir c) x (co_ledger c) (co_sessions c) (co_status c) (co_dir c)
    (co_loss c) (co_last c).
Definition set_ledger (x : Ledger.t B) c : composition B :=
  Composition (co_config c) (co_run_dir c) (co_readiness c) x (co_sessions c) (co_status c) (co_dir c)
    (co_loss c) (co_last c).
Definition set_dir (x : dir) c : composition B :=
  Composition (co_config c) (co_run_dir c) (co_readiness c) (co_ledger c) (co_sessions c) (co_status c) x
    (co_loss c) (co_last c).
Definition set_status (p : publisher) (d : dir) c : composition B :=
  Composition (co_config c) (co_run_dir c) (co_readiness c) (co_ledger c) (co_sessions c) (Some p) d
    (co_loss c) (co_last c).
Definition set_loss (x : option float) c : composition B :=
  Composition (co_config c) (co_run_dir c) (co_readiness c) (co_ledger c) (co_sessions c) (co_status c)
    (co_dir c) x (co_last c).
Definition set_last (x : float) c : composition B :=
  Composition (co_config c) (co_run_dir c) (co_readiness c) (co_ledger c) (co_sessions c) (co_status c)
    (co_dir c) (co_loss c) x.
End Updates.

(** ** The evidence of one turn *)

(** One application of the deployment child's snapshot. *)
Module App.
Record t := mk { running : Z; target : Z; status : string; observation_state : string }.
End App.

(** A fresh snapshot of the deployment child, as its validation leaves it. *)
Record child_snapshot := ChildSnapshot {
  cs_applications : list (string * (Z * Z * string));
  cs_nodes : list Node.t;
  cs_proxies : list Proxy.t;
}.

(** [deployment_application_evidence]: the applications of the snapshot, if there is one. *)
Definition application_evidence (s : option child_snapshot) : option (list (string * App.t)) :=
  s ← s;
  Some ((fun kv => let '(running, target, status) := kv.2 in
           (kv.1, App.mk running target status
              (if (0 <? target) && (running =? target) && bool_decide (upper status = "RUNNING")
               then "READY" else "STARTING"))) <$> cs_applications s).

Definition sumZ (l : list Z) : Z := foldr Z.add 0 l.

(** [application_for_model] *)
Definition application_for_model (p : DeploymentPlan.t) (m : ModelPlan.t)
    (evidence : option (list (string * App.t))) : plan_result (option App.t) :=
  match evidence with
  | None => Ok None
  | Some apps =>
      if (1 <? ModelPlan.num_replicas m) && negb (DeploymentPlan.uses_head_only_serve_proxy p) then
        expected ← model_application_names p m;
        match (List.filter (fun kv => bool_decide (kv.1 ∈ expected)) apps).*2 with
        | [] => Ok None
        | members =>
            let running := sumZ (App.running <$> members) in
            let target := sumZ (App.target <$> members) in
            let status := if (length members =? length expected)%nat
                             && forallb (fun a => bool_decide (upper (App.status a) = "RUNNING")) members
                          then "RUNNING" else "STARTING" in
            Ok (Some (App.mk running target status
                   (if bool_decide (status = "RUNNING") && (target =? ModelPlan.num_replicas m)
                       && (running =? ModelPlan.num_replicas m) then "READY" else "STARTING")))
        end
      else Ok (dget (ModelPlan.route_name m) apps)
  end.

(** What the turn finds: the snapshot of the child, the fresh observations of a rank by role
    (when there is a head channel), and whether the two owned components run. *)
Record evidence := Evidence {
  ev_snapshot : option child_snapshot;
  ev_channel : option (Z -> string -> list ComponentObservation.t);
  ev_deployment : bool;
  ev_launcher : bool;
}.

Definition in_state (state : string) (l : list ComponentObservation.t) : bool :=
  existsb (fun o => bool_decide (ComponentObservation.state o = state)) l.

(** The proxies by rank: on the one node of the snapshot with the planned name. *)
Definition proxy_ranks (p : DeploymentPlan.t) (b : AllocationBinding.t) : list (Z * string) :=
  if DeploymentPlan.uses_head_only_serve_proxy p
  then option_list (pair 0 <$> AllocationBinding.node_for b 0)
  else AllocationBinding.rank_to_node b.

Definition rank_proxies (p : DeploymentPlan.t) (b : AllocationBinding.t) (nodes : list Node.t)
    (current : Z -> string -> list ComponentObservation.t) : list Proxy.t :=
  proxy_ranks p b ≫= fun '(rank, planned) =>
    match List.filter (fun n => same_node (Node.node_name n) planned) nodes with
    | [n] => [Proxy.mk (Node.node_id n)
                (if in_state "READY" (current rank "serve_proxy") then "HEALTHY" else "STARTING")]
    | _ => []
    end.

(** Setters in sequence: the first that raises ends the call. *)
Abbreviation setter := (ReadinessCoordinator.t -> ReadinessCoordinator.t * readiness_result unit).
Definition chain (f : setter) (x : ReadinessCoordinator.t * readiness_result unit)
    : ReadinessCoordinator.t * readiness_result unit :=
  match x with (c, Ok _) => f c | _ => x end.
Definition run_setters (fs : list setter) (c : ReadinessCoordinator.t)
    : ReadinessCoordinator.t * readiness_result unit :=
  fold_left (fun x f => chain f x) fs (c, Ok tt).

(** The replicas and the route of one model. *)
Definition model_setter (p : DeploymentPlan.t) (apps : option (list (string * App.t))) (m : ModelPlan.t) : setter :=
  fun c =>
    match application_for_model p m apps with
    | Err e => (c, Err (ReadinessPlanError e))
    | Ok app =>
        run_setters
          [ReadinessCoordinator.set_replicas (VStr (ModelPlan.model_id m))
             (VInt (from_option App.running 0 app)) (VInt (from_option App.target 0 app));
           ReadinessCoordinator.set_route (VStr (ModelPlan.route_name m))
             (VBool (from_option (fun a => bool_decide (App.observation_state a = "READY")
                                           && bool_decide (App.status a = "RUNNING")) false app))] c
    end.

(** [apply_deployment_evidence] *)
Definition evidence_setters (p : DeploymentPlan.t) (b : AllocationBinding.t) (e : evidence) : list setter :=
  let apps := application_evidence (ev_snapshot e) in
  let nodes := from_option cs_nodes [] (ev_snapshot e) in
  let proxies := match ev_channel e with
                 | Some current => rank_proxies p b nodes current
                 | None => from_option cs_proxies [] (ev_snapshot e)
                 end in
  [ReadinessCoordinator.set_cluster (VList (node_value <$> nodes)) (VList (proxy_value <$> proxies));
   ReadinessCoordinator.set_applications (VList (VStr <$> dkeys (default [] apps)));
   ReadinessCoordinator.set_owned_component (VStr "deployment") (VBool (ev_deployment e));
   ReadinessCoordinator.set_owned_component (VStr "rank_launcher") (VBool (ev_launcher e))] ++
  (match ev_channel e with
   | Some current =>
       (fun rank => ReadinessCoordinator.set_rank_component (VInt rank)
                      (VBool (in_state "RUNNING" (current rank "ray")))) <$> AllocationBinding.ranks b
   | None => []
   end) ++
  (model_setter p apps <$> DeploymentPlan.models p).

Definition apply_deployment_evidence (e : evidence) (c : ReadinessCoordinator.t)
    : ReadinessCoordinator.t * readiness_result unit :=
  run_setters (evidence_setters (ReadinessCoordinator.plan c) (ReadinessCoordinator.binding c) e) c.

(** ** Publication and monitoring *)

Definition show_gateway (alive : option bool) : value :=
  match alive with Some b => VBool b | None => VNone end.

Definition evidence_result {A} (r : readiness_result A) : result composition_error A :=
  match r with Ok a => Ok a | Err e => Err (EvidenceFailure e) end.
Definition status_result {A} (r : result publication_error A) : result composition_error A :=
  match r with Ok a => Ok a | Err e => Err (StatusFailure e) end.
Definition manifest_failure {A} (r : manifest_result A) : result composition_error A :=
  match r with Ok a => Ok a | Err e => Err (ManifestFailure e) end.

(** The environment of a publication: the flush of the binding store, how the creation of the
    manifest ends, and the environment of the status transition. *)
Record publish_env := PublishEnv {
  pe_flush : io_env;
  pe_written : write_outcome;
  pe_advance : advance_env;
}.

Section Root.
Context {B : Type} `{!BindingStore B}.
Context (canonical_hash : dict -> string).
Context (show_blocker : blocker -> string) (show_seconds : float -> string).
Implicit Type c : composition B.

(** [to_dict] of a verdict. *)
Definition verdict_dict (v : ReadinessVerdict.t) : dict :=
  [("ready", VBool (ReadinessVerdict.ready v)); ("phase", VStr (phase_value (ReadinessVerdict.phase v)));
   ("blockers", texts (show_blocker <$> ReadinessVerdict.blockers v));
   ("satisfied", texts (show_condition <$> ReadinessVerdict.satisfied v));
   ("advertised_endpoint", VStr (ReadinessVerdict.advertised_endpoint v));
   ("generation", VInt (ReadinessVerdict.generation v));
   ("deployment_plan_hash", VStr (ReadinessVerdict.deployment_plan_hash v));
   ("allocation_binding_hash", VStr (ReadinessVerdict.allocation_binding_hash v));
   ("missing_identities", texts (ReadinessVerdict.missing_identities v));
   ("unhealthy_identities", texts (ReadinessVerdict.unhealthy_identities v));
   ("receipt_hashes", texts (ReadinessVerdict.receipt_hashes v));
   ("model_map", model_map_value v); ("capability_map", capability_map_value v);
   ("nodes", VList (node_value <$> ReadinessVerdict.nodes v));
   ("proxies", VList (proxy_value <$> ReadinessVerdict.proxies v));
   ("observed_at", VFloat (ReadinessVerdict.observed_at v))].

(** The data of a status transition that carries a verdict. *)
Definition verdict_data (v : ReadinessVerdict.t) (snapshot : dict) : dict :=
  [("readiness_snapshot", VDict snapshot); ("model_map", model_map_value v);
   ("capability_map", capability_map_value v); ("receipt_hashes", texts (ReadinessVerdict.receipt_hashes v))].

(** [self.status.advance(...)] *)
Definition advance_status (e : advance_env) (new : DeploymentState) (reason detail : string) (data : dict) c
    : composition B * result composition_error unit :=
  match co_status c with
  | None => (c, Err (CompositionError "authoritative deployment status is unavailable"))
  | Some p =>
      match advance canonical_hash (co_config c) e new reason detail data p (co_dir c) with
      | (p', d', r) => (set_status p' d' c, _ ← status_result r; Ok tt)
      end
  end.

(** [self.binding_store.flush()]: the store is the ledger's. *)
Definition flush_bindings (e : io_env) c : composition B * result composition_error unit :=
  match Ledger.store (co_ledger c) with
  | None => (c, Err (CompositionError "no binding store"))
  | Some b =>
      let '(b', r) := bs_flush e b in
      let l := co_ledger c in
      (set_ledger (Ledger.mk (Ledger.plan l) (Ledger.binding l) (Ledger.profile l) (Ledger.by_slot l)
                     (Ledger.superseded l) (Ledger.rejected l) (Some b')) c,
       match r with Ok _ => Ok tt | Err e => Err (StoreFailure e) end)
  end.

(** The manifest of the accepted receipts. *)
Definition accepted_manifest (accepted : list Receipt.t) c : manifest_result ReceiptManifest.t :=
  m ← construct canonical_hash (VInt 1) (VStr (DeploymentPlan.deployment_id (co_plan c)))
        (VInt (cf_generation (co_config c)))
        (VStr (DeploymentPlan.deployment_plan_hash (co_plan c)))
        (VStr (binding_hash (co_config c)))
        (VList (VStr <$> merge_sort string_le (Receipt.receipt_hash <$> accepted)))
        (VList (VDict <$> (to_dict canonical_hash <$> accepted))) (VStr "");
  finalize_manifest canonical_hash m.

Definition manifest_path (hash : string) c : string :=
  join_path (join_path (co_run_dir c) "compatibility_receipts") (hash +:+ ".json").

(** The snapshot that [publish_ready] hands to the publisher. *)
Definition published_snapshot (v : ReadinessVerdict.t) (path hash : string) : dict :=
  dupdate (verdict_dict v)
    [("phase", VStr "READY"); ("ready", VBool true); ("receipt_manifest_path", VStr path);
     ("receipt_manifest_hash", VStr hash)].

(** [publish_ready] *)
Definition publish_ready (e : publish_env) (v : ReadinessVerdict.t) c
    : composition B * result composition_error unit :=
  match co_status c with
  | None => (c, Err (CompositionError "authoritative deployment status is unavailable; refusing READY"))
  | Some _ =>
      match flush_bindings (pe_flush e) c with
      | (c1, Err x) => (c1, Err x)
      | (c1, Ok _) =>
          let accepted := Ledger.accepted_receipts (co_ledger c1) in
          if negb (bool_decide (merge_sort string_le (Receipt.receipt_hash <$> accepted)
                                = ReadinessVerdict.receipt_hashes v))
          then (c1, Err (CompositionError "accepted receipt set changed before READY evidence persistence"))
          else
            match accepted_manifest accepted c1 with
            | Err x => (c1, Err (ManifestFailure x))
            | Ok m =>
                let path := manifest_path (ReceiptManifest.manifest_hash m) c1 in
                match publish_manifest canonical_hash (pe_written e) m path (co_dir c1) with
                | (d', Err x) => (set_dir d' c1, Err (ManifestFailure x))
                | (d', Ok _) =>
                    let snapshot := published_snapshot v path (ReceiptManifest.manifest_hash m) in
                    advance_status (pe_advance e) READY "READY" ""
                      (("advertised_endpoint", VStr (ReadinessVerdict.advertised_endpoint v)) ::
                       verdict_data v snapshot) (set_dir d' c1)
                end
            end
      end
  end.

(** [except StatusPublicationError] *)
Definition is_publication (x : composition_error) : bool :=
  match x with StatusFailure (PublicationError _ | EvidenceChanged _) => true | _ => false end.

(** [except (StatusPublicationError, RuntimeError, ValueError)] around [advance]; the exceptions
    of the lease are [RuntimeError]s. *)
Definition is_handled (x : composition_error) : bool :=
  match x with
  | StatusFailure (Escaped (OverflowError | OSError)) | GatewayEvidenceIo => false
  | _ => true
  end.

(** The class of an exception of [advance] that is not handled. *)
Definition error_kind (x : composition_error) : string :=
  match x with
  | StatusFailure (Escaped OverflowError) => "OverflowError"
  | StatusFailure (Escaped OSError) | GatewayEvidenceIo => "OSError"
  | StatusFailure (Escaped LeaseHeldError) => "LeaseHeldError"
  | StatusFailure (Escaped LeaseReleaseError) => "LeaseReleaseError"
  | _ => "RuntimeError"
  end.

(** [fail]: the durable record goes to FAILED unless it is terminal or the operator asked for
    the shutdown; a failing publication is logged, every other exception escapes. *)
Definition fail_status (e : advance_env) (shutdown_requested : bool) (reason : string) c
    : composition B * result composition_error unit :=
  match co_status c with
  | Some p =>
      if shutdown_requested || bool_decide (pub_state p ∈ [FAILED; CANCELLED; STOPPED]) then (c, Ok tt)
      else match advance_status e FAILED "FIRST_CAUSE" (String.substring 0 400 reason) [] c with
           | (c', Err x) => (c', if is_publication x then Ok tt else Err x)
           | y => y
           end
  | None => (c, Ok tt)
  end.

(** What a turn of the monitor meets. *)
Record monitor_env := MonitorEnv {
  me_observer : option string;
  me_now : float;
  me_alive : option bool;
  me_health : bool;
  me_evidence : evidence;
  me_canary : string -> bool;
  me_observed_at : float;
  me_wall : float;
  me_gateway_io : bool;
  me_publish : publish_env;
  me_advance : advance_env;
  me_refresh : clock * write_outcome;
}.

(** The setters of a turn: the gateway, the evidence, the canaries. *)
Definition canary_setters (canary : string -> bool) (p : DeploymentPlan.t) : list setter :=
  (fun m => ReadinessCoordinator.set_canary (VStr (ModelPlan.model_id m))
              (VBool (canary (ModelPlan.model_id m)))) <$> DeploymentPlan.models p.

Definition observe_turn (alive : option bool) (health : bool) (ev : evidence) (canary : string -> bool)
    (rc : ReadinessCoordinator.t) : ReadinessCoordinator.t * readiness_result unit :=
  let p := ReadinessCoordinator.plan rc in
  run_setters
    ((match DeploymentPlan.gateway p with
      | Some _ => [ReadinessCoordinator.set_gateway (show_gateway alive) (VBool health)]
      | None => []
      end) ++ [apply_deployment_evidence ev] ++ canary_setters canary p) rc.

(** [self.readiness.evaluate()] *)
Definition evaluate_now (wall : float) (rc : ReadinessCoordinator.t) c : result composition_error ReadinessVerdict.t :=
  evidence_result (ReadinessCoordinator.evaluate wall (co_ledger c) (co_sessions c) rc).

(** The branch of a ready verdict. *)
Definition monitor_ready (e : monitor_env) (v : ReadinessVerdict.t) (rc : ReadinessCoordinator.t) c
    : composition B * result composition_error (option FirstCause.t) :=
  let done_with x :=
    match x with
    | (c', Ok tt) => (set_loss None c', Ok None)
    | (c', Err err) => (c', Err err)
    end in
  match ReadinessCoordinator.phase rc, co_loss c with
  | DeploymentPhase.VALIDATING, Some _ =>
      match evaluate_now (me_wall e) rc c with
      | Err err => (c, Err err)
      | Ok candidate =>
          match publish_ready (me_publish e) candidate c with
          | (c1, Err err) => (c1, Err err)
          | (c1, Ok _) =>
              match ReadinessCoordinator.commit_ready (me_wall e) (co_ledger c1) (co_sessions c1) rc with
              | (_, Err err) => (c1, Err (EvidenceFailure err))
              | (rc', Ok committed) =>
                  let c2 := set_readiness (Some rc') c1 in
                  if ReadinessVerdict.ready committed then (set_loss None c2, Ok None)
                  else (c2, Err (CompositionError "revalidation predicate changed before READY commit"))
              end
          end
      end
  | _, _ =>
      match co_status c with
      | None => (set_loss None c, Ok None)
      | Some p =>
          match refresh_ready canonical_hash (co_config c) (me_refresh e).1 (me_refresh e).2 (verdict_dict v)
                  (model_map_value v) (capability_map_value v) (ReadinessVerdict.receipt_hashes v)
                  p (co_dir c) with
          | (p', d', Ok _) => (set_loss None (set_status p' d' c), Ok None)
          | (p', d', Err (EvidenceChanged fields)) =>
              match advance_status (me_advance e) VALIDATING "READY_EVIDENCE_CHANGED"
                      ("READY evidence changed during compact lease renewal; republish through VALIDATING -> READY: "
                       +:+ String.concat ", " fields)
                      (verdict_data v (verdict_dict v)) (set_status p' d' c) with
              | (c1, Err err) => (c1, Err err)
              | (c1, Ok _) => done_with (publish_ready (me_publish e) v c1)
              end
          | (p', d', Err err) => (set_status p' d' c, Err (StatusFailure err))
          end
      end
  end.

(** [float(recovery_deadline_s)] after the loss: the terminal cause. *)
Definition recovery_verdict (e : monitor_env) (reason : string) (rc : ReadinessCoordinator.t) c
    : composition B * result composition_error (option FirstCause.t) :=
  let recovery := ReadinessLimits.recovery_deadline_s (DeploymentPlan.readiness (co_plan c)) in
  match co_loss c with
  | Some started =>
      if Float.leb recovery (Float.sub (me_observed_at e) started) then
        let terminal := "readiness did not recover within " +:+ show_seconds recovery +:+ "s: " +:+ reason in
        (set_readiness (Some (ReadinessCoordinator.fail terminal rc)) c,
         Ok (Some (FirstCause.mk "readiness" "READINESS_RECOVERY_EXPIRED" terminal None)))
      else (c, Ok None)
  | None => (c, Ok None)
  end.

(** The branch of a verdict that is not ready. *)
Definition monitor_lost (e : monitor_env) (v : ReadinessVerdict.t) (rc : ReadinessCoordinator.t) c
    : composition B * result composition_error (option FirstCause.t) :=
  let reason := match take 4 (ReadinessVerdict.blockers v) with
                | [] => "readiness predicate lost"
                | l => String.concat "; " (show_blocker <$> l)
                end in
  if bool_decide (ReadinessCoordinator.phase rc = DeploymentPhase.READY) then
    let rc1 := (ReadinessCoordinator.revoke reason false rc).1 in
    let c1 := set_readiness (Some rc1) c in
    let published :=
      match co_status c1 with
      | None => (c1, Ok tt)
      | Some _ =>
          match evaluate_now (me_wall e) rc1 c1 with
          | Err err => (c1, Err err)
          | Ok revoked =>
              advance_status (me_advance e) VALIDATING "READINESS_REVOKED" reason
                (verdict_data revoked (verdict_dict revoked)) c1
          end
      end in
    match published with
    | (c2, Err err) => (c2, Err err)
    | (c2, Ok _) => recovery_verdict e reason rc1 (set_loss (Some (me_observed_at e)) c2)
    end
  else
    let c1 := match co_loss c with
              | None => set_loss (Some (me_observed_at e)) c
              | Some _ => c
              end in
    recovery_verdict e reason rc c1.

(** [monitor_readiness] *)
Definition monitor_readiness (e : monitor_env) c
    : composition B * result composition_error (option FirstCause.t) :=
  match co_readiness c with
  | None => (c, Ok None)
  | Some rc =>
      if negb (bool_decide (ReadinessCoordinator.phase rc ∈ [DeploymentPhase.READY; DeploymentPhase.VALIDATING]))
      then (c, Ok None)
      else
        match me_observer e with
        | Some failure =>
            let reason := "deployment observation protocol failed: " +:+ failure in
            (set_readiness (Some (ReadinessCoordinator.fail reason rc)) c,
             Ok (Some (FirstCause.mk "readiness" "DEPLOYMENT_OBSERVATION_FAILED" reason None)))
        | None =>
            let interval := ReadinessLimits.validation_interval_s (DeploymentPlan.readiness (co_plan c)) in
            if Float.ltb (Float.sub (me_now e) (co_last c)) interval then (c, Ok None)
            else
              let c0 := set_last (me_now e) c in
              match DeploymentPlan.gateway (co_plan c), me_alive e with
              | Some _, Some false =>
                  let reason := "gateway process exited after READY" in
                  if negb (me_gateway_io e) then (c0, Err GatewayEvidenceIo)
                  else
                    (set_readiness (Some (ReadinessCoordinator.revoke reason true rc).1) c0,
                     Ok (Some (FirstCause.mk "gateway" "GATEWAY_FAILURE" reason None)))
              | _, _ =>
                  match observe_turn (me_alive e) (me_health e) (me_evidence e) (me_canary e) rc with
                  | (rc1, Err err) => (set_readiness (Some rc1) c0, Err (EvidenceFailure err))
                  | (rc1, Ok _) =>
                      let c1 := set_readiness (Some rc1) c0 in
                      match evaluate_now (me_wall e) rc1 c1 with
                      | Err err => (c1, Err err)
                      | Ok v => if ReadinessVerdict.ready v then monitor_ready e v rc1 c1
                                else monitor_lost e v rc1 c1
                      end
                  end
              end
        end
  end.

(** ** The initial wait *)

(** One turn of the wait: a cause of termination, the observer's failure, the gateway, the
    evidence, and the canaries ([None]: the deadline had passed before the probe). *)
Record turn := Turn {
  tu_cause : option string;
  tu_observer : option string;
  tu_alive : option bool;
  tu_health : bool;
  tu_gateway_io : bool;
  tu_evidence : evidence;
  tu_canary : string -> option bool;
  tu_wall : float;
}.

(** The loop over the models' canaries ends at the deadline. *)
Fixpoint canaries_until (canary : string -> option bool) (ms : list ModelPlan.t) : list setter :=
  match ms with
  | [] => []
  | m :: ms' =>
      match canary (ModelPlan.model_id m) with
      | None => []
      | Some ok => ReadinessCoordinator.set_canary (VStr (ModelPlan.model_id m)) (VBool ok)
                   :: canaries_until canary ms'
      end
  end.

Definition stop_turn (t : turn) c : option composition_error :=
  match tu_cause t with
  | Some cause => Some (CompositionError cause)
  | None =>
      if match co_sessions c with
         | Some s => bool_decide (SessionCoordinator.generation_state s = GEN_TERMINAL)
         | None => false
         end
      then Some (CompositionError "rank generation became terminal during readiness")
      else match tu_observer t with
           | Some failure => Some (CompositionError ("deployment observation protocol failed: " +:+ failure))
           | None =>
               match DeploymentPlan.gateway (co_plan c), tu_alive t with
               | Some _, Some false =>
                   Some (if tu_gateway_io t
                         then CompositionError "gateway process exited during initial readiness"
                         else GatewayEvidenceIo)
               | _, _ => None
               end
           end
  end.

Definition wait_setters (t : turn) (p : DeploymentPlan.t) : list setter :=
  (match DeploymentPlan.gateway p with
   | Some _ => [ReadinessCoordinator.set_gateway (show_gateway (tu_alive t)) (VBool (tu_health t))]
   | None => []
   end) ++ [apply_deployment_evidence (tu_evidence t)] ++ canaries_until (tu_canary t) (DeploymentPlan.models p).

(** The turns until the deadline; the turn after the last one is beyond it. *)
Fixpoint await_turns (turns : list turn) (rc : ReadinessCoordinator.t) c
    : composition B * result composition_error ReadinessVerdict.t :=
  match turns with
  | [] => (set_readiness (Some rc) c, Err (CompositionError "readiness not satisfied via the advertised endpoint"))
  | t :: rest =>
      match stop_turn t c with
      | Some err => (set_readiness (Some rc) c, Err err)
      | None =>
          match run_setters (wait_setters t (ReadinessCoordinator.plan rc)) rc with
          | (rc1, Err err) => (set_readiness (Some rc1) c, Err (EvidenceFailure err))
          | (rc1, Ok _) =>
              match evaluate_now (tu_wall t) rc1 c with
              | Err err => (set_readiness (Some rc1) c, Err err)
              | Ok v => if ReadinessVerdict.ready v then (set_readiness (Some rc1) c, Ok v)
                        else await_turns rest rc1 c
              end
          end
      end
  end.

(** [await_initial_readiness] *)
Definition await_initial_readiness (turns : list turn) c
    : composition B * result composition_error ReadinessVerdict.t :=
  match co_readiness c with
  | Some rc =>
      if bool_decide (ReadinessCoordinator.phase rc = DeploymentPhase.VALIDATING)
      then await_turns turns rc c
      else (c, Err (CompositionError "initial readiness requires the VALIDATING phase"))
  | None => (c, Err (CompositionError "initial readiness requires the VALIDATING phase"))
  end.

(** The end of the launcher's start: wait, publish, commit (launcher.py). *)
Definition go_live (turns : list turn) (e : publish_env) (wall : float) c
    : composition B * result composition_error ReadinessVerdict.t :=
  match await_initial_readiness turns c with
  | (c1, Err err) => (c1, Err err)
  | (c1, Ok v) =>
      match publish_ready e v c1 with
      | (c2, Err err) => (c2, Err err)
      | (c2, Ok _) =>
          match co_readiness c2 with
          | None => (c2, Err (CompositionError "readiness has not been constructed"))
          | Some rc =>
              match ReadinessCoordinator.commit_ready wall (co_ledger c2) (co_sessions c2) rc with
              | (_, Err err) => (c2, Err (EvidenceFailure err))
              | (rc', Ok committed) =>
                  let c3 := set_readiness (Some rc') c2 in
                  if ReadinessVerdict.ready committed then (c3, Ok committed)
                  else (c3, Err (CompositionError "readiness predicate changed during READY publication"))
              end
          end
      end
  end.
End Root.
