(* ===== verification/VerdictProps.v ===== *)
(** The conditions of a readiness verdict have distinct texts: the published snapshot lists
    them, and the publisher refuses duplicates. *)

From S2P Require Import Prelude PyValue Atomic Json JsonProps Envelopes Contracts Session SessionProps Receipts ReceiptCodec ReceiptCodecProps Bindings BindingsProps Ledger LedgerProps Readiness ReadinessProps Supervisor Status StatusProps Manifest ManifestProps StatusApi StatusApiProps Composition.

(** ** The texts of the satisfied conditions are distinct *)

Lemma split_at_last {A} (x : A) a b u w :
  x ∉ u -> x ∉ w -> a ++ x :: u = b ++ x :: w -> a = b.
Proof.
  revert b. induction a as [|y a IH]; intros [|z b] Hu Hw; cbn; [done|..].
  - intros [= <- ->]. destruct Hu. rewrite elem_of_app, elem_of_cons. auto.
  - intros [= -> <-]. destruct Hw. rewrite elem_of_app, elem_of_cons. auto.
  - intros [= <- Heq]. f_equal. by apply IH.
Qed.

Lemma digits_no_colon ds : forallb is_digit ds = true -> ":"%char ∉ ds.
Proof. intros Hd Hin%list_elem_of_In. rewrite forallb_forall in Hd. by apply Hd in Hin. Qed.

Lemma pretty_N_no_colon (n : N) : ":"%char ∉ chars (pretty n).
Proof.
  unfold pretty, pretty_N. destruct (decide (n = 0)%N) as [->|Hn]; [by apply (bool_decide_unpack _)|].
  destruct (pretty_N_digits_pos n "" ltac:(lia)) as (c & ds & -> & _ & Hd & _).
  rewrite app_nil_r. by apply digits_no_colon.
Qed.

Lemma str_Z_no_colon z : ":"%char ∉ chars (str_Z z).
Proof.
  unfold str_Z, pretty, pretty_Z. destruct z as [|x|x]; [by apply (bool_decide_unpack _)|..].
  - apply pretty_N_no_colon.
  - rewrite chars_app. rewrite not_elem_of_app. split; [by apply (bool_decide_unpack _)|].
    apply pretty_N_no_colon.
Qed.

Lemma model_text_inj id r p id' r' p' :
  show_condition (ModelRunning id r p) = show_condition (ModelRunning id' r' p') -> id = id'.
Proof.
  cbn [show_condition]. intros H%(f_equal chars). rewrite !chars_app in H. apply app_inv_head in H.
  change (chars ": ") with ([":"%char; " "%char]) in H. change (chars "/") with (["/"%char]) in H.
  cbn [app] in H. apply split_at_last in H; [by apply chars_inj|..].
  - rewrite elem_of_cons, elem_of_app, elem_of_cons.
    intros [?|[?%str_Z_no_colon|[?|?%str_Z_no_colon]]]; done.
  - rewrite elem_of_cons, elem_of_app, elem_of_cons.
    intros [?|[?%str_Z_no_colon|[?|?%str_Z_no_colon]]]; done.
Qed.

(** What makes a condition's text unique. *)
Definition ckey (c : condition) : nat * string :=
  match c with
  | SessionsEstablished _ => (0%nat, "")
  | RayExact _ => (1%nat, "")
  | ApplicationsExact _ => (2%nat, "")
  | ProxiesHealthy _ => (3%nat, "")
  | ReceiptsExact _ _ => (4%nat, "")
  | ModelRunning id _ _ => (5%nat, id)
  | GatewayHealthy _ => (6%nat, "")
  | CanariesAnswered _ => (7%nat, "")
  end.

Lemma show_condition_key c c' : show_condition c = show_condition c' -> ckey c = ckey c'.
Proof.
  destruct c, c'; intros H; try reflexivity; try (exfalso; cbn in H; discriminate H).
  apply model_text_inj in H. by subst.
Qed.

Lemma show_condition_nonempty c : nonempty (show_condition c) = true.
Proof. by destruct c. Qed.

Lemma NoDup_fmap_key {A B C} (f : A -> B) (g : A -> C) l :
  (forall x y, f x = f y -> g x = g y) -> NoDup (g <$> l) -> NoDup (f <$> l).
Proof.
  intros Hfg. induction l as [|x l IH]; cbn; [constructor|]. rewrite !NoDup_cons. intros [Hx Hl].
  split; [|auto]. intros (y & Heq & Hy)%list_elem_of_fmap. apply Hx. rewrite (Hfg _ _ Heq). by apply list_elem_of_fmap_2.
Qed.

Section Conditions.
Context {B : Type}.

(** The conditions that the evaluation can note, in their order. *)
Definition noted (c : ReadinessCoordinator.t) (l : list condition) : Prop :=
  ckey <$> l `sublist_of`
    [(0%nat, ""); (1%nat, ""); (2%nat, ""); (3%nat, ""); (4%nat, "")] ++
    (pair 5%nat <$> (ModelPlan.model_id <$> DeploymentPlan.models (ReadinessCoordinator.plan c))) ++
    [(6%nat, ""); (7%nat, "")].

Import ReadinessCoordinator.

Lemma no_conditions (l : list report) : Forall (fun r => conditions r = []) l -> conditions (joins l) = [].
Proof. induction 1 as [|r l Hr _ IH]; [done|]. cbn [joins foldr]. cbn [conditions join]. by rewrite Hr. Qed.

Lemma no_conditions_map {A} (f : A -> report) l : (forall x, conditions (f x) = []) -> conditions (joins (f <$> l)) = [].
Proof. intros Hf. apply no_conditions, Forall_fmap, Forall_true. intros x. apply Hf. Qed.

Lemma conditions_note_unless p n r :
  conditions (note_unless p n r) `sublist_of` conditions r ++ [n].
Proof. unfold note_unless. case_match; [by apply sublist_inserts_r|done]. Qed.

Lemma conditions_ranks by_name c entries m m' :
  fold_res (match_rank c by_name) m entries = Ok m' -> conditions (ray_report m') = conditions (ray_report m).
Proof.
  revert m. induction entries as [|[rank name] entries IH]; intros m; [by intros [= <-]|].
  cbn [fold_res]. intros (m1 & H1 & H)%bind_Ok. rewrite (IH _ H). unfold match_rank in H1.
  assert (forall x y : report, conditions y = [] -> conditions (x ⊕ y) = conditions x) as Hj.
  { intros x y Hy. cbn. by rewrite Hy, app_nil_r. }
  destruct (default [] _) as [|n [|]]; res_inv; simplify_eq; cbn [ray_report]; apply Hj; try done.
  match goal with Hr : resources_report _ _ _ = Ok _ |- _ => unfold resources_report in Hr; res_inv; simplify_eq; repeat case_match; by simplify_eq end.
Qed.

Definition keys (r : report) : list (nat * string) := ckey <$> conditions r.

Lemma keys_join a b : keys (a ⊕ b) = keys a ++ keys b.
Proof. apply fmap_app. Qed.

Lemma keys_nil r : conditions r = [] -> keys r = [].
Proof. unfold keys. by intros ->. Qed.

Lemma keys_note_unless p n r l k :
  ckey n = k -> keys r `sublist_of` l -> keys (note_unless p n r) `sublist_of` l ++ [k].
Proof.
  intros <- Hr. unfold note_unless. case_match; [by apply sublist_inserts_r|].
  rewrite keys_join. by apply sublist_app.
Qed.

Lemma keys_sessions s c : keys (sessions_report s c) `sublist_of` [(0%nat, "")].
Proof. unfold sessions_report. destruct s; [|apply sublist_nil_l]. destruct (decide _), (bool_decide _); unfold keys; cbn; first [done|apply sublist_nil_l]. Qed.

Lemma keys_models c ms :
  keys (joins (model_report c <$> ms)) `sublist_of` pair 5%nat <$> (ModelPlan.model_id <$> ms).
Proof.
  induction ms as [|m ms IH]; [done|]. cbn [fmap list_fmap joins foldr].
  fold (joins (model_report c <$> ms)). rewrite keys_join.
  apply (sublist_app _ [(5%nat, ModelPlan.model_id m)]); [|exact IH].
  unfold model_report. destruct (replicas_of c m) as [running target]. rewrite keys_join.
  assert (keys (if target =? ModelPlan.num_replicas m then clear
     else block_unhealthy (ModelTarget (ModelPlan.model_id m) target (ModelPlan.num_replicas m))
            {[ "model/" +:+ ModelPlan.model_id m +:+ "/replica-target" ]}) = []) as -> by by case_match.
  cbn [app]. case_match; [done|]. case_match; apply sublist_nil_l.
Qed.

(** Every condition that is noted is noted once. *)
Lemma full_conditions (l : Ledger.t B) s c r : full_report l s c = Ok r -> noted c (conditions r).
Proof.
  unfold full_report. intros (m & Hm & H)%bind_Ok. apply bind_Ok in H as (expected & _ & H).
  apply conditions_ranks in Hm. cbn [ray_report] in Hm.
  set (r1 := note_unless is_ray _ _) in H.
  assert (keys r1 `sublist_of` [(0%nat, ""); (1%nat, "")]) as H1.
  { apply (keys_note_unless is_ray _ _ [(0%nat, "")] (1%nat, "")); [done|]. rewrite keys_join.
    assert (keys (extra_report c (matched_ids m)) = []) as -> by (unfold extra_report; by destruct (merge_sort _ _)).
    rewrite app_nil_r. unfold keys. rewrite Hm. apply keys_sessions. }
  set (r3 := r1 ⊕ _ ⊕ _ ⊕ applications_report expected c) in H.
  assert (keys r3 `sublist_of` [(0%nat, ""); (1%nat, ""); (2%nat, "")]) as H3.
  { unfold r3. rewrite !keys_join.
    rewrite (keys_nil (joins (rank_component_report c <$> _))) by (apply no_conditions_map; intros x; unfold rank_component_report; by destruct (default _ _)).
    rewrite (keys_nil (joins (owned_component_report c <$> _))) by (apply no_conditions_map; intros x; unfold owned_component_report; by destruct (default _ _)).
    rewrite !app_nil_r. apply (sublist_app _ [(0%nat, ""); (1%nat, "")]); [done|]. unfold applications_report.
    destruct (sorted_text (expected ∖ _)), (sorted_text (application_names c ∖ _));
      unfold keys; cbn; first [done|apply sublist_nil_l]. }
  set (ids := expected_proxy_ids c m) in H. set (r4 := r3 ⊕ _ ⊕ unplanned_proxies_report c ids) in H.
  assert (keys r4 `sublist_of` [(0%nat, ""); (1%nat, ""); (2%nat, "")]) as H4.
  { unfold r4. rewrite !keys_join.
    rewrite (keys_nil (joins (proxy_report c <$> _))) by (apply no_conditions_map; intros x; unfold proxy_report; destruct (proxy_healthy _); [done|]; by case_bool_decide).
    rewrite (keys_nil (unplanned_proxies_report c ids)) by (unfold unplanned_proxies_report; destruct (sorted_text (dom _ ∖ ids)); reflexivity).
    by rewrite !app_nil_r. }
  set (r5 := if decide (ids = ∅) then r4 else _) in H.
  assert (keys r5 `sublist_of` [(0%nat, ""); (1%nat, ""); (2%nat, ""); (3%nat, "")]) as H5.
  { unfold r5. destruct (decide (ids = ∅)); [by apply (sublist_inserts_r [(3%nat, "")] _ [(0%nat, ""); (1%nat, ""); (2%nat, "")])|]. by apply (keys_note_unless is_proxy _ _ [(0%nat, ""); (1%nat, ""); (2%nat, "")] (3%nat, "")). }
  set (r6 := r5 ⊕ _ ⊕ _ ⊕ _ ⊕ _) in H.
  set (ms := pair 5%nat <$> (ModelPlan.model_id <$> DeploymentPlan.models (plan c))).
  assert (keys r6 `sublist_of` ([(0%nat, ""); (1%nat, ""); (2%nat, ""); (3%nat, ""); (4%nat, "")] ++ ms) ++ [(6%nat, "")]) as H6.
  { unfold r6. rewrite !keys_join.
    rewrite (keys_nil (joins (route_report c <$> _))) by (apply no_conditions_map; intros x; unfold route_report; by destruct (default _ _), (default _ _)).
    rewrite app_nil_r. repeat apply sublist_app; [|apply keys_models|].
    - apply (sublist_app _ [(0%nat, ""); (1%nat, ""); (2%nat, ""); (3%nat, "")]); [done|]. unfold receipts_report.
      destruct (Ledger.satisfied l); [done|]. destruct (Ledger.missing l), (Ledger.unexpected l); apply sublist_nil_l.
    - unfold endpoint_report. repeat case_match; unfold keys; cbn; first [done|apply sublist_nil_l]. }
  change (noted c (conditions r)) with (keys r `sublist_of`
    [(0%nat, ""); (1%nat, ""); (2%nat, ""); (3%nat, ""); (4%nat, "")] ++ ms ++ [(6%nat, ""); (7%nat, "")]).
  change [(6%nat, ""); (7%nat, "")] with ([(6%nat, "")] ++ [(7%nat, "")]). rewrite !app_assoc.
  injection H as <-. destruct (DeploymentPlan.models (plan c)) eqn:Hms; [by apply sublist_inserts_r|].
  by apply keys_note_unless.
Qed.

Lemma noted_distinct c l :
  noted c l -> NoDup (ModelPlan.model_id <$> DeploymentPlan.models (ReadinessCoordinator.plan c)) ->
  NoDup (show_condition <$> l).
Proof.
  intros Hn Hids. apply (NoDup_fmap_key _ ckey); [apply show_condition_key|].
  eapply sublist_NoDup; [|exact Hn].
  assert (NoDup (pair 5%nat <$> (ModelPlan.model_id <$> DeploymentPlan.models (plan c)))) as Hm
    by (apply NoDup_fmap_2; [by intros ?? [=]|done]).
  apply NoDup_app. split; [by apply (bool_decide_unpack _)|]. split.
  - intros x Hx. rewrite elem_of_app. intros [(y & -> & _)%list_elem_of_fmap|Hy].
    + revert Hx. rewrite !elem_of_cons, elem_of_nil. by intros [?|[?|[?|[?|[?|?]]]]].
    + revert Hx Hy. rewrite !elem_of_cons, !elem_of_nil. naive_solver.
  - apply NoDup_app. split; [done|]. split; [|by apply (bool_decide_unpack _)].
    intros x (y & -> & _)%list_elem_of_fmap. rewrite !elem_of_cons, elem_of_nil. naive_solver.
Qed.
End Conditions.
