(* ===== verification/PayloadProps.v ===== *)
(** A publishable verdict passes the publisher's checks: the payload of READY, field by
    field. *)

From S2P Require Import Prelude PyValue Atomic Json JsonProps Envelopes Contracts Session SessionProps Receipts ReceiptCodec ReceiptCodecProps Bindings BindingsProps Ledger LedgerProps Readiness ReadinessProps Supervisor Status StatusProps Manifest ManifestProps StatusApi StatusApiProps Composition VerdictProps.

(** ** What the publisher asks of a payload *)

Lemma py_eqb_dict_refl (d : dict) :
  NoDup (dkeys d) -> Forall (fun kv => py_eqb kv.2 kv.2 = true) d -> py_eqb (VDict d) (VDict d) = true.
Proof.
  intros Hnd Hv. cbn [py_eqb]. rewrite Nat.eqb_refl. cbn [andb].
  assert (forall x : dict, (forall kv, kv ∈ x -> kv ∈ d) -> Forall (fun kv => py_eqb kv.2 kv.2 = true) x ->
    (fix go (x : list (string * value)) : bool :=
         match x with
         | [] => true
         | (k, u) :: x' =>
             match dget k d with
             | Some v => py_eqb u v && go x'
             | None => false
             end
         end) x = true) as Hgo; [|by apply Hgo].
  induction x as [|[k u] x IH]; intros Hin Hx; [done|]. apply Forall_cons in Hx as [Hu Hx].
  rewrite (proj1 (elem_of_dget k u d Hnd)) by (apply Hin; by left). cbn in Hu. rewrite Hu. cbn [andb].
  apply IH; [|done]. intros kv Hkv. apply Hin. by right.
Qed.

Lemma mapM_nonempty l : Forall (fun s => nonempty s = true) l -> mapM nonempty_str (VStr <$> l) = Some l.
Proof. induction 1 as [|s l Hs _ IH]; [done|]. cbn. by rewrite Hs, IH. Qed.

(** A list of distinct texts that is as sorted as it must be. *)
Lemma string_sequence_texts name sorted l :
  Forall (fun s => nonempty s = true) l -> NoDup l -> (sorted = true -> sorted_set l = l) ->
  string_sequence name sorted (texts l) = Ok l.
Proof.
  intros Hne Hnd Hs. unfold string_sequence, texts, value_error_if. rewrite (mapM_nonempty l Hne), (bool_decide_true (NoDup l)) by exact Hnd.
  destruct sorted; cbn [andb negb raise_if mbind result_bind]; [|done].
  rewrite bool_decide_true by auto. done.
Qed.

Lemma same_keys_intro a b : (forall k, k ∈ a <-> k ∈ b) -> same_keys a b = true.
Proof.
  intros H. unfold same_keys. apply andb_true_intro. split; apply forallb_forall; intros k Hk%list_elem_of_In;
    apply bool_decide_eq_true, H, Hk.
Qed.

Lemma collect_fmap {A B C E} (f : B -> result E C) (h : A -> B) (g : A -> C) l :
  (forall x, x ∈ l -> f (h x) = Ok (g x)) -> collect f (h <$> l) = Ok (g <$> l).
Proof.
  induction l as [|x l IH]; intros Hf; [done|]. cbn [fmap list_fmap collect]. rewrite Hf by by left.
  cbn [mbind result_bind]. rewrite IH; [done|]. intros y Hy. apply Hf. by right.
Qed.

Lemma attr_elem k (x : value) d : NoDup (dkeys d) -> (k, x) ∈ d -> attr k d = x.
Proof. intros Hd Hx. unfold attr, dget_default. by rewrite (dget_elem k x d Hd Hx). Qed.

Lemma dset_fresh {A} k (v : A) d : k ∉ dkeys d -> dset k v d = d ++ [(k, v)].
Proof.
  induction d as [|[k' v'] d IH]; [done|]. intros [Hne Hd]%not_elem_of_cons. cbn [dset].
  rewrite decide_False by done. cbn [app]. by rewrite (IH Hd).
Qed.

Lemma fold_dset {A B} (key : A -> string) (val : A -> B) l acc :
  NoDup (dkeys acc ++ (key <$> l)) ->
  fold_left (fun d x => dset (key x) (val x) d) l acc = acc ++ ((fun x => (key x, val x)) <$> l).
Proof.
  revert acc. induction l as [|x l IH]; intros acc Hnd; [by rewrite app_nil_r|].
  cbn [fold_left fmap list_fmap] in *.
  assert (key x ∉ dkeys acc) as Hx.
  { intros Hin. apply NoDup_app in Hnd as (_ & Hd & _). apply (Hd (key x) Hin). by left. }
  rewrite dset_fresh by done. rewrite IH; [by rewrite <- app_assoc|].
  unfold dkeys in *. by rewrite fmap_app, <- app_assoc.
Qed.

(** An entry of the capability map. *)
Definition capability_ok (kv : string * list string) : Prop :=
  nonempty kv.1 = true /\ Forall (fun s => nonempty s = true) kv.2 /\
  NoDup kv.2 /\ sorted_set kv.2 = kv.2.

(** A verdict that a publisher of the plan can publish. *)
Record publishable (p : DeploymentPlan.t) (v : ReadinessVerdict.t) : Prop := Publishable {
  pv_blockers : ReadinessVerdict.blockers v = [];
  pv_missing : ReadinessVerdict.missing_identities v = [];
  pv_unhealthy : ReadinessVerdict.unhealthy_identities v = [];
  pv_satisfied : NoDup (show_condition <$> ReadinessVerdict.satisfied v);
  pv_endpoint : nonempty (ReadinessVerdict.advertised_endpoint v) = true;
  pv_hashes : forallb is_sha256 (ReadinessVerdict.receipt_hashes v) = true;
  pv_hashes_nodup : NoDup (ReadinessVerdict.receipt_hashes v);
  pv_hashes_sorted : sorted_set (ReadinessVerdict.receipt_hashes v) = ReadinessVerdict.receipt_hashes v;
  pv_observed : Float.is_finite (ReadinessVerdict.observed_at v) = true /\
    not_positive (VFloat (ReadinessVerdict.observed_at v)) = false;
  pv_model_ids : NoDup (ModelPlan.model_id <$> DeploymentPlan.models p);
  pv_models : Forall (fun m => nonempty (ModelPlan.model_id m) = true /\
    nonempty (ModelPlan.route_name m) = true /\ 0 <= ModelPlan.num_replicas m) (DeploymentPlan.models p);
  pv_model_map : ReadinessVerdict.model_map v
    = (fun m => (ModelPlan.model_id m, (ModelPlan.route_name m, ModelPlan.num_replicas m,
                   ModelPlan.num_replicas m, ModelPlan.num_replicas m))) <$> DeploymentPlan.models p;
  pv_capabilities : Forall capability_ok (ReadinessVerdict.capability_map v);
  pv_capability_keys : NoDup (dkeys (ReadinessVerdict.capability_map v));
  pv_nodes : Forall (fun n => node_ok n /\ node_text n /\ Node.alive n = true) (ReadinessVerdict.nodes v);
  pv_node_ids : NoDup (Node.node_id <$> ReadinessVerdict.nodes v);
  pv_node_count : Z.of_nat (length (ReadinessVerdict.nodes v)) = DeploymentPlan.num_nodes p;
  pv_proxies : Forall (fun x => nonempty (Proxy.node_id x) = true /\ Proxy.status x = "HEALTHY")
    (ReadinessVerdict.proxies v);
  pv_proxy_ids : NoDup (Proxy.node_id <$> ReadinessVerdict.proxies v);
  pv_proxy_nodes : forall id, id ∈ Proxy.node_id <$> ReadinessVerdict.proxies v ->
    id ∈ Node.node_id <$> ReadinessVerdict.nodes v;
  pv_proxy_count : Z.of_nat (length (ReadinessVerdict.proxies v))
    = if DeploymentPlan.uses_head_only_serve_proxy p then 1 else DeploymentPlan.num_nodes p
}.

(** ** The checks, one by one *)

(** The fields of a model's entry. *)
Ltac model_attrs m :=
  change (attr "route_name" _) with (VStr (ModelPlan.route_name m));
  change (attr "expected_replicas" _) with (VInt (ModelPlan.num_replicas m));
  change (attr "observed_replicas" _) with (VInt (ModelPlan.num_replicas m));
  change (attr "observed_target" _) with (VInt (ModelPlan.num_replicas m)).

Section Payload.
Context (p : DeploymentPlan.t) (v : ReadinessVerdict.t) (Hv : publishable p v).

Lemma model_map_fields :
  model_map_value v = VDict ((fun m => (ModelPlan.model_id m, model_value (ModelPlan.route_name m,
    ModelPlan.num_replicas m, ModelPlan.num_replicas m, ModelPlan.num_replicas m))) <$> DeploymentPlan.models p).
Proof.
  unfold model_map_value, map_values. rewrite (pv_model_map p v Hv).
  change (map (fun kv => (kv.1, model_value kv.2)) ?l) with ((fun kv => (kv.1, model_value kv.2)) <$> l).
  by rewrite <- list_fmap_compose.
Qed.

Lemma model_map_keys : exists d, model_map_value v = VDict d /\
  dkeys d = ModelPlan.model_id <$> DeploymentPlan.models p.
Proof. rewrite model_map_fields. eexists. split; [done|]. unfold dkeys. by rewrite <- list_fmap_compose. Qed.

Lemma model_map_valid d : model_map_value v = VDict d -> validate_model_map (VDict d) = Ok d.
Proof.
  intros Hd. unfold validate_model_map.
  match goal with |- (_ ← for_each ?f d; _) = _ => assert (for_each f d = Ok tt) as ->; [|done] end.
  apply for_each_Ok. rewrite model_map_fields in Hd. injection Hd as <-.
  apply Forall_fmap, (Forall_impl _ _ _ (pv_models p v Hv)). intros m (H1 & H2 & H3). cbn [compose fst snd model_value].
  unfold value_error_if. rewrite H1. cbn [negb raise_if mbind result_bind].
  assert (forall r x, same_keys (dkeys [("route_name", VStr r); ("expected_replicas", VInt x);
         ("observed_replicas", VInt x); ("observed_target", VInt x)]) MODEL_FIELDS = true) as -> by reflexivity.
  apply Z.leb_le in H3. cbn [for_each negb raise_if mbind result_bind].
  model_attrs m.
  unfold is_text. cbn [nonempty_str is_count]. by rewrite H2, H3.
Qed.

Lemma model_map_refl : py_eqb (model_map_value v) (model_map_value v) = true.
Proof.
  rewrite model_map_fields. apply py_eqb_dict_refl.
  - unfold dkeys. rewrite <- list_fmap_compose. apply Hv.
  - apply Forall_fmap, Forall_true. intros m. cbn [compose snd model_value].
    apply py_eqb_dict_refl; [by apply (bool_decide_unpack _)|]. repeat constructor; cbn [snd];
      [apply py_eqb_str_refl|apply py_eqb_int_refl..].
Qed.

Lemma models_checked d : model_map_value v = VDict d -> check_plan_models p d = Ok tt.
Proof.
  intros Hd. unfold check_plan_models, value_error_if. destruct model_map_keys as (d' & Hd' & Hk).
  rewrite Hd in Hd'. injection Hd' as <-. rewrite same_keys_intro by by rewrite Hk. cbn [negb raise_if mbind result_bind].
  assert (forallb (model_agrees d) (DeploymentPlan.models p) = true) as ->; [|done].
  apply forallb_forall. intros m Hm%list_elem_of_In. unfold model_agrees.
  assert (attr (ModelPlan.model_id m) d = model_value (ModelPlan.route_name m,
    ModelPlan.num_replicas m, ModelPlan.num_replicas m, ModelPlan.num_replicas m)) as ->.
  { rewrite model_map_fields in Hd. injection Hd as <-. apply attr_elem.
    - unfold dkeys. rewrite <- list_fmap_compose. apply Hv.
    - apply list_elem_of_fmap. eauto. }
  cbn [model_value].
  model_attrs m.
  unfold num_ltb. cbn. by rewrite bool_decide_true, Z.compare_refl by done.
Qed.
Lemma capability_map_valid : exists d, capability_map_value v = VDict d /\
  validate_capability_map (VDict d) = Ok d /\ py_eqb (VDict d) (VDict d) = true.
Proof.
  unfold capability_map_value, map_values.
  change (map (fun kv => (kv.1, texts kv.2)) ?l) with ((fun kv => (kv.1, texts kv.2)) <$> l).
  eexists. split; [reflexivity|]. split.
  - unfold validate_capability_map.
    match goal with |- (_ ← for_each ?f ?d; _) = _ => assert (for_each f d = Ok tt) as ->; [|done] end.
    apply for_each_Ok, Forall_fmap, (Forall_impl _ _ _ (pv_capabilities p v Hv)).
    intros [k l] (H1 & H2 & H3 & H4). cbn [compose fst snd] in *. unfold value_error_if.
    rewrite H1, string_sequence_texts by auto. done.
  - apply py_eqb_dict_refl.
    + unfold dkeys. rewrite <- list_fmap_compose. exact (pv_capability_keys p v Hv).
    + apply Forall_fmap, Forall_true. intros [k l]. apply py_eqb_texts.
Qed.

Lemma resource_checked x : resource_ok x ->
  check_number OverflowError (ValueError "node amount is invalid") negative x = Ok (resource x).
Proof. intros (H1 & H2 & H3 & H4). unfold check_number, negative.
  rewrite H3. cbn [negb raise_if mbind result_bind]. rewrite H2. cbn [mbind result_bind]. by rewrite H1, H4.
Qed.

Lemma node_checked n : node_ok n -> node_text n -> Node.alive n = true ->
  validate_node (node_value n) = Ok (Node.node_id n).
Proof.
  intros [Hc Hg] (H1 & H2 & H3) Ha. unfold validate_node, node_value, value_error_if.
  match goal with |- context [same_keys ?a ?b] => assert (same_keys a b = true) as -> by reflexivity end.
  cbn [for_each negb raise_if mbind result_bind].
  change (attr "node_id" _) with (VStr (Node.node_id n)). change (attr "node_name" _) with (VStr (Node.node_name n)).
  change (attr "node_address" _) with (VStr (Node.node_address n)). change (attr "alive" _) with (VBool (Node.alive n)).
  change (attr "cpu" _) with (Node.cpu n). change (attr "gpu" _) with (Node.gpu n).
  rewrite (resource_checked _ Hc), (resource_checked _ Hg). unfold is_text. cbn [nonempty_str].
  by rewrite H1, H2, H3, Ha.
Qed.

Lemma proxy_checked x : nonempty (Proxy.node_id x) = true -> Proxy.status x = "HEALTHY" ->
  validate_proxy (proxy_value x) = Ok (Proxy.node_id x).
Proof.
  intros H1 H2. unfold validate_proxy, proxy_value.
  match goal with |- context [same_keys ?a ?b] => assert (same_keys a b = true) as -> by reflexivity end.
  cbn [negb raise_if mbind result_bind].
  change (attr "node_id" _) with (VStr (Proxy.node_id x)). change (attr "status" _) with (VStr (Proxy.status x)).
  rewrite H2. cbn [nonempty_str]. by rewrite H1.
Qed.

Lemma exactly_fmap {A} (f : A -> value) l n message :
  Z.of_nat (length l) = n -> exactly n message (VList (f <$> l)) = Ok (f <$> l).
Proof. intros <-. unfold exactly, value_error_if. by rewrite length_fmap, Z.eqb_refl. Qed.

Lemma cluster_checked :
  validate_cluster_projection (VList (node_value <$> ReadinessVerdict.nodes v))
    (VList (proxy_value <$> ReadinessVerdict.proxies v)) (DeploymentPlan.num_nodes p)
    (if bool_decide (plan_mode p = RAY_SERVE_HEAD_ONLY) then 1 else DeploymentPlan.num_nodes p) = Ok tt.
Proof.
  unfold validate_cluster_projection. pose proof (pv_proxy_count p v Hv) as Hpc.
  change (DeploymentPlan.uses_head_only_serve_proxy p) with (bool_decide (plan_mode p = RAY_SERVE_HEAD_ONLY)) in Hpc.
  set (n := if bool_decide _ then _ else _) in *.
  rewrite (exactly_fmap _ _ _ _ (pv_node_count p v Hv)), (exactly_fmap _ _ _ _ Hpc).
  cbn [mbind result_bind].
  rewrite (collect_fmap validate_node node_value Node.node_id); cycle 1.
  { intros x Hx. pose proof (pv_nodes p v Hv) as H. rewrite Forall_forall in H. destruct (H x Hx) as (? & ? & ?).
    by apply node_checked. }
  cbn [mbind result_bind]. unfold value_error_if.
  rewrite (collect_fmap validate_proxy proxy_value Proxy.node_id); cycle 1.
  { intros x Hx. pose proof (pv_proxies p v Hv) as H. rewrite Forall_forall in H. destruct (H x Hx).
    by apply proxy_checked. }
  rewrite (bool_decide_true (NoDup (Node.node_id <$> ReadinessVerdict.nodes v))) by apply Hv.
  cbn [negb raise_if mbind result_bind].
  rewrite (bool_decide_true (NoDup (Proxy.node_id <$> ReadinessVerdict.proxies v))) by apply Hv.
  cbn [negb raise_if mbind result_bind].
  assert (forallb (fun i => bool_decide (i ∈ Node.node_id <$> ReadinessVerdict.nodes v))
            (Proxy.node_id <$> ReadinessVerdict.proxies v) = true) as ->.
  { apply forallb_forall. intros i Hi%list_elem_of_In. apply bool_decide_eq_true, (pv_proxy_nodes p v Hv), Hi. }
  cbn [negb raise_if mbind result_bind].
  destruct (Z.eqb_spec n (DeploymentPlan.num_nodes p)) as [Heq|]; [|done]. cbn [andb].
  rewrite same_keys_intro; [done|]. intros i. split; [apply (pv_proxy_nodes p v Hv)|].
  assert (Proxy.node_id <$> ReadinessVerdict.proxies v ≡ₚ Node.node_id <$> ReadinessVerdict.nodes v) as ->; [|done].
  apply submseteq_length_Permutation.
  - apply NoDup_submseteq; [apply Hv|]. intros x. apply (pv_proxy_nodes p v Hv).
  - rewrite !length_fmap. pose proof (pv_node_count p v Hv). lia.
Qed.
(** The snapshot as the publisher completes it. *)
Definition completed (sb : blocker -> string) (cf : config) (path hash : string) (w m : float) (b : string) : dict :=
  dupdate (published_snapshot sb v path hash)
    (ready_fields cf (VStr (ReadinessVerdict.advertised_endpoint v)) (ReadinessVerdict.receipt_hashes v)
       (lease_at cf w m b)).

Lemma sha_nonempty l : forallb is_sha256 l = true -> Forall (fun s => nonempty s = true) l.
Proof.
  intros Hl. apply Forall_forall. intros s Hs%list_elem_of_In. rewrite forallb_forall in Hl.
  apply Hl in Hs. by destruct s.
Qed.

Lemma payload_valid sb cf path hash w m b :
  validate_ready_payload (VDict (completed sb cf path hash w m b)) (model_map_value v) (capability_map_value v)
    (DeploymentPlan.num_nodes p) (plan_mode p) (Some p) = Ok tt.
Proof.
  unfold validate_ready_payload.
  assert (same_keys (dkeys (completed sb cf path hash w m b)) READY_SNAPSHOT_FIELDS = true) as -> by reflexivity.
  unfold value_error_if. cbn [negb raise_if mbind result_bind].
  change (attr "ready" (completed _ _ _ _ _ _ _)) with (VBool true).
  change (attr "phase" (completed _ _ _ _ _ _ _)) with (VStr "READY").
  change (attr "blockers" (completed _ _ _ _ _ _ _)) with (texts (sb <$> ReadinessVerdict.blockers v)).
  change (attr "satisfied" (completed _ _ _ _ _ _ _)) with (texts (show_condition <$> ReadinessVerdict.satisfied v)).
  change (attr "missing_identities" (completed _ _ _ _ _ _ _)) with (texts (ReadinessVerdict.missing_identities v)).
  change (attr "unhealthy_identities" (completed _ _ _ _ _ _ _)) with (texts (ReadinessVerdict.unhealthy_identities v)).
  change (attr "receipt_hashes" (completed _ _ _ _ _ _ _)) with (texts (ReadinessVerdict.receipt_hashes v)).
  change (attr "observed_at" (completed _ _ _ _ _ _ _)) with (VFloat (ReadinessVerdict.observed_at v)).
  change (attr "model_map" (completed _ _ _ _ _ _ _)) with (model_map_value v).
  change (attr "capability_map" (completed _ _ _ _ _ _ _)) with (capability_map_value v).
  change (attr "nodes" (completed _ _ _ _ _ _ _)) with (VList (node_value <$> ReadinessVerdict.nodes v)).
  change (attr "proxies" (completed _ _ _ _ _ _ _)) with (VList (proxy_value <$> ReadinessVerdict.proxies v)).
  rewrite (pv_blockers p v Hv), (pv_missing p v Hv), (pv_unhealthy p v Hv).
  change (sb <$> []) with (@nil string). rewrite (string_sequence_texts "blockers" false []) by (done || constructor).
  rewrite (string_sequence_texts "satisfied" false); [..|apply Hv|done].
  2: { apply Forall_fmap, Forall_true. intros x. apply show_condition_nonempty. }
  rewrite (string_sequence_texts "missing_identities" true []) by (done || constructor).
  rewrite (string_sequence_texts "unhealthy_identities" true []) by (done || constructor).
  rewrite (string_sequence_texts "receipt_hashes" true); [..|apply Hv|intros _; apply Hv].
  2: { apply sha_nonempty, Hv. }
  cbn [is_true py_eqb negb orb raise_if mbind result_bind]. rewrite (pv_hashes p v Hv).
  destruct (pv_observed p v Hv) as [Hf Hp]. unfold check_number. cbn [is_number to_float negb raise_if mbind result_bind].
  rewrite Hf, Hp. destruct model_map_keys as (mm & Hmm & _).
  pose proof model_map_refl as Hr. rewrite Hmm in *. rewrite (model_map_valid mm Hmm).
  destruct capability_map_valid as (cm & -> & -> & Hc). cbn [negb raise_if mbind result_bind].
  rewrite Hr, Hc. cbn [negb raise_if mbind result_bind]. rewrite (bool_decide_true (plan_mode p = plan_mode p)) by done.
  cbn [negb raise_if mbind result_bind]. rewrite cluster_checked. cbn [mbind result_bind].
  exact (models_checked mm Hmm).
Qed.
End Payload.

(** ** A ready verdict over a clean cluster is publishable *)

(** What the publisher asks beyond readiness: no dead node is left in the projection, and every
    proxy's status is spelt HEALTHY. *)
Definition clean_cluster (c : ReadinessCoordinator.t) : Prop :=
  Forall (fun n => Node.alive n = true) (ReadinessCoordinator.nodes c) /\
  Forall (fun x => Proxy.status x = "HEALTHY") (ReadinessCoordinator.proxies c).

Lemma clean_alive c : clean_cluster c -> ReadinessCoordinator.alive_nodes c = ReadinessCoordinator.nodes c.
Proof.
  intros [Ha _]. unfold ReadinessCoordinator.alive_nodes. induction Ha as [|n l Hn _ IH]; [done|].
  by rewrite filter_cons, decide_True, IH.
Qed.

Lemma sorted_set_merge l : NoDup l -> sorted_set (merge_sort string_le l) = merge_sort string_le l.
Proof.
  intros Hl. unfold sorted_set. apply (StronglySorted_unique string_le);
    [apply (StronglySorted_merge_sort string_le)..|].
  rewrite merge_sort_Permutation. apply NoDup_Permutation; [apply NoDup_remove_dups| |].
  - by rewrite merge_sort_Permutation.
  - intros x. by rewrite elem_of_remove_dups.
Qed.

Lemma sorted_set_nodup l : sorted_set l = l -> NoDup l.
Proof. intros <-. unfold sorted_set. rewrite merge_sort_Permutation. apply NoDup_remove_dups. Qed.

Lemma model_map_of_NoDup c :
  NoDup (ModelPlan.model_id <$> DeploymentPlan.models (ReadinessCoordinator.plan c)) ->
  ReadinessCoordinator.model_map_of c = (fun m => (ModelPlan.model_id m,
    (ModelPlan.route_name m, ModelPlan.num_replicas m, (ReadinessCoordinator.replicas_of c m).1,
     (ReadinessCoordinator.replicas_of c m).2))) <$> DeploymentPlan.models (ReadinessCoordinator.plan c).
Proof.
  intros Hnd. unfold ReadinessCoordinator.model_map_of.
  rewrite <- (app_nil_l (_ <$> DeploymentPlan.models _)), <- (fold_dset ModelPlan.model_id (fun m =>
    (ModelPlan.route_name m, ModelPlan.num_replicas m, (ReadinessCoordinator.replicas_of c m).1,
     (ReadinessCoordinator.replicas_of c m).2)) _ []) by exact Hnd.
  generalize (@nil (string * (string * Z * Z * Z))). clear Hnd.
  induction (DeploymentPlan.models (ReadinessCoordinator.plan c)) as [|m ms IH]; intros acc; [done|].
  cbn [fold_left]. rewrite <- IH. by destruct (ReadinessCoordinator.replicas_of c m).
Qed.

(** Exactly one node is rank 0's. *)
Lemma head_node_unique b (ns : list Node.t) :
  AllocationBinding.post_init b = Ok tt -> AllocationBinding.rank_to_node b <> [] ->
  (node_key <$> ns) ≡ₚ (canonical_node_id <$> (AllocationBinding.rank_to_node b).*2) ->
  exists h, h ∈ ns /\ forall n, n ∈ ns -> AllocationBinding.is_bound_node b 0 (Node.node_name n) = true <-> n = h.
Proof.
  intros Hb Hne Hp. destruct (binding_names b Hb) as (Hr & Hn & Hnon & H0).
  unfold AllocationBinding.is_bound_node, AllocationBinding.node_for.
  destruct (AllocationBinding.node_for_in _ 0) as [bound|] eqn:Hf.
  2: { exfalso. apply node_for_in_None in Hf. destruct (AllocationBinding.rank_to_node b) as [|e l] eqn:E; [done|].
       apply Hf, (H0 e). by left. }
  apply node_for_in_Some in Hf. pose proof (proj1 (Forall_forall _ _) Hnon _ Hf : nonempty (canonical_node_id bound) = true) as Hbn.
  assert (canonical_node_id bound ∈ node_key <$> ns) as (h & Hk & Hh)%list_elem_of_fmap.
  { rewrite Hp. apply list_elem_of_fmap. exists bound. split; [done|]. apply list_elem_of_fmap. by exists (0, bound). }
  exists h. split; [done|]. intros n Hin. unfold same_node. rewrite Hbn. cbn [andb]. rewrite bool_decide_eq_true.
  split; [|intros ->; exact Hk]. intros Hk'. apply (fmap_inj_on node_key ns); [by rewrite Hp|done..|].
  unfold node_key in *. congruence.
Qed.

Section Evaluate.
Context {B : Type} `{!BindingStore B} (ch : dict -> string) (ts : string -> bool) (sh : list value -> string).
Context (Hsha : forall d, is_sha256 (ch d) = true).
Context (p : DeploymentPlan.t) (b : AllocationBinding.t) (lim : ControlLimits.t).
Context (l : Ledger.t B) (s : option SessionCoordinator.t) (c : ReadinessCoordinator.t).

(** The parties of a deployment: its plan and binding, the evidence, the ledger and the
    sessions. *)
Record deployed : Prop := Deployed {
  de_plan : DeploymentPlan.constructed p;
  de_representable : representable p;
  de_binding : AllocationBinding.post_init b = Ok tt;
  de_size : Z.of_nat (length (AllocationBinding.rank_to_node b)) = DeploymentPlan.num_nodes p;
  de_evidence : evidence_ok p b c;
  de_ledger_plan : Ledger.plan l = p;
  de_ledger_binding : Ledger.binding l = b;
  de_ledger : ledger_ok (compute_hash ch) ts l;
  de_maps : Forall maps_ok (Ledger.accepted_receipts l);
  de_sessions : forall sc, s = Some sc -> SessionProps.reachable sh b lim sc
}.
Context (Hd : deployed).

Lemma plan_models :
  NoDup (ModelPlan.model_id <$> DeploymentPlan.models p) /\
  1 <= DeploymentPlan.num_nodes p /\
  Forall (fun m => nonempty (ModelPlan.model_id m) = true /\
    nonempty (ModelPlan.route_name m) = true /\ 0 <= ModelPlan.num_replicas m) (DeploymentPlan.models p).
Proof.
  destruct (de_plan Hd) as (_ & Hm & _ & _ & _ & _ & _ & _ & _ & Hp). split_and!.
  - unfold DeploymentPlan.post_init, plan_raise_if in Hp. res_inv. unfold no_dups in *. bool_prop. done.
  - unfold DeploymentPlan.post_init, plan_raise_if in Hp. res_inv.
    rewrite !Forall_cons in *. destruct_and!. res_inv. bool_prop. lia.
  - apply (Forall_impl _ _ _ Hm). intros m Hi. unfold ModelPlan.post_init, plan_raise_if in Hi. res_inv.
    rewrite !Forall_cons in *. destruct_and!. res_inv. cbn [existsb] in *. bool_prop.
    destruct_and?. split_and!; bool_prop; try done. lia.
Qed.
Lemma accepted_elem r : r ∈ Ledger.accepted_receipts l ->
  exists k, dget k (Ledger.by_slot l) = Some r /\ LedgerProps.evidence (compute_hash ch) ts l k r.
Proof.
  unfold Ledger.accepted_receipts. intros (k & Hr & _)%list_elem_of_bind.
  destruct (dget k (Ledger.by_slot l)) as [r'|] eqn:Hk; [|by apply not_elem_of_nil in Hr].
  apply list_elem_of_singleton in Hr as ->. exists k. split; [done|].
  by apply (lo_evidence _ _ _ (de_ledger Hd)).
Qed.

Lemma accepted_slots : Receipt.receipt_requirement_id <$> Ledger.accepted_receipts l
  = merge_sort string_le (dkeys (Ledger.by_slot l)).
Proof.
  unfold Ledger.accepted_receipts.
  assert (forall ks, (forall k, k ∈ ks -> k ∈ dkeys (Ledger.by_slot l)) ->
    Receipt.receipt_requirement_id <$> (ks ≫= fun k => option_list (dget k (Ledger.by_slot l))) = ks) as H.
  { induction ks as [|k ks IH]; intros Hks; [done|]. cbn [mbind list_bind]. rewrite fmap_app, IH.
    2: { intros k' Hk'. apply Hks. by right. }
    destruct (proj2 (dget_is_Some k (Ledger.by_slot l)) (Hks k ltac:(by left))) as [r Hr]. rewrite Hr. cbn.
    by rewrite <- (ev_key _ _ _ _ _ (lo_evidence _ _ _ (de_ledger Hd) _ _ Hr)). }
  apply H. intros k. by rewrite merge_sort_Permutation.
Qed.

Lemma accepted_sound : Forall (sound ch ts) (Ledger.accepted_receipts l).
Proof.
  apply Forall_forall. intros r Hr. pose proof (de_maps Hd) as Hm. rewrite Forall_forall in Hm.
  destruct (accepted_elem r Hr) as (k & _ & Hev). constructor; [by apply Hm|apply (ev_valid _ _ _ _ _ Hev)].
Qed.

(** The manifest of the accepted receipts can be built. *)
Lemma accepted_listed :
  is_sha256 (DeploymentPlan.deployment_plan_hash p) = true -> is_sha256 (AllocationBinding.allocation_binding_hash b) = true ->
  listed ch ts (DeploymentPlan.deployment_id p) (AllocationBinding.generation b) (DeploymentPlan.deployment_plan_hash p)
    (AllocationBinding.allocation_binding_hash b) (Ledger.accepted_receipts l).
Proof.
  intros H1 H2. destruct (de_plan Hd) as (_ & _ & _ & _ & _ & _ & _ & _ & _ & Hp). constructor; try done.
  - unfold DeploymentPlan.post_init, plan_raise_if in Hp. res_inv. rewrite !Forall_cons in *. destruct_and!.
    res_inv. bool_prop. done.
  - pose proof (de_binding Hd) as Hb. unfold AllocationBinding.post_init, plan_raise_if in Hb. res_inv. bool_prop. lia.
  - apply accepted_sound.
  - rewrite accepted_slots, merge_sort_Permutation. apply (lo_keys _ _ _ (de_ledger Hd)).
  - intros r (k & _ & Hev)%accepted_elem. pose proof (ev_contract _ _ _ _ _ Hev) as Hc.
    unfold Ledger.check_contract, Ledger.refuse_if in Hc. res_inv. bool_prop.
    rewrite <- (de_ledger_plan Hd), <- (de_ledger_binding Hd). split_and!; done.
Qed.

Lemma capability_map_ok :
  NoDup (dkeys (ReadinessCoordinator.capability_map_of l)) /\
  Forall capability_ok (ReadinessCoordinator.capability_map_of l).
Proof.
  unfold ReadinessCoordinator.capability_map_of.
  assert (forall rs acc, (forall r, r ∈ rs -> r ∈ Ledger.accepted_receipts l) ->
    NoDup (dkeys acc) -> Forall capability_ok acc ->
    let m := fold_left (fun d r => dset (Receipt.component_id r) (Receipt.capabilities r) d) rs acc in
    NoDup (dkeys m) /\ Forall capability_ok m) as H; [|apply H; [done|constructor..]].
  induction rs as [|r rs IH]; intros acc Hin Hnd Hacc; [done|]. apply IH; [|by apply NoDup_dset|].
  { intros r' Hr'. apply Hin. by right. }
  destruct (accepted_elem r (Hin r ltac:(by left))) as (k & _ & Hev).
  destruct (ev_valid _ _ _ _ _ Hev) as (req & nreq & Hval). unfold validate_receipt in Hval.
  apply bind_Ok in Hval as (u1 & Hi & Hval). apply bind_Ok in Hval as (u2 & _ & Hval).
  apply bind_Ok in Hval as (u3 & Ho & _). apply check_identity_Ok in Hi as (_ & Hi & _).
  apply check_observations_Ok in Ho as (_ & _ & _ & (Hc1 & Hc2) & _). cbn [forallb] in Hi. rewrite !andb_true_iff in Hi. destruct_and!.
  apply Forall_forall. intros [k' x] Hx. apply (elem_of_dget _ _ _ (NoDup_dset _ _ _ Hnd)) in Hx. rewrite dget_dset in Hx.
  destruct (decide _) as [<-|]; [injection Hx as <-|].
  - cbn [fst snd]. split_and!; [done| |by apply sorted_set_nodup|done].
    apply Forall_forall. intros y Hy%list_elem_of_In. rewrite forallb_forall in Hc1. auto.
  - apply dget_Some_elem in Hx. rewrite Forall_forall in Hacc. exact (Hacc _ Hx).
Qed.
(** The proxies of a met plan: on rank 0's node, or on every node. *)
Lemma proxies_counted :
  clean_cluster c -> plan_met p b l s c ->
  (forall id, id ∈ Proxy.node_id <$> ReadinessCoordinator.proxies c -> id ∈ Node.node_id <$> ReadinessCoordinator.nodes c) /\
  Z.of_nat (length (ReadinessCoordinator.nodes c)) = DeploymentPlan.num_nodes p /\
  Z.of_nat (length (ReadinessCoordinator.proxies c))
    = if DeploymentPlan.uses_head_only_serve_proxy p then 1 else DeploymentPlan.num_nodes p.
Proof.
  intros Hc Hm. pose proof (pm_proxies _ _ _ _ _ Hm) as Hx. pose proof (pm_membership _ _ _ _ _ Hm) as Hp.
  rewrite (clean_alive c Hc) in Hx, Hp.
  assert (Z.of_nat (length (ReadinessCoordinator.nodes c)) = DeploymentPlan.num_nodes p) as Hlen.
  { rewrite <- (de_size Hd). f_equal. apply Permutation_length in Hp. by rewrite !length_fmap in Hp. }
  split; [|split; [exact Hlen|]].
  { intros id (n & Hn & <- & _)%Hx. apply list_elem_of_fmap. eauto. }
  destruct plan_models as (_ & Hpos & _). pose proof (ev_proxy_ids _ _ _ (de_evidence Hd)) as Hnd.
  pose proof (ev_node_ids _ _ _ (de_evidence Hd)) as Hnd'.
  rewrite <- (length_fmap Proxy.node_id (ReadinessCoordinator.proxies c)).
  destruct (DeploymentPlan.uses_head_only_serve_proxy p) eqn:Hh.
  - assert (AllocationBinding.rank_to_node b <> []) as Hne.
    { intros E. pose proof (de_size Hd) as Hs. rewrite E in Hs. cbn in Hs. lia. }
    destruct (head_node_unique b _ (de_binding Hd) Hne Hp) as (h & Hin & Hu).
    assert (Proxy.node_id <$> ReadinessCoordinator.proxies c ≡ₚ [Node.node_id h]) as ->; [|done].
    apply NoDup_Permutation; [done|apply NoDup_singleton|]. intros id. rewrite Hx, list_elem_of_singleton. split.
    + intros (n & Hn & <- & Hb). apply (f_equal Node.node_id), Hu; [done|]. by apply Hb.
    + intros ->. exists h. split_and!; [done..|]. intros _. by apply Hu.
  - rewrite <- Hlen, <- (length_fmap Node.node_id (ReadinessCoordinator.nodes c)). f_equal.
    apply Permutation_length, NoDup_Permutation; [done..|]. intros id. rewrite Hx, list_elem_of_fmap. split.
    + intros (n & Hn & <- & _). eauto.
    + intros (n & -> & Hn). exists n. split_and!; [done..|]. unfold proxied. by rewrite Hh.
Qed.

(** A ready verdict over a clean cluster can be published. *)
Lemma ready_publishable now v :
  NoDup (Receipt.receipt_hash <$> Ledger.accepted_receipts l) -> clean_cluster c ->
  Float.is_finite now = true -> not_positive (VFloat now) = false ->
  ReadinessCoordinator.evaluate now l s c = Ok v -> ReadinessVerdict.ready v = true -> publishable p v.
Proof.
  intros Hdist Hc Hfin Hpos He Hready.
  pose proof (de_evidence Hd) as Hev. pose proof (ev_plan p b c Hev) as Hpl.
  destruct (full_report_spec p b l s c Hev (de_representable Hd)) as (m & r & Hmt & Hf & Hex & _ & Hq).
  unfold ReadinessCoordinator.evaluate in He. rewrite Hf in He. injection He as <-.
  cbn [ReadinessVerdict.ready] in Hready. destruct (Readiness.blockers r) eqn:Hb; [|done].
  pose proof (proj1 (quiet_plan_met sh p b lim l s c m Hev (de_binding Hd) (de_ledger_plan Hd) (de_sessions Hd) Hmt)
    (proj1 Hq Hb)) as Hm.
  destruct (proxies_counted Hc Hm) as (Hx1 & Hx2 & Hx3). destruct plan_models as (Hids & _ & Hms).
  destruct capability_map_ok as [Hck Hco]. unfold explained in Hex.
  assert (missing_ids r = ∅ /\ unhealthy_ids r = ∅) as [Hmis Hunh].
  { unfold quiet in Hex. rewrite Hb in Hex. naive_solver. }
  constructor; cbn [ReadinessVerdict.blockers ReadinessVerdict.missing_identities ReadinessVerdict.unhealthy_identities
    ReadinessVerdict.satisfied ReadinessVerdict.advertised_endpoint ReadinessVerdict.receipt_hashes
    ReadinessVerdict.observed_at ReadinessVerdict.model_map ReadinessVerdict.capability_map ReadinessVerdict.nodes
    ReadinessVerdict.proxies]; try done.
  - by rewrite Hmis.
  - by rewrite Hunh.
  - apply (noted_distinct c); [by eapply full_conditions|]. by rewrite Hpl.
  - pose proof (pm_endpoint _ _ _ _ _ Hm). by destruct (ReadinessCoordinator.advertised_endpoint c).
  - apply (listed_hashes_sha ch ts Hsha), accepted_sound.
  - by rewrite merge_sort_Permutation.
  - by apply sorted_set_merge.
  - rewrite model_map_of_NoDup by by rewrite Hpl. rewrite Hpl. apply list_fmap_ext. intros i x Hi.
    by rewrite (pm_replicas _ _ _ _ _ Hm x) by by eapply list_elem_of_lookup_2.
  - apply Forall_forall. intros n Hn. destruct Hc as [Ha _]. pose proof (ev_nodes _ _ _ Hev) as H1.
    pose proof (ev_node_texts _ _ _ Hev) as H2. rewrite Forall_forall in H1, H2, Ha. auto.
  - apply Hev.
  - apply Forall_forall. intros n Hn. destruct Hc as [_ Ha]. pose proof (ev_proxy_texts _ _ _ Hev) as H1.
    rewrite Forall_forall in H1, Ha. auto.
  - apply Hev.
Qed.
End Evaluate.
