(* ===== verification/CompositionProps.v ===== *)
(** READY end to end: a ready verdict of the readiness coordinator is published by the
    composition root and seen by the reader; a verdict that the publisher refuses is not. *)

From S2P Require Import Prelude PyValue Atomic Json JsonProps Envelopes Contracts Session SessionProps Receipts ReceiptCodec ReceiptCodecProps Bindings BindingsProps Ledger LedgerProps Readiness ReadinessProps Supervisor Status StatusProps Manifest ManifestProps StatusApi StatusApiProps PublishProps Composition VerdictProps PayloadProps.

(** ** Texts *)

Lemma nonempty_app_r a b : nonempty b = true -> nonempty (a +:+ b) = true.
Proof. by destruct a. Qed.

Lemma join_path_nonempty a b : nonempty b = true -> nonempty (join_path a b) = true.
Proof.
  intros Hb. unfold join_path. destruct (String.length a); [done|].
  case_match; apply nonempty_app_r; [done|by apply nonempty_app_r].
Qed.

Lemma manifest_path_nonempty {B} hash (c : composition B) : nonempty (manifest_path hash c) = true.
Proof. unfold manifest_path. apply join_path_nonempty, nonempty_app_r. done. Qed.

(** ** The payload can be written *)

Lemma writable_dict_fmap {A} (f : A -> string * value) l :
  Forall (fun x => json_writable (f x).2 = true) l -> json_writable (VDict (f <$> l)) = true.
Proof. induction 1 as [|x l Hx _ IH]; [done|]. cbn in *. by rewrite Hx, IH. Qed.

Lemma writable_list_fmap {A} (f : A -> value) l :
  Forall (fun x => json_writable (f x) = true) l -> json_writable (VList (f <$> l)) = true.
Proof. induction 1 as [|x l Hx _ IH]; [done|]. cbn in *. by rewrite Hx, IH. Qed.

Lemma resource_writable x : resource_ok x -> json_writable x = true.
Proof. intros (H1 & _ & H3 & _). by destruct x. Qed.

Section Writable.
Context (p : DeploymentPlan.t) (v : ReadinessVerdict.t) (Hv : publishable p v).

Lemma model_map_writable : json_writable (model_map_value v) = true.
Proof. rewrite (model_map_fields p v Hv). apply writable_dict_fmap, Forall_true. done. Qed.

Lemma capability_map_writable : json_writable (capability_map_value v) = true.
Proof.
  unfold capability_map_value, map_values.
  change (map (fun kv => (kv.1, texts kv.2)) ?l) with ((fun kv => (kv.1, texts kv.2)) <$> l).
  apply writable_dict_fmap, Forall_true. intros [k l]. apply writable_texts.
Qed.

Lemma nodes_writable : json_writable (VList (node_value <$> ReadinessVerdict.nodes v)) = true.
Proof.
  apply writable_list_fmap, (Forall_impl _ _ _ (pv_nodes p v Hv)). intros n ([Hc Hg] & _).
  cbn. by rewrite (resource_writable _ Hc), (resource_writable _ Hg).
Qed.

Lemma proxies_writable : json_writable (VList (proxy_value <$> ReadinessVerdict.proxies v)) = true.
Proof. apply writable_list_fmap, Forall_true. done. Qed.

Lemma completed_writable sb cf path hash w m b :
  Float.is_finite (Float.add w (lease_duration cf)) = true ->
  Float.is_finite (Float.add m (lease_duration cf)) = true ->
  json_writable (VDict (completed v sb cf path hash w m b)) = true.
Proof.
  intros F1 F2. unfold completed.
  assert (forall d u : dict, json_writable (VDict d) = true -> json_writable (VDict u) = true ->
            json_writable (VDict (dupdate d u)) = true) as Hup.
  { intros d u. revert d. induction u as [|[k x] u IH]; intros d Hd Hu; [done|]. cbn in Hu.
    apply andb_prop in Hu as [Hx Hu]. apply (IH (dset k x d)); [by apply writable_dset|done]. }
  destruct (pv_observed p v Hv) as [Hf _].
  apply Hup.
  - unfold published_snapshot. apply Hup; [|done]. unfold verdict_dict.
    cbn [json_writable forallb snd]. fold json_writable.
    change (forallb json_writable (node_value <$> ReadinessVerdict.nodes v)) with
      (json_writable (VList (node_value <$> ReadinessVerdict.nodes v))).
    change (forallb json_writable (proxy_value <$> ReadinessVerdict.proxies v)) with
      (json_writable (VList (proxy_value <$> ReadinessVerdict.proxies v))).
    rewrite nodes_writable, proxies_writable, model_map_writable, capability_map_writable.
    unfold texts. by rewrite !writable_texts, Hf.
  - unfold ready_fields, lease_at, texts. cbn [app json_writable forallb snd]. fold json_writable.
    change (forallb json_writable (VStr <$> ?l)) with (json_writable (VList (VStr <$> l))).
    by rewrite writable_texts, F1, F2.
Qed.
End Writable.

(** ** The publication, step by step *)

Section Steps.
Context {B : Type} `{!BindingStore B} (ch : dict -> string) (ts : string -> bool).
Context (Hsha : forall d, is_sha256 (ch d) = true).
Implicit Type c : composition B.

Definition with_bindings (st : B) (l : Ledger.t B) : Ledger.t B :=
  Ledger.mk (Ledger.plan l) (Ledger.binding l) (Ledger.profile l) (Ledger.by_slot l)
    (Ledger.superseded l) (Ledger.rejected l) (Some st).

Lemma flush_goes e st c :
  Ledger.store (co_ledger c) = Some st -> (bs_flush e st).2 = Ok tt ->
  flush_bindings e c = (set_ledger (with_bindings (bs_flush e st).1 (co_ledger c)) c, Ok tt).
Proof. intros Hs Hf. unfold flush_bindings. rewrite Hs. destruct (bs_flush e st) as [st' x]. cbn in Hf. by rewrite Hf. Qed.

(** The manifest of a deployment's accepted receipts. *)
Definition manifest_for (c : composition B) : ReceiptManifest.t :=
  final ch (DeploymentPlan.deployment_id (co_plan c)) (cf_generation (co_config c))
    (DeploymentPlan.deployment_plan_hash (co_plan c)) (binding_hash (co_config c))
    (Ledger.accepted_receipts (co_ledger c)).

Abbreviation listed_for c := (listed ch ts (DeploymentPlan.deployment_id (co_plan c)) (cf_generation (co_config c))
  (DeploymentPlan.deployment_plan_hash (co_plan c)) (binding_hash (co_config c)) (Ledger.accepted_receipts (co_ledger c))).

Lemma accepted_manifest_goes c :
  listed_for c -> accepted_manifest ch (Ledger.accepted_receipts (co_ledger c)) c = Ok (manifest_for c).
Proof.
  intros Hl. transitivity (m ← construct_of ch (DeploymentPlan.deployment_id (co_plan c)) (cf_generation (co_config c))
    (DeploymentPlan.deployment_plan_hash (co_plan c)) (binding_hash (co_config c)) ""
    (Ledger.accepted_receipts (co_ledger c)); finalize_manifest ch m); [reflexivity|].
  rewrite (construct_listed ch ts _ _ _ _ Hsha "" _ Hl eq_refl). cbn [mbind result_bind]. by eapply finalize_listed.
Qed.

(** The place of the manifest is free, or already holds it. *)
Definition manifest_place (written : write_outcome) (m : ReceiptManifest.t) (path : string) (d : dir) : Prop :=
  (manifests d !! path = None /\ written = Written) \/
  manifests d !! path = Some (ManifestFile true true (Doc (VDict (ReceiptManifest.asdict m)))).

Lemma publish_manifest_goes written c path d :
  listed_for c -> manifest_place written (manifest_for c) path d ->
  exists d', publish_manifest ch written (manifest_for c) path d = (d', Ok tt) /\
    find_manifest ch d' path = Some (manifest_for c).
Proof.
  intros Hl Hp. pose proof (load_final ch ts _ _ _ _ Hsha _ Hl) as Hload. unfold publish_manifest, find_manifest.
  destruct Hp as [[Hp ->]|Hp].
  - rewrite Hp. unfold manifest_for. rewrite write_final. eexists. split; [reflexivity|].
    cbn [manifests]. rewrite lookup_insert_eq. cbn [mbind option_bind mf_manifest mf_regular mf_file].
    by rewrite Hload.
  - rewrite Hp. exists d. split; [|rewrite Hp; cbn [mbind option_bind mf_manifest mf_regular mf_file];
      unfold manifest_for; by rewrite Hload].
    f_equal. unfold write_receipt_manifest, manifest_for, final. rewrite hash_of_manifest.
    cbn [ReceiptManifest.manifest_hash manifest_of mf_regular mf_file].
    rewrite bool_decide_true by done. cbn [negb]. fold (final ch (DeploymentPlan.deployment_id (co_plan c))
      (cf_generation (co_config c)) (DeploymentPlan.deployment_plan_hash (co_plan c)) (binding_hash (co_config c))
      (Ledger.accepted_receipts (co_ledger c))).
    rewrite Hload. by rewrite bool_decide_true.
Qed.
End Steps.

Section Publication.
Context {B : Type} `{!BindingStore B} (ch : dict -> string) (ts : string -> bool) (sh : list value -> string).
Context (show_blocker : blocker -> string).
Context (Hsha : forall d, is_sha256 (ch d) = true).
Implicit Type c : composition B.

(** The data of the transition that [publish_ready] asks for. *)
Definition ready_data (v : ReadinessVerdict.t) (path hash : string) : dict :=
  ("advertised_endpoint", VStr (ReadinessVerdict.advertised_endpoint v)) ::
  verdict_data v (published_snapshot show_blocker v path hash).

Lemma ready_data_public v path hash :
  read_hashes (texts (ReadinessVerdict.receipt_hashes v)) = Ok (ReadinessVerdict.receipt_hashes v) ->
  public_data (ready_data v path hash).
Proof.
  intros Hh. split; [by apply (bool_decide_unpack _)|]. intros k x Hk.
  apply dget_Some_elem in Hk. unfold ready_data, verdict_data in Hk. rewrite !elem_of_cons, elem_of_nil in Hk.
  unfold PUBLIC_KEYS, field_ok. rewrite !elem_of_cons.
  destruct Hk as [[= -> ->]|[[= -> ->]|[[= -> ->]|[[= -> ->]|[[= -> ->]|[]]]]]];
    (split; [tauto|]); split_and!; intros E; try discriminate E; try (destruct E as [E|E]; discriminate E); eauto.
  eexists. split; [reflexivity|]. split; eexists; reflexivity.
Qed.

(** The hashes of a publishable verdict read back. *)
Lemma verdict_hashes_read p v : publishable p v ->
  read_hashes (texts (ReadinessVerdict.receipt_hashes v)) = Ok (ReadinessVerdict.receipt_hashes v).
Proof.
  intros Hv. apply (sequence_hashes "x"); [|apply Hv].
  apply string_sequence_texts; [apply sha_nonempty, Hv|apply Hv|intros _; apply Hv].
Qed.

(** The publisher's checks pass, and the snapshot is completed. *)
Lemma ready_snapshot_goes cf clk v path hash d mf b w m boot_id :
  publishable (cf_plan cf) v -> cf_binding cf = Some b -> clock_sample clk = Ok (w, m, boot_id) ->
  nonempty path = true -> is_sha256 hash = true -> find_manifest ch d path = Some mf ->
  manifest_agrees mf hash (DeploymentPlan.deployment_id (cf_plan cf)) (cf_generation cf)
    (DeploymentPlan.deployment_plan_hash (cf_plan cf)) (AllocationBinding.allocation_binding_hash b)
    (ReadinessVerdict.receipt_hashes v) = true ->
  ready_snapshot ch cf clk (ready_data v path hash) d = Ok (completed v show_blocker cf path hash w m boot_id).
Proof.
  intros Hv Hb Hc Hp Hh Hf Ha. unfold ready_snapshot, value_error_if. rewrite Hb. cbn [mbind result_bind].
  change (attr "advertised_endpoint" (ready_data v path hash)) with (VStr (ReadinessVerdict.advertised_endpoint v)).
  change (dget_default "receipt_hashes" (VList []) (ready_data v path hash)) with (texts (ReadinessVerdict.receipt_hashes v)).
  change (attr "readiness_snapshot" (ready_data v path hash)) with (VDict (published_snapshot show_blocker v path hash)).
  change (attr "model_map" (ready_data v path hash)) with (model_map_value v).
  change (attr "capability_map" (ready_data v path hash)) with (capability_map_value v).
  cbn [nonempty_str]. rewrite (pv_endpoint _ _ Hv). cbn [mbind result_bind].
  rewrite string_sequence_texts; [|apply sha_nonempty, Hv|apply Hv|intros _; apply Hv]. cbn [mbind result_bind].
  rewrite (pv_hashes _ _ Hv). cbn [negb raise_if mbind result_bind].
  change (attr "receipt_manifest_path" (published_snapshot show_blocker v path hash)) with (VStr path).
  change (attr "receipt_manifest_hash" (published_snapshot show_blocker v path hash)) with (VStr hash).
  cbn [nonempty_str sha_text]. rewrite Hp, Hh, Hf, Ha. cbn [negb raise_if mbind result_bind].
  unfold ready_lease_evidence, lease_evidence. rewrite Hc. cbn [mbind result_bind].
  change (dupdate _ (ready_fields _ _ _ _)) with (completed v show_blocker cf path hash w m boot_id).
  rewrite (payload_valid _ _ Hv). done.
Qed.
(** Everything is in place to publish READY: the parties agree, the publisher is at VALIDATING,
    the stores can be written, and no two receipts share a hash. *)
Record in_place (e : publish_env) c (rc : ReadinessCoordinator.t) (b : AllocationBinding.t)
    (lim : ControlLimits.t) (st : B) (pub : publisher) (r : StatusRecord DeploymentState)
    (C : clock -> Prop) : Prop := InPlace {
  ip_deployed : deployed ch ts sh (co_plan c) b lim (co_ledger c) (co_sessions c) rc;
  ip_binding : cf_binding (co_config c) = Some b;
  ip_generation : cf_generation (co_config c) = AllocationBinding.generation b;
  ip_identity : identity_ok (co_config c);
  ip_status : co_status c = Some pub;
  ip_owned : owned ch (co_config c) C pub (co_dir c) r;
  ip_state : pub_state pub = VALIDATING;
  ip_store : Ledger.store (co_ledger c) = Some st;
  ip_flush : (bs_flush (pe_flush e) st).2 = Ok tt;
  ip_env : good_env (co_config c) (pe_advance e);
  ip_place : manifest_place (pe_written e) (manifest_for ch c)
    (manifest_path (ReceiptManifest.manifest_hash (manifest_for ch c)) c) (co_dir c);
  ip_distinct : NoDup (Receipt.receipt_hash <$> Ledger.accepted_receipts (co_ledger c))
}.

Lemma in_place_listed e c rc b lim st pub r C : in_place e c rc b lim st pub r C ->
  listed ch ts (DeploymentPlan.deployment_id (co_plan c)) (cf_generation (co_config c))
    (DeploymentPlan.deployment_plan_hash (co_plan c)) (binding_hash (co_config c)) (Ledger.accepted_receipts (co_ledger c)).
Proof.
  intros Hi. pose proof (io_hashes _ (ip_identity _ _ _ _ _ _ _ _ _ Hi)) as Hh. cbn [forallb] in Hh.
  apply andb_prop in Hh as [H1 [_ [H2 _]%andb_prop]%andb_prop].
  rewrite (ip_generation _ _ _ _ _ _ _ _ _ Hi). unfold binding_hash in *. rewrite (ip_binding _ _ _ _ _ _ _ _ _ Hi) in *.
  by apply (accepted_listed ch ts sh _ _ lim _ (co_sessions c) rc (ip_deployed _ _ _ _ _ _ _ _ _ Hi)).
Qed.

Lemma publish_goes e c rc b lim st pub r C v :
  in_place e c rc b lim st pub r C -> publishable (co_plan c) v ->
  ReadinessVerdict.receipt_hashes v = listed_hashes (Ledger.accepted_receipts (co_ledger c)) ->
  let path := manifest_path (ReceiptManifest.manifest_hash (manifest_for ch c)) c in
  exists c' pub' r', publish_ready ch show_blocker e v c = (c', Ok tt) /\
    co_status c' = Some pub' /\ co_config c' = co_config c /\ co_readiness c' = co_readiness c /\ pub_state pub' = READY /\
    (exists st', co_ledger c' = with_bindings st' (co_ledger c)) /\ co_sessions c' = co_sessions c /\
    find_manifest ch (co_dir c') path = Some (manifest_for ch c) /\
    owned ch (co_config c) (eq (ae_clock (pe_advance e))) pub' (co_dir c') r' /\
    dget "advertised_endpoint" (Status.data r') = Some (VStr (ReadinessVerdict.advertised_endpoint v)) /\
    dget "receipt_hashes" (Status.data r') = Some (texts (ReadinessVerdict.receipt_hashes v)).
Proof.
  intros Hi Hv Hhs path. pose proof (in_place_listed _ _ _ _ _ _ _ _ _ Hi) as Hl.
  destruct Hi as [Hd Hb Hg Hid Hst Ho Hpst Hstore Hflush He Hplace Hdist].
  destruct (publish_manifest_goes ch ts Hsha _ c path (co_dir c) Hl Hplace) as (d' & Hpub & Hfind).
  pose proof He as [_ _ _ (w & m & bt & Hclk & F1 & F2) _ _].
  set (hash := ReceiptManifest.manifest_hash (manifest_for ch c)) in *.
  assert (binding_hash (co_config c) = AllocationBinding.allocation_binding_hash b) as Hbh by (unfold binding_hash; by rewrite Hb).
  assert (ready_snapshot ch (co_config c) (ae_clock (pe_advance e)) (ready_data v path hash) d'
          = Ok (completed v show_blocker (co_config c) path hash w m bt)) as Hsnap.
  { apply (ready_snapshot_goes _ _ _ _ _ _ (manifest_for ch c) b); try done.
    - apply manifest_path_nonempty.
    - apply Hsha.
    - unfold manifest_agrees, hash, manifest_for, final. cbn. rewrite Hhs, Hbh, Z.eqb_refl, !bool_decide_true by done. done. }
  pose proof (manifest_owned ch (co_config c) C pub (co_dir c) r path (pe_written e) (manifest_for ch c) Ho) as Ho'.
  rewrite Hpub in Ho'. cbn [fst] in Ho'.
  assert (json_writable (VDict (dset "readiness_snapshot" (VDict (completed v show_blocker (co_config c) path hash w m bt))
            (ready_data v path hash))) = true) as Hwr.
  { change (dset _ _ _) with (("advertised_endpoint", VStr (ReadinessVerdict.advertised_endpoint v)) ::
      verdict_data v (completed v show_blocker (co_config c) path hash w m bt)).
    pose proof (completed_writable _ v Hv show_blocker (co_config c) path hash w m bt F1 F2) as H1.
    unfold verdict_data. cbn [json_writable forallb snd] in *. fold json_writable in *.
    rewrite H1, (model_map_writable _ v Hv), (capability_map_writable v).
    unfold texts. by rewrite writable_texts. }
  destruct (advance_ready_goes ch (co_config c) C (pe_advance e) "READY" "" (ready_data v path hash) _ pub d' r
    Ho' Hpst He eq_refl (ready_data_public _ _ _ (verdict_hashes_read _ _ Hv)) ltac:(by eexists) Hwr Hsnap)
    as (pub' & d2 & r' & Ha & Hs' & Hm' & Ho2 & Hdata).
  set (c1 := set_ledger (with_bindings (bs_flush (pe_flush e) st).1 (co_ledger c)) c).
  exists (set_status pub' d2 (set_dir d' c1)), pub', r'.
  split; [|split_and!; try done].
  - unfold publish_ready. rewrite Hst, (flush_goes _ st c Hstore Hflush). fold c1.
    change (Ledger.accepted_receipts (co_ledger c1)) with (Ledger.accepted_receipts (co_ledger c)).
    rewrite bool_decide_true by done. cbn [negb].
    change (accepted_manifest ch _ c1) with (accepted_manifest ch (Ledger.accepted_receipts (co_ledger c)) c).
    rewrite (accepted_manifest_goes ch ts Hsha c Hl).
    change (manifest_path _ c1) with path. change (co_dir c1) with (co_dir c). rewrite Hpub.
    unfold advance_status. change (co_status (set_dir d' c1)) with (co_status c). rewrite Hst.
    change (co_config (set_dir d' c1)) with (co_config c). change (co_dir (set_dir d' c1)) with d'.
    change (("advertised_endpoint", _) :: _) with (ready_data v path hash). by rewrite Ha.
  - by eexists.
  - change (co_dir _) with d2. unfold find_manifest in *. by rewrite Hm'.
  - apply Hdata; [by apply (bool_decide_unpack _)|done].
  - apply Hdata; [by apply (bool_decide_unpack _)|done].
Qed.

(** C7: A ready verdict reaches the consumers, when everything is in place to publish it (the
    parties agree, the publisher owns the record at VALIDATING, the stores can be written and
    the clocks read, the place of the manifest is free or holds this manifest, no two accepted
    receipts share a hash), over a clean cluster (Ray lists no dead node, every proxy's status
    is spelt HEALTHY) and at a finite positive time: [publish_ready] succeeds; the
    strict reader then finds READY with the verdict's endpoint and exactly the hashes of
    the accepted receipts, ready as long as the lease of this publication lasts; and the
    manifest in the run directory lists exactly the accepted receipts. *)
Theorem ready_verdict_published e c rc b lim st pub r C now v :
  in_place e c rc b lim st pub r C -> clean_cluster rc ->
  Float.is_finite now = true -> not_positive (VFloat now) = false ->
  ReadinessCoordinator.evaluate now (co_ledger c) (co_sessions c) rc = Ok v -> ReadinessVerdict.ready v = true ->
  exists c' s m, publish_ready ch show_blocker e v c = (c', Ok tt) /\
    read_deployment_status ch (co_dir c') = Ok (Some s) /\ DeploymentStatus.state s = READY /\
    DeploymentStatus.advertised_endpoint s = ReadinessVerdict.advertised_endpoint v /\
    DeploymentStatus.receipt_hashes s ≡ₚ Receipt.receipt_hash <$> Ledger.accepted_receipts (co_ledger c) /\
    (forall k, DeploymentStatus.ready k s = Ok (lease_current (co_config c) (ae_clock (pe_advance e)) k)) /\
    find_manifest ch (co_dir c') (manifest_path (ReceiptManifest.manifest_hash m) c) = Some m /\
    ReceiptManifest.receipts m = to_dict ch <$> Ledger.accepted_receipts (co_ledger c).
Proof.
  intros Hi Hc Hfin Hpos He Hready. pose proof (ip_deployed _ _ _ _ _ _ _ _ _ Hi) as Hd.
  pose proof (ready_publishable ch ts sh Hsha _ _ _ _ _ _ Hd now v (ip_distinct _ _ _ _ _ _ _ _ _ Hi) Hc Hfin Hpos He Hready) as Hv.
  assert (ReadinessVerdict.receipt_hashes v = listed_hashes (Ledger.accepted_receipts (co_ledger c))) as Hhs.
  { unfold ReadinessCoordinator.evaluate in He. by apply bind_Ok in He as (rep & _ & [= <-]). }
  destruct (publish_goes _ _ _ _ _ _ _ _ _ _ Hi Hv Hhs) as (c' & pub' & r' & Hp & _ & _ & _ & Hst & _ & _ & Hf & Ho & Hep & Hh).
  destruct (owned_readable _ _ _ _ _ _ (ip_identity _ _ _ _ _ _ _ _ _ Hi) Ho) as (s & Hs & Hss & _ & _ & _ & Hl).
  destruct (sees_lease_ready ch _ _ _ _ (Hl Hst) ltac:(congruence)) as (k0 & <- & _ & Hk).
  destruct (read_record_fields _ _ _ _ (read_owned _ _ _ _ _ _ _ Ho Hs)) as (F1 & _ & _ & F4).
  unfold data_text in F1. rewrite Hep in F1. injection F1 as F1. unfold dget_default in F4. rewrite Hh in F4.
  assert (DeploymentStatus.receipt_hashes s = ReadinessVerdict.receipt_hashes v) as HH.
  { enough (Ok (E := read_error) (ReadinessVerdict.receipt_hashes v) = Ok (DeploymentStatus.receipt_hashes s)) by congruence.
    rewrite <- (verdict_hashes_read _ _ Hv). exact F4. }
  exists c', s, (manifest_for ch c). split_and!; try done; [congruence|].
  rewrite HH, Hhs. apply merge_sort_Permutation.
Qed.
End Publication.
