(* ===== verification/MonitorProps.v ===== *)
(** The composition root's monitor: what it refuses to publish, how the public state follows
    the coordinator's phase, and when a loss becomes terminal. *)

From S2P Require Import Prelude PyValue Atomic Json JsonProps Envelopes Contracts Session SessionProps Receipts ReceiptCodec ReceiptCodecProps Bindings BindingsProps Ledger LedgerProps Readiness ReadinessProps Supervisor Status StatusProps Manifest ManifestProps StatusApi StatusApiProps PublishProps Composition VerdictProps PayloadProps CompositionProps.

(** ** Dead nodes *)

Lemma collect_Ok {A B E} (f : A -> result E B) l x :
  collect f l = Ok x -> forall a, a ∈ l -> exists y, f a = Ok y.
Proof.
  revert x. induction l as [|a l IH]; intros x; cbn [collect]; [by intros _ ? ?%not_elem_of_nil|].
  intros (y & Hy & H)%bind_Ok a' [->|Ha]%elem_of_cons; [by exists y|].
  apply bind_Ok in H as (ys & Hys & _). by eapply IH.
Qed.

Lemma dead_refused n : Node.alive n = false -> exists x, validate_node (node_value n) = Err x.
Proof.
  intros Hn. destruct (validate_node (node_value n)) as [y|x] eqn:Hv; [|by eexists]. exfalso.
  unfold validate_node, node_value, value_error_if in Hv. do 2 (apply bind_Ok in Hv as (? & _ & Hv)).
  apply bind_Ok in Hv as (? & Ha & _). change (attr "alive" _) with (VBool (Node.alive n)) in Ha.
  by rewrite Hn in Ha.
Qed.

(** A payload with a dead node is never valid. *)
Lemma payload_alive s mm cm n mode plan ns :
  validate_ready_payload (VDict s) mm cm n mode plan = Ok tt -> attr "nodes" s = VList (node_value <$> ns) ->
  Forall (fun x => Node.alive x = true) ns.
Proof.
  unfold validate_ready_payload. intros H Hns. do 16 (apply bind_Ok in H as (? & ? & H)).
  match goal with Hc : validate_cluster_projection _ _ _ _ = Ok _ |- _ => rename Hc into Hcl end.
  unfold validate_cluster_projection in Hcl. rewrite Hns in Hcl. apply bind_Ok in Hcl as (l & Hl & Hcl).
  apply bind_Ok in Hcl as (ids & Hids & _). unfold exactly in Hl. apply bind_Ok in Hl as (_ & _ & [= <-]).
  apply Forall_forall. intros nd Hnd. destruct (collect_Ok _ _ _ Hids (node_value nd)) as [y Hy].
  { by apply list_elem_of_fmap_2. }
  destruct (Node.alive nd) eqn:Ha; [done|]. destruct (dead_refused nd Ha) as [z Hz]. congruence.
Qed.

Section Dead.
Context {B : Type} `{!BindingStore B} (ch : dict -> string) (show_blocker : blocker -> string).
Implicit Type c : composition B.

Lemma ready_snapshot_nodes cf k v path hash d s :
  ready_snapshot ch cf k (ready_data show_blocker v path hash) d = Ok s ->
  Forall (fun x => Node.alive x = true) (ReadinessVerdict.nodes v).
Proof.
  unfold ready_snapshot. intros H. do 4 (apply bind_Ok in H as (? & _ & H)).
  change (attr "readiness_snapshot" (ready_data show_blocker v path hash))
    with (VDict (published_snapshot show_blocker v path hash)) in H. cbv beta iota in H.
  destruct (nonempty_str _); [|discriminate H]. destruct (sha_text _); [|discriminate H]. destruct (find_manifest _ _ _); [|discriminate H].
  apply bind_Ok in H as (? & _ & H). apply bind_Ok in H as (lease & Hl & H). apply bind_Ok in H as ([] & Hv & _).
  apply evidence_Ok in Hl as (w & m & b & _ & ->). refine (payload_alive _ _ _ _ _ _ _ Hv _). reflexivity.
Qed.

(** What an error of [advance] to READY leaves of the status record. *)
Lemma advance_dead cf e reason detail v path hash p d :
  ~ Forall (fun x => Node.alive x = true) (ReadinessVerdict.nodes v) ->
  exists x, advance ch cf e READY reason detail (ready_data show_blocker v path hash) p d = (p, d, Err x).
Proof.
  intros Hdead. unfold advance. destruct (_ <? 0); [by eexists|]. unfold prepare. rewrite bool_decide_true by done.
  destruct (ready_snapshot ch cf (ae_clock e) (ready_data show_blocker v path hash) d) as [s|x] eqn:Hs.
  - by apply ready_snapshot_nodes in Hs.
  - destruct x; by eexists.
Qed.

(** The renewed payload is validated before it is compared with the published one. *)
Lemma renewed_checked cf k rs mm cm hashes p d :
  (forall lease r e, ready_lease_evidence cf k = Ok lease ->
     exists x, validate_ready_payload (VDict (dupdate rs (ready_fields cf e hashes
       ([("receipt_manifest_path", attr "receipt_manifest_path" r);
         ("receipt_manifest_hash", attr "receipt_manifest_hash" r)] ++ lease)))) mm cm
       (DeploymentPlan.num_nodes (cf_plan cf)) (plan_mode (cf_plan cf)) (Some (cf_plan cf)) = Err x) ->
  exists x, renewed_snapshot cf k rs mm cm hashes p d = Err x /\ forall fields, x <> EvidenceChanged fields.
Proof.
  intros Hbad. unfold renewed_snapshot.
  destruct (negb _); cbn [raise_if mbind result_bind]; [by eexists|].
  destruct (pub_record p) as [r|]; [|destruct (load (S := DeploymentState) (status_file d)) as [[r|]|]];
    cbn [escaped mbind result_bind]; try (by eexists).
  all: destruct (dget_default "readiness_snapshot" (VDict []) (Status.data r)) as [| | | | | |previous];
    cbn [mbind result_bind]; try (by eexists).
  all: cbn [for_each]; destruct (negb (truthy (attr "receipt_manifest_path" previous)));
    cbn [raise_if mbind result_bind]; [by eexists|].
  all: destruct (negb (truthy (attr "receipt_manifest_hash" previous)));
    cbn [raise_if mbind result_bind]; [by eexists|].
  all: destruct (ready_lease_evidence cf k) as [lease|] eqn:Hl; cbn [escaped mbind result_bind]; [|by eexists].
  all: destruct (Hbad lease previous (dget_default "advertised_endpoint" (VStr "") (Status.data r)) eq_refl) as [x Hx];
    rewrite Hx; destruct x; by eexists.
Qed.

(** The verdict's renewal is refused just as well. *)
Lemma refresh_dead cf k written v mm cm hashes p d :
  ~ Forall (fun x => Node.alive x = true) (ReadinessVerdict.nodes v) ->
  exists x, refresh_ready ch cf k written (verdict_dict show_blocker v) mm cm hashes p d = (p, d, Err x) /\
    forall fields, x <> EvidenceChanged fields.
Proof.
  intros Hdead. unfold refresh_ready.
  destruct (renewed_checked cf k (verdict_dict show_blocker v) mm cm hashes p d) as (x & -> & Hx); [|by eexists].
  intros lease r e (w & m & b & _ & ->)%evidence_Ok.
  match goal with |- exists x, ?y = Err x => destruct y as [[]|x] eqn:Hv; [|by eexists] end.
  destruct Hdead. refine (payload_alive _ _ _ _ _ _ _ Hv _). reflexivity.
Qed.

(** C25: A dead node that Ray still lists blocks the publication for good, although readiness
    ignores it: whatever the verdict says, [publish_ready] and the renewal of READY end in
    an error and leave the status record and the lease as they are. *)
Theorem dead_node_unpublishable e k written mm cm hashes v c :
  (exists n, n ∈ ReadinessVerdict.nodes v /\ Node.alive n = false) ->
  let '(c', x) := publish_ready ch show_blocker e v c in
  x <> Ok tt /\ status_file (co_dir c') = status_file (co_dir c) /\
  lease_file (co_dir c') = lease_file (co_dir c) /\
  forall p, exists y, refresh_ready ch (co_config c) k written (verdict_dict show_blocker v) mm cm hashes p (co_dir c)
                      = (p, co_dir c, Err y).
Proof.
  intros (n & Hn & Hal).
  assert (~ Forall (fun x => Node.alive x = true) (ReadinessVerdict.nodes v)) as Hdead.
  { rewrite Forall_forall. intros Hall. rewrite (Hall n Hn) in Hal. done. }
  assert (forall p, exists y, refresh_ready ch (co_config c) k written (verdict_dict show_blocker v) mm cm hashes p
    (co_dir c) = (p, co_dir c, Err y)) as Hrefresh.
  { intros p. destruct (refresh_dead (co_config c) k written v mm cm hashes p (co_dir c) Hdead) as (x & Hx & _). eauto. }
  unfold publish_ready. destruct (co_status c) as [p|] eqn:Hst; [|done].
  unfold flush_bindings. destruct (Ledger.store (co_ledger c)) as [st|]; [|done].
  destruct (bs_flush (pe_flush e) st) as [st' [u|x]]; [|done]. cbv beta iota.
  match goal with |- context [set_ledger ?l c] => set (c1 := set_ledger l c) end.
  destruct (negb _); [done|]. destruct (accepted_manifest ch _ c1) as [m|x]; [|done].
  pose proof (publish_manifest_spec ch (pe_written e) m (manifest_path (ReceiptManifest.manifest_hash m) c1) (co_dir c1)) as Hm.
  destruct (publish_manifest ch _ m _ _) as [d' [u'|x]]; cbn [fst] in Hm.
  2: { destruct Hm as [->|(_ & f & ->)]; done. }
  unfold advance_status. change (co_status (set_dir d' c1)) with (co_status c). rewrite Hst.
  change (("advertised_endpoint", _) :: _) with
    (ready_data show_blocker v (manifest_path (ReceiptManifest.manifest_hash m) c1) (ReceiptManifest.manifest_hash m)).
  destruct (advance_dead (co_config (set_dir d' c1)) (pe_advance e) "READY" "" v
    (manifest_path (ReceiptManifest.manifest_hash m) c1) (ReceiptManifest.manifest_hash m) p (co_dir (set_dir d' c1)) Hdead)
    as [x ->]. cbn [status_result mbind result_bind].
  split; [done|]. destruct Hm as [->|(_ & f & ->)]; done.
Qed.
End Dead.

(** ** The setters leave the phase alone *)

Definition keeps_phase (f : setter) : Prop :=
  forall c, ReadinessCoordinator.phase (f c).1 = ReadinessCoordinator.phase c /\
    ReadinessCoordinator.plan (f c).1 = ReadinessCoordinator.plan c.

Lemma assign_keeps r c :
  (forall c', r = Ok c' -> ReadinessCoordinator.phase c' = ReadinessCoordinator.phase c /\
     ReadinessCoordinator.plan c' = ReadinessCoordinator.plan c) ->
  ReadinessCoordinator.phase (ReadinessCoordinator.assign r c).1 = ReadinessCoordinator.phase c /\
  ReadinessCoordinator.plan (ReadinessCoordinator.assign r c).1 = ReadinessCoordinator.plan c.
Proof. intros H. destruct r; [by apply H|done]. Qed.

Ltac keep_phase := intros c; apply assign_keeps; intros c' Hc'; res_inv; done.

Lemma set_route_keeps a b : keeps_phase (ReadinessCoordinator.set_route a b).
Proof. keep_phase. Qed.
Lemma set_canary_keeps a b : keeps_phase (ReadinessCoordinator.set_canary a b).
Proof. keep_phase. Qed.
Lemma set_replicas_keeps a b g : keeps_phase (ReadinessCoordinator.set_replicas a b g).
Proof. keep_phase. Qed.
Lemma set_rank_component_keeps a b : keeps_phase (ReadinessCoordinator.set_rank_component a b).
Proof. keep_phase. Qed.
Lemma set_owned_component_keeps a b : keeps_phase (ReadinessCoordinator.set_owned_component a b).
Proof. keep_phase. Qed.
Lemma set_applications_keeps a : keeps_phase (ReadinessCoordinator.set_applications a).
Proof. keep_phase. Qed.
Lemma set_cluster_keeps a b : keeps_phase (ReadinessCoordinator.set_cluster a b).
Proof. intros c. apply assign_keeps. intros c' Hc'. destruct a, b; try done; res_inv; done. Qed.
Lemma set_gateway_keeps a b : keeps_phase (ReadinessCoordinator.set_gateway a b).
Proof.
  intros c. unfold ReadinessCoordinator.set_gateway. destruct (optional_bool a _); [|done].
  apply (assign_keeps _ (ReadinessCoordinator.with_alive _ c)). intros c' Hc'. res_inv. done.
Qed.

Create HintDb phases.
#[export] Hint Resolve set_route_keeps set_canary_keeps set_replicas_keeps set_rank_component_keeps
  set_owned_component_keeps set_applications_keeps set_cluster_keeps set_gateway_keeps : phases.

Ltac all_keep := repeat (apply Forall_cons; split); try apply Forall_nil_2; auto with phases.

Lemma run_setters_keeps fs : Forall keeps_phase fs -> keeps_phase (run_setters fs).
Proof.
  intros Hfs c. unfold run_setters.
  assert (forall x, ReadinessCoordinator.phase (fold_left (fun x f => chain f x) fs x).1 = ReadinessCoordinator.phase x.1 /\
    ReadinessCoordinator.plan (fold_left (fun x f => chain f x) fs x).1 = ReadinessCoordinator.plan x.1) as H; [|apply H].
  induction Hfs as [|f fs Hf _ IH]; intros x; [done|]. cbn [fold_left].
  destruct (IH (chain f x)) as [-> ->]. destruct x as [c' [u|e]]; [apply Hf|done].
Qed.

Lemma model_setter_keeps p apps m : keeps_phase (model_setter p apps m).
Proof.
  intros c. unfold model_setter. destruct (application_for_model p m apps); [|done].
  apply run_setters_keeps. all_keep.
Qed.

Lemma deployment_evidence_keeps ev : keeps_phase (apply_deployment_evidence ev).
Proof.
  intros c. apply run_setters_keeps. unfold evidence_setters. rewrite !Forall_app. split_and!.
  - all_keep.
  - destruct (ev_channel ev); [|constructor]. apply Forall_fmap, Forall_true. intros rank. cbn. auto with phases.
  - apply Forall_fmap, Forall_true. intros m. cbn. apply model_setter_keeps.
Qed.

Lemma observe_turn_keeps alive health ev canary : keeps_phase (observe_turn alive health ev canary).
Proof.
  intros c. apply run_setters_keeps. rewrite !Forall_app. split_and!.
  - case_match; all_keep.
  - all_keep. apply deployment_evidence_keeps.
  - apply Forall_fmap, Forall_true. intros m. cbn. auto with phases.
Qed.

(** ** The public state follows the phase *)

Section Monitor.
Context {B : Type} `{!BindingStore B} (ch : dict -> string).
Context (show_blocker : blocker -> string) (show_seconds : float -> string).
Implicit Type c : composition B.

(** READY in public and in the coordinator together, with no loss pending; or VALIDATING in
    both, with the time of the loss. *)
Definition in_phase c : Prop :=
  exists rc p, co_readiness c = Some rc /\ co_status c = Some p /\
    ((ReadinessCoordinator.phase rc = DeploymentPhase.READY /\ pub_state p = READY /\ co_loss c = None) \/
     (ReadinessCoordinator.phase rc = DeploymentPhase.VALIDATING /\ pub_state p = VALIDATING /\ is_Some (co_loss c))).

Lemma advance_state cf e new reason detail data p d p' d' r :
  advance ch cf e new reason detail data p d = (p', d', Ok r) -> pub_state p' = new.
Proof.
  unfold advance. destruct (_ <? 0); [done|]. destruct (prepare _ _ _ _ _ _ _) as [[p1 d1] [s|x]]; [|by destruct x].
  destruct (transition _ _ _ _ _ _ _ _ _ _) as [f [r'|x]]; [by intros [= <- <- <-]|by destruct x].
Qed.

Lemma advance_status_Ok e new reason detail data c c' :
  advance_status ch e new reason detail data c = (c', Ok tt) ->
  exists p d, c' = set_status p d c /\ pub_state p = new.
Proof.
  unfold advance_status. destruct (co_status c) as [p|]; [|done].
  destruct (advance ch _ _ _ _ _ _ _ _) as [[p' d'] [r|x]] eqn:Ha; [|done]. intros [= <-].
  exists p', d'. split; [done|]. by eapply advance_state.
Qed.

Lemma publish_ready_Ok e v c c' :
  publish_ready ch show_blocker e v c = (c', Ok tt) ->
  (exists p, co_status c' = Some p /\ pub_state p = READY) /\ co_readiness c' = co_readiness c /\
  co_loss c' = co_loss c.
Proof.
  unfold publish_ready. destruct (co_status c); [|done]. unfold flush_bindings.
  destruct (Ledger.store (co_ledger c)) as [st|]; [|done]. destruct (bs_flush (pe_flush e) st) as [st' [u|x]]; [|done].
  cbv beta iota. destruct (negb _); [done|]. destruct (accepted_manifest ch _ _) as [m|]; [|done].
  destruct (publish_manifest ch _ m _ _) as [d' [u'|x]]; [|done].
  intros (p' & d2 & -> & Hp)%advance_status_Ok. split; [by exists p'|]. done.
Qed.

Lemma refresh_Ok cf k written rs mm cm hashes p d p' d' r :
  refresh_ready ch cf k written rs mm cm hashes p d = (p', d', Ok r) -> pub_state p' = READY.
Proof.
  unfold refresh_ready. destruct (renewed_snapshot _ _ _ _ _ _ _ _) as [[r' s]|x] eqn:Hr; [|done].
  unfold renewed_snapshot in Hr. apply bind_Ok in Hr as (u & Hst & _). apply raise_if_Ok in Hst.
  apply negb_false_iff, bool_decide_eq_true in Hst. unfold publish_ready_lease.
  destruct (negb _); [done|]. destruct (atomic_write _ _ _ _) as [f [u'|x]]; [|by destruct x]. by intros [= <- _ _].
Qed.

Lemma commit_ready_Ok wall (l : Ledger.t B) s rc rc' v :
  ReadinessCoordinator.commit_ready wall l s rc = (rc', Ok v) -> ReadinessVerdict.ready v = true ->
  ReadinessCoordinator.phase rc' = DeploymentPhase.READY.
Proof.
  unfold ReadinessCoordinator.commit_ready. destruct (ReadinessCoordinator.evaluate _ _ _ _) as [v0|]; [|done].
  destruct (ReadinessVerdict.ready v0) eqn:Hr; intros [= <- <-]; [done|congruence].
Qed.

(** The branch of a ready verdict ends at READY. *)
Lemma monitor_ready_quiet e v rc c c' :
  in_phase c -> co_readiness c = Some rc ->
  monitor_ready ch show_blocker e v rc c = (c', Ok None) -> in_phase c'.
Proof.
  intros (rc0 & p & Hrc & Hst & Hin) Hrc'. rewrite Hrc in Hrc'. injection Hrc' as ->. unfold monitor_ready.
  destruct Hin as [(Hph & Hps & Hloss)|(Hph & Hps & [t0 Hloss])].
  - rewrite Hph, Hst. destruct (refresh_ready _ _ _ _ _ _ _ _ _ _) as [[p' d'] [r|[msg|fields|x]]] eqn:Hr; try done.
    + intros [= <-]. exists rc, p'. split; [done|]. split; [done|]. left. split_and!; try done. by eapply refresh_Ok.
    + destruct (advance_status _ _ _ _ _ _ _) as [c1 [[]|x]] eqn:Ha; [|done].
      apply advance_status_Ok in Ha as (p2 & d2 & -> & Hp2).
      destruct (publish_ready ch show_blocker (me_publish e) v _) as [c2 [[]|x]] eqn:Hp; [|done].
      apply publish_ready_Ok in Hp as ((p3 & Hs3 & Hp3) & Hr3 & Hl3). intros [= <-].
      exists rc, p3. split; [by rewrite <- Hrc|]. split; [done|]. left. done.
  - rewrite Hph, Hloss. destruct (evaluate_now (me_wall e) rc c) as [cand|]; [|done].
    destruct (publish_ready ch show_blocker (me_publish e) cand c) as [c1 [[]|x]] eqn:Hp; [|done].
    destruct (ReadinessCoordinator.commit_ready _ _ _ rc) as [rc' [v'|x]] eqn:Hc; [|done].
    destruct (ReadinessVerdict.ready v') eqn:Hv; [|done]. intros [= <-].
    apply publish_ready_Ok in Hp as ((p3 & Hs3 & Hp3) & _ & _).
    exists rc', p3. split; [done|]. split; [done|]. left. split_and!; try done. by eapply commit_ready_Ok.
Qed.
(** The phase of the coordinator. *)
Definition phase_is (ph : DeploymentPhase.t) c : Prop :=
  exists rc, co_readiness c = Some rc /\ ReadinessCoordinator.phase rc = ph.

(** The causes that a turn can report, each with a coordinator that has failed. *)
Definition failed_with (cause : FirstCause.t) c : Prop :=
  phase_is DeploymentPhase.FAILED c /\
  (FirstCause.component_id cause, FirstCause.reason_code cause) ∈
    [("readiness", "DEPLOYMENT_OBSERVATION_FAILED"); ("readiness", "READINESS_RECOVERY_EXPIRED");
     ("gateway", "GATEWAY_FAILURE")].

(** A pending loss that is not too old leaves everything as it is. *)
Lemma recovery_spec e reason rc c c' x :
  recovery_verdict show_seconds e reason rc c = (c', x) ->
  match x with
  | Ok None => c' = c
  | Ok (Some cause) => failed_with cause c'
  | Err _ => False
  end.
Proof.
  unfold recovery_verdict. destruct (co_loss c); [|by intros [= <- <-]].
  destruct (Float.leb _ _); intros [= <- <-]; [|done]. split; [by eexists|]. cbn. set_solver.
Qed.

(** The branch of a verdict that is not ready ends at VALIDATING. *)
Lemma monitor_lost_quiet e v rc c c' x :
  in_phase c -> co_readiness c = Some rc ->
  monitor_lost ch show_blocker show_seconds e v rc c = (c', x) ->
  match x with
  | Ok None => in_phase c' /\ phase_is DeploymentPhase.VALIDATING c'
  | Ok (Some cause) => failed_with cause c'
  | Err _ => True
  end.
Proof.
  intros (rc0 & p & Hrc & Hst & Hin) Hrc'. rewrite Hrc in Hrc'. injection Hrc' as ->. unfold monitor_lost.
  destruct Hin as [(Hph & Hps & Hloss)|(Hph & Hps & [t0 Hloss])].
  - rewrite bool_decide_true by done. set (reason := match take 4 _ with [] => _ | _ => _ end).
    assert (ReadinessCoordinator.phase (ReadinessCoordinator.revoke reason false rc).1 = DeploymentPhase.VALIDATING) as Hrev.
    { unfold ReadinessCoordinator.revoke. by rewrite bool_decide_true. }
    set (rc1 := (ReadinessCoordinator.revoke reason false rc).1) in *.
    change (co_status (set_readiness (Some rc1) c)) with (co_status c). rewrite Hst.
    destruct (evaluate_now (me_wall e) rc1 _) as [rv|]; [|by intros [= <- <-]].
    destruct (advance_status _ _ _ _ _ _ _) as [c2 [[]|err]] eqn:Ha; [|by intros [= <- <-]].
    apply advance_status_Ok in Ha as (p2 & d2 & -> & Hp2). intros Hrec. apply recovery_spec in Hrec.
    destruct x as [[cause|]|]; try done. subst c'. split.
    + exists rc1, p2. split; [done|]. split; [done|]. right. by split_and!.
    + by exists rc1.
  - rewrite bool_decide_false by congruence. rewrite Hloss. intros Hrec. apply recovery_spec in Hrec.
    destruct x as [[cause|]|]; try done. subst c'. split; [|by exists rc].
    exists rc, p. split; [done|]. split; [done|]. right. by split_and!.
Qed.

(** Nothing was due in a turn: the interval has not passed. *)
Definition idle (e : monitor_env) c : Prop :=
  Float.ltb (Float.sub (me_now e) (co_last c))
    (ReadinessLimits.validation_interval_s (DeploymentPlan.readiness (co_plan c))) = true.

(** A turn that judged the evidence. *)
Definition judged (e : monitor_env) c (ready : bool) : Prop :=
  exists rc rc1 v, co_readiness c = Some rc /\
    observe_turn (me_alive e) (me_health e) (me_evidence e) (me_canary e) rc = (rc1, Ok tt) /\
    ReadinessCoordinator.evaluate (me_wall e) (co_ledger c) (co_sessions c) rc1 = Ok v /\
    ReadinessVerdict.ready v = ready.

Lemma monitor_ready_no_cause e v rc c c' cause :
  monitor_ready ch show_blocker e v rc c <> (c', Ok (Some cause)).
Proof.
  unfold monitor_ready. intros H.
  repeat match type of H with
  | context [match ?y with _ => _ end] => destruct y eqn:?; try discriminate H
  end.
Qed.

(** What a turn promises. *)
Definition turn_kept (e : monitor_env) c c' (x : result composition_error (option FirstCause.t)) : Prop :=
  match x with
  | Ok None => in_phase c' /\ (idle e c /\ c' = c \/ judged e c true \/
                 judged e c false /\ phase_is DeploymentPhase.VALIDATING c')
  | Ok (Some cause) => failed_with cause c'
  | Err _ => True
  end.

(** The turn from the observation on. *)
Definition judge_turn (e : monitor_env) (rc : ReadinessCoordinator.t) c
    : composition B * result composition_error (option FirstCause.t) :=
  match observe_turn (me_alive e) (me_health e) (me_evidence e) (me_canary e) rc with
  | (rc1, Err err) => (set_readiness (Some rc1) c, Err (EvidenceFailure err))
  | (rc1, Ok _) =>
      let c1 := set_readiness (Some rc1) c in
      match evaluate_now (me_wall e) rc1 c1 with
      | Err err => (c1, Err err)
      | Ok v => if ReadinessVerdict.ready v then monitor_ready ch show_blocker e v rc1 c1
                else monitor_lost ch show_blocker show_seconds e v rc1 c1
      end
  end.

Lemma judge_turn_kept e rc c c' x :
  in_phase c -> co_readiness c = Some rc ->
  judge_turn e rc (set_last (me_now e) c) = (c', x) -> turn_kept e c c' x.
Proof.
  intros (rc0 & p & Hrc & Hst & Hph) Hrc'. rewrite Hrc in Hrc'. injection Hrc' as ->. unfold judge_turn.
  destruct (observe_turn _ _ _ _ rc) as [rc1 [[]|err]] eqn:Hobs; [|by intros [= <- <-]].
  destruct (observe_turn_keeps (me_alive e) (me_health e) (me_evidence e) (me_canary e) rc) as [Hp1 _].
  rewrite Hobs in Hp1. cbn [fst] in Hp1. set (c1 := set_readiness (Some rc1) _). cbv zeta.
  assert (in_phase c1) as Hin1 by (exists rc1, p; split; [done|]; split; [done|]; by rewrite Hp1).
  destruct (evaluate_now (me_wall e) rc1 c1) as [v|] eqn:Hev; [|by intros [= <- <-]].
  assert (judged e c (ReadinessVerdict.ready v)) as Hj.
  { exists rc, rc1, v. split_and!; try done. unfold evaluate_now, evidence_result in Hev.
    change (co_ledger c1) with (co_ledger c) in Hev. change (co_sessions c1) with (co_sessions c) in Hev.
    by destruct (ReadinessCoordinator.evaluate _ _ _ _) as [v'|]; [injection Hev as ->|]. }
  destruct (ReadinessVerdict.ready v); intros Hm.
  - destruct x as [[cause|]|]; [by apply monitor_ready_no_cause in Hm| |done].
    split; [|by right; left]. eapply monitor_ready_quiet; [exact Hin1|done|exact Hm].
  - apply monitor_lost_quiet in Hm; [|done|done].
    destruct x as [[cause|]|]; [done| |done]. destruct Hm. split; [done|]. by right; right.
Qed.

Lemma monitor_turn e c c' x :
  in_phase c -> monitor_readiness ch show_blocker show_seconds e c = (c', x) -> turn_kept e c c' x.
Proof.
  intros Hin. pose proof Hin as (rc & p & Hrc & Hst & Hph). unfold monitor_readiness. rewrite Hrc.
  rewrite bool_decide_true by (destruct Hph as [(-> & _)|(-> & _)]; set_solver). cbn [negb].
  destruct (me_observer e) as [failure|]; [intros [= <- <-]; split; [by eexists|cbn; set_solver]|].
  destruct (Float.ltb _ _) eqn:Hdue; [intros [= <- <-]; split; [done|]; by left|].
  pose proof (judge_turn_kept e rc c c' x Hin Hrc) as Hmain.
  destruct (DeploymentPlan.gateway (co_plan c)); [|exact Hmain].
  destruct (me_alive e) as [[|]|] eqn:Hal; unfold judge_turn in Hmain; rewrite Hal in Hmain; [exact Hmain| |exact Hmain].
  destruct (negb _); intros [= <- <-]; [done|]. split; [by eexists|cbn; set_solver].
Qed.

(** ** From the launch on *)

Lemma await_turns_frame turns rc c c' x :
  await_turns turns rc c = (c', x) -> exists rc', c' = set_readiness (Some rc') c /\
    forall v, x = Ok v -> ReadinessVerdict.ready v = true /\
      exists wall, ReadinessCoordinator.evaluate wall (co_ledger c) (co_sessions c) rc' = Ok v.
Proof.
  revert rc. induction turns as [|t turns IH]; intros rc; cbn [await_turns]; [intros [= <- <-]; by eexists|].
  destruct (stop_turn t c); [intros [= <- <-]; by eexists|].
  destruct (run_setters _ rc) as [rc1 [[]|err]]; [|intros [= <- <-]; by eexists].
  destruct (evaluate_now (tu_wall t) rc1 c) as [v|] eqn:Hev; [|intros [= <- <-]; by eexists].
  destruct (ReadinessVerdict.ready v) eqn:Hr; [|apply IH]. intros [= <- <-]. exists rc1. split; [done|].
  intros ? [= <-]. split; [done|]. exists (tu_wall t). unfold evaluate_now, evidence_result in Hev.
  by destruct (ReadinessCoordinator.evaluate _ _ _ _) as [v'|]; [injection Hev as ->|].
Qed.

Lemma go_live_in_phase turns e wall c c' v :
  co_loss c = None -> go_live ch show_blocker turns e wall c = (c', Ok v) -> in_phase c'.
Proof.
  intros Hloss. unfold go_live, await_initial_readiness. destruct (co_readiness c) as [rc|]; [|done].
  destruct (bool_decide _); [|done]. destruct (await_turns turns rc c) as [c1 [v1|err]] eqn:Ha; [|done].
  apply await_turns_frame in Ha as (rc1 & -> & _).
  destruct (publish_ready ch show_blocker e v1 _) as [c2 [[]|err]] eqn:Hp; [|done].
  apply publish_ready_Ok in Hp as ((p & Hs & Hp) & Hrc & Hl). rewrite Hrc. cbn [co_readiness set_readiness].
  destruct (ReadinessCoordinator.commit_ready _ _ _ rc1) as [rc2 [v2|err]] eqn:Hc; [|done].
  destruct (ReadinessVerdict.ready v2) eqn:Hv; [|done]. intros [= <- _]. exists rc2, p.
  split; [done|]. split; [done|]. left. split_and!; [by eapply commit_ready_Ok|done|].
  change (co_loss (set_readiness (Some rc2) c2)) with (co_loss c2). by rewrite Hl.
Qed.

(** A monitor turn that reports nothing. *)
Definition quiet_turn c c' : Prop :=
  exists e, monitor_readiness ch show_blocker show_seconds e c = (c', Ok None).

Definition public_state c : option DeploymentState := pub_state <$> co_status c.

(** C11: The public state follows the coordinator: from a launch that went live, through any number
    of monitor turns that report nothing, coordinator and public state are READY together, or
    VALIDATING together. Of the next turn, whatever it meets: if it reports nothing, the
    coordinator has not failed and the same holds after it, and READY stays public only if
    nothing was due or this turn's evidence was judged ready; if it reports a cause, the
    coordinator has failed, and the cause is the failed observation, the dead gateway or the
    expired recovery. *)
Theorem public_state_follows_phase turns pe wall c0 v c1 c2 e c3 x :
  co_loss c0 = None -> go_live ch show_blocker turns pe wall c0 = (c1, Ok v) -> rtc quiet_turn c1 c2 ->
  monitor_readiness ch show_blocker show_seconds e c2 = (c3, x) ->
  in_phase c2 /\
  match x with
  | Ok None =>
      (phase_is DeploymentPhase.READY c3 /\ public_state c3 = Some READY \/
       phase_is DeploymentPhase.VALIDATING c3 /\ public_state c3 = Some VALIDATING) /\
      (public_state c3 = Some READY -> idle e c2 /\ c3 = c2 \/ judged e c2 true)
  | Ok (Some cause) => failed_with cause c3
  | Err _ => True
  end.
Proof.
  intros Hl Hg%go_live_in_phase Hq Hm; [|done].
  assert (in_phase c2) as Hin.
  { clear Hm. induction Hq as [|c1 c1' c2 [e' Ht] _ IH]; [done|]. apply IH. by apply monitor_turn in Ht as [Ht _]. }
  split; [done|]. apply monitor_turn in Hm; [|done]. destruct x as [[cause|]|]; [done| |done].
  destruct Hm as [Hin3 Hcase]. destruct Hin3 as (rc & p & Hrc & Hst & Hph).
  unfold public_state. rewrite Hst. cbn [fmap option_fmap option_map]. split.
  - destruct Hph as [(E1 & -> & _)|(E1 & -> & _)]; [left|right]; (split; [by exists rc|done]).
  - destruct Hcase as [?|[?|[_ (rc' & Hrc' & E)]]]; [by left|by right|]. rewrite Hrc in Hrc'. injection Hrc' as <-.
    destruct Hph as [(E1 & _)|(_ & E2 & _)]; [congruence|]. by rewrite E2.
Qed.

(** ** The recovery deadline *)

(** A turn in which the gateway, if there is one, has not exited. *)
Definition gateway_up (e : monitor_env) c : Prop :=
  DeploymentPlan.gateway (co_plan c) = None \/ me_alive e <> Some false.

Definition due (e : monitor_env) c : Prop :=
  me_observer e = None /\ gateway_up e c /\
  Float.ltb (Float.sub (me_now e) (co_last c))
    (ReadinessLimits.validation_interval_s (DeploymentPlan.readiness (co_plan c))) = false.

Lemma monitor_due e rc c :
  co_readiness c = Some rc -> ReadinessCoordinator.phase rc ∈ [DeploymentPhase.READY; DeploymentPhase.VALIDATING] ->
  due e c -> monitor_readiness ch show_blocker show_seconds e c = judge_turn e rc (set_last (me_now e) c).
Proof.
  intros Hrc Hph (Hobs & Hgw & Hint). unfold monitor_readiness. rewrite Hrc, bool_decide_true, Hobs, Hint by done.
  cbn [negb]. unfold judge_turn. destruct (DeploymentPlan.gateway (co_plan c)) eqn:Hg; [|done].
  destruct Hgw as [Hgw|Hgw]; [congruence|]. by destruct (me_alive e) as [[|]|].
Qed.

(** A turn that is judged not ready is a lost turn. *)
Lemma judged_lost e rc c :
  co_readiness c = Some rc -> judged e c false -> exists rc1 v,
    ReadinessCoordinator.phase rc1 = ReadinessCoordinator.phase rc /\
    judge_turn e rc (set_last (me_now e) c)
    = monitor_lost ch show_blocker show_seconds e v rc1 (set_readiness (Some rc1) (set_last (me_now e) c)).
Proof.
  intros Hrc (rc' & rc1 & v & Hrc' & Hobs & Hev & Hready). rewrite Hrc in Hrc'. injection Hrc' as <-.
  exists rc1, v. destruct (observe_turn_keeps (me_alive e) (me_health e) (me_evidence e) (me_canary e) rc) as [Hp _].
  rewrite Hobs in Hp. split; [done|]. unfold judge_turn. rewrite Hobs. cbv zeta beta iota. unfold evaluate_now.
  cbn [co_ledger co_sessions set_readiness set_last]. rewrite Hev. cbn [evidence_result]. by rewrite Hready.
Qed.

Lemma recovery_quiet e reason rc c c' :
  recovery_verdict show_seconds e reason rc c = (c', Ok None) -> c' = c.
Proof. apply recovery_spec. Qed.

(** A loss that is pending keeps its time through a quiet turn at VALIDATING. *)
Lemma waiting_keeps_loss e rc c c' t0 :
  co_readiness c = Some rc -> ReadinessCoordinator.phase rc = DeploymentPhase.VALIDATING -> co_loss c = Some t0 ->
  monitor_readiness ch show_blocker show_seconds e c = (c', Ok None) -> phase_is DeploymentPhase.VALIDATING c' ->
  co_loss c' = Some t0.
Proof.
  intros Hrc Hph Hloss Hm Hv. unfold monitor_readiness in Hm. rewrite Hrc, Hph in Hm.
  destruct (negb _); [congruence|]. destruct (me_observer e); [done|].
  destruct (Float.ltb _ _); [congruence|]. set (c0 := set_last (me_now e) c) in Hm.
  assert (judge_turn e rc c0 = (c', Ok None) -> co_loss c' = Some t0) as Hj; [clear Hm|].
  { unfold judge_turn. destruct (observe_turn _ _ _ _ rc) as [rc1 [[]|err]] eqn:Hobs; [|done].
    destruct (observe_turn_keeps (me_alive e) (me_health e) (me_evidence e) (me_canary e) rc) as [Hp1 _].
    rewrite Hobs in Hp1. cbn [fst] in Hp1. rewrite Hph in Hp1. cbv zeta. set (c1 := set_readiness (Some rc1) c0).
    destruct (evaluate_now (me_wall e) rc1 c1) as [v|]; [|done]. destruct (ReadinessVerdict.ready v).
    - intros Hm. exfalso. unfold monitor_ready in Hm. rewrite Hp1 in Hm.
      change (co_loss c1) with (co_loss c) in Hm. rewrite Hloss in Hm.
      destruct (evaluate_now (me_wall e) rc1 c1) as [cand|]; [|done].
      destruct (publish_ready ch show_blocker _ cand c1) as [c2 [[]|err]]; [|done].
      destruct (ReadinessCoordinator.commit_ready _ _ _ rc1) as [rc2 [v2|err]] eqn:Hc; [|done].
      destruct (ReadinessVerdict.ready v2) eqn:Hv2; [|done]. injection Hm as <-.
      destruct Hv as (rc' & Hrc' & E). cbn in Hrc'. injection Hrc' as <-.
      apply commit_ready_Ok in Hc; [|done]. congruence.
    - unfold monitor_lost. rewrite bool_decide_false by congruence. change (co_loss c1) with (co_loss c).
      rewrite Hloss. by intros ->%recovery_quiet. }
  destruct (DeploymentPlan.gateway (co_plan c)); [|by apply Hj].
  destruct (me_alive e) as [[|]|] eqn:Hal; unfold judge_turn in Hj; rewrite Hal in Hj; [by apply Hj| |by apply Hj].
  by destruct (negb _).
Qed.

(** A quiet turn that leaves the coordinator at VALIDATING. *)
Definition waiting_turn c c' : Prop := quiet_turn c c' /\ phase_is DeploymentPhase.VALIDATING c'.

(** C12: A loss of readiness is bounded: when a turn finds READY evidence gone, the loss dates from
    that turn's observation, and keeps that date through all following turns that report
    nothing and stay at VALIDATING; a turn that still finds no ready evidence fails the
    coordinator with READINESS_RECOVERY_EXPIRED once the recovery deadline has passed
    since that date, and reports nothing before. *)
Theorem recovery_is_bounded e0 c0 c1 c2 e c3 x :
  in_phase c0 -> phase_is DeploymentPhase.READY c0 -> due e0 c0 -> judged e0 c0 false ->
  monitor_readiness ch show_blocker show_seconds e0 c0 = (c1, Ok None) -> rtc waiting_turn c1 c2 ->
  due e c2 -> judged e c2 false -> monitor_readiness ch show_blocker show_seconds e c2 = (c3, x) ->
  co_loss c2 = Some (me_observed_at e0) /\
  (if Float.leb (ReadinessLimits.recovery_deadline_s (DeploymentPlan.readiness (co_plan c2)))
        (Float.sub (me_observed_at e) (me_observed_at e0))
   then phase_is DeploymentPhase.FAILED c3 /\
     exists text, x = Ok (Some (FirstCause.mk "readiness" "READINESS_RECOVERY_EXPIRED" text None))
   else x = Ok None /\ phase_is DeploymentPhase.VALIDATING c3 /\ co_loss c3 = Some (me_observed_at e0)).
Proof.
  intros Hin0 (rc0 & Hrc0 & Hph0) Hdue0 Hj0 Hm0 Hw Hdue Hj Hm.
  assert (phase_is DeploymentPhase.VALIDATING c1 /\ co_loss c1 = Some (me_observed_at e0)) as [Hv1 Hl1].
  { rewrite (monitor_due e0 rc0 c0 Hrc0 ltac:(rewrite Hph0; left) Hdue0) in Hm0.
    destruct (judged_lost e0 rc0 c0 Hrc0 Hj0) as (rc1 & v & Hp1 & E). rewrite E in Hm0.
    unfold monitor_lost in Hm0. rewrite bool_decide_true in Hm0 by congruence.
    destruct Hin0 as (rc & p & Hrc & Hst & _). cbv zeta in Hm0. cbn [co_status set_readiness set_last] in Hm0.
    rewrite Hst in Hm0. destruct (evaluate_now _ _ _) as [rv|]; [|done].
    destruct (advance_status _ _ _ _ _ _ _) as [c' [[]|err]] eqn:Ha; [|done].
    apply advance_status_Ok in Ha as (p2 & d2 & -> & _). apply recovery_quiet in Hm0 as ->. split; [|done].
    eexists. split; [reflexivity|]. unfold ReadinessCoordinator.revoke. by rewrite bool_decide_true by congruence. }
  assert (phase_is DeploymentPhase.VALIDATING c2 /\ co_loss c2 = Some (me_observed_at e0)) as [Hv2 Hl2].
  { clear Hdue Hj Hm Hm0. induction Hw as [|c1 c1' c2 [[e' Ht] Hv'] _ IH]; [done|]. apply IH; [done|].
    destruct Hv1 as (rc1 & Hrc1 & Hph1). by eapply waiting_keeps_loss. }
  split; [done|]. destruct Hv2 as (rc2 & Hrc2 & Hph2).
  rewrite (monitor_due e rc2 c2 Hrc2 ltac:(rewrite Hph2; right; left) Hdue) in Hm.
  destruct (judged_lost e rc2 c2 Hrc2 Hj) as (rc3 & v & Hp3 & E). rewrite E in Hm. clear E.
  unfold monitor_lost in Hm. rewrite bool_decide_false in Hm by congruence.
  cbn [co_loss set_readiness set_last] in Hm. rewrite Hl2 in Hm. unfold recovery_verdict in Hm.
  cbn [co_loss set_readiness set_last] in Hm. rewrite Hl2 in Hm.
  change (co_plan (set_readiness (Some rc3) (set_last (me_now e) c2))) with (co_plan c2) in Hm.
  destruct (Float.leb _ _); injection Hm as <- <-.
  - split; [by eexists|]. by eexists.
  - split; [done|]. split; [|done]. exists rc3. split; [done|]. congruence.
Qed.
End Monitor.

(** ** The launch *)

Section Launch.
Context {B : Type} `{!BindingStore B} (ch : dict -> string) (ts : string -> bool) (sh : list value -> string).
Context (show_blocker : blocker -> string).
Context (Hsha : forall d, is_sha256 (ch d) = true).
Implicit Type c : composition B.

Lemma evaluate_bindings now st (l : Ledger.t B) s rc :
  ReadinessCoordinator.evaluate now (with_bindings st l) s rc = ReadinessCoordinator.evaluate now l s rc.
Proof. reflexivity. Qed.

Lemma evaluate_nodes now (l : Ledger.t B) s rc v :
  ReadinessCoordinator.evaluate now l s rc = Ok v -> ReadinessVerdict.nodes v = ReadinessCoordinator.nodes rc.
Proof. unfold ReadinessCoordinator.evaluate. by intros (r & _ & [= <-])%bind_Ok. Qed.

Lemma evaluate_time now now' (l : Ledger.t B) s rc v :
  ReadinessCoordinator.evaluate now l s rc = Ok v -> ReadinessVerdict.ready v = true ->
  exists v', ReadinessCoordinator.evaluate now' l s rc = Ok v' /\ ReadinessVerdict.ready v' = true.
Proof.
  unfold ReadinessCoordinator.evaluate. intros (r & -> & [= <-])%bind_Ok Hr. cbn [mbind result_bind]. by eexists.
Qed.

(** C13: The launch goes live: when the initial wait ends with a verdict, everything is in place
    to publish it (see [in_place]: the parties agree, the record is owned at VALIDATING, stores
    can be written, receipt hashes are distinct), no dead node is in the cluster and every proxy
    is spelt HEALTHY, and the time of the observation is finite and positive, then the launch
    publishes and commits READY, and a consumer reads READY with the endpoint of the verdict. *)
Theorem launch_goes_live turns e wall c c1 rc b lim st pub r C v :
  await_initial_readiness turns c = (c1, Ok v) -> co_readiness c1 = Some rc ->
  in_place ch ts sh e c1 rc b lim st pub r C -> clean_cluster rc ->
  Float.is_finite (ReadinessVerdict.observed_at v) = true -> not_positive (VFloat (ReadinessVerdict.observed_at v)) = false ->
  exists c' v' s, go_live ch show_blocker turns e wall c = (c', Ok v') /\ ReadinessVerdict.ready v' = true /\
    phase_is DeploymentPhase.READY c' /\ read_deployment_status ch (co_dir c') = Ok (Some s) /\
    DeploymentStatus.state s = READY /\
    DeploymentStatus.advertised_endpoint s = ReadinessVerdict.advertised_endpoint v.
Proof.
  intros Haw Hrc Hi Hc Hfin Hpos. pose proof Haw as Hf. unfold await_initial_readiness in Hf.
  destruct (co_readiness c) as [rc0|]; [|done]. destruct (bool_decide _); [|done].
  apply await_turns_frame in Hf as (rc' & -> & Hf). cbn in Hrc. injection Hrc as ->.
  destruct (Hf v eq_refl) as (Hready & now & Hev). pose proof (ip_deployed _ _ _ _ _ _ _ _ _ _ _ _ Hi) as Hd.
  assert (ReadinessVerdict.observed_at v = now /\ ReadinessVerdict.receipt_hashes v
          = listed_hashes (Ledger.accepted_receipts (co_ledger c))) as [Hnow Hhs].
  { pose proof Hev as Hev'. unfold ReadinessCoordinator.evaluate in Hev'. by apply bind_Ok in Hev' as (rep & _ & [= <-]). }
  rewrite Hnow in Hfin, Hpos.
  pose proof (ready_publishable ch ts sh Hsha _ _ _ _ _ _ Hd now v (ip_distinct _ _ _ _ _ _ _ _ _ _ _ _ Hi) Hc Hfin Hpos Hev Hready) as Hv.
  destruct (publish_goes ch ts sh show_blocker Hsha _ _ _ _ _ _ _ _ _ _ Hi Hv Hhs)
    as (c2 & pub' & r' & Hp & _ & _ & Hrc2 & Hst & [st' Hl2] & Hs2 & _ & Ho & Hep & _).
  destruct (owned_readable _ _ _ _ _ _ (ip_identity _ _ _ _ _ _ _ _ _ _ _ _ Hi) Ho) as (s & Hs & Hss & _).
  destruct (read_record_fields _ _ _ _ (read_owned _ _ _ _ _ _ _ Ho Hs)) as (F1 & _).
  unfold data_text in F1. rewrite Hep in F1. injection F1 as F1.
  destruct (evaluate_time now wall _ _ _ _ Hev Hready) as (v2 & Hev2 & Hr2).
  exists (set_readiness (Some (ReadinessCoordinator.with_phase DeploymentPhase.READY (ReadinessCoordinator.first_failure rc) rc)) c2),
    (ReadinessCoordinator.committed_verdict v2), s.
  split; [|split_and!; try done; [by eexists|congruence]].
  unfold go_live. rewrite Haw, Hp, Hrc2. cbn [co_readiness set_readiness].
  unfold ReadinessCoordinator.commit_ready. rewrite Hl2, Hs2, evaluate_bindings.
  cbn [co_ledger co_sessions set_readiness]. rewrite Hev2, Hr2. cbn [ReadinessCoordinator.committed_verdict].
  change (ReadinessVerdict.ready (ReadinessCoordinator.committed_verdict v2)) with (ReadinessVerdict.ready v2). by rewrite Hr2.
Qed.
End Launch.
