(* ===== verification/CompositionDemo.v ===== *)
(** A concrete deployment of one node and one model: the ledger accepts a receipt for every
    slot, the launch goes live, the monitor loses the cluster and the deadline passes. *)

From S2P Require Import Prelude PyValue Atomic Json JsonProps Envelopes Contracts Session SessionProps Receipts ReceiptCodec ReceiptCodecProps Bindings BindingsProps Ledger LedgerProps Readiness ReadinessProps Supervisor Status StatusProps Manifest ManifestProps StatusApi StatusApiProps StatusApiDemo PublishProps Composition VerdictProps PayloadProps CompositionProps MonitorProps.

#[local] Instance live_store_class : BindingStore Store.t :=
  component_binding_store demo_event_hash demo_batch_hash demo_digest_ok.

(** ** A hash that tells the receipts of the plan apart *)

Fixpoint position (s : string) (l : list string) : nat :=
  match l with
  | [] => 0%nat
  | x :: l' => if String.eqb s x then 0%nat else S (position s l')
  end.

Definition live_digit (n : nat) : Ascii.ascii :=
  match n with
  | 0%nat => "0"%char | 1%nat => "1"%char | 2%nat => "2"%char | 3%nat => "3"%char | 4%nat => "4"%char
  | 5%nat => "5"%char | 6%nat => "6"%char | 7%nat => "7"%char | _ => "8"%char
  end.

Definition live_rest : string := String.substring 0 63 demo_digest.

Definition live_hash (d : dict) : string :=
  match attr "receipt_requirement_id" d with
  | VStr s => String.String (live_digit (position s (DeploymentPlan.requirement_ids demo_node_plan))) live_rest
  | _ => demo_digest
  end.

Lemma live_hash_sha d : is_sha256 (live_hash d) = true.
Proof.
  unfold live_hash. destruct (attr "receipt_requirement_id" d) as [| | | |s| |]; try (vm_compute; reflexivity).
  generalize (position s (DeploymentPlan.requirement_ids demo_node_plan)). intros n.
  do 8 (destruct n as [|n]; [vm_compute; reflexivity|]). vm_compute. reflexivity.
Qed.

(** ** A receipt for every slot *)

Definition live_receipt (q : ReceiptRequirement.t) : Receipt.t :=
  finalize live_hash
    (Receipt.mk 2 "dep-1" 0 demo_digest demo_digest demo_digest demo_digest demo_digest
       (ReceiptRequirement.receipt_requirement_id q) (ReceiptRequirement.role q)
       (ReceiptRequirement.component_slot q) "i1" (ReceiptRequirement.owner_scope q)
       (ReceiptRequirement.planned_rank q) "node0" (Some 17) None demo_digest None demo_digest
       [("python", "3.12"); ("ray", "2.9"); ("vllm", "0.11")] [] [] [] []
       (ReceiptRequirement.attestation_type q) "2026-01-01T00:00:00Z" "").

Definition live_accept (l : Ledger.t Store.t) (q : ReceiptRequirement.t) : Ledger.t Store.t :=
  (Ledger.accept (compute_hash live_hash) demo_utc demo_io (live_receipt q) None
     (ReceiptRequirement.planned_rank q) (Some "node0")
     (bool_decide (ReceiptRequirement.owner_scope q = "GLOBAL")) l).1.

Definition live_ledger : Ledger.t Store.t :=
  fold_left live_accept (DeploymentPlan.receipt_requirements demo_node_plan) demo_empty.

Example live_satisfied : Ledger.satisfied live_ledger = true.
Proof. vm_compute. reflexivity. Qed.

Lemma live_ledger_ok : ledger_ok (compute_hash live_hash) demo_utc live_ledger /\ same_context demo_empty live_ledger.
Proof.
  apply (lreach_ok _ _ false); [apply demo_empty_ok|]. unfold live_ledger.
  assert (forall qs l, lreach (compute_hash live_hash) demo_utc false demo_empty l ->
    lreach (compute_hash live_hash) demo_utc false demo_empty (fold_left live_accept qs l)) as H.
  { induction qs as [|q qs IH]; intros l Hl; [exact Hl|]. cbn [fold_left]. apply IH. unfold live_accept.
    apply lr_accept; [exact Hl|]. done. }
  apply H. constructor.
Qed.

(** ** The evidence of a turn *)

Definition live_observation (state : string) : ComponentObservation.t :=
  ComponentObservation.mk "dep-1" demo_digest 0 "ray" "i1" 1 RANK "ray_head" "node0" state (VFloat (Float.of_Z 1))
    (Some 0) None None None None None.

Definition live_evidence (nodes : list Node.t) : evidence :=
  Evidence (Some (ChildSnapshot [("m", (1, 1, "RUNNING")); ("_exaserve_proxy_anchor_r0", (1, 1, "RUNNING"))] nodes []))
    (Some (fun _ role => [live_observation (if String.eqb role "ray" then "RUNNING" else "READY")])) true true.

Definition live_node : Node.t := Node.mk "n0" "node0" "10.0.0.1" true (VInt 8) (VInt 1).
Definition dead_node : Node.t := Node.mk "n9" "node9" "10.0.0.9" false (VInt 8) (VInt 1).

Definition live_turn (nodes : list Node.t) : turn :=
  Turn None None (Some true) true true (live_evidence nodes) (fun _ => Some true) (Float.of_Z 1006).

(** The coordinator when the wait begins. *)
Definition live_coordinator : ReadinessCoordinator.t :=
  rrun (B := Store.t) [REnterValidating; RSetEndpoint (VStr "http://head:8000/v1")] demo_initial.

Definition live_sessions : option SessionCoordinator.t := Some (demo_sessions demo_started).

(** The publisher at VALIDATING. *)
Definition live_start : list api_op := take 5%nat api_start.
Abbreviation live_published := (run_ops live_hash api_config live_start (new_publisher, api_dir)).

Definition live_root : composition Store.t :=
  Composition api_config "/run" (Some live_coordinator) live_ledger live_sessions (Some live_published.1)
    live_published.2 None (Float.of_Z 0).

Definition live_io : io_env := Io (Store.barrier_done, Store.barrier_done) (Float.of_Z 1005).
Definition live_env (n : Z) : publish_env := PublishEnv live_io Written (api_env n).

Abbreviation live_wait nodes := (await_initial_readiness [live_turn nodes] live_root).

Definition no_text (_ : blocker) : string := "blocked".
Definition no_seconds (_ : float) : string := "60".

Definition is_ready (x : result composition_error ReadinessVerdict.t) : bool :=
  match x with Ok v => ReadinessVerdict.ready v | Err _ => false end.

Example live_wait_ends : is_ready (live_wait [live_node]).2 = true.
Proof. vm_compute. reflexivity. Qed.
Example live_goes : is_ready (go_live live_hash no_text [live_turn [live_node]] (live_env 6) (Float.of_Z 1007) live_root).2 = true.
Proof. vm_compute. reflexivity. Qed.
Example dead_stays : is_ready (live_wait [live_node; dead_node]).2 = true /\
  is_ready (go_live live_hash no_text [live_turn [live_node; dead_node]] (live_env 6) (Float.of_Z 1007) live_root).2 = false.
Proof. vm_compute. split; reflexivity. Qed.

(** ** Everything is in place *)

(** The coordinator when the wait ends. *)
Definition live_ops (nodes : list Node.t) : list (rop (B := Store.t)) :=
  [REnterValidating; RSetEndpoint (VStr "http://head:8000/v1"); RSetGateway (VBool true) (VBool true);
   RSetCluster (VList (node_value <$> nodes)) (VList [proxy_value (Proxy.mk "n0" "HEALTHY")]);
   RSetApplications (VList [VStr "m"; VStr "_exaserve_proxy_anchor_r0"]);
   RSetOwned (VStr "deployment") (VBool true); RSetOwned (VStr "rank_launcher") (VBool true);
   RSetRank (VInt 0) (VBool true); RSetReplicas (VStr "m") (VInt 1) (VInt 1); RSetRoute (VStr "m") (VBool true);
   RSetCanary (VStr "m") (VBool true)].
Definition live_readiness (nodes : list Node.t) : ReadinessCoordinator.t := rrun (live_ops nodes) demo_initial.

Example live_wait_readiness : co_readiness (live_wait [live_node]).1 = Some (live_readiness [live_node]) /\
  co_readiness (live_wait [live_node; dead_node]).1 = Some (live_readiness [live_node; dead_node]).
Proof. vm_compute. split; reflexivity. Qed.

Lemma live_evidence_ok nodes : evidence_ok demo_node_plan demo_node_binding (live_readiness nodes).
Proof.
  apply (rreachable_evidence (B := Store.t)). exists demo_initial, (live_ops nodes). split; [|reflexivity].
  vm_compute. reflexivity.
Qed.

Lemma all_constructed {A} (f : A -> plan_result unit) l :
  forallb (fun x => is_ok (f x)) l = true -> Forall (fun x => f x = Ok tt) l.
Proof.
  intros H. apply Forall_forall. intros x Hx%list_elem_of_In. rewrite forallb_forall in H. apply H in Hx.
  destruct (f x) as [[]|]; [reflexivity|discriminate Hx].
Qed.

Lemma live_plan_constructed : DeploymentPlan.constructed demo_node_plan.
Proof.
  unfold DeploymentPlan.constructed. split_and!.
  - vm_compute. reflexivity.
  - apply all_constructed. vm_compute. reflexivity.
  - apply all_constructed. vm_compute. reflexivity.
  - vm_compute. reflexivity.
  - intros g Hg. vm_compute in Hg. injection Hg as <-. vm_compute. reflexivity.
  - apply all_constructed. vm_compute. reflexivity.
  - vm_compute. reflexivity.
  - vm_compute. reflexivity.
  - vm_compute. reflexivity.
  - vm_compute. reflexivity.
Qed.

Lemma live_maps : Forall maps_ok (Ledger.accepted_receipts live_ledger).
Proof.
  assert (forallb (fun r => no_dups (dkeys (Receipt.observed_versions r)) && no_dups (dkeys (Receipt.observed_package_hashes r)) &&
    no_dups (dkeys (Receipt.observed_source_hashes r)) && no_dups (dkeys (Receipt.patch_results r)))
    (Ledger.accepted_receipts live_ledger) = true) as H by (vm_compute; reflexivity).
  apply Forall_forall. intros r Hr%list_elem_of_In. rewrite forallb_forall in H. apply H in Hr.
  unfold no_dups in Hr. rewrite !andb_true_iff, !bool_decide_eq_true in Hr. unfold maps_ok. tauto.
Qed.

Lemma live_deployed nodes :
  deployed live_hash demo_utc demo_hash demo_node_plan demo_node_binding demo_limits live_ledger live_sessions
    (live_readiness nodes).
Proof.
  destruct live_ledger_ok as [Hl (E1 & E2 & _)]. constructor.
  - apply live_plan_constructed.
  - apply demo_representable.
  - apply demo_node_binding_valid.
  - vm_compute. reflexivity.
  - apply live_evidence_ok.
  - exact E1.
  - exact E2.
  - exact Hl.
  - apply live_maps.
  - apply demo_sessions_all.
Qed.

Lemma live_start_ok : Forall (op_ok api_config) live_start.
Proof.
  pose proof api_ready_ok as H. unfold api_ready in H. apply Forall_app in H as [H _].
  by apply Forall_take.
Qed.

Abbreviation live_leases := (last_lease live_hash api_config (new_publisher, api_dir) live_start).

Lemma live_owned : exists r, owned live_hash api_config live_leases live_published.1 live_published.2 r.
Proof.
  pose proof (run_owned live_hash api_config live_start new_publisher api_dir api_fresh live_start_ok) as H.
  assert (pub_state live_published.1 = VALIDATING) as Hst by (vm_compute; reflexivity).
  destruct live_published as [p d]. destruct H as [(-> & _)|[H|(r & _ & o & Ho & Ha)]]; [discriminate Hst|exact H|].
  exfalso. pose proof api_ready_clear as Hc. rewrite Forall_forall in Hc. apply (Hc o) in Ha; [exact Ha|].
  apply list_elem_of_lookup in Ho as [i Hi]. apply lookup_take_Some in Hi as [Hi _].
  unfold api_ready. apply elem_of_app. left. apply list_elem_of_lookup. exists i. exact Hi.
Qed.

Lemma live_good_env n : In n [6; 7; 8; 30; 60; 90; 120] -> good_env api_config (api_env n).
Proof.
  intros Hn.
  assert (forall n, In n [6; 7; 8; 30; 60; 90; 120] ->
    Float.is_finite (Float.of_Z (1000 + n)) && Float.leb Float.zero (Float.of_Z (1000 + n)) &&
    is_ok (clock_sample (api_clock n)) &&
    Float.is_finite (Float.add (Float.of_Z (1000 + n)) (lease_duration api_config)) &&
    Float.is_finite (Float.add (Float.of_Z n) (lease_duration api_config)) &&
    negb (not_positive (VFloat (Float.add (Float.of_Z (1000 + n)) (lease_duration api_config)))) &&
    negb (not_positive (VFloat (Float.add (Float.of_Z n) (lease_duration api_config)))) = true) as H.
  { apply forallb_forall. vm_compute. reflexivity. }
  specialize (H n Hn). rewrite !andb_true_iff, !negb_true_iff in H. destruct H as ((((((F1 & F2) & F3) & F4) & F5) & F6) & F7).
  assert (clock_sample (api_clock n) = Ok (Float.of_Z (1000 + n), Float.of_Z n, "boot-1")) as Hc.
  { destruct (clock_sample (api_clock n)) as [[[w m] b]|] eqn:E; [|discriminate F3].
    apply clock_sample_Ok in E as (<- & <- & [= <-] & _). reflexivity. }
  constructor; try reflexivity; [split; assumption| |split; assumption|].
  - exists (Float.of_Z (1000 + n)), (Float.of_Z n), "boot-1". split; [exact Hc|]. split; assumption.
  - eexists. exact Hc.
Qed.

Definition live_store : Store.t := default demo_fresh (Ledger.store live_ledger).

(** The root at the end of the wait. *)
Abbreviation live_waited nodes := (set_readiness (Some (live_readiness nodes)) live_root).

Lemma live_in_place nodes r :
  owned live_hash api_config live_leases live_published.1 live_published.2 r ->
  in_place live_hash demo_utc demo_hash (live_env 6) (live_waited nodes) (live_readiness nodes) demo_node_binding
    demo_limits live_store live_published.1 r live_leases.
Proof.
  intros Ho. constructor.
  - apply live_deployed.
  - reflexivity.
  - reflexivity.
  - apply api_identity.
  - reflexivity.
  - exact Ho.
  - vm_compute. reflexivity.
  - vm_compute. reflexivity.
  - vm_compute. reflexivity.
  - apply live_good_env. left. reflexivity.
  - left. split; [|reflexivity]. vm_compute. reflexivity.
  - apply (bool_decide_unpack _). vm_compute. exact I.
Qed.

Lemma live_clean : clean_cluster (live_readiness [live_node]).
Proof.
  assert (ReadinessCoordinator.nodes (live_readiness [live_node]) = [live_node]) as E1 by (vm_compute; reflexivity).
  assert (ReadinessCoordinator.proxies (live_readiness [live_node]) = [Proxy.mk "n0" "HEALTHY"]) as E2 by (vm_compute; reflexivity).
  split; rewrite ?E1, ?E2; (apply Forall_cons; split; [reflexivity|apply Forall_nil_2]).
Qed.

Abbreviation live_verdict nodes :=
  (ReadinessCoordinator.evaluate (Float.of_Z 1006) live_ledger live_sessions (live_readiness nodes)).

Lemma live_verdict_ready nodes :
  match live_verdict nodes with Ok v => ReadinessVerdict.ready v | Err _ => false end = true ->
  exists v, live_verdict nodes = Ok v /\ ReadinessVerdict.ready v = true.
Proof. destruct (live_verdict nodes) as [v|]; [eauto|discriminate]. Qed.

Lemma ready_verdict_published_witness :
  exists v c' s, live_verdict [live_node] = Ok v /\
    publish_ready live_hash no_text (live_env 6) v (live_waited [live_node]) = (c', Ok tt) /\
    read_deployment_status live_hash (co_dir c') = Ok (Some s) /\ DeploymentStatus.state s = READY /\
    DeploymentStatus.ready (api_clock 20) s = Ok true.
Proof.
  destruct live_owned as [r Ho]. destruct (live_verdict_ready [live_node]) as (v & Hv & Hr); [vm_compute; reflexivity|].
  destruct (ready_verdict_published live_hash demo_utc demo_hash no_text live_hash_sha (live_env 6) (live_waited [live_node])
    (live_readiness [live_node]) demo_node_binding demo_limits live_store live_published.1 r live_leases
    (Float.of_Z 1006) v (live_in_place _ r Ho) live_clean) as (c' & s & m & Hp & Hs & Hst & _ & _ & Hk & _);
    [vm_compute; reflexivity|vm_compute; reflexivity|exact Hv|exact Hr|].
  exists v, c', s. split; [exact Hv|]. split; [exact Hp|]. split; [exact Hs|]. split; [exact Hst|].
  rewrite Hk. vm_compute. reflexivity.
Defined.

Lemma dead_node_unpublishable_witness :
  exists v, live_verdict [live_node; dead_node] = Ok v /\ ReadinessVerdict.ready v = true /\
    (publish_ready live_hash no_text (live_env 6) v live_root).2 <> Ok tt /\
    status_file (co_dir (publish_ready live_hash no_text (live_env 6) v live_root).1) = status_file live_published.2.
Proof.
  destruct (live_verdict_ready [live_node; dead_node]) as (v & Hv & Hr); [vm_compute; reflexivity|].
  exists v. split; [exact Hv|]. split; [exact Hr|].
  assert (exists n, n ∈ ReadinessVerdict.nodes v /\ Node.alive n = false) as Hd.
  { exists dead_node. split; [|reflexivity]. rewrite (evaluate_nodes _ _ _ _ _ Hv).
    assert (ReadinessCoordinator.nodes (live_readiness [live_node; dead_node]) = [live_node; dead_node]) as -> by (vm_compute; reflexivity).
    right. left. }
  pose proof (dead_node_unpublishable live_hash no_text (live_env 6) (api_clock 6) Written VNone VNone [] v live_root Hd) as H.
  destruct (publish_ready live_hash no_text (live_env 6) v live_root) as [c' x]. destruct H as (H1 & H2 & _).
  split; [exact H1|exact H2].
Defined.

(** ** The launch and the monitor *)

Lemma live_wait_root : (live_wait [live_node]).1 = live_waited [live_node].
Proof. vm_compute. reflexivity. Qed.

Definition observed_ok (x : result composition_error ReadinessVerdict.t) : bool :=
  match x with
  | Ok v => Float.is_finite (ReadinessVerdict.observed_at v) && negb (not_positive (VFloat (ReadinessVerdict.observed_at v)))
  | Err _ => false
  end.

Lemma launch_goes_live_witness :
  exists c' v' s, go_live live_hash no_text [live_turn [live_node]] (live_env 6) (Float.of_Z 1007) live_root = (c', Ok v') /\
    phase_is DeploymentPhase.READY c' /\ read_deployment_status live_hash (co_dir c') = Ok (Some s) /\
    DeploymentStatus.state s = READY.
Proof.
  destruct live_owned as [r Ho].
  assert (observed_ok (live_wait [live_node]).2 = true) as Hob by (vm_compute; reflexivity).
  pose proof live_wait_root as Hroot. destruct (live_wait [live_node]) as [c1 [v|]] eqn:Hw; [|discriminate Hob].
  cbn [fst snd observed_ok] in Hroot, Hob. apply andb_prop in Hob as [Hf Hp]. apply negb_true_iff in Hp. subst c1.
  destruct (launch_goes_live live_hash demo_utc demo_hash no_text live_hash_sha [live_turn [live_node]] (live_env 6)
    (Float.of_Z 1007) live_root (live_waited [live_node]) (live_readiness [live_node]) demo_node_binding demo_limits
    live_store live_published.1 r live_leases v Hw eq_refl (live_in_place _ r Ho) live_clean Hf Hp)
    as (c' & v' & s & Hg & _ & Hph & Hs & Hst & _).
  exists c', v', s. split; [exact Hg|]. split; [exact Hph|]. split; [exact Hs|exact Hst].
Defined.

(** A turn of the monitor at monotonic time [n]. *)
Definition live_monitor (n : Z) (nodes : list Node.t) : monitor_env :=
  MonitorEnv None (Float.of_Z n) (Some true) true (live_evidence nodes) (fun _ => true) (Float.of_Z n)
    (Float.of_Z (1000 + n)) true (live_env n) (api_env n) (api_clock n, Written).

Abbreviation live_launch := (go_live live_hash no_text [live_turn [live_node]] (live_env 6) (Float.of_Z 1007) live_root).
Abbreviation live_monitored n nodes c := (monitor_readiness live_hash no_text no_seconds (live_monitor n nodes) c).

Definition quiet_ready (x : composition Store.t * result composition_error (option FirstCause.t)) : bool :=
  match x with
  | (c, Ok None) => bool_decide (public_state c = Some READY)
  | _ => false
  end.

Lemma public_state_follows_phase_witness :
  exists c1 v c3, live_launch = (c1, Ok v) /\ live_monitored 30 [live_node] c1 = (c3, Ok None) /\
    public_state c3 = Some READY /\ (idle (live_monitor 30 [live_node]) c1 /\ c3 = c1 \/ judged (live_monitor 30 [live_node]) c1 true).
Proof.
  assert (is_ready live_launch.2 && quiet_ready (live_monitored 30 [live_node] live_launch.1) = true) as H
    by (vm_compute; reflexivity).
  destruct live_launch as [c1 [v|]] eqn:Hg; [|discriminate H]. cbn [fst snd is_ready] in H. apply andb_prop in H as [_ H].
  destruct (live_monitored 30 [live_node] c1) as [c3 [[|]|]] eqn:Hm; try discriminate H. apply bool_decide_eq_true in H.
  destruct (public_state_follows_phase live_hash no_text no_seconds [live_turn [live_node]] (live_env 6) (Float.of_Z 1007)
    live_root v c1 c1 (live_monitor 30 [live_node]) c3 (Ok None) eq_refl Hg (rtc_refl _ c1) Hm) as (_ & _ & Hr).
  exists c1, v, c3. split; [reflexivity|]. split; [exact Hm|]. split; [exact H|]. exact (Hr H).
Defined.

(** What a turn judges. *)
Definition judge (e : monitor_env) (c : composition Store.t) : option bool :=
  rc ← co_readiness c;
  match observe_turn (me_alive e) (me_health e) (me_evidence e) (me_canary e) rc with
  | (rc1, Ok _) =>
      match ReadinessCoordinator.evaluate (me_wall e) (co_ledger c) (co_sessions c) rc1 with
      | Ok v => Some (ReadinessVerdict.ready v)
      | Err _ => None
      end
  | _ => None
  end.

Lemma judge_judged e c b : judge e c = Some b -> judged e c b.
Proof.
  unfold judge. destruct (co_readiness c) as [rc|] eqn:Hrc; [|discriminate]. cbn [mbind option_bind].
  destruct (observe_turn _ _ _ _ rc) as [rc1 [[]|]] eqn:Ho; [|discriminate].
  destruct (ReadinessCoordinator.evaluate _ _ _ rc1) as [v|] eqn:Hv; [|discriminate]. intros [= <-].
  exists rc, rc1, v. split_and!; done.
Qed.

Definition phase_of (c : composition Store.t) : option DeploymentPhase.t := ReadinessCoordinator.phase <$> co_readiness c.

Lemma phase_of_is c ph : phase_of c = Some ph -> phase_is ph c.
Proof. unfold phase_of. destruct (co_readiness c) as [rc|] eqn:H; [|discriminate]. intros [= <-]. by exists rc. Qed.

Definition gate (e : monitor_env) (c : composition Store.t) : bool :=
  Float.ltb (Float.sub (me_now e) (co_last c))
    (ReadinessLimits.validation_interval_s (DeploymentPlan.readiness (co_plan c))).

Lemma live_due n nodes c : gate (live_monitor n nodes) c = false -> due (live_monitor n nodes) c.
Proof. intros H. split; [reflexivity|]. split; [right; discriminate|exact H]. Qed.

Definition stopped (x : result composition_error (option FirstCause.t)) : bool :=
  match x with Ok (Some _) => true | _ => false end.
Definition reports_nothing (x : result composition_error (option FirstCause.t)) : bool :=
  match x with Ok None => true | _ => false end.

Lemma recovery_is_bounded_witness :
  exists c0 v c1 c3 text, live_launch = (c0, Ok v) /\ live_monitored 30 [] c0 = (c1, Ok None) /\
    live_monitored 120 [] c1 = (c3, Ok (Some (FirstCause.mk "readiness" "READINESS_RECOVERY_EXPIRED" text None))) /\
    co_loss c1 = Some (Float.of_Z 30) /\ phase_is DeploymentPhase.FAILED c3.
Proof.
  assert (is_ready live_launch.2 && reports_nothing (live_monitored 30 [] live_launch.1).2
    && bool_decide (phase_of live_launch.1 = Some DeploymentPhase.READY)
    && negb (gate (live_monitor 30 []) live_launch.1) && bool_decide (judge (live_monitor 30 []) live_launch.1 = Some false)
    && negb (gate (live_monitor 120 []) (live_monitored 30 [] live_launch.1).1)
    && bool_decide (judge (live_monitor 120 []) (live_monitored 30 [] live_launch.1).1 = Some false)
    && Float.leb (ReadinessLimits.recovery_deadline_s (DeploymentPlan.readiness
         (co_plan (live_monitored 30 [] live_launch.1).1))) (Float.sub (Float.of_Z 120) (Float.of_Z 30)) = true) as H
    by (vm_compute; reflexivity).
  destruct live_launch as [c0 [v|]] eqn:Hg; [|discriminate H]. cbn [fst snd is_ready] in H.
  rewrite !andb_true_iff, !negb_true_iff, !bool_decide_eq_true in H.
  destruct H as (((((((_ & Hq) & Hph) & Hd0) & Hj0) & Hd1) & Hj1) & Hdl).
  destruct (live_monitored 30 [] c0) as [c1 [[|]|]] eqn:Hm; [discriminate Hq| |discriminate Hq].
  cbn [fst snd] in Hd1, Hj1, Hdl.
  destruct (live_monitored 120 [] c1) as [c3 x] eqn:Hm3.
  destruct (recovery_is_bounded live_hash no_text no_seconds (live_monitor 30 []) c0 c1 c1 (live_monitor 120 []) c3 x
    (go_live_in_phase live_hash no_text _ _ _ live_root _ _ eq_refl Hg) (phase_of_is _ _ Hph) (live_due _ _ _ Hd0)
    (judge_judged _ _ _ Hj0) Hm (rtc_refl _ c1) (live_due _ _ _ Hd1) (judge_judged _ _ _ Hj1) Hm3) as (Hl & Hx).
  cbn [me_observed_at live_monitor] in Hx. rewrite Hdl in Hx. destruct Hx as (Hf & text & ->).
  exists c0, v, c1, c3, text. split; [reflexivity|]. split; [exact Hm|]. split; [exact Hm3|]. split; [exact Hl|exact Hf].
Defined.

Lemma manifest_roundtrip_witness :
  let m := manifest_for live_hash (live_waited [live_node]) in
  load_receipt_manifest live_hash (Doc (VDict (ReceiptManifest.asdict m))) = Ok m /\
  length (ReceiptManifest.receipts m) = length (DeploymentPlan.requirement_ids demo_node_plan).
Proof.
  destruct live_owned as [r Ho].
  destruct (manifest_roundtrip live_hash demo_utc _ _ _ _ live_hash_sha _
    (in_place_listed _ _ _ _ _ _ _ _ _ _ _ _ (live_in_place [live_node] r Ho))) as (_ & _ & Hl & Hr & _).
  split; [exact Hl|]. vm_compute. reflexivity.
Defined.
