(* ===== verification/Shutdown.v ===== *)
(** The end of a run: the first cause, the shutdown sequence and the exit status
    (src/exaserve/composition.py, the end of src/exaserve/launcher.py).

    [root] adds to the composition the supervisor, whose components the gateway and the
    deployment are, the first cause and what the shutdown leaves behind. Answers of the
    channel, of the threads and of the file system are a record of arguments, and so are the
    absolute deadlines. [ordinary] says which exceptions of callbacks are of the classes that
    the handlers name (OSError, RuntimeError, ValueError); every other exception ends the call. An exception of a
    release step is of a class that the step's own handler names, or ends the call as well. *)

From S2P Require Import Prelude PyValue Atomic Envelopes Contracts Session Receipts ReceiptCodec Bindings Ledger Readiness Supervisor Status Manifest StatusApi Composition.

(** ** The report *)

Module ShutdownReport.
Record t := mk {
  clean : bool;
  errors : list string;
  deadline_exhausted : bool;
  terminal_publication : string;
  observed_terminal_state : option DeploymentState;
  components : list (string * (ComponentState.t * option Z));
}.
End ShutdownReport.

(** ** The root *)

Record root (B : Type) := Root {
  ro_comp : composition B;
  ro_supervisor : RuntimeSupervisor.t;
  ro_gateway : option string;
  ro_deployment : option string;
  ro_channel : option bool;
  ro_cause : option string;
  ro_draining : bool;
  ro_cancelling : bool;
  ro_report : option ShutdownReport.t;
}.
Arguments Root {B}.
Arguments ro_comp {B}.
Arguments ro_supervisor {B}.
Arguments ro_gateway {B}.
Arguments ro_deployment {B}.
Arguments ro_channel {B}.
Arguments ro_cause {B}.
Arguments ro_draining {B}.
Arguments ro_cancelling {B}.
Arguments ro_report {B}.

Section Updates.
Context {B : Type}.
Implicit Type r : root B.
Definition put_comp (x : composition B) r : root B :=
  Root x (ro_supervisor r) (ro_gateway r) (ro_deployment r) (ro_channel r) (ro_cause r) (ro_draining r)
    (ro_cancelling r) (ro_report r).
Definition put_supervisor (x : RuntimeSupervisor.t) r : root B :=
  Root (ro_comp r) x (ro_gateway r) (ro_deployment r) (ro_channel r) (ro_cause r) (ro_draining r)
    (ro_cancelling r) (ro_report r).
Definition put_cause (x : option string) r : root B :=
  Root (ro_comp r) (ro_supervisor r) (ro_gateway r) (ro_deployment r) (ro_channel r) x (ro_draining r)
    (ro_cancelling r) (ro_report r).
Definition put_flags (draining cancelling : bool) r : root B :=
  Root (ro_comp r) (ro_supervisor r) (ro_gateway r) (ro_deployment r) (ro_channel r) (ro_cause r) draining
    cancelling (ro_report r).
Definition put_report (x : ShutdownReport.t) r : root B :=
  Root (ro_comp r) (ro_supervisor r) (ro_gateway r) (ro_deployment r) (ro_channel r) (ro_cause r)
    (ro_draining r) (ro_cancelling r) (Some x).
Definition public r : option DeploymentState := pub_state <$> co_status (ro_comp r).
End Updates.

(** ** The causes *)

(** [_operator_shutdown_requested] *)
Definition operator_shutdown_requested (s : RuntimeSupervisor.t) : bool :=
  from_option (fun c => bool_decide (FirstCause.reason_code c = "SHUTDOWN_REQUESTED")) false
    (RuntimeSupervisor.first_cause s).

(** [_rank_sessions_may_be_unavailable] *)
Definition rank_sessions_may_be_unavailable (s : RuntimeSupervisor.t) : bool :=
  from_option (fun c => bool_decide (FirstCause.component_id c ∈ ["rank_launcher"; "control"])
                        || bool_decide (FirstCause.reason_code c = "CONTROL_FAILURE")) false
    (RuntimeSupervisor.first_cause s).

(** [exit_code] *)
Definition exit_code {B} (r : root B) : Z :=
  let supervised := RuntimeSupervisor.exit_code (ro_supervisor r) in
  match ro_cause r with
  | None => supervised
  | Some _ =>
      if operator_shutdown_requested (ro_supervisor r) then 143
      else if bool_decide (supervised ∈ [0; 143]) then 1 else supervised
  end.

(** ** The shutdown *)

(** The exception of a release step, by the classes that the handlers distinguish. *)
Inductive step_error :=
| StepOSError (text : string)
| StepRuntimeError (text : string)
| StepOther (kind text : string).

Definition step_text (x : step_error) : string :=
  match x with StepOSError t | StepRuntimeError t | StepOther _ t => t end.
Definition step_kind (x : step_error) : string :=
  match x with StepOSError _ => "OSError" | StepRuntimeError _ => "RuntimeError" | StepOther k _ => k end.

(** [except OSError] and [except (OSError, RuntimeError)] *)
Definition names_os (x : step_error) : bool := match x with StepOSError _ => true | _ => false end.
Definition names_os_runtime (x : step_error) : bool := match x with StepOther _ _ => false | _ => true end.

(** How the write of the report ends: when it raises, the new report may be [visible]. *)
Inductive report_io :=
| ReportWritten
| ReportRaised (visible : bool) (text : string).

(** What one shutdown meets; a resource that is not there is [None]. *)
Record shutdown_env := ShutdownEnv {
  se_drain : advance_env;
  se_gateway_deadline : float;
  se_gateway : ManagedComponent.stop_env;
  se_deployment_deadline : float;
  se_deployment : ManagedComponent.stop_env;
  se_acknowledged : sup_result Z;
  se_goodbyes : sup_result Z;
  se_now : float;
  se_world : string -> ManagedComponent.stop_env;
  se_port_lease : option (result step_error unit);
  se_listener : option (result step_error unit);
  se_observer : option (result step_error bool);
  se_ingress : option (result step_error bool);
  se_channel : result step_error bool;
  se_returncode : string -> option Z;
  se_exhausted : bool * bool;
  se_first_report : report_io;
  se_terminal : advance_env;
  se_final_report : report_io;
}.

(** The root with the errors of the cleanup and whether the channel was stopped. *)
Record cleaning (B : Type) := Cleaning {
  cl_root : root B;
  cl_errors : list string;
  cl_channel : bool;
}.
Arguments Cleaning {B}.
Arguments cl_root {B}.
Arguments cl_errors {B}.
Arguments cl_channel {B}.

Section Shutdown.
Context {B : Type} `{!BindingStore B} (canonical_hash : dict -> string).
Context (ordinary : string -> bool) (publication_text : composition_error -> string).
Implicit Types (r : root B) (s : cleaning B).

(** [cleanup_failed] *)
Definition cleanup_failed (detail : string) s : cleaning B :=
  Cleaning (put_cause (ReadinessCoordinator.first_or detail (ro_cause (cl_root s))) (cl_root s))
    (cl_errors s ++ [detail]) (cl_channel s).
Definition with_root (r : root B) s : cleaning B := Cleaning r (cl_errors s) (cl_channel s).
Definition is_clean s : bool := bool_decide (cl_errors s = []) && cl_channel s.

(** An exception that the handlers of the shutdown do not name. *)
Definition is_ordinary (x : sup_error) : bool :=
  match x with OtherError kind _ => ordinary kind | _ => true end.
(** [self.status.advance(new, reason_code=..., detail=...)] *)
Definition advance_root (e : advance_env) (new : DeploymentState) (reason detail : string) r
    : root B * result composition_error unit :=
  let '(c, x) := advance_status canonical_hash e new reason detail [] (ro_comp r) in (put_comp c r, x).

(** Draining is announced, a cancellation noted. *)
Definition announce (e : shutdown_env) s : cleaning B * sup_result unit :=
  let r := cl_root s in
  match public r with
  | None => (s, Ok tt)
  | Some READY =>
      match advance_root (se_drain e) DRAINING "SHUTDOWN_REQUESTED" "" r with
      | (r', Ok _) => (with_root (put_flags true (ro_cancelling r') r') s, Ok tt)
      | (r', Err x) =>
          if is_handled x
          then (cleanup_failed ("shutdown status publication failed: " +:+ publication_text x) (with_root r' s), Ok tt)
          else (with_root r' s, Err (OtherError (error_kind x) (publication_text x)))
      end
  | Some st =>
      if bool_decide (st ∈ [PLANNED; STAGING; CLUSTER_STARTING; DEPLOYING; VALIDATING])
      then (with_root (put_flags (ro_draining r) true r) s, Ok tt)
      else (s, Ok tt)
  end.

(** [stop_global_component]: the component is the supervisor's. *)
Definition stop_global_component (key : option string) (deadline : float) (w : ManagedComponent.stop_env) s
    : cleaning B * sup_result unit :=
  let sup := ro_supervisor (cl_root s) in
  match key ≫= fun k => pair k <$> dget k (RuntimeSupervisor.components sup) with
  | None => (s, Ok tt)
  | Some (k, m) =>
      let '(m', x) := ManagedComponent.stop (Some deadline) w m in
      let s' := with_root (put_supervisor (RuntimeSupervisor.put m' k sup) (cl_root s)) s in
      match x with
      | Ok _ => (s', Ok tt)
      | Err y =>
          if is_ordinary y
          then (cleanup_failed (ManagedComponent.component_id m' +:+ " ordered cleanup failed: " +:+ RuntimeSupervisor.typed_text y) s', Ok tt)
          else (s', Err y)
      end
  end.

(** The ranks drain: ingress first, then the deployment, then DRAIN and the goodbyes; an
    exception of [broadcast_shutdown] or [wait_shutdown_goodbyes] is not handled. *)
Definition drain_ranks (e : shutdown_env) s : cleaning B * sup_result unit :=
  match ro_channel (cl_root s) with
  | Some true =>
      let unavailable := rank_sessions_may_be_unavailable (ro_supervisor (cl_root s)) in
      let stopped :=
        if unavailable then (s, Ok tt)
        else match stop_global_component (ro_gateway (cl_root s)) (se_gateway_deadline e) (se_gateway e) s with
             | (s1, Err x) => (s1, Err x)
             | (s1, Ok _) => stop_global_component (ro_deployment (cl_root s1)) (se_deployment_deadline e) (se_deployment e) s1
             end in
      match stopped with
      | (s1, Err x) => (s1, Err x)
      | (s1, Ok _) =>
          let planned := DeploymentPlan.num_nodes (co_plan (ro_comp (cl_root s1))) in
          match se_acknowledged e, se_goodbyes e with
          | Err x, _ | Ok _, Err x => (s1, Err x)
          | Ok acknowledged, Ok goodbyes =>
              (if negb ((acknowledged =? planned) && (goodbyes =? planned)) && negb unavailable
               then cleanup_failed ("rank drain protocol incomplete: acknowledged=" +:+ str_Z acknowledged +:+ "/" +:+
                      str_Z planned +:+ ", goodbye=" +:+ str_Z goodbyes +:+ "/" +:+ str_Z planned) s1
               else s1, Ok tt)
          end
      end
  | _ => (s, Ok tt)
  end.

(** [self.supervisor.shutdown(deadline=...)] *)
Definition reap (deadline : float) (e : shutdown_env) s : cleaning B * sup_result unit :=
  match RuntimeSupervisor.shutdown deadline (se_world e) (ro_supervisor (cl_root s)) with
  | (sup, Err x) => (with_root (put_supervisor sup (cl_root s)) s, Err x)
  | (sup, Ok clean) =>
      let s1 := with_root (put_supervisor sup (cl_root s)) s in
      (if clean then s1 else cleanup_failed "one or more owned process groups survived cleanup" s1, Ok tt)
  end.

(** [except ... as exc: cleanup_failed(...)] of a release step: an exception that the handler
    does not name ends the shutdown. *)
Definition step_failed (names : step_error -> bool) (label : string) (x : step_error) s : cleaning B * sup_result unit :=
  if names x then (cleanup_failed (label +:+ " cleanup failed: " +:+ step_text x) s, Ok tt)
  else (s, Err (OtherError (step_kind x) (step_text x))).

(** A resource is released, a thread is stopped. *)
Definition release (names : step_error -> bool) (label : string) (x : option (result step_error unit)) s
    : cleaning B * sup_result unit :=
  match x with Some (Err y) => step_failed names label y s | _ => (s, Ok tt) end.
Definition stop_thread (names : step_error -> bool) (label : string) (x : option (result step_error bool)) s
    : cleaning B * sup_result unit :=
  match x with
  | Some (Ok false) => (cleanup_failed (label +:+ " thread did not stop") s, Ok tt)
  | Some (Err y) => step_failed names label y s
  | _ => (s, Ok tt)
  end.
Definition stop_channel (x : result step_error bool) s : cleaning B * sup_result unit :=
  match ro_channel (cl_root s) with
  | None => (s, Ok tt)
  | Some _ =>
      let incomplete := cleanup_failed "control listener or event-loop cleanup was incomplete" in
      match x with
      | Ok true => (s, Ok tt)
      | Ok false => (incomplete (Cleaning (cl_root s) (cl_errors s) false), Ok tt)
      | Err y =>
          match step_failed names_os_runtime "control listener" y (Cleaning (cl_root s) (cl_errors s) false) with
          | (s', Ok _) => (incomplete s', Ok tt)
          | (_, Err z) => (s, Err z)
          end
      end
  end.

(** The steps in their order; the first exception that is not handled ends them. *)
Definition then_step (f : cleaning B -> cleaning B * sup_result unit) (x : cleaning B * sup_result unit)
    : cleaning B * sup_result unit :=
  match x with (s, Ok _) => f s | _ => x end.

Definition release_all (e : shutdown_env) s : cleaning B * sup_result unit :=
  then_step (stop_channel (se_channel e))
    (then_step (stop_thread names_os "deployment ingress" (se_ingress e))
      (then_step (stop_thread names_os_runtime "deployment observer" (se_observer e))
        (then_step (release names_os "gateway listener" (se_listener e))
          (release names_os_runtime "gateway port lease" (se_port_lease e) s)))).

(** [shutdown_payload] *)
Definition shutdown_payload (returncode : string -> option Z) (exhausted : bool) (publication : string) s
    : ShutdownReport.t :=
  ShutdownReport.mk
    (is_clean s && bool_decide (publication ∈ ["published"; "not_required"]))
    (cl_errors s) exhausted publication (public (cl_root s))
    ((fun kv => (kv.1, (ManagedComponent.state kv.2,
                         match ManagedComponent.process kv.2 with Some _ => returncode kv.1 | None => None end)))
       <$> sorted_items (RuntimeSupervisor.components (ro_supervisor (cl_root s)))).

(** The report is replaced atomically; the handler names every exception of the write. *)
Definition write_report (label : string) (written : report_io) (returncode : string -> option Z)
    (exhausted : bool) (publication : string) s : cleaning B :=
  let replaced := with_root (put_report (shutdown_payload returncode exhausted publication s) (cl_root s)) s in
  match written with
  | ReportWritten => replaced
  | ReportRaised visible text => cleanup_failed (label +:+ text) (if visible then replaced else s)
  end.

(** The terminal state that a clean or an unclean shutdown publishes. *)
Definition terminal_state s : DeploymentState :=
  if is_clean s then (if ro_draining (cl_root s) then STOPPED else CANCELLED) else FAILED.

Definition terminal_reason s : string :=
  if is_clean s
  then (if ro_draining (cl_root s) then "DRAINED_AND_REAPED" else "SHUTDOWN_BEFORE_READY")
  else "CLEANUP_INCOMPLETE".

Definition terminal_detail s : string :=
  if is_clean s then ""
  else String.substring 0 400
         (match ro_cause (cl_root s) with
          | Some t => if nonempty t then t else "cleanup incomplete"
          | None => "cleanup incomplete"
          end).

Definition publish_terminal (e : shutdown_env) s : cleaning B * sup_result string :=
  match advance_root (se_terminal e) (terminal_state s) (terminal_reason s) (terminal_detail s) (cl_root s) with
  | (r', Ok _) => (with_root r' s, Ok "published")
  | (r', Err x) =>
      if is_handled x
      then (cleanup_failed ("terminal status publication failed: " +:+ publication_text x) (with_root r' s),
            Ok ("failed: StatusPublicationError: " +:+ publication_text x))
      else (with_root r' s, Err (OtherError (error_kind x) (publication_text x)))
  end.

(** The audit around the terminal transition. *)
Definition conclude (e : shutdown_env) s : cleaning B * sup_result unit :=
  let requested := bool_decide (is_Some (public (cl_root s))) &&
                   (ro_draining (cl_root s) || ro_cancelling (cl_root s)) in
  let s1 := write_report "shutdown report publication failed: " (se_first_report e) (se_returncode e)
              (se_exhausted e).1 (if requested then "pending" else "not_required") s in
  let ended := if requested then publish_terminal e s1 else (s1, Ok "not_required") in
  match ended with
  | (s2, Err x) => (s2, Err x)
  | (s2, Ok publication) =>
      (write_report "final shutdown report publication failed: " (se_final_report e) (se_returncode e)
         (se_exhausted e).2 publication s2, Ok tt)
  end.

(** The cleanup, up to the channel. *)
Definition clean_up (deadline : float) (e : shutdown_env) s : cleaning B * sup_result unit :=
  match announce e s with
  | (s1, Err x) => (s1, Err x)
  | (s1, Ok _) =>
      match drain_ranks e s1 with
      | (s2, Err x) => (s2, Err x)
      | (s2, Ok _) =>
          match reap deadline e s2 with
          | (s3, Err x) => (s3, Err x)
          | (s3, Ok _) => release_all e s3
          end
      end
  end.

(** [shutdown]; the one outer deadline counts from its first reading of the clock. The budget
    is the float of the plan, so that the check of its type is the typing here. *)
Definition shutdown (drain_s : float) (e : shutdown_env) r : cleaning B * sup_result unit :=
  let s := Cleaning r [] true in
  if ManagedComponent.bad_deadline drain_s
  then (s, Err (SupValueError "shutdown deadline must be finite and nonnegative"))
  else match clean_up (Float.add (se_now e) drain_s) e s with
       | (s, Err x) => (s, Err x)
       | (s, Ok _) => conclude e s
       end.

(** [fail] *)
Definition fail_root (e : advance_env) (reason : string) r : root B * sup_result unit :=
  let r1 := match ro_cause r with None => put_cause (Some reason) r | Some _ => r end in
  match fail_status canonical_hash e (operator_shutdown_requested (ro_supervisor r)) reason (ro_comp r1) with
  | (c, Ok _) => (put_comp c r1, Ok tt)
  | (c, Err x) => (put_comp c r1, Err (OtherError (error_kind x) (publication_text x)))
  end.

(** [plan.control.watchdog_cleanup_deadline_s] *)
Definition cleanup_budget r : float :=
  ControlLimits.watchdog_cleanup_deadline_s (DeploymentPlan.control (co_plan (ro_comp r))).

(** The end of the launcher's run: the cause, the shutdown in any case, the exit status. *)
Definition finish (fe : advance_env) (e : shutdown_env) (cause : option string) r : root B * sup_result Z :=
  let '(r1, failed) := match cause with Some reason => fail_root fe reason r | None => (r, Ok tt) end in
  match shutdown (cleanup_budget r1) e r1, failed with
  | (s, Err x), _ | (s, Ok _), Err x => (cl_root s, Err x)
  | (s, Ok _), Ok _ => (cl_root s, Ok (exit_code (cl_root s)))
  end.
End Shutdown.
