(* ===== verification/ShutdownProps.v ===== *)
(** The end of a run: what a terminal state, a clean report and the exit status promise, and
    that a shutdown always reaches its terminal state. *)

From S2P Require Import Prelude PyValue Atomic Envelopes Contracts Session Receipts ReceiptCodec ReceiptCodecProps Bindings BindingsProps Ledger LedgerProps Readiness Supervisor SupervisorProps Status StatusProps Manifest StatusApi StatusApiProps PublishProps Composition VerdictProps PayloadProps CompositionProps MonitorProps Shutdown.

(** ** The supervisor keeps the operator's request *)

Lemma record_cause_operator k rc detail code s :
  rc <> "SHUTDOWN_REQUESTED" ->
  operator_shutdown_requested (RuntimeSupervisor.record_cause k rc detail code s).1 = operator_shutdown_requested s.
Proof.
  intros Hrc. unfold RuntimeSupervisor.record_cause, operator_shutdown_requested. destruct (FirstCause.post_init _); [|done].
  destruct (RuntimeSupervisor.first_cause s) as [c|]; cbn; [done|by rewrite bool_decide_false].
Qed.

Lemma stop_each_operator rc detail d world ids clean s :
  rc <> "SHUTDOWN_REQUESTED" ->
  operator_shutdown_requested (RuntimeSupervisor.stop_each rc detail d world ids clean s).1 = operator_shutdown_requested s.
Proof.
  intros Hrc. revert clean s. induction ids as [|k ids IH]; intros clean s; [done|]. cbn [RuntimeSupervisor.stop_each].
  destruct (dget k _) as [m|]; [|apply IH]. destruct (ManagedComponent.stop _ _ _) as [m' [u|x]]; [by rewrite IH|].
  pose proof (record_cause_operator (ManagedComponent.component_id m') rc (detail x) None (RuntimeSupervisor.put m' k s) Hrc) as Ho.
  destruct (RuntimeSupervisor.record_cause _ _ _ _ _) as [s' [u|y]]; [by rewrite IH|done].
Qed.

Lemma shutdown_operator deadline world s :
  operator_shutdown_requested (RuntimeSupervisor.shutdown deadline world s).1 = operator_shutdown_requested s.
Proof.
  unfold RuntimeSupervisor.shutdown. destruct (negb _); [done|].
  pose proof (stop_each_operator "CLEANUP_ERROR" exc_text (Some deadline) world (rev (dkeys (RuntimeSupervisor.components s))) true s) as H.
  destruct (RuntimeSupervisor.stop_each _ _ _ _ _ _ _) as [s' [c|x]]; by apply H.
Qed.

(** A clean shutdown of the supervisor stopped every component. *)
Definition all_stopped (s : RuntimeSupervisor.t) : Prop :=
  forall k m, (k, m) ∈ RuntimeSupervisor.components s -> ManagedComponent.state m = ComponentState.STOPPED.

Lemma shutdown_clean deadline world s s' :
  RuntimeSupervisor.shutdown deadline world s = (s', Ok true) -> all_stopped s'.
Proof.
  unfold RuntimeSupervisor.shutdown. destruct (negb _); [done|].
  destruct (RuntimeSupervisor.stop_each _ _ _ _ _ _ _) as [s1 [c|x]]; [|done]. intros [= -> [_ H]%andb_true_iff] k m Hm.
  rewrite forallb_forall in H. apply list_elem_of_In in Hm. specialize (H _ Hm). by apply bool_decide_eq_true in H.
Qed.

(** ** What the steps of the shutdown carry *)

Section Shutdown.
Context {B : Type} `{!BindingStore B} (ch : dict -> string) (ordinary : string -> bool) (ptext : composition_error -> string).
Implicit Types (r : root B) (s : cleaning B) (e : shutdown_env).

(** Errors are never dropped, and each leaves a cause. *)
Record carried s s' : Prop := Carried {
  ca_errors : cl_errors s `prefix_of` cl_errors s';
  ca_cause : is_Some (ro_cause (cl_root s)) -> is_Some (ro_cause (cl_root s'));
  ca_blamed : cl_errors s' = cl_errors s \/ is_Some (ro_cause (cl_root s'));
  ca_channel : ro_channel (cl_root s') = ro_channel (cl_root s);
  ca_plan : co_plan (ro_comp (cl_root s')) = co_plan (ro_comp (cl_root s));
  ca_operator : operator_shutdown_requested (ro_supervisor (cl_root s')) = operator_shutdown_requested (ro_supervisor (cl_root s));
  ca_sound : cl_errors s' = [] -> cl_channel s' = cl_channel s
}.

(** The steps between the announcement and the report leave the public state alone. *)
Record quiet s s' : Prop := Quiet {
  qu_carried : carried s s';
  qu_comp : ro_comp (cl_root s') = ro_comp (cl_root s);
  qu_draining : ro_draining (cl_root s') = ro_draining (cl_root s);
  qu_cancelling : ro_cancelling (cl_root s') = ro_cancelling (cl_root s);
  qu_report : ro_report (cl_root s') = ro_report (cl_root s)
}.

Lemma carried_trans s1 s2 s3 : carried s1 s2 -> carried s2 s3 -> carried s1 s3.
Proof.
  intros [A1 A2 A3 A4 A5 A6 A7] [B1 B2 B3 B4 B5 B6 B7]. split; try congruence; auto; [by etrans|..].
  - destruct A3 as [A3|A3], B3 as [B3|B3]; auto. left. congruence.
  - intros H. rewrite B7, A7; try done. rewrite H in B1. by apply prefix_nil_inv in B1.
Qed.

Lemma carried_with_root r s :
  (is_Some (ro_cause (cl_root s)) -> is_Some (ro_cause r)) -> ro_channel r = ro_channel (cl_root s) ->
  co_plan (ro_comp r) = co_plan (ro_comp (cl_root s)) ->
  operator_shutdown_requested (ro_supervisor r) = operator_shutdown_requested (ro_supervisor (cl_root s)) ->
  carried s (with_root r s).
Proof. intros. split; cbn; auto. Qed.

Lemma quiet_same s : quiet s s.
Proof. repeat split; auto. Qed.

Lemma quiet_trans s1 s2 s3 : quiet s1 s2 -> quiet s2 s3 -> quiet s1 s3.
Proof. intros [A1 A2 A3 A4 A5] [B1 B2 B3 B4 B5]. split; try congruence. by eapply carried_trans. Qed.

Lemma failed_in_quiet d b s : quiet s (cleanup_failed d (Cleaning (cl_root s) (cl_errors s) b)).
Proof.
  repeat split; cbn; auto.
  - by apply prefix_app_r.
  - unfold ReadinessCoordinator.first_or. intros [t ->]. by destruct (nonempty t).
  - right. unfold ReadinessCoordinator.first_or. destruct (ro_cause _) as [t|]; [by destruct (nonempty t)|done].
  - by intros []%app_nil.
Qed.

Lemma failed_quiet d s : quiet s (cleanup_failed d s).
Proof. destruct s as [r l b]. exact (failed_in_quiet d b (Cleaning r l b)). Qed.

Lemma failed_dirty d s : cl_errors (cleanup_failed d s) <> [].
Proof. cbn. by destruct (cl_errors s). Qed.

Lemma put_supervisor_quiet sup s :
  operator_shutdown_requested sup = operator_shutdown_requested (ro_supervisor (cl_root s)) ->
  quiet s (with_root (put_supervisor sup (cl_root s)) s).
Proof. intros H. split; try done. by apply carried_with_root. Qed.

Lemma carried_clean s s' : carried s s' -> cl_errors s' = [] -> cl_errors s = [].
Proof. intros [A _ _ _ _ _ _] H. rewrite H in A. by apply prefix_nil_inv in A. Qed.

(** *** The steps *)

Lemma stop_global_quiet key d w s : quiet s (stop_global_component ordinary key d w s).1.
Proof.
  unfold stop_global_component. destruct (key ≫= _) as [[k m]|]; [|apply quiet_same].
  destruct (ManagedComponent.stop _ _ _) as [m' [u|x]]; cbn [fst]; [by apply put_supervisor_quiet|].
  destruct (is_ordinary _ x); cbn [fst]; [|by apply put_supervisor_quiet].
  eapply quiet_trans; [|apply failed_quiet]. by apply put_supervisor_quiet.
Qed.

(** Every planned rank acknowledged the drain and said goodbye, if START was broadcast and
    the recorded cause has not taken the sessions away. *)
Definition ranks_drained e r : Prop :=
  ro_channel r = Some true -> rank_sessions_may_be_unavailable (ro_supervisor r) = false ->
  se_acknowledged e = Ok (DeploymentPlan.num_nodes (co_plan (ro_comp r))) /\
  se_goodbyes e = Ok (DeploymentPlan.num_nodes (co_plan (ro_comp r))).

(** The ordered stop of the gateway and of the deployment. *)
Definition ordered_stop e s : cleaning B * sup_result unit :=
  if rank_sessions_may_be_unavailable (ro_supervisor (cl_root s)) then (s, Ok tt)
  else match stop_global_component ordinary (ro_gateway (cl_root s)) (se_gateway_deadline e) (se_gateway e) s with
       | (s1, Err x) => (s1, Err x)
       | (s1, Ok _) =>
           stop_global_component ordinary (ro_deployment (cl_root s1)) (se_deployment_deadline e) (se_deployment e) s1
       end.

Lemma ordered_stop_quiet e s : quiet s (ordered_stop e s).1.
Proof.
  unfold ordered_stop. destruct (rank_sessions_may_be_unavailable _); [apply quiet_same|].
  pose proof (stop_global_quiet (ro_gateway (cl_root s)) (se_gateway_deadline e) (se_gateway e) s) as H1.
  destruct (stop_global_component _ _ _ _ s) as [s1 [u|x]]; [|done]. by eapply quiet_trans, stop_global_quiet.
Qed.

Lemma drain_ranks_unfold e s :
  drain_ranks ordinary e s =
  match ro_channel (cl_root s) with
  | Some true =>
      match ordered_stop e s with
      | (s1, Err x) => (s1, Err x)
      | (s1, Ok _) =>
          let planned := DeploymentPlan.num_nodes (co_plan (ro_comp (cl_root s1))) in
          match se_acknowledged e, se_goodbyes e with
          | Err x, _ | Ok _, Err x => (s1, Err x)
          | Ok acknowledged, Ok goodbyes =>
              (if negb ((acknowledged =? planned) && (goodbyes =? planned))
                  && negb (rank_sessions_may_be_unavailable (ro_supervisor (cl_root s)))
               then cleanup_failed ("rank drain protocol incomplete: acknowledged=" +:+ str_Z acknowledged +:+ "/" +:+
                      str_Z planned +:+ ", goodbye=" +:+ str_Z goodbyes +:+ "/" +:+ str_Z planned) s1
               else s1, Ok tt)
          end
      end
  | _ => (s, Ok tt)
  end.
Proof. done. Qed.

Lemma drain_ranks_spec e s :
  quiet s (drain_ranks ordinary e s).1 /\
  (cl_errors (drain_ranks ordinary e s).1 = [] -> (drain_ranks ordinary e s).2 = Ok tt -> ranks_drained e (cl_root s)).
Proof.
  rewrite drain_ranks_unfold. unfold ranks_drained.
  destruct (ro_channel (cl_root s)) as [[]|]; [|by split; [apply quiet_same|]..].
  pose proof (ordered_stop_quiet e s) as H1. destruct (ordered_stop e s) as [s1 [u|x]]; cbn [fst snd] in *; [|done].
  rewrite (qu_comp _ _ H1). destruct (se_acknowledged e) as [n|y]; [|done]. destruct (se_goodbyes e) as [g|y]; [|done].
  destruct (_ && _) eqn:E; cbn [fst].
  - split; [|by intros ?%failed_dirty]. eapply quiet_trans; [done|apply failed_quiet].
  - split; [done|]. intros _ _ _ Hu. rewrite Hu in E. apply andb_false_iff in E as [E|E]; [|done].
    apply negb_false_iff, andb_true_iff in E as [E1 E2]. split; f_equal; lia.
Qed.

Lemma reap_spec d e s :
  quiet s (reap d e s).1 /\
  (cl_errors (reap d e s).1 = [] -> (reap d e s).2 = Ok tt -> all_stopped (ro_supervisor (cl_root (reap d e s).1))).
Proof.
  unfold reap. pose proof (shutdown_operator d (se_world e) (ro_supervisor (cl_root s))) as Ho.
  destruct (RuntimeSupervisor.shutdown _ _ _) as [sup [[]|x]] eqn:E; cbn [fst snd] in *.
  - split; [by apply put_supervisor_quiet|]. intros _ _. by eapply shutdown_clean.
  - split; [|by intros ?%failed_dirty]. eapply quiet_trans; [by apply put_supervisor_quiet|apply failed_quiet].
  - split; [by apply put_supervisor_quiet|done].
Qed.

(** The resources were released. *)
Record released e r : Prop := AllReleased {
  rl_port : forall y, se_port_lease e <> Some (Err y);
  rl_listener : forall y, se_listener e <> Some (Err y);
  rl_observer : se_observer e = None \/ se_observer e = Some (Ok true);
  rl_ingress : se_ingress e = None \/ se_ingress e = Some (Ok true);
  rl_channel : is_Some (ro_channel r) -> se_channel e = Ok true
}.

(** A step of the release: it leaves the public state and the supervisor alone, and when it
    returns clean, it started clean and did its work. *)
Record release_step (ok : Prop) s (x : cleaning B * sup_result unit) : Prop := ReleaseStep {
  rs_quiet : quiet s x.1;
  rs_supervisor : ro_supervisor (cl_root x.1) = ro_supervisor (cl_root s);
  rs_clean : x.2 = Ok tt -> is_clean x.1 = true -> is_clean s = true /\ ok
}.

Lemma failed_unclean d s : is_clean (cleanup_failed d s) = false.
Proof. unfold is_clean. rewrite bool_decide_false; [done|apply failed_dirty]. Qed.

Lemma release_step_done (ok : Prop) s : ok -> release_step ok s (s, Ok tt).
Proof. intros Hok. split; [apply quiet_same|done|by intros _ ?]. Qed.

Lemma release_step_failed (ok : Prop) d s : release_step ok s (cleanup_failed d s, Ok tt).
Proof. split; [apply failed_quiet|done|]. cbn [fst snd]. intros _ H. by rewrite failed_unclean in H. Qed.

Lemma step_failed_spec (ok : Prop) names label y s : release_step ok s (step_failed names label y s).
Proof. unfold step_failed. destruct (names y); [apply release_step_failed|]. split; [apply quiet_same|done|done]. Qed.

Lemma release_spec names label x s : release_step (forall y, x <> Some (Err y)) s (release names label x s).
Proof. destruct x as [[u|y]|]; cbn; [by apply release_step_done|apply step_failed_spec|by apply release_step_done]. Qed.

Lemma stop_thread_spec names label x s :
  release_step (x = None \/ x = Some (Ok true)) s (stop_thread names label x s).
Proof.
  destruct x as [[[]|y]|]; cbn; [apply release_step_done; by right|apply release_step_failed|apply step_failed_spec|].
  apply release_step_done. by left.
Qed.

Lemma stop_channel_spec x s :
  release_step (is_Some (ro_channel (cl_root s)) -> x = Ok true) s (stop_channel x s).
Proof.
  unfold stop_channel. destruct (ro_channel (cl_root s)) as [b|]; [|apply release_step_done; by intros []].
  destruct x as [[]|y]; [by apply release_step_done|..].
  - split; [apply failed_in_quiet|done|]. cbn [fst snd]. intros _ H. by rewrite failed_unclean in H.
  - unfold step_failed. destruct (names_os_runtime y); [|split; [apply quiet_same|done|done]].
    split; [|done|]; cbn [fst snd].
    + eapply quiet_trans; [apply failed_in_quiet|apply failed_quiet].
    + intros _ H. by rewrite failed_unclean in H.
Qed.

Lemma then_step_spec (ok1 ok2 : Prop) f s x :
  release_step ok1 s x -> (forall s1, quiet s s1 -> release_step ok2 s1 (f s1)) ->
  release_step (ok1 /\ ok2) s (then_step f x).
Proof.
  intros [Q1 S1 C1] Hf. destruct x as [s1 [u|y]]; cbn [then_step fst snd] in *; [|by split].
  destruct (Hf s1 Q1) as [Q2 S2 C2]. split; [by eapply quiet_trans|congruence|].
  intros Hx Hcl. destruct (C2 Hx Hcl) as [H1 ?]. destruct u. by destruct (C1 eq_refl H1).
Qed.

Lemma release_all_spec e s : release_step (released e (cl_root s)) s (release_all e s).
Proof.
  assert (release_step
    (((((forall y, se_port_lease e <> Some (Err y)) /\ (forall y, se_listener e <> Some (Err y))) /\
       (se_observer e = None \/ se_observer e = Some (Ok true))) /\
      (se_ingress e = None \/ se_ingress e = Some (Ok true))) /\
     (is_Some (ro_channel (cl_root s)) -> se_channel e = Ok true)) s (release_all e s)) as [Q S C].
  { apply then_step_spec; [apply then_step_spec; [apply then_step_spec; [apply then_step_spec|]|]|];
      [apply release_spec|intros s1 _; apply release_spec|intros s1 _; apply stop_thread_spec..|].
    intros s1 Q. rewrite <- (ca_channel _ _ (qu_carried _ _ Q)). apply stop_channel_spec. }
  split; [done|done|]. intros Hx Hcl. destruct (C Hx Hcl) as (Hs & (((? & ?) & ?) & ?) & ?). split; [done|]. by split.
Qed.

(** *** The public state *)

Definition PRE_READY : list DeploymentState := [PLANNED; STAGING; CLUSTER_STARTING; DEPLOYING; VALIDATING].

(** The state that an orderly shutdown ends in. *)
Definition clean_end (o : option DeploymentState) : option DeploymentState :=
  match o with
  | Some READY => Some STOPPED
  | Some st => if bool_decide (st ∈ PRE_READY) then Some CANCELLED else Some st
  | None => None
  end.

Lemma advance_keeps cf (e : advance_env) new reason detail data p d p' d' x :
  advance ch cf e new reason detail data p d = (p', d', Err x) -> pub_state p' = pub_state p.
Proof.
  unfold advance, prepare. destruct (_ <? 0); [by intros [= <- <- _]|].
  destruct (bool_decide (new = READY)).
  - destruct (ready_snapshot _ _ _ _ _) as [s|y]; [|by intros [= <- <- _]].
    destruct (publish_ready_lease _ _ _ _ _ _) as [[p1 d1] y] eqn:Hl.
    assert (pub_state p1 = pub_state p) as Hp1 by (unfold publish_ready_lease in Hl; repeat case_match; by simplify_eq).
    destruct y as [u|y]; [|by intros [= <- <- _]].
    destruct (transition _ _ _ _ _ _ _ _ _ _) as [f [r'|y]]; [done|by intros [= <- <- _]].
  - destruct (revoked_snapshot _ _ _ _) as [s|y]; [|by intros [= <- <- _]].
    destruct (transition _ _ _ _ _ _ _ _ _ _) as [f [r'|y]]; [done|by intros [= <- <- _]].
Qed.

Lemma advance_root_spec (e : advance_env) new reason detail r r' x :
  advance_root ch e new reason detail r = (r', x) ->
  (exists c, r' = put_comp c r /\ co_plan c = co_plan (ro_comp r)) /\
  public r' = match x with Ok _ => Some new | Err _ => public r end.
Proof.
  unfold advance_root, advance_status, public. destruct (co_status (ro_comp r)) as [p|] eqn:Hp.
  2: { intros [= <- <-]. split; [by eexists|]. cbn. by rewrite Hp. }
  destruct (advance _ _ _ _ _ _ _ _ _) as [[p' d'] [y|y]] eqn:Ha; intros [= <- <-]; (split; [by eexists|]); cbn.
  - by rewrite (advance_state _ _ _ _ _ _ _ _ _ _ _ _ Ha).
  - by rewrite (advance_keeps _ _ _ _ _ _ _ _ _ _ _ Ha).
Qed.

(** *** The state on record *)

(** The state that the status file names, which may be ahead of the publisher's when a write
    raised after the rename. *)
Definition state_on_file (f : file) : value := match f with Doc (VDict raw) => attr "state" raw | _ => VNone end.
Definition on_record r : value := state_on_file (status_file (co_dir (ro_comp r))).

Lemma transition_file io now cur new reason det data er k f f' (x : result exn (StatusRecord DeploymentState)) :
  transition io now cur new reason det data er k f = (f', x) ->
  state_on_file f' = state_on_file f \/ state_on_file f' = VStr (deployment_value new).
Proof.
  unfold transition. intros [(rec & _ & Hrec & _ & -> & _)|[-> _]]%commit_cases; [right|by left].
  unfold transition_record in Hrec. res_inv. done.
Qed.

Lemma advance_file cf (e : advance_env) new reason detail data p d p' d' x :
  advance ch cf e new reason detail data p d = (p', d', x) ->
  state_on_file (status_file d') = state_on_file (status_file d) \/
  state_on_file (status_file d') = VStr (deployment_value new).
Proof.
  unfold advance. destruct (_ <? 0); [intros [= _ <- _]; by left|].
  destruct (prepare _ _ _ _ _ _ _) as [[p1 d1] y] eqn:Hp.
  assert (status_file d1 = status_file d) as <-.
  { unfold prepare, publish_ready_lease in Hp. repeat case_match; by simplify_eq. }
  destruct y as [s|y]; [|intros [= _ <- _]; by left].
  destruct (transition _ _ _ _ _ _ _ _ _ _) as [f [r'|y]] eqn:Ht; intros [= _ <- _]; by eapply transition_file.
Qed.

Lemma advance_root_file (e : advance_env) new reason detail r r' x :
  advance_root ch e new reason detail r = (r', x) ->
  on_record r' = on_record r \/ on_record r' = VStr (deployment_value new).
Proof.
  unfold advance_root, advance_status, on_record. destruct (co_status (ro_comp r)) as [p|]; [|intros [= <- _]; by left].
  destruct (advance _ _ _ _ _ _ _ _ _) as [[p' d'] y] eqn:Ha. intros [= <- _]. by apply advance_file in Ha.
Qed.

(** What the announcement leaves: draining, cancelling, or neither. *)
Definition announced (o : option DeploymentState) (ok : Prop) s : Prop :=
  (o = Some READY /\ public (cl_root s) = Some DRAINING /\
   ro_draining (cl_root s) = true /\ ro_cancelling (cl_root s) = false) \/
  (exists st, o = Some st /\ st ∈ PRE_READY /\ public (cl_root s) = Some st /\
   ro_draining (cl_root s) = false /\ ro_cancelling (cl_root s) = true) \/
  (public (cl_root s) = o /\ ro_draining (cl_root s) = false /\ ro_cancelling (cl_root s) = false /\
   (ok -> o <> Some READY \/ cl_errors s = [] -> clean_end o = o)).

Lemma announce_spec e s s' x :
  ro_draining (cl_root s) = false -> ro_cancelling (cl_root s) = false ->
  announce ch ptext e s = (s', x) ->
  carried s s' /\ ro_report (cl_root s') = ro_report (cl_root s) /\ ro_supervisor (cl_root s') = ro_supervisor (cl_root s) /\
  announced (public (cl_root s)) (x = Ok tt) s'.
Proof.
  intros Hd Hc. unfold announce.
  destruct (public (cl_root s)) as [st|] eqn:Hp.
  2: { intros [= <- <-]. split_and!; [apply quiet_same|done|done|]. right; right. by rewrite Hp. }
  destruct (decide (st = READY)) as [->|Hne].
  { destruct (advance_root ch _ _ _ _ _) as [r' [u|y]] eqn:Ha; apply advance_root_spec in Ha as ((c & -> & Hpl) & Hpub).
    - intros [= <- <-]. split_and!; [by apply carried_with_root|done|done|]. left. done.
    - assert (carried s (with_root (put_comp c (cl_root s)) s)) as Hcr by by apply carried_with_root.
      destruct (is_handled y); intros [= <- <-].
      + split_and!; [|done|done|]. { eapply carried_trans; [done|apply failed_quiet]. }
        right; right. split_and!; [by rewrite <- Hp|done|done|]. by intros _ [|?%failed_dirty].
      + split_and!; [done|done|done|]. right; right. by split_and!; [rewrite <- Hp|..]. }
  assert (clean_end (Some st) = if bool_decide (st ∈ PRE_READY) then Some CANCELLED else Some st) as He
    by by destruct st.
  intros H. replace (match st with READY => _ | _ => _ end) with
    (if bool_decide (st ∈ PRE_READY) then (with_root (put_flags (ro_draining (cl_root s)) true (cl_root s)) s, Ok tt)
     else (s, Ok tt : sup_result unit)) in H by (by destruct st).
  destruct (bool_decide_reflect (st ∈ PRE_READY)) as [Hpre|Hpre]; injection H as <- <-.
  - split_and!; [by apply carried_with_root|done|done|]. right; left. by exists st.
  - split_and!; [apply quiet_same|done|done|]. right; right. split_and!; done.
Qed.

(** ** The whole shutdown *)

(** What a clean cleanup has done: no process, no session, no thread, no listener is left. *)
Record reaped e r (sup : RuntimeSupervisor.t) : Prop := Reaped {
  rp_components : all_stopped sup;
  rp_ranks : ranks_drained e r;
  rp_released : released e r
}.

Lemma announced_quiet o (ok ok' : Prop) s s' :
  quiet s s' -> (ok' -> ok) -> announced o ok s -> announced o ok' s'.
Proof.
  intros Hq Hok. unfold announced, public. rewrite (qu_comp _ _ Hq), (qu_draining _ _ Hq), (qu_cancelling _ _ Hq).
  intros [?|[?|(? & ? & ? & H)]]; [by left|by right; left|]. right; right. split_and!; auto.
  intros ? He. apply H; [auto|]. destruct He as [|He]; [by left|right]. by eapply carried_clean; [apply Hq|].
Qed.

Lemma clean_up_spec d e r s x :
  ro_draining r = false -> ro_cancelling r = false ->
  clean_up ch ordinary ptext d e (Cleaning r [] true) = (s, x) ->
  carried (Cleaning r [] true) s /\ ro_report (cl_root s) = ro_report r /\ announced (public r) (x = Ok tt) s /\
  (x = Ok tt -> is_clean s = true -> reaped e r (ro_supervisor (cl_root s))).
Proof.
  intros Hd Hc. unfold clean_up. destruct (announce _ _ _ _) as [s1 x1] eqn:H1.
  apply announce_spec in H1 as (C1 & R1 & S1 & A1); [|done..]. cbn [cl_root] in *.
  destruct x1 as [[]|y]; [|by intros [= <- <-]].
  pose proof (drain_ranks_spec e s1) as [Q2 D2]. destruct (drain_ranks _ _ _) as [s2 [[]|y]]; cbn [fst snd] in *.
  2: { intros [= <- <-]. split_and!; [|by rewrite (qu_report _ _ Q2)|exact (announced_quiet _ _ _ _ _ Q2 (fun _ => eq_refl) A1)|done].
       eapply carried_trans; [done|apply Q2]. }
  pose proof (reap_spec d e s2) as [Q3 D3]. pose proof (quiet_trans _ _ _ Q2 (proj1 (reap_spec d e s2))) as Q13.
  destruct (reap d e s2) as [s3 [[]|y]]; cbn [fst snd] in *.
  2: { intros [= <- <-]. split_and!; [|by rewrite (qu_report _ _ Q13)|exact (announced_quiet _ _ _ _ _ Q13 (fun _ => eq_refl) A1)|done].
       eapply carried_trans; [done|apply Q13]. }
  destruct (release_all_spec e s3) as [Q4 S4 D4]. pose proof (quiet_trans _ _ _ Q13 Q4) as Q14.
  destruct (release_all e s3) as [s4 x4]; cbn [fst snd] in *. intros [= <- <-].
  assert (carried (Cleaning r [] true) s3) as C3 by (eapply carried_trans; [done|apply Q13]).
  split_and!; [|by rewrite (qu_report _ _ Q14)|exact (announced_quiet _ _ _ _ _ Q14 (fun _ => eq_refl) A1)|].
  { eapply carried_trans; [done|apply Q4]. }
  intros Hx Hcl4. destruct (D4 Hx Hcl4) as [[Hcl _]%andb_true_iff [HR1 HR2 HR3 HR4 HR5]]. apply bool_decide_eq_true in Hcl.
  split.
  - rewrite S4. by apply D3.
  - intros Hch Hu. pose proof (ca_plan _ _ C1) as P1. pose proof (ca_channel _ _ C1) as P2. cbn [cl_root] in P1, P2.
    rewrite <- S1 in Hu. rewrite <- P1. rewrite <- P2 in Hch.
    apply D2; try done. by apply (carried_clean s2 s3); [apply Q3|].
  - split; try done. by rewrite (ca_channel _ _ C3) in HR5.
Qed.

Lemma announce_file e s s' x :
  announce ch ptext e s = (s', x) ->
  on_record (cl_root s') = on_record (cl_root s) \/ on_record (cl_root s') = VStr (deployment_value DRAINING).
Proof.
  unfold announce. destruct (public (cl_root s)) as [st|]; [|intros [= <- _]; by left].
  assert ((if bool_decide (st ∈ [PLANNED; STAGING; CLUSTER_STARTING; DEPLOYING; VALIDATING])
           then (with_root (put_flags (ro_draining (cl_root s)) true (cl_root s)) s, Ok tt)
           else (s, Ok tt)) = (s', x) -> on_record (cl_root s') = on_record (cl_root s)) as Hother.
  { case_bool_decide; by intros [= <- _]. }
  destruct st; try (intros H; left; by apply Hother).
  destruct (advance_root ch _ _ _ _ _) as [r' [u|y]] eqn:Ha; apply advance_root_file in Ha.
  - by intros [= <- _].
  - destruct (is_handled y); by intros [= <- _].
Qed.

Lemma clean_up_file d e s s' x :
  clean_up ch ordinary ptext d e s = (s', x) ->
  on_record (cl_root s') = on_record (cl_root s) \/ on_record (cl_root s') = VStr (deployment_value DRAINING).
Proof.
  unfold clean_up. destruct (announce _ _ _ _) as [s1 [u|y]] eqn:H1; apply announce_file in H1; [|by intros [= <- _]].
  assert (forall s2, quiet s1 s2 -> on_record (cl_root s2) = on_record (cl_root s1)) as Hq
    by (intros s2 Q; unfold on_record; by rewrite (qu_comp _ _ Q)).
  pose proof (proj1 (drain_ranks_spec e s1)) as Q2. destruct (drain_ranks _ _ _) as [s2 [u2|y]]; cbn [fst] in Q2;
    [|intros [= <- _]; by rewrite (Hq _ Q2)].
  pose proof (quiet_trans _ _ _ Q2 (proj1 (reap_spec d e s2))) as Q3. destruct (reap _ _ _) as [s3 [u3|y]]; cbn [fst] in Q3;
    [|intros [= <- _]; by rewrite (Hq _ Q3)].
  pose proof (quiet_trans _ _ _ Q3 (rs_quiet _ _ _ (release_all_spec e s3))) as Q4. intros H. rewrite H in Q4. cbn [fst] in Q4. by rewrite (Hq _ Q4).
Qed.

Lemma publish_terminal_file e s s' x :
  publish_terminal ch ptext e s = (s', x) ->
  on_record (cl_root s') = on_record (cl_root s) \/ on_record (cl_root s') = VStr (deployment_value (terminal_state s)).
Proof.
  unfold publish_terminal. destruct (advance_root ch _ _ _ _ _) as [r' [u|y]] eqn:Ha; apply advance_root_file in Ha.
  - by intros [= <- _].
  - destruct (is_handled y); by intros [= <- _].
Qed.

(** *** The reports and the terminal state *)

(** Reports change neither the public state, nor the flags, nor the supervisor. *)
Record reported s s' : Prop := Reported {
  re_carried : carried s s';
  re_comp : ro_comp (cl_root s') = ro_comp (cl_root s);
  re_supervisor : ro_supervisor (cl_root s') = ro_supervisor (cl_root s);
  re_draining : ro_draining (cl_root s') = ro_draining (cl_root s);
  re_channel : cl_channel s' = cl_channel s
}.

Lemma write_report_spec label w ret ex text s :
  reported s (write_report label w ret ex text s) /\
  match w with
  | ReportWritten => cl_errors (write_report label w ret ex text s) = cl_errors s
  | ReportRaised _ _ => cl_errors (write_report label w ret ex text s) <> []
  end /\
  ro_report (cl_root (write_report label w ret ex text s)) =
    match w with
    | ReportWritten | ReportRaised true _ => Some (shutdown_payload ret ex text s)
    | ReportRaised false _ => ro_report (cl_root s)
    end.
Proof.
  assert (reported s (with_root (put_report (shutdown_payload ret ex text s) (cl_root s)) s)) as H
    by (split; try done; by apply carried_with_root).
  unfold write_report. destruct w as [|visible t]; [done|]. split; [|split; [apply failed_dirty|by destruct visible]].
  destruct visible; (split; try done); [|apply failed_quiet].
  eapply carried_trans; [apply H|apply failed_quiet].
Qed.

Lemma reported_clean s s' : reported s s' -> is_clean s' = true -> is_clean s = true.
Proof.
  intros [Hc _ _ _ Hch] [H1 H2]%andb_true_iff. apply bool_decide_eq_true in H1. apply andb_true_iff.
  rewrite <- Hch. split; [|done]. apply bool_decide_eq_true. by eapply carried_clean.
Qed.

Lemma publish_terminal_spec e s s' x :
  publish_terminal ch ptext e s = (s', x) ->
  carried s s' /\ ro_supervisor (cl_root s') = ro_supervisor (cl_root s) /\ ro_report (cl_root s') = ro_report (cl_root s) /\
  cl_channel s' = cl_channel s /\
  ((x = Ok "published" /\ public (cl_root s') = Some (terminal_state s) /\ cl_errors s' = cl_errors s) \/
   (public (cl_root s') = public (cl_root s) /\ forall text, x = Ok text -> cl_errors s' <> [])).
Proof.
  unfold publish_terminal. destruct (advance_root ch _ _ _ _ _) as [r' [u|y]] eqn:Ha;
    apply advance_root_spec in Ha as ((c & -> & Hpl) & Hpub).
  - intros [= <- <-]. split_and!; [by apply carried_with_root|done|done|done|]. by left.
  - assert (carried s (with_root (put_comp c (cl_root s)) s)) as Hcr by by apply carried_with_root.
    destruct (is_handled y); intros [= <- <-].
    + split_and!; [|done|done|done|]. { eapply carried_trans; [done|apply failed_quiet]. }
      right. split; [done|]. intros _ _. apply failed_dirty.
    + split_and!; [done|done|done|done|]. by right.
Qed.

Definition requested s : bool :=
  bool_decide (is_Some (public (cl_root s))) && (ro_draining (cl_root s) || ro_cancelling (cl_root s)).

Lemma requested_announced o (ok : Prop) s :
  announced o ok s ->
  if requested s then clean_end o = Some (if ro_draining (cl_root s) then STOPPED else CANCELLED)
  else public (cl_root s) = o /\ (ok -> o <> Some READY \/ cl_errors s = [] -> clean_end o = o).
Proof.
  unfold requested. intros [(-> & -> & -> & ->)|[(st & -> & Hst & -> & -> & ->)|(-> & -> & -> & H)]].
  - done.
  - cbn. assert (bool_decide (st ∈ PRE_READY) = true) as Hb by by apply bool_decide_eq_true. by destruct st.
  - by rewrite andb_false_r.
Qed.

(** The end of the shutdown, with the state before the terminal transition. *)
Lemma conclude_spec e s s' x :
  conclude ch ptext e s = (s', x) ->
  exists s1 s2 publication,
    reported s s1 /\ carried s1 s2 /\ ro_supervisor (cl_root s2) = ro_supervisor (cl_root s1) /\
    cl_channel s2 = cl_channel s1 /\ ro_report (cl_root s2) = ro_report (cl_root s1) /\
    (ro_report (cl_root s1) = ro_report (cl_root s) \/
     ro_report (cl_root s1) = Some (shutdown_payload (se_returncode e) (se_exhausted e).1 
       (if requested s then "pending" else "not_required") s)) /\
    (if requested s then
       publish_terminal ch ptext e s1 = (s2, publication)
     else s2 = s1 /\ publication = Ok "not_required") /\
    match publication with
    | Err y => s' = s2 /\ x = Err y
    | Ok text =>
        x = Ok tt /\ reported s2 s' /\
        (ro_report (cl_root s') = ro_report (cl_root s2) \/
         ro_report (cl_root s') = Some (shutdown_payload (se_returncode e) (se_exhausted e).2 text s2))
    end.
Proof.
  unfold conclude. fold (requested s).
  set (s1 := write_report "shutdown report publication failed: " _ _ _ _ s).
  pose proof (write_report_spec "shutdown report publication failed: " (se_first_report e) (se_returncode e)
    (se_exhausted e).1 (if requested s then "pending" else "not_required") s) as (R1 & _ & W1). fold s1 in R1, W1.
  assert (exists s2 p, (if requested s then publish_terminal ch ptext e s1 else (s1, Ok "not_required")) = (s2, p)) as (s2 & p & Hp).
  { eexists _, _. apply surjective_pairing. }
  rewrite Hp. intros H. exists s1, s2, p.
  assert (carried s1 s2 /\ ro_supervisor (cl_root s2) = ro_supervisor (cl_root s1) /\ cl_channel s2 = cl_channel s1 /\
          ro_report (cl_root s2) = ro_report (cl_root s1)) as (C2 & S2 & Ch2 & Re2).
  { destruct (requested s); [by apply publish_terminal_spec in Hp as (? & ? & ? & ? & _)|].
    injection Hp as <- <-. split_and!; [apply quiet_same|done..]. }
  split_and!; try done.
  - destruct (se_first_report e) as [|[]]; auto.
  - destruct (requested s); [done|by injection Hp as <- <-].
  - destruct p as [text|y]; [|by injection H as <- <-]. injection H as <- <-. split; [done|].
    destruct (write_report_spec "final shutdown report publication failed: " (se_final_report e) (se_returncode e)
      (se_exhausted e).2 text s2) as (R3 & _ & W3). split; [done|]. destruct (se_final_report e) as [|[]]; auto.
Qed.

Definition ended (o : option DeploymentState) : Prop := o = Some STOPPED \/ o = Some CANCELLED.

Definition ended_on_record r : Prop :=
  on_record r = VStr (deployment_value STOPPED) \/ on_record r = VStr (deployment_value CANCELLED).

Lemma announced_not_ended o (ok : Prop) s : announced o ok s -> ~ ended o -> ~ ended (public (cl_root s)).
Proof.
  unfold ended. intros [(-> & -> & _)|[(st & -> & Hst & -> & _)|(-> & _)]]; [naive_solver| |done].
  intros _ [[= ->]|[= ->]]; revert Hst; by apply (bool_decide_unpack (~ _)).
Qed.

Lemma reported_public s s' : reported s s' -> public (cl_root s') = public (cl_root s).
Proof. intros H. unfold public. by rewrite (re_comp _ _ H). Qed.

Lemma terminal_state_clean s :
  ended (Some (terminal_state s)) ->
  is_clean s = true /\ terminal_state s = if ro_draining (cl_root s) then STOPPED else CANCELLED.
Proof. unfold terminal_state. destruct (is_clean s); [done|]. by intros [|]. Qed.

(** The state on record after the end of a shutdown. *)
Lemma conclude_file e s s' x :
  conclude ch ptext e s = (s', x) -> ro_supervisor (cl_root s') = ro_supervisor (cl_root s) /\
  (on_record (cl_root s') = on_record (cl_root s) \/
   exists s1, reported s s1 /\ on_record (cl_root s') = VStr (deployment_value (terminal_state s1))).
Proof.
  intros (s1 & s2 & p & R1 & _ & S2 & _ & _ & _ & Hp & Hend)%conclude_spec.
  assert (on_record (cl_root s') = on_record (cl_root s2) /\ ro_supervisor (cl_root s') = ro_supervisor (cl_root s2)) as [-> ->].
  { destruct p as [text|y]; [|by destruct Hend as [-> _]]. destruct Hend as (_ & R3 & _).
    unfold on_record. by rewrite (re_comp _ _ R3), (re_supervisor _ _ R3). }
  rewrite S2, (re_supervisor _ _ R1). split; [done|].
  assert (on_record (cl_root s1) = on_record (cl_root s)) as Hs1 by (unfold on_record; by rewrite (re_comp _ _ R1)).
  destruct (requested s); [|destruct Hp as [-> _]; by left].
  apply publish_terminal_file in Hp as [->|Hp]; [by left|]. right. by exists s1.
Qed.

Lemma shutdown_file drain_s e r s x :
  ro_draining r = false -> ro_cancelling r = false ->
  shutdown ch ordinary ptext drain_s e r = (s, x) -> ~ ended_on_record r -> ended_on_record (cl_root s) ->
  reaped e r (ro_supervisor (cl_root s)).
Proof.
  intros Hd Hc. unfold shutdown. destruct (ManagedComponent.bad_deadline drain_s); [by intros [= <- <-]|].
  destruct (clean_up _ _ _ _ _ _) as [s0 x0] eqn:H0. pose proof (clean_up_file _ _ _ _ _ H0) as F0.
  apply clean_up_spec in H0 as (_ & _ & _ & Hreaped); [|done..]. intros Hs Hnot He.
  assert (~ ended_on_record (cl_root s0)) as Hn0.
  { unfold ended_on_record in *. cbn [cl_root] in F0. destruct F0 as [-> | ->]; [done|]. by intros [|]. }
  destruct x0 as [[]|y]; [|by injection Hs as <- <-].
  apply conclude_file in Hs as [-> [F|(s1 & R1 & F)]]; unfold ended_on_record in *; rewrite F in He; [done|].
  assert (ended (Some (terminal_state s1))) as [Hcl _]%terminal_state_clean
    by (unfold ended; destruct He as [He|He], (terminal_state s1); try discriminate He; auto).
  apply Hreaped; [done|]. by eapply reported_clean.
Qed.

(** C9: STOPPED and CANCELLED are only published by a shutdown that left nothing behind: every
    component of the supervisor is stopped; if START had been broadcast and the recorded cause
    has not taken the sessions away, every planned rank has acknowledged the drain and said
    goodbye; the listeners are closed, the threads and the channel have ended. This holds of
    the publisher's state, where moreover a deployment that was READY ends STOPPED and one that
    was not yet ends CANCELLED, and of the state that the status file names, also when the
    write of the terminal state raised after the rename. *)
Theorem terminal_means_reaped drain_s e r s x :
  ro_draining r = false -> ro_cancelling r = false -> ~ ended (public r) -> ~ ended_on_record r ->
  shutdown ch ordinary ptext drain_s e r = (s, x) ->
  (ended (public (cl_root s)) ->
   x = Ok tt /\ public (cl_root s) = clean_end (public r) /\ reaped e r (ro_supervisor (cl_root s))) /\
  (ended_on_record (cl_root s) -> reaped e r (ro_supervisor (cl_root s))).
Proof.
  intros Hd Hc Hnot Hfile Hsh. split; [|intros He; by eapply shutdown_file]. revert Hsh.
  unfold shutdown. destruct (ManagedComponent.bad_deadline drain_s); [by intros [= <- <-]|].
  destruct (clean_up _ _ _ _ _ _) as [s0 x0] eqn:H0.
  apply clean_up_spec in H0 as (_ & _ & A0 & Hreaped); [|done..].
  pose proof (announced_not_ended _ _ _ A0 Hnot) as Hn0.
  destruct x0 as [[]|y]; [|by intros [= <- <-]].
  intros (s1 & s2 & p & R1 & _ & S2 & _ & _ & _ & Hp & Hend)%conclude_spec Hpub.
  assert (public (cl_root s) = public (cl_root s2) /\ ro_supervisor (cl_root s) = ro_supervisor (cl_root s0) /\ (forall t, p = Ok t -> x = Ok tt)) as (Hps & Hss & Hx).
  { rewrite <- (re_supervisor _ _ R1), <- S2. destruct p as [text|y]; [|by destruct Hend as [-> ->]].
    destruct Hend as (-> & R3 & _). by rewrite (reported_public _ _ R3), (re_supervisor _ _ R3). }
  rewrite Hps in *. rewrite Hss. pose proof (requested_announced _ _ _ A0) as Hreq. destruct (requested s0).
  2: { destruct Hp as [-> ->]. by rewrite (reported_public _ _ R1) in Hpub. }
  apply publish_terminal_spec in Hp as (_ & _ & _ & _ & [(-> & Hts & _)|[Hts _]]);
    [|by rewrite Hts, (reported_public _ _ R1) in Hpub].
  rewrite Hts in Hpub |- *. apply terminal_state_clean in Hpub as [Hcl ->]. rewrite (re_draining _ _ R1).
  split; [by eapply Hx|]. split; [done|]. apply Hreaped; [done|]. by eapply reported_clean.
Qed.

Lemma payload_clean ret ex text s :
  ShutdownReport.clean (shutdown_payload ret ex text s) = true ->
  is_clean s = true /\ (text = "published" \/ text = "not_required") /\
  ShutdownReport.errors (shutdown_payload ret ex text s) = [].
Proof.
  cbn. intros [H1 H2]%andb_true_iff. apply bool_decide_eq_true in H2. rewrite !elem_of_cons, elem_of_nil in H2.
  split; [done|]. split; [naive_solver|]. apply andb_true_iff in H1 as [H1 _]. by apply bool_decide_eq_true in H1.
Qed.

Lemma payload_components ret ex text s k st code :
  all_stopped (ro_supervisor (cl_root s)) ->
  (k, (st, code)) ∈ ShutdownReport.components (shutdown_payload ret ex text s) -> st = ComponentState.STOPPED.
Proof.
  intros Hall ([k' m] & Heq & Hm)%list_elem_of_fmap. rewrite sorted_items_perm in Hm. injection Heq as -> -> _. by eapply Hall.
Qed.

(** C15: A report that says clean tells the truth: it lists no error, every component in it is
    stopped, the cleanup left nothing behind, and the public state is the one it names, the
    terminal state of an orderly end. *)
Theorem clean_report_truthful drain_s e r s x rep :
  ro_draining r = false -> ro_cancelling r = false -> ro_report r = None ->
  shutdown ch ordinary ptext drain_s e r = (s, x) ->
  ro_report (cl_root s) = Some rep -> ShutdownReport.clean rep = true ->
  ShutdownReport.errors rep = [] /\
  ShutdownReport.observed_terminal_state rep = clean_end (public r) /\ public (cl_root s) = clean_end (public r) /\
  (forall k st code, (k, (st, code)) ∈ ShutdownReport.components rep -> st = ComponentState.STOPPED) /\
  reaped e r (ro_supervisor (cl_root s)).
Proof.
  intros Hd Hc Hr. unfold shutdown. destruct (ManagedComponent.bad_deadline drain_s); [intros [= <- <-]; cbn; congruence|]. destruct (clean_up _ _ _ _ _ _) as [s0 x0] eqn:H0.
  apply clean_up_spec in H0 as (_ & Hr0 & A0 & Hreaped); [|done..]. rewrite Hr in Hr0.
  destruct x0 as [[]|y]; [|intros [= <- <-]; congruence]. specialize (Hreaped eq_refl).
  intros (s1 & s2 & p & R1 & _ & S2 & _ & Re2 & Re1 & Hp & Hend)%conclude_spec Hrep Hclean.
  pose proof (requested_announced _ _ _ A0) as Hreq.
  assert (forall s3, is_clean s3 = true -> cl_errors s3 = []) as Herr.
  { intros s3 [H _]%andb_true_iff. by apply bool_decide_eq_true in H. }
  assert (ro_report (cl_root s) = ro_report (cl_root s2) \/ exists text, p = Ok text /\ reported s2 s /\
    ro_report (cl_root s) = Some (shutdown_payload (se_returncode e) (se_exhausted e).2 text s2)) as Hcase.
  { destruct p as [text|y]; [|by left; destruct Hend as [-> _]]. destruct Hend as (_ & ? & [?|?]); eauto 6. }
  assert (ro_supervisor (cl_root s) = ro_supervisor (cl_root s0) /\ public (cl_root s) = public (cl_root s2)) as [Hss Hps].
  { rewrite <- (re_supervisor _ _ R1), <- S2. destruct p as [text|y]; [|by destruct Hend as [-> _]].
    destruct Hend as (_ & R3 & _). by rewrite (reported_public _ _ R3), (re_supervisor _ _ R3). }
  rewrite Hss, Hps. destruct Hcase as [Hrs|(text & -> & R3 & Hrs)]; rewrite Hrs in Hrep.
  - rewrite Re2 in Hrep. destruct Re1 as [Re1|Re1]; rewrite Re1 in Hrep; [congruence|]. injection Hrep as <-.
    apply payload_clean in Hclean as (Hcl & Ht & He). destruct (requested s0); [by destruct Ht|].
    destruct Hp as [-> _], Hreq as [Hpub Hce]. rewrite Hce by auto. rewrite (reported_public _ _ R1).
    specialize (Hreaped Hcl). split_and!; try done. intros k st code. apply payload_components, Hreaped.
  - injection Hrep as <-. apply payload_clean in Hclean as (Hcl & Ht & He).
    assert (is_clean s1 = true /\ public (cl_root s2) = clean_end (public r)) as [Hcl1 Hpub].
    { destruct (requested s0).
      - apply publish_terminal_spec in Hp as (_ & _ & _ & Hch & [(_ & -> & Herrs)|[_ Hbad]]).
        + unfold is_clean in *. rewrite Herrs, Hch in Hcl. split; [done|]. rewrite Hreq. unfold terminal_state, is_clean.
          rewrite Hcl. by rewrite (re_draining _ _ R1).
        + by destruct (Hbad text eq_refl); apply Herr.
      - destruct Hp as [-> _], Hreq as [Hpub Hce]. split; [done|]. rewrite (reported_public _ _ R1), Hpub. symmetry. apply Hce; [done|].
        right. apply Herr. by eapply reported_clean. }
    specialize (Hreaped (reported_clean _ _ R1 Hcl1)). split_and!; try done.
    intros k st code. apply payload_components. rewrite S2, (re_supervisor _ _ R1). apply Hreaped.
Qed.

(** ** The exit status *)

Lemma conclude_carried e s s' x : conclude ch ptext e s = (s', x) -> carried s s'.
Proof.
  intros (s1 & s2 & p & R1 & C2 & _ & _ & _ & _ & _ & Hend)%conclude_spec.
  eapply carried_trans; [apply R1|]. destruct p as [t|y]; [|by destruct Hend as [-> _]].
  destruct Hend as (_ & R3 & _). eapply carried_trans; [done|apply R3].
Qed.

Lemma shutdown_carried drain_s e r s x :
  ro_draining r = false -> ro_cancelling r = false ->
  shutdown ch ordinary ptext drain_s e r = (s, x) -> carried (Cleaning r [] true) s.
Proof.
  intros Hd Hc. unfold shutdown. destruct (ManagedComponent.bad_deadline drain_s); [intros [= <- <-]; apply quiet_same|]. destruct (clean_up _ _ _ _ _ _) as [s0 x0] eqn:H0.
  apply clean_up_spec in H0 as (C0 & _); [|done..]. destruct x0 as [u|y]; [|by intros [= <- <-]].
  intros C1%conclude_carried. by eapply carried_trans.
Qed.

Lemma exit_code_zero r : exit_code r = 0 -> ro_cause r = None /\ RuntimeSupervisor.first_cause (ro_supervisor r) = None.
Proof.
  unfold exit_code. destruct (ro_cause r).
  - destruct (operator_shutdown_requested _); [done|]. case_bool_decide as Hin; [done|]. intros H. rewrite H in Hin. by destruct Hin; left.
  - intros H. split; [done|]. destruct (RuntimeSupervisor.first_cause _) eqn:E; [|done]. by apply exit_code_nonzero in E.
Qed.

Lemma exit_code_caused r :
  is_Some (ro_cause r) -> exit_code r <> 0 /\ (exit_code r = 143 <-> operator_shutdown_requested (ro_supervisor r) = true).
Proof.
  intros Hc. split; [by intros [H _]%exit_code_zero; rewrite H in Hc; destruct Hc|]. destruct Hc as [t Ht]. unfold exit_code. rewrite Ht.
  destruct (operator_shutdown_requested _); [done|]. split; [|done]. case_bool_decide as Hin; [done|].
  intros H. rewrite H in Hin. destruct Hin. by right; left.
Qed.

Lemma fail_status_config (fe : advance_env) operator reason (c : composition B) :
  co_config (fail_status ch fe operator reason c).1 = co_config c.
Proof.
  unfold fail_status, advance_status. destruct (co_status c) as [p|] eqn:Hp; [|done]. destruct (_ || _); [done|].
  destruct (advance _ _ _ _ _ _ _ _ _) as [[p' d'] [x|x]]; done.
Qed.

Lemma fail_root_frame (fe : advance_env) reason r r' x :
  fail_root ch ptext fe reason r = (r', x) ->
  is_Some (ro_cause r') /\ ro_supervisor r' = ro_supervisor r /\ ro_channel r' = ro_channel r /\
  ro_draining r' = ro_draining r /\ ro_cancelling r' = ro_cancelling r /\ cleanup_budget r' = cleanup_budget r.
Proof.
  unfold fail_root, cleanup_budget, co_plan. set (r1 := match ro_cause r with None => _ | Some _ => r end).
  pose proof (fail_status_config fe (operator_shutdown_requested (ro_supervisor r)) reason (ro_comp r1)) as Hcf.
  destruct (fail_status _ _ _ _ _) as [c [u|y]]; intros [= <- <-]; cbn in *; rewrite Hcf; subst r1;
    by destruct (ro_cause r) eqn:E; cbn; rewrite ?E.
Qed.

(** A shutdown without an error reached the end of its deployment. *)
Lemma shutdown_errorless drain_s e r s :
  ro_draining r = false -> ro_cancelling r = false -> shutdown ch ordinary ptext drain_s e r = (s, Ok tt) -> cl_errors s = [] ->
  public (cl_root s) = clean_end (public r) /\ reaped e r (ro_supervisor (cl_root s)).
Proof.
  intros Hd Hc. unfold shutdown. destruct (ManagedComponent.bad_deadline drain_s); [done|]. destruct (clean_up _ _ _ _ _ _) as [s0 x0] eqn:H0.
  apply clean_up_spec in H0 as (C0 & _ & A0 & Hreaped); [|done..]. destruct x0 as [[]|y]; [|done]. specialize (Hreaped eq_refl).
  intros Hcon He. pose proof (conclude_carried _ _ _ _ Hcon) as C.
  assert (is_clean s0 = true) as Hcl.
  { pose proof (carried_clean _ _ C He) as He0. apply andb_true_iff. split; [by apply bool_decide_eq_true|].
    by rewrite (ca_sound _ _ C0 He0). }
  apply conclude_spec in Hcon as (s1 & s2 & p & R1 & C2 & S2 & _ & _ & _ & Hp & Hend).
  destruct p as [t|y]; [|by destruct Hend]. destruct Hend as (_ & R3 & _).
  rewrite (reported_public _ _ R3), (re_supervisor _ _ R3), S2, (re_supervisor _ _ R1). split; [|by apply Hreaped].
  pose proof (requested_announced _ _ _ A0) as Hreq. pose proof (carried_clean _ _ (re_carried _ _ R3) He) as He2.
  destruct (requested s0).
  - apply publish_terminal_spec in Hp as (_ & _ & _ & Hch & [(_ & -> & _)|[_ Hbad]]); [|by destruct (Hbad t)].
    rewrite Hreq. unfold terminal_state, is_clean. rewrite (carried_clean _ _ C2 He2), (re_draining _ _ R1), (re_channel _ _ R1).
    apply andb_true_iff in Hcl as [_ ->]. done.
  - destruct Hp as [-> _], Hreq as [Hpub Hce]. rewrite (reported_public _ _ R1), Hpub, Hce; try done.
    right. by apply (carried_clean _ _ C).
Qed.

(** The steps of [finish]: the cause, the shutdown from there, the status at its end. *)
Lemma finish_steps (fe : advance_env) e cause r r' code :
  ro_draining r = false -> ro_cancelling r = false ->
  finish ch ordinary ptext fe e cause r = (r', Ok code) ->
  exists r1 s, r1 = (match cause with Some reason => (fail_root ch ptext fe reason r).1 | None => r end) /\
    ro_supervisor r1 = ro_supervisor r /\ ro_draining r1 = false /\ ro_cancelling r1 = false /\
    (is_Some cause \/ is_Some (ro_cause r) -> is_Some (ro_cause r1)) /\
    shutdown ch ordinary ptext (cleanup_budget r1) e r1 = (s, Ok tt) /\ r' = cl_root s /\ code = exit_code r' /\
    carried (Cleaning r1 [] true) s.
Proof.
  intros Hd Hc. unfold finish. destruct (match cause with Some _ => _ | None => _ end) as [r1 failed] eqn:Hf.
  assert (ro_supervisor r1 = ro_supervisor r /\ ro_draining r1 = false /\ ro_cancelling r1 = false /\
          (is_Some cause \/ is_Some (ro_cause r) -> is_Some (ro_cause r1)) /\
          r1 = (match cause with Some reason => (fail_root ch ptext fe reason r).1 | None => r end)) as (F1 & F2 & F3 & F4 & F5).
  { destruct cause as [t|]; [|injection Hf as <- <-; split_and!; try done; by intros [[]|]].
    pose proof Hf as Hf'. apply fail_root_frame in Hf' as (? & ? & ? & ? & ? & _). rewrite Hf. split_and!; congruence || done. }
  destruct (shutdown _ _ _ _ _) as [s x] eqn:Hs. destruct x as [[]|y], failed as [u|z]; try done. intros [= <- <-].
  exists r1, s. split_and!; try done. by eapply shutdown_carried.
Qed.

(** With a cause, the status is never 0, and 143 means that the operator asked. *)
Lemma finish_caused (fe : advance_env) e cause r r' code :
  ro_draining r = false -> ro_cancelling r = false ->
  finish ch ordinary ptext fe e cause r = (r', Ok code) -> is_Some cause \/ is_Some (ro_cause r) ->
  code <> 0 /\ (code = 143 <-> operator_shutdown_requested (ro_supervisor r) = true).
Proof.
  intros Hd Hc (r1 & s & _ & F1 & _ & _ & F4 & _ & -> & -> & C)%finish_steps Hcause; [|done..].
  apply F4, (ca_cause _ _ C), exit_code_caused in Hcause. rewrite (ca_operator _ _ C) in Hcause. cbn [cl_root] in Hcause.
  by rewrite F1 in Hcause.
Qed.


(** A deployment that has FAILED stays so. *)
Lemma shutdown_failed drain_s e r s x :
  ro_draining r = false -> ro_cancelling r = false -> public r = Some FAILED ->
  shutdown ch ordinary ptext drain_s e r = (s, x) -> public (cl_root s) = Some FAILED.
Proof.
  intros Hd Hc Hp. unfold shutdown. destruct (ManagedComponent.bad_deadline drain_s); [by intros [= <- <-]|].
  destruct (clean_up _ _ _ _ _ _) as [s0 x0] eqn:H0. apply clean_up_spec in H0 as (_ & _ & A0 & _); [|done..].
  rewrite Hp in A0. assert (public (cl_root s0) = Some FAILED /\ requested s0 = false) as [Hp0 Hr0].
  { destruct A0 as [([=] & _)|[(st & [= <-] & Hst & _)|(-> & Hd0 & Hc0 & _)]].
    - exfalso. revert Hst. by apply (bool_decide_unpack (~ _)).
    - unfold requested. by rewrite Hd0, Hc0, andb_false_r. }
  destruct x0 as [u|y]; [|by intros [= <- <-]]. intros (s1 & s2 & p & R1 & _ & _ & _ & _ & _ & Hpt & Hend)%conclude_spec.
  rewrite Hr0 in Hpt. destruct Hpt as [-> ->], Hend as (_ & R3 & _). by rewrite (reported_public _ _ R3), (reported_public _ _ R1).
Qed.

(** ** A drain that cannot be announced *)

Lemma clean_up_quiet d e s s1 s' :
  announce ch ptext e s = (s1, Ok tt) -> clean_up ch ordinary ptext d e s = (s', Ok tt) -> quiet s1 s'.
Proof.
  intros H1. unfold clean_up. rewrite H1. pose proof (proj1 (drain_ranks_spec e s1)) as Q2.
  destruct (drain_ranks _ _ _) as [s2 [[]|y]]; [|done]. pose proof (proj1 (reap_spec d e s2)) as Q3.
  destruct (reap _ _ _) as [s3 [[]|y]]; [|done]. intros Hr. pose proof (rs_quiet _ _ _ (release_all_spec e s3)) as Q4.
  rewrite Hr in Q4. eapply quiet_trans; [done|]. by eapply quiet_trans.
Qed.

(** When DRAINING cannot be published, no later state is either: the shutdown returns with
    READY as the last state on record, and its report says that no terminal publication was
    required. *)
Theorem failed_drain_leaves_ready drain_s e r r1 err s :
  ro_draining r = false -> ro_cancelling r = false -> public r = Some READY -> ro_report r = None ->
  advance_root ch (se_drain e) DRAINING "SHUTDOWN_REQUESTED" "" r = (r1, Err err) -> is_handled err = true ->
  shutdown ch ordinary ptext drain_s e r = (s, Ok tt) ->
  public (cl_root s) = Some READY /\
  forall rep, ro_report (cl_root s) = Some rep ->
    ShutdownReport.terminal_publication rep = "not_required" /\ ShutdownReport.clean rep = false.
Proof.
  intros Hd Hc Hp Hr Ha Herr. unfold shutdown. destruct (ManagedComponent.bad_deadline drain_s); [done|]. destruct (clean_up _ _ _ _ _ _) as [s0 x0] eqn:H0. destruct x0 as [[]|y]; [|done].
  destruct (advance_root_spec _ _ _ _ _ _ _ Ha) as [(c & -> & _) Hpub].
  apply (clean_up_quiet _ _ _ (cleanup_failed ("shutdown status publication failed: " +:+ ptext err)
    (with_root (put_comp c r) (Cleaning r [] true)))) in H0 as Q.
  2: { unfold announce. cbn [cl_root]. by rewrite Hp, Ha, Herr. }
  assert (public (cl_root s0) = Some READY) as Hp0 by (unfold public in *; by rewrite (qu_comp _ _ Q), <- Hp).
  assert (requested s0 = false) as Hreq.
  { unfold requested. rewrite (qu_draining _ _ Q), (qu_cancelling _ _ Q). cbn. rewrite Hd, Hc. apply andb_false_r. }
  assert (forall s3, carried s0 s3 -> is_clean s3 = false) as Hdirty.
  { intros s3 C3. unfold is_clean. case_bool_decide as He; [|done]. apply (carried_clean _ _ C3) in He.
    by apply (carried_clean _ _ (qu_carried _ _ Q)), failed_dirty in He. }
  intros (s1 & s2 & p & R1 & _ & _ & _ & Re2 & Re1 & Hpt & Hend)%conclude_spec. rewrite Hreq in *.
  destruct Hpt as [-> ->], Hend as (_ & R3 & Hrep). rewrite (reported_public _ _ R3), (reported_public _ _ R1).
  split; [done|]. intros rep Hs. rewrite Hs in Hrep. destruct Hrep as [Hrep|[= ->]].
  - rewrite <- Hrep in Re1. destruct Re1 as [Re1|[= ->]]; [by rewrite (qu_report _ _ Q) in Re1; cbn in Re1; congruence|].
    split; [done|]. cbn. rewrite Hdirty; [done|apply quiet_same].
  - split; [done|]. cbn. rewrite Hdirty; [done|apply R1].
Qed.

(** ** Every run ends *)

(** The exception of a release step, if there is one, is of a class that its handler names. *)
Definition step_named {A} (names : step_error -> bool) (x : result step_error A) : Prop :=
  forall y, x = Err y -> names y = true.

(** What a shutdown may rely on: the status record can be written; the exceptions of the
    callbacks and of the release steps are of the classes that the handlers name, those of the
    callbacks with a text; DRAIN is broadcast and the goodbyes are awaited without an
    exception; the budget and the deadline are finite. *)
Record good_shutdown (drain_s : float) e : Prop := GoodShutdown {
  gs_drain : quiet_env (se_drain e);
  gs_terminal : quiet_env (se_terminal e);
  gs_gateway : forall x, ManagedComponent.on_stopped (se_gateway e) = Some x -> is_ordinary ordinary x = true;
  gs_deployment : forall x, ManagedComponent.on_stopped (se_deployment e) = Some x -> is_ordinary ordinary x = true;
  gs_acknowledged : exists n, se_acknowledged e = Ok n;
  gs_goodbyes : exists n, se_goodbyes e = Ok n;
  gs_budget : ManagedComponent.bad_deadline drain_s = false;
  gs_deadline : Float.is_finite (Float.add (se_now e) drain_s) = true;
  gs_world : forall k, stop_speaks (se_world e k);
  gs_port : forall x, se_port_lease e = Some x -> step_named names_os_runtime x;
  gs_listener : forall x, se_listener e = Some x -> step_named names_os x;
  gs_observer : forall x, se_observer e = Some x -> step_named names_os_runtime x;
  gs_ingress : forall x, se_ingress e = Some x -> step_named names_os x;
  gs_channel : step_named names_os_runtime (se_channel e)
}.

(** The components are registered, and the composition, which the cleanup leaves alone, is in
    some condition. *)
Definition root_is (Q : composition B -> Prop) r : Prop := registry_ok (ro_supervisor r) /\ Q (ro_comp r).

(** The status record is owned and in state [st]. *)
Definition status_of (C : clock -> Prop) st (c : composition B) : Prop :=
  exists p rec, co_status c = Some p /\ pub_state p = st /\ owned ch (co_config c) C p (co_dir c) rec /\
    identity_ok (co_config c).
Definition status_is C st r : Prop := root_is (status_of C st) r.

Lemma stop_ordinary d w m x :
  (forall y, ManagedComponent.on_stopped w = Some y -> is_ordinary ordinary y = true) ->
  (ManagedComponent.stop d w m).2 = Err x -> is_ordinary ordinary x = true.
Proof.
  intros Hw. unfold ManagedComponent.stop. repeat case_match; cbn [snd]; try done; intros [= <-]; done || by apply Hw.
Qed.

Lemma quiet_status Q s s' :
  quiet s s' -> registry_ok (ro_supervisor (cl_root s')) -> root_is Q (cl_root s) -> root_is Q (cl_root s').
Proof. intros Hq Hr [_ H]. split; [done|]. by rewrite (qu_comp _ _ Hq). Qed.

Lemma stop_global_goes Q key d w s :
  (forall y, ManagedComponent.on_stopped w = Some y -> is_ordinary ordinary y = true) ->
  root_is Q (cl_root s) ->
  exists s', stop_global_component ordinary key d w s = (s', Ok tt) /\ root_is Q (cl_root s').
Proof.
  intros Hw Hs. pose proof (stop_global_quiet key d w s) as Hq. revert Hq. unfold stop_global_component.
  destruct (key ≫= _) as [[k m]|] eqn:Hk; [|by exists s]. apply bind_Some in Hk as (k' & -> & Hk).
  apply fmap_Some in Hk as (m0 & Hm & [= -> ->]).
  pose proof (stop_ordinary (Some d) w m0) as Ho. pose proof (stop_id (Some d) w m0) as Hid.
  destruct (ManagedComponent.stop _ _ _) as [m' x]; cbn [fst snd] in *.
  destruct (put_ok _ _ _ m' (proj1 Hs) Hm Hid) as [Hreg _].
  destruct x as [u|x]; cbn [fst]; [|rewrite (Ho x) by done; cbn [fst]]; intros Hq; eexists; (split; [done|]);
    by eapply quiet_status.
Qed.

Lemma drain_ranks_goes Q drain_s e s :
  good_shutdown drain_s e -> root_is Q (cl_root s) ->
  exists s', drain_ranks ordinary e s = (s', Ok tt) /\ root_is Q (cl_root s').
Proof.
  intros Hg Hs. rewrite drain_ranks_unfold. destruct (ro_channel (cl_root s)) as [[]|]; [|by exists s..].
  assert (exists s1, ordered_stop e s = (s1, Ok tt) /\ root_is Q (cl_root s1)) as (s1 & -> & H1).
  { unfold ordered_stop. destruct (rank_sessions_may_be_unavailable _); [by exists s|].
    destruct (stop_global_goes Q (ro_gateway (cl_root s)) (se_gateway_deadline e) _ s (gs_gateway _ e Hg) Hs) as (s1 & -> & H1).
    by apply stop_global_goes; [apply Hg|]. }
  destruct (gs_acknowledged _ e Hg) as [n ->], (gs_goodbyes _ e Hg) as [g ->].
  eexists. split; [done|]. by destruct (_ && _).
Qed.

Lemma reap_goes Q drain_s e s :
  good_shutdown drain_s e -> root_is Q (cl_root s) ->
  exists s', reap (Float.add (se_now e) drain_s) e s = (s', Ok tt) /\ root_is Q (cl_root s').
Proof.
  intros Hg Hs. unfold reap, RuntimeSupervisor.shutdown. rewrite (gs_deadline _ e Hg). cbn [negb].
  destruct (stop_each_spec "CLEANUP_ERROR" exc_text (Some (Float.add (se_now e) drain_s)) (se_world e)
    (rev (dkeys (RuntimeSupervisor.components (ro_supervisor (cl_root s))))) true (ro_supervisor (cl_root s)) (proj1 Hs))
    as (sup & clean & Hst & HA & _); [done|apply NoDup_rev_list, (proj1 Hs)|..].
  { intros k m x _ _. by apply stop_Err_speaks, Hg. }
  { intros k Hk. by apply elem_of_rev. }
  rewrite Hst. pose proof Hs as [_ H].
  eexists. split; [done|]. split; [|by destruct (clean && _)]. destruct (clean && _); apply HA.
Qed.

Lemma then_step_goes (f : cleaning B -> cleaning B * sup_result unit) x :
  x.2 = Ok tt -> (forall s, (f s).2 = Ok tt) -> (then_step f x).2 = Ok tt.
Proof. destruct x as [s [u|y]]; cbn; [auto|done]. Qed.

Lemma step_failed_goes names label y s : names y = true -> (step_failed names label y s).2 = Ok tt.
Proof. unfold step_failed. by intros ->. Qed.

Lemma release_all_goes Q drain_s e s :
  good_shutdown drain_s e -> root_is Q (cl_root s) ->
  exists s', release_all e s = (s', Ok tt) /\ root_is Q (cl_root s').
Proof.
  intros Hg Hs. destruct (release_all_spec e s) as [Hq S _].
  assert ((release_all e s).2 = Ok tt) as H.
  { destruct Hg. unfold release_all. repeat (apply then_step_goes; [|intros s1]).
    - unfold release. destruct (se_port_lease e) as [[|y]|]; [done|by eapply step_failed_goes, gs_port0|done].
    - unfold release. destruct (se_listener e) as [[|y]|]; [done|by eapply step_failed_goes, gs_listener0|done].
    - unfold stop_thread. destruct (se_observer e) as [[[]|y]|]; [done..|by eapply step_failed_goes, gs_observer0|done].
    - unfold stop_thread. destruct (se_ingress e) as [[[]|y]|]; [done..|by eapply step_failed_goes, gs_ingress0|done].
    - unfold stop_channel. destruct (ro_channel _); [|done]. destruct (se_channel e) as [[]|y]; [done..|].
      unfold step_failed. by rewrite (gs_channel0 y). }
  destruct (release_all e s) as [s' x]; cbn [fst snd] in *. subst x. exists s'. split; [done|].
  eapply quiet_status; [done| |done]. rewrite S. apply Hs.
Qed.

(** A legal move of the root's status. *)
Lemma advance_root_goes C st (ae : advance_env) new reason detail r :
  status_is C st r -> new <> READY -> new ∈ DEPLOYMENT_TRANSITIONS st -> quiet_env ae -> nonempty reason = true ->
  exists r', advance_root ch ae new reason detail r = (r', Ok tt) /\ status_is C new r'.
Proof.
  intros [Hreg (p & rec & Hp & <- & Ho & Hid)] Hne Hnew He Hreason. unfold advance_root, advance_status. rewrite Hp.
  destruct (advance_goes ch (co_config (ro_comp r)) C ae new reason detail p (co_dir (ro_comp r)) rec Ho Hne Hnew He Hreason)
    as (p' & d' & rec' & -> & Hst & Ho').
  eexists. split; [done|]. split; [done|]. by exists p', rec'.
Qed.

(** The state during the cleanup of a deployment in state [st]. *)
Definition cleaning_state (st : DeploymentState) : DeploymentState :=
  if bool_decide (st = READY) then DRAINING else st.

Lemma announce_goes C st drain_s e s :
  good_shutdown drain_s e -> status_is C st (cl_root s) ->
  exists s', announce ch ptext e s = (s', Ok tt) /\ status_is C (cleaning_state st) (cl_root s').
Proof.
  intros Hg Hs. assert (public (cl_root s) = Some st) as Hp.
  { destruct Hs as [_ (p & rec & Hp & Hst & _)]. unfold public. rewrite Hp. cbn. by rewrite Hst. }
  unfold announce. rewrite Hp. destruct (decide (st = READY)) as [->|Hne].
  - destruct (advance_root_goes C READY (se_drain e) DRAINING "SHUTDOWN_REQUESTED" "" (cl_root s)) as (r' & -> & Hr');
      [done|done|by apply (bool_decide_unpack _)|apply Hg|done|]. eexists. split; [done|]. done.
  - assert (cleaning_state st = st) as -> by (unfold cleaning_state; by case_bool_decide).
    destruct st; try done; eexists; (split; [reflexivity|]); exact Hs.
Qed.

Lemma status_public C st r : status_is C st r -> public r = Some st.
Proof. intros [_ (p & rec & Hp & Hst & _)]. unfold public. rewrite Hp. cbn. by rewrite Hst. Qed.

Lemma write_report_goes C st label w ret ex text s :
  status_is C st (cl_root s) -> status_is C st (cl_root (write_report label w ret ex text s)).
Proof.
  intros [Hreg H]. destruct (write_report_spec label w ret ex text s) as [R _].
  split; [by rewrite (re_supervisor _ _ R)|by rewrite (re_comp _ _ R)].
Qed.

Lemma cleanup_goes C st drain_s e r :
  good_shutdown drain_s e -> status_is C st r ->
  exists s, clean_up ch ordinary ptext (Float.add (se_now e) drain_s) e (Cleaning r [] true) = (s, Ok tt) /\ status_is C (cleaning_state st) (cl_root s).
Proof.
  intros Hg Hs. unfold clean_up.
  destruct (announce_goes C st drain_s e (Cleaning r [] true) Hg Hs) as (s1 & -> & H1).
  destruct (drain_ranks_goes _ drain_s e s1 Hg H1) as (s2 & -> & H2). destruct (reap_goes _ drain_s e s2 Hg H2) as (s3 & -> & H3).
  by eapply release_all_goes.
Qed.

(** Both terminal transitions of a shutdown are legal. *)
Lemma terminal_legal o (ok : Prop) st s :
  o = Some st -> announced o ok s -> requested s = true -> forall b : bool,
  (if b then (if ro_draining (cl_root s) then STOPPED else CANCELLED) else FAILED) ∈ DEPLOYMENT_TRANSITIONS (cleaning_state st).
Proof.
  intros -> [([= ->] & _ & -> & _)|[(st' & [= ->] & Hst & _ & -> & _)|(_ & Hd & Hc & _)]] Hreq b.
  - destruct b; by apply (bool_decide_unpack _).
  - unfold PRE_READY in Hst. rewrite !elem_of_cons, elem_of_nil in Hst.
    destruct Hst as [->|[->|[->|[->|[->|[]]]]]]; destruct b; by apply (bool_decide_unpack _).
  - unfold requested in Hreq. by rewrite Hd, Hc, andb_false_r in Hreq.
Qed.

Lemma shutdown_goes C st drain_s e r :
  good_shutdown drain_s e -> ro_draining r = false -> ro_cancelling r = false -> status_is C st r ->
  exists s st', shutdown ch ordinary ptext drain_s e r = (s, Ok tt) /\ status_is C st' (cl_root s) /\
    ((st' = FAILED /\ cl_errors s <> []) \/ clean_end (Some st) = Some st').
Proof.
  intros Hg Hd Hc Hs. unfold shutdown. rewrite (gs_budget _ _ Hg). destruct (cleanup_goes C st drain_s e r Hg Hs) as (s0 & H0 & S0). rewrite H0.
  apply clean_up_spec in H0 as (C0 & _ & A0 & _); [|done..]. rewrite (status_public _ _ _ Hs) in A0.
  pose proof (requested_announced _ _ _ A0) as Hreq. unfold conclude. fold (requested s0).
  set (s1 := write_report "shutdown report publication failed: " _ _ _ _ s0).
  pose proof (proj1 (write_report_spec "shutdown report publication failed: " (se_first_report e) (se_returncode e)
    (se_exhausted e).1 (if requested s0 then "pending" else "not_required") s0)) as R1. fold s1 in R1.
  assert (status_is C (cleaning_state st) (cl_root s1)) as S1 by by apply write_report_goes.
  destruct (requested s0) eqn:Hr0.
  - pose proof (terminal_legal _ _ st _ eq_refl A0 Hr0 (is_clean s1)) as Hlegal.
    rewrite <- (re_draining _ _ R1) in Hlegal, Hreq. fold (terminal_state s1) in Hlegal.
    unfold publish_terminal.
    destruct (advance_root_goes C _ (se_terminal e) (terminal_state s1) (terminal_reason s1) (terminal_detail s1) (cl_root s1) S1)
      as (r' & -> & S2); [|done|apply Hg|unfold terminal_reason; by repeat case_match|].
    { unfold terminal_state. by repeat case_match. }
    pose proof (proj1 (write_report_spec "final shutdown report publication failed: " (se_final_report e) (se_returncode e)
      (se_exhausted e).2 "published" (with_root r' s1))) as R3.
    eexists _, _. split; [reflexivity|]. split; [by apply write_report_goes|].
    unfold terminal_state. destruct (is_clean s1) eqn:Hcl; [by right|]. left. split; [done|]. intros He.
    pose proof (carried_clean _ _ (re_carried _ _ R3) He) as He1. cbn in He1.
    pose proof (ca_sound _ _ (carried_trans _ _ _ C0 (re_carried _ _ R1)) He1) as Hch.
    unfold is_clean in Hcl. by rewrite He1, Hch in Hcl.
  - eexists _, _. split; [reflexivity|]. split; [by apply write_report_goes|]. destruct Hreq as [Hpub Hce].
    rewrite (status_public _ _ _ S0) in Hpub. right.
    rewrite <- Hpub. unfold cleaning_state in *. case_bool_decide; [by simplify_eq|]. apply Hce; [done|]. left. congruence.
Qed.

(** The publisher is in state [st] with a record on file that is ahead of it. *)
Definition behind_of (C : clock -> Prop) st (c : composition B) : Prop :=
  exists p rec, co_status c = Some p /\ pub_state p = st /\ behind ch (co_config c) C p (co_dir c) rec /\
    identity_ok (co_config c).

Lemma announce_behind C drain_s e s :
  good_shutdown drain_s e -> root_is (behind_of C READY) (cl_root s) ->
  exists s', announce ch ptext e s = (s', Ok tt) /\ root_is (behind_of C READY) (cl_root s') /\ cl_errors s' <> [] /\
    ro_draining (cl_root s') = ro_draining (cl_root s) /\ ro_cancelling (cl_root s') = ro_cancelling (cl_root s).
Proof.
  intros Hg [Hreg (p & rec & Hp & Hst & Hb & Hid)]. unfold announce, public, advance_root, advance_status. rewrite Hp. cbn. rewrite Hst.
  destruct (advance_refused ch _ C (se_drain e) DRAINING "SHUTDOWN_REQUESTED" "" p _ rec Hb) as (p' & d' & m & -> & Hst' & Hb');
    [done|apply Hg|]. cbn [status_result mbind result_bind]. cbn [is_handled].
  eexists. split; [reflexivity|]. split; [|split; [apply failed_dirty|done]]. split; [done|].
  exists p', rec. by rewrite Hst', Hst.
Qed.

(** Its shutdown returns, with errors, and the reader still finds the record on file. *)
Lemma shutdown_behind C drain_s e r :
  good_shutdown drain_s e -> ro_draining r = false -> ro_cancelling r = false -> root_is (behind_of C READY) r ->
  exists s view, shutdown ch ordinary ptext drain_s e r = (s, Ok tt) /\ cl_errors s <> [] /\
    read_deployment_status ch (co_dir (ro_comp (cl_root s))) = Ok (Some view).
Proof.
  intros Hg Hd Hc Hr. unfold shutdown, clean_up. rewrite (gs_budget _ _ Hg).
  destruct (announce_behind C drain_s e (Cleaning r [] true) Hg Hr) as (s1 & H1 & R1 & E1 & D1 & C1). rewrite H1.
  assert (exists s3, clean_up ch ordinary ptext (Float.add (se_now e) drain_s) e (Cleaning r [] true) = (s3, Ok tt) /\
    root_is (behind_of C READY) (cl_root s3)) as (s3 & H3 & R3).
  { unfold clean_up. rewrite H1. destruct (drain_ranks_goes _ drain_s e s1 Hg R1) as (s2 & -> & R2).
    destruct (reap_goes _ drain_s e s2 Hg R2) as (s3 & -> & R3). by eapply release_all_goes. }
  pose proof (clean_up_quiet _ _ _ _ _ H1 H3) as Q. unfold clean_up in H3. rewrite H1 in H3. rewrite H3.
  assert (requested s3 = false) as Hreq.
  { unfold requested. rewrite (qu_draining _ _ Q), (qu_cancelling _ _ Q), D1, C1. cbn. rewrite Hd, Hc. apply andb_false_r. }
  destruct (conclude ch ptext e s3) as [s x] eqn:Hcon. pose proof (conclude_carried _ _ _ _ Hcon) as Cs.
  apply conclude_spec in Hcon as (s4 & s5 & y & R4 & _ & _ & _ & _ & _ & Hp & Hend). rewrite Hreq in Hp.
  destruct Hp as [-> ->], Hend as (-> & R5 & _). destruct R3 as [_ (p & rec & Hp & _ & [Ho _] & Hid)].
  destruct (owned_readable _ _ _ _ _ _ Hid Ho) as (view & Hview & _).
  exists s, view. split; [done|]. split.
  - intros He. by apply (carried_clean _ _ Cs), (carried_clean _ _ (qu_carried _ _ Q)) in He.
  - by rewrite (re_comp _ _ R5), (re_comp _ _ R4).
Qed.

(** The state after the cause has been recorded. *)
Definition caused_state (cause : option string) (operator : bool) (st : DeploymentState) : DeploymentState :=
  match cause with Some _ => if operator then st else FAILED | None => st end.

Lemma fail_root_goes C st (fe : advance_env) reason r :
  quiet_env fe -> status_is C st r -> st ∈ ACTIVE ->
  exists r', fail_root ch ptext fe reason r = (r', Ok tt) /\
    status_is C (caused_state (Some reason) (operator_shutdown_requested (ro_supervisor r)) st) r'.
Proof.
  intros He Hs Hact. unfold fail_root. set (r1 := match ro_cause r with None => _ | Some _ => r end).
  assert (status_is C st r1) as H1 by (subst r1; by destruct (ro_cause r)).
  assert (ro_supervisor r = ro_supervisor r1) as -> by (subst r1; by destruct (ro_cause r)).
  pose proof H1 as [_ (p & rec & Hp & Hst & Ho)]. unfold fail_status. rewrite Hp, Hst.
  assert (bool_decide (st ∈ [FAILED; CANCELLED; STOPPED]) = false /\ FAILED ∈ DEPLOYMENT_TRANSITIONS st) as [-> Hlegal].
  { unfold ACTIVE in Hact. rewrite !elem_of_cons, elem_of_nil in Hact.
    destruct Hact as [->|[->|[->|[->|[->|[->|[->|[]]]]]]]]; (split; [done|by apply (bool_decide_unpack _)]). }
  rewrite orb_false_r. destruct (operator_shutdown_requested _); [by eexists|].
  destruct (advance_root_goes C st fe FAILED "FIRST_CAUSE" (String.substring 0 400 reason) r1 H1) as (r' & Hr & Hs'); try done.
  unfold advance_root in Hr. destruct (advance_status _ _ _ _ _ _ _) as [c [u|y]]; [|done].
  injection Hr as Hr. exists r'. by rewrite <- Hr in *.
Qed.

(** C8: Every run ends, in the state that its end deserves. With a good shutdown ([good_shutdown]:
    the status record can be written; callbacks and release steps raise only what their
    handlers name, stop callbacks with a message; the drain protocol does not raise; budget and
    deadline are finite), [finish] returns from every state up to READY, and the reader finds
    the last state published: FAILED when a cause was recorded that the operator did not ask
    for; otherwise STOPPED for a deployment that was READY and CANCELLED for one that was not
    yet, or FAILED with the errors of the cleanup on record. *)
Theorem every_run_ends C (fe : advance_env) e cause r p rec :
  identity_ok (co_config (ro_comp r)) -> registry_ok (ro_supervisor r) -> good_shutdown (cleanup_budget r) e -> quiet_env fe ->
  ro_draining r = false -> ro_cancelling r = false ->
  co_status (ro_comp r) = Some p -> pub_state p ∈ READY :: PRE_READY ->
  owned ch (co_config (ro_comp r)) C p (co_dir (ro_comp r)) rec ->
  exists s view, finish ch ordinary ptext fe e cause r = (cl_root s, Ok (exit_code (cl_root s))) /\
    read_deployment_status ch (co_dir (ro_comp (cl_root s))) = Ok (Some view) /\
    let fault := match cause with Some _ => negb (operator_shutdown_requested (ro_supervisor r)) | None => false end in
    if fault then DeploymentStatus.state view = FAILED
    else (DeploymentStatus.state view = FAILED /\ cl_errors s <> []) \/
         DeploymentStatus.state view = if bool_decide (pub_state p = READY) then STOPPED else CANCELLED.
Proof.
  intros Hid Hreg Hg Hfe Hd Hc Hp Hst Ho.
  assert (status_is C (pub_state p) r) as Hs by (split; [done|by exists p, rec]).
  assert (pub_state p ∈ ACTIVE /\ forall st, clean_end (Some (pub_state p)) = Some st ->
    st = if bool_decide (pub_state p = READY) then STOPPED else CANCELLED) as [Hact Hend].
  { unfold PRE_READY in Hst. rewrite !elem_of_cons, elem_of_nil in Hst.
    destruct Hst as [->|[->|[->|[->|[->|[->|[]]]]]]]; (split; [by apply (bool_decide_unpack _)|by intros st [= <-]]). }
  set (st1 := caused_state cause (operator_shutdown_requested (ro_supervisor r)) (pub_state p)).
  assert (exists r1, match cause with Some reason => fail_root ch ptext fe reason r | None => (r, Ok tt) end = (r1, Ok tt) /\
    status_is C st1 r1 /\ ro_draining r1 = false /\ ro_cancelling r1 = false /\ cleanup_budget r1 = cleanup_budget r)
    as (r1 & Hr1 & Hs1 & Hd1 & Hc1 & Hb).
  { destruct cause as [reason|]; [|by exists r]. destruct (fail_root_goes C _ fe reason r Hfe Hs Hact) as (r1 & Hr1 & Hs1).
    exists r1. pose proof (fail_root_frame _ _ _ _ _ Hr1) as (_ & _ & _ & ? & ? & ?). split_and!; congruence || done. }
  rewrite <- Hb in Hg. destruct (shutdown_goes C st1 (cleanup_budget r1) e r1 Hg Hd1 Hc1 Hs1) as (s & st' & Hsh & [_ (p' & rec' & Hp' & <- & Ho' & Hid')] & Hlast).
  destruct (owned_readable _ _ _ _ _ _ Hid' Ho') as (view & Hview & Hvs & _).
  exists s, view. unfold finish. rewrite Hr1, Hsh. split; [done|]. split; [done|]. rewrite Hvs. subst st1.
  destruct cause as [reason|]; cbn [caused_state] in Hlast; [destruct (operator_shutdown_requested _); cbn [negb]|];
    destruct Hlast as [[-> He]|Hlast]; auto; by injection Hlast.
Qed.
End Shutdown.
