(* ===== verification/ShutdownDemo.v ===== *)
(** A concrete end: a READY deployment of one node is asked to stop, once with a record that
    can be written and once with a lock that is held. *)

From S2P Require Import Prelude PyValue Atomic Envelopes Contracts Session Receipts ReceiptCodec Bindings BindingsProps Ledger LedgerProps Readiness ReadinessProps Supervisor SupervisorProps Status StatusProps Manifest StatusApi StatusApiProps StatusApiDemo PublishProps Composition Shutdown ShutdownProps.

#[local] Instance end_store_class : BindingStore Store.t :=
  component_binding_store demo_event_hash demo_batch_hash demo_digest_ok.

Definition end_composition : composition Store.t :=
  Composition api_config "/run" None demo_empty None (Some api_run.1) api_run.2 None (Float.of_Z 0).

(** The operator has sent SIGTERM. *)
Definition end_supervisor : RuntimeSupervisor.t := (RuntimeSupervisor.request_shutdown "SIGTERM" demo_started_all).1.

Definition end_root (sup : RuntimeSupervisor.t) : root Store.t :=
  Root end_composition sup (Some "gateway") (Some "ray") (Some true) None false false None.

Definition end_env (drain : advance_env) : shutdown_env :=
  let deadline := Float.of_Z 200 in
  ShutdownEnv drain deadline demo_stop deadline demo_stop (Ok 1) (Ok 1) (Float.of_Z 50) (fun _ => demo_stop) (Some (Ok tt)) (Some (Ok tt))
    (Some (Ok true)) (Some (Ok true)) (Ok true) (fun _ => Some 0) (false, false) ReportWritten (api_env 40) ReportWritten.

Definition end_all (_ : string) : bool := true.
Definition end_text (_ : composition_error) : string := "status".

Definition end_budget : float := Float.of_Z 300.
Abbreviation end_run e r := (shutdown api_hash end_all end_text end_budget e r).
Abbreviation end_stop := (end_env (api_env 30)).
Abbreviation asked := (end_root end_supervisor).

Definition is_stopped (x : cleaning Store.t * sup_result unit) : bool :=
  bool_decide (public (cl_root x.1) = Some STOPPED) &&
  match ro_report (cl_root x.1) with Some rep => ShutdownReport.clean rep | None => false end.

Example end_stops : is_stopped (end_run end_stop asked) = true.
Proof. vm_compute. reflexivity. Qed.

Lemma asked_ready : public asked = Some READY.
Proof. vm_compute. reflexivity. Qed.

Lemma terminal_means_reaped_witness :
  exists s, end_run end_stop asked = (s, Ok tt) /\ public (cl_root s) = Some STOPPED /\
    all_stopped (ro_supervisor (cl_root s)).
Proof.
  pose proof end_stops as H. destruct (end_run end_stop asked) as [s x] eqn:Hs. unfold is_stopped in H. cbn [fst] in H.
  apply andb_prop in H as [H _]. apply bool_decide_eq_true in H.
  destruct (terminal_means_reaped api_hash end_all end_text end_budget end_stop asked s x eq_refl eq_refl) as [Hr _].
  { rewrite asked_ready. intros [E|E]; discriminate E. }
  { assert (on_record asked = VStr (deployment_value READY)) as Ho by (vm_compute; reflexivity).
    unfold ended_on_record. rewrite Ho. intros [E|E]; discriminate E. }
  { exact Hs. }
  destruct (Hr (or_introl H)) as (-> & _ & Hre).
  exists s. split; [reflexivity|]. split; [exact H|]. apply Hre.
Defined.

Lemma clean_report_truthful_witness :
  exists s rep, end_run end_stop asked = (s, Ok tt) /\ ro_report (cl_root s) = Some rep /\
    ShutdownReport.clean rep = true /\ ShutdownReport.observed_terminal_state rep = Some STOPPED.
Proof.
  pose proof end_stops as H. destruct (end_run end_stop asked) as [s x] eqn:Hs. unfold is_stopped in H. cbn [fst] in H.
  apply andb_prop in H as [_ H]. destruct (ro_report (cl_root s)) as [rep|] eqn:Hrep; [|discriminate H].
  destruct (clean_report_truthful api_hash end_all end_text end_budget end_stop asked s x rep eq_refl eq_refl eq_refl Hs Hrep H)
    as (_ & Ho & _). rewrite asked_ready in Ho.
  assert (x = Ok tt) as ->.
  { assert (match (end_run end_stop asked).2 with Ok _ => true | Err _ => false end = true) as E by (vm_compute; reflexivity).
    rewrite Hs in E. cbn [snd] in E. destruct x as [[]|]; [reflexivity|discriminate E]. }
  exists s, rep. split; [reflexivity|]. split; [exact Hrep|]. split; [exact H|exact Ho].
Defined.

Definition ends_with (code : Z) (x : root Store.t * sup_result Z) : bool :=
  match x with (_, Ok c) => c =? code | _ => false end.

Lemma ends_with_Ok code x : ends_with code x = true -> exists r', x = (r', Ok code).
Proof. destruct x as [r' [c|]]; [|discriminate]. intros H. exists r'. f_equal. f_equal. by apply Z.eqb_eq. Qed.


(** ** A held lock *)

Definition held_env : shutdown_env := 
  end_env (AdvanceEnv (api_clock 30) Written (StoreIO LeaseBusy Written Released) (Float.of_Z 1030) (api_clock 30)).

Definition drain_refused (x : root Store.t * result composition_error unit) : bool :=
  match x with (_, Err y) => is_handled y | _ => false end.
Definition returns (x : cleaning Store.t * sup_result unit) : bool := match x with (_, Ok _) => true | _ => false end.

Lemma failed_drain_leaves_ready_witness :
  exists s, end_run held_env asked = (s, Ok tt) /\ public (cl_root s) = Some READY.
Proof.
  assert (drain_refused (advance_root api_hash (se_drain held_env) DRAINING "SHUTDOWN_REQUESTED" "" asked) = true) as Hd
    by (vm_compute; reflexivity).
  assert (returns (end_run held_env asked) = true) as Hr by (vm_compute; reflexivity).
  destruct (advance_root api_hash (se_drain held_env) DRAINING "SHUTDOWN_REQUESTED" "" asked) as [r1 [u|err]] eqn:Ha;
    [discriminate Hd|].
  destruct (end_run held_env asked) as [s [[]|]] eqn:Hs; [|discriminate Hr].
  destruct (failed_drain_leaves_ready api_hash end_all end_text end_budget held_env asked r1 err s eq_refl eq_refl asked_ready eq_refl Ha Hd Hs)
    as [H _].
  exists s. split; [reflexivity|exact H].
Defined.

(** ** Every run ends *)

Lemma end_quiet_env n : In n [20; 30; 40] -> quiet_env (api_env n).
Proof.
  intros Hn.
  assert (forall n, In n [20; 30; 40] -> Float.is_finite (Float.of_Z (1000 + n)) && Float.leb Float.zero (Float.of_Z (1000 + n)) &&
    is_ok (clock_sample (api_clock n)) = true) as H.
  { apply forallb_forall. vm_compute. reflexivity. }
  specialize (H n Hn). rewrite !andb_true_iff in H. destruct H as ((F1 & F2) & F3).
  constructor; [split; assumption|reflexivity|exact F1|].
  destruct (clock_sample (api_clock n)) as [x|] eqn:E; [|discriminate F3]. exists x. exact E.
Qed.

Lemma end_good : good_shutdown end_all (cleanup_budget (end_root demo_started_all)) end_stop.
Proof.
  constructor; [apply end_quiet_env; simpl; tauto|apply end_quiet_env; simpl; tauto|discriminate|discriminate|
    by exists 1|by exists 1|vm_compute; reflexivity|vm_compute; reflexivity|..].
  { intros k x Hx. discriminate Hx. }
  1-4: intros x Hx y ->; discriminate Hx.
  intros y Hy. discriminate Hy.
Qed.

Lemma end_owned : exists rec, owned api_hash api_config (last_lease api_hash api_config (new_publisher, api_dir) api_ready) api_run.1 api_run.2 rec.
Proof.
  pose proof (run_owned api_hash api_config api_ready new_publisher api_dir api_fresh api_ready_ok) as H.
  assert (pub_state api_run.1 = READY) as Hst by (vm_compute; reflexivity).
  destruct api_run as [p d]. destruct H as [(-> & _)|[H|(r & _ & o & Ho & Ha)]]; [discriminate Hst|exact H|].
  exfalso. pose proof api_ready_clear as Hc. rewrite Forall_forall in Hc. exact (Hc o Ho _ Ha).
Qed.

Lemma every_run_ends_witness :
  exists r' code view,
    finish api_hash end_all end_text (api_env 20) end_stop (Some "UNEXPECTED_EXIT") (end_root demo_started_all) = (r', Ok code) /\
    read_deployment_status api_hash (co_dir (ro_comp r')) = Ok (Some view) /\ DeploymentStatus.state view = FAILED.
Proof.
  destruct end_owned as [rec Ho].
  destruct (every_run_ends api_hash end_all end_text (last_lease api_hash api_config (new_publisher, api_dir) api_ready) (api_env 20) end_stop (Some "UNEXPECTED_EXIT")
    (end_root demo_started_all) api_run.1 rec api_identity demo_started_all_ok end_good) as (s & view & Hf & Hv & Hst).
  - apply end_quiet_env. simpl. tauto.
  - reflexivity.
  - reflexivity.
  - reflexivity.
  - apply (bool_decide_unpack _). vm_compute. exact I.
  - exact Ho.
  - eexists _, _, view. split; [exact Hf|]. split; [exact Hv|]. exact Hst.
Defined.

(** ** Exceptions that are not handled *)

(** The lease of the status record is taken over between its acquisition and the entry of the
    [with] statement. *)
Definition lost_lease : advance_env :=
  AdvanceEnv (api_clock 20) Written (StoreIO LeaseLost Written Released) (Float.of_Z 1020) (api_clock 20).

Definition escapes {A} (kind : string) (x : sup_result A) : bool :=
  match x with Err (OtherError k _) => bool_decide (k = kind) | _ => false end.

(** [fail] handles the publication errors only: this one escapes, and the exception of the
    lease, not the cause, ends the run once the shutdown is over. *)
Example lease_error_escapes_fail :
  let x := finish api_hash end_all end_text lost_lease end_stop (Some "UNEXPECTED_EXIT") (end_root demo_started_all) in
  escapes "LeaseHeldError" (fail_root api_hash end_text lost_lease "UNEXPECTED_EXIT" (end_root demo_started_all)).2 &&
  escapes "LeaseHeldError" x.2 && bool_decide (public x.1 = Some STOPPED) = true.
Proof. vm_compute. reflexivity. Qed.

(** A [RuntimeError] of the deployment ingress is not named by its handler: the shutdown ends
    there, without the channel, the report and the terminal state. *)
Definition ingress_raises : shutdown_env :=
  let deadline := Float.of_Z 200 in
  ShutdownEnv (api_env 30) deadline demo_stop deadline demo_stop (Ok 1) (Ok 1) (Float.of_Z 50) (fun _ => demo_stop) (Some (Ok tt)) (Some (Ok tt))
    (Some (Ok true)) (Some (Err (StepRuntimeError "cannot join current thread"))) (Ok true) (fun _ => Some 0) (false, false)
    ReportWritten (api_env 40) ReportWritten.

Example ingress_error_ends_shutdown :
  let x := end_run ingress_raises asked in
  escapes "RuntimeError" x.2 && bool_decide (public (cl_root x.1) = Some DRAINING) &&
  match ro_report (cl_root x.1) with None => true | Some _ => false end = true.
Proof. vm_compute. reflexivity. Qed.
