(* ===== verification/Supervision.v ===== *)
(** The supervised life of a deployment: the loop of the supervisor with the launcher's
    predicate, the end of the run, and the bounded capture of a child's output
    (control/supervisor.py, launcher.py).

    A turn of the loop is a record of what it meets: the signals that arrive before its check
    and before the predicate, the poll of the components, the sessions and the ledger as the
    control channel has left them, the failure that it reports, and the turn of the readiness
    monitor. *)

From S2P Require Import Prelude PyValue Atomic Envelopes Contracts Session Receipts ReceiptCodec Bindings Ledger Readiness Supervisor Status Manifest StatusApi Composition Shutdown.

(** ** Output capture *)

Module BoundedOutputCapture.
Record t := mk {
  max_bytes : Z;
  tail : list Ascii.ascii;
  total_bytes : Z;
  started : bool;
  error : option string;
}.

Definition init (max_bytes : value) : sup_result t :=
  match max_bytes with
  | VInt n => if n <? 1 then Err (SupValueError "capture max_bytes must be a positive integer") else Ok (mk n [] 0 false None)
  | _ => Err (SupValueError "capture max_bytes must be a positive integer")
  end.

(** [start]: one drain thread per capture. *)
Definition start (c : t) : t * sup_result unit :=
  if started c then (c, Err (OtherError "RuntimeError" "output capture has already been started"))
  else (mk (max_bytes c) (tail c) (total_bytes c) true (error c), Ok tt).

(** One chunk in the drain thread: [del self._tail[:overflow]]. *)
Definition feed (chunk : list Ascii.ascii) (c : t) : t :=
  let extended := tail c ++ chunk in
  let overflow := Z.of_nat (length extended) - max_bytes c in
  mk (max_bytes c) (if 0 <? overflow then drop (Z.to_nat overflow) extended else extended)
    (total_bytes c + Z.of_nat (length chunk)) (started c) (error c).

(** [_drain]: the chunks that the pipe gives, then its end or an exception. *)
Definition drain (chunks : list (list Ascii.ascii)) (failure : option string) (c : t) : t :=
  let c' := fold_left (fun c chunk => feed chunk c) chunks c in
  match failure with
  | Some x => mk (max_bytes c') (tail c') (total_bytes c') (started c') (Some x)
  | None => c'
  end.

Record view := View {
  vw_tail : list Ascii.ascii;
  vw_retained : Z;
  vw_total : Z;
  vw_dropped : Z;
  vw_truncated : bool;
  vw_error : option string;
}.

Definition snapshot (c : t) : view :=
  let retained := Z.of_nat (length (tail c)) in
  View (tail c) retained (total_bytes c) (Z.max 0 (total_bytes c - retained)) (retained <? total_bytes c) (error c).
End BoundedOutputCapture.

(** ** The loop *)

Inductive watch_error := SupervisorFailed (x : sup_error) | RootFailed (x : composition_error).

Record watch_turn (B : Type) := WatchTurn {
  wt_signals : list Z;
  wt_poll : RuntimeSupervisor.poll_env;
  wt_late_signals : list Z;
  wt_sessions : option SessionCoordinator.t;
  wt_ledger : Ledger.t B;
  wt_channel : option string;
  wt_monitor : monitor_env;
  wt_now : float;
}.
Arguments WatchTurn {B}.
Arguments wt_signals {B}.
Arguments wt_poll {B}.
Arguments wt_late_signals {B}.
Arguments wt_sessions {B}.
Arguments wt_ledger {B}.
Arguments wt_channel {B}.
Arguments wt_monitor {B}.
Arguments wt_now {B}.

Section Supervision.
Context {B : Type} `{!BindingStore B} (canonical_hash : dict -> string) (show_blocker : blocker -> string).
Context (show_seconds : float -> string) (ordinary : string -> bool) (publication_text : composition_error -> string).
Context (show_cause : FirstCause.t -> string) (show_failure : watch_error -> string).
Implicit Type r : root B.

(** The handler of SIGTERM and SIGINT; its texts are not empty, so that it does not raise. *)
Definition on_signal (signum : Z) (s : RuntimeSupervisor.t) : RuntimeSupervisor.t :=
  (RuntimeSupervisor.request_shutdown ("signal " +:+ str_Z signum) s).1.

Definition on_signals (signums : list Z) r : root B :=
  put_supervisor (fold_left (fun s n => on_signal n s) signums (ro_supervisor r)) r.

(** [self.supervisor.record_cause(...)] *)
Definition record_root (c : FirstCause.t) r : root B * result watch_error bool :=
  let '(s, x) := RuntimeSupervisor.record_cause (FirstCause.component_id c) (FirstCause.reason_code c)
                   (FirstCause.detail c) (FirstCause.exit_code c) (ro_supervisor r) in
  (put_supervisor s r, match x with Ok _ => Ok true | Err y => Err (SupervisorFailed y) end).

(** The evidence that the ranks have sent meanwhile. *)
Definition hear_ranks (t : watch_turn B) r : root B :=
  let c := ro_comp r in
  put_comp (Composition (co_config c) (co_run_dir c) (co_readiness c) (wt_ledger t) (wt_sessions t) (co_status c)
              (co_dir c) (co_loss c) (co_last c)) r.

(** [_deployment_done_or_failed] *)
Definition deployment_done_or_failed (t : watch_turn B) r0 : root B * result watch_error bool :=
  let r := hear_ranks t r0 in
  match wt_channel t with
  | Some (String.String _ _ as failure) =>
      record_root (FirstCause.mk "control" "CONTROL_FAILURE" failure None) r
  | _ =>
      match monitor_readiness canonical_hash show_blocker show_seconds (wt_monitor t) (ro_comp r) with
      | (c, Err x) => (put_comp c r, Err (RootFailed x))
      | (c, Ok None) => (put_comp c r, Ok false)
      | (c, Ok (Some cause)) => record_root cause (put_comp c r)
      end
  end.

(** The loop of [supervise] over the turns that the world grants, with a predicate and the
    deadline with its text; [None]: the loop still runs. *)
Fixpoint supervise_turns (until : watch_turn B -> root B -> root B * result watch_error bool)
    (deadline : option (float * string)) (turns : list (watch_turn B)) r
    : root B * option (result watch_error (option FirstCause.t)) :=
  match turns with
  | [] => (r, None)
  | t :: turns' =>
      let r0 := on_signals (wt_signals t) r in
      if RuntimeSupervisor.shutdown_requested (ro_supervisor r0)
      then (r0, Some (Ok (RuntimeSupervisor.first_cause (ro_supervisor r0))))
      else
        match RuntimeSupervisor.poll_once (wt_poll t) (ro_supervisor r0) with
        | (s, Err x) => (put_supervisor s r0, Some (Err (SupervisorFailed x)))
        | (s, Ok (Some cause)) => (put_supervisor s r0, Some (Ok (Some cause)))
        | (s, Ok None) =>
            match until t (on_signals (wt_late_signals t) (put_supervisor s r0)) with
            | (r1, Err x) => (r1, Some (Err x))
            | (r1, Ok true) => (r1, Some (Ok None))
            | (r1, Ok false) =>
                match deadline with
                | Some (d, text) =>
                    if Float.ltb d (wt_now t) then
                      match record_root (FirstCause.mk "supervisor" "DEADLINE" text None) r1 with
                      | (r2, Err x) => (r2, Some (Err x))
                      | (r2, Ok _) => (r2, Some (Ok (RuntimeSupervisor.first_cause (ro_supervisor r2))))
                      end
                    else supervise_turns until deadline turns' r1
                | None => supervise_turns until deadline turns' r1
                end
            end
        end
  end.

(** [supervise], called at time [now]. *)
Definition supervise (until : watch_turn B -> root B -> root B * result watch_error bool) (timeout_s : option float)
    (now : float) (turns : list (watch_turn B)) r : root B * option (result watch_error (option FirstCause.t)) :=
  match timeout_s with
  | None => supervise_turns until None turns r
  | Some s =>
      if negb (Float.is_finite s) || Float.leb s Float.zero
      then (r, Some (Err (SupervisorFailed (SupValueError "supervision timeout must be finite and positive"))))
      else supervise_turns until (Some (Float.add now s, "exceeded " +:+ show_seconds s +:+ "s")) turns r
  end.

(** The launcher supervises without a timeout. *)
Definition supervise_deployment (turns : list (watch_turn B)) r
    : root B * option (result watch_error (option FirstCause.t)) :=
  supervise deployment_done_or_failed None Float.zero turns r.

(** The cause that the launcher passes to [fail]: [cause or root.supervisor.first_cause], or the
    text of the exception. *)
Definition launcher_cause (x : result watch_error (option FirstCause.t)) r : option string :=
  match x with
  | Ok (Some c) => Some (show_cause c)
  | Ok None => show_cause <$> RuntimeSupervisor.first_cause (ro_supervisor r)
  | Err y => Some (show_failure y)
  end.

(** The launcher's run from the end of the launch on. *)
Definition watch_and_finish (turns : list (watch_turn B)) (fe : advance_env) (e : shutdown_env) r
    : option (root B * sup_result Z) :=
  match supervise_deployment turns r with
  | (_, None) => None
  | (r1, Some x) => Some (finish canonical_hash ordinary publication_text fe e (launcher_cause x r1) r1)
  end.
End Supervision.
