(* ===== verification/SupervisionProps.v ===== *)
(** The supervised run (Supervision.v): the loop never ends without a cause, a failure that
    could be published never ends as a stop, and what happens when it could not. *)

From S2P Require Import Prelude PyValue Atomic Envelopes Contracts Session Receipts ReceiptCodec Bindings Ledger Readiness Supervisor SupervisorProps Status StatusProps Manifest StatusApi StatusApiProps StatusApiDemo PublishProps Composition VerdictProps PayloadProps CompositionProps MonitorProps Shutdown ShutdownProps ShutdownDemo Supervision.

(** ** Output capture *)

Section Capture.
Import BoundedOutputCapture.

(** The tail is the end of what the child has written. *)
Definition captures (c : BoundedOutputCapture.t) (written : list Ascii.ascii) : Prop :=
  1 <= max_bytes c /\ total_bytes c = Z.of_nat (length written) /\
  tail c = drop (length written - Z.to_nat (max_bytes c)) written.

Lemma feed_captures chunk c written : captures c written -> captures (feed chunk c) (written ++ chunk).
Proof.
  intros (Hm & Ht & Htail). unfold captures, feed. cbn [max_bytes total_bytes tail]. split; [done|].
  rewrite length_app. split; [lia|]. rewrite Htail, length_app, length_drop.
  destruct (0 <? _) eqn:E; [apply Z.ltb_lt in E|apply Z.ltb_ge in E].
  - destruct (decide (Z.to_nat (max_bytes c) <= length written)%nat) as [Hle|Hgt].
    + rewrite !drop_app, drop_drop, length_drop. f_equal; f_equal; lia.
    + replace (length written - Z.to_nat (max_bytes c))%nat with 0%nat by lia. rewrite drop_0. f_equal. lia.
  - destruct (decide (Z.to_nat (max_bytes c) <= length written)%nat) as [Hle|Hgt].
    + assert (chunk = []) as -> by (apply length_zero_iff_nil; lia). rewrite !app_nil_r. f_equal. cbn. lia.
    + replace (length written - Z.to_nat (max_bytes c))%nat with 0%nat by lia. rewrite drop_0.
      replace (_ - _)%nat with 0%nat by lia. by rewrite drop_0.
Qed.

Lemma drain_captures chunks failure c written :
  captures c written -> captures (drain chunks failure c) (written ++ concat chunks).
Proof.
  intros Hc. unfold drain.
  assert (captures (fold_left (fun c chunk => feed chunk c) chunks c) (written ++ concat chunks)) as H.
  { revert c written Hc. induction chunks as [|x chunks IH]; intros c written Hc; cbn [fold_left concat]; [by rewrite app_nil_r|].
    rewrite app_assoc. by apply IH, feed_captures. }
  by destruct failure.
Qed.

(** A capture keeps at most its bound, and its view accounts for every byte: however the output
    is cut into chunks and however the pipe ends, the tail is the end of the output, and what
    was dropped is what came before it. *)
Theorem capture_keeps_the_end n c0 chunks failure :
  init (VInt n) = Ok c0 ->
  let out := concat chunks in
  let v := snapshot (drain chunks failure c0) in
  Z.of_nat (length (vw_tail v)) <= n /\ (exists lost, out = lost ++ vw_tail v /\ vw_dropped v = Z.of_nat (length lost)) /\
  vw_total v = Z.of_nat (length out) /\ (vw_truncated v = true <-> n < Z.of_nat (length out)).
Proof.
  intros Hi. unfold init in Hi. destruct (n <? 1) eqn:Hn; [done|]. apply Z.ltb_ge in Hn. injection Hi as <-.
  pose proof (drain_captures chunks failure (mk n [] 0 false None) [] (conj Hn (conj eq_refl eq_refl))) as (_ & Ht & Htail).
  assert (max_bytes (drain chunks failure (mk n [] 0 false None)) = n) as Hm.
  { unfold drain. assert (forall l c, max_bytes (fold_left (fun c chunk => feed chunk c) l c) = max_bytes c) as H.
    { intros l. induction l as [|x l IH]; intros c; [done|]. cbn [fold_left]. by rewrite IH. }
    destruct failure; cbn [max_bytes]; by rewrite H. }
  cbn [app] in Ht, Htail. rewrite Hm in Htail. cbn [snapshot vw_tail vw_dropped vw_total vw_truncated].
  set (out := concat chunks) in *. rewrite Ht, Htail, length_drop. split; [lia|]. split.
  - exists (take (length out - Z.to_nat n) out). rewrite take_drop. split; [done|]. rewrite length_take. lia.
  - split; [done|]. rewrite Z.ltb_lt. lia.
Qed.
End Capture.

(** ** The loop *)

(** A request is on record. *)
Definition requests_known (s : RuntimeSupervisor.t) : Prop :=
  RuntimeSupervisor.shutdown_requested s = true -> is_Some (RuntimeSupervisor.first_cause s).

Lemma record_cause_Ok k rc d code s s' :
  RuntimeSupervisor.record_cause k rc d code s = (s', Ok tt) ->
  is_Some (RuntimeSupervisor.first_cause s') /\
  RuntimeSupervisor.shutdown_requested s' = RuntimeSupervisor.shutdown_requested s.
Proof.
  unfold RuntimeSupervisor.record_cause. destruct (FirstCause.post_init _); [|done].
  destruct (RuntimeSupervisor.first_cause s) eqn:E; intros [= <-]; cbn; by rewrite ?E.
Qed.

Lemma record_cause_known k rc d code s :
  requests_known s -> requests_known (RuntimeSupervisor.record_cause k rc d code s).1.
Proof.
  intros H. destruct (RuntimeSupervisor.record_cause k rc d code s) as [s' [[]|y]] eqn:E; cbn [fst].
  - apply record_cause_Ok in E as [? _]. by intros _.
  - unfold RuntimeSupervisor.record_cause in E. by destruct (FirstCause.post_init _); simplify_eq.
Qed.

Lemma on_signal_known n s : requests_known (on_signal n s).
Proof.
  unfold on_signal, RuntimeSupervisor.request_shutdown, RuntimeSupervisor.record_cause. intros _.
  assert (FirstCause.post_init (FirstCause.mk "supervisor" "SHUTDOWN_REQUESTED" ("signal " +:+ str_Z n) None) = Ok tt) as -> by done.
  cbn. by destruct (RuntimeSupervisor.first_cause s).
Qed.

Lemma on_signals_known ns s : requests_known s -> requests_known (fold_left (fun s n => on_signal n s) ns s).
Proof.
  revert s. induction ns as [|n ns IH]; intros s Hs; [done|]. cbn [fold_left]. apply IH, on_signal_known.
Qed.

Lemma poll_once_known e s : requests_known s -> requests_known (RuntimeSupervisor.poll_once e s).1.
Proof.
  intros Hs. unfold RuntimeSupervisor.poll_once. generalize (dkeys (RuntimeSupervisor.components s)). intros ids.
  revert s Hs. induction ids as [|k ids IH]; intros s Hs; [done|]. cbn [RuntimeSupervisor.poll_each].
  destruct (dget k _) as [m|]; [|by apply IH]. destruct (ManagedComponent.observe _ _) as [m' [st code]].
  set (s1 := RuntimeSupervisor.put m' k s). assert (requests_known s1) as H1 by exact Hs.
  assert (forall rc d, requests_known (RuntimeSupervisor.recorded
    (RuntimeSupervisor.record_cause (ManagedComponent.component_id m') rc d code s1)).1) as Hrec.
  { intros rc d. pose proof (record_cause_known (ManagedComponent.component_id m') rc d code s1 H1) as Hk.
    by destruct (RuntimeSupervisor.record_cause _ _ _ _ _) as [s2 [u|y]]. }
  destruct (bool_decide _); [apply Hrec|]. destruct (_ && _); [apply Hrec|by apply IH].
Qed.

Lemma poll_once_operator e s :
  operator_shutdown_requested (RuntimeSupervisor.poll_once e s).1 = operator_shutdown_requested s.
Proof.
  unfold RuntimeSupervisor.poll_once. generalize (dkeys (RuntimeSupervisor.components s)). intros ids.
  revert s. induction ids as [|k ids IH]; intros s; [done|]. cbn [RuntimeSupervisor.poll_each].
  destruct (dget k _) as [m|]; [|by apply IH]. destruct (ManagedComponent.observe _ _) as [m' [st code]].
  set (s1 := RuntimeSupervisor.put m' k s).
  assert (forall rc d, rc <> "SHUTDOWN_REQUESTED" -> operator_shutdown_requested (RuntimeSupervisor.recorded
    (RuntimeSupervisor.record_cause (ManagedComponent.component_id m') rc d code s1)).1 = operator_shutdown_requested s) as Hrec.
  { intros rc d Hrc. pose proof (record_cause_operator (ManagedComponent.component_id m') rc d code s1 Hrc) as Hk.
    by destruct (RuntimeSupervisor.record_cause _ _ _ _ _) as [s2 [u|y]]. }
  destruct (bool_decide _); [by apply Hrec|]. destruct (_ && _); [by apply Hrec|]. by rewrite IH.
Qed.

Lemma poll_once_requested e s :
  RuntimeSupervisor.shutdown_requested (RuntimeSupervisor.poll_once e s).1 = RuntimeSupervisor.shutdown_requested s.
Proof.
  unfold RuntimeSupervisor.poll_once. generalize (dkeys (RuntimeSupervisor.components s)). intros ids.
  revert s. induction ids as [|k ids IH]; intros s; [done|]. cbn [RuntimeSupervisor.poll_each].
  destruct (dget k _) as [m|]; [|by apply IH]. destruct (ManagedComponent.observe _ _) as [m' [st code]].
  unfold RuntimeSupervisor.record_cause. repeat case_match; cbn; simplify_eq; done || by rewrite IH.
Qed.

Section Run.
Context {B : Type} `{!BindingStore B} (ch : dict -> string) (show_blocker : blocker -> string).
Context (show_seconds : float -> string) (ordinary : string -> bool) (ptext : composition_error -> string).
Context (show_cause : FirstCause.t -> string) (show_failure : watch_error -> string).
Implicit Types (r : root B) (t : watch_turn B).

(** No turn of the monitor blames the operator. *)
Lemma monitor_reason e (c : composition B) c' cause :
  monitor_readiness ch show_blocker show_seconds e c = (c', Ok (Some cause)) ->
  FirstCause.reason_code cause <> "SHUTDOWN_REQUESTED".
Proof.
  assert (forall reason rc (c0 : composition B), recovery_verdict show_seconds e reason rc c0 = (c', Ok (Some cause)) ->
    FirstCause.reason_code cause <> "SHUTDOWN_REQUESTED") as Hrec.
  { intros reason rc c0. unfold recovery_verdict. destruct (co_loss c0); [|done]. destruct (Float.leb _ _); [|done].
    by intros [= _ <-]. }
  assert (forall v rc (c0 : composition B), monitor_lost ch show_blocker show_seconds e v rc c0 = (c', Ok (Some cause)) ->
    FirstCause.reason_code cause <> "SHUTDOWN_REQUESTED") as Hlost.
  { intros v rc c0. unfold monitor_lost. destruct (bool_decide _); [|apply Hrec].
    destruct (match co_status _ with None => _ | Some _ => _ end) as [c2 [u|y]]; [apply Hrec|done]. }
  assert (forall rc (c0 : composition B), judge_turn ch show_blocker show_seconds e rc c0 = (c', Ok (Some cause)) ->
    FirstCause.reason_code cause <> "SHUTDOWN_REQUESTED") as Hjudge.
  { intros rc c0. unfold judge_turn. destruct (observe_turn _ _ _ _ rc) as [rc1 [[]|err]]; [|done].
    destruct (evaluate_now _ _ _) as [v|]; [|done]. destruct (ReadinessVerdict.ready v); [|apply Hlost].
    by intros ?%monitor_ready_no_cause. }
  unfold monitor_readiness. destruct (co_readiness c) as [rc|]; [|done]. destruct (negb (bool_decide _)); [done|].
  destruct (me_observer e); [by intros [= _ <-]|]. destruct (Float.ltb _ _); [done|].
  specialize (Hjudge rc (set_last (me_now e) c)). unfold judge_turn in Hjudge.
  destruct (DeploymentPlan.gateway (co_plan c)); [|exact Hjudge].
  destruct (me_alive e) as [[|]|]; [exact Hjudge| |exact Hjudge]. destruct (negb _); [done|]. by intros [= _ <-].
Qed.

(** The loop keeps the flags of the root. *)
Definition same_flags r r' : Prop :=
  ro_draining r' = ro_draining r /\ ro_cancelling r' = ro_cancelling r.

Lemma record_root_spec c r r' x :
  record_root c r = (r', x) ->
  same_flags r r' /\ (x = Ok true -> is_Some (RuntimeSupervisor.first_cause (ro_supervisor r'))) /\
  x <> Ok false /\ (requests_known (ro_supervisor r) -> requests_known (ro_supervisor r')) /\
  (FirstCause.reason_code c <> "SHUTDOWN_REQUESTED" ->
   operator_shutdown_requested (ro_supervisor r') = operator_shutdown_requested (ro_supervisor r)).
Proof.
  unfold record_root.
  pose proof (record_cause_known (FirstCause.component_id c) (FirstCause.reason_code c) (FirstCause.detail c) (FirstCause.exit_code c)
    (ro_supervisor r)) as Hk.
  pose proof (record_cause_operator (FirstCause.component_id c) (FirstCause.reason_code c) (FirstCause.detail c) (FirstCause.exit_code c)
    (ro_supervisor r)) as Ho.
  destruct (RuntimeSupervisor.record_cause _ _ _ _ _) as [s [[]|y]] eqn:E; intros [= <- <-]; split_and!; try done.
  intros _. by apply record_cause_Ok in E as [? _].
Qed.

Lemma until_spec t r r' x :
  deployment_done_or_failed ch show_blocker show_seconds t r = (r', x) ->
  same_flags r r' /\ (x = Ok true -> is_Some (RuntimeSupervisor.first_cause (ro_supervisor r'))) /\
  (requests_known (ro_supervisor r) -> requests_known (ro_supervisor r')) /\
  operator_shutdown_requested (ro_supervisor r') = operator_shutdown_requested (ro_supervisor r).
Proof.
  unfold deployment_done_or_failed.
  assert (forall text, record_root (FirstCause.mk "control" "CONTROL_FAILURE" text None) (hear_ranks t r) = (r', x) ->
    same_flags r r' /\ (x = Ok true -> is_Some (RuntimeSupervisor.first_cause (ro_supervisor r'))) /\
    (requests_known (ro_supervisor r) -> requests_known (ro_supervisor r')) /\
    operator_shutdown_requested (ro_supervisor r') = operator_shutdown_requested (ro_supervisor r)) as Hch.
  { intros text (Hf & H1 & _ & H2 & H3)%record_root_spec. split_and!; try done. by apply H3. }
  assert (match monitor_readiness ch show_blocker show_seconds (wt_monitor t) (ro_comp (hear_ranks t r)) with
      | (c, Err x) => (put_comp c (hear_ranks t r), Err (RootFailed x))
      | (c, Ok None) => (put_comp c (hear_ranks t r), Ok false)
      | (c, Ok (Some cause)) => record_root cause (put_comp c (hear_ranks t r))
      end = (r', x) -> same_flags r r' /\ (x = Ok true -> is_Some (RuntimeSupervisor.first_cause (ro_supervisor r'))) /\
    (requests_known (ro_supervisor r) -> requests_known (ro_supervisor r')) /\
    operator_shutdown_requested (ro_supervisor r') = operator_shutdown_requested (ro_supervisor r)) as Hmon.
  { destruct (monitor_readiness _ _ _ _ _) as [c [[cause|]|y]] eqn:Hm; [|by intros [= <- <-]..].
    apply monitor_reason in Hm. intros (Hf & H1 & _ & H2 & H3)%record_root_spec. split_and!; try done. by apply H3. }
  destruct (wt_channel t) as [[|a text]|]; [exact Hmon|apply Hch|exact Hmon].
Qed.

(** How the loop ends. *)
Lemma supervise_spec deadline turns r r1 x :
  requests_known (ro_supervisor r) ->
  supervise_turns (deployment_done_or_failed ch show_blocker show_seconds) deadline turns r = (r1, Some x) ->
  same_flags r r1 /\ is_Some (launcher_cause show_cause show_failure x r1) /\
  (Forall (fun t => wt_signals t = [] /\ wt_late_signals t = []) turns ->
   operator_shutdown_requested (ro_supervisor r1) = operator_shutdown_requested (ro_supervisor r)).
Proof.
  revert r. induction turns as [|t turns IH]; intros r Hk; [done|]. cbn [supervise_turns].
  set (r0 := on_signals (wt_signals t) r).
  assert (requests_known (ro_supervisor r0)) as Hk0 by by apply on_signals_known.
  assert (same_flags r r0) as Hf0 by done.
  assert (Forall (fun t => wt_signals t = [] /\ wt_late_signals t = []) (t :: turns) ->
    ro_supervisor r0 = ro_supervisor r /\ wt_late_signals t = []) as Hq.
  { intros [[Hs Hl] _]%Forall_cons. subst r0. by rewrite Hs. }
  clearbody r0.
  destruct (RuntimeSupervisor.shutdown_requested (ro_supervisor r0)) eqn:Hreq.
  { intros [= <- <-]. destruct (Hk0 Hreq) as [c Hc]. split; [done|]. split; [rewrite Hc; by exists (show_cause c)|].
    by intros [-> _]%Hq. }
  pose proof (poll_once_known (wt_poll t) (ro_supervisor r0) Hk0) as Hkp.
  pose proof (poll_once_operator (wt_poll t) (ro_supervisor r0)) as Hop.
  destruct (RuntimeSupervisor.poll_once _ _) as [s [[c|]|y]]; cbn [fst] in *.
  - intros [= <- <-]. split; [done|]. split; [by eexists|]. intros [Hs _]%Hq. cbn. by rewrite Hop, Hs.
  - set (r2 := on_signals (wt_late_signals t) (put_supervisor s r0)).
    assert (requests_known (ro_supervisor r2)) as Hk2 by by apply on_signals_known.
    destruct (deployment_done_or_failed _ _ _ t r2) as [r3 y] eqn:Hu. apply until_spec in Hu as (Hf3 & H1 & H2 & H3).
    assert (Forall (fun t => wt_signals t = [] /\ wt_late_signals t = []) (t :: turns) ->
      operator_shutdown_requested (ro_supervisor r3) = operator_shutdown_requested (ro_supervisor r)) as Hop3.
    { intros [Hs Hl]%Hq. rewrite H3. subst r2. rewrite Hl. cbn. by rewrite Hop, Hs. }
    assert (same_flags r r3) as Hf.
    { destruct Hf0 as [Ha Hb], Hf3 as [Hc Hd]. split; [by rewrite Hc, <- Ha|by rewrite Hd, <- Hb]. }
    destruct y as [[]|y].
    + intros [= <- <-]. split; [done|]. split; [|done]. destruct (H1 eq_refl) as [c Hc]. unfold launcher_cause. rewrite Hc. by exists (show_cause c).
    + assert (supervise_turns (deployment_done_or_failed ch show_blocker show_seconds) deadline turns r3 = (r1, Some x) ->
        same_flags r r1 /\ is_Some (launcher_cause show_cause show_failure x r1) /\
        (Forall (fun t => wt_signals t = [] /\ wt_late_signals t = []) (t :: turns) ->
         operator_shutdown_requested (ro_supervisor r1) = operator_shutdown_requested (ro_supervisor r))) as Hnext.
      { intros H. destruct (IH r3 (H2 Hk2) H) as ([Hfa Hfb] & Hc & Hsig). destruct Hf as [Hga Hgb].
        split; [split; congruence|]. split; [done|]. intros Hall. rewrite Hsig; [by apply Hop3|]. by apply Forall_cons in Hall as [_ ?]. }
      destruct deadline as [[d text]|]; [|exact Hnext]. destruct (Float.ltb _ _); [|exact Hnext].
      destruct (record_root _ r3) as [r4 y] eqn:Hrec. apply record_root_spec in Hrec as ([Hd4 Hc4] & G1 & G2 & _ & G4).
      assert (same_flags r r4) as Hf4 by (destruct Hf; split; congruence).
      assert (Forall (fun t => wt_signals t = [] /\ wt_late_signals t = []) (t :: turns) ->
        operator_shutdown_requested (ro_supervisor r4) = operator_shutdown_requested (ro_supervisor r)) as Hop4.
      { intros Hall. rewrite G4 by done. by apply Hop3. }
      destruct y as [[]|y]; intros [= <- <-]; (split; [done|]); (split; [|done]); [|done|by eexists].
      destruct (G1 eq_refl) as [c Hc]. rewrite Hc. by exists (show_cause c).
    + intros [= <- <-]. split; [done|]. split; [by eexists|done].
  - intros [= <- <-]. split; [done|]. split; [by eexists|]. intros [Hs _]%Hq. cbn. by rewrite Hop, Hs.
Qed.


(** ** A failure that could not be published *)

(** A [fail] that leaves the publisher's state as it was has left the record as it was too, or
    has put FAILED on record in a write that raised after the rename. *)
Lemma fail_root_keeps C st (fe : advance_env) reason r r1 x :
  good_time (ae_now fe) -> status_is ch C st r -> fail_root ch ptext fe reason r = (r1, x) -> public r1 = Some st ->
  status_is ch C st r1 \/ root_is (behind_of ch C st) r1.
Proof.
  intros Hnow [Hreg (p & rec & Hp & Hst & Ho & Hid)]. unfold fail_root.
  set (r0 := match ro_cause r with None => _ | Some _ => r end).
  assert (ro_comp r0 = ro_comp r /\ ro_supervisor r0 = ro_supervisor r) as [Hc0 Hs0] by (subst r0; by destruct (ro_cause r)).
  clearbody r0. unfold fail_status, advance_status. rewrite Hc0, Hp.
  assert (registry_ok (ro_supervisor r0)) as Hreg0 by by rewrite Hs0.
  destruct (_ || _).
  { intros [= <- <-] _. left. split; [done|]. by exists p, rec. }
  destruct (advance _ _ _ _ _ _ _ _ _) as [[p' d'] y] eqn:Ha.
  assert (advance_ok (co_config (ro_comp r)) fe FAILED []) as Hok by (split_and!; [done|by split; [constructor|]|done]).
  pose proof (advance_owned _ _ _ C _ _ _ _ _ _ _ _ _ _ _ Ho Hok Ha ltac:(auto) ltac:(done)) as Hcase.
  intros H Hpub. assert (r1 = put_comp (set_status p' d' (ro_comp r)) r0) as ->.
  { destruct y as [z|z]; cbn in H; repeat case_match; by simplify_eq. }
  cbn in Hpub. injection Hpub as Hpub.
  assert ((exists rec', owned ch (co_config (ro_comp r)) C p' d' rec') \/
          (exists rec', behind ch (co_config (ro_comp r)) C p' d' rec')) as [[rec' Ho']|[rec' Hb]].
  { destruct y as [z|z]; [left; exists z; apply Hcase|]. destruct Hcase as [?|(rec' & ? & _)]; [left|right]; eauto. }
  - left. split; [done|]. by exists p', rec'.
  - right. split; [done|]. by exists p', rec'.
Qed.

(** C26: When FAILED cannot be published at the moment of the failure, the shutdown that follows
    does not try again: it sees a READY deployment, drains it and, when the cleanup is clean,
    publishes STOPPED; only the exit status tells that the run has failed. *)
Theorem failed_publication_is_forgotten C (fe : advance_env) e reason r r1 p rec :
  identity_ok (co_config (ro_comp r)) -> registry_ok (ro_supervisor r) -> good_shutdown ordinary (cleanup_budget r) e ->
  good_time (ae_now fe) -> ro_draining r = false -> ro_cancelling r = false ->
  operator_shutdown_requested (ro_supervisor r) = false ->
  co_status (ro_comp r) = Some p -> pub_state p = READY ->
  owned ch (co_config (ro_comp r)) C p (co_dir (ro_comp r)) rec ->
  fail_root ch ptext fe reason r = (r1, Ok tt) -> public r1 = Some READY ->
  exists s view, finish ch ordinary ptext fe e (Some reason) r = (cl_root s, Ok (exit_code (cl_root s))) /\
    exit_code (cl_root s) <> 0 /\ exit_code (cl_root s) <> 143 /\
    read_deployment_status ch (co_dir (ro_comp (cl_root s))) = Ok (Some view) /\
    (cl_errors s = [] -> DeploymentStatus.state view = STOPPED).
Proof.
  intros Hid Hreg Hg Hnow Hd Hc Hop Hp Hst Ho Hf Hpub.
  assert (status_is ch C READY r) as Hs by (split; [done|by exists p, rec]).
  pose proof (fail_root_frame _ _ _ _ _ _ _ Hf) as (_ & _ & _ & Hd1 & Hc1 & Hb). rewrite Hd in Hd1. rewrite Hc in Hc1.
  rewrite <- Hb in Hg.
  assert (exists s view, shutdown ch ordinary ptext (cleanup_budget r1) e r1 = (s, Ok tt) /\
    read_deployment_status ch (co_dir (ro_comp (cl_root s))) = Ok (Some view) /\
    (cl_errors s = [] -> DeploymentStatus.state view = STOPPED)) as (s & view & Hsh & Hview & Hend).
  { destruct (fail_root_keeps C READY fe reason r r1 (Ok tt) Hnow Hs Hf Hpub) as [Hs1|Hs1].
    2: { destruct (shutdown_behind ch ordinary ptext C _ e r1 Hg Hd1 Hc1 Hs1) as (s & view & Hsh & He & Hv). by exists s, view. }
    destruct (shutdown_goes ch ordinary ptext C READY _ e r1 Hg Hd1 Hc1 Hs1)
      as (s & st' & Hsh & [_ (p' & rec' & Hp' & Hst' & Ho' & Hid')] & Hlast).
    destruct (owned_readable _ _ _ _ _ _ Hid' Ho') as (view & Hview & Hvs & _).
    exists s, view. split; [done|]. split; [done|].
    intros He. rewrite Hvs, Hst'. destruct Hlast as [[_ Hbad]|Hlast]; [done|by injection Hlast]. }
  assert (finish ch ordinary ptext fe e (Some reason) r = (cl_root s, Ok (exit_code (cl_root s)))) as Hfin
    by (unfold finish; by rewrite Hf, Hsh).
  destruct (finish_caused _ _ _ _ _ _ _ _ _ Hd Hc Hfin) as [Hne H143]; [left; by eexists|].
  exists s, view. split; [done|]. split; [done|]. split; [intros E; apply H143 in E; by rewrite Hop in E|]. by split.
Qed.
End Run.
