(* ===== verification/SupervisionDemo.v ===== *)
(** Concrete ends of a supervised run: the control channel fails, once with a status record that
    can be written and once while its lock is held. *)

From S2P Require Import Prelude PyValue Atomic Envelopes Contracts Session Receipts ReceiptCodec Bindings BindingsProps Ledger LedgerProps Readiness ReadinessProps Supervisor SupervisorProps Status StatusProps Manifest StatusApi StatusApiProps StatusApiDemo PublishProps Composition Shutdown ShutdownProps ShutdownDemo Supervision SupervisionProps.

Definition quiet_poll : RuntimeSupervisor.poll_env :=
  RuntimeSupervisor.PollEnv (fun _ => ManagedComponent.Sighting None true false) (fun _ => (true, EmptyString)) (fun _ => Ok EmptyString).

Definition idle_monitor : monitor_env :=
  MonitorEnv None (Float.of_Z 30) None true (Evidence None None true true) (fun _ => true) (Float.of_Z 30) (Float.of_Z 1030) true
    (PublishEnv demo_io Written (api_env 30)) (api_env 30) (api_clock 30, Written).

(** A quiet turn, then one in which the control channel has failed. *)
Definition end_turns : list (watch_turn Store.t) :=
  [WatchTurn [] quiet_poll [] None demo_empty None idle_monitor (Float.of_Z 30);
   WatchTurn [] quiet_poll [] None demo_empty (Some "rank 0 lost") idle_monitor (Float.of_Z 32)].

Definition demo_blocker (_ : blocker) : string := "blocked".
Definition demo_seconds (_ : float) : string := "60".
Definition demo_cause (c : FirstCause.t) : string := FirstCause.component_id c +:+ ": " +:+ FirstCause.reason_code c.
Definition demo_failure (_ : watch_error) : string := "error".

#[local] Instance watched_store_class : BindingStore Store.t :=
  component_binding_store demo_event_hash demo_batch_hash demo_digest_ok.

Abbreviation watched fe := (watch_and_finish api_hash demo_blocker demo_seconds end_all end_text demo_cause demo_failure
  end_turns fe (end_env (api_env 30)) (end_root demo_started_all)).

Definition ends_in (st : DeploymentState) (x : option (root Store.t * sup_result Z)) : bool :=
  match x with Some (r', Ok _) => bool_decide (public r' = Some st) | _ => false end.


(** The lock of the record is held when the failure is to be published. *)
Definition busy_env : advance_env := 
  AdvanceEnv (api_clock 20) Written (StoreIO LeaseBusy Written Released) (Float.of_Z 1020) (api_clock 20).

Definition kept_ready (x : root Store.t * sup_result unit) : bool :=
  match x with (r1, Ok _) => bool_decide (public r1 = Some READY) | _ => false end.

Lemma failed_publication_is_forgotten_witness :
  exists s view, finish api_hash end_all end_text busy_env (end_env (api_env 30)) (Some "control: CONTROL_FAILURE") (end_root demo_started_all)
      = (cl_root s, Ok (exit_code (cl_root s))) /\ exit_code (cl_root s) <> 0 /\
    read_deployment_status api_hash (co_dir (ro_comp (cl_root s))) = Ok (Some view) /\
    (cl_errors s = [] -> DeploymentStatus.state view = STOPPED).
Proof.
  destruct end_owned as [rec Ho].
  assert (kept_ready (fail_root api_hash end_text busy_env "control: CONTROL_FAILURE" (end_root demo_started_all)) = true) as Hk
    by (vm_compute; reflexivity).
  destruct (fail_root api_hash end_text busy_env "control: CONTROL_FAILURE" (end_root demo_started_all)) as [r1 [[]|]] eqn:Hf;
    [|discriminate Hk].
  apply bool_decide_eq_true in Hk.
  destruct (failed_publication_is_forgotten api_hash end_all end_text (last_lease api_hash api_config (new_publisher, api_dir) api_ready) busy_env (end_env (api_env 30))
    "control: CONTROL_FAILURE" (end_root demo_started_all) r1 api_run.1 rec api_identity demo_started_all_ok end_good)
    as (s & view & H1 & H2 & _ & H3 & H4).
  - apply (qe_now _ (end_quiet_env 20 (or_introl eq_refl))).
  - reflexivity.
  - reflexivity.
  - vm_compute. reflexivity.
  - reflexivity.
  - vm_compute. reflexivity.
  - exact Ho.
  - exact Hf.
  - exact Hk.
  - exists s, view. split; [exact H1|]. split; [exact H2|]. split; [exact H3|exact H4].
Defined.

(** The run ends STOPPED although it has failed. *)
Example failure_ends_stopped : ends_in STOPPED (watched busy_env) = true.
Proof. vm_compute. reflexivity. Qed.

Lemma capture_keeps_the_end_witness :
  exists c0, BoundedOutputCapture.init (VInt 3) = Ok c0 /\
    BoundedOutputCapture.vw_tail (BoundedOutputCapture.snapshot
      (BoundedOutputCapture.drain [["a"%char; "b"%char]; ["c"%char; "d"%char]] None c0)) = ["b"%char; "c"%char; "d"%char] /\
    BoundedOutputCapture.vw_total (BoundedOutputCapture.snapshot
      (BoundedOutputCapture.drain [["a"%char; "b"%char]; ["c"%char; "d"%char]] None c0)) = 4.
Proof.
  eexists. split; [reflexivity|]. split; [vm_compute; reflexivity|].
  destruct (capture_keeps_the_end 3 _ [["a"%char; "b"%char]; ["c"%char; "d"%char]] None eq_refl) as (_ & _ & H & _). exact H.
Defined.
