(* ===== verification/Ports.v ===== *)
(** Port leases: who owns a port among the processes of one node (state/ports.py).

    The lease directory is a map from the path of a claim to its file. Everything that a
    claim does, it does while it holds the lock of its guard file, so that a claim or a
    release runs without another one of its path in between; a [world] holds the files, the
    live processes and the lease objects that they keep, and its steps are those sections,
    the birth and the death of processes, and a death in the middle of a section. *)

From S2P Require Import Prelude PyValue Envelopes.

(** ** Errors *)

(** The classes that the handlers tell apart; [FileNotFound] is an [OSError] too. *)
Inductive port_error :=
| FileNotFound
| OsError (errno : Z)
| BadValue
| OutOfRange
| Interrupted
| PortUnavailable (text : string)
| PortReleaseError.

Definition os_or_value (x : port_error) : bool :=
  match x with FileNotFound | OsError _ | BadValue => true | _ => false end.

Abbreviation port_result := (result port_error).

(** ** Claims *)

(** What the strict JSON reader makes of the text of a claim: a value, no JSON (with the
    fields of [text.split()]), or text that it refuses otherwise. *)
Inductive claim_text :=
| JsonText (v : value)
| LegacyText (fields : list string)
| RefusedText.

Inductive file_kind := OwnedRegular | Symlink | Foreign.

Record claim_file := ClaimFile {
  cf_kind : file_kind;
  cf_text : claim_text;
  cf_mtime : float;
}.

Abbreviation claims := (gmap string claim_file).

Definition ELOOP : Z := 40.
Definition EACCES : Z := 13.
Definition EROFS : Z := 30.

Definition STALE_AFTER_S : float := Float.of_Z 3600.

(** [int(text)]: a sign and digits, which single underscores may separate. *)
Fixpoint int_digits (acc : Z) (after_digit : bool) (s : string) : option Z :=
  match s with
  | EmptyString => if after_digit then Some acc else None
  | String.String c s' =>
      let n := Z.of_nat (Ascii.nat_of_ascii c) in
      if (48 <=? n) && (n <=? 57) then int_digits (acc * 10 + (n - 48)) true s'
      else if (n =? 95) && after_digit then
             match s' with EmptyString => None | _ => int_digits acc false s' end
           else None
  end.

Definition py_int (s : string) : option Z :=
  match s with
  | String.String "+" s' => int_digits 0 false s'
  | String.String "-" s' => Z.opp <$> int_digits 0 false s'
  | _ => int_digits 0 false s
  end.

(** The owner and the token that a text names. *)
Definition parse_claim (t : claim_text) : port_result (Z * option string) :=
  match t with
  | LegacyText [] => Ok (-1, None)
  | LegacyText (x :: _) => match py_int x with Some pid => Ok (pid, None) | None => Err BadValue end
  | RefusedText => Err BadValue
  | JsonText (VDict payload) =>
      match attr "pid" payload, nonempty_str (attr "token" payload) with
      | VInt pid, Some token => Ok (pid, Some token)
      | _, _ => Err BadValue
      end
  | JsonText _ => Err BadValue
  end.

(** [_read_claim]; [failure] is the exception of opening or reading the file. *)
Definition read_claim (failure : option port_error) (path : string) (cs : claims)
    : port_result (Z * option string) :=
  match failure with
  | Some x => Err x
  | None =>
      match cs !! path with
      | None => Err FileNotFound
      | Some f =>
          match cf_kind f with
          | Symlink => Err (OsError ELOOP)
          | Foreign => Err BadValue
          | OwnedRegular => parse_claim (cf_text f)
          end
      end
  end.

(** *** Processes *)

(** The answer of [os.kill(pid, 0)]. *)
Inductive kill_answer := Delivered | NoSuchProcess | NotPermitted | OtherFailure.

(** [_pid_alive]; the number has to fit the C integer. *)
Definition pid_alive (kill : Z -> kill_answer) (pid : Z) : port_result bool :=
  if (pid <? - 2 ^ 31) || (2 ^ 31 <=? pid) then Err OutOfRange
  else Ok (match kill pid with Delivered | NotPermitted => true | NoSuchProcess | OtherFailure => false end).

(** ** Leases *)

Module PortLease.
Record t := mk {
  port : Z;
  path : string;
  token : option string;
  released : bool;
}.
End PortLease.

Definition set_released (l : PortLease.t) : PortLease.t :=
  PortLease.mk (PortLease.port l) (PortLease.path l) (PortLease.token l) true.

(** What one claim meets: the process, its token, and the failures of its system calls. *)
Record claim_env := ClaimEnv {
  ce_pid : Z;
  ce_token : string;
  ce_guard : option port_error;
  ce_create : option Z;
  ce_lstat : bool;
  ce_read : option port_error;
  ce_kill : Z -> kill_answer;
  ce_now : float;
  ce_unlink_stale : bool;
  ce_recreate : bool;
  ce_stamp : float;
  ce_write : option (port_error * claim_text);
  ce_bindable : bool;
  ce_drop : option port_error;
  ce_unwind_read : option port_error;
  ce_unwind_unlink : bool;
}.

Definition new_file (e : claim_env) (t : claim_text) : claim_file := ClaimFile OwnedRegular t (ce_stamp e).

(** The file is created, or a stale one is replaced; [false]: the port is not to be had. *)
Definition take_claim (e : claim_env) (path : string) (cs : claims) : claims * port_result bool :=
  match cs !! path with
  | None =>
      match ce_create e with
      | None => (<[path := new_file e (LegacyText [])]> cs, Ok true)
      | Some errno => (cs, if bool_decide (errno ∈ [EACCES; EROFS]) then Ok false else Err (OsError errno))
      end
  | Some f =>
      if negb (ce_lstat e) then (cs, Ok false)
      else match cf_kind f with
           | Symlink | Foreign => (cs, Ok false)
           | OwnedRegular =>
               match read_claim (ce_read e) path cs with
               | Err x => (cs, if os_or_value x then Ok false else Err x)
               | Ok (owner, _) =>
                   match pid_alive (ce_kill e) owner with
                   | Err x => (cs, Err x)
                   | Ok alive =>
                       if alive || Float.ltb (Float.sub (ce_now e) (cf_mtime f)) STALE_AFTER_S then (cs, Ok false)
                       else if negb (ce_unlink_stale e) then (cs, Ok false)
                       else if negb (ce_recreate e) then (delete path cs, Ok false)
                       else (<[path := new_file e (LegacyText [])]> cs, Ok true)
                   end
               end
           end
  end.

(** The text of a claim. *)
Definition claim_payload (e : claim_env) : value :=
  VDict [("at", VFloat (ce_stamp e)); ("pid", VInt (ce_pid e)); ("schema_version", VInt 1); ("token", VStr (ce_token e))].

Definition fill_claim (e : claim_env) (path : string) (cs : claims) : claims * port_result unit :=
  match ce_write e with
  | None => (<[path := new_file e (JsonText (claim_payload e))]> cs, Ok tt)
  | Some (x, rest) => (<[path := new_file e rest]> cs, Err x)
  end.

(** Claim first, then check. *)
Definition probe_claim (e : claim_env) (path : string) (cs : claims) : claims * port_result bool :=
  if ce_bindable e then (cs, Ok true)
  else match ce_drop e with None => (delete path cs, Ok false) | Some x => (cs, Err x) end.

(** [except BaseException]: a partial claim of our own is removed. *)
Definition unwind_claim (e : claim_env) (path : string) (cs : claims) : claims :=
  match read_claim (ce_unwind_read e) path cs with
  | Ok (owner, token) =>
      if bool_decide (owner = ce_pid e) && bool_decide (token = Some (ce_token e)) && ce_unwind_unlink e
      then delete path cs else cs
  | Err _ => cs
  end.

Definition claim_path (port : Z) (directory : string) : string := join_path directory (str_Z port +:+ ".lock").

(** [_claim] *)
Definition claim (e : claim_env) (port : Z) (directory : string) (cs : claims)
    : claims * port_result (option PortLease.t) :=
  let path := claim_path port directory in
  match ce_guard e with
  | Some x => (cs, Err x)
  | None =>
      match take_claim e path cs with
      | (cs1, Err x) => (cs1, Err x)
      | (cs1, Ok false) => (cs1, Ok None)
      | (cs1, Ok true) =>
          match fill_claim e path cs1 with
          | (cs2, Err x) => (unwind_claim e path cs2, Err x)
          | (cs2, Ok _) =>
              match probe_claim e path cs2 with
              | (cs3, Err x) => (unwind_claim e path cs3, Err x)
              | (cs3, Ok false) => (cs3, Ok None)
              | (cs3, Ok true) => (cs3, Ok (Some (PortLease.mk port path (Some (ce_token e)) false)))
              end
          end
      end
  end.

(** What one release meets. *)
Record release_env := ReleaseEnv {
  re_pid : Z;
  re_guard : option port_error;
  re_read : option port_error;
  re_unlink : option port_error;
}.

(** The guarded section of [release]. *)
Definition drop_claim (e : release_env) (l : PortLease.t) (cs : claims) : claims * port_result unit :=
  match re_guard e with
  | Some x => (cs, Err x)
  | None =>
      match read_claim (re_read e) (PortLease.path l) cs with
      | Err x => (cs, Err x)
      | Ok (owner, token) =>
          if bool_decide (owner = re_pid e) && bool_decide (token = PortLease.token l)
          then match re_unlink e with
               | None => (delete (PortLease.path l) cs, Ok tt)
               | Some x => (cs, Err x)
               end
          else (cs, Ok tt)
      end
  end.

(** [PortLease.release] *)
Definition release (e : release_env) (l : PortLease.t) (cs : claims) : claims * PortLease.t * port_result unit :=
  if PortLease.released l then (cs, l, Ok tt)
  else match PortLease.token l with
       | None => (cs, set_released l, Ok tt)
       | Some _ =>
           match drop_claim e l cs with
           | (cs', Ok _) | (cs', Err FileNotFound) => (cs', set_released l, Ok tt)
           | (cs', Err x) => (cs', l, Err (if os_or_value x then PortReleaseError else x))
           end
       end.

(** [PortLease.__exit__]: a failing release does not replace an exception in flight. *)
Definition lease_exit (raising : bool) (e : release_env) (l : PortLease.t) (cs : claims)
    : claims * PortLease.t * port_result unit :=
  match release e l cs with
  | (cs', l', Err PortReleaseError) => (cs', l', if raising then Ok tt else Err PortReleaseError)
  | y => y
  end.

(** ** Listeners *)

Module ListeningSocket.
Record t := mk {
  port : Z;
  closed : bool;
}.

(** The socket is closed once; the flag says whether this call closed it. *)
Definition close (s : t) : t * bool := (mk (port s) true, negb (closed s)).
End ListeningSocket.

(** [bind_listener]; [bound] is the port that the socket got, or that binding failed. *)
Definition bind_listener (bound : option Z) (port backlog host : value) : port_result ListeningSocket.t :=
  match port with
  | VInt p =>
      if negb ((0 <=? p) && (p <=? 65535)) then Err (PortUnavailable "invalid listener port")
      else match backlog with
           | VInt n =>
               if n <? 1 then Err (PortUnavailable "listener backlog must be positive")
               else if negb (bool_decide (is_Some (nonempty_str host)))
                    then Err (PortUnavailable "listener host must be non-empty text")
                    else match bound with
                         | Some q => Ok (ListeningSocket.mk q false)
                         | None => Err (PortUnavailable "could not bind listener")
                         end
           | _ => Err (PortUnavailable "listener backlog must be positive")
           end
  | _ => Err (PortUnavailable "invalid listener port")
  end.

(** ** Reservation *)

(** The [for] loop over the ports. *)
Fixpoint claim_first (envs : Z -> claim_env) (directory : string) (ports : list Z) (cs : claims)
    : claims * port_result (option PortLease.t) :=
  match ports with
  | [] => (cs, Ok None)
  | p :: ports' =>
      match claim (envs p) p directory cs with
      | (cs', Ok None) => claim_first envs directory ports' cs'
      | (cs', Ok (Some l)) => (cs', Ok (Some l))
      | (cs', Err FileNotFound) | (cs', Err (OsError _)) => (cs', Err (PortUnavailable "port lease arbitration failed"))
      | (cs', Err x) => (cs', Err x)
      end
  end.

Definition is_text_value (v : value) : bool := bool_decide (is_Some (nonempty_str v)).

(** [reserve_port]; [default_dir] is the directory of the environment, [secured] whether the
    directory could be secured, [listed] whether it could be listed for the last message. *)
Definition reserve_port (envs : Z -> claim_env) (default_dir : string) (secured listed : bool)
    (start_port max_retries bind_host lease_dir : value) (cs : claims) : claims * port_result PortLease.t :=
  let refused text := (cs, Err (PortUnavailable text)) in
  match start_port with
  | VInt start =>
      match max_retries with
      | VInt retries =>
          if retries <? 1 then refused "max_retries must be a positive integer"
          else if negb ((1 <=? start) && (start <=? 65535)) then refused "invalid start port"
          else if negb (is_text_value bind_host) then refused "bind_host must be non-empty text"
          else if negb (match lease_dir with VNone => true | v => is_text_value v end)
          then refused "lease_dir must be null or non-empty text"
          else
            let stop := Z.min 65536 (start + retries) in
            let directory := default default_dir (nonempty_str lease_dir) in
            if negb secured then refused "port lease directory is unavailable"
            else match claim_first envs directory (seqZ start (stop - start)) cs with
                 | (cs', Err x) => (cs', Err x)
                 | (cs', Ok (Some l)) => (cs', Ok l)
                 | (cs', Ok None) =>
                     (cs', Err (PortUnavailable (if listed then "no free port" else "could not inspect port lease directory")))
                 end
      | _ => refused "max_retries must be a positive integer"
      end
  | _ => refused "start_port must be an integer"
  end.

(** ** The node *)

Record world := World {
  wo_claims : claims;
  wo_alive : gset Z;
  wo_held : gmap nat (Z * PortLease.t);
}.

(** A live process is there for every other one. *)
Definition kill_sound (w : world) (kill : Z -> kill_answer) : Prop :=
  forall pid, pid ∈ wo_alive w -> kill pid = Delivered \/ kill pid = NotPermitted.

Definition without (pid : Z) (h : gmap nat (Z * PortLease.t)) : gmap nat (Z * PortLease.t) :=
  filter (fun kv => kv.2.1 <> pid) h.

Inductive port_step (w : world) : world -> Prop :=
| PortStart pid : 0 < pid < 2 ^ 31 -> pid ∉ wo_alive w ->
    port_step w (World (wo_claims w) ({[pid]} ∪ wo_alive w) (wo_held w))
| PortExit pid :
    port_step w (World (wo_claims w) (wo_alive w ∖ {[pid]}) (without pid (wo_held w)))
| PortClaim e port directory cs x i :
    ce_pid e ∈ wo_alive w -> kill_sound w (ce_kill e) -> nonempty (ce_token e) = true -> wo_held w !! i = None ->
    claim e port directory (wo_claims w) = (cs, x) ->
    port_step w (World cs (wo_alive w)
      (match x with Ok (Some l) => <[i := (ce_pid e, l)]> (wo_held w) | _ => wo_held w end))
| PortTorn e port directory cs rest :
    ce_pid e ∈ wo_alive w -> kill_sound w (ce_kill e) ->
    take_claim e (claim_path port directory) (wo_claims w) = (cs, Ok true) ->
    port_step w (World (<[claim_path port directory := new_file e rest]> cs) (wo_alive w ∖ {[ce_pid e]})
      (without (ce_pid e) (wo_held w)))
| PortRelease e i l cs l' x :
    wo_held w !! i = Some (re_pid e, l) -> release e l (wo_claims w) = (cs, l', x) ->
    port_step w (World cs (wo_alive w) (<[i := (re_pid e, l')]> (wo_held w))).
