(* ===== verification/PortsProps.v ===== *)
(** Theorems on port leases (Ports.v): a port has one owner however the processes interleave,
    start and die; a reservation takes the lowest free port; a torn claim blocks its port. *)

From S2P Require Import Prelude PyValue Json JsonProps Envelopes Ports.

(** ** One claim *)

(** A claim whose owner is there. *)
Record claimed_by (pid : Z) (t : string) (f : claim_file) : Prop := ClaimedBy {
  cb_kind : cf_kind f = OwnedRegular;
  cb_names : parse_claim (cf_text f) = Ok (pid, Some t)
}.

Lemma read_claim_spec path cs f pid t :
  cs !! path = Some f -> claimed_by pid t f -> forall x, read_claim None path cs = x -> x = Ok (pid, Some t).
Proof. intros Hf [Hk Hn] x <-. unfold read_claim. by rewrite Hf, Hk. Qed.

Lemma take_claim_other e path cs cs' x q : take_claim e path cs = (cs', x) -> q <> path -> cs' !! q = cs !! q.
Proof.
  intros H Hq. unfold take_claim in H. repeat case_match; simplify_eq; try done;
    by rewrite ?lookup_insert_ne, ?lookup_delete_ne by done.
Qed.

(** Nobody takes a claim whose owner lives. *)
Lemma take_claim_blocked e path cs f pid t :
  cs !! path = Some f -> claimed_by pid t f -> 0 < pid < 2 ^ 31 ->
  ce_kill e pid = Delivered \/ ce_kill e pid = NotPermitted ->
  exists x, take_claim e path cs = (cs, x) /\ x <> Ok true.
Proof.
  intros Hf [Hk Hn] Hpid Hkill. unfold take_claim. rewrite Hf. destruct (negb (ce_lstat e)); [by eexists|]. rewrite Hk.
  unfold read_claim. destruct (ce_read e) as [y|]; [by destruct (os_or_value y); eexists|]. rewrite Hf, Hk, Hn.
  unfold pid_alive. rewrite (proj2 (Z.ltb_ge _ _)), (proj2 (Z.leb_gt _ _)) by lia. cbn [orb].
  destruct Hkill as [-> | ->]; by eexists.
Qed.

Lemma unwind_other e path cs q : q <> path -> unwind_claim e path cs !! q = cs !! q.
Proof. intros Hq. unfold unwind_claim. repeat case_match; try done. by rewrite lookup_delete_ne. Qed.

Lemma claim_other e port dir cs cs' x q :
  claim e port dir cs = (cs', x) -> q <> claim_path port dir -> cs' !! q = cs !! q.
Proof.
  intros H Hq. unfold claim in H. destruct (ce_guard e); [by simplify_eq|].
  destruct (take_claim _ _ _) as [cs1 y] eqn:Ht. pose proof (take_claim_other _ _ _ _ _ _ Ht Hq) as H1.
  destruct y as [[]|]; [|by simplify_eq..]. unfold fill_claim, probe_claim in H.
  repeat case_match; simplify_eq; rewrite ?unwind_other, ?lookup_delete_ne, ?lookup_insert_ne by done; done.
Qed.

(** A lease that comes out of a claim: the claim was there for the taking. *)
Lemma claim_lease e port dir cs cs' l :
  claim e port dir cs = (cs', Ok (Some l)) ->
  (exists cs1, take_claim e (claim_path port dir) cs = (cs1, Ok true)) /\
  l = PortLease.mk port (claim_path port dir) (Some (ce_token e)) false /\
  cs' !! claim_path port dir = Some (new_file e (JsonText (claim_payload e))).
Proof.
  intros H. unfold claim in H. destruct (ce_guard e); [done|].
  destruct (take_claim _ _ _) as [cs1 [[]|]] eqn:Ht; try done. unfold fill_claim, probe_claim in H.
  repeat case_match; simplify_eq. split_and!; [by eexists|done|]. by rewrite lookup_insert_eq.
Qed.

Lemma claim_blocked e port dir cs cs' x f pid t :
  cs !! claim_path port dir = Some f -> claimed_by pid t f -> 0 < pid < 2 ^ 31 ->
  ce_kill e pid = Delivered \/ ce_kill e pid = NotPermitted ->
  claim e port dir cs = (cs', x) -> cs' = cs /\ forall l, x <> Ok (Some l).
Proof.
  intros Hf Hc Hp Hk H. destruct (take_claim_blocked _ _ _ _ _ _ Hf Hc Hp Hk) as (y & Hy & Hne).
  unfold claim in H. rewrite Hy in H. destruct (ce_guard e); [by simplify_eq|]. destruct y as [[]|]; by simplify_eq.
Qed.

Lemma payload_claimed e : nonempty (ce_token e) = true -> claimed_by (ce_pid e) (ce_token e) (new_file e (JsonText (claim_payload e))).
Proof.
  intros Ht. split; [done|]. change (cf_text _) with (JsonText (claim_payload e)). unfold claim_payload, parse_claim.
  change (attr "pid" _) with (VInt (ce_pid e)). change (attr "token" _) with (VStr (ce_token e)).
  unfold nonempty_str. by rewrite Ht.
Qed.

(** What a release does to the files. *)
Lemma release_files e l cs cs' l' x :
  release e l cs = (cs', l', x) ->
  PortLease.path l' = PortLease.path l /\ PortLease.token l' = PortLease.token l /\
  (PortLease.released l = true -> l' = l) /\
  (cs' = cs \/ (cs' = delete (PortLease.path l) cs /\ PortLease.released l = false /\ is_Some (PortLease.token l) /\
                PortLease.released l' = true)).
Proof.
  intros H. unfold release, drop_claim in H. repeat case_match; simplify_eq; split_and!; auto; try done; right; by split_and!.
Qed.

(** ** The node *)

(** A lease that its owner has not given back. *)
Definition active (l : PortLease.t) : Prop := is_Some (PortLease.token l) /\ PortLease.released l = false.

Record world_ok (w : world) : Prop := WorldOk {
  wk_pids : forall pid, pid ∈ wo_alive w -> 0 < pid < 2 ^ 31;
  wk_alive : forall i pid l, wo_held w !! i = Some (pid, l) -> pid ∈ wo_alive w;
  wk_claims : forall i pid l t, wo_held w !! i = Some (pid, l) -> PortLease.released l = false ->
    PortLease.token l = Some t -> exists f, wo_claims w !! PortLease.path l = Some f /\ claimed_by pid t f;
  wk_unique : forall i j pi pj li lj, wo_held w !! i = Some (pi, li) -> wo_held w !! j = Some (pj, lj) ->
    active li -> active lj -> PortLease.path li = PortLease.path lj -> i = j
}.

Lemma held_without pid h i x : without pid h !! i = Some x -> h !! i = Some x /\ x.1 <> pid.
Proof. unfold without. rewrite map_lookup_filter_Some. done. Qed.

(** Processes that leave take only their own leases with them. *)
Lemma world_ok_leave w cs pid :
  world_ok w ->
  (forall i p l t, wo_held w !! i = Some (p, l) -> p <> pid -> PortLease.released l = false -> PortLease.token l = Some t ->
     cs !! PortLease.path l = wo_claims w !! PortLease.path l) ->
  world_ok (World cs (wo_alive w ∖ {[pid]}) (without pid (wo_held w))).
Proof.
  intros [H1 H2 H3 H4] Hcs. split; cbn [wo_claims wo_alive wo_held].
  - intros p [Hp _]%elem_of_difference. by apply H1.
  - intros i p l [Hl Hne]%held_without. apply elem_of_difference. split; [by eapply H2|]. by rewrite elem_of_singleton.
  - intros i p l t [Hl Hne]%held_without Hr Ht. rewrite (Hcs i p l t) by done. by eapply H3.
  - intros i j pi pj li lj [Hi _]%held_without [Hj _]%held_without. by eapply H4.
Qed.

(** Nobody takes the claim of an active lease. *)
Lemma active_blocked w e path i pid l t :
  world_ok w -> kill_sound w (ce_kill e) -> wo_held w !! i = Some (pid, l) -> PortLease.released l = false ->
  PortLease.token l = Some t -> PortLease.path l = path ->
  exists f, wo_claims w !! path = Some f /\ claimed_by pid t f /\ 0 < pid < 2 ^ 31 /\
    (ce_kill e pid = Delivered \/ ce_kill e pid = NotPermitted).
Proof.
  intros [H1 H2 H3 _] Hk Hl Hr Ht <-. destruct (H3 _ _ _ _ Hl Hr Ht) as (f & Hf & Hc). exists f.
  apply H2 in Hl. split_and!; try done; by apply H1 || apply Hk.
Qed.

Lemma claim_keeps_ok w e port dir cs x i :
  world_ok w -> ce_pid e ∈ wo_alive w -> kill_sound w (ce_kill e) -> nonempty (ce_token e) = true -> wo_held w !! i = None ->
  claim e port dir (wo_claims w) = (cs, x) ->
  world_ok (World cs (wo_alive w) (match x with Ok (Some l) => <[i := (ce_pid e, l)]> (wo_held w) | _ => wo_held w end)).
Proof.
  intros Hok Hpid Hk Htok Hi Hc. pose proof Hok as [H1 H2 H3 H4].
  assert (forall j p l t, wo_held w !! j = Some (p, l) -> PortLease.released l = false -> PortLease.token l = Some t ->
    PortLease.path l = claim_path port dir -> cs = wo_claims w /\ forall l', x <> Ok (Some l')) as Hblock.
  { intros j p l t Hl Hr Ht Hp. destruct (active_blocked _ e _ _ _ _ _ Hok Hk Hl Hr Ht Hp) as (f & Hf & Hcb & Hpp & Hka).
    by eapply claim_blocked. }
  assert (forall j p l t, wo_held w !! j = Some (p, l) -> PortLease.released l = false -> PortLease.token l = Some t ->
    cs !! PortLease.path l = wo_claims w !! PortLease.path l) as Hsame.
  { intros j p l t Hl Hr Ht. destruct (decide (PortLease.path l = claim_path port dir)) as [Hp|Hp].
    - by destruct (Hblock _ _ _ _ Hl Hr Ht Hp) as [-> _].
    - by eapply claim_other. }
  destruct x as [[l|]|y].
  2, 3: (split; cbn [wo_claims wo_alive wo_held]; try done; intros j p l t Hl Hr Ht; rewrite (Hsame j p l t) by done; by eapply H3).
  apply claim_lease in Hc as (_ & -> & Hfile).
  assert (forall j p l t, wo_held w !! j = Some (p, l) -> PortLease.released l = false -> PortLease.token l = Some t ->
    PortLease.path l <> claim_path port dir) as Hfresh.
  { intros j p l t Hl Hr Ht Hp. destruct (Hblock _ _ _ _ Hl Hr Ht Hp) as [_ Hno]. by eapply Hno. }
  split; cbn [wo_claims wo_alive wo_held].
  - done.
  - intros j p l. rewrite lookup_insert_Some. intros [[_ [= <- _]]|[_ Hl]]; [done|by eapply H2].
  - intros j p l t. rewrite lookup_insert_Some. intros [[_ [= <- <-]]|[_ Hl]] Hr Ht.
    + injection Ht as <-. eexists. split; [exact Hfile|]. by apply payload_claimed.
    + rewrite (Hsame j p l t) by done. by eapply H3.
  - intros j k pj pk lj lk. rewrite !lookup_insert_Some. intros [[<- [= <- <-]]|[Hj Hlj]] [[<- [= <- <-]]|[Hk' Hlk]] [[tj Htj] Hrj] [[tk Htk] Hrk] Hp; try done.
    + exfalso. by eapply Hfresh.
    + exfalso. by eapply Hfresh.
    + eapply H4; try done; split; eauto.
Qed.

Lemma release_keeps_ok w e i l cs l' x :
  world_ok w -> wo_held w !! i = Some (re_pid e, l) -> release e l (wo_claims w) = (cs, l', x) ->
  world_ok (World cs (wo_alive w) (<[i := (re_pid e, l')]> (wo_held w))).
Proof.
  intros [H1 H2 H3 H4] Hi Hrel. apply release_files in Hrel as (Hpath & Htok & Hidem & Hcs).
  assert (forall j p lj t, j <> i -> wo_held w !! j = Some (p, lj) -> PortLease.released lj = false -> PortLease.token lj = Some t ->
    cs !! PortLease.path lj = wo_claims w !! PortLease.path lj) as Hsame.
  { intros j p lj t Hne Hl Hr Ht. destruct Hcs as [->|(-> & Hr0 & Ht0 & _)]; [done|]. apply lookup_delete_ne. intros Hp.
    apply Hne. eapply H4; try done; split; eauto. }
  assert (PortLease.released l' = false -> cs = wo_claims w /\ PortLease.released l = false) as Hstill.
  { intros Hr. destruct Hcs as [->|(_ & _ & _ & Hr')]; [|congruence]. split; [done|].
    destruct (PortLease.released l) eqn:E; [|done]. rewrite Hidem in Hr by done. congruence. }
  split; cbn [wo_claims wo_alive wo_held].
  - done.
  - intros j p lj. rewrite lookup_insert_Some. intros [[<- [= <- <-]]|[_ Hl]]; by eapply H2.
  - intros j p lj t. rewrite lookup_insert_Some. intros [[<- [= <- <-]]|[Hne Hl]] Hr Ht.
    + destruct (Hstill Hr) as [-> Hr0]. rewrite Hpath. rewrite Htok in Ht. by eapply H3.
    + rewrite (Hsame j p lj t) by done. by eapply H3.
  - assert (forall p lj, active lj -> <[i := (re_pid e, l')]> (wo_held w) !! i = Some (p, lj) -> active l /\ PortLease.path lj = PortLease.path l) as Hown.
    { intros p lj [Ht Hr]. rewrite lookup_insert_eq. intros [= <- <-]. split; [|done]. split; [by rewrite <- Htok|by apply Hstill]. }
    intros j k pj pk lj lk Hj Hk Aj Ak Hp.
    destruct (decide (j = i)) as [->|Hji], (decide (k = i)) as [->|Hki]; try done.
    + destruct (Hown _ _ Aj Hj) as [Al Hpl]. rewrite lookup_insert_ne in Hk by done. eapply H4; try done. congruence.
    + destruct (Hown _ _ Ak Hk) as [Al Hpl]. rewrite lookup_insert_ne in Hj by done. eapply H4; try done. congruence.
    + rewrite lookup_insert_ne in Hj, Hk by done. by eapply H4.
Qed.

Lemma port_step_ok w w' : world_ok w -> port_step w w' -> world_ok w'.
Proof.
  intros Hok Hstep. pose proof Hok as [H1 H2 H3 H4]. destruct Hstep as [pid Hp Hn|pid|e port dir cs x i Hpid Hk Htok Hi Hc|e port dir cs rest Hpid Hk Ht|e i l cs l' x Hi Hrel].
  - split; cbn [wo_claims wo_alive wo_held]; try done.
    + intros p [->%elem_of_singleton|Hp']%elem_of_union; [done|by apply H1].
    + intros i p l Hl. apply elem_of_union_r. by eapply H2.
  - by apply world_ok_leave.
  - by eapply claim_keeps_ok.
  - apply world_ok_leave; [done|]. intros i p l t Hl Hne Hr Htk.
    destruct (decide (PortLease.path l = claim_path port dir)) as [Hp|Hp].
    + destruct (active_blocked _ e _ _ _ _ _ Hok Hk Hl Hr Htk Hp) as (f & Hf & Hcb & Hpp & Hka).
      destruct (take_claim_blocked _ _ _ _ _ _ Hf Hcb Hpp Hka) as (y & Hy & Hno). congruence.
    + rewrite lookup_insert_ne by done. by eapply take_claim_other.
  - by eapply release_keeps_ok.
Qed.

(** A node on which no process holds a lease yet; the directory may hold claims of the past. *)
Definition node_start (w : world) : Prop :=
  wo_held w = ∅ /\ forall pid, pid ∈ wo_alive w -> 0 < pid < 2 ^ 31.

Lemma node_start_ok w : node_start w -> world_ok w.
Proof. intros [Hh Hp]. split; [done|..]; rewrite Hh; intros *; by rewrite lookup_empty. Qed.

(** C16: A port has one owner: however the processes of a node claim, release, reclaim stale claims,
    start and die, also in the middle of a claim and with claims of the past on disk, two leases
    that were not given back are never for the same claim; the owner of each is alive, and the
    file of the claim names it. *)
Theorem port_leases_exclusive w0 w i pid l t :
  node_start w0 -> rtc port_step w0 w -> wo_held w !! i = Some (pid, l) -> PortLease.released l = false ->
  PortLease.token l = Some t ->
  pid ∈ wo_alive w /\ read_claim None (PortLease.path l) (wo_claims w) = Ok (pid, Some t) /\
  forall j pid' l', wo_held w !! j = Some (pid', l') -> active l' -> PortLease.path l' = PortLease.path l -> j = i.
Proof.
  intros Hs Hrun Hl Hr Ht. assert (world_ok w) as [_ H2 H3 H4].
  { apply node_start_ok in Hs. induction Hrun; [done|]. by eauto using port_step_ok. }
  split; [by eapply H2|]. destruct (H3 _ _ _ _ Hl Hr Ht) as (f & Hf & Hc). split; [by eapply read_claim_spec|].
  intros j pid' l' Hj Ha Hp. by eapply H4.
Qed.

(** ** The reservation *)

(** No system call of the claim fails. *)
Definition smooth (e : claim_env) : Prop :=
  ce_guard e = None /\ ce_create e = None /\ ce_lstat e = true /\ ce_read e = None /\ ce_unlink_stale e = true /\
  ce_recreate e = true /\ ce_write e = None /\ ce_drop e = None.

Definition out_of_range (pid : Z) : bool := (pid <? - 2 ^ 31) || (2 ^ 31 <=? pid).

(** A claim that stands in the way: not a file of ours, unreadable, with a live owner, or young. *)
Definition stands (e : claim_env) (f : claim_file) : bool :=
  match cf_kind f, parse_claim (cf_text f) with
  | OwnedRegular, Ok (owner, _) =>
      match ce_kill e owner with
      | Delivered | NotPermitted => true
      | NoSuchProcess | OtherFailure => Float.ltb (Float.sub (ce_now e) (cf_mtime f)) STALE_AFTER_S
      end
  | _, _ => true
  end.

(** A claim that names an owner that is no process number. *)
Definition damaged (f : claim_file) : bool :=
  match cf_kind f, parse_claim (cf_text f) with OwnedRegular, Ok (owner, _) => out_of_range owner | _, _ => false end.

(** The port is to be had. *)
Definition free (e : claim_env) (path : string) (cs : claims) : bool :=
  ce_bindable e && match cs !! path with None => true | Some f => negb (stands e f) end.

Lemma parse_claim_error t x : parse_claim t = Err x -> x = BadValue.
Proof. unfold parse_claim. repeat case_match; by intros [= <-]. Qed.

Lemma take_claim_smooth e path cs :
  smooth e -> (forall f, cs !! path = Some f -> damaged f = false) ->
  take_claim e path cs =
    if match cs !! path with None => true | Some f => negb (stands e f) end
    then (<[path := new_file e (LegacyText [])]> cs, Ok true) else (cs, Ok false).
Proof.
  intros (_ & Hc & Hl & Hr & Hu & Hre & _) Hd. unfold take_claim. destruct (cs !! path) as [f|] eqn:Hf; [|by rewrite Hc].
  specialize (Hd f eq_refl). rewrite Hl. unfold stands, damaged in *. cbn [negb].
  destruct (cf_kind f) eqn:Hk; [|done..]. unfold read_claim. rewrite Hr, Hf, Hk.
  destruct (parse_claim (cf_text f)) as [[owner tok]|y] eqn:Hp; [|by apply parse_claim_error in Hp as ->].
  unfold pid_alive. unfold out_of_range in Hd. rewrite Hd, Hu, Hre. cbn [negb].
  by destruct (ce_kill e owner), (Float.ltb _ _).
Qed.

Lemma claim_smooth e port dir cs :
  smooth e -> (forall f, cs !! claim_path port dir = Some f -> damaged f = false) ->
  exists cs', claim e port dir cs =
    (cs', Ok (if free e (claim_path port dir) cs
              then Some (PortLease.mk port (claim_path port dir) (Some (ce_token e)) false) else None)).
Proof.
  intros He Hd. pose proof He as (Hg & _ & _ & _ & _ & _ & Hw & Hdr). unfold claim, free, fill_claim, probe_claim.
  rewrite Hg, take_claim_smooth by done. destruct (match cs !! _ with None => _ | Some f => _ end).
  - rewrite Hw. destruct (ce_bindable e); [by eexists|]. rewrite Hdr. by eexists.
  - rewrite andb_false_r. by eexists.
Qed.

Lemma append_inj_r a b c : a +:+ c = b +:+ c -> a = b.
Proof. intros H. apply chars_inj. apply (f_equal chars) in H. rewrite !chars_app in H. by apply app_inv_tail in H. Qed.

Lemma claim_path_inj dir p q : claim_path p dir = claim_path q dir -> p = q.
Proof.
  unfold claim_path, join_path, str_Z. intros H.
  assert (pretty p +:+ ".lock" = pretty q +:+ ".lock") as H'.
  { destruct (String.length dir); [done|]. destruct (String.eqb _ _); by repeat apply (inj (String.append _)) in H. }
  apply append_inj_r in H'. by apply (inj pretty) in H'.
Qed.

Lemma claim_damaged e port dir cs f :
  smooth e -> cs !! claim_path port dir = Some f -> damaged f = true -> claim e port dir cs = (cs, Err OutOfRange).
Proof.
  intros (Hg & _ & Hl & Hr & _) Hf Hd. unfold claim, take_claim, damaged in *. rewrite Hg, Hf, Hl. cbn [negb].
  destruct (cf_kind f) eqn:Hk; [|done..]. unfold read_claim. rewrite Hr, Hf, Hk.
  destruct (parse_claim (cf_text f)) as [[owner tok]|y]; [|done]. unfold pid_alive. unfold out_of_range in Hd. by rewrite Hd.
Qed.

Lemma claim_first_spec envs dir ports cs :
  (forall p, smooth (envs p)) -> NoDup ports ->
  let is_free p := free (envs p) (claim_path p dir) cs in
  match claim_first envs dir ports cs with
  | (cs', Ok (Some l)) => exists pre p post, ports = pre ++ p :: post /\ is_free p = true /\
      Forall (fun q => is_free q = false) pre /\
      l = PortLease.mk p (claim_path p dir) (Some (ce_token (envs p))) false /\
      cs' !! claim_path p dir = Some (new_file (envs p) (JsonText (claim_payload (envs p)))) /\
      forall path, (forall q, q ∈ ports -> path <> claim_path q dir) -> cs' !! path = cs !! path
  | (_, Ok None) => Forall (fun q => is_free q = false) ports
  | (_, Err x) => x = OutOfRange /\ exists p f, p ∈ ports /\ cs !! claim_path p dir = Some f /\ damaged f = true
  end.
Proof.
  intros He. revert cs. induction ports as [|p ports IH]; intros cs Hnd; [constructor|].
  apply NoDup_cons in Hnd as [Hp Hnd]. cbn [claim_first].
  assert ((exists f, cs !! claim_path p dir = Some f /\ damaged f = true) \/
          forall f, cs !! claim_path p dir = Some f -> damaged f = false) as [(f & Hf & Hd)|Hd].
  { destruct (cs !! claim_path p dir) as [f|]; [|by right]. destruct (damaged f) eqn:E; [left; eauto|right]. by intros f' [= <-]. }
  { rewrite (claim_damaged _ _ _ _ _ (He p) Hf Hd). split; [done|]. exists p, f. split; [left|done]. }
  destruct (claim_smooth (envs p) p dir cs (He p) Hd) as [cs1 Hc]. rewrite Hc.
  destruct (free (envs p) (claim_path p dir) cs) eqn:Hfree.
  { exists [], p, ports. split_and!; try done. { by apply claim_lease in Hc as (_ & _ & ?). }
    intros path Hpath. apply (claim_other _ _ _ _ _ _ _ Hc). apply Hpath. left. }
  assert (forall q, q ∈ ports -> cs1 !! claim_path q dir = cs !! claim_path q dir) as Hsame.
  { intros q Hq. apply (claim_other _ _ _ _ _ _ _ Hc). intros ->%claim_path_inj. done. }
  assert (forall q, q ∈ ports -> free (envs q) (claim_path q dir) cs1 = free (envs q) (claim_path q dir) cs) as Hfs.
  { intros q Hq. unfold free. by rewrite Hsame. }
  assert (forall l, (forall q, q ∈ l -> q ∈ ports) -> Forall (fun q => free (envs q) (claim_path q dir) cs1 = false) l ->
    Forall (fun q => free (envs q) (claim_path q dir) cs = false) (p :: l)) as Hall.
  { intros l Hl H. constructor; [done|]. rewrite Forall_forall in H |- *. intros q Hq. rewrite <- Hfs by auto. auto. }
  specialize (IH cs1 Hnd). destruct (claim_first envs dir ports cs1) as [cs' [[l|]|x]].
  - destruct IH as (pre & r & post & Hports & Hr & Hpre & Hl & Hfile & Hrest). exists (p :: pre), r, post.
    assert (forall q, q ∈ r :: pre -> q ∈ ports) as Hin.
    { intros q. rewrite Hports, elem_of_cons, elem_of_app, elem_of_cons. tauto. }
    split_and!; try done.
    + by rewrite Hports.
    + rewrite <- Hfs; [done|]. apply Hin, elem_of_cons. by left.
    + apply Hall; [|done]. intros q Hq. apply Hin, elem_of_cons. by right.
    + intros path Hpath. rewrite Hrest.
      * apply (claim_other _ _ _ _ _ _ _ Hc). apply Hpath, elem_of_cons. by left.
      * intros q Hq. apply Hpath, elem_of_cons. by right.
  - by apply Hall.
  - destruct IH as (-> & q & f & Hq & Hf & Hdm). split; [done|]. exists q, f. rewrite Hsame in Hf by done.
    split_and!; try done. apply elem_of_cons. by right.
Qed.

(** C27: A reservation that no system call disturbs takes the lowest free port of its range: every
    lower one is taken, young, unreadable or not to be bound; its claim is on disk, and claims
    outside the range are as before. It fails only when no port of the range is free, or, with
    an error that is not a [PortUnavailable], on a claim whose owner is no process number. *)
Theorem reserve_port_lowest envs default_dir listed start retries host lease_dir cs :
  (forall p, smooth (envs p)) -> 1 <= start <= 65535 -> 1 <= retries -> is_text_value host = true ->
  (lease_dir = VNone \/ is_text_value lease_dir = true) ->
  let dir := default default_dir (nonempty_str lease_dir) in
  let in_range p := start <= p < Z.min 65536 (start + retries) in
  let is_free p := free (envs p) (claim_path p dir) cs in
  match reserve_port envs default_dir true listed (VInt start) (VInt retries) host lease_dir cs with
  | (cs', Ok l) =>
      let p := PortLease.port l in
      in_range p /\ is_free p = true /\ (forall q, in_range q -> q < p -> is_free q = false) /\
      PortLease.released l = false /\ cs' !! PortLease.path l = Some (new_file (envs p) (JsonText (claim_payload (envs p)))) /\
      forall path, (forall q, in_range q -> path <> claim_path q dir) -> cs' !! path = cs !! path
  | (_, Err x) =>
      (exists text, x = PortUnavailable text /\ forall q, in_range q -> is_free q = false) \/
      (x = OutOfRange /\ exists q f, in_range q /\ cs !! claim_path q dir = Some f /\ damaged f = true)
  end.
Proof.
  intros He Hs Hr Hh Hl dir in_range is_free. unfold reserve_port.
  rewrite (proj2 (Z.ltb_ge _ _)), (proj2 (Z.leb_le 1 start)), (proj2 (Z.leb_le start 65535)), Hh by lia. cbn [negb andb].
  assert (match lease_dir with VNone => true | v => is_text_value v end = true) as ->.
  { destruct Hl as [->|Hl]; [done|]. by destruct lease_dir. }
  cbn [negb]. fold dir. set (stop := Z.min 65536 (start + retries)).
  assert (forall q, q ∈ seqZ start (stop - start) <-> in_range q) as Hin.
  { intros q. rewrite elem_of_seqZ. unfold in_range. fold stop. lia. }
  pose proof (claim_first_spec envs dir (seqZ start (stop - start)) cs He (NoDup_seqZ _ _)) as H.
  destruct (claim_first _ _ _ _) as [cs' [[l|]|x]].
  - destruct H as (pre & p & post & Hports & Hfree & Hpre & -> & Hfile & Hrest). cbn [PortLease.port PortLease.path].
    split_and!; try done.
    + apply Hin. rewrite Hports, elem_of_app, elem_of_cons. tauto.
    + intros q Hq Hlt. apply Hin in Hq. rewrite Hports, elem_of_app, elem_of_cons in Hq.
      rewrite Forall_forall in Hpre. destruct Hq as [Hq|[->|Hq]]; [by apply Hpre|lia|]. exfalso.
      pose proof (seqZ_sorted start (stop - start)) as Hsort. rewrite Hports in Hsort.
      apply StronglySorted_app in Hsort as (_ & _ & Hsort). apply StronglySorted_inv in Hsort as [_ Hsort].
      rewrite Forall_forall in Hsort. specialize (Hsort q Hq). lia.
    + intros path Hpath. apply Hrest. intros q Hq. apply Hpath. by apply Hin.
  - left. eexists. split; [done|]. intros q Hq. rewrite Forall_forall in H. by apply H, Hin.
  - right. destruct H as (-> & q & f & Hq & Hf & Hd). split; [done|]. exists q, f. split_and!; try done. by apply Hin.
Qed.

(** ** Torn claims *)

(** The text that a claim has before it is complete: nothing, or what no reader understands. *)
Definition torn (t : claim_text) : Prop := t = LegacyText [] \/ parse_claim t = Err BadValue.

Lemma torn_blocks e path cs f :
  cs !! path = Some f -> cf_kind f = OwnedRegular -> torn (cf_text f) -> ce_kill e (-1) = Delivered ->
  exists x, take_claim e path cs = (cs, x) /\ x <> Ok true.
Proof.
  intros Hf Hk Ht Hkill. unfold take_claim. rewrite Hf. destruct (negb (ce_lstat e)); [by eexists|]. rewrite Hk.
  unfold read_claim. destruct (ce_read e) as [y|]; [by destruct (os_or_value y); eexists|]. rewrite Hf, Hk.
  destruct Ht as [Ht|Ht]; rewrite Ht; [|by eexists]. cbn [parse_claim]. unfold pid_alive. rewrite Hkill. by eexists.
Qed.

(** C28: A process that dies inside its claim, before the text of the claim is complete, blocks the
    port for good: an empty claim reads as the process -1, which the signal always finds, and a
    partial one cannot be read; whatever its age, no claim takes it and no release removes it. *)
Theorem torn_claim_is_permanent e0 port dir cs0 cs1 rest e re l :
  take_claim e0 (claim_path port dir) cs0 = (cs1, Ok true) -> torn rest ->
  ce_kill e (-1) = Delivered -> PortLease.path l = claim_path port dir ->
  let cs := <[claim_path port dir := new_file e0 rest]> cs1 in
  (claim e port dir cs).1 = cs /\ (forall l', (claim e port dir cs).2 <> Ok (Some l')) /\
  (release re l cs).1.1 = cs.
Proof.
  intros Ht0 Hrest Hkill Hl cs.
  assert (cs !! claim_path port dir = Some (new_file e0 rest)) as Hf by apply lookup_insert_eq.
  destruct (torn_blocks e _ cs _ Hf eq_refl Hrest Hkill) as (x & Hx & Hne). split; [|split].
  - unfold claim. rewrite Hx. destruct (ce_guard e); [done|]. by destruct x as [[]|].
  - intros l'. unfold claim. rewrite Hx. destruct (ce_guard e); [done|]. by destruct x as [[]|].
  - unfold release, drop_claim. destruct (PortLease.released l); [done|]. destruct (PortLease.token l) as [t|] eqn:Htok; [|done].
    destruct (re_guard re) as [y|]; [by destruct y|]. unfold read_claim. destruct (re_read re) as [y|]; [by destruct y|].
    rewrite Hl, Hf. cbn [cf_kind new_file]. destruct Hrest as [->|Hp].
    + cbn [cf_text new_file parse_claim]. rewrite (bool_decide_false (None = Some t)), andb_false_r by done. done.
    + change (cf_text (new_file e0 rest)) with rest. by rewrite Hp.
Qed.

(** ** Witnesses *)

Definition demo_kill (alive : list Z) (pid : Z) : kill_answer :=
  if bool_decide (pid ∈ alive) || (pid =? -1) then Delivered else NoSuchProcess.

Definition demo_claim (pid : Z) (token : string) (now : Z) (bindable : bool) : claim_env :=
  ClaimEnv pid token None None true None (demo_kill [7; 8]) (Float.of_Z now) true true (Float.of_Z now) None bindable None None true.

Definition demo_dir : string := "/tmp/exaserve-ports-0".
Definition demo_path : string := claim_path 23000 demo_dir.

(** The claim of a process that died two hours ago. *)
Definition demo_past : claims :=
  {[demo_path := ClaimFile OwnedRegular (JsonText (VDict [("pid", VInt 3); ("token", VStr "x")])) (Float.of_Z 1000)]}.

Definition demo_lease : PortLease.t := PortLease.mk 23000 demo_path (Some "t7") false.

Definition demo_node : world := World demo_past {[7; 8]} ∅.

Lemma demo_alive pid : pid ∈ wo_alive demo_node -> pid = 7 \/ pid = 8.
Proof. cbn. rewrite elem_of_union, !elem_of_singleton. done. Qed.

Lemma port_leases_exclusive_witness :
  exists w, rtc port_step demo_node w /\ wo_held w !! 0%nat = Some (7, demo_lease) /\
    read_claim None demo_path (wo_claims w) = Ok (7, Some "t7").
Proof.
  destruct (claim (demo_claim 7 "t7" 9000 true) 23000 demo_dir demo_past) as [cs x] eqn:Hc.
  assert (x = Ok (Some demo_lease)) as ->.
  { change x with (cs, x).2. rewrite <- Hc. vm_compute. reflexivity. }
  assert (7 ∈ wo_alive demo_node) as H7 by (cbn; rewrite elem_of_union, !elem_of_singleton; left; reflexivity).
  assert (kill_sound demo_node (demo_kill [7; 8])) as Hk.
  { intros pid Hp. destruct (demo_alive pid Hp) as [-> | ->]; left; reflexivity. }
  pose proof (PortClaim demo_node (demo_claim 7 "t7" 9000 true) 23000 demo_dir cs (Ok (Some demo_lease)) 0%nat H7 Hk eq_refl
    eq_refl Hc) as Hstep.
  eexists. split; [eapply rtc_l; [exact Hstep|apply rtc_refl]|]. split; [reflexivity|].
  apply (port_leases_exclusive demo_node _ 0%nat 7 demo_lease "t7").
  - split; [reflexivity|]. intros pid Hp. destruct (demo_alive pid Hp) as [-> | ->]; lia.
  - eapply rtc_l; [exact Hstep|apply rtc_refl].
  - reflexivity.
  - reflexivity.
  - reflexivity.
Defined.

(** Process 8 asks for a port from 23000 on while process 7 lives. *)
Definition demo_taken : claims :=
  {[demo_path := ClaimFile OwnedRegular (JsonText (VDict [("pid", VInt 7); ("token", VStr "t7")])) (Float.of_Z 1000)]}.
Definition demo_envs (p : Z) : claim_env := demo_claim 8 "t8" 9000 (negb (p =? 23001)).

Lemma reserve_port_lowest_witness :
  exists cs' l, reserve_port demo_envs demo_dir true true (VInt 23000) (VInt 100) (VStr "127.0.0.1") VNone demo_taken = (cs', Ok l) /\
    PortLease.port l = 23002 /\ free (demo_envs 23000) (claim_path 23000 demo_dir) demo_taken = false.
Proof.
  assert (forall p, smooth (demo_envs p)) as He by (intros p; repeat split).
  pose proof (reserve_port_lowest demo_envs demo_dir true 23000 100 (VStr "127.0.0.1") VNone demo_taken He) as H.
  assert (match reserve_port demo_envs demo_dir true true (VInt 23000) (VInt 100) (VStr "127.0.0.1") VNone demo_taken with
          | (_, Ok l) => PortLease.port l =? 23002 | _ => false end = true) as Hp by (vm_compute; reflexivity).
  destruct (reserve_port demo_envs demo_dir true true _ _ _ _ _) as [cs' [l|]]; [|discriminate Hp].
  apply Z.eqb_eq in Hp. exists cs', l. split; [reflexivity|]. split; [exact Hp|].
  destruct H as (_ & _ & Hq & _); [lia|lia|reflexivity|left; reflexivity|].
  apply Hq; [lia|]. rewrite Hp. lia.
Defined.

Lemma torn_claim_is_permanent_witness :
  exists cs1, take_claim (demo_claim 7 "t7" 1000 true) demo_path ∅ = (cs1, Ok true) /\
    let cs := <[demo_path := new_file (demo_claim 7 "t7" 1000 true) (LegacyText [])]> cs1 in
    (claim (demo_claim 8 "t8" 90000 true) 23000 demo_dir cs).1 = cs.
Proof.
  destruct (take_claim (demo_claim 7 "t7" 1000 true) demo_path ∅) as [cs1 x] eqn:Ht.
  assert (x = Ok true) as ->.
  { change x with (cs1, x).2. rewrite <- Ht. vm_compute. reflexivity. }
  exists cs1. split; [reflexivity|].
  apply (torn_claim_is_permanent (demo_claim 7 "t7" 1000 true) 23000 demo_dir ∅ cs1 (LegacyText []) (demo_claim 8 "t8" 90000 true)
    (ReleaseEnv 8 None None None) demo_lease Ht).
  - left. reflexivity.
  - reflexivity.
  - reflexivity.
Defined.
